(* ===== verification/_CoqProject ===== *)
-Q . S2P
Prelude.v
PyVal.v
Decimal.v
Text.v
Assoc.v
Hex.v
Format.v
Budget.v
BudgetGraph.v
BudgetSound.v
BudgetGate.v
BudgetElf.v
Decoders.v
DecodersSpec.v
DecodersWire.v
Export.v
ExportSpec.v
ExportText.v
Combine.v
CombineSpec.v
CombineExchange.v
Journal.v
JournalSpec.v
JournalReplay.v
Authority.v
Joins.v
JoinsSpec.v
Relo.v
ReloSpec.v
Target.v
AuthoritySpec.v
Sign.v
Admit.v
Bind.v
Loader.v
LoaderSpec.v
LoaderWire.v
LoaderConfig.v
HookMap.v
HookIndex.v
Probe.v
TypeCat.v
Trace.v
TraceSem.v
TraceSound.v
TraceDecl.v
TraceRead.v
TraceIndex.v
TraceDemo.v
Hist.v
TpDump.v
Inline.v
Template.v
Headers.v
Json.v
Origin.v
OriginSpec.v
OriginRuns.v
Image.v
Deliver.v
Explore.v
Icap.v
Pipeline.v
MetaExport.v
MetaExportSpec.v
HookDoc.v
HookList.v
TraceRun.v
ProbeMain.v
LoaderProc.v
Aigw.v
AigwSpec.v
Suite.v
Lifetime.v
LifetimeSpec.v
Correlate.v
CorrelateSpec.v
Client.v
ClientSpec.v
Observers.v
