(* ===== verification/Prelude.v ===== *)
(** * Verification of the Python tooling of eob-tmm

    eob-tmm attaches small verified programs to functions of a traffic data plane
    and turns what they record into activities with an accountable identity.  The
    data plane is C; everything around it is Python, and that Python is what this
    development models: the gates a program passes before it is signed, the tools
    that decide where it attaches and write that into the object, the commands that
    put it on the wire, the pipeline that carries its records to an exported
    activity, and the fixture and suites that exercise all of it.

    ** The parts and how they interact

    A program object goes through [budget_pass] (its worst-case cost),
    [check_relo_baked] (the relocations the relocator wrote), the admission gates
    of exit hooks, and one of the binders, which resolves a function name against
    the index [mk_hook_map] wrote and stores the target in the object.
    [sign_shield] signs it and [ls-load], the test client or [bnk-deliver-program]
    sends it.  At run time the records of the programs reach [stream_collector], a
    journal with replay pages; [activity_export] and [activity_combine] read the
    pages, use the record decoders, and emit activities; [attribution] is the
    authority whose ledger [attribution_join] and [correlation_join] join them with,
    inside the windows of [gap_window].  A program can also be written as one line
    of the trace language: [tmmtrace] resolves its names in the index of signatures
    [mk_probe] builds and in the catalog of types [gen_type_catalog] makes, and
    generates its C.  [bnk-explore-hooks] asks a running build what can be armed and
    arms a probe for a while.  In the fixture, [client] sends traffic to [backend]
    through the data plane, [icap_gate] inspects it, and the suites of
    env/ai-traffic drive the loader, read what the programs reported and hand it
    to the joins; the suites of env/aigw do the same for the AI gateway.

    ** Files

    Shared:
    - [Prelude]: exceptions and results, bytes, little-endian integers, slices,
      strings, and the lemmas, tactics and hints shared by all files.  [PyVal]:
      Python values, dicts as association lists, canonical JSON.  [Decimal]:
      decimal text.  [Text]: [str] methods, lines, [int()] with a base, and the
      pieces regular expressions are made of.  [Assoc]: ordered dictionaries.
      [Hex], [Format]: hexadecimal and padded texts, sorting.  [Json]: the writers
      of [json.dumps] (compact, spaced, indented), a reader, and that the reader
      reads back what any of them wrote.

    Before a program is signed:
    - [Budget] (substrate/budget_pass.py): the ELF reader, the decoder, the graph,
      [dfs], [best], the gate and [main].  [BudgetElf]: the program section and the
      decoder.  [BudgetGraph], [BudgetSound]: search lemmas, and the gate against
      the runs of the program, its abstract specification.  [BudgetGate]: the
      theorems.
    - [Relo] (substrate/check_relo_baked.py), [ReloSpec]: the type information, the
      relocation records, resolution by name and the exit status.
    - [Target] (ls_buildid.py, bind_target.py): build ids, sections, resolution of
      a hook.  [Bind]: the [main]s of bind_target.py, bind_targets.py and
      bind_snapshot.py.  [Admit] (exit_admit.py, completion_admit.py): the exit
      gates.
    - [Headers] (mk_tramp_asm.py, gen_sig_pubkey.py, mk_shield_blob.py): generated
      C files.

    Where programs attach:
    - [HookMap] (substrate/mk_hook_map.py): the map of what can be armed.  [HookDoc]:
      the document, the counts, and the walk of a disassembly with symbols.
      [Inline] (mk_inline_status.py): inlined copies, written into the map.
      [HookIndex]: the index file between the map and its three readers; the class
      [IndexReader] is what a reader promises and the binder, the loader and the
      explorer are its instances.  [HookList]: the listing of [tmmtrace].
      [Explore] (env/scripts/bnk-explore-hooks.py): the explorer and its live probe.

    Signing and delivery:
    - [Sign] (sign_shield.py, loader-client/ls_client.py): the binding, its
      signature, the client's request.  [Loader] (env/scripts/ls-load.py): the
      loader command.  [LoaderSpec]: its build-id reader and resolver.  [LoaderWire]:
      its messages, and a signed program from signer to socket.  [LoaderConfig]:
      configuration documents.  [LoaderProc]: the running process, through /proc.
      [Template] (template_io.py): the tutorial program's document and records.
      [TpDump] (ls_tp_dump.py): the reader of the shared segment.  [Deliver]
      (bnk-deliver-program.py): the script that runs in a pod.  [Image]
      (check-image-metadata.py): what an image may not carry.

    From records to activities:
    - [Decoders] (env/ai-traffic/*_decode.py): one decoder per record kind and the
      group envelope.  [DecodersSpec]: decoding loses nothing.  [DecodersWire]: the
      numeric-ID grammar and the frame.
    - [Export] (activity_export.py), [ExportSpec], [ExportText]: the projection of
      events, and what its activities and texts mean.  [MetaExport]
      (metadata_export.py), [MetaExportSpec]: the metadata document and its page.
    - [Combine] (activity_combine.py), [CombineSpec], [CombineExchange]: the
      combiner as a state machine, its bounds, conservation of rows, and the
      evidence behind an observed exchange.
    - [Journal] (stream_collector.py), [JournalSpec], [JournalReplay]: the journal's
      transactions, its ring cursors, acknowledgement and paging.  [Pipeline]: the
      mains of the combiner and the exporter that follow a journal.
    - [Authority] (attribution.py), [AuthoritySpec]: requests, proofs, grants and the
      ledger, and the connections requests come over.
    - [Joins] (attribution_join.py, correlation_join.py, gap_window.py, a Module
      each), [JoinsSpec]: the exactly-one joins and the window.

    Generated programs:
    - [Probe] (substrate/mk_probe.py): generated probes and their index.
      [ProbeMain]: its command.
    - [TypeCat] (substrate/gen_type_catalog.py): the catalog of struct fields made
      from a dump of the types.
    - [Trace] (substrate/tmmtrace.py): the trace language, from the expression to
      the C program.  [TraceSem]: the statements of a generated program with their
      text and their meaning, and the meaning of an expression, its abstract
      specification.  [TraceSound]: the program refines it.  [TraceDecl]: its
      declarations.  [TraceRead]: its reads against the catalog.  [TraceIndex]: one
      index of signatures for [mk_probe] and [tmmtrace].  [TraceDemo]: a small build
      and what is generated against it.  [TraceRun]: the commands.  [Hist]: the
      histogram.

    The fixture and the suites:
    - [Origin] (env/ai-traffic/backend.py): the server, each handler thread a sequence
      of small steps.  [OriginSpec]: the shape of its memory.  [OriginRuns]: the
      isolation of runs.  [Client] (client.py), [ClientSpec]: the traffic client, and
      a suite of it against [Origin].  [Icap] (icap_gate.py): the inspector.
    - [Suite] (config_suite.py): commands, sockets and files as an oracle on what was
      done before, a state and error monad over it, and the configuration run.
      [Lifetime], [LifetimeSpec] (lifetime_suite.py): the observer of parser contexts;
      the class [HasObserver] is what the suites that extend it keep.  [Correlate],
      [CorrelateSpec] (correlation_suite.py, gap_suite.py): the windows handed to the
      join.  [Observers] (metadata_suite.py, request_scope_suite.py, a Module each): the
      records of the protocol handlers, and calls of the parser that name nobody.
    - [Aigw], [AigwSpec] (env/aigw/aigw_ebpf_suite.py, aigw_timing_suite.py): the
      records and stages of the AI gateway.

    ** The model

    A function that may raise returns a [result]; each exception the callers tell
    apart is a constructor of [exn], and an exception's text is kept only as far as
    a caller looks at it.  State is passed explicitly: a record per component
    ([combiner], [journal], [authority], [window], [origin]), a function per method,
    and runs as folds over the inputs; the suites use a monad that keeps what a
    method changed when it raises.  Bytes are integers from 0 to 255 in lists;
    [struct] formats, slices with Python's bounds, [hex], [int()], [fnmatch] and UTF-8
    are written out.  Widths appear where the code packs or checks them; Python's
    integers are [Z].

    Recursion that is not structural has fuel, and the fuel is shown to be enough.
    Where Python's own limit on recursion can end a search, the number of calls that
    fit is a parameter ([RecursionLimit]): [dfs] and [best] nest once per block at
    most, and end in RecursionError when that is more ([gate_refuses_loops]).  For
    the rest, [index_from] and [relo_groups] end within the length of their
    section ([parse_btf_total], [core_relos_total]), a client that pages reads
    everything within one request more than there are events, and the digits of
    an integer end within its logarithm.  Walks over types have RECURSION, the
    depth at which Python's recursion ends.  A connection is served within one
    round more than it has bytes ([serve_enough]); the declarations of a generated
    program end within the structs it reads, one level each ([emit_all_total]);
    DEPTH is the depth at which the type catalog itself stops: it finds a type behind
    at most twelve typedefs and qualifiers.  Loops the code
    bounds itself (polls, waits, attempts) have its bounds.

    ** What the theorems show

    - The cost gate, where the recursion limit lets it answer, refuses exactly the
      programs that can loop and prices exactly the worst run; it exits 0 only for
      programs within the budget.
    - Decoders are lossless; an exported activity is always the content of a
      qualified record; the combiner is bounded, conserves rows and claims an
      exchange only on full evidence; the journal stores the intervals of a ring end
      to end, accepts idempotently, acknowledges only what is stored and pages
      everything out; what was collected is what the follower combines, wherever the
      collection stops.
    - The authority records an actor only on that actor's proof, accepts no nonce
      twice, and delegation keeps the originator; joins attribute only on a unique
      row inside a window without a gap, and a gap is permanent.
    - A clean relocation check means every immediate is right by name.  A resolved
      hook is the padded entry that index and binary agree on; bound records read
      back; the exit gate decides by the return value as C spells it, the unwind
      imports and the frame, and admits where the frame was not decided; snapshots go
      only into functions declared void.
    - The hook map lists only what the bytes allow, its two ways of walking a
      disassembly agree, the index serves its three readers alike, and the listing
      shows what the build has, through the files the map was written to, with
      inlined copies counted by name. A live probe stays in its pods and slots and
      sends a disarm for everything it was told is armed, until one of them fails,
      whatever the cluster answers; it does not look at those answers, and an arm
      command that ended in an exception is not disarmed.
    - The loader's build-id reader agrees with the canonical one; what the signer
      signed is what the loader sends, a program to load is always signed (the one that
      [bench] sends to be timed is not), and delivery to
      pods is loading in each of them; a configuration is complete, advances, and
      reads back.  The image gate passes exactly the images without the metadata.
    - A generated probe's record fits its ceiling, is made from the debug file of the
      shipped binary's build id, and the signature index gives the probe generator
      and the trace language the same parameters.
    - The catalog of types is exact for a struct defined once; a trace expression
      reads only along members of the types, never a bitfield; the program generated
      computes what the expression means, whatever memory it runs over, when its
      arguments are among the five words of the context, and
      declares what it reads with the types it reads.
    - Everything the origin holds keeps its type and runs that share it do not see
      each other; a run of the client accounts for every request once, on both sides;
      the inspector gives a verdict only on a whole message.
    - The records of a session that reconciled are a window of the correlation join,
      and a session with a detached hook attributes nothing; a configuration run that
      passed has counted what it caused; a metadata test keeps its streams unbroken and
      accounts for what it leaves armed, however it ends; calls seen at an address are
      counted and attributed to nobody.  Gateway records are put together from their
      chunks in whatever order they come, and the requests partition the events.

    ** Parameters

    Code the sources only call is a parameter: sha256, HMAC, uuid4, the clocks, the
    JSON reader where its result is only looked at, sha1, SQLite's commit, the page
    limit of a request, the relocator, objcopy, openssl, clang and PREVAIL, and the
    texts printed by nm, readelf, objdump, bpftool, gdb and llvm-dwarfdump.  Files are
    functions from paths to bytes, /proc a listing with links; tar archives and
    extracted packages are their contents; a socket is a function from what is sent
    to what comes back.  kubectl, and the commands, sockets and files of the suites, are
    oracles on the history of what was done.

    ** Not modelled

    Memory limits; floating-point numbers (a stored clock reading is a whole
    second); the texts of messages beyond what is compared; program text outside
    ASCII where the source decodes as UTF-8 with replacement (names of types and
    sections excepted); hosts in brackets in a request's target; durability of
    SQLite, scheduling and sockets, beyond the interleavings of the origin's steps;
    the limit on the digits of [int()]; the DIEs pyelftools reads (given as data);
    the extraction of packages; the pages printed for people beyond the lines named;
    in the suites, the traffic they send through the product, its configuration and
    the start of pods; the verifiers of saved evidence, the build, deployment and
    discovery scripts, which run commands and save what they print; and the C of the
    data plane. *)

From Stdlib Require Export Ascii ZArith Lia.
From stdpp Require Export base list strings pretty gmap sorting.

Declare Scope py_scope.
Delimit Scope py_scope with py.
Global Open Scope Z_scope.
Global Open Scope py_scope.

(** ** Exceptions and results

    A Python function that may raise returns a [result]: [Ok v] for a return
    value, [Err e] for the exception that leaves the function. *)

Inductive exn :=
| ValueError (msg : string)
| StructError
| OverflowError
| KeyError (key : string)
| TypeError
| IndexError
| AssertionError
| UnicodeError
| SystemExit (msg : string)
| Rejected (reason : string)
| DslError (msg : string)
| StopIteration
| AttributeError
| RuntimeError (msg : string)
| OSError (msg : string)
| LimitOverrunError
| EOFError
| KeyboardInterrupt
| RecursionError
| OutOfFuel.

Inductive result (A : Type) :=
| Ok (a : A)
| Err (e : exn).
Arguments Ok {A} _.
Arguments Err {A} _.

Notation "'let?' x := c 'in' k" :=
  (match c with Ok x => k | Err e => Err e end)
  (at level 10, x pattern, c at level 100, k at level 200) : py_scope.

(** [raise_if b e k]: [if b: raise e] followed by [k]. *)
Notation "'raise_if' b e ';;' k" :=
  (if b then Err e else k)
  (at level 10, b at level 0, e at level 0, k at level 200) : py_scope.

Definition is_ok {A} (r : result A) : bool :=
  match r with Ok _ => true | Err _ => false end.

Lemma Ok_inj {A} (a b : A) : Ok a = Ok b -> a = b.
Proof. by intros [=]. Qed.

Fixpoint mapM_r {A B} (f : A -> result B) (l : list A) : result (list B) :=
  match l with
  | [] => Ok []
  | x :: t => let? y := f x in let? ys := mapM_r f t in Ok (y :: ys)
  end.

(** ** Bytes

    A [bytes] object is a list of integers; [is_bytes] says each is an octet. *)

Abbreviation bytes := (list Z).

Definition is_byte (b : Z) : Prop := 0 <= b < 256.
Definition is_bytes (l : bytes) : Prop := Forall is_byte l.

Definition len {A} (l : list A) : Z := Z.of_nat (length l).

(** Slicing.  [zdrop]/[ztake] recurse on the list so that they evaluate on any
    offset, however large. *)
Fixpoint zdrop {A} (n : Z) (l : list A) : list A :=
  match l with
  | [] => []
  | _ :: t => if n <=? 0 then l else zdrop (n - 1) t
  end.

Fixpoint ztake {A} (n : Z) (l : list A) : list A :=
  match l with
  | [] => []
  | x :: t => if n <=? 0 then [] else x :: ztake (n - 1) t
  end.

(** [l[a:b]] for non-negative [a] and [b]. *)
Definition slice {A} (a b : Z) (l : list A) : list A := ztake (b - a) (zdrop a l).

(** [l[a:b]] for any [a] and [b]: a negative bound counts from the end. *)
Definition norm_index (n i : Z) : Z := if i <? 0 then Z.max 0 (i + n) else i.
Definition pyslice {A} (a b : Z) (l : list A) : list A :=
  slice (norm_index (len l) a) (norm_index (len l) b) l.

(** [l[i]] for a non-negative [i]. *)
Definition at_index {A} (l : list A) (i : Z) : result A :=
  if i <? 0 then Err IndexError else
  match zdrop i l with x :: _ => Ok x | [] => Err IndexError end.

Fixpoint bytes_eqb (a b : bytes) : bool :=
  match a, b with
  | [], [] => true
  | x :: a', y :: b' => (x =? y) && bytes_eqb a' b'
  | _, _ => false
  end.

Fixpoint is_prefix (p l : bytes) : bool :=
  match p, l with
  | [], _ => true
  | x :: p', y :: l' => (x =? y) && is_prefix p' l'
  | _ :: _, [] => false
  end.

(** [l.find(p)] counted from [i]; [-1] when absent. *)
Fixpoint find_from (p l : bytes) (i : Z) : Z :=
  if is_prefix p l then i else
  match l with
  | [] => -1
  | _ :: t => find_from p t (i + 1)
  end.

(** [l.find(p, start)] for a non-negative [start]. *)
Definition py_find (p l : bytes) (start : Z) : Z :=
  if len l <? start then -1 else find_from p (zdrop start l) start.

(** ** Little-endian integers and [struct] *)

Fixpoint le_int (l : bytes) : Z :=
  match l with
  | [] => 0
  | b :: t => b + 256 * le_int t
  end.

Fixpoint le_bytes (n : nat) (z : Z) : bytes :=
  match n with
  | O => []
  | S n => z mod 256 :: le_bytes n (z / 256)
  end.

(** Two's complement value of an [n]-byte unsigned integer. *)
Definition signed (n : nat) (z : Z) : Z :=
  if z <? 2 ^ (8 * Z.of_nat n - 1) then z else z - 2 ^ (8 * Z.of_nat n).

Definition SSIZE_MAX : Z := 2 ^ 63 - 1.

(** [struct.unpack_from] of one little-endian unsigned field of [n] bytes. *)
Definition unpack_le (n : nat) (b : bytes) (off : Z) : result Z :=
  if SSIZE_MAX <? off then Err OverflowError else
  if off + Z.of_nat n <=? len b
  then Ok (le_int (slice off (off + Z.of_nat n) b))
  else Err StructError.

(** [struct.unpack] of a whole record: the byte fields of the given sizes. *)
Fixpoint chunks (sizes : list nat) (b : bytes) : list bytes :=
  match sizes with
  | [] => []
  | n :: t => take n b :: chunks t (drop n b)
  end.

Definition calcsize (sizes : list nat) : nat := fold_right Nat.add O sizes.

(** [struct.pack] of one unsigned field: an out-of-range value is refused. *)
Definition pack_le (n : nat) (z : Z) : result bytes :=
  if (0 <=? z) && (z <? 2 ^ (8 * Z.of_nat n)) then Ok (le_bytes n z) else Err StructError.

(** [struct.pack] of an [ns] field: cut or zero-padded to [n] bytes. *)
Definition pack_s (n : nat) (b : bytes) : bytes :=
  take n b ++ replicate (n - length b) 0.

(** [b[off:off+len(v)] = v] on a bytearray, in range. *)
Definition splice (off : nat) (v b : bytes) : bytes :=
  take off b ++ v ++ drop (off + length v) b.

(** ** Text

    A [str] is a Rocq [string]; every text the programs compare or build is
    ASCII. *)

Definition chr (z : Z) : ascii := Ascii.ascii_of_N (Z.to_N z).
Definition ord (c : ascii) : Z := Z.of_N (Ascii.N_of_ascii c).

Fixpoint str_list (s : string) : list ascii :=
  match s with
  | EmptyString => []
  | String c t => c :: str_list t
  end.

Fixpoint list_str (l : list ascii) : string :=
  match l with
  | [] => EmptyString
  | c :: t => String c (list_str t)
  end.

(** [s.encode()] and [b.decode()] on ASCII text. *)
Definition encode (s : string) : bytes := map ord (str_list s).
Definition decode_ascii (b : bytes) : string := list_str (map chr b).

Definition strlen (s : string) : Z := len (str_list s).

Definition mem_str (s : string) (l : list string) : bool :=
  existsb (String.eqb s) l.

Definition mem_Z (z : Z) (l : list Z) : bool := existsb (Z.eqb z) l.

Fixpoint starts_with (p s : string) : bool :=
  match p, s with
  | EmptyString, _ => true
  | String a p', String b s' => Ascii.eqb a b && starts_with p' s'
  | _, _ => false
  end.

(** [sub in s]. *)
Fixpoint str_contains (sub s : string) : bool :=
  starts_with sub s ||
  match s with
  | EmptyString => false
  | String _ t => str_contains sub t
  end.

Definition is_digit (c : ascii) : bool := (48 <=? ord c) && (ord c <=? 57).
Definition is_space (c : ascii) : bool :=
  (ord c =? 32) || ((9 <=? ord c) && (ord c <=? 13)).

(** Value of one hexadecimal digit. *)
Definition hexval (c : ascii) : option Z :=
  let n := ord c in
  if (48 <=? n) && (n <=? 57) then Some (n - 48)
  else if (97 <=? n) && (n <=? 102) then Some (n - 87)
  else if (65 <=? n) && (n <=? 70) then Some (n - 55)
  else None.

Definition hexdigit (v : Z) : ascii :=
  if v <? 10 then chr (48 + v) else chr (87 + v).

(** [b.hex()]. *)
Fixpoint hex_list (b : bytes) : list ascii :=
  match b with
  | [] => []
  | x :: t => hexdigit (x / 16) :: hexdigit (x mod 16) :: hex_list t
  end.
Definition hex (b : bytes) : string := list_str (hex_list b).

(** [bytes.fromhex(s)]: white space is skipped between pairs of digits. *)
Fixpoint fromhex_list (l : list ascii) : option bytes :=
  match l with
  | [] => Some []
  | c :: t =>
      if is_space c then fromhex_list t else
      match hexval c, t with
      | Some h, d :: t' =>
          match hexval d, fromhex_list t' with
          | Some lo, Some r => Some (16 * h + lo :: r)
          | _, _ => None
          end
      | _, _ => None
      end
  end.
Definition fromhex (s : string) : result bytes :=
  match fromhex_list (str_list s) with
  | Some b => Ok b
  | None => Err (ValueError "non-hexadecimal number found in fromhex() arg")
  end.

(** [int(s)] in base ten: surrounding white space, a sign, digits with single
    underscores between them. *)
Fixpoint strip_front (l : list ascii) : list ascii :=
  match l with
  | c :: t => if is_space c then strip_front t else l
  | [] => []
  end.
Definition strip (l : list ascii) : list ascii :=
  reverse (strip_front (reverse (strip_front l))).

Fixpoint digits_from (l : list ascii) (acc : Z) : option Z :=
  match l with
  | [] => Some acc
  | c :: t =>
      if is_digit c then digits_from t (10 * acc + (ord c - 48))
      else if ord c =? 95 then
        match t with
        | d :: t' => if is_digit d then digits_from t' (10 * acc + (ord d - 48)) else None
        | [] => None
        end
      else None
  end.
Definition digits (l : list ascii) : option Z :=
  match l with
  | c :: t => if is_digit c then digits_from t (ord c - 48) else None
  | [] => None
  end.
Definition py_int (s : string) : option Z :=
  match strip (str_list s) with
  | c :: t =>
      if ord c =? 45 then option_map Z.opp (digits t)
      else if ord c =? 43 then digits t
      else digits (c :: t)
  | [] => None
  end.

(** [str(z)]. *)
Definition py_str (z : Z) : string := pretty z.

(** ** Lemmas on slices *)

Lemma zdrop_drop {A} (l : list A) n : zdrop n l = drop (Z.to_nat n) l.
Proof.
  revert n; induction l as [|x l IH]; intros n; simpl.
  - by destruct (Z.to_nat n).
  - destruct (Z.leb_spec n 0).
    + by replace (Z.to_nat n) with 0%nat by lia.
    + rewrite IH. by replace (Z.to_nat n) with (S (Z.to_nat (n - 1))) by lia.
Qed.

Lemma ztake_take {A} (l : list A) n : ztake n l = take (Z.to_nat n) l.
Proof.
  revert n; induction l as [|x l IH]; intros n; simpl.
  - by destruct (Z.to_nat n).
  - destruct (Z.leb_spec n 0).
    + by replace (Z.to_nat n) with 0%nat by lia.
    + rewrite IH. by replace (Z.to_nat n) with (S (Z.to_nat (n - 1))) by lia.
Qed.

Lemma slice_take_drop {A} a b (l : list A) :
  slice a b l = take (Z.to_nat (b - a)) (drop (Z.to_nat a) l).
Proof. unfold slice. by rewrite ztake_take, zdrop_drop. Qed.

Lemma len_app {A} (l1 l2 : list A) : len (l1 ++ l2) = len l1 + len l2.
Proof. unfold len. rewrite length_app. lia. Qed.

Lemma len_nonneg {A} (l : list A) : 0 <= len l.
Proof. unfold len. lia. Qed.

Lemma len_cons {A} (x : A) (l : list A) : len (x :: l) = 1 + len l.
Proof. unfold len. cbn [length]. lia. Qed.

Lemma length_slice {A} a b (l : list A) :
  0 <= a -> a <= b -> b <= len l -> len (slice a b l) = b - a.
Proof.
  unfold len. intros. rewrite slice_take_drop, length_take, length_drop. lia.
Qed.

Lemma length_slice_le {A} a b (l : list A) :
  0 <= a -> a <= b -> len (slice a b l) <= b - a.
Proof.
  unfold len. intros. rewrite slice_take_drop, length_take, length_drop. lia.
Qed.

Lemma slice_app_l {A} (l1 l2 : list A) b :
  b <= len l1 -> slice 0 b (l1 ++ l2) = slice 0 b l1.
Proof.
  unfold len. intros. rewrite !slice_take_drop, Z.sub_0_r, !drop_0.
  apply take_app_le. lia.
Qed.

Lemma slice_app_r {A} (l1 l2 : list A) a b :
  len l1 <= a -> slice a b (l1 ++ l2) = slice (a - len l1) (b - len l1) l2.
Proof.
  unfold len. intros. rewrite !slice_take_drop. rewrite drop_app_ge by lia.
  f_equal; [lia|]. f_equal. lia.
Qed.

Lemma slice_full {A} (l : list A) n : len l <= n -> slice 0 n l = l.
Proof.
  unfold len. intros. rewrite slice_take_drop, drop_0. apply take_ge. lia.
Qed.

Lemma zdrop_len {A} (pre l : list A) : zdrop (len pre) (pre ++ l) = l.
Proof. rewrite zdrop_drop. unfold len. by rewrite Nat2Z.id, drop_app_length. Qed.

Lemma slice_mid {A} (pre v post : list A) :
  slice (len pre) (len pre + len v) (pre ++ v ++ post) = v.
Proof.
  rewrite slice_take_drop. unfold len. rewrite Nat2Z.id, drop_app_length.
  replace (Z.to_nat _) with (length v) by lia. apply take_app_length.
Qed.

Lemma slice_skip {A} (l1 l2 : list A) n a b :
  len l1 = n -> n <= a -> slice a b (l1 ++ l2) = slice (a - n) (b - n) l2.
Proof. intros <-. apply slice_app_r. Qed.

Lemma slice_first {A} (l1 l2 : list A) n : len l1 = n -> slice 0 n (l1 ++ l2) = l1.
Proof. intros <-. rewrite slice_app_l by lia. by apply slice_full. Qed.

(** Fields of a concatenation at constant offsets, the lengths in hypotheses. *)
Ltac slice_fields :=
  repeat match goal with
  | H : len ?l1 = ?n |- context [slice ?a ?b (?l1 ++ ?l2)] =>
      first
        [ rewrite (slice_skip l1 l2 n a b H) by lia;
          let a' := eval compute in (a - n) in
          let b' := eval compute in (b - n) in
          change (a - n) with a'; change (b - n) with b'
        | rewrite (slice_first l1 l2 n H) ]
  | H : len ?l = ?n |- context [slice 0 ?n ?l] => rewrite (slice_full l n) by lia
  end.

Lemma bytes_eqb_eq a b : bytes_eqb a b = true <-> a = b.
Proof.
  revert b; induction a as [|x a IH]; intros [|y b]; simpl; split; try congruence; try done.
  - rewrite andb_true_iff, Z.eqb_eq, IH. by intros [-> ->].
  - intros [= -> ->]. by rewrite andb_true_iff, Z.eqb_eq, IH.
Qed.

Lemma bytes_eqb_refl a : bytes_eqb a a = true.
Proof. by apply bytes_eqb_eq. Qed.

Lemma is_bytes_app a b : is_bytes (a ++ b) <-> is_bytes a /\ is_bytes b.
Proof. apply Forall_app. Qed.

Lemma is_bytes_take n l : is_bytes l -> is_bytes (take n l).
Proof. apply Forall_take. Qed.

Lemma is_bytes_drop n l : is_bytes l -> is_bytes (drop n l).
Proof. apply Forall_drop. Qed.

Lemma is_bytes_slice a b l : is_bytes l -> is_bytes (slice a b l).
Proof. intros. rewrite slice_take_drop. by apply is_bytes_take, is_bytes_drop. Qed.

(** ** Lemmas on little-endian integers *)

Lemma pow256_succ n : 256 ^ Z.of_nat (S n) = 256 * 256 ^ Z.of_nat n.
Proof. rewrite Nat2Z.inj_succ, Z.pow_succ_r by lia. done. Qed.

Lemma length_le_bytes n z : length (le_bytes n z) = n.
Proof. revert z; induction n; intros; simpl; auto. Qed.

Lemma is_bytes_le_bytes n z : is_bytes (le_bytes n z).
Proof.
  revert z; induction n as [|n IH]; intros z; simpl; constructor; [|apply IH].
  unfold is_byte. pose proof (Z.mod_pos_bound z 256). lia.
Qed.

Lemma le_int_bound l : is_bytes l -> 0 <= le_int l < 256 ^ len l.
Proof.
  unfold len. induction 1 as [|b l Hb Hl IH]; [simpl; lia|].
  cbn [le_int length]. rewrite pow256_succ. unfold is_byte in Hb. lia.
Qed.

Lemma le_int_bytes n z : le_int (le_bytes n z) = z mod 256 ^ Z.of_nat n.
Proof.
  revert z; induction n as [|n IH]; intros z; cbn [le_int le_bytes].
  - by rewrite Z.pow_0_r, Z.mod_1_r.
  - rewrite IH, pow256_succ, Z.rem_mul_r; lia.
Qed.

Lemma le_int_bytes_small n z :
  0 <= z < 256 ^ Z.of_nat n -> le_int (le_bytes n z) = z.
Proof. intros. rewrite le_int_bytes. by apply Z.mod_small. Qed.

Lemma le_bytes_int l : is_bytes l -> le_bytes (length l) (le_int l) = l.
Proof.
  induction 1 as [|b l Hb Hl IH]; [done|]. cbn [le_int length le_bytes].
  unfold is_byte in Hb.
  assert ((b + 256 * le_int l) mod 256 = b) as -> by (Z.div_mod_to_equations; lia).
  assert ((b + 256 * le_int l) / 256 = le_int l) as -> by (Z.div_mod_to_equations; lia).
  by rewrite IH.
Qed.

Lemma le_bytes_int_n n l :
  is_bytes l -> length l = n -> le_bytes n (le_int l) = l.
Proof. intros ? <-. by apply le_bytes_int. Qed.

Lemma pow2_8 n : 2 ^ (8 * Z.of_nat n) = 256 ^ Z.of_nat n.
Proof. rewrite Z.pow_mul_r by lia. done. Qed.

Lemma length_chunks sizes b : length (chunks sizes b) = length sizes.
Proof. revert b; induction sizes; intros; simpl; auto. Qed.

Lemma concat_chunks sizes b :
  length b = calcsize sizes -> concat (chunks sizes b) = b.
Proof.
  revert b; induction sizes as [|n t IH]; intros b; simpl.
  - by destruct b.
  - intros Hl. rewrite IH; [apply take_drop|]. rewrite length_drop. lia.
Qed.

(** The chunks of a concatenation of fields of the right sizes. *)
Lemma chunks_concat (fs : list bytes) :
  chunks (map length fs) (concat fs) = fs.
Proof.
  induction fs as [|f fs IH]; simpl; [done|].
  by rewrite take_app_length, drop_app_length, IH.
Qed.

Lemma unpack_le_ok n b off z :
  unpack_le n b off = Ok z ->
  off + Z.of_nat n <= len b /\ z = le_int (slice off (off + Z.of_nat n) b).
Proof.
  unfold unpack_le. case_match; [done|]. case_match eqn:E; [|done].
  intros [= <-]. split; [lia|done].
Qed.

Lemma unpack_le_nonneg n b off z : is_bytes b -> unpack_le n b off = Ok z -> 0 <= z.
Proof. intros Hb [_ ->]%unpack_le_ok. by apply le_int_bound, is_bytes_slice. Qed.

Lemma pack_le_small n z : 0 <= z < 2 ^ (8 * Z.of_nat n) -> pack_le n z = Ok (le_bytes n z).
Proof. intros. unfold pack_le. destruct (_ && _) eqn:E; [done|lia]. Qed.

Lemma pack_le_ok n z b : pack_le n z = Ok b -> length b = n /\ le_int b = z.
Proof.
  unfold pack_le. case_match eqn:E; [|done]. intros [= <-]. rewrite length_le_bytes.
  split; [done|]. apply le_int_bytes_small. rewrite <- pow2_8. lia.
Qed.

(** ** Lemmas on hexadecimal text *)

Lemma ord_chr z : 0 <= z < 256 -> ord (chr z) = z.
Proof.
  intros. unfold ord, chr. rewrite Ascii.N_ascii_embedding by lia. lia.
Qed.

Lemma chr_ord c : chr (ord c) = c.
Proof. unfold ord, chr. rewrite N2Z.id. apply Ascii.ascii_N_embedding. Qed.

Lemma ord_bound c : 0 <= ord c < 256.
Proof. unfold ord. pose proof (Ascii.N_ascii_bounded c). lia. Qed.

Lemma str_list_str l : str_list (list_str l) = l.
Proof. induction l; simpl; congruence. Qed.

Lemma list_str_list s : list_str (str_list s) = s.
Proof. induction s; simpl; congruence. Qed.

Lemma hexval_digit v : 0 <= v < 16 -> hexval (hexdigit v) = Some v.
Proof.
  intros Hv. unfold hexval, hexdigit.
  destruct (Z.ltb_spec v 10); rewrite ord_chr by lia.
  - destruct ((48 <=? 48 + v) && (48 + v <=? 57)) eqn:E; [f_equal; lia|lia].
  - destruct ((48 <=? 87 + v) && (87 + v <=? 57)) eqn:E; [lia|].
    destruct ((97 <=? 87 + v) && (87 + v <=? 102)) eqn:E'; [f_equal; lia|lia].
Qed.

Lemma hexdigit_not_space v : 0 <= v < 16 -> is_space (hexdigit v) = false.
Proof.
  intros Hv. unfold is_space, hexdigit.
  destruct (Z.ltb_spec v 10); rewrite ord_chr by lia; lia.
Qed.

Lemma fromhex_hex b : is_bytes b -> fromhex (hex b) = Ok b.
Proof.
  intros Hb. unfold fromhex, hex. rewrite str_list_str.
  enough (fromhex_list (hex_list b) = Some b) as -> by done.
  induction Hb as [|x l Hx Hl IH]; [done|]. cbn [hex_list fromhex_list].
  unfold is_byte in Hx.
  pose proof (Z.mod_pos_bound x 16). pose proof (Z_div_mod_eq_full x 16).
  rewrite hexdigit_not_space, !hexval_digit, IH by lia.
  do 2 f_equal. lia.
Qed.

Lemma hex_inj a b : is_bytes a -> is_bytes b -> hex a = hex b -> a = b.
Proof.
  intros Ha Hb H. apply (f_equal fromhex) in H.
  rewrite !fromhex_hex in H by done. by simplify_eq.
Qed.

(** ** Membership tests as propositions *)

Lemma mem_Z_In z l : mem_Z z l = true <-> In z l.
Proof.
  unfold mem_Z. rewrite existsb_exists. split.
  - intros (x & Hx & E). apply Z.eqb_eq in E. by subst.
  - intros H. exists z. by rewrite Z.eqb_refl.
Qed.

Lemma mem_str_In s l : mem_str s l = true <-> In s l.
Proof.
  unfold mem_str. rewrite existsb_exists. split.
  - intros (x & Hx & E). apply String.eqb_eq in E. by subst.
  - intros H. exists s. by rewrite String.eqb_refl.
Qed.

Lemma mem_str_elem s l : mem_str s l = true <-> s ∈ l.
Proof. rewrite mem_str_In. by rewrite list_elem_of_In. Qed.

Lemma mem_Z_elem z l : mem_Z z l = true <-> z ∈ l.
Proof. rewrite mem_Z_In. by rewrite list_elem_of_In. Qed.

(** [lia] reads [Bool.eqb] but not [xorb]. *)
Lemma xorb_eqb a b : xorb a b = negb (Bool.eqb a b).
Proof. by destruct a, b. Qed.

(** ** Filters *)

Lemma filter_none {A} (P : A -> Prop) `{forall x, Decision (P x)} (l : list A) :
  (forall x, x ∈ l -> ~ P x) -> filter P l = [].
Proof.
  induction l as [|x l IH]; intros Hn; [done|].
  rewrite filter_cons_False by (apply Hn; set_solver). apply IH. set_solver.
Qed.

Lemma filter_all {A} (P : A -> Prop) `{forall x, Decision (P x)} (l : list A) :
  (forall x, x ∈ l -> P x) -> filter P l = l.
Proof.
  induction l as [|x l IH]; intros Hn; [done|].
  rewrite filter_cons_True by (apply Hn; set_solver). f_equal. apply IH. set_solver.
Qed.

(** ** Tactics *)

(** Turn a boolean hypothesis into the propositions it decides. *)
Ltac bool_prop :=
  repeat match goal with
  | H : _ && _ = true |- _ => apply andb_true_iff in H as [? ?]
  | H : _ || _ = false |- _ => apply orb_false_iff in H as [? ?]
  | H : negb _ = true |- _ => apply negb_true_iff in H
  | H : negb _ = false |- _ => apply negb_false_iff in H
  | H : String.eqb _ _ = true |- _ => apply String.eqb_eq in H
  | H : String.eqb _ _ = false |- _ => apply String.eqb_neq in H
  | H : bytes_eqb _ _ = true |- _ => apply bytes_eqb_eq in H
  end.

(** Follow the successful path of a hypothesis [f x = Ok y]. *)
Ltac ok_path H :=
  repeat (case_match; try (discriminate H); simplify_eq/=).

(** Two successful results of the same call are the same value. *)
Ltac ok_agree :=
  repeat match goal with
  | H1 : ?c = Ok ?a, H2 : ?c = Ok ?b |- _ =>
      let H := fresh in assert (b = a) as H by congruence; clear H2; subst b
  end.

Create HintDb py.
Create Rewrite HintDb py.
#[export] Hint Resolve is_bytes_take is_bytes_drop is_bytes_slice is_bytes_le_bytes
  bytes_eqb_refl : py.
#[export] Hint Rewrite length_le_bytes @length_take @length_drop @length_app
  @length_replicate : py.
