(* ===== verification/PyVal.v ===== *)
(** * Python values

    The dynamically typed values the traffic tools pass around: what JSON can
    carry plus [bytes].  Text the programs know is [VStr]; text read from the
    traffic is [VText], its code points.  There are no floats: the clock readings that
    the programs store are taken in whole seconds.  A [dict] is an association list in insertion order, the
    order Python iterates it in. *)

From S2P Require Import Prelude.

Inductive val :=
| VNone
| VBool (b : bool)
| VInt (z : Z)
| VStr (s : string)
| VText (l : list Z)
| VBytes (b : bytes)
| VList (l : list val)
| VDict (d : list (string * val)).

Abbreviation dict := (list (string * val)).

(** [d.get(k)] with [None] for a missing key. *)
Fixpoint get (k : string) (d : dict) : option val :=
  match d with
  | [] => None
  | (k', v) :: t => if String.eqb k k' then Some v else get k t
  end.

Definition has (k : string) (d : dict) : bool :=
  match get k d with Some _ => true | None => false end.

(** [d[k]]. *)
Definition item (k : string) (d : dict) : result val :=
  match get k d with Some v => Ok v | None => Err (KeyError k) end.

(** [d.get(k)], [None] made a value. *)
Definition getv (k : string) (d : dict) : val := default VNone (get k d).

(** [d[k] = v]: in place, or at the end. *)
Fixpoint set (k : string) (v : val) (d : dict) : dict :=
  match d with
  | [] => [(k, v)]
  | (k', v') :: t => if String.eqb k k' then (k', v) :: t else (k', v') :: set k v t
  end.

(** [d.update(u)]. *)
Definition update (u d : dict) : dict := fold_left (fun d kv => set kv.1 kv.2 d) u d.

(** [d.pop(k)], the dict that is left. *)
Fixpoint remove (k : string) (d : dict) : dict :=
  match d with
  | [] => []
  | (k', v') :: t => if String.eqb k k' then t else (k', v') :: remove k t
  end.

(** An integer, bytes or text field of a dict whose keys are known. *)
Definition iget (k : string) (d : dict) : Z :=
  match get k d with Some (VInt z) => z | _ => 0 end.
Definition bget (k : string) (d : dict) : bytes :=
  match get k d with Some (VBytes b) => b | _ => [] end.
Definition sget (k : string) (d : dict) : string :=
  match get k d with Some (VStr s) => s | _ => "" end.

(** [bool(v)]. *)
Definition truthy (v : val) : bool :=
  match v with
  | VNone => false
  | VBool b => b
  | VInt z => negb (z =? 0)
  | VStr s => match s with EmptyString => false | _ => true end
  | VText b | VBytes b => match b with [] => false | _ => true end
  | VList l => match l with [] => false | _ => true end
  | VDict d => match d with [] => false | _ => true end
  end.

Definition b2z (b : bool) : Z := if b then 1 else 0.

(** [a == b]: numbers compare across [bool] and [int], dicts up to order. *)
Fixpoint val_eqb (a b : val) {struct a} : bool :=
  match a, b with
  | VNone, VNone => true
  | VBool x, VBool y => Bool.eqb x y
  | VBool x, VInt y => b2z x =? y
  | VInt x, VBool y => x =? b2z y
  | VInt x, VInt y => x =? y
  | VStr x, VStr y => String.eqb x y
  | VText x, VText y => bytes_eqb x y
  | VBytes x, VBytes y => bytes_eqb x y
  | VList x, VList y =>
      (fix go x y := match x, y with
        | [], [] => true
        | u :: x, v :: y => val_eqb u v && go x y
        | _, _ => false
        end) x y
  | VDict x, VDict y =>
      (length x =? length y)%nat &&
      (fix go x := match x with
        | [] => true
        | (k, u) :: x => match get k y with Some v => val_eqb u v | None => false end && go x
        end) x
  | _, _ => false
  end.

(** [for x in v]. *)
Definition py_iter (v : val) : result (list val) :=
  match v with
  | VList l => Ok l
  | VStr s => Ok (map (fun c => VStr (list_str [c])) (str_list s))
  | VDict d => Ok (map (fun kv => VStr kv.1) d)
  | VText l => Ok (map (fun c => VText [c]) l)
  | VBytes l => Ok (map VInt l)
  | _ => Err TypeError
  end.

(** Lookup in a constant table keyed by integers. *)
Fixpoint assoc {A} (z : Z) (l : list (Z * A)) : option A :=
  match l with
  | [] => None
  | (k, a) :: t => if z =? k then Some a else assoc z t
  end.
Definition in_table {A} (z : Z) (l : list (Z * A)) : bool :=
  match assoc z l with Some _ => true | None => false end.

(** [TABLE[z]] as a value; tables with a [None] entry hold [VNone]. *)
Definition name_of (z : Z) (l : list (Z * string)) : val :=
  match assoc z l with Some s => VStr s | None => VNone end.

(** ** Lemmas *)

Lemma get_set k k' v d : get k (set k' v d) = if String.eqb k k' then Some v else get k d.
Proof.
  induction d as [|[k1 v1] d IH]; simpl.
  - done.
  - destruct (String.eqb_spec k' k1) as [->|Hn]; simpl.
    + destruct (String.eqb_spec k k1) as [->|]; done.
    + rewrite IH. destruct (String.eqb_spec k k1) as [->|]; [|done].
      destruct (String.eqb_spec k1 k'); congruence.
Qed.

Lemma get_set_eq k v d : get k (set k v d) = Some v.
Proof. by rewrite get_set, String.eqb_refl. Qed.

Lemma get_set_ne k k' v d : k <> k' -> get k (set k' v d) = get k d.
Proof. intros H. rewrite get_set. by destruct (String.eqb_spec k k'). Qed.

Lemma has_set k k' v d : has k (set k' v d) = String.eqb k k' || has k d.
Proof. unfold has. rewrite get_set. by destruct (String.eqb k k'). Qed.

Lemma get_remove_ne k k' d : k <> k' -> get k (remove k' d) = get k d.
Proof.
  intros H. induction d as [|[k1 v1] d IH]; simpl; [done|].
  destruct (String.eqb_spec k' k1) as [->|]; simpl.
  - by destruct (String.eqb_spec k k1).
  - by rewrite IH.
Qed.

Lemma assoc_in {A} z (l : list (Z * A)) a : assoc z l = Some a -> In (z, a) l.
Proof.
  induction l as [|[k b] l IH]; simpl; [done|].
  destruct (Z.eqb_spec z k) as [->|]; intros H; [simplify_eq; auto|auto].
Qed.

Lemma in_table_In {A} z (l : list (Z * A)) : in_table z l = true <-> In z (map fst l).
Proof.
  unfold in_table. induction l as [|[k b] l IH]; simpl; [done|].
  destruct (Z.eqb_spec z k) as [->|Hn]; [by split; auto|]. rewrite IH. naive_solver.
Qed.

Lemma val_eqb_str v s : val_eqb v (VStr s) = true -> v = VStr s.
Proof. destruct v; try done. simpl. by intros ->%String.eqb_eq. Qed.

#[export] Hint Rewrite get_set_eq : py.
