(* ===== verification/Decimal.v ===== *)
(** * Decimal texts

    [int(str(n)) == n]: the counters and cursors the tools pass around as text
    come back as the number they were. *)

From S2P Require Import Prelude.

Lemma ord_pretty_char x : (x < 10)%N -> ord (pretty_N_char x) = 48 + Z.of_N x.
Proof.
  intros Hx.
  assert (x = 0 \/ x = 1 \/ x = 2 \/ x = 3 \/ x = 4 \/ x = 5 \/ x = 6 \/ x = 7 \/ x = 8 \/ x = 9)%N
    as Hc by lia.
  by repeat destruct Hc as [->|Hc]; [..|subst].
Qed.

Lemma is_digit_pretty x : (x < 10)%N -> is_digit (pretty_N_char x) = true.
Proof. intros Hx. unfold is_digit. rewrite ord_pretty_char by done. lia. Qed.

(** Reading the digits [pretty_N_go] puts in front of [s]. *)
Lemma digits_pretty_go x : forall s,
  digits_from (str_list (pretty_N_go x s)) 0 = digits_from (str_list s) (Z.of_N x).
Proof.
  induction (N.lt_wf_0 x) as [x _ IH]. intros s.
  assert (x = 0 \/ 0 < x)%N as [->|Hx] by lia; [by rewrite pretty_N_go_0|].
  rewrite pretty_N_go_step by done. rewrite IH by (by apply N.div_lt).
  assert (x `mod` 10 < 10)%N as Hm by (apply N.mod_lt; lia).
  cbn [str_list digits_from]. rewrite is_digit_pretty, ord_pretty_char by done.
  f_equal. rewrite N2Z.inj_div, N2Z.inj_mod.
  pose proof (Z_div_mod_eq_full (Z.of_N x) (Z.of_N 10)). lia.
Qed.

(** The text of a positive number begins with a digit. *)
Lemma pretty_go_head x : forall s, (0 < x)%N -> exists c t,
  str_list (pretty_N_go x s) = c :: t /\ is_digit c = true.
Proof.
  induction (N.lt_wf_0 x) as [x _ IH]. intros s Hx. rewrite pretty_N_go_step by done.
  destruct (N.eq_0_gt_0_cases (x `div` 10)) as [E|E].
  - rewrite E, pretty_N_go_0. cbn [str_list]. do 2 eexists. split; [done|].
    apply is_digit_pretty, N.mod_lt. lia.
  - apply IH; [by apply N.div_lt|done].
Qed.

Lemma pretty_head (n : N) : exists c t, str_list (pretty n) = c :: t /\ is_digit c = true /\
  digits (c :: t) = Some (Z.of_N n).
Proof.
  unfold pretty, pretty_N. case_decide as E; [subst; by do 2 eexists|].
  destruct (pretty_go_head n "") as (c & t & Hs & Hc); [lia|].
  exists c, t. split_and!; [done|done|]. unfold digits. rewrite Hc.
  pose proof (digits_pretty_go n "") as H. rewrite Hs in H. cbn [str_list digits_from] in H.
  rewrite Hc in H. exact H.
Qed.

Definition is_digits (l : list ascii) : Prop := Forall (fun c => is_digit c = true) l.

Lemma pretty_go_digits x : forall s, is_digits (str_list s) -> is_digits (str_list (pretty_N_go x s)).
Proof.
  induction (N.lt_wf_0 x) as [x _ IH]. intros s Hs.
  assert (x = 0 \/ 0 < x)%N as [->|Hx] by lia; [by rewrite pretty_N_go_0|].
  rewrite pretty_N_go_step by done. apply IH; [by apply N.div_lt|]. cbn [str_list].
  constructor; [|done]. apply is_digit_pretty, N.mod_lt. lia.
Qed.

Lemma pretty_digits (n : N) : is_digits (str_list (pretty n)).
Proof.
  unfold pretty, pretty_N. case_decide; [by repeat constructor|].
  apply pretty_go_digits. constructor.
Qed.

Lemma digit_not_space c : is_digit c = true -> is_space c = false.
Proof. unfold is_digit, is_space. lia. Qed.

Lemma strip_front_digit c t : is_space c = false -> strip_front (c :: t) = c :: t.
Proof. simpl. by intros ->. Qed.

Lemma strip_no_space l : Forall (fun c => is_space c = false) l -> strip l = l.
Proof.
  intros H. unfold strip.
  assert (forall l, Forall (fun c => is_space c = false) l -> strip_front l = l) as Hf
    by (intros [|c t] Ht; [done|]; inversion Ht; by apply strip_front_digit).
  rewrite (Hf l), (Hf (reverse l)), reverse_involutive; [done|by apply Forall_reverse|done].
Qed.

Lemma strip_digits l : is_digits l -> strip l = l.
Proof.
  intros H. apply strip_no_space. eapply Forall_impl; [exact H|]. intros c. apply digit_not_space.
Qed.

Lemma py_int_str n : 0 <= n -> py_int (py_str n) = Some n.
Proof.
  intros Hn. assert (py_str n = pretty (Z.to_N n)) as ->.
  { unfold py_str. rewrite <- (Z2N.id n) at 1 by done. destruct (Z.to_N n); reflexivity. }
  unfold py_int. rewrite strip_digits by apply pretty_digits.
  destruct (pretty_head (Z.to_N n)) as (c & t & -> & Hc & Hd).
  unfold is_digit in Hc. destruct (Z.eqb_spec (ord c) 45); [lia|].
  destruct (Z.eqb_spec (ord c) 43); [lia|]. rewrite Hd. f_equal. lia.
Qed.
