(* ===== verification/Text.v ===== *)
(** * Text

    The operations of [str] the tools share, on ASCII: stripping, splitting,
    lines, and integers in a base; and the lemmas by which a text that was
    joined is split back. *)

From S2P Require Import Prelude Decimal.

Definition cat (l : list string) : string := String.concat "" l.

(** White space of [str.strip] and [str.split] within ASCII. *)
Definition is_blank (c : ascii) : bool := is_space c || ((28 <=? ord c) && (ord c <=? 31)).

Fixpoint lstrip (l : list ascii) : list ascii :=
  match l with
  | c :: t => if is_blank c then lstrip t else l
  | [] => []
  end.

Definition str_strip (s : string) : string :=
  list_str (reverse (lstrip (reverse (lstrip (str_list s))))).

(** [s.lower()] on ASCII text. *)
Definition lower_char (c : ascii) : ascii :=
  if (65 <=? ord c) && (ord c <=? 90) then chr (ord c + 32) else c.

Definition lower (s : string) : string := list_str (map lower_char (str_list s)).

(** [s.split()]. *)
Fixpoint split_blank (l word : list ascii) : list (list ascii) :=
  match l with
  | [] => match word with [] => [] | _ => [word] end
  | c :: t =>
      if is_blank c then match word with [] => split_blank t [] | _ => word :: split_blank t [] end
      else split_blank t (word ++ [c])
  end.

Definition str_split (s : string) : list string := map list_str (split_blank (str_list s) []).

(** [s.split(c)] for one character. *)
Fixpoint split_char (c : ascii) (l word : list ascii) : list (list ascii) :=
  match l with
  | [] => [word]
  | x :: t => if Ascii.eqb x c then word :: split_char c t [] else split_char c t (word ++ [x])
  end.

(** [s.split("\r\n")]. *)
Fixpoint split_crlf (l word : list ascii) : list (list ascii) :=
  match l with
  | [] => [word]
  | x :: t =>
      match t with
      | y :: t' => if (ord x =? 13) && (ord y =? 10) then word :: split_crlf t' []
                   else split_crlf t (word ++ [x])
      | [] => [word ++ [x]]
      end
  end.

(** [s.splitlines()] within ASCII. *)
Definition is_break (c : ascii) : bool :=
  ((10 <=? ord c) && (ord c <=? 13)) || ((28 <=? ord c) && (ord c <=? 30)).

Fixpoint lines_from (l word : list ascii) : list (list ascii) :=
  match l with
  | [] => match word with [] => [] | _ => [word] end
  | c :: t =>
      if is_break c then
        match t with
        | d :: t' => if (ord c =? 13) && (ord d =? 10) then word :: lines_from t' []
                     else word :: lines_from t []
        | [] => [word]
        end
      else lines_from t (word ++ [c])
  end.

Definition splitlines (s : string) : list (list ascii) := lines_from (str_list s) [].

Definition tab_fields (line : list ascii) : list string := map list_str (split_char (chr 9) line []).

Definition after_slash (s : string) : string :=
  list_str ((fix go l := match l with
                        | [] => []
                        | c :: t => if ord c =? 47 then t else go t
                        end) (str_list s)).

Definition range (n : Z) : list Z := map Z.of_nat (seq 0 (Z.to_nat n)).

Definition text_lines (s : string) : list string := map list_str (splitlines s).

(** The lines of a text file, newlines translated. *)
Fixpoint file_lines (l word : list ascii) : list (list ascii) :=
  match l with
  | [] => match word with [] => [] | _ => [word] end
  | c :: t =>
      if ord c =? 10 then word :: file_lines t []
      else if ord c =? 13 then
        match t with
        | d :: t' => if ord d =? 10 then word :: file_lines t' [] else word :: file_lines t []
        | [] => [word]
        end
      else file_lines t (word ++ [c])
  end.

Definition tab : string := list_str [chr 9].

Definition newline : string := list_str [chr 10].

(** [s.replace(a, b)] for single characters. *)
Definition replace_char (a b : ascii) (s : string) : string :=
  list_str (map (fun c => if Ascii.eqb c a then b else c) (str_list s)).

Definition ends_with (suf s : string) : bool :=
  let a := str_list suf in
  let b := str_list s in
  (length a <=? length b)%nat && String.eqb (list_str (drop (length b - length a) b)) suf.

(** ** Pieces of regular expressions *)

(** [re.search]: the first position at which the pattern matches. *)
Fixpoint search {A} (try : list ascii -> option A) (l : list ascii) : option A :=
  match try l with
  | Some a => Some a
  | None => match l with [] => None | _ :: t => search try t end
  end.

Fixpoint literal (p l : list ascii) : option (list ascii) :=
  match p, l with
  | [], _ => Some l
  | a :: p, b :: l => if Ascii.eqb a b then literal p l else None
  | _, _ => None
  end.

(** [\s+]. *)
Definition blanks1 (l : list ascii) : option (list ascii) :=
  match l with c :: _ => if is_blank c then Some (lstrip l) else None | [] => None end.
(** [(\w+)] and [(\d+)], as far as they reach. *)
Definition is_word (c : ascii) : bool :=
  is_digit c || ((65 <=? ord c) && (ord c <=? 90)) || ((97 <=? ord c) && (ord c <=? 122)) || (ord c =? 95).
Fixpoint run_of (p : ascii -> bool) (l : list ascii) : list ascii * list ascii :=
  match l with
  | c :: t => if p c then let '(a, b) := run_of p t in (c :: a, b) else ([], l)
  | [] => ([], [])
  end.
Definition run1 (p : ascii -> bool) (l : list ascii) : option (list ascii * list ascii) :=
  match run_of p l with ([], _) => None | r => Some r end.
Definition dec_value (l : list ascii) : Z := foldl (fun a c => a * 10 + (ord c - 48)) 0 l.
Definition digits1 (l : list ascii) : option (Z * list ascii) :=
  match run1 is_digit l with Some (ds, t) => Some (dec_value ds, t) | None => None end.

(** [[A-Za-z_]\w*]. *)
Definition is_alpha_ (c : ascii) : bool := is_word c && negb (is_digit c).
Definition is_ident (l : list ascii) : bool :=
  match l with c :: t => is_alpha_ c && forallb is_word t | [] => false end.

(** ** [int(s, 0)] and [int(s, 16)] *)

Definition digit_in (base : Z) (c : ascii) : option Z :=
  let n := ord c in
  let v := if (48 <=? n) && (n <=? 57) then n - 48
           else if (97 <=? n) && (n <=? 122) then n - 87
           else if (65 <=? n) && (n <=? 90) then n - 55 else 36 in
  if v <? base then Some v else None.

(** Digits with single underscores between them; [under] allows one first. *)
Fixpoint base_digits (base : Z) (l : list ascii) (under : bool) (acc : Z) : option Z :=
  match l with
  | [] => None
  | c :: t =>
      match digit_in base c with
      | Some d => match t with
                  | [] => Some (acc * base + d)
                  | _ => base_digits base t true (acc * base + d)
                  end
      | None => if under && (ord c =? 95) then base_digits base t false acc else None
      end
  end.

Definition unsigned0 (l : list ascii) : option Z :=
  match l with
  | z :: x :: t =>
      if ord z =? 48 then
        let p := ord (lower_char x) in
        if p =? 120 then base_digits 16 t true 0
        else if p =? 111 then base_digits 8 t true 0
        else if p =? 98 then base_digits 2 t true 0
        else match base_digits 10 l false 0 with Some 0 => Some 0 | _ => None end
      else base_digits 10 l false 0
  | _ => base_digits 10 l false 0
  end.

Definition py_int0 (s : string) : option Z :=
  match strip (str_list s) with
  | c :: t => if ord c =? 45 then option_map Z.opp (unsigned0 t)
              else if ord c =? 43 then unsigned0 t else unsigned0 (c :: t)
  | [] => None
  end.

(** [int(s, 16)]. *)
Definition unsigned16 (l : list ascii) : option Z :=
  match l with
  | z :: x :: t => if (ord z =? 48) && (ord (lower_char x) =? 120) then base_digits 16 t true 0
                   else base_digits 16 l false 0
  | _ => base_digits 16 l false 0
  end.

Definition py_int16 (s : string) : option Z :=
  match strip (str_list s) with
  | c :: t => if ord c =? 45 then option_map Z.opp (unsigned16 t)
              else if ord c =? 43 then unsigned16 t else unsigned16 (c :: t)
  | [] => None
  end.

(** ** UTF-8 *)

(** [b.decode("utf-8")], strict: shortest forms only, no surrogates. *)
Definition cont (b : Z) : bool := (0x80 <=? b) && (b <=? 0xbf).

Fixpoint utf8_decode (b : bytes) : option (list Z) :=
  match b with
  | [] => Some []
  | a :: t1 =>
      if a <? 0x80 then option_map (cons a) (utf8_decode t1)
      else match t1 with
      | [] => None
      | b1 :: t2 =>
          if (0xc2 <=? a) && (a <=? 0xdf) then
            if cont b1 then option_map (cons ((a - 0xc0) * 64 + (b1 - 0x80))) (utf8_decode t2)
            else None
          else match t2 with
          | [] => None
          | b2 :: t3 =>
              if (0xe0 <=? a) && (a <=? 0xef) then
                let c := (a - 0xe0) * 4096 + (b1 - 0x80) * 64 + (b2 - 0x80) in
                if cont b1 && cont b2 && (0x800 <=? c) && negb ((0xd800 <=? c) && (c <=? 0xdfff))
                then option_map (cons c) (utf8_decode t3) else None
              else match t3 with
              | [] => None
              | b3 :: t4 =>
                  if (0xf0 <=? a) && (a <=? 0xf4) then
                    let c := (a - 0xf0) * 262144 + (b1 - 0x80) * 4096 + (b2 - 0x80) * 64
                             + (b3 - 0x80) in
                    if cont b1 && cont b2 && cont b3 && (0x10000 <=? c) && (c <=? 0x10ffff)
                    then option_map (cons c) (utf8_decode t4) else None
                  else None
              end
          end
      end
  end.

(** [b.decode("utf-8", "replace")]: each maximal piece of a character that is cut
    short, or each byte that begins none, becomes U+FFFD. *)
Definition second_ok (a b : Z) : bool :=
  if a =? 0xe0 then (0xa0 <=? b) && (b <=? 0xbf)
  else if a =? 0xed then (0x80 <=? b) && (b <=? 0x9f)
  else if a =? 0xf0 then (0x90 <=? b) && (b <=? 0xbf)
  else if a =? 0xf4 then (0x80 <=? b) && (b <=? 0x8f)
  else cont b.

(** The character at the front, and how many bytes it or its valid beginning has. *)
Definition utf8_front (l : bytes) : option Z * nat :=
  match l with
  | [] => (None, 0%nat)
  | a :: t =>
      if a <? 0x80 then (Some a, 1%nat)
      else if (0xc2 <=? a) && (a <=? 0xdf) then
        match t with
        | b :: _ => if cont b then (Some ((a - 0xc0) * 64 + (b - 0x80)), 2%nat) else (None, 1%nat)
        | [] => (None, 1%nat)
        end
      else if (0xe0 <=? a) && (a <=? 0xef) then
        match t with
        | b :: c :: _ => if negb (second_ok a b) then (None, 1%nat)
                         else if cont c then (Some ((a - 0xe0) * 4096 + (b - 0x80) * 64 + (c - 0x80)), 3%nat) else (None, 2%nat)
        | [b] => (None, if second_ok a b then 2%nat else 1%nat)
        | [] => (None, 1%nat)
        end
      else if (0xf0 <=? a) && (a <=? 0xf4) then
        match t with
        | b :: c :: d :: _ =>
            if negb (second_ok a b) then (None, 1%nat) else if negb (cont c) then (None, 2%nat)
            else if cont d then (Some ((a - 0xf0) * 262144 + (b - 0x80) * 4096 + (c - 0x80) * 64 + (d - 0x80)), 4%nat)
            else (None, 3%nat)
        | [b; c] => (None, if negb (second_ok a b) then 1%nat else if cont c then 3%nat else 2%nat)
        | [b] => (None, if second_ok a b then 2%nat else 1%nat)
        | [] => (None, 1%nat)
        end
      else (None, 1%nat)
  end.

Fixpoint utf8_replace (fuel : nat) (l : bytes) : list Z :=
  match fuel with
  | O => []
  | S fuel =>
      match l with
      | [] => []
      | _ => let '(c, n) := utf8_front l in default 0xfffd c :: utf8_replace fuel (drop n l)
      end
  end.

Definition decode_replace (l : bytes) : list Z := utf8_replace (S (length l)) l.

(** UTF-8 of code points; a surrogate cannot be encoded. *)
Definition utf8_char (c : Z) : option bytes :=
  if c <? 0x80 then Some [c]
  else if c <? 0x800 then Some [0xc0 + c / 64; 0x80 + c mod 64]
  else if (0xd800 <=? c) && (c <? 0xe000) then None
  else if c <? 0x10000 then Some [0xe0 + c / 4096; 0x80 + c / 64 mod 64; 0x80 + c mod 64]
  else Some [0xf0 + c / 262144; 0x80 + c / 4096 mod 64; 0x80 + c / 64 mod 64; 0x80 + c mod 64].
Fixpoint utf8_encode (l : list Z) : option bytes :=
  match l with
  | [] => Some []
  | c :: t => match utf8_char c, utf8_encode t with
              | Some a, Some b => Some (a ++ b)
              | _, _ => None
              end
  end.

(** ** Texts without separators *)

(** A text without the separators of the index file. *)
Definition clean_char (c : ascii) : Prop := ord c <> 9 /\ ord c <> 10 /\ ord c <> 13.

Definition clean (s : string) : Prop := Forall clean_char (str_list s).

Definition without (c : ascii) (l : list ascii) : Prop := Forall (fun x => x <> c) l.
Definition no_colon (s : string) : Prop := Forall (fun c => c <> ":"%char) (str_list s).

Lemma str_list_inj a b : str_list a = str_list b -> a = b.
Proof. intros H. by rewrite <- (list_str_list a), H, list_str_list. Qed.

Lemma str_list_append a b : str_list (String.append a b) = str_list a ++ str_list b.
Proof.
  induction a as [|c a IH]; [done|].
  change (str_list (String.append (String c a) b)) with (c :: str_list (String.append a b)).
  by rewrite IH.
Qed.

Lemma starts_with_append p x : starts_with p (String.append p x) = true.
Proof.
  induction p as [|a p IH]; [by destruct x|].
  change (Ascii.eqb a a && starts_with p (String.append p x) = true).
  by rewrite Ascii.eqb_refl, IH.
Qed.

Lemma starts_with_list p s : starts_with p s = true -> exists t, str_list s = str_list p ++ t.
Proof.
  revert s. induction p as [|a p IH]; intros s H; [by exists (str_list s)|].
  destruct s as [|b s]; [done|]. apply andb_true_iff in H as [->%Ascii.eqb_eq (t & E)%IH].
  exists t. change (b :: str_list s = b :: str_list p ++ t). by rewrite E.
Qed.

Lemma starts_with_app p s t : str_list s = str_list p ++ t -> starts_with p s = true.
Proof.
  intros H. assert (s = String.append p (list_str t)) as ->; [|apply starts_with_append].
  apply str_list_inj. by rewrite H, str_list_append, str_list_str.
Qed.

Lemma str_list_cat l : str_list (cat l) = concat (map str_list l).
Proof.
  unfold cat. induction l as [|x l IH]; [done|]. destruct l as [|y l].
  { cbn [String.concat map concat]. by rewrite app_nil_r. }
  change (String.concat "" (x :: y :: l)) with (String.append x (String.append "" (String.concat "" (y :: l)))).
  rewrite !str_list_append, IH. done.
Qed.

Lemma split_char_word c a : without c a -> forall w, split_char c a w = [w ++ a].
Proof.
  induction 1 as [|x a Hx _ IH]; intros w; cbn [split_char]; [by rewrite app_nil_r|].
  destruct (Ascii.eqb_spec x c); [done|]. by rewrite IH, <- app_assoc.
Qed.

Lemma split_char_sep c a rest : without c a -> forall w,
  split_char c (a ++ c :: rest) w = (w ++ a) :: split_char c rest [].
Proof.
  induction 1 as [|x a Hx _ IH]; intros w; cbn [split_char app].
  - by rewrite Ascii.eqb_refl, app_nil_r.
  - destruct (Ascii.eqb_spec x c); [done|]. by rewrite IH, <- app_assoc.
Qed.

Lemma split_char_concat c ws : ws <> [] -> Forall (fun s => without c (str_list s)) ws ->
  split_char c (str_list (String.concat (String c "") ws)) [] = map str_list ws.
Proof.
  intros Hne Hw. induction Hw as [|w ws Hw Hws IH]; [done|]. destruct ws as [|y ws].
  { cbn [String.concat map]. by rewrite split_char_word. }
  change (String.concat (String c "") (w :: y :: ws))
    with (String.append w (String.append (String c "") (String.concat (String c "") (y :: ws)))).
  rewrite !str_list_append. cbn [str_list app]. rewrite split_char_sep by done.
  cbn [map]. f_equal. by apply IH.
Qed.

Lemma replace_char_list a b s :
  str_list (replace_char a b s) = map (fun c => if Ascii.eqb c a then b else c) (str_list s).
Proof. unfold replace_char. by rewrite str_list_str. Qed.

Lemma replace_forall (P : ascii -> Prop) a b s : P b -> Forall P (str_list s) ->
  Forall P (str_list (replace_char a b s)).
Proof.
  intros Hb H. rewrite replace_char_list. induction H as [|c l Hc _ IH]; constructor; [|done].
  by destruct (Ascii.eqb c a).
Qed.

Lemma replace_without a b s : a <> b -> without a (str_list (replace_char a b s)).
Proof.
  intros Hab. rewrite replace_char_list. unfold without.
  induction (str_list s) as [|c l IH]; constructor; [|done]. destruct (Ascii.eqb_spec c a); congruence.
Qed.

Lemma omap_all {A B C} (h : A -> C) (f : C -> option B) (g : A -> B) l :
  Forall (fun x => f (h x) = Some (g x)) l -> omap f (map h l) = map g l.
Proof. induction 1 as [|x l Hx _ IH]; [done|]. cbn. rewrite Hx. f_equal. exact IH. Qed.

Lemma py_str_digits n : 0 <= n -> is_digits (str_list (py_str n)).
Proof.
  intros Hn. assert (py_str n = pretty (Z.to_N n)) as ->; [|apply pretty_digits].
  unfold py_str. rewrite <- (Z2N.id n) at 1 by done. by destruct (Z.to_N n).
Qed.

Lemma digit_clean c : is_digit c = true -> clean_char c.
Proof. unfold is_digit, clean_char. lia. Qed.

Lemma clean_without_tab l : Forall clean_char l -> without (chr 9) l.
Proof.
  intros H. eapply Forall_impl; [exact H|]. intros c (H9 & _) ->. by apply H9.
Qed.

(** The lines of the text are the lines written: no row holds a line break. *)
Lemma file_lines_text ls : Forall (fun l => Forall (fun c => ord c <> 10 /\ ord c <> 13) (str_list l)) ls ->
  file_lines (str_list (cat (map (fun l => cat [l; list_str [chr 10]]) ls))) [] = map str_list ls.
Proof.
  intros H. rewrite str_list_cat, map_map.
  assert (forall a rest, Forall (fun c => ord c <> 10 /\ ord c <> 13) a -> forall w,
    file_lines (a ++ chr 10 :: rest) w = (w ++ a) :: file_lines rest []) as Hword.
  { intros a rest Ha. induction Ha as [|x a (H1 & H2) _ IH]; intros w; cbn [file_lines app].
    - change (ord (chr 10) =? 10) with true. cbv iota. by rewrite app_nil_r.
    - destruct (Z.eqb_spec (ord x) 10); [done|]. destruct (Z.eqb_spec (ord x) 13); [done|].
      by rewrite IH, <- app_assoc. }
  induction H as [|l ls Hl _ IH]; [done|]. cbn [map concat]. rewrite str_list_cat. cbn [map concat].
  rewrite str_list_str, app_nil_r, <- app_assoc. cbn [app]. rewrite Hword by done. cbn [app]. by rewrite IH.
Qed.
