(* ===== verification/Assoc.v ===== *)
(** * Ordered dictionaries

    A [dict] whose keys and values have one type each: an association list in
    insertion order, the order Python iterates it in. *)

From S2P Require Import Prelude.

Section assoc.
Context {K A : Type} `{EqDecision K}.

Implicit Types (d : list (K * A)) (k : K).

Fixpoint aget k d : option A :=
  match d with
  | [] => None
  | (k', a) :: t => if decide (k = k') then Some a else aget k t
  end.

(** [d[k] = a]: in place, or at the end. *)
Fixpoint aset k (a : A) d : list (K * A) :=
  match d with
  | [] => [(k, a)]
  | (k', b) :: t => if decide (k = k') then (k', a) :: t else (k', b) :: aset k a t
  end.

Definition keys d : list K := map fst d.

Lemma aget_aset k k' a d : aget k (aset k' a d) = if decide (k = k') then Some a else aget k d.
Proof.
  induction d as [|[k0 b] d IH]; cbn [aset aget]; [done|].
  destruct (decide (k' = k0)) as [->|]; cbn [aget]; destruct (decide (k = k0)) as [->|]; rewrite ?IH;
    repeat case_decide; congruence.
Qed.

Lemma aget_aset_eq k a d : aget k (aset k a d) = Some a.
Proof. rewrite aget_aset. by rewrite decide_True. Qed.

Lemma aget_aset_ne k k' a d : k <> k' -> aget k (aset k' a d) = aget k d.
Proof. intros H. rewrite aget_aset. by rewrite decide_False. Qed.

Lemma aget_in k a d : aget k d = Some a -> (k, a) ∈ d.
Proof.
  induction d as [|[k0 b] d IH]; cbn [aget]; [done|]. case_decide as E; [subst|].
  - intros [= ->]. left.
  - intros H. right. by apply IH.
Qed.

Lemma aget_none k d : aget k d = None <-> k ∉ keys d.
Proof.
  unfold keys. induction d as [|[k0 b] d IH]; cbn [aget map fst]; [split; [intros _; apply not_elem_of_nil|done]|].
  rewrite not_elem_of_cons. case_decide; naive_solver.
Qed.

Lemma in_aget k a d : NoDup (keys d) -> (k, a) ∈ d -> aget k d = Some a.
Proof.
  unfold keys. induction d as [|[k0 b] d IH]; cbn [aget map fst]; [by intros _ ?%not_elem_of_nil|].
  intros [Hn Hd]%NoDup_cons [[= -> ->]|Hin]%elem_of_cons; [by rewrite decide_True|].
  rewrite decide_False; [by apply IH|]. intros ->. apply Hn, list_elem_of_fmap. by exists (k0, a).
Qed.

Lemma keys_aset k a d : keys (aset k a d) = keys d \/ keys (aset k a d) = keys d ++ [k] /\ k ∉ keys d.
Proof.
  unfold keys. induction d as [|[k0 b] d IH]; cbn [aset map fst].
  - right. split; [done|apply not_elem_of_nil].
  - case_decide as E; cbn [map fst]; [by left|]. destruct IH as [-> |[-> IH]]; [by left|].
    right. split; [done|]. by rewrite not_elem_of_cons.
Qed.

Lemma nodup_aset k a d : NoDup (keys d) -> NoDup (keys (aset k a d)).
Proof.
  intros H. destruct (keys_aset k a d) as [-> |[-> Hn]]; [done|]. apply NoDup_app. split_and!; [done| |apply NoDup_singleton].
  by intros x Hx ->%list_elem_of_singleton.
Qed.

Lemma elem_keys_aset k k' a d : k ∈ keys (aset k' a d) <-> k = k' \/ k ∈ keys d.
Proof.
  assert (forall e, k ∈ keys e <-> aget k e <> None) as H.
  { intros e. rewrite aget_none. split; [by intros H1 H2|]. intros H1. destruct (decide (k ∈ keys e)); [done|by destruct H1]. }
  rewrite !H, aget_aset. case_decide; naive_solver.
Qed.
End assoc.
