(* ===== verification/Hex.v ===== *)
(** * Hexadecimal texts

    [f"{z:x}"] of an integer, its digits, and that [int()] reads them back. *)

From S2P Require Import Prelude Decimal Text.

(** [f"{z:x}"] of a non-negative integer. *)
Fixpoint hex_digits (fuel : nat) (z : Z) (acc : list ascii) : list ascii :=
  match fuel with
  | O => acc
  | S n => let acc := hexdigit (z mod 16) :: acc in
           if z / 16 =? 0 then acc else hex_digits n (z / 16) acc
  end.
Definition hex_int (z : Z) : string := list_str (hex_digits (S (Z.to_nat (Z.log2 z))) z []).

Definition hex_value_of (ds : list Z) : Z := foldl (fun a d => a * 16 + d) 0 ds.

Lemma hex_digits_spec fuel : forall z acc, 0 <= z < 16 ^ Z.of_nat (S fuel) ->
  exists ds, ds <> [] /\ Forall (fun d => 0 <= d < 16) ds /\ hex_value_of ds = z /\
    hex_digits (S fuel) z acc = map hexdigit ds ++ acc.
Proof.
  induction fuel as [|fuel IH]; intros z acc Hz; cbn [hex_digits]; pose proof (Z.mod_pos_bound z 16 ltac:(lia));
    destruct (Z.eqb_spec (z / 16) 0) as [E|E].
  - exists [z mod 16]. unfold hex_value_of. cbn.
    split_and!; [done|by apply Forall_singleton|Z.div_mod_to_equations; lia|done].
  - exfalso. apply E. apply Z.div_small. change (16 ^ Z.of_nat 1) with 16 in Hz. lia.
  - exists [z mod 16]. unfold hex_value_of. cbn.
    split_and!; [done|by apply Forall_singleton|Z.div_mod_to_equations; lia|done].
  - destruct (IH (z / 16) (hexdigit (z mod 16) :: acc)) as (ds & Hne & Hr & Hv & He).
    { split; [apply Z.div_pos; lia|]. apply Z.div_lt_upper_bound; [lia|].
      rewrite (Nat2Z.inj_succ (S fuel)), Z.pow_succ_r in Hz by lia. lia. }
    exists (ds ++ [z mod 16]). split_and!.
    + by destruct ds.
    + apply Forall_app. split; [done|by apply Forall_singleton].
    + unfold hex_value_of in *. rewrite foldl_app. cbn [foldl]. rewrite Hv. pose proof (Z_div_mod_eq_full z 16). lia.
    + cbn [hex_digits] in He. rewrite He, map_app, <- app_assoc. done.
Qed.

Lemma hexdigit_value v : 0 <= v < 16 -> digit_in 16 (hexdigit v) = Some v.
Proof.
  intros Hv. pose proof (hexval_digit v Hv) as H. unfold hexval in H. unfold digit_in. cbv zeta in *.
  unfold hexdigit in *. destruct (Z.ltb_spec v 10); rewrite ord_chr in * by lia.
  - destruct (_ && _) eqn:E; [|lia]. destruct (Z.ltb_spec (48 + v - 48) 16); [f_equal|]; lia.
  - destruct ((48 <=? 87 + v) && _) eqn:E; [lia|]. destruct ((97 <=? 87 + v) && (87 + v <=? 122)) eqn:E2; [|lia].
    destruct (Z.ltb_spec (87 + v - 87) 16); [f_equal|]; lia.
Qed.

Lemma base_digits_hex ds : ds <> [] -> Forall (fun d => 0 <= d < 16) ds ->
  forall u acc, base_digits 16 (map hexdigit ds) u acc = Some (foldl (fun a d => a * 16 + d) acc ds).
Proof.
  intros Hne H. induction H as [|d ds Hd Hds IH]; [done|]. intros u acc. cbn [map base_digits].
  rewrite hexdigit_value by done. destruct ds as [|d' ds]; [done|]. cbn [map]. cbn [map] in IH.
  rewrite IH by done. done.
Qed.

(** The digits of an address, and that they read back. *)
Lemma hex_int_digits z : 0 <= z -> exists ds, ds <> [] /\ Forall (fun d => 0 <= d < 16) ds /\
  hex_value_of ds = z /\ str_list (hex_int z) = map hexdigit ds.
Proof.
  intros Hz. destruct (hex_digits_spec (Z.to_nat (Z.log2 z)) z []) as (ds & Hne & Hr & Hv & He).
  - split; [done|]. rewrite Nat2Z.inj_succ, Z2Nat.id by apply Z.log2_nonneg.
    destruct (Z.eq_dec z 0) as [->|]; [cbn; lia|].
    pose proof (Z.log2_spec z ltac:(lia)) as [_ Hlt]. pose proof (Z.log2_nonneg z).
    eapply Z.lt_le_trans; [exact Hlt|]. apply Z.pow_le_mono_l. lia.
  - exists ds. unfold hex_int. by rewrite str_list_str, He, app_nil_r.
Qed.

Lemma hexdigit_clean v : 0 <= v < 16 ->
  ord (hexdigit v) <> 9 /\ is_break (hexdigit v) = false /\ is_space (hexdigit v) = false.
Proof.
  intros Hv. rewrite hexdigit_not_space by done. unfold is_break, hexdigit.
  destruct (Z.ltb_spec v 10); rewrite ord_chr by lia; lia.
Qed.

Lemma py_int0_hex z : 0 <= z -> py_int0 (cat ["0x"; hex_int z]) = Some z.
Proof.
  intros Hz. destruct (hex_int_digits z Hz) as (ds & Hne & Hr & Hv & He). unfold py_int0.
  rewrite str_list_cat. cbn [map concat]. rewrite He, app_nil_r. change (str_list "0x") with ["0"; "x"]%char.
  cbn [app]. rewrite strip_no_space; cycle 1.
  { repeat constructor. apply Forall_map. eapply Forall_impl; [exact Hr|]. intros d Hd. by apply hexdigit_clean. }
  change (ord "0" =? 45) with false. change (ord "0" =? 43) with false. cbv iota. unfold unsigned0.
  change (ord "0" =? 48) with true. change (ord (lower_char "x") =? 120) with true. cbv iota.
  rewrite base_digits_hex by done. by rewrite <- Hv.
Qed.

(** [int(s, 16)] of such a text. *)
Lemma py_int16_hex z : 0 <= z -> py_int16 (hex_int z) = Some z.
Proof.
  intros Hz. destruct (hex_int_digits z Hz) as (ds & Hne & Hr & Hv & He). unfold py_int16. rewrite He.
  rewrite strip_no_space; cycle 1.
  { apply Forall_map. eapply Forall_impl; [exact Hr|]. intros d Hd. by apply hexdigit_clean. }
  assert (forall d, 0 <= d < 16 -> ord (hexdigit d) <> 45 /\ ord (hexdigit d) <> 43 /\ ord (lower_char (hexdigit d)) <> 120) as Hd.
  { intros d Hd. assert (d ∈ seqZ 0 16) as Hin by (apply elem_of_seqZ; lia). revert Hin. generalize d.
    apply Forall_forall. by repeat (apply Forall_cons; split; [by vm_compute|]). }
  destruct ds as [|d1 ds]; [done|]. inversion Hr as [|? ? H1 Hr1]; subst. cbn [map].
  destruct (Hd d1 H1) as (H45 & H43 & _). destruct (Z.eqb_spec (ord (hexdigit d1)) 45); [done|].
  destruct (Z.eqb_spec (ord (hexdigit d1)) 43); [done|]. unfold unsigned16.
  destruct ds as [|d2 ds]; cbn [map].
  { by rewrite (base_digits_hex [d1]). }
  inversion Hr1 as [|? ? H2 Hr2]; subst. destruct (Hd d2 H2) as (_ & _ & H120).
  destruct (Z.eqb_spec (ord (lower_char (hexdigit d2))) 120); [done|]. rewrite andb_false_r.
  by rewrite (base_digits_hex (d1 :: d2 :: ds)).
Qed.
