(* ===== verification/Format.v ===== *)
(** * Printed values

    What [%r], [{:,}] and the padded columns of a format string print, and sorting by
    a key.  A text is ASCII. *)

From S2P Require Import Prelude Text.

(** ** Columns *)

Definition spaces (n : nat) : string := list_str (replicate n " "%char).
Definition ljust (n : nat) (s : string) : string := cat [s; spaces (n - String.length s)].
Definition rjust (n : nat) (s : string) : string := cat [spaces (n - String.length s); s].
Definition cut (n : nat) (s : string) : string := list_str (take n (str_list s)).

(** [repr] of ASCII text. *)
Definition repr_char (q : Z) (c : ascii) : list ascii :=
  let n := ord c in
  if (n =? q) || (n =? 92) then ["\"%char; c]
  else if n =? 9 then ["\"%char; "t"%char] else if n =? 10 then ["\"%char; "n"%char]
  else if n =? 13 then ["\"%char; "r"%char]
  else if (n <? 32) || (n =? 127) then ["\"%char; "x"%char; hexdigit (n / 16); hexdigit (n mod 16)]
  else [c].
Definition py_repr (s : string) : string :=
  let l := str_list s in
  let q := if existsb (fun c => ord c =? 39) l && negb (existsb (fun c => ord c =? 34) l) then 34 else 39 in
  list_str (chr q :: List.flat_map (repr_char q) l ++ [chr q]).

(** ["{:,}"]: groups of three digits from the right. *)
Fixpoint commas_from (l : list ascii) (k : nat) : list ascii :=
  match l with
  | [] => []
  | c :: t => match k, t with
              | 2%nat, _ :: _ => c :: ","%char :: commas_from t 0
              | _, _ => c :: commas_from t (S k)
              end
  end.
Definition commas (n : Z) : string := list_str (reverse (commas_from (reverse (str_list (py_str n))) 0)).

(** [sorted(l, key=...)], which is stable. *)
Fixpoint insert_by {A} (key : A -> Z) (x : A) (l : list A) : list A :=
  match l with
  | [] => [x]
  | y :: t => if key x <=? key y then x :: l else y :: insert_by key x t
  end.
Definition sort_by {A} (key : A -> Z) (l : list A) : list A := foldr (insert_by key) [] l.
Definition sorted_names (l : list string) : list string := merge_sort String.le l.

(** ** Sorting by a key *)

Section sort_by.
Context {A : Type} (key : A -> Z).

Definition key_le (x y : A) : Prop := key x <= key y.

#[export] Instance key_le_trans : Transitive key_le.
Proof. intros x y z. unfold key_le. lia. Qed.

Lemma insert_by_perm x l : insert_by key x l ≡ₚ x :: l.
Proof.
  induction l as [|y l IH]; [done|]. cbn [insert_by]. destruct (key x <=? key y); [done|]. rewrite IH. apply Permutation_swap.
Qed.

Lemma sort_by_perm l : sort_by key l ≡ₚ l.
Proof. induction l as [|x l IH]; [done|]. change (sort_by key (x :: l)) with (insert_by key x (sort_by key l)). by rewrite insert_by_perm, IH. Qed.

Lemma insert_by_hd R x l : HdRel key_le R l -> key_le R x -> HdRel key_le R (insert_by key x l).
Proof. intros H Hx. destruct l as [|y l]; [by constructor|]. cbn [insert_by]. inversion H; subst. case_match; by constructor. Qed.

Lemma sort_by_sorted l : StronglySorted key_le (sort_by key l).
Proof.
  apply (Sorted_StronglySorted key_le).
  induction l as [|x l IH]; [constructor|]. change (sort_by key (x :: l)) with (insert_by key x (sort_by key l)).
  induction IH as [|y t Ht IHt Hy]; [by repeat constructor|]. cbn [insert_by]. destruct (Z.leb_spec (key x) (key y)).
  - constructor; [by constructor|by constructor].
  - constructor; [done|]. apply insert_by_hd; [done|]. unfold key_le. lia.
Qed.

(** A permutation in the order of its keys, all different, is the sorted list. *)
Lemma sort_by_unique l l' : l ≡ₚ l' -> StronglySorted key_le l' -> NoDup (map key l') -> sort_by key l = l'.
Proof.
  intros Hp Hs Hn. apply (StronglySorted_unique_strong key_le); [|apply sort_by_sorted|done|by rewrite sort_by_perm].
  intros x y Hx Hy Hxy Hyx. assert (key x = key y) as Hk by (unfold key_le in *; lia).
  rewrite sort_by_perm, Hp in Hx. clear -Hx Hy Hk Hn.
  apply list_elem_of_lookup in Hx as (i & Hi). apply list_elem_of_lookup in Hy as (j & Hj).
  assert (i = j) as <-; [|congruence].
  apply (NoDup_lookup (map key l') i j (key x)); [done|by rewrite list_lookup_fmap, Hi|by rewrite list_lookup_fmap, Hj, Hk].
Qed.
End sort_by.
