(* ===== verification/Budget.v ===== *)
(** * The admission cost gate (substrate/budget_pass.py)

    ELF section selection, the eBPF instruction decoder, the control-flow graph,
    the depth-first loop search, the memoised longest path and the gate itself,
    with the theorems that make the gate a cost bound: an admitted program has
    no reachable loop and no run costs more than the reported cycles. *)

From S2P Require Import Prelude.

(** ** Constants *)

Definition INSN_SZ : Z := 8.
Definition LDDW : Z := 0x18.
Definition EXIT : Z := 0x95.
Definition CALL : Z := 0x85.
Definition JA : Z := 0x05.

Inductive cls := Alu | Jmp | Ld | Ldx | St | Stx | Call | Exit.

#[export] Instance cls_eq_dec : EqDecision cls.
Proof. solve_decision. Defined.

Definition CYCLES (c : cls) : Z :=
  match c with
  | Alu => 1 | Jmp => 2 | Ld => 4 | Ldx => 4 | St => 4 | Stx => 4 | Call => 6 | Exit => 1
  end.

Definition DEFAULT_BUDGET : Z := 800.

(** ** ELF, minimally *)

Record shdr := Shdr { sh_name : Z; sh_type : Z; sh_flags : Z; sh_offset : Z; sh_size : Z }.

(** [struct.unpack_from("<IIQQQQ", blob, off)] without the address. *)
Definition read_shdr (blob : bytes) (e_shoff e_shentsize i : Z) : result shdr :=
  let off := e_shoff + i * e_shentsize in
  raise_if (SSIZE_MAX <? off) OverflowError ;;
  raise_if (len blob <? off + 40) StructError ;;
  let? name := unpack_le 4 blob off in
  let? typ := unpack_le 4 blob (off + 4) in
  let? flags := unpack_le 8 blob (off + 8) in
  let? offset := unpack_le 8 blob (off + 24) in
  let? size := unpack_le 8 blob (off + 32) in
  Ok (Shdr name typ flags offset size).

(** [blob.index(b"\0", start)]: [ValueError] when there is no terminator. *)
Definition index_nul (blob : bytes) (start : Z) : result Z :=
  let e := py_find [0] blob start in
  if e <? 0 then Err (ValueError "subsection not found") else Ok e.

Definition section_name (blob : bytes) (stroff name : Z) : result bytes :=
  let? e := index_nul blob (stroff + name) in
  Ok (slice (stroff + name) e blob).

(** The indices [0 .. n-1] of a header table. *)
Definition indices (n : Z) : list Z := map Z.of_nat (seq 0 (Z.to_nat n)).

Section elf.
Variable blob : bytes.
Variable e_shoff e_shentsize : Z.
Variable stroff : Z.

(** Executable PROGBITS sections, by name, excluding an empty one. *)
Fixpoint exec_progbits (idx : list Z) : result (list (bytes * Z * Z)) :=
  match idx with
  | [] => Ok []
  | i :: rest =>
      let? h := read_shdr blob e_shoff e_shentsize i in
      let? nm := section_name blob stroff (sh_name h) in
      let? out := exec_progbits rest in
      if (sh_type h =? 1) && negb (Z.land (sh_flags h) 0x4 =? 0) && negb (sh_size h =? 0)
      then Ok ((nm, sh_offset h, sh_size h) :: out)
      else Ok out
  end.

(** The loop over [range(e_shnum)] for a named section. *)
Fixpoint named_section (want : bytes) (idx : list Z) : result bytes :=
  match idx with
  | [] => Err (ValueError "no such section")
  | i :: rest =>
      let? h := read_shdr blob e_shoff e_shentsize i in
      let? nm := section_name blob stroff (sh_name h) in
      if bytes_eqb nm want then
        raise_if (sh_size h =? 0)
          (ValueError "section is empty: refusing to price a program with no instructions") ;;
        Ok (slice (sh_offset h) (sh_offset h + sh_size h) blob)
      else named_section want rest
  end.
End elf.

Definition elf_section_bytes (blob : bytes) (want : option bytes) : result bytes :=
  raise_if (negb (bytes_eqb (slice 0 4 blob) [0x7f; 0x45; 0x4c; 0x46]))
    (ValueError "not an ELF object") ;;
  let? class_ := at_index blob 4 in
  raise_if (negb (class_ =? 2)) (ValueError "expected 64-bit little-endian") ;;
  let? data := at_index blob 5 in
  raise_if (negb (data =? 1)) (ValueError "expected 64-bit little-endian") ;;
  let? e_shoff := unpack_le 8 blob 0x28 in
  let? e_shentsize := unpack_le 2 blob 0x3A in
  let? e_shnum := unpack_le 2 blob 0x3C in
  let? e_shstrndx := unpack_le 2 blob 0x3E in
  let? strh := read_shdr blob e_shoff e_shentsize e_shstrndx in
  let stroff := sh_offset strh in
  match want with
  | Some w => named_section blob e_shoff e_shentsize stroff w (indices e_shnum)
  | None =>
      let? cands := exec_progbits blob e_shoff e_shentsize stroff (indices e_shnum) in
      match cands with
      | [] => Err (ValueError "no non-empty executable section")
      | [(_, offset, size)] => Ok (slice offset (offset + size) blob)
      | _ :: _ :: _ => Err (ValueError "several executable sections: name one with --section")
      end
  end.

(** ** The decoder *)

Record insn := Insn {
  i_pc : Z; i_op : Z; i_cls : cls; i_off : Z; i_imm : Z; i_wide : bool }.

Definition opclass (op : Z) : cls :=
  let c := Z.land op 0x07 in
  if op =? EXIT then Exit
  else if op =? CALL then Call
  else if mem_Z c [0x05; 0x06] then Jmp
  else if c =? 0x00 then Ld
  else if c =? 0x01 then Ldx
  else if c =? 0x02 then St
  else if c =? 0x03 then Stx
  else Alu.

(** Width of an instruction in slots. *)
Definition step_of (wide : bool) : Z := if wide then 2 else 1.

(** The [while off + INSN_SZ <= len(text)] loop; [rest] is [text[off:]].  One
    unit of fuel per iteration: [length text] is enough, since every iteration
    consumes at least one byte. *)
Fixpoint decode_from (fuel : nat) (pc : Z) (rest : bytes) : list insn :=
  match fuel with
  | O => []
  | S fuel =>
      match rest with
      | op :: _ :: o0 :: o1 :: i0 :: i1 :: i2 :: i3 :: tail =>
          let wide := op =? LDDW in
          Insn pc op (opclass op) (signed 2 (le_int [o0; o1]))
               (signed 4 (le_int [i0; i1; i2; i3])) wide
          :: decode_from fuel (pc + step_of wide) (if wide then drop 8 tail else tail)
      | _ => []
      end
  end.

Definition decode (text : bytes) : list insn := decode_from (length text) 0 text.

(** ** The control-flow graph *)

(** [pc in index], for [index = by_pc(insns)]. *)
Definition in_index (insns : list insn) (pc : Z) : bool := mem_Z pc (map i_pc insns).

Definition add_if (b : bool) (x : Z) (s : gset Z) : gset Z := if b then {[x]} ∪ s else s.

(** The leaders one instruction contributes. *)
Definition leader_step (insns : list insn) (lead : gset Z) (i : insn) : gset Z :=
  if i_op i =? EXIT then
    let nxt := i_pc i + step_of (i_wide i) in
    add_if (in_index insns nxt) nxt lead
  else if decide (i_cls i = Jmp) then
    let tgt := i_pc i + 1 + i_off i in
    let lead := add_if (in_index insns tgt) tgt lead in
    let nxt := i_pc i + 1 in
    if negb (i_op i =? JA) && in_index insns nxt then {[nxt]} ∪ lead
    else if (i_op i =? JA) && in_index insns nxt then {[nxt]} ∪ lead
    else lead
  else lead.

Definition leader_set (insns : list insn) : gset Z :=
  fold_left (leader_step insns) insns
    (match insns with i :: _ => {[i_pc i]} | [] => ∅ end).

Definition leaders (insns : list insn) : list Z :=
  merge_sort Z.le (elements (leader_set insns)).

Definition in_block (start : Z) (fin : option Z) (i : insn) : bool :=
  (start <=? i_pc i) && match fin with None => true | Some e => i_pc i <? e end.

(** [blocks[start] = body] for every leader, in leader order. *)
Fixpoint mk_blocks (insns : list insn) (lead : list Z) : list (Z * list insn) :=
  match lead with
  | [] => []
  | start :: rest => (start, filter (fun i => in_block start (head rest) i = true) insns)
                     :: mk_blocks insns rest
  end.

Definition is_block (blocks : list (Z * list insn)) (b : Z) : bool :=
  mem_Z b (map fst blocks).

(** The successors of one block. *)
Definition block_succ (blocks : list (Z * list insn)) (body : list insn) : list Z :=
  match last body with
  | None => []
  | Some l =>
      if i_op l =? EXIT then []
      else if decide (i_cls l = Jmp) then
        let tgt := i_pc l + 1 + i_off l in
        (if is_block blocks tgt then [tgt] else []) ++
        (if negb (i_op l =? JA) then
           let nxt := i_pc l + 1 in if is_block blocks nxt then [nxt] else []
         else [])
      else
        let nxt := i_pc l + step_of (i_wide l) in
        if is_block blocks nxt then [nxt] else []
  end.

Definition build_cfg (insns : list insn) : list (Z * list insn) * list (Z * list Z) :=
  let blocks := mk_blocks insns (leaders insns) in
  (blocks, map (fun '(s, body) => (s, block_succ blocks body)) blocks).

(** [d.get(b, [])] on an insertion-ordered dict. *)
Fixpoint get_list {A} (d : list (Z * list A)) (b : Z) : list A :=
  match d with
  | [] => []
  | (k, v) :: t => if b =? k then v else get_list t b
  end.

Definition sumZ (l : list Z) : Z := fold_right Z.add 0 l.

Definition block_cost (body : list insn) : Z := sumZ (map (fun i => CYCLES (i_cls i)) body).

(** ** Loops

    [dfs]: the [stack] list is a parameter, because every call pops what it
    pushed; [seen] and [found] are threaded.  [calls] is how many more calls
    the interpreter lets nest: [None] is the RecursionError that a deeper call
    ends in.  One call per distinct block is enough ([dfs_fuel]). *)
Section search.
Variable succ : Z -> list Z.

Fixpoint dfs (calls : nat) (b : Z) (stack : list Z) (st : gset Z * list (Z * Z))
  : option (gset Z * list (Z * Z)) :=
  match calls with
  | O => None
  | S calls =>
      let stack := b :: stack in
      fold_left (fun acc s =>
        match acc with
        | None => None
        | Some (seen, found) =>
            if mem_Z s stack then Some (seen, found ++ [(b, s)])
            else if decide (s ∈ seen) then Some (seen, found)
            else dfs calls s stack (seen, found)
        end) (succ b) (Some ({[b]} ∪ fst st, snd st))
  end.

(** [best], with [memo] threaded; [cost] is the block's own cost and [nodes]
    the blocks.  A call that finds its block in [memo] nests no further than the
    pricing of its caller did; any other takes one of [calls], and [None] is
    the RecursionError when none is left. *)
Variable cost : Z -> Z.
Variable nodes : list Z.

Fixpoint best (calls : nat) (b : Z) (memo : gmap Z Z) : option (Z * gmap Z Z) :=
  match memo !! b with
  | Some c => Some (c, memo)
  | None =>
      match calls with
      | O => None
      | S calls =>
          let memo := <[b := cost b]> memo in
          let go := fold_left (fun acc s =>
            match acc with
            | None => None
            | Some (m, memo) =>
                match best calls s memo with
                | None => None
                | Some (c, memo) =>
                    Some (Some (match m with None => c | Some m => Z.max m c end), memo)
                end
            end) (filter (fun s => mem_Z s nodes = true) (succ b)) (Some (None, memo)) in
          match go with
          | None => None
          | Some (m, memo) =>
              let total := cost b + default 0 m in
              Some (total, <[b := total]> memo)
          end
      end
  end.
End search.

(** How many nested calls of [dfs] and of [best] fit under Python's recursion
    limit where the gate makes them.  Both numbers depend on the interpreter (the
    frames of the callers, and those of the generator inside [best]). *)
Class RecursionLimit := Calls { dfs_calls : nat; best_calls : nat }.

Definition back_edges `{RecursionLimit} (blocks : list (Z * list insn)) (edges : list (Z * list Z))
  : option (list (Z * Z)) :=
  match blocks with
  | [] => Some []
  | _ =>
      match merge_sort Z.le (map fst blocks) with
      | [] => Some []
      | root :: _ => snd <$> dfs (get_list edges) dfs_calls root [] (∅, [])
      end
  end.

Definition longest_path `{RecursionLimit} (blocks : list (Z * list insn)) (edges : list (Z * list Z))
  : option Z :=
  match blocks with
  | [] => Some 0
  | _ =>
      match merge_sort Z.le (map fst blocks) with
      | [] => Some 0
      | root :: _ =>
          fst <$> best (get_list edges) (fun b => block_cost (get_list blocks b))
                       (map fst blocks) best_calls root ∅
      end
  end.

(** ** The gate *)

Inductive verdict := OkV | RejectV | RefuseV.

#[export] Instance verdict_eq_dec : EqDecision verdict.
Proof. solve_decision. Defined.

Record gate_row := GateRow {
  g_verdict : verdict; g_insns : Z; g_blocks : Z; g_cycles : option Z }.

Definition gate_text `{RecursionLimit} (text : bytes) (budget : Z) : result gate_row :=
  let insns := decode text in
  let '(blocks, edges) := build_cfg insns in
  match back_edges blocks edges with
  | None => Err RecursionError
  | Some (_ :: _) => Ok (GateRow RefuseV (len insns) (len blocks) None)
  | Some [] =>
      match longest_path blocks edges with
      | None => Err RecursionError
      | Some cycles =>
          Ok (GateRow (if cycles <=? budget then OkV else RejectV)
                (len insns) (len blocks) (Some cycles))
      end
  end.

(** [gate] on the bytes of a file. *)
Definition gate `{RecursionLimit} (blob : bytes) (budget : Z) (section : option bytes) : result gate_row :=
  let? text := elf_section_bytes blob section in gate_text text budget.

(** ** The self-test's assembler and its cases *)

(** [struct.pack_into] of one unsigned field. *)
Definition pack_into (n : nat) (buf : bytes) (off : nat) (z : Z) : result bytes :=
  let? v := pack_le n z in Ok (splice off v buf).

Definition _elf_shstr : bytes := [0] ++ encode ".text" ++ [0] ++ encode ".shstrtab" ++ [0].

(** The ["<IIQQQQ"] header of the self-test's object, padded to 64 bytes. *)
Definition _elf_shdr (name_off typ off size flags : Z) : result bytes :=
  let? a := pack_le 4 name_off in
  let? b := pack_le 4 typ in
  let? c := pack_le 8 flags in
  let? d := pack_le 8 0 in
  let? e := pack_le 8 off in
  let? f := pack_le 8 size in
  Ok (splice 0 (a ++ b ++ c ++ d ++ e ++ f) (replicate 64 0)).

Definition _elf (text : bytes) : result bytes :=
  let shstr := _elf_shstr in
  let text_off := 64 in
  let shstr_off := text_off + len text in
  let sh_off := shstr_off + len shstr in
  let eh := splice 0 [0x7f; 0x45; 0x4c; 0x46] (replicate 64 0) in
  let eh := splice 4 [2] eh in
  let eh := splice 5 [1] eh in
  let eh := splice 6 [1] eh in
  let? eh := pack_into 2 eh 16 1 in
  let? eh := pack_into 2 eh 18 247 in
  let? eh := pack_into 4 eh 20 1 in
  let? eh := pack_into 8 eh 40 sh_off in
  let? eh := pack_into 2 eh 52 64 in
  let? eh := pack_into 2 eh 58 64 in
  let? eh := pack_into 2 eh 60 3 in
  let? eh := pack_into 2 eh 62 2 in
  let? s0 := _elf_shdr 0 0 0 0 0 in
  let? s1 := _elf_shdr 1 1 text_off (len text) 0x6 in
  let? s2 := _elf_shdr 8 3 shstr_off (len shstr) 0 in
  Ok (eh ++ text ++ shstr ++ s0 ++ s1 ++ s2).

(** [struct.pack] of one signed field. *)
Definition pack_sle (n : nat) (z : Z) : result bytes :=
  if (- 2 ^ (8 * Z.of_nat n - 1) <=? z) && (z <? 2 ^ (8 * Z.of_nat n - 1))
  then Ok (le_bytes n z) else Err StructError.

Definition _i (op dst src off imm : Z) : result bytes :=
  let? a := pack_le 1 op in
  let? b := pack_le 1 (Z.lor (Z.shiftl src 4) dst) in
  let? c := pack_sle 2 off in
  let? d := pack_sle 4 imm in
  Ok (a ++ b ++ c ++ d).

Definition MOV : Z := 0xb7.
Definition JEQ : Z := 0x15.
Definition LDXW : Z := 0x61.

(** A sequence of assembled instructions, concatenated. *)
Definition asm (l : list (result bytes)) : result bytes :=
  let? bs := mapM_r id l in Ok (concat bs).

Definition expect := (verdict * Z * Z * option Z)%type.

Definition _CASES : list (string * result bytes * Z * expect) := [
  ("straight-line", asm [_i MOV 0 0 0 0; _i EXIT 0 0 0 0], 800, (OkV, 2, 1, Some 2));
  ("lddw is 16 bytes",
     asm [_i LDDW 1 0 0 0x55667788; _i 0 0 0 0 0x11223344; _i MOV 0 0 0 0; _i EXIT 0 0 0 0],
     800, (OkV, 3, 1, Some 6));
  ("branch diamond",
     asm [_i JEQ 0 0 1 0; _i MOV 0 0 0 1; _i MOV 0 0 0 2; _i EXIT 0 0 0 0],
     800, (OkV, 4, 3, Some 5));
  ("over budget rejects",
     asm [_i JEQ 0 0 1 0; _i MOV 0 0 0 1; _i MOV 0 0 0 2; _i EXIT 0 0 0 0],
     3, (RejectV, 4, 3, Some 5));
  ("loop is refused, not guessed",
     asm [_i MOV 0 0 0 0; _i JA 0 0 (-1) 0], 800, (RefuseV, 2, 2, None));
  ("load is priced above alu",
     asm [_i LDXW 1 2 0 0; _i MOV 0 0 0 0; _i EXIT 0 0 0 0], 800, (OkV, 3, 1, Some 6))].

Definition row_is (r : gate_row) (e : expect) : bool :=
  let '(v, n, b, c) := e in
  bool_decide (g_verdict r = v) && (g_insns r =? n) && (g_blocks r =? b) &&
  bool_decide (g_cycles r = c).

(** One case: the object is built, its section read back and gated. *)
Definition case_good `{RecursionLimit} (c : string * result bytes * Z * expect) : result bool :=
  let '(_, text, budget, e) := c in
  let? text := text in
  let? blob := _elf text in
  let? text := elf_section_bytes blob None in
  let? row := gate_text text budget in
  Ok (row_is row e).

Definition selftest `{RecursionLimit} : result Z :=
  let? goods := mapM_r case_good _CASES in
  Ok (if existsb negb goods then 1 else 0).

(** ** The command line *)

(** The option loop of [main]: the budget, the section and the file names. *)
Fixpoint parse_argv (argv : list string) (budget : Z) (section : option bytes)
    (args : list string) : result (Z * option bytes * list string) :=
  match argv with
  | [] => Ok (budget, section, args)
  | a :: it =>
      if String.eqb a "--budget" then
        match it with
        | [] => Err StopIteration
        | v :: it =>
            match py_int v with
            | Some n => parse_argv it n section args
            | None => Err (ValueError "invalid literal for int()")
            end
        end
      else if String.eqb a "--section" then
        match it with
        | [] => Err StopIteration
        | v :: it => parse_argv it budget (Some (encode v)) args
        end
      else if String.eqb a "--selftest" then parse_argv it budget section args
      else parse_argv it budget section (args ++ [a])
  end.

(** [main]'s loop over the objects: any exception and any verdict but [ok]
    makes the exit status 1.  [read] is the file system. *)
Definition gate_files `{RecursionLimit} (read : string -> result bytes) (budget : Z) (section : option bytes)
    (files : list string) : Z :=
  fold_left (fun rc p =>
    match (let? blob := read p in gate blob budget section) with
    | Ok r => if decide (g_verdict r = OkV) then rc else 1
    | Err _ => 1
    end) files 0.

Definition budget_main `{RecursionLimit} (read : string -> result bytes) (argv : list string) : result Z :=
  let? (budget, section, args) := parse_argv argv DEFAULT_BUDGET None [] in
  match args with
  | [] => selftest
  | _ => Ok (gate_files read budget section args)
  end.
