(* ===== verification/BudgetGraph.v ===== *)
(** * Graph search lemmas for the cost gate

    Correctness of the two recursive searches of substrate/budget_pass.py on an
    arbitrary successor function: the depth-first loop search [dfs] and the
    memoised longest path [best].  [BudgetSound] instantiates them with the
    control-flow graph of a program. *)

From S2P Require Import Prelude Budget.

Section graph.
Variable succ : Z -> list Z.

(** [edge x y]: [y] is a successor of [x]; [back y x] is the converse, the
    relation whose accessibility says that no infinite path leaves [x]. *)
Definition edge (x y : Z) : Prop := y ∈ succ x.
Definition back (y x : Z) : Prop := edge x y.

(** A cycle through [x]. *)
Definition on_cycle (x : Z) : Prop := exists y, edge x y /\ rtc edge y x.

Lemma acc_rtc x y : Acc back x -> rtc edge x y -> Acc back y.
Proof.
  intros Ha Hr. induction Hr as [|x z y He _ IH]; [done|].
  apply IH. by apply Ha.
Qed.

Lemma acc_no_cycle x : Acc back x -> ~ on_cycle x.
Proof.
  induction 1 as [x _ IH]. intros (y & He & Hr).
  apply (IH y He). destruct (rtc_inv _ _ Hr) as [->|(z & Hyz & Hzx)].
  - exists x. split; [done|apply rtc_refl].
  - exists z. split; [done|]. eapply rtc_r; eauto.
Qed.

(** ** The loop search *)

Abbreviation dfs_body fuel b stack :=
  (fun (acc : option (gset Z * list (Z * Z))) (s : Z) =>
     match acc with
     | None => None
     | Some (seen, found) =>
         if mem_Z s (b :: stack) then Some (seen, found ++ [(b, s)])
         else if decide (s ∈ seen) then Some (seen, found)
         else dfs succ fuel s (b :: stack) (seen, found)
     end).

Lemma dfs_unfold fuel b stack st :
  dfs succ (S fuel) b stack st =
  fold_left (dfs_body fuel b stack) (succ b) (Some ({[b]} ∪ st.1, st.2)).
Proof. done. Qed.

Lemma dfs_body_none fuel b stack l : fold_left (dfs_body fuel b stack) l None = None.
Proof. induction l; simpl; auto. Qed.

Lemma mem_Z_false z l : mem_Z z l = false -> z ∉ l.
Proof. intros H Hin. apply mem_Z_elem in Hin. congruence. Qed.

(** What a call promises about the state it returns. *)
Definition dfs_post (stack : list Z) (seen : gset Z) (found : list (Z * Z))
    (seen' : gset Z) (found' : list (Z * Z)) : Prop :=
  seen ⊆ seen' /\
  (exists more, found' = found ++ more) /\
  (found' = [] -> (forall u, u ∈ seen -> u ∉ stack -> Acc back u) ->
     forall u, u ∈ seen' -> u ∉ stack -> Acc back u).

Lemma dfs_loop fuel b stack :
  (forall s stk seen found seen' found',
     dfs succ fuel s stk (seen, found) = Some (seen', found') ->
     (forall u, u ∈ stk -> u ∈ seen) -> s ∉ seen ->
     dfs_post stk seen found seen' found' /\ s ∈ seen') ->
  forall l seen found seen' found',
    fold_left (dfs_body fuel b stack) l (Some (seen, found)) = Some (seen', found') ->
    (forall u, u ∈ b :: stack -> u ∈ seen) ->
    dfs_post (b :: stack) seen found seen' found' /\
    (found' = [] -> (forall u, u ∈ seen -> u ∉ b :: stack -> Acc back u) ->
       forall s, s ∈ l -> Acc back s).
Proof.
  intros IH l. induction l as [|s l IHl]; intros seen found seen' found' H Hstk.
  - simpl in H. simplify_eq. split; [|set_solver].
    split_and!; [done|by exists []; rewrite app_nil_r|done].
  - cbn [fold_left] in H. destruct (mem_Z s (b :: stack)) eqn:Hm.
    + destruct (IHl _ _ _ _ H Hstk) as [(Hs & [m Hf] & _) _].
      rewrite <- app_assoc in Hf. assert (found' <> []) by (subst; by destruct found).
      split; [|done]. split_and!; [done|by exists ([(b, s)] ++ m)|done].
    + apply mem_Z_false in Hm. destruct (decide (s ∈ seen)) as [Hin|Hnin].
      * destruct (IHl _ _ _ _ H Hstk) as [Hpost Hacc].
        split; [done|]. intros Hnil Hinv x [->|Hx]%elem_of_cons; eauto.
      * destruct (dfs succ fuel s (b :: stack) (seen, found)) as [[seen1 found1]|] eqn:Hd;
          [|by rewrite dfs_body_none in H].
        destruct (IH _ _ _ _ _ _ Hd Hstk Hnin) as [(Hs1 & [m1 Hf1] & Hacc1) Hin1].
        assert (forall u, u ∈ b :: stack -> u ∈ seen1) as Hstk1 by set_solver.
        destruct (IHl _ _ _ _ H Hstk1) as [(Hs2 & [m2 Hf2] & Hacc2) Hl].
        assert (found' = [] -> found1 = []) as Hf by (intros ->; by destruct found1).
        split; [split_and!; [set_solver|exists (m1 ++ m2); subst; by rewrite app_assoc|]|].
        -- intros Hnil Hinv. apply Hacc2; [done|]. apply Hacc1; auto.
        -- intros Hnil Hinv x [->|Hx]%elem_of_cons.
           ++ apply Hacc1; auto.
           ++ apply Hl; auto.
Qed.

Lemma dfs_spec fuel : forall b stack seen found seen' found',
  dfs succ fuel b stack (seen, found) = Some (seen', found') ->
  (forall u, u ∈ stack -> u ∈ seen) -> b ∉ seen ->
  dfs_post stack seen found seen' found' /\ b ∈ seen'.
Proof.
  induction fuel as [|fuel IH]; intros b stack seen found seen' found' H Hstk Hb; [done|].
  rewrite dfs_unfold in H. simpl in H.
  destruct (dfs_loop fuel b stack IH _ _ _ _ _ H) as [(Hs & Hf & Hacc) Hl]; [set_solver|].
  split; [split_and!; [set_solver|done|]|set_solver].
  intros Hnil Hinv.
  assert (forall u, u ∈ {[b]} ∪ seen -> u ∉ b :: stack -> Acc back u) as Hinv'.
  { intros u Hu Hnu. apply Hinv; set_solver. }
  assert (Acc back b) as Hab.
  { constructor. intros y Hy. exact (Hl Hnil Hinv' y Hy). }
  intros u Hu Hnu. destruct (decide (u = b)) as [->|Hne]; [done|].
  apply Hacc; auto. set_solver.
Qed.

(** Every pair reported is a real cycle reachable from the start. *)
Lemma dfs_loop_found fuel b stack :
  (forall s stk st st',
     dfs succ fuel s stk st = Some st' ->
     (forall u, u ∈ stk -> rtc edge u s) ->
     forall x y, (x, y) ∈ st'.2 ->
       (x, y) ∈ st.2 \/ (rtc edge s x /\ edge x y /\ rtc edge y x)) ->
  (forall u, u ∈ stack -> rtc edge u b) ->
  forall l st st',
    (forall s, s ∈ l -> edge b s) ->
    fold_left (dfs_body fuel b stack) l (Some st) = Some st' ->
    forall x y, (x, y) ∈ st'.2 ->
      (x, y) ∈ st.2 \/ (rtc edge b x /\ edge x y /\ rtc edge y x).
Proof.
  intros IH Hstk l. induction l as [|s l IHl]; intros [seen found] st' Hl H x y Hxy.
  - simpl in H. simplify_eq. by left.
  - cbn [fold_left] in H.
    assert (edge b s) as Hbs by (apply Hl; set_solver).
    assert (forall s, s ∈ l -> edge b s) as Hl' by (intros; apply Hl; set_solver).
    destruct (mem_Z s (b :: stack)) eqn:Hm.
    + destruct (IHl _ _ Hl' H x y Hxy) as [Hin|?]; [|by right]. simpl in Hin.
      apply elem_of_app in Hin as [Hin|Hin]; [by left|].
      apply list_elem_of_singleton in Hin. simplify_eq. right.
      apply mem_Z_elem, elem_of_cons in Hm as [->|Hm].
      * split_and!; [apply rtc_refl|done|apply rtc_refl].
      * split_and!; [apply rtc_refl|done|]. auto.
    + destruct (decide (s ∈ seen)); [by destruct (IHl _ _ Hl' H x y Hxy); auto|].
      destruct (dfs succ fuel s (b :: stack) (seen, found)) as [st1|] eqn:Hd;
        [|by rewrite dfs_body_none in H].
      destruct (IHl _ _ Hl' H x y Hxy) as [Hin|?]; [|by right].
      destruct (IH _ _ _ _ Hd) with (x := x) (y := y) as [?|(Hr & ? & ?)]; [|done|by left|].
      * intros u [->|Hu]%elem_of_cons; [by apply rtc_once|].
        eapply rtc_r; eauto.
      * right. split_and!; [|done..]. eapply rtc_l; eauto.
Qed.

Lemma dfs_found fuel : forall b stack st st',
  dfs succ fuel b stack st = Some st' ->
  (forall u, u ∈ stack -> rtc edge u b) ->
  forall x y, (x, y) ∈ st'.2 ->
    (x, y) ∈ st.2 \/ (rtc edge b x /\ edge x y /\ rtc edge y x).
Proof.
  induction fuel as [|fuel IH]; intros b stack st st' H Hstk x y Hxy; [done|].
  rewrite dfs_unfold in H.
  by apply (dfs_loop_found fuel b stack IH Hstk _ _ _ (fun s Hs => Hs) H x y Hxy).
Qed.

(** One unit of fuel per unvisited node is enough. *)
Variable N : gset Z.
Hypothesis succ_closed : forall b s, b ∈ N -> s ∈ succ b -> s ∈ N.

Lemma dfs_fuel fuel : forall b stack st,
  b ∈ N -> b ∉ st.1 -> (forall u, u ∈ stack -> u ∈ st.1) ->
  (size (N ∖ st.1) <= fuel)%nat ->
  exists st', dfs succ fuel b stack st = Some st'.
Proof.
  induction fuel as [|fuel IH]; intros b stack [seen found] Hb Hnb Hstk Hsz; simpl in *.
  - exfalso. assert (b ∈ N ∖ seen) as Hin by set_solver.
    assert (size (N ∖ seen) = 0)%nat as H0 by lia.
    apply size_empty_inv in H0. set_solver.
  - assert (size (N ∖ ({[b]} ∪ seen)) < size (N ∖ seen))%nat as Hlt.
    { apply subset_size. set_solver. }
    assert (forall l seen1 found1,
      (forall s, s ∈ l -> s ∈ N) -> (forall u, u ∈ b :: stack -> u ∈ seen1) ->
      {[b]} ∪ seen ⊆ seen1 ->
      exists st', fold_left (dfs_body fuel b stack) l (Some (seen1, found1)) = Some st') as Hloop.
    { intros l. induction l as [|s l IHl]; intros seen1 found1 Hl Hstk1 Hsub; [by eexists|].
      assert (forall s, s ∈ l -> s ∈ N) as Hl' by set_solver.
      assert (s ∈ N) as Hs by set_solver.
      cbn [fold_left]. destruct (mem_Z s (b :: stack)); [by apply IHl|].
      destruct (decide (s ∈ seen1)); [by apply IHl|].
      assert (size (N ∖ seen1) <= size (N ∖ ({[b]} ∪ seen)))%nat
        by (apply subseteq_size; set_solver).
      destruct (IH s (b :: stack) (seen1, found1)) as [[seen2 found2] Hd]; simpl; try done; [lia|].
      rewrite Hd. destruct (dfs_spec _ _ _ _ _ _ _ Hd) as [(Hsub2 & _) _]; [done..|].
      apply IHl; set_solver. }
    apply Hloop; set_solver.
Qed.

(** ** The longest path *)

Variable cost : Z -> Z.
Hypothesis cost_nonneg : forall b, 0 <= cost b.

Inductive path : Z -> list Z -> Prop :=
| path_one b : path b [b]
| path_cons b s p : edge b s -> path s p -> path b (b :: p).

Definition pcost (p : list Z) : Z := sumZ (map cost p).

(** [c] is the cost of the most expensive path from [b]. *)
Definition longest (b c : Z) : Prop :=
  (forall p, path b p -> pcost p <= c) /\ exists p, path b p /\ pcost p = c.

Lemma longest_nonneg b c : longest b c -> cost b <= c.
Proof. intros [H _]. specialize (H [b] (path_one b)). unfold pcost in H. simpl in H. lia. Qed.

Variable nodes : list Z.
Hypothesis nodes_all : forall b s, s ∈ succ b -> mem_Z s nodes = true.

Lemma filter_nodes b : filter (fun s => mem_Z s nodes = true) (succ b) = succ b.
Proof.
  specialize (nodes_all b). induction (succ b) as [|s l IH]; [done|].
  rewrite filter_cons_True by (apply nodes_all; set_solver).
  f_equal. apply IH. set_solver.
Qed.

Abbreviation best_body fuel :=
  (fun (acc : option (option Z * gmap Z Z)) (s : Z) =>
     match acc with
     | None => None
     | Some (m, memo) =>
         match best succ cost nodes fuel s memo with
         | None => None
         | Some (c, memo) =>
             Some (Some (match m with None => c | Some m => Z.max m c end), memo)
         end
     end).

Lemma best_body_none fuel l : fold_left (best_body fuel) l None = None.
Proof. induction l; simpl; auto. Qed.

(** New entries of the memo are right; old ones are kept. *)
Definition memo_post (memo memo' : gmap Z Z) : Prop :=
  (forall x c, memo' !! x = Some c -> memo !! x = Some c \/ longest x c) /\
  (forall x, is_Some (memo !! x) -> is_Some (memo' !! x)).

Lemma memo_post_trans m1 m2 m3 : memo_post m1 m2 -> memo_post m2 m3 -> memo_post m1 m3.
Proof.
  intros [H1 H1'] [H2 H2']. split; [|auto].
  intros x c Hx. apply H2 in Hx as [Hx|Hx]; auto.
Qed.

(** Entries are right unless they belong to a strict ancestor of [b]. *)
Definition memo_pre (memo : gmap Z Z) (b : Z) : Prop :=
  forall x c, memo !! x = Some c -> longest x c \/ tc edge x b.

Lemma best_loop fuel l : forall m memo m' memo',
  (forall s, s ∈ l -> Acc back s) ->
  (forall s memo c memo', s ∈ l -> memo_pre memo s ->
     best succ cost nodes fuel s memo = Some (c, memo') ->
     longest s c /\ memo_post memo memo') ->
  (forall s, s ∈ l -> memo_pre memo s) ->
  fold_left (best_body fuel) l (Some (m, memo)) = Some (m', memo') ->
  memo_post memo memo' /\
  exists cs, Forall2 longest l cs /\
    m' = fold_left (fun m c => Some (match m with None => c | Some m => Z.max m c end)) cs m.
Proof.
  induction l as [|s l IHl]; intros m memo m' memo' Hacc IH Hpre H.
  - simpl in H. simplify_eq. split; [split; auto|]. by exists [].
  - cbn [fold_left] in H.
    destruct (best succ cost nodes fuel s memo) as [[c memo1]|] eqn:Hb;
      [|by rewrite best_body_none in H].
    destruct (IH s memo c memo1) as [Hlc Hp1]; [set_solver|apply Hpre; set_solver|done|].
    apply IHl in H as [Hp2 (cs & Hcs & ->)].
    + split; [by eapply memo_post_trans|]. exists (c :: cs). split; [by constructor|done].
    + set_solver.
    + intros; eapply IH; eauto; set_solver.
    + intros s' Hs' x c' Hx. destruct Hp1 as [Hp1 _].
      apply Hp1 in Hx as [Hx|Hx]; [|by left]. eapply Hpre; eauto; set_solver.
Qed.

(** The running maximum of the loop. *)
Lemma max_fold (cs : list Z) m :
  fold_left (fun m c => Some (match m with None => c | Some m => Z.max m c end)) cs (Some m)
  = Some (fold_left Z.max cs m).
Proof. revert m; induction cs as [|c cs IH]; intros m; simpl; auto. Qed.

Lemma fold_max_ge cs : forall m, m <= fold_left Z.max cs m /\
  (forall c, c ∈ cs -> c <= fold_left Z.max cs m) /\
  (fold_left Z.max cs m = m \/ fold_left Z.max cs m ∈ cs).
Proof.
  induction cs as [|c cs IH]; intros m; simpl.
  - split_and!; [lia|set_solver|by left].
  - destruct (IH (Z.max m c)) as (H1 & H2 & H3). split_and!; [lia| |].
    + intros c' [->|?]%elem_of_cons; [lia|auto].
    + destruct H3 as [H3|H3]; [|right; set_solver].
      destruct (Z.max_spec m c) as [[_ E]|[_ E]]; rewrite E in H3.
      * right. rewrite E, H3. set_solver.
      * left. by rewrite E.
Qed.

(** The value [best] returns, from the values of the successors. *)
Lemma longest_step b cs m :
  Forall2 longest (succ b) cs ->
  m = fold_left (fun m c => Some (match m with None => c | Some m => Z.max m c end)) cs None ->
  longest b (cost b + default 0 m).
Proof.
  intros Hcs ->. destruct cs as [|c cs]; simpl.
  - apply Forall2_nil_inv_r in Hcs. split.
    + intros p Hp. inversion Hp as [|? s q He]; subst; unfold pcost; simpl; [lia|].
      unfold edge in He. rewrite Hcs in He. set_solver.
    + exists [b]. split; [constructor|]. unfold pcost. simpl. lia.
  - rewrite max_fold. simpl. destruct (fold_max_ge cs c) as (H1 & H2 & H3).
    set (M := fold_left Z.max cs c) in *.
    assert (forall c', c' ∈ c :: cs -> c' <= M) as Hle by (intros ? [->|?]%elem_of_cons; auto).
    assert (M ∈ c :: cs) as HM by (destruct H3 as [->|]; set_solver).
    split.
    + intros p Hp. inversion Hp as [|? s q He Hq]; subst; unfold pcost; simpl.
      * apply list_elem_of_lookup in HM as [k Hk].
        destruct (Forall2_lookup_r _ _ _ _ _ Hcs Hk) as (s & _ & Hl).
        apply longest_nonneg in Hl. specialize (cost_nonneg s). lia.
      * apply list_elem_of_lookup in He as [k Hk].
        destruct (Forall2_lookup_l _ _ _ _ _ Hcs Hk) as (c' & Hc' & [Hmax _]).
        specialize (Hmax _ Hq). unfold pcost in Hmax.
        assert (c' <= M) by (apply Hle, list_elem_of_lookup; eauto). lia.
    + apply list_elem_of_lookup in HM as [k Hk].
      destruct (Forall2_lookup_r _ _ _ _ _ Hcs Hk) as (s & Hs & [_ (p & Hp & Hc)]).
      exists (b :: p). split.
      * econstructor; [|done]. unfold edge. apply list_elem_of_lookup. eauto.
      * unfold pcost in *. simpl. lia.
Qed.

Lemma best_hit calls b memo c : memo !! b = Some c ->
  best succ cost nodes calls b memo = Some (c, memo).
Proof. intros H. destruct calls; cbn [best]; by rewrite H. Qed.

Lemma best_spec b : Acc back b -> forall fuel memo c memo',
  memo_pre memo b ->
  best succ cost nodes fuel b memo = Some (c, memo') ->
  longest b c /\ memo_post memo memo'.
Proof.
  induction 1 as [b Hb IH]. intros fuel memo c memo' Hpre H.
  destruct (memo !! b) as [c0|] eqn:Hm.
  - rewrite (best_hit _ _ _ _ Hm) in H. simplify_eq. split; [|split; auto].
    destruct (Hpre _ _ Hm) as [?|Hc]; [done|]. exfalso.
    apply (acc_no_cycle b); [by constructor|].
    inversion Hc as [? ? He|? y ? He Ht]; subst.
    + exists b. split; [done|apply rtc_refl].
    + exists y. split; [done|by apply tc_rtc].
  - destruct fuel as [|fuel]; cbn [best] in H; rewrite Hm in H; [done|].
    rewrite filter_nodes in H.
    destruct (fold_left _ (succ b) _) as [[m memo1]|] eqn:Hf; [|done]. simplify_eq.
    apply best_loop in Hf as [[Hp Hp'] (cs & Hcs & Hm')].
    + assert (longest b (cost b + default 0 m)) as Hl by by eapply longest_step.
      split; [done|]. split.
      * intros x c Hx. destruct (decide (x = b)) as [->|Hne].
        -- rewrite lookup_insert_eq in Hx. simplify_eq. by right.
        -- rewrite lookup_insert_ne in Hx by done. apply Hp in Hx as [Hx|?]; [|by right].
           rewrite lookup_insert_ne in Hx by done. by left.
      * intros x Hx. destruct (decide (x = b)) as [->|Hne].
        -- rewrite lookup_insert_eq. by eexists.
        -- rewrite lookup_insert_ne by done. apply Hp'.
           by rewrite lookup_insert_ne by done.
    + intros s Hs. by apply Hb.
    + intros s memo2 c memo3 Hs Hpre2 H2. by eapply IH.
    + intros s Hs x c Hx. destruct (decide (x = b)) as [->|Hne].
      * right. by apply tc_once.
      * rewrite lookup_insert_ne in Hx by done.
        destruct (Hpre _ _ Hx) as [?|Ht]; [by left|]. right. eapply tc_r; eauto.
Qed.

Lemma best_fuel fuel : forall b memo,
  b ∈ N -> (size (N ∖ dom memo) <= fuel)%nat ->
  exists c memo', best succ cost nodes fuel b memo = Some (c, memo') /\ dom memo ⊆ dom memo'.
Proof.
  induction fuel as [|fuel IH]; intros b memo Hb Hsz;
    (destruct (memo !! b) as [c|] eqn:Hm; [exists c, memo; by rewrite (best_hit _ _ _ _ Hm)|]);
    assert (b ∉ dom memo) as Hnb by (by apply not_elem_of_dom).
  { exfalso. assert (b ∈ N ∖ dom memo) as Hin by set_solver.
    assert (size (N ∖ dom memo) = 0)%nat as H0 by lia.
    apply size_empty_inv in H0. set_solver. }
  cbn [best]. rewrite Hm, filter_nodes.
  assert (size (N ∖ ({[b]} ∪ dom memo)) < size (N ∖ dom memo))%nat as Hlt
    by (apply subset_size; set_solver).
  assert (forall l m memo1, (forall s, s ∈ l -> s ∈ N) -> {[b]} ∪ dom memo ⊆ dom memo1 ->
    exists m' memo', fold_left (best_body fuel) l (Some (m, memo1)) = Some (m', memo')
      /\ dom memo1 ⊆ dom memo') as Hloop.
  { intros l. induction l as [|s l IHl]; intros m memo1 Hl Hsub; [by exists m, memo1|].
    cbn [fold_left].
    assert (size (N ∖ dom memo1) <= size (N ∖ ({[b]} ∪ dom memo)))%nat
      by (apply subseteq_size; set_solver).
    destruct (IH s memo1) as (c & memo2 & -> & Hsub2); [set_solver|lia|].
    match goal with |- context [Some (Some ?v, memo2)] =>
      destruct (IHl (Some v) memo2) as (m' & memo' & -> & Hsub3) end; [set_solver..|].
    exists m', memo'. split; [done|set_solver]. }
  destruct (Hloop (succ b) None (<[b:=cost b]> memo)) as (m' & memo' & -> & Hsub).
  - intros s Hs. eauto.
  - rewrite dom_insert_L. set_solver.
  - eexists _, _. split; [done|]. rewrite dom_insert_L in *. set_solver.
Qed.

End graph.
