(* ===== verification/BudgetSound.v ===== *)
(** * The cost gate bounds every run

    Instruction-level semantics of a decoded program (which instruction may
    follow which), the block structure built by [build_cfg], and the theorems of
    the gate: it always answers, it refuses exactly the programs with a
    reachable loop, and the cycles it reports are the exact maximum over all
    runs. *)

From S2P Require Import Prelude Budget BudgetGraph.

(** ** Runs of a program *)

(** Where control may go after [i]. *)
Definition next_pcs (i : insn) : list Z :=
  if i_op i =? EXIT then []
  else if decide (i_cls i = Jmp) then
    (i_pc i + 1 + i_off i) :: (if i_op i =? JA then [] else [i_pc i + 1])
  else [i_pc i + step_of (i_wide i)].

(** A run: a non-empty sequence of instructions of the program, each one a
    possible successor of the one before it. *)
Inductive run (insns : list insn) : list insn -> Prop :=
| run_one i : i ∈ insns -> run insns [i]
| run_cons i j r : i ∈ insns -> i_pc j ∈ next_pcs i -> run insns (j :: r) ->
    run insns (i :: j :: r).

(** A run that starts at the program's first instruction. *)
Definition entry_run (insns r : list insn) : Prop :=
  run insns r /\ head r = head insns.

(** What the run costs under the gate's table. *)
Definition run_cost (r : list insn) : Z := block_cost r.

(** ** Decoded programs *)

Definition insn_ok (i : insn) : Prop :=
  i_cls i = opclass (i_op i) /\ i_wide i = (i_op i =? LDDW).

(** Each instruction starts where the one before it ends. *)
Fixpoint linked (pc : Z) (l : list insn) : Prop :=
  match l with
  | [] => True
  | i :: t => i_pc i = pc /\ insn_ok i /\ linked (pc + step_of (i_wide i)) t
  end.

Lemma decode_linked fuel : forall pc rest, linked pc (decode_from fuel pc rest).
Proof.
  induction fuel as [|fuel IH]; intros pc rest; [done|]. cbn [decode_from].
  do 8 (destruct rest as [|? rest]; [done|]). by split_and!; [..|apply IH].
Qed.

Lemma step_of_pos w : 1 <= step_of w.
Proof. destruct w; simpl; lia. Qed.

Lemma linked_app pc l1 l2 :
  linked pc (l1 ++ l2) -> exists pc', linked pc' l2 /\
    (forall i, last l1 = Some i -> pc' = i_pc i + step_of (i_wide i)) /\ (l1 = [] -> pc' = pc).
Proof.
  revert pc. induction l1 as [|i l1 IH]; intros pc H; [by exists pc|].
  destruct H as (Hpc & _ & H). destruct (IH _ H) as (pc' & Hl & Hlast & Hnil).
  exists pc'. split_and!; [done| |done].
  intros k Hk. destruct l1 as [|j l1].
  - simpl in Hk. simplify_eq. by rewrite Hnil.
  - by apply Hlast.
Qed.

Lemma linked_ge pc l i : linked pc l -> i ∈ l -> pc <= i_pc i.
Proof.
  revert pc. induction l as [|j l IH]; intros pc H Hi; [set_solver|].
  destruct H as (Hpc & _ & H). apply elem_of_cons in Hi as [->|Hi]; [lia|].
  specialize (IH _ H Hi). pose proof (step_of_pos (i_wide j)). lia.
Qed.

Lemma linked_ok pc l i : linked pc l -> i ∈ l -> insn_ok i.
Proof.
  revert pc. induction l as [|j l IH]; intros pc H Hi; [set_solver|].
  destruct H as (Hpc & ? & H). apply elem_of_cons in Hi as [->|Hi]; eauto.
Qed.

(** Position of two instructions in a linked program. *)
Lemma linked_lt pc l1 i l2 j : linked pc (l1 ++ i :: l2) -> j ∈ l2 ->
  i_pc i + step_of (i_wide i) <= i_pc j.
Proof.
  intros H Hj. apply linked_app in H as (pc' & (Hpc & _ & H) & _).
  subst. by eapply linked_ge.
Qed.

Lemma linked_inj pc l i j : linked pc l -> i ∈ l -> j ∈ l -> i_pc i = i_pc j -> i = j.
Proof.
  revert pc. induction l as [|k l IH]; intros pc H Hi Hj E; [set_solver|].
  assert (forall x, x ∈ l -> i_pc k < i_pc x) as Hlt.
  { intros x Hx. pose proof (step_of_pos (i_wide k)).
    pose proof (linked_lt pc [] k l x H Hx). lia. }
  destruct H as (_ & _ & H).
  apply elem_of_cons in Hi as [->|Hi], Hj as [->|Hj]; eauto.
  - specialize (Hlt _ Hj). lia.
  - specialize (Hlt _ Hi). lia.
Qed.

Lemma in_index_iff insns pc : in_index insns pc = true <-> exists i, i ∈ insns /\ i_pc i = pc.
Proof.
  unfold in_index. rewrite mem_Z_elem, list_elem_of_fmap. naive_solver.
Qed.

(** A linked program splits at any address. *)
Lemma linked_split pc l a : linked pc l ->
  l = filter (fun i => i_pc i < a) l ++ filter (fun i => a <= i_pc i) l.
Proof.
  revert pc. induction l as [|i l IH]; intros pc H; [done|].
  pose proof H as H0. destruct H as (Hpc & _ & H).
  destruct (decide (i_pc i < a)) as [Hlt|Hge].
  - rewrite filter_cons_True, filter_cons_False by lia. simpl. f_equal. by eapply IH.
  - rewrite filter_cons_False, filter_cons_True by lia.
    assert (forall x, x ∈ l -> a <= i_pc x) as Hall.
    { intros x Hx. pose proof (step_of_pos (i_wide i)).
      pose proof (linked_lt pc [] i l x H0 Hx). lia. }
    rewrite filter_none by (intros x Hx; specialize (Hall x Hx); lia).
    simpl. f_equal. symmetry. by apply filter_all.
Qed.

(** ** Leaders *)

(** The leaders the instruction [i] contributes. *)
Definition contributes (insns : list insn) (i : insn) (x : Z) : Prop :=
  in_index insns x = true /\
  ((i_op i = EXIT /\ x = i_pc i + step_of (i_wide i)) \/
   (i_op i <> EXIT /\ i_cls i = Jmp /\ (x = i_pc i + 1 + i_off i \/ x = i_pc i + 1))).

Lemma leader_step_iff insns lead i x :
  x ∈ leader_step insns lead i <-> x ∈ lead \/ contributes insns i x.
Proof.
  unfold leader_step, contributes, add_if.
  destruct (Z.eqb_spec (i_op i) EXIT) as [E|E].
  - case_match eqn:Hn; [rewrite elem_of_union, elem_of_singleton|]; naive_solver congruence.
  - case_decide as D; [|naive_solver].
    destruct (in_index insns (i_pc i + 1 + i_off i)) eqn:Ht,
      (in_index insns (i_pc i + 1)) eqn:Hn, (Z.eqb_spec (i_op i) JA); simpl;
      rewrite ?elem_of_union, ?elem_of_singleton; naive_solver congruence.
Qed.

Lemma leader_fold_iff insns l : forall lead x,
  x ∈ fold_left (leader_step insns) l lead <->
  x ∈ lead \/ exists i, i ∈ l /\ contributes insns i x.
Proof.
  induction l as [|i l IH]; intros lead x; simpl.
  - set_solver.
  - rewrite IH, leader_step_iff. setoid_rewrite elem_of_cons. naive_solver.
Qed.

Lemma leaders_iff insns x :
  x ∈ leaders insns <->
  (exists i, head insns = Some i /\ x = i_pc i) \/
  exists i, i ∈ insns /\ contributes insns i x.
Proof.
  unfold leaders. rewrite merge_sort_Permutation, elem_of_elements.
  unfold leader_set. rewrite leader_fold_iff.
  destruct insns as [|i l]; simpl; [set_solver|]. rewrite elem_of_singleton. naive_solver.
Qed.

Lemma leaders_index insns x : x ∈ leaders insns -> in_index insns x = true.
Proof.
  rewrite leaders_iff. intros [(i & Hi & ->)|(i & _ & [? _])]; [|done].
  apply in_index_iff. exists i. split; [|done]. destruct insns; simplify_eq/=. set_solver.
Qed.

Lemma leaders_NoDup insns : NoDup (leaders insns).
Proof. unfold leaders. rewrite merge_sort_Permutation. apply NoDup_elements. Qed.

Lemma leaders_Sorted insns : StronglySorted Z.le (leaders insns).
Proof. apply (StronglySorted_merge_sort _). Qed.

(** Strictly increasing positions. *)
Lemma sorted_lookup_lt (l : list Z) : StronglySorted Z.le l -> NoDup l ->
  forall i j x y, l !! i = Some x -> l !! j = Some y -> (i < j)%nat -> x < y.
Proof.
  induction 1 as [|a l Hs IH Ha]; intros Hnd i j x y Hi Hj Hij; [done|].
  apply NoDup_cons in Hnd as [Hna Hnd].
  destruct j as [|j]; [lia|]. simpl in Hj. destruct i as [|i]; simpl in Hi; simplify_eq.
  - apply list_elem_of_lookup_2 in Hj. rewrite Forall_forall in Ha.
    specialize (Ha y Hj).
    destruct (decide (x = y)) as [->|]; [done|lia].
  - eapply IH; eauto. lia.
Qed.

(** No leader lies strictly between a leader and the next one. *)
Lemma leaders_gap insns k b x :
  leaders insns !! k = Some b -> x ∈ leaders insns -> b < x ->
  match leaders insns !! S k with Some e => e <= x | None => False end.
Proof.
  intros Hb Hx Hlt. apply list_elem_of_lookup in Hx as [j Hj].
  pose proof (leaders_Sorted insns) as Hs. pose proof (leaders_NoDup insns) as Hn.
  destruct (decide (j <= k)%nat) as [Hle|Hgt].
  - exfalso. destruct (decide (j = k)) as [->|]; [simplify_eq; lia|].
    assert (x < b) by (eapply (sorted_lookup_lt _ Hs Hn j k); eauto; lia). lia.
  - destruct (leaders insns !! S k) as [e|] eqn:He.
    + destruct (decide (j = S k)) as [->|]; [simplify_eq; lia|].
      assert (e < x) by (eapply (sorted_lookup_lt _ Hs Hn (S k) j); eauto; lia). lia.
    + apply lookup_ge_None in He. apply lookup_lt_Some in Hj. lia.
Qed.

(** ** Blocks *)

Definition body_at (insns : list insn) (b : Z) (fin : option Z) : list insn :=
  filter (fun i => in_block b fin i = true) insns.

Lemma mk_blocks_lookup insns lead k :
  mk_blocks insns lead !! k =
  (fun b => (b, body_at insns b (lead !! S k))) <$> lead !! k.
Proof.
  revert k. induction lead as [|b lead IH]; intros k; [by destruct k|].
  destruct k as [|k]; simpl; [by destruct lead|]. apply IH.
Qed.

Lemma mk_blocks_fst insns lead : map fst (mk_blocks insns lead) = lead.
Proof. induction lead; simpl; congruence. Qed.

Lemma get_list_lookup {A} (d : list (Z * list A)) k b v :
  NoDup (map fst d) -> d !! k = Some (b, v) -> get_list d b = v.
Proof.
  revert k. induction d as [|[b' v'] d IH]; intros k Hn Hk; [done|].
  simpl in Hn. apply NoDup_cons in Hn as [Hni Hn].
  destruct k as [|k]; simplify_eq/=; [by rewrite Z.eqb_refl|].
  destruct (Z.eqb_spec b b') as [->|]; [|by eapply IH].
  exfalso. apply Hni. apply list_elem_of_fmap. exists (b', v). split; [done|].
  by eapply list_elem_of_lookup_2.
Qed.

Lemma get_list_absent {A} (d : list (Z * list A)) b :
  b ∉ map fst d -> get_list d b = [].
Proof.
  induction d as [|[k v] d IH]; [done|]. simpl. intros Hb.
  destruct (Z.eqb_spec b k) as [->|]; [set_solver|]. apply IH. set_solver.
Qed.

(** The searches start at the smallest block address. *)
Lemma back_edges_root `{RecursionLimit} blocks edges root :
  head (merge_sort Z.le (map fst blocks)) = Some root ->
  back_edges blocks edges = snd <$> dfs (get_list edges) dfs_calls root [] (∅, []).
Proof.
  intros Hr. unfold back_edges. destruct blocks as [|b bs]; [done|].
  destruct (merge_sort Z.le (map fst (b :: bs))); [done|]. by simplify_eq/=.
Qed.

Lemma longest_path_root `{RecursionLimit} blocks edges root :
  head (merge_sort Z.le (map fst blocks)) = Some root ->
  longest_path blocks edges =
  fst <$> best (get_list edges) (fun b => block_cost (get_list blocks b))
               (map fst blocks) best_calls root ∅.
Proof.
  intros Hr. unfold longest_path. destruct blocks as [|b bs]; [done|].
  destruct (merge_sort Z.le (map fst (b :: bs))); [done|]. by simplify_eq/=.
Qed.

(** ** One program *)

Section program.
Variable insns : list insn.
Variable pc0 : Z.
Hypothesis insns_linked : linked pc0 insns.

Let lead := leaders insns.
Let blocks := fst (build_cfg insns).
Let edges := snd (build_cfg insns).
Let succ := get_list edges.
Let cost := fun b => block_cost (get_list blocks b).

Lemma blocks_fst : map fst blocks = lead.
Proof. apply mk_blocks_fst. Qed.

Lemma blocks_NoDup : NoDup (map fst blocks).
Proof. rewrite blocks_fst. apply leaders_NoDup. Qed.

(** The [k]-th leader with its body. *)
Lemma blocks_lookup k b : lead !! k = Some b ->
  blocks !! k = Some (b, body_at insns b (lead !! S k)).
Proof. intros H. unfold blocks, build_cfg. cbn [fst]. rewrite mk_blocks_lookup. fold lead. by rewrite H. Qed.

Lemma block_body k b : lead !! k = Some b ->
  get_list blocks b = body_at insns b (lead !! S k).
Proof. intros H. eapply get_list_lookup; [apply blocks_NoDup|by apply blocks_lookup]. Qed.

Lemma edges_fst : map fst edges = lead.
Proof.
  rewrite <- blocks_fst. unfold edges, blocks, build_cfg. cbn [fst snd].
  rewrite map_map. apply map_ext. by intros [].
Qed.

Lemma succ_body b : b ∈ lead -> succ b = block_succ blocks (get_list blocks b).
Proof.
  intros [k Hk]%list_elem_of_lookup. rewrite (block_body k) by done.
  unfold succ. eapply (get_list_lookup _ k).
  - rewrite edges_fst. apply leaders_NoDup.
  - unfold edges, build_cfg. cbn [snd]. fold blocks.
    change (map ?f ?l) with (f <$> l). rewrite list_lookup_fmap.
    change (mk_blocks insns (leaders insns)) with blocks. by rewrite (blocks_lookup k b).
Qed.

Lemma succ_outside b : b ∉ lead -> succ b = [].
Proof.
  intros Hb. apply get_list_absent. by rewrite edges_fst.
Qed.

Lemma is_block_iff b : is_block blocks b = true <-> b ∈ lead.
Proof. unfold is_block. by rewrite blocks_fst, mem_Z_elem. Qed.

(** A block's body is a contiguous segment of the program. *)
Lemma body_segment b fin : exists pre post, insns = pre ++ body_at insns b fin ++ post /\
  (forall i, i ∈ post -> match fin with Some e => e <= i_pc i | None => False end).
Proof.
  pose proof (linked_split _ _ b insns_linked) as H1.
  destruct fin as [e|].
  - destruct (decide (b <= e)) as [Hbe|Hbe].
    + set (hi := filter (fun i => b <= i_pc i) insns) in *.
      assert (exists pc, linked pc hi) as [pc Hhi].
      { rewrite H1 in insns_linked. apply linked_app in insns_linked as (? & ? & _). eauto. }
      pose proof (linked_split _ _ e Hhi) as H2.
      exists (filter (fun i => i_pc i < b) insns), (filter (fun i => e <= i_pc i) hi).
      split; [|intros i Hi; apply list_elem_of_filter in Hi; lia].
      rewrite H1 at 1. f_equal. rewrite H2 at 1. f_equal.
      unfold hi, body_at, in_block. rewrite list_filter_filter.
      apply list_filter_iff. intros i. rewrite andb_true_iff, Z.leb_le, Z.ltb_lt. naive_solver.
    + exists (filter (fun i => i_pc i < e) insns), (filter (fun i => e <= i_pc i) insns).
      split; [|intros i Hi; apply list_elem_of_filter in Hi; lia].
      rewrite (linked_split _ _ e insns_linked) at 1. f_equal.
      unfold body_at. rewrite (filter_none (fun i => in_block b (Some e) i = true)); [done|].
      intros i _. unfold in_block. lia.
  - exists (filter (fun i => i_pc i < b) insns), []. split; [|set_solver].
    rewrite app_nil_r. rewrite H1 at 1. f_equal. unfold body_at, in_block.
    apply list_filter_iff. intros i. rewrite andb_true_r, Z.leb_le. tauto.
Qed.

Lemma body_elem b fin i :
  i ∈ body_at insns b fin <-> i ∈ insns /\ in_block b fin i = true.
Proof. unfold body_at. rewrite list_elem_of_filter. naive_solver. Qed.

(** Inside a block, an instruction that is not the last falls through to the
    next one and to nothing else. *)
Lemma body_inner k b pre i j post : lead !! k = Some b ->
  body_at insns b (lead !! S k) = pre ++ i :: j :: post ->
  next_pcs i = [i_pc j].
Proof.
  intros Hk Hb.
  destruct (body_segment b (lead !! S k)) as (p & q & Hseg & _). rewrite Hb in Hseg.
  assert (i_pc j = i_pc i + step_of (i_wide i)) as Hnext.
  { pose proof insns_linked as H. rewrite Hseg in H.
    rewrite <- app_assoc, (app_assoc p pre) in H. simpl in H.
    apply linked_app in H as (pc & (Hpc & _ & (Hj & _)) & _). by subst. }
  assert (i ∈ body_at insns b (lead !! S k)) as [Hi Hib]%body_elem
    by (rewrite Hb; set_solver).
  assert (j ∈ body_at insns b (lead !! S k)) as [Hj Hjb]%body_elem
    by (rewrite Hb; set_solver).
  pose proof (step_of_pos (i_wide i)).
  assert (i_pc j ∉ lead) as Hnl.
  { intros Hl. pose proof (leaders_gap insns k b (i_pc j) Hk Hl) as Hgap.
    unfold in_block in *. destruct (leaders insns !! S k) eqn:E; fold lead in E; rewrite E in *;
      [|apply Hgap; lia]. lia. }
  assert (in_index insns (i_pc j) = true) as Hix by (apply in_index_iff; eauto).
  destruct (linked_ok _ _ i insns_linked Hi) as [Hc Hw].
  unfold next_pcs. destruct (Z.eqb_spec (i_op i) EXIT) as [E|E].
  - exfalso. apply Hnl, leaders_iff. right. exists i. split; [done|]. split; [done|]. naive_solver.
  - case_decide as D; [|by rewrite Hnext].
    exfalso. apply Hnl, leaders_iff. right. exists i. split; [done|]. split; [done|].
    right. split_and!; [done|done|]. right. rewrite Hnext. f_equal.
    destruct (i_wide i) eqn:W; [|done]. exfalso. symmetry in Hw. apply Z.eqb_eq in Hw.
    rewrite Hc, Hw in D. by vm_compute in D.
Qed.

(** The last instruction of a block leaves it for leaders only, and those are
    the block's successors. *)
Lemma body_last k b pre i j : lead !! k = Some b ->
  body_at insns b (lead !! S k) = pre ++ [i] ->
  j ∈ insns -> i_pc j ∈ next_pcs i -> i_pc j ∈ lead /\ i_pc j ∈ succ b.
Proof.
  intros Hk Hb Hj Hn.
  assert (in_index insns (i_pc j) = true) as Hix by (apply in_index_iff; eauto).
  assert (i ∈ body_at insns b (lead !! S k)) as [Hi Hib]%body_elem
    by (rewrite Hb; set_solver).
  assert (b ∈ lead) as Hbl by by eapply list_elem_of_lookup_2.
  rewrite succ_body by done. rewrite (block_body k) by done. rewrite Hb.
  unfold block_succ. rewrite last_snoc.
  unfold next_pcs in Hn. destruct (Z.eqb_spec (i_op i) EXIT) as [E|E]; [set_solver|].
  case_decide as D.
  - assert (i_pc j ∈ lead) as Hl.
    { apply leaders_iff. right. exists i. split; [done|]. split; [done|]. right.
      split_and!; [done..|]. destruct (i_op i =? JA); set_solver. }
    split; [done|]. apply elem_of_app.
    apply elem_of_cons in Hn as [Hn|Hn].
    + left. rewrite <- Hn. rewrite (proj2 (is_block_iff _) Hl). set_solver.
    + right. destruct (i_op i =? JA); [set_solver|]. simpl.
      apply list_elem_of_singleton in Hn. rewrite <- Hn.
      rewrite (proj2 (is_block_iff _) Hl). set_solver.
  - apply list_elem_of_singleton in Hn.
    enough (i_pc j ∈ lead) as Hl.
    { split; [done|]. rewrite <- Hn, (proj2 (is_block_iff _) Hl). set_solver. }
    destruct (body_segment b (lead !! S k)) as (p & q & Hseg & Hq). rewrite Hb in Hseg.
    assert (insns = (p ++ pre) ++ i :: q) as Hseg'
      by (rewrite Hseg, <- !app_assoc; done).
    pose proof (step_of_pos (i_wide i)).
    assert (forall x, x ∈ insns -> i_pc i < i_pc x -> x ∈ q /\ i_pc j <= i_pc x) as Haft.
    { intros x Hx Hlt. pose proof insns_linked as H1. rewrite Hseg' in H1, Hx.
      apply elem_of_app in Hx as [Hx|Hx].
      - exfalso. apply list_elem_of_split in Hx as (l1 & l2 & Hx). rewrite Hx in H1.
        rewrite <- app_assoc in H1. simpl in H1.
        pose proof (linked_lt _ _ _ _ i H1 ltac:(set_solver)).
        pose proof (step_of_pos (i_wide x)). lia.
      - apply elem_of_cons in Hx as [->|Hx]; [lia|]. split; [done|].
        rewrite Hn. by eapply linked_lt. }
    destruct (Haft j Hj) as [Hjq _]; [lia|].
    specialize (Hq j Hjq). destruct (lead !! S k) as [e|] eqn:He; [|done].
    assert (e ∈ lead) as Hel by by eapply list_elem_of_lookup_2.
    pose proof (leaders_index _ _ Hel) as (x & Hx & Hxe)%in_index_iff.
    destruct (Haft x Hx) as [_ Hle].
    { rewrite Hxe. unfold in_block in Hib. lia. }
    replace (i_pc j) with e by lia. done.
Qed.

(** A leader's block begins with the instruction at that address. *)
Lemma body_head k j : lead !! k = Some (i_pc j) -> j ∈ insns ->
  exists post, body_at insns (i_pc j) (lead !! S k) = j :: post.
Proof.
  intros Hk Hj.
  assert (j ∈ body_at insns (i_pc j) (lead !! S k)) as Hin.
  { apply body_elem. split; [done|]. unfold in_block.
    destruct (lead !! S k) as [e|] eqn:He; [|lia].
    pose proof (sorted_lookup_lt _ (leaders_Sorted insns) (leaders_NoDup insns)
      k (S k) _ _ Hk He ltac:(lia)). lia. }
  destruct (body_at insns (i_pc j) (lead !! S k)) as [|i post] eqn:Hb; [set_solver|].
  exists post. f_equal.
  assert (i ∈ body_at insns (i_pc j) (lead !! S k)) as [Hi Hib]%body_elem
    by (rewrite Hb; set_solver).
  apply elem_of_cons in Hin as [->|Hin]; [done|]. exfalso.
  destruct (body_segment (i_pc j) (lead !! S k)) as (p & q & Hseg & _). rewrite Hb in Hseg.
  pose proof insns_linked as H. rewrite Hseg in H. simpl in H.
  pose proof (linked_lt _ _ _ _ j H ltac:(set_solver)).
  pose proof (step_of_pos (i_wide i)). unfold in_block in Hib. lia.
Qed.

(** ** Runs and block paths *)

Lemma block_cost_nonneg l : 0 <= block_cost l.
Proof.
  unfold block_cost. induction l as [|i l IH]; simpl; [lia|].
  assert (0 < CYCLES (i_cls i)) by (destruct (i_cls i); simpl; lia). lia.
Qed.

Lemma block_cost_app l1 l2 : block_cost (l1 ++ l2) = block_cost l1 + block_cost l2.
Proof.
  unfold block_cost. induction l1 as [|i l1 IH]; simpl; [done|]. rewrite IH. lia.
Qed.

Lemma block_cost_cons i l : block_cost (i :: l) = CYCLES (i_cls i) + block_cost l.
Proof. done. Qed.

Lemma block_cost_pos i l : 0 < block_cost (i :: l).
Proof.
  rewrite block_cost_cons. pose proof (block_cost_nonneg l).
  assert (0 < CYCLES (i_cls i)) by (destruct (i_cls i); simpl; lia). lia.
Qed.

Lemma run_in r i : run insns r -> i ∈ r -> i ∈ insns.
Proof. induction 1; set_solver. Qed.

Lemma pcost_cons b q : pcost cost (b :: q) = cost b + pcost cost q.
Proof. done. Qed.

Lemma cost_at k b : lead !! k = Some b -> cost b = block_cost (body_at insns b (lead !! S k)).
Proof. intros Hk. unfold cost. by rewrite (block_body k). Qed.

(** A run inside a block is dominated by a path of blocks. *)
Lemma run_path r : forall i k b pre post,
  run insns (i :: r) -> lead !! k = Some b ->
  body_at insns b (lead !! S k) = pre ++ i :: post ->
  exists q, path succ b (b :: q) /\ run_cost (i :: r) <= block_cost (i :: post) + pcost cost q.
Proof.
  induction r as [|j r IH]; intros i k b pre post Hr Hk Hb.
  - exists []. split; [constructor|]. unfold run_cost, pcost. simpl.
    rewrite !block_cost_cons. pose proof (block_cost_nonneg post).
    change (block_cost []) with 0. lia.
  - inversion Hr as [|? ? ? Hi Hn Hr']; subst.
    assert (j ∈ insns) as Hj by (eapply run_in; eauto; set_solver).
    destruct post as [|i' post].
    + destruct (body_last k b pre i j Hk Hb Hj Hn) as [Hl Hs].
      apply list_elem_of_lookup in Hl as [k' Hk'].
      destruct (body_head k' j Hk' Hj) as [post' Hb'].
      destruct (IH j k' (i_pc j) [] post' Hr' Hk' Hb') as (q & Hp & Hc).
      exists (i_pc j :: q). split; [by econstructor|].
      rewrite pcost_cons, (cost_at k' _ Hk'), Hb'.
      unfold run_cost in *. rewrite (block_cost_cons i (j :: r)), (block_cost_cons i []).
      change (block_cost []) with 0. lia.
    + pose proof (body_inner k b pre i i' post Hk Hb) as Hnext. rewrite Hnext in Hn.
      assert (i' ∈ body_at insns b (lead !! S k)) as [Hi' _]%body_elem by (rewrite Hb; set_solver).
      assert (j = i') as ->.
      { eapply linked_inj; [exact insns_linked|done..|set_solver]. }
      destruct (IH i' k b (pre ++ [i]) post Hr' Hk) as (q & Hp & Hc).
      { rewrite Hb, <- app_assoc. done. }
      exists q. split; [done|]. unfold run_cost in *.
      rewrite (block_cost_cons i (i' :: r)), (block_cost_cons i (i' :: post)). lia.
Qed.

(** A block's body is itself a run. *)
Lemma body_run k b : lead !! k = Some b -> forall pre l,
  l <> [] -> body_at insns b (lead !! S k) = pre ++ l -> run insns l.
Proof.
  intros Hk pre l. revert pre. induction l as [|i l IH]; intros pre Hl Hb; [done|].
  assert (i ∈ body_at insns b (lead !! S k)) as [Hi _]%body_elem by (rewrite Hb; set_solver).
  destruct l as [|j l]; [by constructor|].
  constructor; [done| |apply (IH (pre ++ [i])); [done|by rewrite Hb, <- app_assoc]].
  rewrite (body_inner k b pre i j l Hk Hb). set_solver.
Qed.

Lemma run_app l i r j r' :
  run insns (l ++ [i]) -> run insns (j :: r') -> i_pc j ∈ next_pcs i -> r = j :: r' ->
  run insns ((l ++ [i]) ++ r).
Proof.
  intros H Hr Hn ->. induction l as [|x l IH]; simpl in *.
  - inversion H; subst. by constructor.
  - destruct (l ++ [i]) as [|y t] eqn:E; [by destruct l|]. simpl in *.
    inversion H; subst. constructor; [done|done|]. by apply IH.
Qed.

(** A leader is the address of an instruction of the program. *)
Lemma leader_insn b : b ∈ lead -> exists i, i ∈ insns /\ i_pc i = b.
Proof. intros Hb. by apply in_index_iff, leaders_index. Qed.

(** A successor of a block is a leader its last instruction may go to. *)
Lemma succ_inv k b s : lead !! k = Some b -> s ∈ succ b ->
  s ∈ lead /\ exists pre i, body_at insns b (lead !! S k) = pre ++ [i] /\ s ∈ next_pcs i.
Proof.
  intros Hk Hs. rewrite succ_body in Hs by by eapply list_elem_of_lookup_2.
  rewrite (block_body k) in Hs by done. unfold block_succ in Hs.
  destruct (last (body_at insns b (lead !! S k))) as [i|] eqn:Hl; [|set_solver].
  apply last_Some in Hl as [pre Hl].
  enough (is_block blocks s = true /\ s ∈ next_pcs i) as [?%is_block_iff ?] by eauto.
  unfold next_pcs. destruct (Z.eqb_spec (i_op i) EXIT); [set_solver|].
  case_decide.
  - apply elem_of_app in Hs as [Hs|Hs].
    + case_match; [|set_solver]. apply list_elem_of_singleton in Hs as ->. set_solver.
    + destruct (i_op i =? JA); simpl in Hs; [set_solver|]. case_match; [|set_solver].
      apply list_elem_of_singleton in Hs as ->. set_solver.
  - case_match; [|set_solver]. apply list_elem_of_singleton in Hs as ->. set_solver.
Qed.

(** Every path of blocks is followed by a run of the same cost that starts at
    the first block's first instruction. *)
Lemma path_run b p : path succ b p -> b ∈ lead ->
  exists j r, run insns (j :: r) /\ i_pc j = b /\ run_cost (j :: r) = pcost cost p /\
    (forall x, x ∈ p -> exists i, i ∈ j :: r /\ i_pc i = x) /\
    (p <> [b] -> (length p <= length (j :: r))%nat).
Proof.
  induction 1 as [b|b s p Hs Hp IH]; intros Hb.
  - destruct (leader_insn b Hb) as (j & Hj & <-).
    apply list_elem_of_lookup in Hb as [k Hk].
    destruct (body_head k j Hk Hj) as [post Hbody]. exists j, post. split_and!.
    + eapply (body_run k (i_pc j) Hk []); [done|by rewrite Hbody].
    + done.
    + rewrite pcost_cons, (cost_at k _ Hk), Hbody. unfold run_cost, pcost. simpl. lia.
    + intros x ->%list_elem_of_singleton. exists j. set_solver.
    + done.
  - destruct (leader_insn b Hb) as (j & Hj & <-).
    apply list_elem_of_lookup in Hb as [k Hk].
    destruct (body_head k j Hk Hj) as [post Hbody].
    destruct (succ_inv k _ s Hk Hs) as [Hsl (pre & i & Hlast & Hn)].
    destruct (IH Hsl) as (j' & r & Hr & Hj' & Hc & Hall & Hlen).
    assert (run insns ((pre ++ [i]) ++ j' :: r)) as Hrun.
    { eapply run_app; [|done| |done].
      - eapply (body_run k _ Hk []); [|exact Hlast]. by destruct pre.
      - by rewrite Hj'. }
    rewrite <- Hlast, Hbody in Hrun. exists j, (post ++ j' :: r). split_and!; [done|done|..].
    + rewrite pcost_cons, (cost_at k _ Hk), Hbody, <- Hc. unfold run_cost.
      change (j :: post ++ j' :: r) with ((j :: post) ++ j' :: r).
      rewrite block_cost_app. lia.
    + intros x [->|Hx]%elem_of_cons; [exists j; set_solver|].
      destruct (Hall x Hx) as (i' & Hi' & <-). exists i'. set_solver.
    + intros _. simpl. rewrite length_app. simpl.
      destruct (decide (p = [s])) as [->|Hps]; [simpl; lia|].
      specialize (Hlen Hps). simpl in Hlen. lia.
Qed.

(** ** The searches on this program *)

(** The address of the first block is the entry. *)
Lemma root_entry j t : insns = j :: t ->
  head (merge_sort Z.le (map fst blocks)) = Some (i_pc j) /\ i_pc j ∈ lead.
Proof.
  intros E. assert (i_pc j ∈ lead) as Hl.
  { apply leaders_iff. left. exists j. by rewrite E. }
  split; [|done]. rewrite blocks_fst.
  assert (merge_sort Z.le lead = lead) as ->.
  { apply (StronglySorted_unique Z.le).
    - apply (StronglySorted_merge_sort _).
    - apply leaders_Sorted.
    - apply merge_sort_Permutation. }
  destruct lead as [|b l] eqn:El; [set_solver|]. simpl. f_equal.
  assert (b ∈ lead) as Hb by (rewrite El; set_solver).
  destruct (leader_insn b Hb) as (i & Hi & <-).
  assert (i_pc j <= i_pc i) as H1.
  { pose proof insns_linked as H. rewrite E in H, Hi. destruct H as (Hpc & H).
    apply elem_of_cons in Hi as [->|Hi]; [lia|]. subst.
    pose proof (linked_lt _ [] j t i (conj eq_refl H) Hi).
    pose proof (step_of_pos (i_wide j)). lia. }
  apply elem_of_cons in Hl as [->|Hl]; [done|].
  pose proof (leaders_Sorted insns) as Hs. fold lead in Hs. rewrite El in Hs.
  apply StronglySorted_inv in Hs as [_ Hs]. rewrite Forall_forall in Hs.
  specialize (Hs _ Hl). lia.
Qed.

Lemma cost_nonneg b : 0 <= cost b.
Proof. apply block_cost_nonneg. Qed.

Lemma succ_lead b s : s ∈ succ b -> s ∈ lead.
Proof.
  intros Hs. destruct (decide (b ∈ lead)) as [Hb|Hb].
  - apply list_elem_of_lookup in Hb as [k Hk]. by destruct (succ_inv k b s Hk Hs).
  - rewrite succ_outside in Hs by done. set_solver.
Qed.

Lemma succ_nodes b s : s ∈ succ b -> mem_Z s (map fst blocks) = true.
Proof. intros Hs. rewrite blocks_fst. apply mem_Z_elem. by eapply succ_lead. Qed.

Lemma size_lead : size (list_to_set lead : gset Z) = length blocks.
Proof.
  rewrite size_list_to_set by apply leaders_NoDup.
  rewrite <- blocks_fst. apply length_map.
Qed.

Lemma lead_closed b s : b ∈ (list_to_set lead : gset Z) -> s ∈ succ b ->
  s ∈ (list_to_set lead : gset Z).
Proof. intros _ Hs. apply elem_of_list_to_set. by eapply succ_lead. Qed.

(** What [back_edges] says; it raises only when there are more blocks than
    calls that nest. *)
Lemma back_edges_spec `{RecursionLimit} j t : insns = j :: t ->
  match back_edges blocks edges with
  | Some found =>
      (found = [] -> Acc (back succ) (i_pc j)) /\
      (found <> [] -> exists x, rtc (edge succ) (i_pc j) x /\ on_cycle succ x)
  | None => (dfs_calls < length blocks)%nat
  end.
Proof.
  intros E. destruct (root_entry j t E) as [Hroot Hl].
  rewrite (back_edges_root _ _ _ Hroot). fold succ.
  destruct (dfs succ dfs_calls _ _ _) as [[seen found]|] eqn:Hd; simpl.
  - split.
    + intros ->. destruct (dfs_spec succ _ _ _ _ _ _ _ Hd) as [(_ & _ & Hacc) Hin]; [set_solver..|].
      apply Hacc; set_solver.
    + intros Hne. destruct found as [|[x y] found]; [done|].
      destruct (dfs_found succ _ _ _ _ _ Hd) with (x := x) (y := y) as [?|(H1 & H2 & H3)];
        [set_solver|simpl; set_solver|simpl in *; set_solver|].
      exists x. split; [done|]. by exists y.
  - destruct (decide (dfs_calls < length blocks)%nat) as [|Hge]; [done|].
    destruct (dfs_fuel succ (list_to_set lead) lead_closed dfs_calls (i_pc j) [] (∅, []))
      as [st Hd']; [by apply elem_of_list_to_set|set_solver..| |by rewrite Hd in Hd'].
    simpl. rewrite difference_empty_L, size_lead. lia.
Qed.

Lemma longest_path_spec `{RecursionLimit} j t : insns = j :: t -> Acc (back succ) (i_pc j) ->
  match longest_path blocks edges with
  | Some c => longest succ cost (i_pc j) c
  | None => (best_calls < length blocks)%nat
  end.
Proof.
  intros E Hacc. destruct (root_entry j t E) as [Hroot Hl].
  rewrite (longest_path_root _ _ _ Hroot). fold succ.
  change (fun b => block_cost (get_list blocks b)) with cost.
  destruct (best succ cost _ best_calls _ _) as [[c memo]|] eqn:Hb; simpl.
  - by eapply best_spec in Hb as [Hlong _]; [exact Hlong|exact lead_closed|exact cost_nonneg
      |exact succ_nodes|exact Hacc|].
  - destruct (decide (best_calls < length blocks)%nat) as [|Hge]; [done|].
    destruct (best_fuel succ (list_to_set lead) lead_closed cost cost_nonneg (map fst blocks)
      succ_nodes best_calls (i_pc j) ∅) as (c & memo & Hb' & _);
      [by apply elem_of_list_to_set| |by rewrite Hb in Hb'].
    rewrite dom_empty_L, difference_empty_L, size_lead. lia.
Qed.

End program.
