(* ===== verification/BudgetGate.v ===== *)
(** * The theorems of the cost gate (substrate/budget_pass.py)

    The gate always answers; it refuses exactly the programs a run of which can
    come back to an instruction it has executed; the cycles it reports are the
    exact maximum over all runs; the verdict compares that maximum with the
    budget.  Then the ELF reader in front of it and the exit status behind it. *)

From S2P Require Import Prelude Budget BudgetGraph BudgetSound.

#[export] Instance insn_eq_dec : EqDecision insn.
Proof. solve_decision. Defined.

(** ** Repetition in runs *)

Lemma not_NoDup_split (l : list insn) : ~ NoDup l ->
  exists l1 i l2 l3, l = l1 ++ i :: l2 ++ i :: l3.
Proof.
  induction l as [|x l IH]; intros H; [destruct H; constructor|].
  destruct (decide (x ∈ l)) as [Hx|Hx].
  - apply list_elem_of_split in Hx as (l2 & l3 & ->). by exists [], x, l2, l3.
  - destruct IH as (l1 & i & l2 & l3 & ->).
    + intros Hn. apply H. by constructor.
    + by exists (x :: l1), i, l2, l3.
Qed.

Lemma run_app_inv insns l i r : run insns (l ++ i :: r) ->
  run insns (i :: r) /\ run insns (l ++ [i]).
Proof.
  induction l as [|x l IH]; simpl; intros H.
  - split; [done|]. inversion H; by constructor.
  - destruct l as [|y l]; simpl in *.
    + inversion H as [|? ? ? Hi Hn Hr]; subst. destruct (IH Hr). split; [done|by constructor].
    + inversion H as [|? ? ? Hi Hn Hr]; subst. destruct (IH Hr). split; [done|by constructor].
Qed.

Lemma run_glue insns l i r :
  run insns (l ++ [i]) -> run insns (i :: r) -> run insns (l ++ i :: r).
Proof.
  induction l as [|x l IH]; simpl; intros Hl Hr; [done|].
  destruct l as [|y l]; simpl in *.
  - inversion Hl as [|? ? ? Hx Hn Hl']; subst. by constructor.
  - inversion Hl as [|? ? ? Hx Hn Hl']; subst. constructor; auto.
Qed.

Lemma run_cost_length r : Z.of_nat (length r) <= run_cost r.
Proof.
  unfold run_cost. induction r as [|i r IH]; [by vm_compute|].
  rewrite block_cost_cons. cbn [length].
  assert (1 <= CYCLES (i_cls i)) by (destruct (i_cls i); simpl; lia). lia.
Qed.

(** A run that meets [i] twice extends to one that meets it [n] more times. *)
Lemma run_pump insns i l : run insns (i :: l ++ [i]) -> forall n : nat,
  exists r, run insns (i :: r) /\ (n <= length r)%nat.
Proof.
  intros H n. induction n as [|n (r & Hr & Hn)].
  - exists (l ++ [i]). split; [done|lia].
  - exists (l ++ i :: r). split.
    + apply (run_glue insns (i :: l) i r); done.
    + rewrite length_app. simpl. lia.
Qed.

Lemma head_app {A} (l1 l2 : list A) x : head (l1 ++ x :: l2) = head (l1 ++ [x]).
Proof. by destruct l1. Qed.

Lemma repeat_unbounded insns r : entry_run insns r -> ~ NoDup r -> forall n : nat,
  exists r', entry_run insns r' /\ (n <= length r')%nat.
Proof.
  intros [Hr Hh] Hn n. apply not_NoDup_split in Hn as (l1 & i & l2 & l3 & ->).
  destruct (run_app_inv _ _ _ _ Hr) as [Hmid Hpre].
  destruct (run_app_inv insns (i :: l2) i l3 Hmid) as [_ Hloop].
  destruct (run_pump insns i l2 Hloop n) as (r & Hri & Hlen).
  exists (l1 ++ i :: r). split.
  - split; [by apply run_glue|]. rewrite <- Hh, (head_app l1 r). symmetry. apply head_app.
  - rewrite length_app. simpl. lia.
Qed.

(** ** Repetition in block paths *)

Lemma cycle_path succ n : forall x, on_cycle succ x ->
  exists p, path succ x p /\ (n < length p)%nat.
Proof.
  induction n as [|n IH]; intros x (y & He & Hr).
  - exists [x]. split; [constructor|simpl; lia].
  - assert (on_cycle succ y) as Hy.
    { destruct (rtc_inv _ _ Hr) as [->|(z & Hyz & Hzx)].
      - by exists x.
      - exists z. split; [done|]. by eapply rtc_r. }
    destruct (IH y Hy) as (p & Hp & Hl). exists (x :: p).
    split; [by econstructor|simpl; lia].
Qed.

Lemma reach_path succ b x p : rtc (edge succ) b x -> path succ x p ->
  exists q, path succ b q /\ (length p <= length q)%nat.
Proof.
  induction 1 as [|b c x He _ IH]; intros Hp; [by exists p|].
  destruct (IH Hp) as (q & Hq & Hl). exists (b :: q).
  split; [by econstructor|simpl; lia].
Qed.

(** ** The gate on a decoded program *)

(** What the two searches establish of the program that starts at [j]. *)
Lemma searches `{RecursionLimit} j t insns pc0 : linked pc0 insns -> insns = j :: t ->
  let '(blocks, edges) := build_cfg insns in
  match back_edges blocks edges with
  | None => (dfs_calls < length blocks)%nat
  | Some found =>
      (found <> [] -> forall n : nat, exists r, entry_run insns r /\ (n <= length r)%nat) /\
      (found = [] -> match longest_path blocks edges with
       | None => (best_calls < length blocks)%nat
       | Some c => (forall r, entry_run insns r -> run_cost r <= c) /\
                   exists r, entry_run insns r /\ run_cost r = c
       end)
  end.
Proof.
  intros Hlink E. rewrite (surjective_pairing (build_cfg insns)).
  pose proof (back_edges_spec insns pc0 Hlink j t E) as Hbe.
  destruct (back_edges _ _) as [found|]; [|done]. destruct Hbe as [Hacc Hcyc].
  destruct (root_entry insns pc0 Hlink j t E) as [_ Hlead].
  assert (forall p, path (get_list (build_cfg insns).2) (i_pc j) p ->
    exists r, entry_run insns (j :: r) /\
      run_cost (j :: r) = pcost (fun b => block_cost (get_list (build_cfg insns).1 b)) p /\
      (p <> [i_pc j] -> (length p <= length (j :: r))%nat)) as Hrun.
  { intros p Hp. destruct (path_run insns pc0 Hlink (i_pc j) p Hp Hlead)
      as (j' & r & Hr & Hpc & Hc & _ & Hl).
    assert (j' = j) as ->.
    { eapply linked_inj; [exact Hlink| | |done].
      - eapply run_in; [exact Hlink|exact Hr|set_solver].
      - rewrite E. set_solver. }
    exists r. split_and!; [|done|done]. split; [done|]. by rewrite E. }
  split.
  - intros Hne n. destruct (Hcyc Hne) as (x & Hrx & Hx).
    destruct (cycle_path _ (S n) x Hx) as (p & Hp & Hpl).
    destruct (reach_path _ _ _ _ Hrx Hp) as (q & Hq & Hql).
    destruct (Hrun q Hq) as (r & Hr & _ & Hl). exists (j :: r). split; [done|].
    assert (q <> [i_pc j]) as Hq1 by (intros ->; simpl in *; lia).
    specialize (Hl Hq1). lia.
  - intros ->. specialize (Hacc eq_refl).
    pose proof (longest_path_spec insns pc0 Hlink j t E Hacc) as Hlp.
    destruct (longest_path _ _) as [c|]; [|done]. destruct Hlp as (Hmax & p & Hp & Hpc).
    split.
    + intros r [Hr Hh]. rewrite E in Hh. destruct r as [|i r]; [done|]. injection Hh as ->.
      apply list_elem_of_lookup in Hlead as [k Hk].
      destruct (body_head insns pc0 Hlink k j Hk) as [post Hb]; [rewrite E; set_solver|].
      destruct (run_path insns pc0 Hlink r j k (i_pc j) [] post Hr Hk Hb) as (q & Hq & Hcost).
      specialize (Hmax _ Hq). rewrite pcost_cons in Hmax.
      rewrite (cost_at insns k _ Hk), Hb in Hmax. lia.
    + destruct (Hrun p Hp) as (r & Hr & Hcost & _). exists (j :: r). split; [done|]. lia.
Qed.

(** The three outcomes of the gate, each with what it says of the runs. *)
Inductive outcome (insns : list insn) (budget : Z) : verdict -> option Z -> Prop :=
| outcome_loop :
    (forall n : nat, exists r, entry_run insns r /\ (n <= length r)%nat) ->
    outcome insns budget RefuseV None
| outcome_priced c :
    (forall r, entry_run insns r -> run_cost r <= c) ->
    (insns = [] /\ c = 0 \/ exists r, entry_run insns r /\ run_cost r = c) ->
    outcome insns budget (if c <=? budget then OkV else RejectV) (Some c).

(** The blocks of the program nest deeper than the calls that fit. *)
Definition too_deep `{RecursionLimit} (insns : list insn) : Prop :=
  (Nat.min dfs_calls best_calls < length (build_cfg insns).1)%nat.

Lemma gate_text_outcome `{RecursionLimit} text budget :
  match gate_text text budget with
  | Ok row => g_insns row = len (decode text) /\
      outcome (decode text) budget (g_verdict row) (g_cycles row)
  | Err e => e = RecursionError /\ too_deep (decode text)
  end.
Proof.
  unfold gate_text, too_deep. pose proof (decode_linked (length text) 0 text) as Hl.
  fold (decode text) in Hl.
  destruct (decode text) as [|j t] eqn:E.
  - split; [done|]. apply (outcome_priced [] budget 0).
    + intros r [_ Hh]. destruct r; [by vm_compute|done].
    + by left.
  - pose proof (searches j t (j :: t) 0 Hl eq_refl) as Hs.
    destruct (build_cfg (j :: t)) as [blocks edges]. cbn [fst].
    destruct (back_edges blocks edges) as [found|]; [|split; [done|lia]].
    destruct Hs as [Hc Hp]. destruct found as [|f found].
    + specialize (Hp eq_refl). destruct (longest_path blocks edges) as [c|]; [|split; [done|lia]].
      destruct Hp as [Hmax Hex]. split; [done|]. constructor; [done|by right].
    + split; [done|]. constructor. by apply Hc.
Qed.

(** ** The gate's claims *)

(** C1: on every byte string, and whatever the recursion limit, the gate either
    gives a verdict or ends in RecursionError, and the latter only when the
    program has more blocks than calls of the searches nest.  The verdict REFUSE
    is given exactly to the programs that have a run from the entry which
    executes some instruction twice. *)
Theorem gate_refuses_loops `{RecursionLimit} text budget :
  match gate_text text budget with
  | Ok row => g_verdict row = RefuseV <-> exists r, entry_run (decode text) r /\ ~ NoDup r
  | Err e => e = RecursionError /\
      (Nat.min dfs_calls best_calls < length (build_cfg (decode text)).1)%nat
  end.
Proof.
  pose proof (gate_text_outcome text budget) as Ho.
  destruct (gate_text text budget) as [row|]; [|done]. destruct Ho as [_ Ho].
  inversion Ho as [Hlong Hv|c Hmax Hex Hv].
  - split; [|done]. intros _.
    destruct (Hlong (S (length (decode text)))) as (r & Hr & Hl).
    exists r. split; [done|]. intros Hn.
    enough (length r <= length (decode text))%nat by lia.
    apply submseteq_length, NoDup_submseteq; [done|]. intros i Hi.
    destruct Hr as [Hr _]. eapply run_in; [apply decode_linked|exact Hr|done].
  - split; [by destruct (c <=? budget)|]. intros (r & Hr & Hn). exfalso.
    destruct (repeat_unbounded _ _ Hr Hn (S (Z.to_nat c))) as (r' & Hr' & Hl).
    specialize (Hmax r' Hr'). pose proof (run_cost_length r'). lia.
Qed.

(** C2: the cycles the gate reports are the exact maximum of the cost of a run
    from the entry, and the verdict is [ok] exactly when that maximum is within
    the budget. *)
Theorem gate_cycles_exact `{RecursionLimit} text budget row c :
  gate_text text budget = Ok row -> g_cycles row = Some c ->
  (forall r, entry_run (decode text) r -> run_cost r <= c) /\
  (decode text = [] /\ c = 0 \/ exists r, entry_run (decode text) r /\ run_cost r = c) /\
  (g_verdict row = OkV <-> c <= budget).
Proof.
  intros Hg Hc. pose proof (gate_text_outcome text budget) as Ho.
  rewrite Hg in Ho. destruct Ho as [_ Ho]. rewrite Hc in Ho.
  inversion Ho as [|? Hmax Hex Hv]; subst. split_and!; [done..|].
  destruct (Z.leb_spec c budget); split; done || lia.
Qed.

Definition diamond : bytes :=
  concat [[0x15;0;1;0;0;0;0;0]; [0xb7;0;0;0;1;0;0;0]; [0xb7;0;0;0;2;0;0;0]; [0x95;0;0;0;0;0;0;0]].

Lemma gate_cycles_exact_witness :
  @gate_text (Calls 2 2) diamond 800 = Ok (GateRow OkV 4 3 (Some 5)) /\
  (forall r, entry_run (decode diamond) r -> run_cost r <= 5).
Proof.
  assert (@gate_text (Calls 2 2) diamond 800 = Ok (GateRow OkV 4 3 (Some 5))) as H by by vm_compute.
  split; [exact H|]. exact (proj1 (@gate_cycles_exact (Calls 2 2) _ _ _ 5 H eq_refl)).
Defined.

(** The diamond needs two nested calls. *)
Example diamond_too_deep : @gate_text (Calls 1 1) diamond 800 = Err RecursionError.
Proof. by vm_compute. Qed.

(** The verdict [ok], in terms of runs and of an answer within the limit. *)
Lemma gate_text_ok `{RecursionLimit} text budget :
  (exists row, gate_text text budget = Ok row /\ g_verdict row = OkV) <->
  (forall r, entry_run (decode text) r -> run_cost r <= budget) /\
  (decode text = [] -> 0 <= budget) /\ gate_text text budget <> Err RecursionError.
Proof.
  pose proof (gate_text_outcome text budget) as Ho.
  destruct (gate_text text budget) as [row|e]; [|naive_solver]. destruct Ho as [_ Ho].
  transitivity (g_verdict row = OkV); [naive_solver|].
  inversion Ho as [Hlong Hv|c Hmax Hex Hv].
  - split; [done|]. intros [Hb _]. exfalso.
    destruct (Hlong (S (Z.to_nat budget))) as (r & Hr & Hl).
    specialize (Hb r Hr). pose proof (run_cost_length r). lia.
  - destruct (Z.leb_spec c budget) as [Hle|Hgt].
    + split; [|done]. intros _. split; [intros r Hr; specialize (Hmax r Hr); lia|split; [|done]].
      destruct Hex as [[_ ->]|(r & [Hr Hh] & _)]; [lia|].
      intros E. rewrite E in Hh. by inversion Hr; subst.
    + split; [done|]. intros (Hb & Hb0 & _). exfalso. destruct Hex as [[E ->]|(r & Hr & <-)].
      * specialize (Hb0 E). lia.
      * specialize (Hb r Hr). lia.
Qed.

Lemma gate_files_fold `{RecursionLimit} (read : string -> result bytes) budget section files rc :
  fold_left (fun rc p =>
    match (let? blob := read p in gate blob budget section) with
    | Ok r => if decide (g_verdict r = OkV) then rc else 1
    | Err _ => 1
    end) files rc = 0 <->
  rc = 0 /\ forall p, p ∈ files -> exists blob text row,
    read p = Ok blob /\ elf_section_bytes blob section = Ok text /\
    gate_text text budget = Ok row /\ g_verdict row = OkV.
Proof.
  revert rc. induction files as [|p files IH]; intros rc; simpl; [set_solver|].
  rewrite IH. setoid_rewrite elem_of_cons.
  split.
  - intros [Hrc Hall]. revert Hrc. unfold gate.
    destruct (read p) as [blob|] eqn:Hp; [|lia].
    destruct (elf_section_bytes blob section) as [text|] eqn:Ht; [|lia].
    destruct (gate_text text budget) as [row|] eqn:Hr; [|lia].
    case_decide; [|lia]. intros ->. split; [done|]. intros q [->|Hq]; [|auto].
    by exists blob, text, row.
  - intros [-> Hall]. split; [|auto].
    destruct (Hall p (or_introl eq_refl)) as (blob & text & row & Hp & Ht & Hr & Hv).
    unfold gate. by rewrite Hp, Ht, Hr, decide_True.
Qed.

(** The exit status of [main] on object files is 0 exactly when every file
    could be read, its program section selected, the searches kept within the
    recursion limit, and every run of that program costs at most the budget (a
    program with no instruction costs nothing). *)
Theorem main_fail_closed `{RecursionLimit} read budget section files :
  gate_files read budget section files = 0 <->
  forall p, p ∈ files -> exists blob text,
    read p = Ok blob /\ elf_section_bytes blob section = Ok text /\
    (forall r, entry_run (decode text) r -> run_cost r <= budget) /\
    (decode text = [] -> 0 <= budget) /\ gate_text text budget <> Err RecursionError.
Proof.
  unfold gate_files. rewrite gate_files_fold. setoid_rewrite <- gate_text_ok. naive_solver.
Qed.
