(* ===== verification/BudgetElf.v ===== *)
(** * The program section and the decoder (substrate/budget_pass.py)

    The ELF reader in front of the cost gate: what it returns on an object the
    self-test's builder produces, what it guarantees of a section it selects,
    and the case in which it returns bytes that are not the section.  The
    decoder against the self-test's assembler. *)

From S2P Require Import Prelude Budget BudgetGraph BudgetSound.

(** ** Reading a field out of the middle of a file *)

Lemma unpack_le_mid n pre v post off : length v = n -> off = len pre ->
  len pre <= SSIZE_MAX -> unpack_le n (pre ++ v ++ post) off = Ok (le_int v).
Proof.
  intros <- -> Hs. unfold unpack_le.
  destruct (Z.ltb_spec SSIZE_MAX (len pre)); [lia|].
  rewrite !len_app. pose proof (len_nonneg post).
  change (Z.of_nat (length v)) with (len v).
  destruct (Z.leb_spec (len pre + len v) (len pre + (len v + len post))); [|lia].
  by rewrite slice_mid.
Qed.

Lemma find_from_mid nm post i : 0 ∉ nm ->
  find_from [0] (nm ++ 0 :: post) i = i + len nm.
Proof.
  revert i. induction nm as [|x nm IH]; intros i Hn; cbn [find_from is_prefix app].
  - by rewrite Z.add_0_r.
  - destruct (Z.eqb_spec 0 x) as [<-|]; [set_solver|]. cbn [andb].
    rewrite IH by set_solver. rewrite len_cons. lia.
Qed.

Lemma section_name_mid pre nm post stroff name : 0 ∉ nm -> stroff + name = len pre ->
  section_name (pre ++ nm ++ 0 :: post) stroff name = Ok nm.
Proof.
  intros Hn Hoff. unfold section_name, index_nul, py_find. rewrite Hoff.
  rewrite !len_app. pose proof (len_nonneg pre). pose proof (len_nonneg nm).
  pose proof (len_nonneg (0 :: post)).
  destruct (Z.ltb_spec (len pre + (len nm + len (0 :: post))) (len pre)); [lia|].
  rewrite zdrop_len.
  rewrite find_from_mid by done.
  destruct (Z.ltb_spec (len pre + len nm) 0); [lia|]. by rewrite slice_mid.
Qed.

Lemma read_shdr_mid pre a b c d e f post shoff entsz i :
  shoff + i * entsz = len pre -> len pre + 40 <= SSIZE_MAX ->
  length a = 4%nat -> length b = 4%nat -> length c = 8%nat -> length d = 8%nat ->
  length e = 8%nat -> length f = 8%nat ->
  read_shdr (pre ++ (a ++ b ++ c ++ d ++ e ++ f) ++ post) shoff entsz i =
  Ok (Shdr (le_int a) (le_int b) (le_int c) (le_int e) (le_int f)).
Proof.
  intros Hoff Hs Ha Hb Hc Hd He Hf. unfold read_shdr. cbv zeta. rewrite Hoff.
  destruct (Z.ltb_spec SSIZE_MAX (len pre)); [lia|].
  assert (len (a ++ b ++ c ++ d ++ e ++ f) = 40) as H40
    by (unfold len; rewrite !length_app; lia).
  rewrite !(len_app pre), (len_app (a ++ _)), H40. pose proof (len_nonneg post).
  destruct (Z.ltb_spec (len pre + (40 + len post)) (len pre + 40)); [lia|].
  set (blob := pre ++ (a ++ b ++ c ++ d ++ e ++ f) ++ post).
  assert (forall k p v q n, blob = p ++ v ++ q -> len p = len pre + k -> 0 <= k <= 40 ->
    length v = n -> unpack_le n blob (len pre + k) = Ok (le_int v)) as Hget.
  { intros k p v q n -> Hp Hk Hv. apply unpack_le_mid; [done|lia|lia]. }
  rewrite <- (Z.add_0_r (len pre)) at 1.
  rewrite (Hget 0 pre a (b ++ c ++ d ++ e ++ f ++ post)),
    (Hget 4 (pre ++ a) b (c ++ d ++ e ++ f ++ post)),
    (Hget 8 (pre ++ a ++ b) c (d ++ e ++ f ++ post)),
    (Hget 24 (pre ++ a ++ b ++ c ++ d) e (f ++ post)),
    (Hget 32 (pre ++ a ++ b ++ c ++ d ++ e) f post);
    first [done | lia | by unfold blob; rewrite <- !app_assoc
          | rewrite !len_app; unfold len; lia].
Qed.

(** ** The object the self-test builds *)

Definition elf_head : bytes :=
  [0x7f; 0x45; 0x4c; 0x46; 2; 1; 1; 0; 0; 0; 0; 0; 0; 0; 0; 0; 1; 0; 247; 0; 1; 0; 0; 0;
   0; 0; 0; 0; 0; 0; 0; 0; 0; 0; 0; 0; 0; 0; 0; 0].
Definition elf_tail : bytes := [0; 0; 0; 0; 64; 0; 0; 0; 0; 0; 64; 0; 3; 0; 2; 0].

Definition shdr_bytes (name typ flags off size : Z) : bytes :=
  (le_bytes 4 name ++ le_bytes 4 typ ++ le_bytes 8 flags ++ le_bytes 8 0 ++
   le_bytes 8 off ++ le_bytes 8 size) ++ replicate 24 0.

Lemma _elf_shdr_eq name typ off size flags :
  0 <= name < 2 ^ 32 -> 0 <= typ < 2 ^ 32 -> 0 <= off < 2 ^ 64 -> 0 <= size < 2 ^ 64 ->
  0 <= flags < 2 ^ 64 ->
  _elf_shdr name typ off size flags = Ok (shdr_bytes name typ flags off size).
Proof. intros. unfold _elf_shdr. rewrite !pack_le_small by lia. reflexivity. Qed.

Lemma _elf_eq text : len text <= 2 ^ 62 ->
  _elf text = Ok (elf_head ++ le_bytes 8 (81 + len text) ++ elf_tail ++ text ++ _elf_shstr ++
    shdr_bytes 0 0 0 0 0 ++ shdr_bytes 1 1 0x6 64 (len text) ++
    shdr_bytes 8 3 0 (64 + len text) 17).
Proof.
  intros H. pose proof (len_nonneg text). unfold _elf. cbv zeta.
  change (len _elf_shstr) with 17. replace (64 + len text + 17) with (81 + len text) by lia.
  unfold pack_into. rewrite !pack_le_small by lia. rewrite !_elf_shdr_eq by lia.
  generalize (81 + len text); intros so. f_equal.
Qed.

Lemma read_shdr_built pre name typ flags off size post shoff entsz i :
  shoff + i * entsz = len pre -> len pre + 40 <= SSIZE_MAX ->
  0 <= name < 2 ^ 32 -> 0 <= typ < 2 ^ 32 -> 0 <= flags < 2 ^ 64 -> 0 <= off < 2 ^ 64 ->
  0 <= size < 2 ^ 64 ->
  read_shdr (pre ++ shdr_bytes name typ flags off size ++ post) shoff entsz i =
  Ok (Shdr name typ flags off size).
Proof.
  intros. unfold shdr_bytes. rewrite <- (app_assoc _ (replicate 24 0) post).
  rewrite read_shdr_mid by (done || apply length_le_bytes).
  by rewrite !le_int_bytes_small by (rewrite <- pow2_8; lia).
Qed.

Section built.
Variable text : bytes.
Hypothesis text_ne : text <> [].
Hypothesis text_len : len text <= 2 ^ 62.

Let so := 81 + len text.
Let front := elf_head ++ le_bytes 8 so ++ elf_tail ++ text.
Let blob := elf_head ++ le_bytes 8 so ++ elf_tail ++ text ++ _elf_shstr ++
    shdr_bytes 0 0 0 0 0 ++ shdr_bytes 1 1 0x6 64 (len text) ++
    shdr_bytes 8 3 0 (64 + len text) 17.

Lemma text_pos : 0 < len text.
Proof. destruct text as [|b t]; [done|]. rewrite len_cons. pose proof (len_nonneg t). lia. Qed.

Lemma len_front : len front = 64 + len text.
Proof. unfold front. rewrite !len_app. change (len elf_head) with 40.
  change (len elf_tail) with 16. unfold len at 1. rewrite length_le_bytes. lia. Qed.

(** The fields of the file header. *)
Lemma built_header :
  unpack_le 8 blob 0x28 = Ok so /\ unpack_le 2 blob 0x3A = Ok 64 /\
  unpack_le 2 blob 0x3C = Ok 3 /\ unpack_le 2 blob 0x3E = Ok 2.
Proof.
  pose proof text_pos. set (rest := text ++ _elf_shstr ++
    shdr_bytes 0 0 0 0 0 ++ shdr_bytes 1 1 0x6 64 (len text) ++
    shdr_bytes 8 3 0 (64 + len text) 17).
  assert (forall k p v, elf_head ++ le_bytes 8 so ++ elf_tail = p ++ v ++ k ->
    length v = 2%nat \/ length v = 8%nat -> len p <= 64 ->
    unpack_le (length v) blob (len p) = Ok (le_int v)) as Hget.
  { intros k p v Hk Hv Hp. replace blob with (p ++ v ++ k ++ rest).
    - apply unpack_le_mid; [done..|]. unfold SSIZE_MAX. lia.
    - transitivity ((elf_head ++ le_bytes 8 so ++ elf_tail) ++ rest);
        [rewrite Hk|unfold blob, rest]; by rewrite <- !app_assoc. }
  assert (len (le_bytes 8 so) = 8) as H8 by done.
  pose proof (Hget elf_tail elf_head (le_bytes 8 so) eq_refl (or_intror eq_refl)) as G1.
  rewrite le_int_bytes_small in G1 by (unfold so; lia).
  split_and!.
  - apply G1. by vm_compute.
  - apply (Hget [3; 0; 2; 0] (elf_head ++ le_bytes 8 so ++ take 10 elf_tail) [64; 0]);
      [done|by left|done].
  - apply (Hget [2; 0] (elf_head ++ le_bytes 8 so ++ take 12 elf_tail) [3; 0]);
      [done|by left|done].
  - apply (Hget [] (elf_head ++ le_bytes 8 so ++ take 14 elf_tail) [2; 0]);
      [done|by left|done].
Qed.

(** The three section headers and their names. *)
Lemma built_shdrs :
  read_shdr blob so 64 0 = Ok (Shdr 0 0 0 0 0) /\
  read_shdr blob so 64 1 = Ok (Shdr 1 1 0x6 64 (len text)) /\
  read_shdr blob so 64 2 = Ok (Shdr 8 3 0 (64 + len text) 17).
Proof.
  pose proof text_pos. pose proof len_front as Hf.
  assert (len (front ++ _elf_shstr) = so) as Hs
    by (rewrite len_app, Hf; change (len _elf_shstr) with 17; unfold so; lia).
  split_and!.
  - replace blob with ((front ++ _elf_shstr) ++ shdr_bytes 0 0 0 0 0 ++
      shdr_bytes 1 1 0x6 64 (len text) ++ shdr_bytes 8 3 0 (64 + len text) 17)
      by (unfold blob, front; by rewrite <- !app_assoc).
    apply read_shdr_built; rewrite ?Hs; unfold so, SSIZE_MAX; lia.
  - replace blob with ((front ++ _elf_shstr ++ shdr_bytes 0 0 0 0 0) ++
      shdr_bytes 1 1 0x6 64 (len text) ++ shdr_bytes 8 3 0 (64 + len text) 17)
      by (unfold blob, front; by rewrite <- !app_assoc).
    apply read_shdr_built; rewrite ?app_assoc, ?(len_app (front ++ _)), ?Hs;
      change (len (shdr_bytes 0 0 0 0 0)) with 64; unfold so, SSIZE_MAX; lia.
  - replace blob with ((front ++ _elf_shstr ++ shdr_bytes 0 0 0 0 0 ++
      shdr_bytes 1 1 0x6 64 (len text)) ++ shdr_bytes 8 3 0 (64 + len text) 17 ++ [])
      by (unfold blob, front; rewrite app_nil_r; by rewrite <- !app_assoc).
    apply read_shdr_built; rewrite ?(app_assoc front), ?(len_app (front ++ _)), ?Hs, ?len_app;
      change (len (shdr_bytes 0 0 0 0 0)) with 64;
      change (len (shdr_bytes 1 1 0x6 64 (len text))) with 64; unfold so, SSIZE_MAX; lia.
Qed.

Lemma built_names :
  section_name blob (64 + len text) 0 = Ok [] /\
  section_name blob (64 + len text) 1 = Ok (encode ".text") /\
  section_name blob (64 + len text) 8 = Ok (encode "shstrtab").
Proof.
  pose proof len_front as Hf.
  set (tl := shdr_bytes 0 0 0 0 0 ++ shdr_bytes 1 1 0x6 64 (len text) ++
             shdr_bytes 8 3 0 (64 + len text) 17).
  assert (forall p nm k name, _elf_shstr = p ++ nm ++ 0 :: k -> 0 ∉ nm -> name = len p ->
    section_name blob (64 + len text) name = Ok nm) as Hget.
  { intros p nm k name Hk Hn ->.
    replace blob with ((front ++ p) ++ nm ++ 0 :: k ++ tl).
    - apply section_name_mid; [done|]. rewrite len_app, Hf. done.
    - transitivity (front ++ _elf_shstr ++ tl);
        [rewrite Hk|unfold blob, front]; by rewrite <- ?app_assoc. }
  split_and!.
  - apply (Hget [] [] (encode ".text" ++ [0] ++ encode ".shstrtab" ++ [0])); [done|set_solver|done].
  - apply (Hget [0] (encode ".text") (encode ".shstrtab" ++ [0])); [done| |done].
    apply (bool_decide_eq_true_1 _). by vm_compute.
  - apply (Hget ([0] ++ encode ".text" ++ [0] ++ encode ".") (encode "shstrtab") []); [done| |done].
    apply (bool_decide_eq_true_1 _). by vm_compute.
Qed.

Lemma built_section : elf_section_bytes blob None = Ok text.
Proof.
  pose proof text_pos as Hp. pose proof text_len.
  destruct built_header as (H1 & H2 & H3 & H4). destruct built_shdrs as (S0 & S1 & S2).
  destruct built_names as (N0 & N1 & N2).
  unfold elf_section_bytes.
  change (bytes_eqb (slice 0 4 blob) [127; 69; 76; 70]) with true.
  change (at_index blob 4) with (Ok 2). change (at_index blob 5) with (Ok 1).
  cbn [negb Z.eqb Pos.eqb]. rewrite H1, H2, H3, H4, S2. cbn [sh_offset].
  change (indices 3) with [0; 1; 2]. cbn [exec_progbits].
  rewrite S0, S1, S2. cbn [sh_name sh_type sh_flags sh_offset sh_size].
  rewrite N0, N1, N2.
  cbn [Z.eqb Pos.eqb andb Z.land Pos.land Pos.Ndouble Pos.Nsucc_double Z.of_N negb].
  destruct (Z.eqb_spec (len text) 0); [lia|]. cbn [negb]. f_equal.
  replace 64 with (len (elf_head ++ le_bytes 8 so ++ elf_tail)) by done.
  replace blob with ((elf_head ++ le_bytes 8 so ++ elf_tail) ++ text ++ _elf_shstr ++
    shdr_bytes 0 0 0 0 0 ++ shdr_bytes 1 1 0x6 64 (len text) ++
    shdr_bytes 8 3 0 (64 + len text) 17) by (unfold blob; by rewrite <- !app_assoc).
  apply slice_mid.
Qed.
End built.

(** Reading back what the builder wrote: for every non-empty payload the
    automatic section search of the reader finds exactly that payload in the
    object [_elf] builds around it. *)
Theorem elf_roundtrip text : text <> [] -> len text <= 2 ^ 62 ->
  exists blob, _elf text = Ok blob /\ elf_section_bytes blob None = Ok text.
Proof.
  intros Hne Hlen. eexists. split; [by apply _elf_eq|]. by apply built_section.
Qed.

Lemma elf_roundtrip_witness : exists blob,
  _elf [0x95; 0; 0; 0; 0; 0; 0; 0] = Ok blob /\
  elf_section_bytes blob None = Ok [0x95; 0; 0; 0; 0; 0; 0; 0].
Proof. apply elf_roundtrip; [discriminate|by vm_compute]. Defined.

(** ** What a selected section is *)

Definition exec_candidate (h : shdr) : Prop :=
  sh_type h = 1 /\ Z.land (sh_flags h) 0x4 <> 0 /\ sh_size h <> 0.

Lemma exec_progbits_elem blob shoff entsz stroff idx out :
  exec_progbits blob shoff entsz stroff idx = Ok out -> forall nm off size,
  (nm, off, size) ∈ out <-> exists i h, i ∈ idx /\ read_shdr blob shoff entsz i = Ok h /\
    section_name blob stroff (sh_name h) = Ok nm /\ exec_candidate h /\
    sh_offset h = off /\ sh_size h = size.
Proof.
  revert out. induction idx as [|i idx IH]; intros out H nm off size; simpl in H.
  - simplify_eq. set_solver.
  - destruct (read_shdr blob shoff entsz i) as [h|] eqn:Hh; [|done].
    destruct (section_name blob stroff (sh_name h)) as [n|] eqn:Hn; [|done].
    destruct (exec_progbits blob shoff entsz stroff idx) as [o|] eqn:Ho; [|done].
    specialize (IH o eq_refl nm off size).
    assert (exec_candidate h <-> (sh_type h =? 1) && negb (Z.land (sh_flags h) 0x4 =? 0)
      && negb (sh_size h =? 0) = true) as Hc by (unfold exec_candidate; lia).
    assert ((nm, off, size) ∈ out <->
      exec_candidate h /\ (nm, off, size) = (n, sh_offset h, sh_size h) \/
      (nm, off, size) ∈ o) as ->.
    { rewrite Hc. destruct ((sh_type h =? 1) && _ && _); simplify_eq;
        rewrite ?elem_of_cons; naive_solver. }
    rewrite IH. split.
    + intros [[He [= -> -> ->]]|(k & hk & ? & ?)]; [exists i, h|exists k, hk]; set_solver.
    + intros (k & hk & Hk & Hr & Hnm & He & <- & <-).
      apply elem_of_cons in Hk as [->|Hk]; [left|right; exists k, hk; done].
      rewrite Hh in Hr. injection Hr as <-. rewrite Hn in Hnm. by injection Hnm as <-.
Qed.

Lemma exec_progbits_name blob shoff entsz stroff idx out i h :
  exec_progbits blob shoff entsz stroff idx = Ok out -> i ∈ idx ->
  read_shdr blob shoff entsz i = Ok h ->
  exists nm, section_name blob stroff (sh_name h) = Ok nm.
Proof.
  revert out. induction idx as [|k idx IH]; intros out H Hi Hh; simpl in H; [set_solver|].
  apply elem_of_cons in Hi as [->|Hi].
  - rewrite Hh in H. destruct (section_name _ _ _); [eauto|done].
  - destruct (read_shdr blob shoff entsz k) as [hk|]; [|done].
    destruct (section_name blob stroff (sh_name hk)); [|done].
    destruct (exec_progbits blob shoff entsz stroff idx) as [o|]; [|done]. by eapply IH.
Qed.

Lemma named_section_ok blob shoff entsz stroff want idx text :
  named_section blob shoff entsz stroff want idx = Ok text ->
  exists i h, i ∈ idx /\ read_shdr blob shoff entsz i = Ok h /\
    section_name blob stroff (sh_name h) = Ok want /\ sh_size h <> 0 /\
    text = slice (sh_offset h) (sh_offset h + sh_size h) blob.
Proof.
  induction idx as [|i idx IH]; intros H; simpl in H; [done|].
  destruct (read_shdr blob shoff entsz i) as [h|] eqn:Hh; [|done].
  destruct (section_name blob stroff (sh_name h)) as [n|] eqn:Hn; [|done].
  destruct (bytes_eqb n want) eqn:E.
  - bool_prop. subst. destruct (Z.eqb_spec (sh_size h) 0); [done|]. simplify_eq.
    exists i, h. set_solver.
  - destruct (IH H) as (k & hk & ? & ?). exists k, hk. set_solver.
Qed.

(** The header table of an object the reader accepts. *)
Record layout := Layout { l_shoff : Z; l_entsz : Z; l_num : Z; l_stroff : Z }.

Definition elf_layout (blob : bytes) (l : layout) : Prop :=
  unpack_le 8 blob 0x28 = Ok (l_shoff l) /\ unpack_le 2 blob 0x3A = Ok (l_entsz l) /\
  unpack_le 2 blob 0x3C = Ok (l_num l) /\
  exists i h, unpack_le 2 blob 0x3E = Ok i /\
    read_shdr blob (l_shoff l) (l_entsz l) i = Ok h /\ sh_offset h = l_stroff l.

(** Header [h] is number [i] of the table. *)
Definition has_shdr (blob : bytes) (l : layout) (i : Z) (h : shdr) : Prop :=
  i ∈ indices (l_num l) /\ read_shdr blob (l_shoff l) (l_entsz l) i = Ok h.

(** A section the reader returns is the file range of one non-empty header;
    with a name it is a header of that name, without one it is executable
    PROGBITS and every executable non-empty PROGBITS header of the object has
    that same range.  When the range lies in the file the bytes returned are
    the whole section, so there is at least one of them. *)
Theorem elf_section_sound blob want text :
  elf_section_bytes blob want = Ok text ->
  exists l i h, elf_layout blob l /\ has_shdr blob l i h /\
    text = slice (sh_offset h) (sh_offset h + sh_size h) blob /\ sh_size h <> 0 /\
    (forall w, want = Some w -> section_name blob (l_stroff l) (sh_name h) = Ok w) /\
    (want = None -> exec_candidate h /\ forall k hk, has_shdr blob l k hk ->
       exec_candidate hk -> sh_offset hk = sh_offset h /\ sh_size hk = sh_size h) /\
    (0 <= sh_offset h -> 0 <= sh_size h -> sh_offset h + sh_size h <= len blob ->
       len text = sh_size h).
Proof.
  unfold elf_section_bytes. intros H.
  destruct (negb (bytes_eqb _ _)); [done|].
  destruct (at_index blob 4) as [c|]; [|done]. destruct (negb (c =? 2)); [done|].
  destruct (at_index blob 5) as [d|]; [|done]. destruct (negb (d =? 1)); [done|].
  destruct (unpack_le 8 blob 0x28) as [shoff|] eqn:H1; [|done].
  destruct (unpack_le 2 blob 0x3A) as [entsz|] eqn:H2; [|done].
  destruct (unpack_le 2 blob 0x3C) as [num|] eqn:H3; [|done].
  destruct (unpack_le 2 blob 0x3E) as [strndx|] eqn:H4; [|done].
  destruct (read_shdr blob shoff entsz strndx) as [strh|] eqn:H5; [|done].
  assert (elf_layout blob (Layout shoff entsz num (sh_offset strh))) as HL
    by (split_and!; eauto 10).
  exists (Layout shoff entsz num (sh_offset strh)).
  destruct want as [w|].
  - apply named_section_ok in H as (i & h & Hi & Hh & Hn & Hs & ->). exists i, h.
    split_and!; try done.
    + by intros ? [= <-].
    + intros. rewrite length_slice; lia.
  - destruct (exec_progbits _ _ _ _ _) as [cands|] eqn:Hc; [|done].
    pose proof (exec_progbits_elem _ _ _ _ _ _ Hc) as Hel.
    destruct cands as [|[[nm off] size] [|]]; [done| |done]. simplify_eq.
    destruct (proj1 (Hel nm off size)) as (i & h & Hi & Hh & Hn & He & <- & <-); [set_solver|].
    exists i, h. split_and!; try done.
    + by destruct He as (? & ? & ?).
    + intros _. split; [done|]. intros k hk [Hk Hhk] Hek.
      destruct (exec_progbits_name _ _ _ _ _ _ k hk Hc Hk Hhk) as [nk Hnk].
      assert ((nk, sh_offset hk, sh_size hk) ∈ [(nm, sh_offset h, sh_size h)]) as Hin
        by (apply Hel; eauto 10).
      apply list_elem_of_singleton in Hin. by simplify_eq.
    + intros. rewrite length_slice; lia.
Qed.

Definition exit_text : bytes := [0x95; 0; 0; 0; 0; 0; 0; 0].
Definition exit_obj : bytes := match _elf exit_text with Ok b => b | Err _ => [] end.

Lemma elf_section_sound_witness :
  elf_section_bytes exit_obj None = Ok exit_text /\
  exists l i h, elf_layout exit_obj l /\ has_shdr exit_obj l i h /\
    exit_text = slice (sh_offset h) (sh_offset h + sh_size h) exit_obj.
Proof.
  assert (elf_section_bytes exit_obj None = Ok exit_text) as H by by vm_compute.
  split; [exact H|]. destruct (elf_section_sound _ _ _ H) as (l & i & h & ? & ? & ? & _).
  exists l, i, h. split_and!; assumption.
Defined.

(** ** Sections too short to hold an instruction *)

Lemma decode_short text : len text < 8 -> decode text = [].
Proof.
  unfold decode, len. intros H. destruct (length text) as [|n] eqn:E; [done|].
  cbn [decode_from]. rewrite <- E in H. clear E.
  do 8 (destruct text as [|? text]; [done|]). simpl in H. lia.
Qed.

(** The reader refuses an empty section because a program with no
    instructions is not to be priced, but its test is on the size in bytes: an
    object whose program section has between one and seven bytes is read, holds
    no instruction, and is admitted with zero instructions and zero cycles. *)
Theorem gate_admits_no_instructions `{RecursionLimit} text budget :
  0 < len text < 8 -> 0 <= budget ->
  exists blob, _elf text = Ok blob /\ gate blob budget None = Ok (GateRow OkV 0 0 (Some 0)).
Proof.
  intros [H0 H8] Hb. eexists. split; [apply _elf_eq; lia|].
  unfold gate. rewrite built_section; [|intros ->; by vm_compute in H0|lia].
  unfold gate_text, build_cfg. rewrite decode_short by done.
  change (leaders []) with (@nil Z). cbn -[Z.leb].
  by destruct (Z.leb_spec 0 budget); [|lia].
Qed.

Lemma gate_admits_no_instructions_witness : exists blob,
  _elf [0x85] = Ok blob /\ @gate (Calls 3 3) blob 800 None = Ok (GateRow OkV 0 0 (Some 0)).
Proof. apply (@gate_admits_no_instructions (Calls 3 3)); [split; reflexivity|discriminate]. Defined.

(** ** The decoder against the assembler *)

(** One assembled instruction; [Wide] is [lddw] with its second slot. *)
Inductive item :=
| Plain (op dst src off imm : Z)
| Wide (dst src off imm : Z) (hi : Z).

Definition item_ok (it : item) : Prop :=
  match it with Plain op _ _ _ _ => op <> LDDW | Wide _ _ _ _ _ => True end.

Definition item_asm (it : item) : list (result bytes) :=
  match it with
  | Plain op dst src off imm => [_i op dst src off imm]
  | Wide dst src off imm hi => [_i LDDW dst src off imm; _i 0 0 0 0 hi]
  end.

(** The instruction the decoder is to find for an item placed at [pc]. *)
Definition item_insn (pc : Z) (it : item) : insn :=
  match it with
  | Plain op _ _ off imm => Insn pc op (opclass op) off imm false
  | Wide _ _ off imm _ => Insn pc LDDW Ld off imm true
  end.

Fixpoint item_insns (pc : Z) (l : list item) : list insn :=
  match l with
  | [] => []
  | it :: t => item_insn pc it :: item_insns (pc + step_of (i_wide (item_insn pc it))) t
  end.

Lemma signed_le n z : (0 < n)%nat ->
  - 2 ^ (8 * Z.of_nat n - 1) <= z < 2 ^ (8 * Z.of_nat n - 1) ->
  signed n (le_int (le_bytes n z)) = z.
Proof.
  intros Hn Hz. rewrite le_int_bytes, <- pow2_8. unfold signed.
  set (h := 2 ^ (8 * Z.of_nat n - 1)) in *.
  assert (2 ^ (8 * Z.of_nat n) = 2 * h) as ->.
  { unfold h. rewrite <- Z.pow_succ_r by lia. f_equal. lia. }
  assert (0 < h) by (unfold h; apply Z.pow_pos_nonneg; lia).
  destruct (Z.ltb_spec z 0).
  - assert (z mod (2 * h) = z + 2 * h) as ->.
    { symmetry. apply (Z.mod_unique_pos _ _ (-1)); lia. }
    destruct (Z.ltb_spec (z + 2 * h) h); lia.
  - rewrite Z.mod_small by lia. destruct (Z.ltb_spec z h); lia.
Qed.

Lemma pack_le_inv n z b : pack_le n z = Ok b ->
  b = le_bytes n z /\ 0 <= z < 2 ^ (8 * Z.of_nat n).
Proof. unfold pack_le. destruct (_ && _) eqn:E; [|done]. intros [= <-]. split; [done|lia]. Qed.

Lemma pack_sle_inv n z b : pack_sle n z = Ok b ->
  b = le_bytes n z /\ - 2 ^ (8 * Z.of_nat n - 1) <= z < 2 ^ (8 * Z.of_nat n - 1).
Proof. unfold pack_sle. destruct (_ && _) eqn:E; [|done]. intros [= <-]. split; [done|lia]. Qed.

(** The eight bytes [_i] returns, as the decoder reads them. *)
Lemma _i_bytes op dst src off imm b : _i op dst src off imm = Ok b ->
  exists r o0 o1 i0 i1 i2 i3, b = [op; r; o0; o1; i0; i1; i2; i3] /\
    signed 2 (le_int [o0; o1]) = off /\ signed 4 (le_int [i0; i1; i2; i3]) = imm.
Proof.
  unfold _i. intros H.
  destruct (pack_le 1 op) as [a|] eqn:E1; [|done]. apply pack_le_inv in E1 as [-> H1].
  destruct (pack_le 1 _) as [r|] eqn:E2; [|done]. apply pack_le_inv in E2 as [-> H2].
  destruct (pack_sle 2 off) as [o|] eqn:E3; [|done]. apply pack_sle_inv in E3 as [-> H3].
  destruct (pack_sle 4 imm) as [m|] eqn:E4; [|done]. apply pack_sle_inv in E4 as [-> H4].
  injection H as <-.
  pose proof (signed_le 2 off ltac:(lia) H3) as Ho.
  pose proof (signed_le 4 imm ltac:(lia) H4) as Hi.
  cbn [le_bytes app] in *. rewrite (Z.mod_small op) by lia. by repeat eexists.
Qed.

Lemma asm_cons x l text : asm (x :: l) = Ok text ->
  exists b t, x = Ok b /\ asm l = Ok t /\ text = b ++ t.
Proof.
  unfold asm. simpl. intros H. destruct x as [b|]; [|done]. unfold id in H.
  destruct (mapM_r _ l) as [bs|]; [|done]. injection H as <-. by exists b, (concat bs).
Qed.

Lemma decode_from_items items : Forall item_ok items -> forall text fuel pc,
  asm (flat_map item_asm items) = Ok text -> (length text <= fuel)%nat ->
  decode_from fuel pc text = item_insns pc items.
Proof.
  induction 1 as [|it items Hit _ IH]; intros text fuel pc Ha Hf.
  - simpl in Ha. injection Ha as <-. by destruct fuel.
  - destruct it as [op dst src off imm|dst src off imm hi]; cbn [flat_map item_asm app] in Ha.
    + apply asm_cons in Ha as (b & t & Hb & Ht & ->).
      apply _i_bytes in Hb as (r & o0 & o1 & i0 & i1 & i2 & i3 & -> & Ho & Hi).
      simpl in Hf. destruct fuel as [|fuel]; [lia|]. cbn [app decode_from item_insns].
      cbn in Hit. destruct (Z.eqb_spec op LDDW) as [|_]; [done|].
      rewrite Ho, Hi. cbn [item_insn i_wide step_of]. f_equal. apply IH; [done|lia].
    + apply asm_cons in Ha as (b & t & Hb & Ht & ->).
      apply asm_cons in Ht as (b' & t' & Hb' & Ht' & ->).
      apply _i_bytes in Hb as (r & o0 & o1 & i0 & i1 & i2 & i3 & -> & Ho & Hi).
      apply _i_bytes in Hb' as (? & ? & ? & ? & ? & ? & ? & -> & _).
      simpl in Hf. destruct fuel as [|fuel]; [lia|]. cbn [app decode_from item_insns].
      rewrite Z.eqb_refl, Ho, Hi. cbn [item_insn i_wide step_of]. f_equal.
      apply (IH t'); [done|lia].
Qed.

(** The decoder inverts the self-test's assembler on whole programs: each
    instruction is found at its slot with its opcode, class, offset and
    immediate, and an [lddw] takes two slots and yields one instruction. *)
Theorem decode_asm items text : Forall item_ok items ->
  asm (flat_map item_asm items) = Ok text -> decode text = item_insns 0 items.
Proof. intros. by apply decode_from_items. Qed.

Lemma decode_asm_witness :
  decode [0x18;1;0;0;0x88;0x77;0x66;0x55; 0;0;0;0;0x44;0x33;0x22;0x11; 0x95;0;0;0;0;0;0;0] =
  [Insn 0 LDDW Ld 0 0x55667788 true; Insn 2 EXIT Exit 0 0 false].
Proof.
  apply (decode_asm [Wide 1 0 0 0x55667788 0x11223344; Plain EXIT 0 0 0 0]).
  - repeat constructor. discriminate.
  - reflexivity.
Defined.
