(* ===== verification/Decoders.v ===== *)
(** * The record decoders (env/ai-traffic/*_decode.py)

    Each probe writes a fixed little-endian record into the ring; each decoder
    turns the bytes of one record into a dict or raises.  [unpack] is
    [struct.Struct(fmt).unpack]; the dict has exactly the names the source
    zips, so the field readers [iget]/[bget] always find their key. *)

From S2P Require Import Prelude PyVal.

(** ** struct formats *)

(** Unsigned, signed and byte-string fields. *)
Inductive fld := U (n : nat) | I (n : nat) | B (n : nat).

Definition fsize (f : fld) : nat := match f with U n | I n | B n => n end.

Definition unpack_fld (f : fld) (b : bytes) : val :=
  match f with
  | U n => VInt (le_int b)
  | I n => VInt (signed n (le_int b))
  | B n => VBytes b
  end.

Fixpoint unpack (fmt : list fld) (b : bytes) : list val :=
  match fmt with
  | [] => []
  | f :: t => unpack_fld f (take (fsize f) b) :: unpack t (drop (fsize f) b)
  end.

Definition fmt_size (fmt : list fld) : Z := Z.of_nat (calcsize (map fsize fmt)).

(** [dict(zip(names, FORMAT.unpack(payload)))]. *)
Definition record_of (names : list string) (fmt : list fld) (payload : bytes) : dict :=
  zip names (unpack fmt payload).

Definition eqf (e : dict) (k : string) (z : Z) : bool := iget k e =? z.
Definition nonzero (e : dict) (k : string) : bool := negb (iget k e =? 0).
Definition gtf (e : dict) (k : string) (z : Z) : bool := z <? iget k e.
Definition bits_outside (e : dict) (k : string) (mask : Z) : bool :=
  negb (Z.land (iget k e) (Z.lnot mask) =? 0).
(** [any(value[n:])]. *)
Definition any_from (n : Z) (b : bytes) : bool := existsb (fun x => negb (x =? 0)) (zdrop n b).

(** ** activity_group_decode.py *)

Definition GROUP_MAGIC : Z := 0x41474331.
Definition GROUP_HEADER : list fld := [U 4; U 4; U 4; U 4; U 8; U 8; U 4; U 4; U 8].
Definition group_names : list string :=
  ["magic"; "abi"; "length"; "side"; "owner"; "exchange"; "status"; "phase"; "invocation"].

Definition unwrap (payload : bytes) : result (dict * bytes) :=
  raise_if (len payload <? fmt_size GROUP_HEADER) (ValueError "short activity group frame") ;;
  let h := record_of group_names GROUP_HEADER payload in
  let side := iget "side" h in
  let owner := iget "owner" h in
  let exchange := iget "exchange" h in
  let status := iget "status" h in
  let phase := iget "phase" h in
  let invocation := iget "invocation" h in
  raise_if (negb (eqf h "magic" GROUP_MAGIC) || negb (eqf h "abi" 2)
            || negb (mem_Z (iget "length" h) [96; 104; 128; 144])
            || negb (len payload =? fmt_size GROUP_HEADER + iget "length" h)
            || negb (mem_Z side [0; 1; 2])
            || negb ((0 <=? status) && (status <? 7)) || negb ((0 <=? phase) && (phase <? 5)))
    (ValueError "invalid activity group frame") ;;
  raise_if (xorb (negb (owner =? 0)) (negb (exchange =? 0))
            || xorb (negb (phase =? 0)) (negb (exchange =? 0))
            || negb (exchange =? 0) && ((side =? 0) || (invocation =? 0))
            || (status =? 1) && (exchange =? 0))
    (ValueError "inconsistent activity group key") ;;
  Ok ([("owner_instance", VStr (py_str owner)); ("exchange", VStr (py_str exchange));
       ("status", VInt status); ("phase", VInt phase); ("side", VInt side);
       ("invocation", VStr (py_str invocation))],
      zdrop (fmt_size GROUP_HEADER) payload).

(** ** The bounded-value records *)

(** ["<II6Q4IHHI64s"], shared by the method, target and ID records. *)
Definition VALUE_FORMAT : list fld :=
  [U 4; U 4; U 8; U 8; U 8; U 8; U 8; U 8; U 4; U 4; U 4; U 4; U 2; U 2; U 4; B 64].

Definition value_names (ninth : string) : list string :=
  ["magic"; "abi"; "instance"; "revision"; "run"; "monotonic_ns"; "sequence";
   "output_failures"; "status"; ninth; "original_length"; "copied_length"; "flags";
   "reads"; "source_bytes"; "value"].

(** *** method_decode.py *)

Definition METHOD_STATUSES : list (Z * string) :=
  [(1, "complete"); (2, "truncated"); (3, "read_failed"); (4, "out_of_scope");
   (5, "budget_exhausted"); (6, "getter_error"); (7, "unavailable")].

Definition method_decode (payload : bytes) : result dict :=
  raise_if (negb (len payload =? fmt_size VALUE_FORMAT)) (ValueError "wrong method record size") ;;
  let event := record_of (value_names "getter_result") VALUE_FORMAT payload in
  raise_if (negb (eqf event "magic" 0x4A4D4554) || negb (eqf event "abi" 1))
    (ValueError "wrong method record schema") ;;
  let status := iget "status" event in
  let copied := iget "copied_length" event in
  let original := iget "original_length" event in
  raise_if (negb (in_table status METHOD_STATUSES) || (64 <? copied) || (original <? copied)
            || gtf event "reads" 12 || gtf event "source_bytes" 320)
    (ValueError "invalid method extraction bounds") ;;
  raise_if ((status =? 1) && negb (copied =? original)
            || (status =? 2) && negb ((copied =? 64) && (64 <? original))
            || negb (mem_Z status [1; 2]) && negb (copied =? 0))
    (ValueError "inconsistent method extraction status") ;;
  let value := bget "value" event in
  let event := remove "value" event in
  raise_if (any_from copied value) (ValueError "nonzero bytes outside copied value") ;;
  let event := set "value_hex" (VStr (hex (ztake copied value))) event in
  let event := set "status_name" (name_of status METHOD_STATUSES) event in
  Ok (set "representation" (VStr "json_string_escaped_bytes") event).

(** *** token_method_decode.py *)

Definition TOKEN_STATUS : list (Z * string) :=
  [(1, "complete"); (2, "truncated"); (3, "read_failed"); (4, "out_of_scope");
   (5, "budget_exhausted"); (7, "unavailable"); (8, "no_literal_method");
   (9, "invalid_cache"); (10, "nonstring")].

Definition token_method_decode (payload : bytes) : result dict :=
  raise_if (negb (len payload =? fmt_size VALUE_FORMAT)) (ValueError "token method record size") ;;
  let event := record_of (value_names "root_members") VALUE_FORMAT payload in
  let value := bget "value" event in
  let event := remove "value" event in
  let n := iget "copied_length" event in
  raise_if (negb (eqf event "magic" 0x544D4554) || negb (eqf event "abi" 1)
            || negb (in_table (iget "status" event) TOKEN_STATUS) || (64 <? n)
            || gtf event "reads" 40 || gtf event "source_bytes" 1024 || any_from n value)
    (ValueError "invalid token method record") ;;
  raise_if (negb (mem_Z (iget "status" event) [1; 2]) && negb (n =? 0))
    (ValueError "value on unavailable token method record") ;;
  raise_if (eqf event "status" 1 && negb (n =? iget "original_length" event))
    (ValueError "incomplete complete token method record") ;;
  raise_if (eqf event "status" 2 && negb ((n =? 64) && (64 <? iget "original_length" event)))
    (ValueError "invalid truncated token method record") ;;
  let event := set "status_name" (name_of (iget "status" event) TOKEN_STATUS) event in
  let event := set "value_hex" (VStr (hex (ztake n value))) event in
  Ok (set "representation" (VStr "escaped JSON string bytes; literal key; first match") event).

(** *** operation_target_decode.py *)

Definition TARGET_STATES : list (Z * string) :=
  [(1, "complete"); (2, "truncated"); (3, "read_failed"); (4, "out_of_scope");
   (5, "budget_exhausted"); (7, "unavailable"); (8, "no_literal_method");
   (9, "invalid_cache"); (10, "nonstring"); (11, "no_literal_target");
   (12, "unsupported_method")].

Definition target_decode (payload : bytes) : result dict :=
  raise_if (negb (len payload =? fmt_size VALUE_FORMAT)) (ValueError "operation target size") ;;
  let e := record_of (value_names "target_kind") VALUE_FORMAT payload in
  let n := iget "copied_length" e in
  raise_if (negb (eqf e "magic" 0x4f544754) || negb (eqf e "abi" 1)
            || negb (in_table (iget "status" e) TARGET_STATES)
            || negb (mem_Z (iget "target_kind" e) [0; 1; 2]) || bits_outside e "flags" 15
            || gtf e "reads" 96 || gtf e "source_bytes" 4096 || (64 <? n)
            || any_from n (bget "value" e))
    (ValueError "invalid operation target") ;;
  raise_if (mem_Z (iget "status" e) [1; 2] &&
            (eqf e "target_kind" 0 || negb (n =? Z.min (iget "original_length" e) 64)
             || xorb (eqf e "status" 2) (64 <? iget "original_length" e)))
    (ValueError "invalid target length or kind") ;;
  raise_if (negb (mem_Z (iget "status" e) [1; 2]) && negb (n =? 0))
    (ValueError "value on unavailable target") ;;
  let value := bget "value" e in
  let e := set "value_hex" (VStr (hex (ztake n value))) (remove "value" e) in
  let e := set "status_name" (name_of (iget "status" e) TARGET_STATES) e in
  let e := set "target_kind_name"
             (name_of (iget "target_kind" e) [(1, "tool_name"); (2, "resource_uri")]) e in
  Ok (set "representation" (VStr "raw_json_string_bytes") e).

(** *** message_id_decode.py *)

Definition ID_STATES : list (Z * string) :=
  [(1, "complete"); (2, "truncated"); (3, "read_failed"); (4, "out_of_scope");
   (5, "budget_exhausted"); (7, "unavailable"); (8, "missing"); (9, "invalid_cache");
   (10, "wrong_type"); (11, "ambiguous")].

Definition digit_byte (b : Z) : bool := (48 <=? b) && (b <=? 57).

(** [[0-9]*], greedy: what is left after the digits. *)
Fixpoint skip_digits (b : bytes) : bytes :=
  match b with
  | c :: t => if digit_byte c then skip_digits t else b
  | [] => []
  end.

(** [[0-9]+]. *)
Definition digits1 (b : bytes) : option bytes :=
  match b with
  | c :: t => if digit_byte c then Some (skip_digits t) else None
  | [] => None
  end.

(** [(?:[eE][+-]?[0-9]+)?] at the end of the text. *)
Definition match_exp (b : bytes) : bool :=
  match b with
  | [] => true
  | c :: t =>
      ((c =? 101) || (c =? 69)) &&
      let d := match t with s :: t' => if (s =? 43) || (s =? 45) then t' else t | [] => t end in
      match digits1 d with Some [] => true | _ => false end
  end.

(** [(?:\.[0-9]+)?] and the rest. *)
Definition match_frac (b : bytes) : bool :=
  match b with
  | c :: t =>
      if c =? 46 then match digits1 t with Some r => match_exp r | None => false end
      else match_exp b
  | [] => match_exp b
  end.

(** [NUMBER.fullmatch]: an optional minus, [0] or a digit run that starts with
    [1-9], an optional fraction, an optional exponent.
    No part of the pattern can start with what the part before it may end in,
    so the greedy match is the only one. *)
Definition number_match (b : bytes) : bool :=
  let b := match b with c :: t => if c =? 45 then t else b | [] => b end in
  match b with
  | c :: t =>
      if c =? 48 then match_frac t
      else if (49 <=? c) && (c <=? 57) then match_frac (skip_digits t) else false
  | [] => false
  end.

Definition id_decode (payload : bytes) : result dict :=
  raise_if (negb (len payload =? fmt_size VALUE_FORMAT)) (ValueError "message ID size") ;;
  let e := record_of (value_names "id_kind") VALUE_FORMAT payload in
  let n := iget "copied_length" e in
  raise_if (negb (eqf e "magic" 0x4d534749) || negb (eqf e "abi" 1)
            || negb (in_table (iget "status" e) ID_STATES)
            || negb (mem_Z (iget "id_kind" e) [0; 1; 2; 3]) || bits_outside e "flags" 15
            || gtf e "reads" 80 || gtf e "source_bytes" 2048 || (64 <? n)
            || any_from n (bget "value" e))
    (ValueError "invalid message ID") ;;
  let value := ztake n (bget "value" e) in
  let e := remove "value" e in
  let st12 := mem_Z (iget "status" e) [1; 2] in
  raise_if (st12 && (eqf e "id_kind" 0 || negb (n =? Z.min (iget "original_length" e) 64)
                     || xorb (eqf e "status" 2) (64 <? iget "original_length" e)))
    (ValueError "invalid ID length or kind") ;;
  raise_if (st12 && (eqf e "id_kind" 2 && (negb (eqf e "status" 1) || negb (number_match value))))
    (ValueError "invalid numeric ID") ;;
  raise_if (st12 && (eqf e "id_kind" 3 &&
                     (negb (eqf e "status" 1) || negb (bytes_eqb value [110; 117; 108; 108]))))
    (ValueError "invalid null ID") ;;
  raise_if (negb st12 && (negb (n =? 0) || negb (mem_Z (iget "id_kind" e) [0; 1])))
    (ValueError "value on unavailable ID") ;;
  let e := set "value_hex" (VStr (hex value)) e in
  let e := set "status_name" (name_of (iget "status" e) ID_STATES) e in
  let e := set "id_kind_name"
             (name_of (iget "id_kind" e) [(1, "string"); (2, "number"); (3, "null")]) e in
  Ok (set "representation"
        (VStr (if eqf e "id_kind" 1 then "raw_json_string_bytes" else "raw_json_token_bytes")) e).

(** ** id_flow_decode.py *)

Definition ID_FLOW_MAGIC : Z := 0x4944464c.
Definition FLOW_SIDES : list (Z * val) :=
  [(0, VNone); (1, VStr "clientside"); (2, VStr "serverside")].
Definition FLOW_STATES : list (Z * string) :=
  [(0, "unavailable"); (1, "complete"); (2, "out_of_scope"); (3, "read_failed");
   (4, "invalid"); (5, "budget_exhausted")].

Definition id_flow_decode (payload : bytes) : result dict :=
  raise_if (negb (len payload =? 144) || negb (le_int (ztake 4 payload) =? ID_FLOW_MAGIC)
            || negb (le_int (slice 4 8 payload) =? 1))
    (ValueError "ID/flow size or schema") ;;
  let flags := le_int (slice 72 74 payload) in
  let side := Z.land (Z.shiftr flags 4) 3 in
  let status := Z.land (Z.shiftr flags 8) 7 in
  raise_if (negb (Z.land flags (Z.lnot 0x073f) =? 0) || negb (in_table side FLOW_SIDES)
            || negb (in_table status FLOW_STATES)
            || xorb (status =? 1) (mem_Z side [1; 2])
            || negb (Z.land flags 3 =? 0) && (negb (side =? 0) || negb (status =? 0)))
    (ValueError "invalid flow side") ;;
  let base := splice 0 (le_bytes 4 0x4d534749) payload in
  let base := splice 72 (le_bytes 2 (Z.land flags 15)) base in
  let? event := id_decode base in
  Ok (update [("magic", VInt ID_FLOW_MAGIC); ("wire_flags", VInt flags);
              ("flow_side", VInt side); ("flow_side_name", default VNone (assoc side FLOW_SIDES));
              ("flow_status", VInt status); ("flow_status_name", name_of status FLOW_STATES)]
             event).

(** ** json_initialization_decode.py *)

Definition INIT_FORMAT : list fld :=
  [U 4; U 4; U 8; U 8; U 8; U 8; U 8; U 8; U 8; U 4; U 4; U 4; U 4; U 4; U 4; U 4; U 4].
Definition INIT_FIELDS : list string :=
  ["magic"; "abi"; "instance"; "revision"; "run"; "invocation"; "monotonic_ns"; "sequence";
   "output_failures"; "code"; "status"; "flags"; "flow_side"; "reads"; "source_bytes";
   "guards"; "reserved"].

Definition initialization_decode (data : bytes) : result dict :=
  raise_if (negb (len data =? fmt_size INIT_FORMAT)) (ValueError "initialization record length") ;;
  let value := record_of INIT_FIELDS INIT_FORMAT data in
  raise_if (negb (eqf value "magic" 0x4A494E49) || negb (eqf value "abi" 1))
    (ValueError "initialization record ABI") ;;
  raise_if (nonzero value "reserved" || gtf value "status" 6 || bits_outside value "flags" 15)
    (ValueError "initialization record fields") ;;
  raise_if (gtf value "reads" 3 || gtf value "source_bytes" 9)
    (ValueError "initialization read budget") ;;
  raise_if (gtf value "guards" 3 || gtf value "flow_side" 2)
    (ValueError "initialization guard fields") ;;
  raise_if (eqf value "status" 1 &&
            (negb (eqf value "code" 57) || negb (eqf value "guards" 3)
             || negb (mem_Z (iget "flow_side" value) [1; 2])
             || negb (eqf value "reads" 3) || negb (eqf value "source_bytes" 9)))
    (ValueError "initialization completion without entry guards") ;;
  let value := set "initialization_completed" (VBool
    (eqf value "status" 1 && eqf value "flags" 0 && eqf value "output_failures" 0 &&
     forallb (nonzero value) ["instance"; "revision"; "run"; "invocation"; "sequence";
                              "monotonic_ns"])) value in
  Ok (set "lifecycle_validated" (VBool false) value).

(** ** json_lifecycle_decode.py *)

Definition BOUNDARY_FORMAT : list fld :=
  [U 4; U 4; U 8; U 8; U 8; U 8; U 8; U 8; U 8;
   U 4; U 4; U 4; U 4; U 4; U 4; U 4; U 4; U 4; U 4; U 4; U 4].
Definition BOUNDARY_NAMES : list string :=
  ["magic"; "abi"; "instance"; "revision"; "run"; "monotonic_ns"; "sequence"; "output_failures";
   "context_tag"; "kind"; "code"; "status"; "flags"; "flow_side"; "scb_flags";
   "cache_present"; "seen_mask"; "reads"; "source_bytes"; "payload_bytes"; "reserved"].
Definition BOUNDARY_STATES : list string :=
  ["unavailable"; "observed"; "address_only"; "unsupported"; "read_failed"; "disabled";
   "capacity"; "overflow"; "map_failed"; "run_mismatch"].

Definition boundary_decode (payload : bytes) : result dict :=
  raise_if (negb (len payload =? 112)) (ValueError "boundary size") ;;
  let e := record_of BOUNDARY_NAMES BOUNDARY_FORMAT payload in
  raise_if (negb (eqf e "magic" 0x4a4c4244) || negb (eqf e "abi" 1)
            || negb (mem_Z (iget "kind" e) [1; 2; 3]) || (len BOUNDARY_STATES <=? iget "status" e)
            || bits_outside e "flags" 15 || nonzero e "reserved" || gtf e "flow_side" 2
            || bits_outside e "scb_flags" 0x3fff || gtf e "cache_present" 1
            || bits_outside e "seen_mask" 15 || gtf e "reads" 4 || gtf e "source_bytes" 29
            || gtf e "context_tag" 128)
    (ValueError "boundary fields") ;;
  raise_if (eqf e "kind" 3 && existsb (nonzero e)
              ["code"; "flow_side"; "scb_flags"; "cache_present"; "reads"; "source_bytes";
               "payload_bytes"])
    (ValueError "reset has no qualified source fields") ;;
  raise_if (mem_Z (iget "status" e) [1; 5] &&
            (eqf e "kind" 3 || negb (mem_Z (iget "flow_side" e) [1; 2])))
    (ValueError "observed storage requires side") ;;
  let? name := at_index BOUNDARY_STATES (iget "status" e) in
  Ok (set "lifecycle_validated" (VBool false) (set "status_name" (VStr name) e)).

(** The invalidation pass over a sequence of boundary events.  [identities] maps
    a kind to the first (instance, revision) seen for it. *)
Fixpoint window_from (run : Z) (n : Z) (identities : gmap Z (Z * Z)) (events : list dict)
    (invalid : list string) : list string :=
  match events with
  | [] => invalid
  | e :: rest =>
      let identity := (iget "instance" e, iget "revision" e) in
      let kind := iget "kind" e in
      let previous := default identity (identities !! kind) in
      let identities := <[kind := previous]> identities in
      let invalid :=
        if negb (bool_decide (identity = previous)) || negb (eqf e "run" run)
        then invalid ++ ["source_changed"] else invalid in
      let invalid :=
        if negb (eqf e "sequence" n) || nonzero e "flags" || nonzero e "output_failures"
           || negb (mem_Z (iget "status" e) [1; 2])
        then invalid ++ ["diagnostic_or_gap"] else invalid in
      window_from run (n + 1) identities rest invalid
  end.

Definition window (events : list dict) (breaks : list string) : dict :=
  let run := match events with e :: _ => iget "run" e | [] => 0 end in
  let invalid := window_from run 1 ∅ events breaks in
  [("boundaries_usable", VBool (match invalid with [] => true | _ => false end));
   ("reasons", VList (map VStr invalid)); ("lifecycle_validated", VBool false);
   ("request_scope_validated", VBool false); ("message_association_validated", VBool false)].

(** ** metadata_decode.py *)

Definition METADATA_FORMAT : list fld :=
  [U 4; U 4; U 8; U 8; U 8; U 8; U 8; U 8; U 4; U 4; U 4; U 4].
Definition METADATA_FIELDS : list string :=
  ["magic"; "abi"; "instance"; "revision"; "run"; "monotonic_ns"; "sequence"; "output_failures";
   "kind"; "code"; "presence"; "flags"].

Definition metadata_decode (event_names : dict) (data : bytes) : result dict :=
  raise_if (negb (len data =? fmt_size METADATA_FORMAT)) (ValueError "invalid metadata record length") ;;
  let r := record_of METADATA_FIELDS METADATA_FORMAT data in
  raise_if (negb (eqf r "magic" 0x4D455441) || negb (eqf r "abi" 1))
    (ValueError "unsupported metadata record schema") ;;
  raise_if (negb (mem_Z (iget "kind" r) [1; 2]) || bits_outside r "presence" 7)
    (ValueError "invalid metadata record fields") ;;
  Ok (set "event_name" (getv (py_str (iget "code" r)) event_names) r).

(** ** reply_metadata_decode.py *)

Definition REPLY_FORMAT : list fld :=
  [U 4; U 4; U 8; U 8; U 8; U 8; U 8; U 8; U 4; U 4; U 4; U 4; U 4; U 4; U 4; I 4;
   U 4; U 4; U 4; U 4].
Definition REPLY_FIELDS : list string :=
  ["status"; "result_present"; "error_present"; "code_state"; "error_code";
   "tool_error_state"; "tool_error"].
Definition reply_names : list string :=
  ["magic"; "abi"; "instance"; "revision"; "run"; "monotonic_ns"; "sequence"; "output_failures";
   "flags"; "reads"; "source_bytes"] ++ REPLY_FIELDS ++ ["reserved0"; "reserved1"].
Definition REPLY_STATES : list (Z * string) :=
  [(0, "not_applicable"); (1, "complete"); (3, "read_failed"); (4, "out_of_scope");
   (5, "budget_exhausted"); (7, "unavailable"); (9, "invalid_cache"); (10, "wrong_type");
   (11, "ambiguous")].

Definition reply_decode (payload : bytes) : result dict :=
  raise_if (negb (len payload =? fmt_size REPLY_FORMAT)) (ValueError "reply metadata size") ;;
  let event := record_of reply_names REPLY_FORMAT payload in
  raise_if (negb (eqf event "magic" 0x52504c59) || negb (eqf event "abi" 1)
            || bits_outside event "flags" 15 || gtf event "reads" 80
            || gtf event "source_bytes" 2048 || nonzero event "reserved0"
            || nonzero event "reserved1"
            || existsb (fun k => negb (in_table (iget k event) REPLY_STATES))
                 ["status"; "code_state"; "tool_error_state"]
            || existsb (fun k => negb (mem_Z (iget k event) [0; 1]))
                 ["result_present"; "error_present"; "tool_error"])
    (ValueError "invalid reply metadata") ;;
  let complete := eqf event "status" 1 in
  raise_if (complete && negb (iget "result_present" event + iget "error_present" event =? 1))
    (ValueError "invalid reply presence") ;;
  raise_if (complete && xorb (nonzero event "code_state") (nonzero event "error_present"))
    (ValueError "invalid error field state") ;;
  raise_if (complete && xorb (nonzero event "tool_error_state") (nonzero event "result_present"))
    (ValueError "invalid result field state") ;;
  raise_if (negb complete && existsb (nonzero event) (tail REPLY_FIELDS))
    (ValueError "fields on unqualified reply") ;;
  raise_if ((negb (eqf event "code_state" 1) && nonzero event "error_code")
            || (negb (eqf event "tool_error_state" 1) && nonzero event "tool_error"))
    (ValueError "value without complete field") ;;
  let event := set "status_name" (name_of (iget "status" event) REPLY_STATES) event in
  let event := set "code_state_name" (name_of (iget "code_state" event) REPLY_STATES) event in
  Ok (set "tool_error_state_name" (name_of (iget "tool_error_state" event) REPLY_STATES) event).

(** ** response_metadata_decode.py *)

Definition RESPONSE_FORMAT : list fld :=
  [U 4; U 4; U 8; U 8; U 8; U 8; U 8; U 8; U 4; U 4; U 4; U 4; U 4; U 4; U 4; U 4; U 4; U 4].
Definition TLS_FORMAT : list fld := [U 4; U 4; U 4; U 4; U 4; U 4; U 4; U 4].
Definition RESPONSE_STATES : list (Z * string) :=
  [(0, "not_applicable"); (1, "complete"); (3, "read_failed"); (4, "out_of_scope");
   (7, "unavailable")].
Definition RESPONSE_EVENTS : list (Z * string) :=
  [(28, "HUDCTL_RESPONSE"); (144, "HUDEVT_RESPONSE"); (29, "HUDCTL_RESPONSE_DONE");
   (145, "HUDEVT_RESPONSE_DONE"); (1, "HUDCTL_ABORT"); (34, "HUDEVT_ABORTED");
   (5, "HUDCTL_TEARDOWN"); (142, "HUDEVT_REQUEST"); (27, "HUDCTL_REQUEST_DONE");
   (143, "HUDEVT_REQUEST_DONE")].
Definition TLS_MODES : list (Z * string) :=
  [(0, "not_applicable"); (1, "terminated"); (2, "ssl_filter_not_decrypting");
   (3, "no_ssl_filter"); (4, "unknown")].
Definition TLS_REASONS : list (Z * val) :=
  [(0, VNone); (1, VStr "read_failed"); (2, VStr "walk_limit"); (3, VStr "multiple_ssl_filters");
   (4, VStr "server_side_entity"); (5, VStr "inactive_context"); (6, VStr "invalid_flow")].
Definition TLS_BITS : list string :=
  ["handshake_ok"; "passthru"; "chain_present"; "session_cert_present"; "retain_certificate";
   "ticket_resumed"; "session_resumed"; "allow_nonssl"].
Definition PROTOCOLS : list (Z * val) :=
  [(0, VNone); (1, VStr "SSLv2"); (2, VStr "SSLv3"); (3, VStr "TLSv1"); (4, VStr "TLSv1.1");
   (5, VStr "TLSv1.2"); (6, VStr "TLSv1.3"); (7, VStr "DTLSv1"); (8, VStr "DTLSv1.2");
   (9, VStr "GMSSLv1.1")].
Definition CERT_MODES : list (Z * string) := [(0, "ignore"); (1, "require"); (2, "request")].

Definition tls_names : list string :=
  ["mode"; "reason"; "nodes"; "bits"; "proto"; "suite"; "pcm"; "vfy"].

Definition bit (bits i : Z) : bool := Z.testbit bits i.

Definition decode_tls (payload : bytes) : result dict :=
  let t := record_of tls_names TLS_FORMAT payload in
  let mode := iget "mode" t in
  let bits := iget "bits" t in
  let pcm := iget "pcm" t in
  raise_if (negb (in_table mode TLS_MODES) || negb (in_table (iget "reason" t) TLS_REASONS)
            || gtf t "nodes" 16 || negb (Z.shiftr bits (len TLS_BITS) =? 0)
            || negb (in_table (iget "proto" t) PROTOCOLS) || gtf t "suite" 0xffff
            || negb (in_table pcm CERT_MODES) || gtf t "vfy" 127)
    (ValueError "invalid TLS block") ;;
  raise_if (xorb (mode =? 4) (nonzero t "reason")) (ValueError "TLS reason on wrong mode") ;;
  let detail := mem_Z mode [1; 2] in
  raise_if (negb detail && existsb (nonzero t) ["bits"; "proto"; "suite"; "pcm"; "vfy"])
    (ValueError "TLS values without an SSL filter reading") ;;
  raise_if ((mode =? 0) && nonzero t "nodes") (ValueError "TLS walk on an inapplicable event") ;;
  let flags : dict :=
    imap (fun i name => (name, VBool (bit bits (Z.of_nat i)))) TLS_BITS in
  let handshake_ok := bit bits 0 in
  let passthru := bit bits 1 in
  let out : dict := [("mode", name_of mode TLS_MODES); ("filter_nodes", VInt (iget "nodes" t))] in
  let out := if mode =? 4
             then set "reason" (default VNone (assoc (iget "reason" t) TLS_REASONS)) out else out in
  raise_if ((mode =? 1) && (negb handshake_ok || passthru))
    (ValueError "terminated without a completed decrypting handshake") ;;
  raise_if ((mode =? 2) && (handshake_ok && negb passthru))
    (ValueError "not-decrypting with a completed decrypting handshake") ;;
  if detail then
    let present := bit bits 2 || bit bits 3 in
    let certificate :=
      if pcm =? 0 then "not_requested"
      else if present then (if eqf t "vfy" 0 then "verified" else "failed")
      else if bit bits 4 then "none_observed" else "unknown" in
    Ok (update [("protocol", default VNone (assoc (iget "proto" t) PROTOCOLS));
                ("protocol_number", VInt (iget "proto" t));
                ("cipher_suite_id", VInt (iget "suite" t));
                ("peer_cert_mode", name_of pcm CERT_MODES);
                ("verify_result", VInt (iget "vfy" t));
                ("client_certificate", VStr certificate); ("flags", VDict flags)] out)
  else Ok out.

Definition response_names : list string :=
  ["magic"; "abi"; "instance"; "revision"; "run"; "monotonic_ns"; "sequence"; "output_failures";
   "code"; "presence"; "flags"; "reads"; "source_bytes"; "http_status_state"; "http_status";
   "completion_state"; "transfer_complete"; "reserved"].

Definition response_decode (payload : bytes) : result dict :=
  let size := fmt_size RESPONSE_FORMAT in
  let tls_size := fmt_size TLS_FORMAT in
  raise_if (negb (mem_Z (len payload) [size; size + tls_size])) (ValueError "response metadata size") ;;
  let event := record_of response_names RESPONSE_FORMAT payload in
  let status := iget "http_status_state" event in
  let done := iget "completion_state" event in
  raise_if (negb (eqf event "magic" 0x5253504d) || negb (mem_Z (iget "abi" event) [1; 2])
            || negb (len payload =? (if eqf event "abi" 1 then size else size + tls_size))
            || nonzero event "reserved" || gtf event "presence" 7 || bits_outside event "flags" 15
            || gtf event "reads" 4 || gtf event "source_bytes" 16
            || negb (in_table status RESPONSE_STATES) || negb (mem_Z done [0; 1; 4; 7]))
    (ValueError "invalid response metadata") ;;
  raise_if (xorb (mem_Z (iget "code" event) [28; 144]) (negb (status =? 0)))
    (ValueError "status on wrong event") ;;
  raise_if (xorb (mem_Z (iget "code" event) [29; 145]) (negb (done =? 0)))
    (ValueError "completion on wrong event") ;;
  raise_if ((status =? 1) && negb ((100 <=? iget "http_status" event) &&
                                   (iget "http_status" event <=? 999)))
    (ValueError "invalid HTTP status") ;;
  raise_if (negb (status =? 1) && nonzero event "http_status")
    (ValueError "value on unavailable HTTP status") ;;
  raise_if ((done =? 1) && negb (mem_Z (iget "transfer_complete" event) [0; 1]))
    (ValueError "invalid completion Boolean") ;;
  raise_if (negb (done =? 1) && nonzero event "transfer_complete")
    (ValueError "value on unavailable completion") ;;
  let names (event : dict) : dict :=
    let event := set "http_status_state_name" (name_of status RESPONSE_STATES) event in
    let event := set "completion_state_name" (name_of done RESPONSE_STATES) event in
    set "event_name" (name_of (iget "code" event) RESPONSE_EVENTS) event in
  if eqf event "abi" 2 then
    let? tls := decode_tls (zdrop size payload) in
    raise_if (negb (eqf event "code" 142) && negb (String.eqb (sget "mode" tls) "not_applicable"))
      (ValueError "TLS reading on wrong event") ;;
    Ok (names (set "client_tls" (VDict tls) event))
  else Ok (names event).

(** ** session_routing_decode.py *)

Definition SESSION_FORMAT : list fld :=
  [U 4; U 4; U 8; U 8; U 8; U 8; U 8; U 8; U 4; U 4; U 4; U 4; U 2; U 2; U 4; B 64; B 16;
   U 2; U 2; U 4].
Definition session_names : list string :=
  ["magic"; "abi"; "instance"; "revision"; "run"; "monotonic_ns"; "sequence"; "output_failures";
   "status"; "kind"; "original_length"; "copied_length"; "flags"; "reads"; "source_bytes";
   "value"; "address"; "port"; "domain"; "endpoint_status"].
Definition SESSION_STATUS : list (Z * string) :=
  [(1, "complete"); (2, "truncated"); (3, "read_failed"); (4, "out_of_scope");
   (5, "budget_exhausted"); (7, "unavailable")].

(** [str(ipaddress.IPv4Address(b))] of four bytes. *)
Definition ipv4_str (b : bytes) : string :=
  String.concat "." (map py_str b).

(** ['%x'] of a 16-bit group. *)
Definition hextet_str (z : Z) : string :=
  let ds := [hexdigit (z / 4096 mod 16); hexdigit (z / 256 mod 16); hexdigit (z / 16 mod 16);
             hexdigit (z mod 16)] in
  list_str ((fix lead n ds := match n, ds with
                              | S n, c :: t => if ord c =? 48 then lead n t else ds
                              | _, _ => ds
                              end) 3%nat ds).

(** The first longest run of zero groups: (start, length). *)
Fixpoint zero_runs (i : nat) (cur : nat) (l : list Z) (best : nat * nat) : nat * nat :=
  match l with
  | [] => best
  | z :: t =>
      if z =? 0 then
        let cur := S cur in
        let best := if (snd best <? cur)%nat then ((S i - cur)%nat, cur) else best in
        zero_runs (S i) cur t best
      else zero_runs (S i) 0 t best
  end.

(** [str(ipaddress.IPv6Address(b))] of sixteen bytes: [_compress_hextets]. *)
Definition ipv6_str (b : bytes) : string :=
  let groups := map (fun i => 256 * nth (2 * i) b 0 + nth (2 * i + 1) b 0) (seq 0 8) in
  let texts := map hextet_str groups in
  let '(start, n) := zero_runs 0 0 groups (0%nat, 0%nat) in
  if (1 <? n)%nat then
    String.append (String.concat ":" (take start texts))
      (String.append "::" (String.concat ":" (drop (start + n) texts)))
  else String.concat ":" texts.

(** [str(ip.ipv4_mapped or ip)]. *)
Definition address_str (b : bytes) : string :=
  if bytes_eqb (take 12 b) [0; 0; 0; 0; 0; 0; 0; 0; 0; 0; 255; 255]
  then ipv4_str (drop 12 b) else ipv6_str b.

Definition session_decode (payload : bytes) : result dict :=
  raise_if (negb (len payload =? fmt_size SESSION_FORMAT)) (ValueError "session/routing record size") ;;
  let event := record_of session_names SESSION_FORMAT payload in
  let value := bget "value" event in
  let address := bget "address" event in
  let event := remove "address" (remove "value" event) in
  let n := iget "copied_length" event in
  let status := iget "status" event in
  let endpoint := iget "endpoint_status" event in
  raise_if (negb (eqf event "magic" 0x53524d45) || negb (eqf event "abi" 1)
            || negb (mem_Z (iget "kind" event) [1; 2]) || negb (in_table status SESSION_STATUS)
            || (64 <? n) || any_from n value || gtf event "reads" 80 || gtf event "source_bytes" 256)
    (ValueError "invalid session/routing record") ;;
  raise_if (negb (mem_Z status [1; 2]) && negb (n =? 0))
    (ValueError "value on unavailable field") ;;
  raise_if ((status =? 1) && negb (n =? iget "original_length" event))
    (ValueError "incomplete complete field") ;;
  raise_if ((status =? 2) && negb ((n =? 64) && (64 <? iget "original_length" event)))
    (ValueError "invalid truncated field") ;;
  raise_if (eqf event "kind" 1 && negb (endpoint =? 0)) (ValueError "endpoint on session header") ;;
  raise_if (eqf event "kind" 2 && negb (mem_Z endpoint [1; 3; 4; 5; 7]))
    (ValueError "invalid endpoint status") ;;
  raise_if (negb (endpoint =? 1) &&
            (any_from 0 address || nonzero event "port" || nonzero event "domain"))
    (ValueError "bytes on unavailable endpoint") ;;
  let event := set "field" (VStr (if eqf event "kind" 1 then "observed_session_header"
                                  else "selected_pool_name")) event in
  let event := set "value_hex" (VStr (hex (ztake n value))) event in
  let event := set "status_name" (name_of status SESSION_STATUS) event in
  let event := set "original_length_known" (VBool (negb (eqf event "original_length" 0xffffffff))) event in
  let event := set "endpoint_status_name"
    (match assoc endpoint SESSION_STATUS with Some s => VStr s | None => VStr "not_applicable" end)
    event in
  let event := set "address_hex" (if endpoint =? 1 then VStr (hex address) else VNone) event in
  Ok (set "address" (if endpoint =? 1 then VStr (address_str address) else VNone) event).
