(* ===== verification/DecodersSpec.v ===== *)
(** * What a decoded record says of its bytes

    Losslessness of every record decoder, the meaning of the bounded value
    fields, the grammar behind the numeric-ID expression and the group frame. *)

From S2P Require Import Prelude PyVal Decoders.

(** ** Fields determine bytes *)

Lemma le_int_inj a b : is_bytes a -> is_bytes b -> length a = length b ->
  le_int a = le_int b -> a = b.
Proof.
  intros Ha Hb Hl He. rewrite <- (le_bytes_int a), <- (le_bytes_int b) by done.
  by rewrite Hl, He.
Qed.

Lemma signed_inj n a b : 0 <= a < 2 ^ (8 * Z.of_nat n) -> 0 <= b < 2 ^ (8 * Z.of_nat n) ->
  signed n a = signed n b -> a = b.
Proof.
  unfold signed. intros.
  destruct (Z.ltb_spec a (2 ^ (8 * Z.of_nat n - 1)));
    destruct (Z.ltb_spec b (2 ^ (8 * Z.of_nat n - 1))); lia.
Qed.

Lemma unpack_fld_inj f a b : is_bytes a -> is_bytes b ->
  length a = fsize f -> length b = fsize f -> unpack_fld f a = unpack_fld f b -> a = b.
Proof.
  intros Ha Hb La Lb. destruct f as [n|n|n]; simpl in *; intros [= H]; [| |done].
  - apply le_int_inj; congruence.
  - apply le_int_inj; [done|done|congruence|].
    pose proof (le_int_bound a Ha) as Ba. pose proof (le_int_bound b Hb) as Bb.
    unfold len in *. rewrite La in Ba. rewrite Lb in Bb. rewrite <- pow2_8 in Ba, Bb.
    by eapply signed_inj.
Qed.

Lemma unpack_inj fmt a b : is_bytes a -> is_bytes b ->
  len a = fmt_size fmt -> len b = fmt_size fmt -> unpack fmt a = unpack fmt b -> a = b.
Proof.
  unfold len, fmt_size. revert a b.
  induction fmt as [|f fmt IH]; intros a b Ha Hb La Lb H; simpl in *.
  - destruct a, b; simpl in *; (done || lia).
  - injection H as Hf Ht.
    assert (take (fsize f) a = take (fsize f) b) as E1.
    { eapply unpack_fld_inj; [..|exact Hf]; auto with py; rewrite length_take; lia. }
    assert (drop (fsize f) a = drop (fsize f) b) as E2.
    { apply IH; auto with py; rewrite length_drop; lia. }
    by rewrite <- (take_drop (fsize f) a), <- (take_drop (fsize f) b), E1, E2.
Qed.

(** A value and its zero tail are determined by the value. *)
Lemma any_from_replicate n b : any_from n b = false -> 0 <= n ->
  b = ztake n b ++ replicate (length b - Z.to_nat n) 0.
Proof.
  unfold any_from. rewrite zdrop_drop, ztake_take. intros H Hn.
  rewrite <- (take_drop (Z.to_nat n) b) at 1. f_equal.
  rewrite <- length_drop. induction (drop (Z.to_nat n) b) as [|x t IH]; [done|].
  simpl in *. apply orb_false_iff in H as [H1 H2].
  destruct (Z.eqb_spec x 0) as [->|]; [|done]. by rewrite <- IH.
Qed.

Lemma bounded_value_inj n a b : is_bytes a -> is_bytes b -> length a = length b -> 0 <= n ->
  any_from n a = false -> any_from n b = false ->
  hex (ztake n a) = hex (ztake n b) -> a = b.
Proof.
  intros Ha Hb Hl Hn Za Zb H. rewrite (any_from_replicate n a), (any_from_replicate n b) by done.
  rewrite Hl. f_equal. apply hex_inj; [..|done]; rewrite ztake_take; auto with py.
Qed.

(** ** The shape of the records *)

(** The fields of a ["<II6Q4IHHI64s"] record. *)
Lemma value_record p : is_bytes p -> len p = fmt_size VALUE_FORMAT ->
  exists f0 f1 f2 f3 f4 f5 f6 f7 f8 f9 f10 f11 f12 f13 f14 v,
    unpack VALUE_FORMAT p =
      [VInt f0; VInt f1; VInt f2; VInt f3; VInt f4; VInt f5; VInt f6; VInt f7; VInt f8;
       VInt f9; VInt f10; VInt f11; VInt f12; VInt f13; VInt f14; VBytes v] /\
    is_bytes v /\ length v = 64%nat /\ 0 <= f11 /\ 0 <= f10.
Proof.
  intros Hp Hl. unfold len, fmt_size in Hl. cbn in Hl.
  cbn [VALUE_FORMAT unpack unpack_fld fsize]. repeat eexists.
  all: first [ by auto 20 with py
             | rewrite length_take, !length_drop; lia
             | apply le_int_bound; auto 20 with py ].
Qed.

(** Step through the bindings and guards of a decoder that returned. *)
Ltac guards H :=
  repeat lazymatch type of H with
  | (let x := ?v in @?b x) = ?r =>
      let y := fresh x in pose (y := v); change (b y = r) in H; cbv beta in H
  | (if ?b then Err _ else _) = Ok _ =>
      let E := fresh "G" in destruct b eqn:E; [discriminate H|]
  | (match ?c with Ok _ => _ | Err _ => Err _ end) = Ok _ =>
      let E := fresh "R" in destruct c eqn:E; [|discriminate H]
  end.

(** ** Decoders keep the fields they unpack *)

(** [e] has the fields of the record, those named in [gone] apart. *)
Definition keeps (names : list string) (fmt : list fld) (gone : list string)
    (p : bytes) (e : dict) : Prop :=
  len p = fmt_size fmt /\
  Forall (fun k => k ∉ gone -> get k e = get k (record_of names fmt p)) names.

Lemma get_zip_inj names (xs ys : list val) : NoDup names ->
  length xs = length names -> length ys = length names ->
  Forall (fun k => get k (zip names xs) = get k (zip names ys)) names -> xs = ys.
Proof.
  revert xs ys. induction names as [|k names IH]; intros [|x xs] [|y ys] Hn Lx Ly H;
    simplify_eq/=; [done|].
  apply NoDup_cons in Hn as [Hk Hn]. apply Forall_cons in H as [H1 H2].
  rewrite String.eqb_refl in H1. injection H1 as ->. f_equal. apply IH; [done..|].
  apply Forall_forall. intros x Hx. rewrite Forall_forall in H2. specialize (H2 x Hx).
  destruct (decide (x = k)) as [E|E]; [by rewrite E in Hx|].
  simpl in H2. by rewrite (proj2 (String.eqb_neq x k) E) in H2.
Qed.

Lemma length_unpack fmt p : length (unpack fmt p) = length fmt.
Proof. revert p. induction fmt; intros; simpl; auto. Qed.

Lemma record_inj names fmt p1 p2 : NoDup names -> length names = length fmt ->
  is_bytes p1 -> is_bytes p2 -> len p1 = fmt_size fmt -> len p2 = fmt_size fmt ->
  Forall (fun k => get k (record_of names fmt p1) = get k (record_of names fmt p2)) names ->
  p1 = p2.
Proof.
  intros Hn Hl H1 H2 L1 L2 H. eapply unpack_inj; [done..|].
  eapply get_zip_inj; [done| | |exact H]; by rewrite length_unpack.
Qed.

(** Prove [keeps] for a decoder made of guards and dict updates. *)
Ltac keeps_tac :=
  let H := fresh "H" in
  intros H; guards H; apply Ok_inj in H; rewrite <- H; clear H;
  split; [match goal with
          | G : negb (len _ =? _) = false |- _ => apply negb_false_iff, Z.eqb_eq in G; exact G
          end|];
  repeat match goal with G : _ = false |- _ => clear G end;
  repeat constructor; intros Hgone;
  repeat lazymatch goal with
  | |- get _ (set _ _ _) = _ => rewrite get_set; cbn [String.eqb Ascii.eqb Bool.eqb]
  | |- get _ (remove _ _) = _ => rewrite get_remove_ne by (intros [=]; apply Hgone; set_solver)
  | |- get _ ?x = _ => is_var x; unfold x
  end; first [reflexivity | exfalso; apply Hgone; set_solver].

Lemma method_keeps p e : method_decode p = Ok e ->
  keeps (value_names "getter_result") VALUE_FORMAT ["value"] p e.
Proof. unfold method_decode. keeps_tac. Qed.

Lemma token_method_keeps p e : token_method_decode p = Ok e ->
  keeps (value_names "root_members") VALUE_FORMAT ["value"] p e.
Proof. unfold token_method_decode. keeps_tac. Qed.

Lemma target_keeps p e : target_decode p = Ok e ->
  keeps (value_names "target_kind") VALUE_FORMAT ["value"] p e.
Proof. unfold target_decode. keeps_tac. Qed.

Lemma id_keeps p e : id_decode p = Ok e ->
  keeps (value_names "id_kind") VALUE_FORMAT ["value"] p e.
Proof. unfold id_decode. keeps_tac. Qed.

Lemma initialization_keeps p e : initialization_decode p = Ok e ->
  keeps INIT_FIELDS INIT_FORMAT [] p e.
Proof. unfold initialization_decode. keeps_tac. Qed.

Lemma boundary_keeps p e : boundary_decode p = Ok e ->
  keeps BOUNDARY_NAMES BOUNDARY_FORMAT [] p e.
Proof. unfold boundary_decode. keeps_tac. Qed.

Lemma metadata_keeps names p e : metadata_decode names p = Ok e ->
  keeps METADATA_FIELDS METADATA_FORMAT [] p e.
Proof. unfold metadata_decode. keeps_tac. Qed.

Lemma reply_keeps p e : reply_decode p = Ok e -> keeps reply_names REPLY_FORMAT [] p e.
Proof. unfold reply_decode. keeps_tac. Qed.

Lemma session_keeps p e : session_decode p = Ok e ->
  keeps session_names SESSION_FORMAT ["value"; "address"] p e.
Proof. unfold session_decode. keeps_tac. Qed.

(** ** Bounded values *)

(** What a record with a status, the original and the copied length of a value
    and a 64-byte buffer must satisfy, and how the value is reported. *)
Definition value_fact (r e : dict) : Prop :=
  let status := iget "status" r in
  let original := iget "original_length" r in
  let n := iget "copied_length" r in
  any_from n (bget "value" r) = false /\
  get "value_hex" e = Some (VStr (hex (ztake n (bget "value" r)))) /\
  n <= 64 /\ (status = 1 -> n = original) /\ (status = 2 -> n = 64 /\ 64 < original) /\
  (status <> 1 -> status <> 2 -> n = 0).

Lemma iget_remove k k' d : k <> k' -> iget k (remove k' d) = iget k d.
Proof. intros. unfold iget. by rewrite get_remove_ne. Qed.

(** Read the guards that did not raise as facts about the record's fields. *)
Ltac open_guards :=
  unfold gtf, eqf, nonzero in * |-; cbn [mem_Z existsb] in * |-; rewrite ?xorb_eqb in * |-;
  repeat match goal with
  | G : _ || _ = false |- _ => apply orb_false_iff in G as [? ?]
  end;
  repeat match goal with
  | G : context [iget ?k (remove ?k' ?d)] |- _ => rewrite (iget_remove k k' d) in G by discriminate
  end.

(** Name the record of a decoder that returned, and its reported value. *)
Ltac value_tac :=
  let H := fresh "H" in
  intros H; guards H; apply Ok_inj in H; unfold value_fact;
  match goal with |- context [any_from _ (bget _ ?r)] => remember r as rec eqn:Hrec end;
  match goal with |- ?A /\ ?B /\ ?C =>
    assert B as HB;
    [ rewrite <- H; clear H;
      repeat lazymatch goal with
      | |- get _ (set _ _ _) = _ => rewrite get_set; cbn [String.eqb Ascii.eqb Bool.eqb]
      | |- get _ ?x = _ => is_var x; unfold x
      end; rewrite ?iget_remove by discriminate; reflexivity
    | split_and!; [|exact HB|..]; clear HB H]
  end;
  repeat match goal with x := _ |- _ => subst x end; open_guards; first [assumption | lia].

Lemma method_value p e : method_decode p = Ok e ->
  value_fact (record_of (value_names "getter_result") VALUE_FORMAT p) e.
Proof. unfold method_decode. value_tac. Qed.

Lemma token_method_value p e : token_method_decode p = Ok e ->
  value_fact (record_of (value_names "root_members") VALUE_FORMAT p) e.
Proof. unfold token_method_decode. value_tac. Qed.

Lemma target_value p e : target_decode p = Ok e ->
  value_fact (record_of (value_names "target_kind") VALUE_FORMAT p) e.
Proof. unfold target_decode. value_tac. Qed.

Lemma id_value p e : id_decode p = Ok e ->
  value_fact (record_of (value_names "id_kind") VALUE_FORMAT p) e.
Proof. unfold id_decode. value_tac. Qed.

Lemma session_value p e : session_decode p = Ok e ->
  value_fact (record_of session_names SESSION_FORMAT p) e.
Proof. unfold session_decode. value_tac. Qed.

(** The buffer is at offset 80 of the record. *)
Lemma value_at names fmt p : In (names, fmt)
    [(value_names "getter_result", VALUE_FORMAT); (value_names "root_members", VALUE_FORMAT);
     (value_names "target_kind", VALUE_FORMAT); (value_names "id_kind", VALUE_FORMAT);
     (session_names, SESSION_FORMAT)] ->
  bget "value" (record_of names fmt p) = take 64 (drop 80 p).
Proof.
  cbn [In]. intros H. repeat destruct H as [[= <- <-]|H]; [..|done];
    cbn; by rewrite !drop_drop.
Qed.

Lemma keeps_iget names fmt gone p e k : keeps names fmt gone p e -> k ∈ names -> k ∉ gone ->
  iget k e = iget k (record_of names fmt p).
Proof.
  intros [_ H] Hk Hg. rewrite Forall_forall in H. unfold iget. by rewrite (H k Hk Hg).
Qed.

(** The value a decoded record reports, in terms of the record's bytes. *)
Definition reports_value (p : bytes) (e : dict) : Prop :=
  exists v, get "value_hex" e = Some (VStr (hex v)) /\
    take 64 (drop 80 p) = v ++ replicate (64 - length v) 0 /\
    len v = iget "copied_length" e /\
    (iget "status" e = 1 -> len v = iget "original_length" e) /\
    (iget "status" e = 2 -> len v = 64 /\ 64 < iget "original_length" e) /\
    (iget "status" e <> 1 -> iget "status" e <> 2 -> v = []).

Lemma iget_nonneg_U p names fmt k : is_bytes p -> Forall (fun f => exists n, f = U n \/ f = B n) fmt ->
  0 <= iget k (record_of names fmt p).
Proof.
  intros Hp Hf. unfold record_of. revert names p Hp.
  induction Hf as [|f fmt (n & Hn) _ IH]; intros names p Hp; destruct names as [|nm names];
    cbn; try (unfold iget; cbn; lia).
  unfold iget. cbn [get]. destruct (String.eqb k nm); [|apply IH; auto with py].
  destruct Hn as [->| ->]; cbn; [|lia]. apply le_int_bound. auto with py.
Qed.

Lemma reports_value_of names fmt gone p e :
  is_bytes p -> In (names, fmt)
    [(value_names "getter_result", VALUE_FORMAT); (value_names "root_members", VALUE_FORMAT);
     (value_names "target_kind", VALUE_FORMAT); (value_names "id_kind", VALUE_FORMAT);
     (session_names, SESSION_FORMAT)] ->
  keeps names fmt gone p e -> gone = ["value"] \/ gone = ["value"; "address"] ->
  value_fact (record_of names fmt p) e -> reports_value p e.
Proof.
  intros Hp Hin Hk Hg (Hz & Hv & H64 & H1 & H2 & H3). pose proof Hk as [Hl _].
  assert (144 <= len p) as Hlen.
  { rewrite Hl. cbn [In] in Hin. by repeat destruct Hin as [[= <- <-]|Hin]; [..|done]. }
  assert (forall k, In k ["status"; "original_length"; "copied_length"] ->
    iget k (record_of names fmt p) = iget k e /\ 0 <= iget k (record_of names fmt p)) as Hi.
  { intros k Hkin. split.
    - symmetry. eapply keeps_iget; [exact Hk| |].
      + cbn [In] in Hin, Hkin. repeat destruct Hin as [[= <- <-]|Hin]; [..|done];
          repeat destruct Hkin as [<-|Hkin]; try done; by apply mem_str_elem.
      + rewrite <- mem_str_elem. destruct Hg as [->| ->]; cbn [In] in Hkin;
          repeat destruct Hkin as [<-|Hkin]; done.
    - apply iget_nonneg_U; [done|]. cbn [In] in Hin.
      repeat destruct Hin as [[= <- <-]|Hin]; [..|done]; repeat constructor; eauto. }
  rewrite (value_at names fmt p Hin) in *.
  destruct (Hi "copied_length" ltac:(by right; right; left)) as [E1 N1].
  rewrite E1 in *.
  unfold reports_value. rewrite <- (proj1 (Hi "status" ltac:(by left))),
    <- (proj1 (Hi "original_length" ltac:(by right; left))).
  assert (length (take 64 (drop 80 p)) = 64%nat) as L64.
  { rewrite length_take, length_drop. unfold len in Hlen. lia. }
  set (n := iget "copied_length" e) in *. exists (ztake n (take 64 (drop 80 p))).
  assert (len (ztake n (take 64 (drop 80 p))) = n) as Ln.
  { unfold len. rewrite ztake_take, length_take, L64. lia. }
  split_and!; [done| |done|..].
  - rewrite (any_from_replicate n _ Hz N1) at 1. do 2 f_equal. rewrite L64. unfold len in Ln. lia.
  - intros Hs. rewrite Ln. auto.
  - intros Hs. rewrite Ln. auto.
  - intros Hs Hs'. rewrite (H3 Hs Hs'). by destruct (take 64 (drop 80 p)).
Qed.

(** ** The flow variant of the ID record *)

Lemma get_update k u d : k ∉ map fst u -> get k (update u d) = get k d.
Proof.
  unfold update. revert d. induction u as [|[k' v] u IH]; intros d Hk; [done|].
  cbn [map fst] in Hk. cbn [fold_left fst snd]. rewrite IH by set_solver.
  rewrite get_set_ne; [done|set_solver].
Qed.

(** The record [id_flow_decode] hands to [id_decode]. *)
Definition flow_base (p : bytes) : bytes :=
  splice 72 (le_bytes 2 (Z.land (le_int (slice 72 74 p)) 15))
    (splice 0 (le_bytes 4 0x4d534749) p).

Lemma id_flow_inv p e : id_flow_decode p = Ok e ->
  len p = 144 /\ le_int (ztake 4 p) = ID_FLOW_MAGIC /\
  get "wire_flags" e = Some (VInt (le_int (slice 72 74 p))) /\
  exists ev, id_decode (flow_base p) = Ok ev /\
    forall k, mem_str k ["magic"; "wire_flags"; "flow_side"; "flow_side_name"; "flow_status";
                         "flow_status_name"] = false -> get k e = get k ev.
Proof.
  unfold id_flow_decode. intros H.
  destruct (negb (len p =? 144) || _ || _) eqn:G0; [done|]. cbv zeta in H.
  destruct (_ || _) in H; [done|]. fold (flow_base p) in H.
  destruct (id_decode (flow_base p)) as [ev|] eqn:Hev; [|done]. apply Ok_inj in H.
  split_and!; [lia|lia| |].
  - rewrite <- H. unfold update. cbn [fold_left fst snd]. rewrite !get_set. done.
  - exists ev. split; [done|]. intros k Hk. rewrite <- H. apply get_update.
    cbn [map fst]. rewrite <- mem_str_elem. by rewrite Hk.
Qed.

Lemma flow_base_eq p : len p = 144 ->
  flow_base p = le_bytes 4 0x4d534749 ++ slice 4 72 p ++
    le_bytes 2 (Z.land (le_int (slice 72 74 p)) 15) ++ drop 74 p.
Proof.
  intros Hl. unfold len in Hl. unfold flow_base, splice. rewrite take_0, !length_le_bytes.
  cbn [app]. rewrite slice_take_drop. change (Z.to_nat (72 - 4)) with 68%nat.
  change (Z.to_nat 4) with 4%nat. change (0 + 4)%nat with 4%nat. change (72 + 2)%nat with 74%nat.
  rewrite take_app, length_le_bytes, drop_app, length_le_bytes.
  rewrite (take_ge (le_bytes 4 _)) by (rewrite length_le_bytes; lia).
  rewrite (drop_ge (le_bytes 4 _)) by (rewrite length_le_bytes; lia).
  change (72 - 4)%nat with 68%nat. change (74 - 4)%nat with 70%nat.
  rewrite drop_drop, <- app_assoc, (slice_take_drop 4 72). reflexivity.
Qed.

Lemma is_bytes_flow_base p : is_bytes p -> len p = 144 -> is_bytes (flow_base p).
Proof.
  intros Hp Hl. rewrite flow_base_eq by done. rewrite !is_bytes_app.
  split_and!; auto with py.
Qed.

(** ** Claims *)

Definition value_decoders : list (bytes -> result dict) :=
  [method_decode; token_method_decode; target_decode; id_decode; id_flow_decode; session_decode].

(** A decoded record never reports a value it does not hold.  [value_hex] is
    the hexadecimal text of a prefix of the record's 64-byte buffer whose rest is
    zero, as long as the record says; a complete value has its full original
    length, a truncated one fills the buffer and was longer, and with any other
    status there is no value. *)
Theorem decoded_value_bounded d p e :
  In d value_decoders -> is_bytes p -> d p = Ok e -> reports_value p e.
Proof.
  cbn [In value_decoders]. intros Hd Hp He.
  repeat destruct Hd as [<-|Hd]; [..|done].
  - eapply reports_value_of; [done| |by apply method_keeps|by left|by apply method_value].
    by left.
  - eapply reports_value_of; [done| |by apply token_method_keeps|by left|by apply token_method_value].
    by right; left.
  - eapply reports_value_of; [done| |by apply target_keeps|by left|by apply target_value].
    by right; right; left.
  - eapply reports_value_of; [done| |by apply id_keeps|by left|by apply id_value].
    by right; right; right; left.
  - destruct (id_flow_inv p e He) as (Hl & _ & _ & ev & Hev & Hk).
    assert (reports_value (flow_base p) ev) as (v & Hv).
    { eapply reports_value_of; [by apply is_bytes_flow_base| |by apply id_keeps|by left
        |by apply id_value]. by right; right; right; left. }
    exists v. unfold iget in *. rewrite !Hk by done.
    replace (drop 80 p) with (drop 80 (flow_base p)); [done|].
    rewrite flow_base_eq by done. unfold len in Hl.
    rewrite !drop_app_ge; autorewrite with py; rewrite ?slice_take_drop, ?length_take, ?length_drop;
      try lia.
    rewrite drop_drop. f_equal. change (Z.to_nat (72 - 4)) with 68%nat.
    change (Z.to_nat 4) with 4%nat. lia.
  - eapply reports_value_of; [done| |by apply session_keeps|by right|by apply session_value].
    by right; right; right; right; left.
Qed.

Lemma decoded_value_bounded_witness :
  exists e, method_decode
    (le_bytes 4 0x4A4D4554 ++ le_bytes 4 1 ++ replicate 48 0 ++ le_bytes 4 1 ++ le_bytes 4 0 ++
     le_bytes 4 2 ++ le_bytes 4 2 ++ le_bytes 8 0 ++ [104; 105] ++ replicate 62 0) = Ok e /\
    reports_value
    (le_bytes 4 0x4A4D4554 ++ le_bytes 4 1 ++ replicate 48 0 ++ le_bytes 4 1 ++ le_bytes 4 0 ++
     le_bytes 4 2 ++ le_bytes 4 2 ++ le_bytes 8 0 ++ [104; 105] ++ replicate 62 0) e.
Proof.
  eexists. split; [vm_compute; reflexivity|].
  apply (decoded_value_bounded method_decode).
  - left. reflexivity.
  - repeat (constructor; [split; vm_compute; congruence|]). constructor.
  - vm_compute. reflexivity.
Defined.

(** ** Losslessness *)

Lemma keeps_agree names fmt gone p1 p2 e1 e2 :
  keeps names fmt gone p1 e1 -> keeps names fmt gone p2 e2 ->
  (forall k, k ∈ names -> k ∉ gone -> get k e1 = get k e2) ->
  forall k, k ∈ names -> k ∉ gone ->
  get k (record_of names fmt p1) = get k (record_of names fmt p2).
Proof.
  intros [_ H1] [_ H2] He k Hk Hg. rewrite Forall_forall in H1, H2.
  rewrite <- (H1 k Hk Hg), <- (H2 k Hk Hg). auto.
Qed.

(** A decoder that keeps every field. *)
Lemma keeps_inj names fmt p1 p2 e : NoDup names -> length names = length fmt ->
  is_bytes p1 -> is_bytes p2 -> keeps names fmt [] p1 e -> keeps names fmt [] p2 e -> p1 = p2.
Proof.
  intros Hn Hl B1 B2 K1 K2. pose proof K1 as [L1 _]. pose proof K2 as [L2 _].
  eapply record_inj; [exact Hn|exact Hl|done..|]. apply Forall_forall. intros k Hk.
  eapply keeps_agree; [exact K1|exact K2|done|done|set_solver].
Qed.

(** The four decoders of the shared value record. *)
Lemma value_inj ninth p1 p2 e1 e2 :
  In ninth ["getter_result"; "root_members"; "target_kind"; "id_kind"] ->
  is_bytes p1 -> is_bytes p2 ->
  keeps (value_names ninth) VALUE_FORMAT ["value"] p1 e1 ->
  keeps (value_names ninth) VALUE_FORMAT ["value"] p2 e2 ->
  value_fact (record_of (value_names ninth) VALUE_FORMAT p1) e1 ->
  value_fact (record_of (value_names ninth) VALUE_FORMAT p2) e2 ->
  (forall k, k ∈ "value_hex" :: value_names ninth -> k <> "value" -> get k e1 = get k e2) ->
  p1 = p2.
Proof.
  intros Hn B1 B2 K1 K2 (Z1 & V1 & _) (Z2 & V2 & _) He.
  pose proof K1 as [L1 _]. pose proof K2 as [L2 _].
  assert (forall k, k ∈ value_names ninth -> k <> "value" ->
    get k (record_of (value_names ninth) VALUE_FORMAT p1) =
    get k (record_of (value_names ninth) VALUE_FORMAT p2)) as Hk.
  { intros k Hk Hv. eapply keeps_agree; [exact K1|exact K2| |done|by rewrite list_elem_of_singleton].
    intros k' Hk' Hv'. rewrite list_elem_of_singleton in Hv'. apply He; [by right|done]. }
  assert (forall q, bget "value" (record_of (value_names ninth) VALUE_FORMAT q)
    = take 64 (drop 80 q)) as Hb.
  { intros q. apply value_at. cbn [In] in *.
    repeat destruct Hn as [<-|Hn]; [..|done]; tauto. }
  assert (forall q, get "value" (record_of (value_names ninth) VALUE_FORMAT q) =
    Some (VBytes (bget "value" (record_of (value_names ninth) VALUE_FORMAT q)))) as Hg.
  { intros q. cbn [In] in Hn. by repeat destruct Hn as [<-|Hn]; [..|done]. }
  assert ("copied_length" ∈ value_names ninth) as Hcl.
  { apply list_elem_of_In. cbn. do 11 right. by left. }
  pose proof (Hk "copied_length" Hcl ltac:(discriminate)) as Hc.
  eapply (record_inj (value_names ninth) VALUE_FORMAT); [|reflexivity|exact B1|exact B2|exact L1|exact L2|].
  - cbn [In] in Hn. repeat destruct Hn as [<-|Hn]; [..|done];
      apply (bool_decide_eq_true_1 _); by vm_compute.
  - apply Forall_forall. intros k Hkn. destruct (decide (k = "value")) as [->|Hv]; [|auto].
    rewrite !Hg. do 2 f_equal.
    assert (iget "copied_length" (record_of (value_names ninth) VALUE_FORMAT p1) =
      iget "copied_length" (record_of (value_names ninth) VALUE_FORMAT p2)) as Hn'
      by (unfold iget; by rewrite Hc).
    rewrite (He "value_hex" ltac:(left) ltac:(discriminate)), V2 in V1. rewrite Hn' in V1, Z1.
    rewrite !Hb in *. symmetry. eapply bounded_value_inj; [..|by injection V1]; auto with py.
    + rewrite !length_take, !length_drop. unfold len in *. lia.
    + apply iget_nonneg_U; [done|]. repeat constructor; eauto.
Qed.

Lemma unpack_take fmt p : unpack fmt (take (calcsize (map fsize fmt)) p) = unpack fmt p.
Proof.
  revert p. induction fmt as [|f fmt IH]; intros p; [done|]. cbn [unpack map calcsize fold_right].
  fold (calcsize (map fsize fmt)). f_equal.
  - f_equal. rewrite take_take. f_equal. lia.
  - rewrite <- (IH (drop (fsize f) p)). f_equal.
    by rewrite skipn_firstn_comm, Nat.add_comm, Nat.add_sub.
Qed.

Lemma record_of_take names fmt p :
  record_of names fmt (take (calcsize (map fsize fmt)) p) = record_of names fmt p.
Proof. unfold record_of. by rewrite unpack_take. Qed.

(** The fields of a TLS block that was accepted, from what is reported. *)
Lemma bits_inj a b : 0 <= a -> 0 <= b -> Z.shiftr a 8 = 0 -> Z.shiftr b 8 = 0 ->
  Forall (fun i => Z.testbit a i = Z.testbit b i) [0; 1; 2; 3; 4; 5; 6; 7] -> a = b.
Proof.
  intros Ha Hb Sa Sb H. apply Z.bits_inj'. intros i Hi.
  destruct (Z.lt_ge_cases i 8) as [Hlt|Hge].
  - rewrite Forall_forall in H. apply H.
    assert (i = 0 \/ i = 1 \/ i = 2 \/ i = 3 \/ i = 4 \/ i = 5 \/ i = 6 \/ i = 7) by lia.
    set_solver.
  - replace i with (i - 8 + 8) by lia. rewrite <- !Z.shiftr_spec by lia. by rewrite Sa, Sb.
Qed.

Lemma table_inj {A} (l : list (Z * A)) a b x : NoDup (map snd l) -> assoc a l = Some x ->
  assoc b l = Some x -> a = b.
Proof.
  induction l as [|[k v] l IH]; simpl; [done|]. intros Hn Ha Hb.
  apply NoDup_cons in Hn as [Hv Hn].
  assert (forall z y, assoc z l = Some y -> y ∈ map snd l) as Hin.
  { intros z y Hz. apply assoc_in in Hz. apply list_elem_of_fmap.
    exists (z, y). by rewrite list_elem_of_In. }
  destruct (Z.eqb_spec a k), (Z.eqb_spec b k); subst; try done.
  - simplify_eq. by apply Hin in Hb.
  - simplify_eq. by apply Hin in Ha.
  - auto.
Qed.

Lemma name_of_inj l a b : NoDup (map snd l) -> in_table a l = true -> in_table b l = true ->
  name_of a l = name_of b l -> a = b.
Proof.
  unfold in_table, name_of. intros Hn Ha Hb H.
  destruct (assoc a l) as [x|] eqn:Ea; [|done]. destruct (assoc b l) as [y|] eqn:Eb; [|done].
  injection H as ->. by eapply table_inj.
Qed.

Lemma reasons_inj a b : in_table a TLS_REASONS = true -> in_table b TLS_REASONS = true ->
  default VNone (assoc a TLS_REASONS) = default VNone (assoc b TLS_REASONS) -> a = b.
Proof.
  rewrite !in_table_In. cbn [map fst TLS_REASONS In]. intros Ha Hb H.
  repeat destruct Ha as [<-|Ha]; try done; repeat destruct Hb as [<-|Hb]; done.
Qed.

(** The eight words of an accepted TLS block are all in what is reported. *)
Lemma decode_tls_inv p t : decode_tls p = Ok t ->
  let r := record_of tls_names TLS_FORMAT p in
  in_table (iget "mode" r) TLS_MODES = true /\
  in_table (iget "reason" r) TLS_REASONS = true /\
  in_table (iget "pcm" r) CERT_MODES = true /\ Z.shiftr (iget "bits" r) 8 = 0 /\
  get "mode" t = Some (name_of (iget "mode" r) TLS_MODES) /\
  get "filter_nodes" t = Some (VInt (iget "nodes" r)) /\
  (iget "mode" r = 4 -> get "reason" t = Some (default VNone (assoc (iget "reason" r) TLS_REASONS))) /\
  (iget "mode" r <> 4 -> iget "reason" r = 0) /\
  (iget "mode" r = 1 \/ iget "mode" r = 2 ->
     get "protocol_number" t = Some (VInt (iget "proto" r)) /\
     get "cipher_suite_id" t = Some (VInt (iget "suite" r)) /\
     get "peer_cert_mode" t = Some (name_of (iget "pcm" r) CERT_MODES) /\
     get "verify_result" t = Some (VInt (iget "vfy" r)) /\
     get "flags" t = Some (VDict (imap (fun i name => (name, VBool (bit (iget "bits" r) (Z.of_nat i))))
                                  TLS_BITS))) /\
  (iget "mode" r <> 1 -> iget "mode" r <> 2 ->
     iget "bits" r = 0 /\ iget "proto" r = 0 /\ iget "suite" r = 0 /\ iget "pcm" r = 0 /\
     iget "vfy" r = 0).
Proof.
  unfold decode_tls. intros H. cbv zeta. remember (record_of tls_names TLS_FORMAT p) as r.
  cbv zeta in H. guards H.
  assert (forall o, (if iget "mode" r =? 4 then set "reason" o
      [("mode", name_of (iget "mode" r) TLS_MODES); ("filter_nodes", VInt (iget "nodes" r))]
    else [("mode", name_of (iget "mode" r) TLS_MODES); ("filter_nodes", VInt (iget "nodes" r))])
    = [("mode", name_of (iget "mode" r) TLS_MODES); ("filter_nodes", VInt (iget "nodes" r))] ++
      (if iget "mode" r =? 4 then [("reason", o)] else [])) as Hout
    by (intros; by destruct (iget "mode" r =? 4)).
  rewrite Hout in H. clear Hout.
  change (len TLS_BITS) with 8 in G.
  open_guards. repeat match goal with G : negb _ = false |- _ => apply negb_false_iff in G end.
  split_and!; try assumption; try lia.
  all: destruct ((iget "mode" r =? 1) || ((iget "mode" r =? 2) || false)) eqn:Hd.
  all: apply Ok_inj in H; rewrite <- H; clear H.
  all: destruct (Z.eqb_spec (iget "mode" r) 4) as [E4|E4]; try (exfalso; lia).
  all: unfold update; cbn [app fold_left fst snd]; rewrite ?get_set; cbn.
  all: first [reflexivity | lia | intros; split_and!; reflexivity || lia].
Qed.

(** The fields of a TLS record as one list. *)
Lemma tls_record_inj p q : is_bytes p -> is_bytes q -> len p = 32 -> len q = 32 ->
  Forall (fun k => iget k (record_of tls_names TLS_FORMAT p) =
                   iget k (record_of tls_names TLS_FORMAT q)) tls_names -> p = q.
Proof.
  intros Bp Bq Lp Lq H. eapply (record_inj tls_names TLS_FORMAT); try done.
  - apply (bool_decide_eq_true_1 _). by vm_compute.
  - unfold tls_names in H. repeat apply Forall_cons in H as [? H].
    repeat constructor; cbn in *; congruence.
Qed.

Lemma decode_tls_inj p q t : is_bytes p -> is_bytes q -> len p = 32 -> len q = 32 ->
  decode_tls p = Ok t -> decode_tls q = Ok t -> p = q.
Proof.
  intros Bp Bq Lp Lq Hp Hq. apply tls_record_inj; [done..|].
  assert (forall k x, is_bytes x -> 0 <= iget k (record_of tls_names TLS_FORMAT x)) as Hnn.
  { intros k x Hx. apply iget_nonneg_U; [done|]. repeat constructor; eauto. }
  pose proof (Hnn "bits" p Bp) as Nb. pose proof (Hnn "bits" q Bq) as Nb'. clear Hnn.
  apply decode_tls_inv in Hp as (M1 & R1 & C1 & S1 & Gm1 & Gn1 & Gr1 & Z1 & D1 & E1).
  apply decode_tls_inv in Hq as (M2 & R2 & C2 & S2 & Gm2 & Gn2 & Gr2 & Z2 & D2 & E2).
  remember (record_of tls_names TLS_FORMAT p) as r1. remember (record_of tls_names TLS_FORMAT q) as r2.
  assert (iget "mode" r1 = iget "mode" r2) as Em.
  { apply (name_of_inj TLS_MODES); [|done|done|congruence].
    apply (bool_decide_eq_true_1 _). by vm_compute. }
  assert (iget "nodes" r1 = iget "nodes" r2) as En by congruence.
  assert (iget "reason" r1 = iget "reason" r2) as Er.
  { destruct (decide (iget "mode" r1 = 4)) as [E4|E4].
    - apply reasons_inj; [done|done|]. rewrite (Gr1 E4) in Gr2. specialize (Gr2 ltac:(lia)). congruence.
    - rewrite (Z1 E4), Z2; lia. }
  assert (iget "bits" r1 = iget "bits" r2 /\ iget "proto" r1 = iget "proto" r2 /\
    iget "suite" r1 = iget "suite" r2 /\ iget "pcm" r1 = iget "pcm" r2 /\
    iget "vfy" r1 = iget "vfy" r2) as (Eb & Ep & Es & Ec & Ev).
  { destruct (decide (iget "mode" r1 = 1 \/ iget "mode" r1 = 2)) as [Hd|Hd].
    - destruct (D1 Hd) as (P1 & U1 & K1 & V1 & F1). rewrite Em in Hd.
      destruct (D2 Hd) as (P2 & U2 & K2 & V2 & F2). split_and!; try congruence.
      + rewrite F1 in F2. injection F2 as B0 B1 B2 B3 B4 B5 B6 B7.
        apply bits_inj; [done..|]. repeat constructor; done.
      + apply (name_of_inj CERT_MODES); [|done|done|congruence].
        apply (bool_decide_eq_true_1 _). by vm_compute.
    - destruct E1 as (-> & -> & -> & -> & ->); [tauto..|].
      destruct E2 as (-> & -> & -> & -> & ->); [rewrite <- Em; tauto..|done]. }
  by repeat constructor.
Qed.

Lemma response_inv p e : response_decode p = Ok e ->
  let r := record_of response_names RESPONSE_FORMAT p in
  Forall (fun k => get k e = get k r) response_names /\
  (iget "abi" r <> 2 -> len p = 96) /\
  (iget "abi" r = 2 -> len p = 128 /\ exists t,
     decode_tls (zdrop 96 p) = Ok t /\ get "client_tls" e = Some (VDict t)).
Proof.
  unfold response_decode. intros H. cbv zeta.
  remember (record_of response_names RESPONSE_FORMAT p) as r.
  change (fmt_size RESPONSE_FORMAT) with 96 in H. change (fmt_size TLS_FORMAT) with 32 in H.
  change (96 + 32) with 128 in H. cbv zeta in H.
  guards H.
  assert ((iget "abi" r <> 2 -> len p = 96) /\ (iget "abi" r = 2 -> len p = 128)) as [L1 L2].
  { clear - G0. cbv beta delta [eqf mem_Z] in G0. cbn [existsb] in G0.
    repeat (apply orb_false_iff in G0 as [G0 ?]).
    destruct (iget "abi" r =? 1) eqn:?; lia. }
  destruct (eqf r "abi" 2) eqn:E2; apply Z.eqb_eq in E2 || apply Z.eqb_neq in E2.
  - destruct (decode_tls (zdrop 96 p)) as [t|] eqn:Ht; [|done]. guards H.
    apply Ok_inj in H. rewrite <- H. split_and!; [|done|].
    + unfold response_names. repeat apply Forall_cons_2; [..|apply Forall_nil_2];
        rewrite !get_set; cbn [String.eqb Ascii.eqb Bool.eqb]; reflexivity.
    + intros _. split; [by apply L2|]. exists t. split; [done|].
      rewrite !get_set. reflexivity.
  - apply Ok_inj in H. rewrite <- H. split_and!; [|by auto|done].
    unfold response_names. repeat apply Forall_cons_2; [..|apply Forall_nil_2];
      rewrite !get_set; cbn [String.eqb Ascii.eqb Bool.eqb]; reflexivity.
Qed.

Lemma response_inj p q e : is_bytes p -> is_bytes q ->
  response_decode p = Ok e -> response_decode q = Ok e -> p = q.
Proof.
  intros Bp Bq Hp Hq.
  apply response_inv in Hp as (K1 & A1 & T1). apply response_inv in Hq as (K2 & A2 & T2).
  assert (Forall (fun k => get k (record_of response_names RESPONSE_FORMAT p) =
    get k (record_of response_names RESPONSE_FORMAT q)) response_names) as Hf.
  { rewrite Forall_forall in K1, K2. apply Forall_forall. intros k Hk.
    rewrite <- (K1 k Hk), <- (K2 k Hk). done. }
  assert (iget "abi" (record_of response_names RESPONSE_FORMAT p) =
    iget "abi" (record_of response_names RESPONSE_FORMAT q)) as Eabi.
  { rewrite Forall_forall in Hf. unfold iget. rewrite (Hf "abi"); [done|].
    by apply mem_str_elem. }
  assert (96 <= len p /\ 96 <= len q) as [Lp Lq]
    by (destruct (decide (iget "abi" (record_of response_names RESPONSE_FORMAT q) = 2)); lia).
  assert (take 96 p = take 96 q) as Ht.
  { eapply (record_inj response_names RESPONSE_FORMAT); auto with py.
    - apply (bool_decide_eq_true_1 _). by vm_compute.
    - unfold len in *. rewrite length_take. change (fmt_size RESPONSE_FORMAT) with 96. lia.
    - unfold len in *. rewrite length_take. change (fmt_size RESPONSE_FORMAT) with 96. lia.
    - by rewrite !(record_of_take response_names RESPONSE_FORMAT). }
  rewrite <- (take_drop 96 p), <- (take_drop 96 q), Ht. f_equal.
  destruct (decide (iget "abi" (record_of response_names RESPONSE_FORMAT q) = 2)) as [E|E].
  - destruct (T2 E) as (L2 & t2 & D2 & G2). rewrite <- Eabi in E.
    destruct (T1 E) as (L1 & t1 & D1 & G1). rewrite G1 in G2. simplify_eq.
    rewrite zdrop_drop in D1, D2. change (Z.to_nat 96) with 96%nat in *.
    eapply decode_tls_inj; [..|exact D1|exact D2]; auto with py;
      unfold len in *; rewrite length_drop; lia.
  - specialize (A2 E). rewrite <- Eabi in E. specialize (A1 E). unfold len in *.
    rewrite !drop_ge by lia. done.
Qed.

(** The address of a routing record: reported, or all zero. *)
Lemma session_address p e : session_decode p = Ok e ->
  let r := record_of session_names SESSION_FORMAT p in
  (iget "endpoint_status" r = 1 -> get "address_hex" e = Some (VStr (hex (bget "address" r)))) /\
  (iget "endpoint_status" r <> 1 -> any_from 0 (bget "address" r) = false).
Proof.
  unfold session_decode. intros H. guards H. apply Ok_inj in H. cbv zeta.
  rewrite !iget_remove in G6 by discriminate.
  remember (iget "endpoint_status" (record_of session_names SESSION_FORMAT p)) as endpoint eqn:Ee.
  split.
  - intros E1. rewrite <- H.
    repeat (rewrite get_set; cbn [String.eqb Ascii.eqb Bool.eqb]).
    rewrite !iget_remove by discriminate. by rewrite <- Ee, E1.
  - intros E1. apply Z.eqb_neq in E1. rewrite E1 in G6. cbn [negb andb] in G6.
    by apply orb_false_iff in G6 as [[? _]%orb_false_iff _].
Qed.

Lemma session_inj p q e : is_bytes p -> is_bytes q ->
  session_decode p = Ok e -> session_decode q = Ok e -> p = q.
Proof.
  intros Bp Bq Hp Hq.
  pose proof (session_keeps p e Hp) as K1. pose proof (session_keeps q e Hq) as K2.
  pose proof (session_value p e Hp) as (Z1 & V1 & _).
  pose proof (session_value q e Hq) as (Z2 & V2 & _).
  pose proof (session_address p e Hp) as [A1 B1]. pose proof (session_address q e Hq) as [A2 B2].
  pose proof K1 as [L1 _]. pose proof K2 as [L2 _]. change (fmt_size SESSION_FORMAT) with 168 in *.
  assert (forall k, k ∈ session_names -> k ∉ ["value"; "address"] ->
    get k (record_of session_names SESSION_FORMAT p) =
    get k (record_of session_names SESSION_FORMAT q)) as Hk
    by (eapply keeps_agree; [exact K1|exact K2|done]).
  assert (forall k, mem_str k session_names = true -> mem_str k ["value"; "address"] = false ->
    iget k (record_of session_names SESSION_FORMAT p) =
    iget k (record_of session_names SESSION_FORMAT q)) as Hi.
  { intros k Hk1 Hk2. unfold iget. rewrite (Hk k); [done|by apply mem_str_elem|].
    rewrite <- mem_str_elem. by rewrite Hk2. }
  assert (forall x, bget "value" (record_of session_names SESSION_FORMAT x) = take 64 (drop 80 x))
    as Hv by (intros x; apply value_at; cbn [In]; tauto).
  assert (forall x, bget "address" (record_of session_names SESSION_FORMAT x) = take 16 (drop 144 x))
    as Ha by (intros x; cbn; by rewrite !drop_drop).
  assert (take 64 (drop 80 p) = take 64 (drop 80 q)) as Ev.
  { rewrite V1 in V2. rewrite (Hi "copied_length" eq_refl eq_refl), !Hv in *.
    eapply bounded_value_inj; [..|by injection V2]; auto with py.
    - rewrite !length_take, !length_drop. unfold len in *. lia.
    - apply iget_nonneg_U; [done|]. repeat constructor; eauto. }
  assert (take 16 (drop 144 p) = take 16 (drop 144 q)) as Ea.
  { rewrite (Hi "endpoint_status" eq_refl eq_refl), !Ha in *.
    destruct (decide (iget "endpoint_status" (record_of session_names SESSION_FORMAT q) = 1)) as [E|E].
    - apply hex_inj; [auto with py..|]. specialize (A1 E). specialize (A2 E). congruence.
    - rewrite (any_from_replicate 0 _ (B1 E)), (any_from_replicate 0 _ (B2 E)) by lia.
      rewrite !ztake_take. cbn [take app].
      rewrite !length_take, !length_drop. unfold len in *. by replace (length p) with (length q) by lia. }
  eapply (record_inj session_names SESSION_FORMAT); [|done..|].
  - apply (bool_decide_eq_true_1 _). by vm_compute.
  - apply Forall_forall. intros k Hkn. destruct (decide (k = "value")) as [->|Nv].
    { cbn. rewrite !drop_drop. cbn. by rewrite Ev. }
    destruct (decide (k = "address")) as [->|Na].
    { cbn. rewrite !drop_drop. cbn. by rewrite Ea. }
    apply Hk; [done|]. rewrite !not_elem_of_cons. split_and!; [done..|]. apply not_elem_of_nil.
Qed.

Lemma id_flow_inj p q e : is_bytes p -> is_bytes q ->
  id_flow_decode p = Ok e -> id_flow_decode q = Ok e -> p = q.
Proof.
  intros Bp Bq Hp Hq.
  apply id_flow_inv in Hp as (L1 & M1 & W1 & e1 & D1 & K1).
  apply id_flow_inv in Hq as (L2 & M2 & W2 & e2 & D2 & K2).
  assert (slice 72 74 p = slice 72 74 q) as Ef.
  { apply le_int_inj; auto with py; [|congruence].
    unfold len in *. rewrite !slice_take_drop, !length_take, !length_drop. lia. }
  assert (ztake 4 p = ztake 4 q) as Em.
  { rewrite !ztake_take in *. apply le_int_inj; auto with py; [|congruence].
    unfold len in *. rewrite !length_take. lia. }
  assert (flow_base p = flow_base q) as Eb.
  { eapply (value_inj "id_kind"); [cbn; tauto|by apply is_bytes_flow_base..| | | | |];
      [by apply id_keeps|by apply id_keeps|by apply id_value|by apply id_value|].
    intros k Hk Hv. destruct (decide (k = "magic")) as [->|Hm].
    - assert (forall x ev, id_decode x = Ok ev -> get "magic" ev = Some (VInt 0x4d534749)) as Hmag;
        [|by rewrite (Hmag _ _ D1), (Hmag _ _ D2)].
      intros x ev Hx. pose proof (id_keeps _ _ Hx) as [_ Hkp]. apply Forall_inv in Hkp.
      rewrite Hkp by (rewrite list_elem_of_singleton; discriminate).
      unfold id_decode in Hx. guards Hx. cbn. cbn in G0.
      repeat (apply orb_false_iff in G0 as [G0 _]).
      apply negb_false_iff, Z.eqb_eq in G0. by rewrite <- G0.
    - rewrite <- K1, <- K2; [done|..]; cbn [value_names] in Hk; clear - Hk Hm;
        apply list_elem_of_In in Hk; cbn [In] in Hk;
        repeat destruct Hk as [<-|Hk]; done. }
  rewrite !flow_base_eq in Eb by done.
  apply app_inj_1 in Eb as [_ Eb]; [|done].
  apply app_inj_1 in Eb as [E4 Eb]; [|unfold len in *; rewrite !slice_take_drop, !length_take, !length_drop; lia].
  apply app_inj_1 in Eb as [_ E74]; [|by rewrite !length_le_bytes].
  rewrite !ztake_take in Em. change (Z.to_nat 4) with 4%nat in Em.
  rewrite <- (take_drop 4 p), <- (take_drop 4 q), Em. f_equal.
  rewrite <- (take_drop 68 (drop 4 p)), <- (take_drop 68 (drop 4 q)).
  rewrite !slice_take_drop in E4. change (Z.to_nat (72 - 4)) with 68%nat in E4.
  change (Z.to_nat 4) with 4%nat in E4. rewrite E4. f_equal.
  rewrite <- (take_drop 2 (drop 68 (drop 4 p))), <- (take_drop 2 (drop 68 (drop 4 q))).
  rewrite !drop_drop. rewrite !slice_take_drop in Ef. f_equal; done.
Qed.

(** Every decoder of a single record; the one of metadata records is given the
    event names of the build. *)
Definition record_decoders (event_names : dict) : list (bytes -> result dict) :=
  [method_decode; token_method_decode; target_decode; id_decode; id_flow_decode;
   initialization_decode; boundary_decode; reply_decode; response_decode; session_decode;
   metadata_decode event_names].

(** C3: every record decoder is lossless: two records that decode to the same
    dict are the same bytes, so nothing the probe wrote is dropped on the way
    to the event.  A decoder that is given event names keeps the code beside
    the name, whatever the names. *)
Theorem decoders_lossless names d p q e : In d (record_decoders names) -> is_bytes p -> is_bytes q ->
  d p = Ok e -> d q = Ok e -> p = q.
Proof.
  cbn [In record_decoders]. intros Hd Bp Bq Hp Hq.
  repeat destruct Hd as [<-|Hd]; [..|done].
  - eapply (value_inj "getter_result"); eauto using method_keeps, method_value. cbn; tauto.
  - eapply (value_inj "root_members"); eauto using token_method_keeps, token_method_value.
    cbn; tauto.
  - eapply (value_inj "target_kind"); eauto using target_keeps, target_value. cbn; tauto.
  - eapply (value_inj "id_kind"); eauto using id_keeps, id_value. cbn; tauto.
  - by eapply id_flow_inj.
  - eapply keeps_inj; [..|by apply initialization_keeps|by apply initialization_keeps]; try done.
    apply (bool_decide_eq_true_1 _). by vm_compute.
  - eapply keeps_inj; [..|by apply boundary_keeps|by apply boundary_keeps]; try done.
    apply (bool_decide_eq_true_1 _). by vm_compute.
  - eapply keeps_inj; [..|by apply reply_keeps|by apply reply_keeps]; try done.
    apply (bool_decide_eq_true_1 _). by vm_compute.
  - by eapply response_inj.
  - by eapply session_inj.
  - eapply keeps_inj; [..|by eapply metadata_keeps|by eapply metadata_keeps]; try done.
    apply (bool_decide_eq_true_1 _). by vm_compute.
Qed.

Definition abort_record : bytes :=
  le_bytes 4 0x5253504d ++ le_bytes 4 1 ++ replicate 48 0 ++ le_bytes 4 1 ++ replicate 36 0.

Lemma decoders_lossless_witness : exists e, response_decode abort_record = Ok e /\
  forall q, is_bytes q -> response_decode q = Ok e -> abort_record = q.
Proof.
  eexists. split; [vm_compute; reflexivity|]. intros q Bq Hq.
  refine (decoders_lossless [] response_decode abort_record q _ _ _ Bq _ Hq).
  - do 8 right. left. reflexivity.
  - repeat (constructor; [split; vm_compute; congruence|]). constructor.
  - vm_compute. reflexivity.
Defined.
