(* ===== verification/DecodersWire.v ===== *)
(** * The numeric-ID expression and the group frame

    [NUMBER.fullmatch] of message_id_decode.py accepts exactly the JSON number
    grammar; [unwrap] of activity_group_decode.py splits a frame into its key
    and the record it carries. *)

From S2P Require Import Prelude PyVal Decoders.

(** ** The grammar of a JSON number *)

Definition all_digits (ds : bytes) : Prop := Forall (fun c => digit_byte c = true) ds.

Inductive json_sign : bytes -> Prop :=
| sign_none : json_sign []
| sign_minus : json_sign [45].

Inductive json_int : bytes -> Prop :=
| int_zero : json_int [48]
| int_pos d ds : 49 <= d <= 57 -> all_digits ds -> json_int (d :: ds).

Inductive json_frac : bytes -> Prop :=
| frac_none : json_frac []
| frac_some ds : ds <> [] -> all_digits ds -> json_frac (46 :: ds).

Inductive json_exp : bytes -> Prop :=
| exp_none : json_exp []
| exp_some e s ds : e = 101 \/ e = 69 -> s = [] \/ s = [43] \/ s = [45] -> ds <> [] ->
    all_digits ds -> json_exp (e :: s ++ ds).

Definition json_number (b : bytes) : Prop := exists s i f e,
  json_sign s /\ json_int i /\ json_frac f /\ json_exp e /\ b = s ++ i ++ f ++ e.

(** The text does not go on with a digit. *)
Definition no_digit (b : bytes) : Prop :=
  match b with c :: _ => digit_byte c = false | [] => True end.

Lemma skip_digits_app ds r : all_digits ds -> no_digit r -> skip_digits (ds ++ r) = r.
Proof.
  induction 1 as [|d ds Hd _ IH]; intros Hr; simpl.
  - destruct r as [|c t]; simpl in *; [done|]. by rewrite Hr.
  - rewrite Hd. auto.
Qed.

Lemma skip_digits_inv b : exists ds, all_digits ds /\ b = ds ++ skip_digits b /\
  no_digit (skip_digits b).
Proof.
  induction b as [|c b (ds & Hd & Hb & Hn)]; simpl; [by exists []; split; [constructor|]|].
  destruct (digit_byte c) eqn:E.
  - exists (c :: ds). split_and!; [by constructor|by rewrite Hb at 1|done].
  - exists []. split_and!; [constructor|done|done].
Qed.

Lemma digits1_app ds r : ds <> [] -> all_digits ds -> no_digit r -> digits1 (ds ++ r) = Some r.
Proof.
  intros Hne Hd Hr. destruct Hd as [|d ds Hd Hds]; [done|]. simpl. rewrite Hd.
  by rewrite skip_digits_app.
Qed.

Lemma digits1_inv b r : digits1 b = Some r ->
  exists ds, ds <> [] /\ all_digits ds /\ b = ds ++ r /\ no_digit r.
Proof.
  destruct b as [|c t]; simpl; [done|]. destruct (digit_byte c) eqn:E; [|done]. intros [= <-].
  destruct (skip_digits_inv t) as (ds & Hd & Ht & Hn). exists (c :: ds).
  split_and!; [done|by constructor|by rewrite Ht at 1|done].
Qed.

Lemma match_exp_iff b : match_exp b = true <-> json_exp b.
Proof.
  split.
  - destruct b as [|c t]; cbn [match_exp]; [by constructor|].
    intros [Hc H]%andb_true_iff.
    assert (c = 101 \/ c = 69) as Hc' by lia.
    assert (exists s d, (s = [] \/ s = [43] \/ s = [45]) /\ t = s ++ d /\
      match digits1 d with Some [] => true | _ => false end = true) as (s & d & Hs & -> & Hd).
    { destruct t as [|x t]; [by exists [], []; auto|].
      destruct ((x =? 43) || (x =? 45)) eqn:Ex; [|by exists [], (x :: t); auto].
      exists [x], t. split_and!; [|done|done]. destruct (Z.eqb_spec x 43) as [->|]; [auto|].
      simpl in Ex. apply Z.eqb_eq in Ex as ->. auto. }
    destruct (digits1 d) as [[|]|] eqn:E; try done.
    apply digits1_inv in E as (ds & Hne & Hds & -> & _). rewrite app_nil_r. by constructor.
  - destruct 1 as [|e s ds He Hs Hne Hds]; [done|]. cbn [match_exp].
    apply andb_true_iff. split; [lia|].
    assert (digits1 ds = Some []) as Hd
      by (rewrite <- (app_nil_r ds); by apply digits1_app).
    destruct Hs as [->|[->| ->]]; cbn [app];
      try (change (match digits1 ds with Some [] => true | _ => false end = true); by rewrite Hd).
    destruct ds as [|x ds]; [done|]. apply Forall_cons_1 in Hds as [Hx _].
    unfold digit_byte in Hx. destruct ((x =? 43) || (x =? 45)) eqn:Ex; [lia|]. by rewrite Hd.
Qed.

Lemma json_exp_no_digit b : json_exp b -> no_digit b /\ head b <> Some 46.
Proof. destruct 1 as [|e s ds [->| ->]]; done. Qed.

Lemma match_frac_iff b : match_frac b = true <->
  exists f e, json_frac f /\ json_exp e /\ b = f ++ e.
Proof.
  split.
  - destruct b as [|c t]; [by exists [], []; split; [constructor|split; [constructor|]]|].
    cbn [match_frac]. destruct (Z.eqb_spec c 46) as [->|Hc].
    + destruct (digits1 t) as [r|] eqn:E; [|done]. intros H%match_exp_iff.
      apply digits1_inv in E as (ds & Hne & Hds & -> & _).
      exists (46 :: ds), r. split_and!; [by constructor|done|done].
    + intros H%match_exp_iff. exists [], (c :: t). split_and!; [constructor|done|done].
  - intros (f & e & Hf & He & ->). pose proof (json_exp_no_digit e He) as [Hn Hd].
    apply match_exp_iff in He as Hm. destruct Hf as [|ds Hne Hds]; cbn [app match_frac].
    + destruct e as [|c t]; [done|]. cbn [match_frac]. destruct (Z.eqb_spec c 46) as [->|]; [by destruct Hd|exact Hm].
    + cbn. rewrite digits1_app; done.
Qed.

Lemma frac_no_digit f e : json_frac f -> json_exp e -> no_digit (f ++ e).
Proof. intros [|] He; [by apply json_exp_no_digit|done]. Qed.

Lemma number_match_iff b : number_match b = true <-> json_number b.
Proof.
  assert (forall b, match b with c :: t =>
      if c =? 48 then match_frac t
      else if (49 <=? c) && (c <=? 57) then match_frac (skip_digits t) else false
      | [] => false end = true <->
    exists i f e, json_int i /\ json_frac f /\ json_exp e /\ b = i ++ f ++ e) as Hun.
  { clear b. intros b. split.
    - destruct b as [|c t]; [done|]. destruct (Z.eqb_spec c 48) as [->|Hc].
      + intros (f & e & Hf & He & ->)%match_frac_iff. exists [48], f, e. by repeat constructor.
      + destruct (_ && _) eqn:E; [|done]. intros (f & e & Hf & He & Ht)%match_frac_iff.
        destruct (skip_digits_inv t) as (ds & Hds & Hb & _). rewrite Ht in Hb.
        exists (c :: ds), f, e. split_and!; [constructor; [lia|done]|done|done|by rewrite Hb].
    - intros (i & f & e & Hi & Hf & He & ->).
      assert (match_frac (f ++ e) = true) as Hm by (apply match_frac_iff; eauto).
      destruct Hi as [|d ds Hd Hds]; cbn [app]; [done|].
      destruct (Z.eqb_spec d 48); [lia|].
      destruct (_ && _) eqn:E; [|lia].
      by rewrite skip_digits_app by (done || by apply frac_no_digit). }
  unfold number_match. rewrite Hun. clear Hun. split.
  - intros (i & f & e & Hi & Hf & He & Hb). destruct b as [|c t].
    + by destruct Hi.
    + destruct (Z.eqb_spec c 45) as [->|].
      * exists [45], i, f, e. split_and!; [constructor|done..|by rewrite Hb].
      * exists [], i, f, e. split_and!; [constructor|done..].
  - intros (s & i & f & e & Hs & Hi & Hf & He & ->). exists i, f, e. split_and!; [done..|].
    destruct Hs; cbn [app]; [|done]. destruct Hi as [|d ds Hd]; [done|]. cbn [app].
    destruct (Z.eqb_spec d 45); [lia|done].
Qed.

(** The expression a numeric message ID is checked against accepts exactly
    the numbers of the JSON grammar, the empty text, leading zeros, a bare sign
    and an unfinished fraction or exponent excluded. *)
Theorem number_match_grammar b : number_match b = true <-> json_number b.
Proof. apply number_match_iff. Qed.

(** ** The group frame *)

Record frame_key := FrameKey {
  k_side : Z; k_owner : Z; k_exchange : Z; k_status : Z; k_phase : Z; k_invocation : Z }.

(** The 48-byte header in front of a record of [n] bytes. *)
Definition frame_header (n : Z) (k : frame_key) : bytes :=
  le_bytes 4 GROUP_MAGIC ++ le_bytes 4 2 ++ le_bytes 4 n ++ le_bytes 4 (k_side k) ++
  le_bytes 8 (k_owner k) ++ le_bytes 8 (k_exchange k) ++ le_bytes 4 (k_status k) ++
  le_bytes 4 (k_phase k) ++ le_bytes 8 (k_invocation k).

Definition frame_dict (k : frame_key) : dict :=
  [("owner_instance", VStr (py_str (k_owner k))); ("exchange", VStr (py_str (k_exchange k)));
   ("status", VInt (k_status k)); ("phase", VInt (k_phase k)); ("side", VInt (k_side k));
   ("invocation", VStr (py_str (k_invocation k)))].

(** A key is consistent: an exchange has an owner, a side, a phase and an
    invocation; without one there is no owner, no phase and no match status. *)
Definition key_ok (n : Z) (k : frame_key) : Prop :=
  In n [96; 104; 128; 144] /\ 0 <= k_side k <= 2 /\ 0 <= k_status k < 7 /\ 0 <= k_phase k < 5 /\
  0 <= k_owner k < 2 ^ 64 /\ 0 <= k_exchange k < 2 ^ 64 /\ 0 <= k_invocation k < 2 ^ 64 /\
  (k_exchange k = 0 <-> k_owner k = 0) /\ (k_exchange k = 0 <-> k_phase k = 0) /\
  (k_exchange k <> 0 -> k_side k <> 0 /\ k_invocation k <> 0) /\
  (k_status k = 1 -> k_exchange k <> 0).

Lemma split_U n p : is_bytes p -> (n <= length p)%nat ->
  p = le_bytes n (le_int (take n p)) ++ drop n p.
Proof.
  intros Hp Hl. rewrite le_bytes_int_n; [by rewrite take_drop|auto with py|].
  rewrite length_take. lia.
Qed.

Lemma unpack_U n fmt z rest : 0 <= z < 256 ^ Z.of_nat n ->
  unpack (U n :: fmt) (le_bytes n z ++ rest) = VInt z :: unpack fmt rest.
Proof.
  intros Hz. cbn [unpack fsize unpack_fld].
  rewrite take_app_length', drop_app_length' by by rewrite length_le_bytes.
  by rewrite le_int_bytes_small.
Qed.

Lemma frame_record n k inner : key_ok n k -> 0 <= n < 2 ^ 32 ->
  record_of group_names GROUP_HEADER (frame_header n k ++ inner) =
  [("magic", VInt GROUP_MAGIC); ("abi", VInt 2); ("length", VInt n); ("side", VInt (k_side k));
   ("owner", VInt (k_owner k)); ("exchange", VInt (k_exchange k)); ("status", VInt (k_status k));
   ("phase", VInt (k_phase k)); ("invocation", VInt (k_invocation k))].
Proof.
  intros (_ & Hs & Ht & Hph & Ho & He & Hi & _) Hn.
  unfold record_of, GROUP_HEADER, frame_header. rewrite <- !app_assoc.
  rewrite !unpack_U; [reflexivity|..]; cbn; unfold GROUP_MAGIC; lia.
Qed.

(** Every accepted payload is a header and a record. *)
Lemma unwrap_split p : is_bytes p -> 48 <= len p ->
  p = frame_header (iget "length" (record_of group_names GROUP_HEADER p))
        (FrameKey (iget "side" (record_of group_names GROUP_HEADER p))
           (iget "owner" (record_of group_names GROUP_HEADER p))
           (iget "exchange" (record_of group_names GROUP_HEADER p))
           (iget "status" (record_of group_names GROUP_HEADER p))
           (iget "phase" (record_of group_names GROUP_HEADER p))
           (iget "invocation" (record_of group_names GROUP_HEADER p))) ++ drop 48 p \/
  iget "magic" (record_of group_names GROUP_HEADER p) <> GROUP_MAGIC \/
  iget "abi" (record_of group_names GROUP_HEADER p) <> 2.
Proof.
  intros Hp Hl. unfold len in Hl.
  destruct (decide (iget "magic" (record_of group_names GROUP_HEADER p) = GROUP_MAGIC)) as [Em|];
    [|by auto].
  destruct (decide (iget "abi" (record_of group_names GROUP_HEADER p) = 2)) as [Ea|]; [|by auto].
  left. unfold frame_header. rewrite <- Em, <- Ea. clear Em Ea. rewrite <- !app_assoc.
  unfold GROUP_HEADER, group_names, record_of, iget.
  cbn [unpack fsize unpack_fld zip zip_with get String.eqb Ascii.eqb Bool.eqb k_side k_owner
       k_exchange k_status k_phase k_invocation].
  rewrite (split_U 4 p) at 1 by (done || lia). f_equal.
  do 3 (rewrite (split_U 4 (drop _ _)) at 1 by (auto 20 with py; rewrite !length_drop; lia); f_equal).
  do 2 (rewrite (split_U 8 (drop _ _)) at 1 by (auto 20 with py; rewrite !length_drop; lia); f_equal).
  do 2 (rewrite (split_U 4 (drop _ _)) at 1 by (auto 20 with py; rewrite !length_drop; lia); f_equal).
  rewrite (split_U 8 (drop _ _)) at 1 by (auto 20 with py; rewrite !length_drop; lia). f_equal.
  by rewrite !drop_drop.
Qed.

Lemma group_field_bound k n p : is_bytes p ->
  In (k, n) [("side", 4%nat); ("owner", 8%nat); ("exchange", 8%nat); ("status", 4%nat);
             ("phase", 4%nat); ("invocation", 8%nat)] ->
  0 <= iget k (record_of group_names GROUP_HEADER p) < 256 ^ Z.of_nat n.
Proof.
  intros Hp Hk. cbn [In] in Hk. repeat destruct Hk as [[= <- <-]|Hk]; [..|done];
    unfold GROUP_HEADER, group_names, record_of, iget;
    cbn [unpack fsize unpack_fld zip zip_with get String.eqb Ascii.eqb Bool.eqb];
    match goal with |- 0 <= le_int (take ?m ?l) < _ =>
      pose proof (le_int_bound (take m l) ltac:(auto 20 with py)) as Hb;
      assert (256 ^ len (take m l) <= 256 ^ Z.of_nat m)
        by (apply Z.pow_le_mono_r; [lia|]; unfold len; rewrite length_take; lia);
      lia
    end.
Qed.

(** The frame decoder and the frame layout are inverse: a payload is
    accepted with key [k] and inner record [inner] exactly when it is the header
    of that key and of that record's length followed by the record, and the key
    is consistent. *)
Theorem unwrap_iff p g inner : is_bytes p ->
  unwrap p = Ok (g, inner) <->
  exists k, key_ok (len inner) k /\ p = frame_header (len inner) k ++ inner /\ g = frame_dict k.
Proof.
  intros Hp. split.
  - unfold unwrap. change (fmt_size GROUP_HEADER) with 48. intros H.
    destruct (Z.ltb_spec (len p) 48) as [|Hl]; [done|]. cbv zeta in H.
    pose proof (unwrap_split p Hp Hl) as Hs.
    pose proof (fun k n => group_field_bound k n p Hp) as Hb.
    pose proof (Hb "side" 4%nat ltac:(cbn; tauto)). pose proof (Hb "owner" 8%nat ltac:(cbn; tauto)).
    pose proof (Hb "exchange" 8%nat ltac:(cbn; tauto)).
    pose proof (Hb "status" 4%nat ltac:(cbn; tauto)).
    pose proof (Hb "phase" 4%nat ltac:(cbn; tauto)).
    pose proof (Hb "invocation" 8%nat ltac:(cbn; tauto)). clear Hb.
    remember (record_of group_names GROUP_HEADER p) as r. unfold eqf, mem_Z in H.
    destruct (_ || _) eqn:G1 in H; [done|]. destruct (_ || _) eqn:G2 in H; [done|].
    cbn [existsb] in G1. rewrite !orb_false_iff in G1.
    apply Ok_inj in H. injection H as <- <-.
    assert (len (zdrop 48 p) = len p - 48) as Hd
      by (unfold len in *; rewrite zdrop_drop, length_drop; lia).
    assert (iget "length" r = len p - 48) as Hlen by lia.
    rewrite Hd. destruct Hs as [Hs|Hs]; [|lia].
    rewrite zdrop_drop. change (Z.to_nat 48) with 48%nat. rewrite Hlen in Hs.
    eexists. split; [|split; [exact Hs|reflexivity]].
    unfold key_ok. cbn [k_side k_owner k_exchange k_status k_phase k_invocation In].
    rewrite !xorb_eqb in G2.
    split_and!; try lia.
  - intros (k & Hk & -> & ->). clear Hp.
    assert (0 <= len inner < 2 ^ 32) as Hn by (destruct Hk as [Hn _]; cbn [In] in Hn; lia).
    assert (len (frame_header (len inner) k ++ inner) = 48 + len inner) as Hl.
    { by rewrite len_app. }
    unfold unwrap. change (fmt_size GROUP_HEADER) with 48. rewrite Hl.
    destruct (Z.ltb_spec (48 + len inner) 48); [lia|].
    rewrite (frame_record _ _ _ Hk Hn).
    destruct Hk as (Hlen & Hs & Ht & Hph & Ho & He & Hi & H1 & H2 & H3 & H4).
    cbn [In] in Hlen. unfold eqf. cbn [iget get String.eqb Ascii.eqb Bool.eqb].
    cbv zeta. rewrite !xorb_eqb.
    match goal with |- (if ?b then _ else _) = _ => destruct b eqn:G1 end.
    { exfalso. unfold mem_Z in G1. cbn [existsb] in G1. lia. }
    match goal with |- (if ?b then _ else _) = _ => destruct b eqn:G2; [exfalso; lia|] end.
    f_equal. unfold frame_dict. f_equal. rewrite zdrop_drop.
    rewrite drop_app_length'; [done|]. unfold frame_header. autorewrite with py. done.
Qed.

Definition sample_key : frame_key := FrameKey 1 7 9 1 1 3.

Lemma unwrap_iff_witness :
  unwrap (frame_header 96 sample_key ++ replicate 96 0) = Ok (frame_dict sample_key, replicate 96 0).
Proof.
  apply unwrap_iff.
  - unfold is_bytes. repeat (constructor; [split; vm_compute; congruence|]). constructor.
  - exists sample_key. split; [|split; reflexivity].
    unfold key_ok, sample_key. cbn [k_side k_owner k_exchange k_status k_phase k_invocation].
    split; [left; reflexivity|]. lia.
Defined.
