(* ===== verification/Export.v ===== *)
(** * The activity exporter (env/ai-traffic/activity_export.py)

    One replay page in, one page of versioned observations out: the decoder
    table, the text of a JSON string value, the projection of one event and of a
    page. *)

From S2P Require Import Prelude PyVal Text Decoders.

(** ** UTF-8 and JSON strings *)

(** Four hexadecimal digits of a [\u] escape. *)
Definition hexval4 (a b c d : Z) : option Z :=
  match hexval (chr a), hexval (chr b), hexval (chr c), hexval (chr d) with
  | Some w, Some x, Some y, Some z =>
      if forallb (fun v => v <? 128) [a; b; c; d]
      then Some (w * 4096 + x * 256 + y * 16 + z) else None
  | _, _, _, _ => None
  end.

Definition simple_escape (c : Z) : option Z :=
  assoc c [(34, 34); (92, 92); (47, 47); (98, 8); (102, 12); (110, 10); (114, 13); (116, 9)].

(** The code unit of a [\u] escape at the head of the text. *)
Definition unicode_escape (l : list Z) : option Z :=
  match l with
  | b :: u :: a :: c :: d :: e :: _ =>
      if (b =? 92) && (u =? 117) then hexval4 a c d e else None
  | _ => None
  end.

(** [json.loads('"' + text + '"')] for a text of code points: an unescaped quote
    ends the string before the final quote and leaves extra data, a trailing
    backslash escapes the final quote and leaves the string open, a control
    character is refused.  A high surrogate escape joins a following low one. *)
Fixpoint json_text (l : list Z) : option (list Z) :=
  match l with
  | [] => Some []
  | c :: t =>
      if c =? 34 then None
      else if c =? 92 then
        match t with
        | [] => None
        | x :: t1 =>
            if x =? 117 then
              match t1 with
              | a :: b :: d :: e :: t' =>
                  match hexval4 a b d e with
                  | None => None
                  | Some u =>
                      match t' with
                      | _ :: _ :: _ :: _ :: _ :: _ :: t'' =>
                          match unicode_escape t' with
                          | Some v =>
                              if (0xd800 <=? u) && (u <=? 0xdbff) && (0xdc00 <=? v) && (v <=? 0xdfff)
                              then option_map (cons (0x10000 + (u - 0xd800) * 1024 + (v - 0xdc00)))
                                     (json_text t'')
                              else option_map (cons u) (json_text t')
                          | None => option_map (cons u) (json_text t')
                          end
                      | _ => option_map (cons u) (json_text t')
                      end
                  end
              | _ => None
              end
            else
              match simple_escape x with
              | Some y => option_map (cons y) (json_text t1)
              | None => None
              end
        end
      else if c <? 32 then None
      else option_map (cons c) (json_text t)
  end.

(** ** The exporter *)

Definition string_field (record : dict) : result dict :=
  let? status_name := item "status_name" record in
  let? value_hex := item "value_hex" record in
  let? original_length := item "original_length" record in
  let? status := item "status" record in
  let field := [("status", status_name); ("raw_hex", value_hex);
                ("representation", VStr "json_string_escaped_bytes");
                ("original_length", original_length)] in
  if val_eqb status (VInt 1) then
    match value_hex with
    | VStr h =>
        match fromhex h with
        | Ok b =>
            match utf8_decode b with
            | Some cps =>
                match json_text cps with
                | Some v => Ok (set "value" (VText v) field)
                | None => Ok (set "text_error" (VStr "invalid_json_string_bytes") field)
                end
            | None => Ok (set "text_error" (VStr "invalid_json_string_bytes") field)
            end
        | Err _ => Ok (set "text_error" (VStr "invalid_json_string_bytes") field)
        end
    | _ => Err TypeError
    end
  else Ok field.

(** [bytes.fromhex(v).decode("ascii")]. *)
Definition ascii_of_hex (v : val) : result val :=
  match v with
  | VStr h =>
      let? b := fromhex h in
      if forallb (fun x => x <? 128) b then Ok (VText b) else Err UnicodeError
  | _ => Err TypeError
  end.

Definition field_value (as_bool : bool) (v : val) : val :=
  if as_bool then VBool (truthy v) else v.

(** One [(name, state, value)] row of the outcome loops. *)
Definition outcome_row (record : dict) (name state value : string) (as_bool : bool)
    (outcome : dict) : result dict :=
  let? state_name := item (String.append state "_name") record in
  let? st := item state record in
  if val_eqb st (VInt 1) then
    let? v := item value record in
    Ok (set name (VDict [("status", state_name); ("value", field_value as_bool v)]) outcome)
  else Ok (set name (VDict [("status", state_name)]) outcome).

(** The value of a message ID: a JSON string or the spelling of a token. *)
Definition id_field (id_kind : val) (record : dict) : result dict :=
  if val_eqb id_kind (VInt 1) then string_field record
  else
    let? status_name := item "status_name" record in
    let? value_hex := item "value_hex" record in
    let? status := item "status" record in
    let value := [("status", status_name); ("raw_hex", value_hex);
                  ("representation", VStr "json_token_bytes")] in
    if val_eqb status (VInt 1) then
      let? v := ascii_of_hex value_hex in Ok (set "value" v value)
    else Ok value.

Definition fields (kind : string) (record : dict) : result (dict * dict) :=
  if String.eqb kind "method" then
    let? f := string_field record in Ok ([("method", VDict f)], [])
  else if String.eqb kind "operation_target" then
    let? f := string_field record in
    let? k := item "target_kind_name" record in
    Ok ([("target", VDict (set "kind" k f))], [])
  else if String.eqb kind "message_id" then
    let? id_kind := item "id_kind" record in
    let? value := id_field id_kind record in
    let? kind_name := item "id_kind_name" record in
    let activity := [("message_id", VDict (set "kind" kind_name value))] in
    if has "flow_status_name" record then
      let? s := item "flow_status_name" record in
      let? v := item "flow_side_name" record in
      Ok (set "flow_side" (VDict [("status", s); ("value", v)]) activity, [])
    else Ok (activity, [])
  else if String.eqb kind "reply" then
    let? status_name := item "status_name" record in
    let? status := item "status" record in
    let outcome := [("status", status_name)] in
    if val_eqb status (VInt 1) then
      let? rp := item "result_present" record in
      let? ep := item "error_present" record in
      let outcome := set "error_present" (VBool (truthy ep))
                       (set "result_present" (VBool (truthy rp)) outcome) in
      let? outcome := outcome_row record "error_code" "code_state" "error_code" false outcome in
      let? outcome := outcome_row record "tool_error" "tool_error_state" "tool_error" true outcome in
      Ok ([], outcome)
    else Ok ([], outcome)
  else if String.eqb kind "http_response" then
    let? outcome := outcome_row record "http_status" "http_status_state" "http_status" false [] in
    let? outcome := outcome_row record "local_transfer_complete" "completion_state"
                      "transfer_complete" true outcome in
    let mode := match get "client_tls" record with
                | Some (VDict t) => match get "mode" t with Some m => m | None => VStr "not_applicable" end
                | _ => VStr "not_applicable"
                end in
    if negb (val_eqb mode (VStr "not_applicable")) then
      let? t := item "client_tls" record in
      Ok ([("client_tls", t)], outcome)
    else Ok ([], outcome)
  else Ok ([], []).

(** The decoder of a record magic, with the kind of observation it makes. *)
Definition DECODERS : list (Z * (string * (bytes -> result dict))) :=
  [(0x4A4D4554, ("method", method_decode)); (0x544D4554, ("method", token_method_decode));
   (0x4F544754, ("operation_target", target_decode)); (0x52504C59, ("reply", reply_decode));
   (0x5253504D, ("http_response", response_decode)); (0x4D534749, ("message_id", id_decode));
   (0x4944464C, ("message_id", id_flow_decode))].

Definition COUNTERS : list string :=
  ["instance"; "revision"; "run"; "monotonic_ns"; "sequence"; "output_failures"].
Definition DIAGNOSTICS : list string :=
  ["source_boundary"; "observation_gap"; "discard"; "ring_health"].

(** [str(v)] of a counter. *)
Definition str_of (v : val) : val := match v with VInt z => VStr (py_str z) | _ => v end.
Definition str_counters (record : dict) : dict :=
  map (fun '(k, v) => (k, if mem_str k COUNTERS then str_of v else v)) record.

Definition output_of (event_type : string) (activity outcome evidence : dict) : dict :=
  [("schema_version", VInt 1); ("event_type", VStr event_type);
   ("identity_binding", VStr "unknown"); ("identity", VNone);
   ("correlation", VDict [("status", VStr "unknown")]);
   ("activity", VDict activity); ("reported_outcome", VDict outcome);
   ("evidence", VDict evidence)].

(** What the [try] block of [project_event] does to the evidence: it ends in a
    decoded record, in an early return, or in a caught exception.  The group
    stays in the evidence whatever happens after it was read. *)
Inductive attempt :=
| Decoded (kind : string) (record : dict)
| Unsupported
| Malformed (error : string)
| Raised (e : exn).

Definition caught (e : exn) : attempt :=
  match e with
  | ValueError m => Malformed m
  | UnicodeError => Malformed "codec error"
  | TypeError => Malformed "type error"
  | _ => Raised e
  end.

Definition read_record (raw : val) (evidence : dict) : dict * attempt :=
  match raw with
  | VDict r =>
      match get "data" r with
      | Some (VStr data) =>
          if 1024 <? strlen data then (evidence, Malformed "invalid or oversize record") else
          match fromhex data with
          | Err e => (evidence, caught e)
          | Ok payload =>
              let framed :=
                if le_int (ztake 4 payload) =? GROUP_MAGIC then
                  match unwrap payload with
                  | Ok (g, inner) => Ok (set "group" (VDict g) evidence, inner)
                  | Err e => Err e
                  end
                else Ok (evidence, payload) in
              match framed with
              | Err e => (evidence, caught e)
              | Ok (evidence, payload) =>
                  match assoc (le_int (ztake 4 payload)) DECODERS with
                  | Some (kind, decode) =>
                      if negb (val_eqb (getv "schema" r) (VInt 100)) then (evidence, Unsupported) else
                      match decode payload with
                      | Ok record => (evidence, Decoded kind record)
                      | Err e => (evidence, caught e)
                      end
                  | None => (evidence, Unsupported)
                  end
              end
          end
      | _ => (evidence, Malformed "invalid or oversize record")
      end
  | _ => (evidence, Malformed "invalid or oversize record")
  end.

(** [record["flags"] or not all(record[key] for key in (...))]. *)
Definition unqualified (record : dict) : result bool :=
  let? flags := item "flags" record in
  if truthy flags then Ok true else
  (fix all keys := match keys with
    | [] => Ok false
    | k :: t => let? v := item k record in if truthy v then all t else Ok true
    end) ["instance"; "revision"; "run"; "sequence"].

Definition project_event (event : dict) : result dict :=
  let evidence := [("source_id", getv "source_id" event); ("event_id", getv "event_id" event);
                   ("source", getv "source" event); ("continuity", VStr "not_established");
                   ("program_binding", VStr "not_verified_by_exporter")] in
  let kind := getv "type" event in
  if negb (val_eqb kind (VStr "record")) then
    match kind with
    | VList _ | VDict _ => Err TypeError
    | _ =>
        let event_type :=
          match kind with
          | VStr k => if mem_str k DIAGNOSTICS then String.append "agent." k else "agent.observation"
          | _ => "agent.observation"
          end in
        Ok (output_of event_type [] []
              (update [("status", VStr "diagnostic"); ("diagnostic", VDict event)] evidence))
    end
  else
    let raw := match get "raw" event with Some r => r | None => VDict [] end in
    let evidence := set "raw" raw evidence in
    match read_record raw evidence with
    | (evidence, Raised e) => Err e
    | (evidence, Malformed m) =>
        Ok (output_of "agent.observation" [] []
              (update [("status", VStr "malformed_record"); ("error", VStr m)] evidence))
    | (evidence, Unsupported) =>
        Ok (output_of "agent.observation" [] [] (set "status" (VStr "unsupported_schema") evidence))
    | (evidence, Decoded kind record) =>
        let? failures := item "output_failures" record in
        let evidence :=
          update [("status", VStr "decoded"); ("observation", VStr kind);
                  ("record", VDict (str_counters record));
                  ("output_loss_reported", VBool (truthy failures))] evidence in
        let? bad := unqualified record in
        if bad then
          Ok (output_of "agent.observation" [] [] (set "status" (VStr "unqualified_record") evidence))
        else
          let? (activity, outcome) := fields kind record in
          Ok (output_of "agent.activity" activity outcome evidence)
    end.

Definition page_row (row : val) : option (val * dict) :=
  match row with
  | VDict r =>
      match get "cursor" r, get "event" r with
      | Some (VStr c), Some (VDict e) => Some (VStr c, e)
      | _, _ => None
      end
  | _ => None
  end.

(** [{"cursor": row["cursor"], "event": project_event(row["event"])}]. *)
Definition project_row (row : val * dict) : result val :=
  let? e := project_event row.2 in
  Ok (VDict [("cursor", row.1); ("event", VDict e)]).

Fixpoint page_rows (rows : list val) : option (list (val * dict)) :=
  match rows with
  | [] => Some []
  | r :: t =>
      match page_row r, page_rows t with
      | Some x, Some xs => Some (x :: xs)
      | _, _ => None
      end
  end.

Definition project_page (page : val) : result dict :=
  match page with
  | VDict p =>
      if has "error" p then Ok p else
      match get "events" p with
      | Some (VList events) =>
          raise_if (128 <? len events) (ValueError "expected a bounded collector replay page") ;;
          match get "next_cursor" p with
          | Some (VStr _) =>
              match page_rows events with
              | None => Err (ValueError "invalid replay row")
              | Some rows =>
                  let? out := mapM_r project_row rows in
                  Ok (set "events" (VList out) (set "format" (VStr "agent_activity/v1") p))
              end
          | _ => Err (ValueError "missing replay cursor")
          end
      | _ => Err (ValueError "expected a bounded collector replay page")
      end
  | _ => Err (ValueError "expected a collector replay object")
  end.
