(* ===== verification/ExportSpec.v ===== *)
(** * What the exporter promises

    It answers on every collector event, reports an activity only for a decoded
    and qualified record, never asserts an identity, keeps the cursors of a page,
    and reads back the text of an escaped JSON string. *)

From S2P Require Import Prelude PyVal Text Decoders DecodersSpec DecodersWire Export.

(** ** Keys of decoded records *)

Definition present (k : string) (d : dict) : Prop := exists v, get k d = Some v.

Lemma item_present k d : present k d -> exists v, item k d = Ok v /\ get k d = Some v.
Proof. intros [v Hv]. exists v. unfold item. by rewrite Hv. Qed.

(** A kept field of a record is an integer. *)
Lemma keeps_present names fmt gone p e k : keeps names fmt gone p e ->
  k ∈ names -> k ∉ gone -> (exists z, get k (record_of names fmt p) = Some (VInt z)) ->
  exists z, get k e = Some (VInt z).
Proof.
  intros [_ H] Hk Hg [z Hz]. rewrite Forall_forall in H. exists z. by rewrite (H k Hk Hg).
Qed.

(** What the exporter reads of every record. *)
Definition counters_present (e : dict) : Prop :=
  Forall (fun k => exists z, get k e = Some (VInt z))
    ["flags"; "output_failures"; "instance"; "revision"; "run"; "sequence"].

(** What it reads of a record with a string value. *)
Definition value_present (e : dict) : Prop :=
  (exists z, get "status" e = Some (VInt z)) /\ present "original_length" e /\
  present "status_name" e /\ exists h, get "value_hex" e = Some (VStr h).

Ltac kept K :=
  eapply keeps_present; [exact K|by apply mem_str_elem| |eexists; reflexivity];
  rewrite <- mem_str_elem; discriminate.

Ltac all_kept K := repeat (apply Forall_cons_2; [kept K|]); apply Forall_nil_2.

Ltac setget :=
  repeat (rewrite get_set; cbn [String.eqb Ascii.eqb Bool.eqb]).

Ltac named H :=
  guards H; apply Ok_inj in H; rewrite <- H; eexists; setget; reflexivity.

Lemma method_ready p e : method_decode p = Ok e -> counters_present e /\ value_present e.
Proof.
  intros H. pose proof (method_keeps p e H) as K. pose proof (method_value p e H) as (_ & V & _).
  split; [all_kept K|]. split; [kept K|]. split; [|split; [|by eexists]].
  - assert (exists z, get "original_length" e = Some (VInt z)) as [z Hz] by kept K. by eexists.
  - unfold method_decode in H. named H.
Qed.

Lemma token_method_ready p e : token_method_decode p = Ok e ->
  counters_present e /\ value_present e.
Proof.
  intros H. pose proof (token_method_keeps p e H) as K.
  pose proof (token_method_value p e H) as (_ & V & _).
  split; [all_kept K|]. split; [kept K|]. split; [|split; [|by eexists]].
  - assert (exists z, get "original_length" e = Some (VInt z)) as [z Hz] by kept K. by eexists.
  - unfold token_method_decode in H. named H.
Qed.

Lemma target_ready p e : target_decode p = Ok e ->
  counters_present e /\ value_present e /\ present "target_kind_name" e.
Proof.
  intros H. pose proof (target_keeps p e H) as K. pose proof (target_value p e H) as (_ & V & _).
  split; [all_kept K|]. split; [split; [kept K|]; split; [|split; [|by eexists]]|].
  - assert (exists z, get "original_length" e = Some (VInt z)) as [z Hz] by kept K. by eexists.
  - unfold target_decode in H. named H.
  - unfold target_decode in H. named H.
Qed.

Lemma string_field_ok e : value_present e -> exists f, string_field e = Ok f.
Proof.
  intros ([z Hz] & [o Ho] & [n Hn] & h & Hh).
  unfold string_field, item. rewrite Hz, Ho, Hn, Hh.
  destruct (val_eqb _ _); [|by eexists].
  destruct (fromhex h); [|by eexists]. destruct (utf8_decode _); [|by eexists].
  destruct (json_text _); by eexists.
Qed.

(** ** Message IDs *)

Lemma digits_ascii b : all_digits b -> forallb (fun x => x <? 128) b = true.
Proof.
  induction 1 as [|c b Hc _ IH]; [done|]. simpl. rewrite IH. unfold digit_byte in Hc. lia.
Qed.

Lemma json_number_ascii b : json_number b -> forallb (fun x => x <? 128) b = true.
Proof.
  intros (s & i & f & e & Hs & Hi & Hf & He & ->). rewrite !forallb_app.
  apply andb_true_iff; split; [by destruct Hs|].
  apply andb_true_iff; split.
  { destruct Hi as [|d ds Hd Hds]; [done|]. simpl. rewrite digits_ascii by done. lia. }
  apply andb_true_iff; split.
  { destruct Hf as [|ds _ Hds]; [done|]. simpl. by rewrite digits_ascii. }
  destruct He as [|c s' ds Hc Hs' _ Hds]; [done|]. simpl. rewrite forallb_app, (digits_ascii ds Hds).
  destruct Hs' as [->|[->| ->]]; simpl; lia.
Qed.

(** The token of a complete ID that is not a string is ASCII. *)
Lemma id_token p e : is_bytes p -> id_decode p = Ok e ->
  counters_present e /\ value_present e /\ present "id_kind_name" e /\
  (exists z, get "id_kind" e = Some (VInt z)) /\
  (iget "status" e = 1 -> iget "id_kind" e <> 1 ->
   exists v, get "value_hex" e = Some (VStr (hex v)) /\ is_bytes v /\
     forallb (fun x => x <? 128) v = true).
Proof.
  intros Hp H. pose proof (id_keeps p e H) as K. pose proof (id_value p e H) as (_ & V & _).
  split; [all_kept K|]. split; [split; [kept K|]; split; [|split; [|by eexists]]|split; [|split; [kept K|]]].
  - assert (exists z, get "original_length" e = Some (VInt z)) as [z Hz] by kept K. by eexists.
  - unfold id_decode in H. named H.
  - unfold id_decode in H. named H.
  - rewrite (keeps_iget _ _ _ _ _ "status" K), (keeps_iget _ _ _ _ _ "id_kind" K)
      by (first [by apply mem_str_elem | rewrite <- mem_str_elem; discriminate]).
    intros Hs Hk. eexists. split; [exact V|].
    rewrite value_at by (cbn [In]; tauto).
    split; [rewrite ztake_take; auto with py|].
    unfold id_decode in H. guards H. clear H V.
    rewrite value_at in * by (cbn [In]; tauto).
    remember (record_of (value_names "id_kind") VALUE_FORMAT p) as r.
    unfold eqf in *. rewrite !iget_remove in * by discriminate.
    rewrite Hs in *. cbn [mem_Z existsb Z.eqb Pos.eqb orb andb negb] in *.
    destruct (Z.eqb_spec (iget "id_kind" r) 2) as [E|E].
    + cbn [andb] in G2. apply negb_false_iff in G2. by apply json_number_ascii, number_match_iff.
    + destruct (Z.eqb_spec (iget "id_kind" r) 3) as [E3|E3].
      * cbn [andb] in G3. apply negb_false_iff in G3. apply bytes_eqb_eq in G3. by rewrite G3.
      * exfalso. cbn [mem_Z existsb] in G0. clear - G0 G1 E E3 Hk.
        repeat (apply orb_false_iff in G0 as [G0 ?]). lia.
Qed.

(** The flow variant reads as the plain record does, and names its side. *)
Lemma id_flow_token p e : is_bytes p -> id_flow_decode p = Ok e ->
  counters_present e /\ value_present e /\ present "id_kind_name" e /\
  (exists z, get "id_kind" e = Some (VInt z)) /\
  (iget "status" e = 1 -> iget "id_kind" e <> 1 ->
   exists v, get "value_hex" e = Some (VStr (hex v)) /\ is_bytes v /\
     forallb (fun x => x <? 128) v = true).
Proof.
  intros Hp H. destruct (id_flow_inv p e H) as (Hl & _ & _ & ev & Hev & Hk).
  destruct (id_token _ _ (is_bytes_flow_base p Hp Hl) Hev) as (Hc & Hv & Hn & Hi & Ht).
  unfold counters_present, value_present, present, iget in *.
  rewrite !Hk by reflexivity. split; [|done].
  repeat (apply Forall_cons in Hc as [? Hc]; apply Forall_cons_2; [by rewrite Hk|]).
  apply Forall_nil_2.
Qed.

Lemma id_flow_named p e : id_flow_decode p = Ok e ->
  present "flow_status_name" e /\ present "flow_side_name" e.
Proof.
  unfold id_flow_decode. intros H. guards H. apply Ok_inj in H. rewrite <- H.
  unfold update, present. cbn [fold_left fst snd].
  split; eexists; setget; reflexivity.
Qed.

Lemma id_not_flow p e : id_decode p = Ok e -> has "flow_status_name" e = false.
Proof.
  unfold id_decode. intros H. guards H. apply Ok_inj in H. rewrite <- H.
  unfold has. setget. rewrite get_remove_ne by discriminate. reflexivity.
Qed.

Lemma reply_ready p e : reply_decode p = Ok e -> counters_present e /\
  Forall (fun k => present k e) ["status_name"; "status"; "result_present"; "error_present";
    "code_state_name"; "code_state"; "error_code"; "tool_error_state_name"; "tool_error_state";
    "tool_error"].
Proof.
  intros H. pose proof (reply_keeps p e H) as K.
  assert (forall k, (exists z, get k e = Some (VInt z)) -> present k e) as Hp
    by (intros k [z Hz]; by eexists).
  assert (present "status_name" e /\ present "code_state_name" e /\
    present "tool_error_state_name" e) as (N1 & N2 & N3).
  { unfold reply_decode in H. guards H. apply Ok_inj in H. rewrite <- H.
    split_and!; eexists; setget; reflexivity. }
  split; [all_kept K|].
  repeat (apply Forall_cons_2; [first [assumption | apply Hp; kept K]|]). apply Forall_nil_2.
Qed.

Lemma response_ready p e : response_decode p = Ok e -> counters_present e /\
  Forall (fun k => present k e) ["http_status_state_name"; "http_status_state"; "http_status";
    "completion_state_name"; "completion_state"; "transfer_complete"].
Proof.
  intros H. pose proof (response_inv p e H) as (K & _ & _).
  assert (forall k, mem_str k response_names = true ->
    (exists z, get k (record_of response_names RESPONSE_FORMAT p) = Some (VInt z)) ->
    exists z, get k e = Some (VInt z)) as Hk.
  { intros k Hk [z Hz]. rewrite Forall_forall in K. exists z.
    rewrite (K k); [done|by apply mem_str_elem]. }
  assert (forall k, (exists z, get k e = Some (VInt z)) -> present k e) as Hp
    by (intros k [z Hz]; by eexists).
  assert (present "http_status_state_name" e /\ present "completion_state_name" e) as [N1 N2].
  { unfold response_decode in H. cbv zeta in H. guards H. destruct (eqf _ "abi" 2); guards H;
      apply Ok_inj in H; rewrite <- H; split; eexists; setget; reflexivity. }
  split.
  - repeat (apply Forall_cons_2; [apply Hk; [reflexivity|eexists; reflexivity]|]). apply Forall_nil_2.
  - repeat (apply Forall_cons_2;
      [first [assumption | apply Hp, Hk; [reflexivity|eexists; reflexivity]]|]). apply Forall_nil_2.
Qed.

Lemma outcome_row_ok r name state value ab o :
  present (String.append state "_name") r -> present state r -> present value r ->
  exists o', outcome_row r name state value ab o = Ok o'.
Proof.
  intros [a Ha] [b Hb] [c Hc]. unfold outcome_row, item. rewrite Ha, Hb.
  destruct (val_eqb b _); [rewrite Hc|]; by eexists.
Qed.

(** The message-ID branch. *)
Lemma fields_message_id e :
  value_present e -> present "id_kind_name" e -> (exists z, get "id_kind" e = Some (VInt z)) ->
  (iget "status" e = 1 -> iget "id_kind" e <> 1 ->
   exists v, get "value_hex" e = Some (VStr (hex v)) /\ is_bytes v /\
     forallb (fun x => x <? 128) v = true) ->
  (has "flow_status_name" e = true -> present "flow_status_name" e /\ present "flow_side_name" e) ->
  exists ao, fields "message_id" e = Ok ao.
Proof.
  intros Hv [n Hn] [z Hz] Ht Hf. unfold fields. cbn [String.eqb Ascii.eqb Bool.eqb].
  pose proof (string_field_ok e Hv) as [f Hs].
  destruct Hv as ([st Hst] & _ & [sn Hsn] & h & Hh).
  assert (exists value, id_field (VInt z) e = Ok value) as [value Hval].
  { unfold id_field. destruct (val_eqb (VInt z) (VInt 1)) eqn:Ez; [by exists f|].
    unfold item. rewrite Hsn, Hh, Hst. cbv zeta. destruct (val_eqb (VInt st) (VInt 1)) eqn:Es;
      [|by eexists].
    cbn [val_eqb] in Ez, Es. destruct Ht as (v & Hv & Hb & Ha).
    - unfold iget. rewrite Hst. lia.
    - unfold iget. rewrite Hz. lia.
    - rewrite Hv in Hh. injection Hh as <-. cbn [ascii_of_hex].
      rewrite fromhex_hex, Ha by done. by eexists. }
  unfold item at 1. rewrite Hz, Hval. unfold item at 1. rewrite Hn.
  destruct (has "flow_status_name" e); [|by eexists].
  destruct (Hf eq_refl) as [[a Ha] [b Hb]]. unfold item. rewrite Ha, Hb. by eexists.
Qed.

Lemma decoder_ready m kind d p e : In (m, (kind, d)) DECODERS -> is_bytes p -> d p = Ok e ->
  counters_present e /\ exists ao, fields kind e = Ok ao.
Proof.
  unfold DECODERS. cbn [In]. intros Hin Hp H.
  repeat destruct Hin as [[= <- <- <-]|Hin]; [..|done].
  - destruct (method_ready p e H) as [Hc [f Hf]%string_field_ok]. split; [done|].
    unfold fields. rewrite Hf. by eexists.
  - destruct (token_method_ready p e H) as [Hc [f Hf]%string_field_ok]. split; [done|].
    unfold fields. rewrite Hf. by eexists.
  - destruct (target_ready p e H) as (Hc & [f Hf]%string_field_ok & [k Hk]). split; [done|].
    unfold fields, item. rewrite Hf, Hk. by eexists.
  - destruct (reply_ready p e H) as [Hc Hall]. split; [done|].
    repeat (apply Forall_cons in Hall as [? Hall]).
    unfold fields. cbn [String.eqb Ascii.eqb Bool.eqb].
    repeat match goal with Hp : present ?k e |- _ =>
      lazymatch goal with
      | |- context [item k e] => destruct (item_present k e Hp) as (? & -> & _)
      end end.
    destruct (val_eqb _ _); [|by eexists].
    edestruct (outcome_row_ok e "error_code" "code_state" "error_code") as [o1 ->]; [done..|].
    edestruct (outcome_row_ok e "tool_error" "tool_error_state" "tool_error") as [o2 ->]; [done..|].
    by eexists.
  - destruct (response_ready p e H) as [Hc Hall]. split; [done|].
    repeat (apply Forall_cons in Hall as [? Hall]).
    unfold fields. cbn [String.eqb Ascii.eqb Bool.eqb].
    edestruct (outcome_row_ok e "http_status" "http_status_state" "http_status") as [o1 ->]; [done..|].
    edestruct (outcome_row_ok e "local_transfer_complete" "completion_state" "transfer_complete")
      as [o2 ->]; [done..|].
    unfold item. destruct (get "client_tls" e) as [[| | | | | | |t]|]; try by eexists.
    destruct (negb _); by eexists.
  - destruct (id_token p e Hp H) as (Hc & Hv & Hn & Hi & Ht). split; [done|].
    apply fields_message_id; try done. by rewrite (id_not_flow p e H).
  - destruct (id_flow_token p e Hp H) as (Hc & Hv & Hn & Hi & Ht). split; [done|].
    apply fields_message_id; try done. intros _. by apply (id_flow_named p).
Qed.

(** ** Decoders raise [ValueError] only *)

Definition value_error (e : exn) : Prop := exists m, e = ValueError m.

Lemma decode_tls_error p e : decode_tls p = Err e -> value_error e.
Proof.
  unfold decode_tls. cbv zeta. intros H.
  repeat match type of H with
  | (if ?b then _ else _) = Err _ => destruct b; [try (injection H as <-; by eexists)|]
  | Ok _ = Err _ => discriminate H
  end; try discriminate H.
Qed.

Lemma decoder_error m kind d p e : In (m, (kind, d)) DECODERS -> d p = Err e -> value_error e.
Proof.
  unfold DECODERS. cbn [In]. intros Hin H.
  assert (forall q x, id_decode q = Err x -> value_error x) as Hid.
  { unfold id_decode. cbv zeta. intros q x Hx.
    repeat match type of Hx with
    | (if ?b then _ else _) = Err _ => destruct b; [try (injection Hx as <-; by eexists)|]
    end; discriminate Hx. }
  repeat destruct Hin as [[= <- <- <-]|Hin]; [..|done].
  all: unfold method_decode, token_method_decode, target_decode, reply_decode, response_decode,
         id_flow_decode in H; cbv zeta in H; try by eapply Hid.
  all: repeat match type of H with
    | (if ?b then _ else _) = Err _ => destruct b; [try (injection H as <-; by eexists)|]
    | (match decode_tls ?x with _ => _ end) = Err _ =>
        destruct (decode_tls x) eqn:?; [|injection H as <-; by eapply decode_tls_error]
    | (match id_decode ?x with _ => _ end) = Err _ =>
        destruct (id_decode x) eqn:?; [|injection H as <-; by eapply Hid]
    end; try discriminate H.
Qed.

Lemma unwrap_error p e : unwrap p = Err e -> value_error e.
Proof.
  unfold unwrap. cbv zeta. intros H.
  repeat match type of H with
  | (if ?b then _ else _) = Err _ => destruct b; [injection H as <-; by eexists|]
  end; discriminate H.
Qed.

Lemma is_bytes_fromhex s b : fromhex s = Ok b -> is_bytes b.
Proof.
  unfold fromhex. destruct (fromhex_list (str_list s)) as [r|] eqn:H; [|done]. intros [= <-].
  revert r H. generalize (str_list s). intros l.
  enough (forall n r, (length l <= n)%nat -> fromhex_list l = Some r -> is_bytes r) as Hg
    by (intros; eapply Hg; eauto).
  intros n. revert l. induction n as [|n IH]; intros l r Hl H.
  { destruct l; [|simpl in Hl; lia]. injection H as <-. constructor. }
  destruct l as [|c t]; [injection H as <-; constructor|]. cbn [fromhex_list] in H. simpl in Hl.
  destruct (is_space c); [eapply IH; [|exact H]; lia|].
  destruct (hexval c) as [h|] eqn:Eh; [|done]. destruct t as [|d t]; [done|].
  destruct (hexval d) as [lo|] eqn:El; [|done]. simpl in Hl.
  destruct (fromhex_list t) as [r'|] eqn:Er; [|done]. injection H as <-.
  assert (forall c v, hexval c = Some v -> 0 <= v < 16) as Hv.
  { clear. unfold hexval. intros c v H. repeat case_match; simplify_eq; lia. }
  constructor; [|eapply IH; [|exact Er]; lia].
  pose proof (Hv _ _ Eh). pose proof (Hv _ _ El). unfold is_byte. lia.
Qed.

(** ** The record attempt *)

(** The record carried by a payload: itself, or inside a group frame. *)
Definition carries (payload inner : bytes) : Prop :=
  if le_int (ztake 4 payload) =? GROUP_MAGIC
  then exists g, unwrap payload = Ok (g, inner) else inner = payload.

(** A raw row that decodes as [record]. *)
Definition decodes_as (raw : val) (kind : string) (record : dict) : Prop :=
  exists r data payload inner d m, raw = VDict r /\ get "data" r = Some (VStr data) /\
    strlen data <= 1024 /\ fromhex data = Ok payload /\ carries payload inner /\
    m = le_int (ztake 4 inner) /\ In (m, (kind, d)) DECODERS /\
    val_eqb (getv "schema" r) (VInt 100) = true /\ d inner = Ok record.

Lemma carries_bytes payload inner : is_bytes payload -> carries payload inner -> is_bytes inner.
Proof.
  unfold carries. intros Hb. destruct (_ =? _); [|by intros ->].
  intros [g Hg]. unfold unwrap in Hg. cbv zeta in Hg.
  repeat match type of Hg with (if ?b then _ else _) = Ok _ => destruct b; [done|] end.
  injection Hg as _ <-. rewrite zdrop_drop. auto with py.
Qed.

Lemma read_record_spec raw ev :
  match (read_record raw ev).2 with
  | Decoded kind record => decodes_as raw kind record
  | Raised _ => False
  | _ => True
  end.
Proof.
  assert (forall e : exn, value_error e -> match caught e with Raised _ => False
    | Decoded _ _ => False | _ => True end) as Hc by (intros e [m ->]; done).
  assert (forall X (e : exn) (ev : X), value_error e -> match (ev, caught e).2 with
    | Decoded kind record => decodes_as raw kind record | Raised _ => False | _ => True end) as Hc'.
  { intros X e ev' He. specialize (Hc e He). simpl. by destruct (caught e). }
  unfold read_record. destruct raw as [| | | | | | |r]; try done.
  destruct (get "data" r) as [[| | |data| | | |]|] eqn:Hd; try done.
  destruct (Z.ltb_spec 1024 (strlen data)) as [|Hs]; [done|].
  destruct (fromhex data) as [payload|e] eqn:Hf.
  2: { apply Hc'. unfold fromhex in Hf. destruct (fromhex_list _); simplify_eq. by eexists. }
  cbv zeta.
  destruct (if le_int (ztake 4 payload) =? GROUP_MAGIC then _ else _) as [[ev' inner]|e] eqn:Hg.
  2: { apply Hc'. destruct (_ =? _); [|done]. destruct (unwrap payload) as [[]|] eqn:Hu; [done|].
       injection Hg as <-. by eapply unwrap_error. }
  assert (carries payload inner) as Hcar.
  { unfold carries. destruct (_ =? _); [|by injection Hg as _ ->].
    destruct (unwrap payload) as [[g i]|]; [|done]. injection Hg as _ <-. by eexists. }
  destruct (assoc (le_int (ztake 4 inner)) DECODERS) as [[kind d]|] eqn:Ha; [|done].
  apply assoc_in in Ha. destruct (val_eqb (getv "schema" r) (VInt 100)) eqn:Hsc; [|done].
  cbn [negb]. destruct (d inner) as [record|e] eqn:Hdec.
  - cbn [snd]. do 6 eexists. split_and!; eauto.
  - apply Hc'. by eapply decoder_error.
Qed.

(** A record's flags are clear and its four counters are set. *)
Definition qualified (record : dict) : Prop :=
  iget "flags" record = 0 /\
  Forall (fun k => iget k record <> 0) ["instance"; "revision"; "run"; "sequence"].

Lemma qualified_iff record : qualified record <->
  iget "flags" record = 0 /\ iget "instance" record <> 0 /\ iget "revision" record <> 0 /\
  iget "run" record <> 0 /\ iget "sequence" record <> 0.
Proof. unfold qualified. rewrite !Forall_cons. pose proof (Forall_nil_2 (fun k => iget k record <> 0)). tauto. Qed.

Lemma unqualified_spec r : counters_present r ->
  exists b, unqualified r = Ok b /\ (b = false <-> qualified r).
Proof.
  unfold counters_present, unqualified, item. intros H.
  repeat match type of H with Forall _ (_ :: _) =>
    let E := fresh in apply Forall_cons in H as [E H]; destruct E as [? E] end. clear H.
  exists (negb (iget "flags" r =? 0) || (iget "instance" r =? 0) || (iget "revision" r =? 0) ||
          (iget "run" r =? 0) || (iget "sequence" r =? 0)).
  split; [|rewrite qualified_iff; lia]. unfold iget.
  repeat match goal with E : get _ r = Some _ |- _ => rewrite ?E; clear E end. cbn [truthy].
  repeat match goal with |- context [negb (?z =? 0)] => destruct (Z.eqb_spec z 0); cbn [negb] end;
    reflexivity.
Qed.

(** The four ways [project_event] ends on a record. *)
Lemma project_record event : getv "type" event = VStr "record" ->
  exists t a o ev, project_event event = Ok (output_of t a o ev) /\
    (t = "agent.activity" -> exists kind record,
       decodes_as (default (VDict []) (get "raw" event)) kind record /\ qualified record /\
       fields kind record = Ok (a, o)) /\
    (t <> "agent.activity" -> a = [] /\ o = []).
Proof.
  intros Ht. unfold project_event. rewrite Ht. cbn [val_eqb String.eqb Ascii.eqb Bool.eqb negb].
  cbv zeta. set (raw := match get "raw" event with Some r => r | None => VDict [] end).
  set (ev0 := set "raw" raw _).
  pose proof (read_record_spec raw ev0) as Hs.
  destruct (read_record raw ev0) as [ev [kind record| |m|e]]; cbn [snd] in Hs; try done.
  2, 3: by do 4 eexists; split; [reflexivity|].
  destruct Hs as (r & data & payload & inner & d & m & Hr & Hd & Hl & Hf & Hc & -> & Hin & Hsc & Hdec).
  destruct (decoder_ready _ _ _ _ _ Hin
    (carries_bytes _ _ (is_bytes_fromhex _ _ Hf) Hc) Hdec) as (Hcnt & [a o] & Hfields).
  destruct (unqualified_spec record Hcnt) as (b & Hu & Hb).
  pose proof Hcnt as Hcnt'. apply Forall_cons in Hcnt' as [_ Hcnt']. apply Forall_cons in Hcnt' as [[z Hz] _].
  unfold item at 1. rewrite Hz, Hu. destruct b.
  - by do 4 eexists; split; [reflexivity|].
  - rewrite Hfields. do 4 eexists. split; [reflexivity|]. split; [|done]. intros _.
    exists kind, record. split_and!; [|by apply Hb|done].
    assert (default (VDict []) (get "raw" event) = raw) as -> by (unfold raw; by destruct (get "raw" event)).
    do 6 eexists. split_and!; eauto.
Qed.

(** C4: the exporter answers on every collector event whose type is not a list
    or an object: whatever the bytes, it returns an observation whose identity is
    unset and whose identity binding is unknown, and anything but an activity
    has an empty activity and an empty outcome. *)
Theorem project_event_total event :
  (forall l, getv "type" event <> VList l) -> (forall d, getv "type" event <> VDict d) ->
  exists t a o ev, project_event event = Ok (output_of t a o ev) /\
    (t <> "agent.activity" -> a = [] /\ o = []).
Proof.
  intros Hl Hd. destruct (val_eqb (getv "type" event) (VStr "record")) eqn:Et.
  - apply val_eqb_str in Et. destruct (project_record event Et) as (t & a & o & ev & H & _ & Hn).
    by exists t, a, o, ev.
  - unfold project_event. rewrite Et. cbn [negb]. cbv zeta.
    destruct (getv "type" event) as [| | | | | |l|d] eqn:E; try by do 4 eexists; split; [reflexivity|].
    + by destruct (Hl l).
    + by destruct (Hd d).
Qed.

Lemma project_event_total_witness : exists t a o ev,
  project_event [("type", VStr "record"); ("raw", VDict [("data", VStr "zz"); ("schema", VInt 100)])]
    = Ok (output_of t a o ev) /\ (t <> "agent.activity" -> a = [] /\ o = []).
Proof. apply project_event_total; intros ?; vm_compute; discriminate. Defined.

(** C5: an activity is reported only for a collector record of schema 100 whose
    bytes (the payload itself or the record inside its group frame) are decoded
    by the decoder of their magic, whose flags are clear and whose instance,
    revision, run and sequence are set; the activity and the outcome are the
    fields of that record and the identity stays unset. *)
Theorem activity_is_qualified event out :
  project_event event = Ok out -> get "event_type" out = Some (VStr "agent.activity") ->
  getv "type" event = VStr "record" /\ get "identity" out = Some VNone /\
  exists kind record a o,
    decodes_as (default (VDict []) (get "raw" event)) kind record /\ qualified record /\
    fields kind record = Ok (a, o) /\
    get "activity" out = Some (VDict a) /\ get "reported_outcome" out = Some (VDict o).
Proof.
  intros H Ho. destruct (val_eqb (getv "type" event) (VStr "record")) eqn:Et.
  - apply val_eqb_str in Et. split; [done|].
    destruct (project_record event Et) as (t & a & o & ev & Hp & Ha & _).
    rewrite Hp in H. injection H as <-. cbn in Ho. injection Ho as ->.
    destruct (Ha eq_refl) as (kind & record & Hd & Hq & Hf).
    split; [done|]. by exists kind, record, a, o.
  - exfalso. unfold project_event in H. rewrite Et in H. cbn [negb] in H. cbv zeta in H.
    unfold output_of in H.
    destruct (getv "type" event); try discriminate H; apply Ok_inj in H; rewrite <- H in Ho;
      cbn [get String.eqb Ascii.eqb Bool.eqb] in Ho; try discriminate Ho.
    destruct (mem_str s DIAGNOSTICS) eqn:Es; [|discriminate Ho].
    apply mem_str_In in Es. cbn [DIAGNOSTICS In] in Es.
    by repeat destruct Es as [<-|Es].
Qed.

Definition abort_event : dict :=
  [("type", VStr "record");
   ("raw", VDict [("schema", VInt 100);
     ("data", VStr (hex (le_bytes 4 0x5253504d ++ le_bytes 4 1 ++ le_bytes 8 1 ++ le_bytes 8 1 ++
        le_bytes 8 1 ++ le_bytes 8 0 ++ le_bytes 8 1 ++ le_bytes 8 0 ++ le_bytes 4 1 ++
        replicate 36 0)))])].

Definition abort_out : dict := match project_event abort_event with Ok o => o | Err _ => [] end.

Lemma activity_is_qualified_witness : project_event abort_event = Ok abort_out /\
  exists kind record, decodes_as (default (VDict []) (get "raw" abort_event)) kind record /\
    qualified record.
Proof.
  assert (project_event abort_event = Ok abort_out) as H by (vm_compute; reflexivity).
  assert (get "event_type" abort_out = Some (VStr "agent.activity")) as Ht by (vm_compute; reflexivity).
  split; [exact H|].
  destruct (activity_is_qualified abort_event abort_out H Ht)
    as (_ & _ & kind & record & a & o & Hd & Hq & _).
  exists kind, record. split; [exact Hd|exact Hq].
Defined.

(** ** Pages *)

(** An output row carries its input row's cursor and that row's projection. *)
Definition row_of (row out : val) : Prop :=
  exists r c e e', row = VDict r /\ get "cursor" r = Some (VStr c) /\
    get "event" r = Some (VDict e) /\ project_event e = Ok e' /\
    out = VDict [("cursor", VStr c); ("event", VDict e')].

Lemma project_rows_spec events rows outs : page_rows events = Some rows ->
  mapM_r project_row rows = Ok outs -> Forall2 row_of events outs.
Proof.
  revert rows outs. induction events as [|ev events IH]; intros rows outs Hr Ho; simpl in Hr.
  - injection Hr as <-. injection Ho as <-. constructor.
  - destruct (page_row ev) as [[c e]|] eqn:Hp; [|done].
    destruct (page_rows events) as [xs|]; [|done]. injection Hr as <-. cbn [mapM_r] in Ho.
    unfold project_row at 1 in Ho. cbn [snd fst] in Ho.
    destruct (project_event e) as [e'|] eqn:He; [|done].
    destruct (mapM_r project_row xs) as [ys|] eqn:Hm; [|done]. injection Ho as <-.
    constructor; [|by eapply IH]. unfold page_row in Hp.
    destruct ev as [| | | | | | |r]; try done.
    destruct (get "cursor" r) as [[| | |s| | | |]|] eqn:Hc; try done.
    destruct (get "event" r) as [[| | | | | | |e0]|] eqn:Hev; try done. simplify_eq.
    by exists r, s, e, e'.
Qed.

(** Exporting a page keeps its replay boundaries: at most 128 rows, one
    output row per input row in the same order with the same cursor, and every
    other key of the page (the next cursor and the retention boundaries among
    them) unchanged. *)
Theorem project_page_keeps_cursors p out :
  project_page (VDict p) = Ok out -> has "error" p = false ->
  exists events outs, get "events" p = Some (VList events) /\ len events <= 128 /\
    get "events" out = Some (VList outs) /\ Forall2 row_of events outs /\
    forall k, k <> "events" -> k <> "format" -> get k out = get k p.
Proof.
  unfold project_page. intros H He. rewrite He in H.
  destruct (get "events" p) as [[| | | | | |events|]|] eqn:Hev; try done.
  destruct (Z.ltb_spec 128 (len events)); [done|].
  destruct (get "next_cursor" p) as [[| | |c| | | |]|]; try done.
  destruct (page_rows events) as [rows|] eqn:Hr; [|done].
  destruct (mapM_r project_row rows) as [outs|] eqn:Ho; [|done]. injection H as <-.
  exists events, outs. split_and!; [done|done| |by eapply project_rows_spec|].
  - apply get_set_eq.
  - intros k H1 H2. by rewrite !get_set_ne.
Qed.

Definition small_page : dict :=
  [("events", VList [VDict [("cursor", VStr "j:1"); ("event", VDict [])]]);
   ("next_cursor", VStr "j:1")].
Definition small_out : dict := match project_page (VDict small_page) with Ok o => o | Err _ => [] end.

Lemma project_page_keeps_cursors_witness :
  project_page (VDict small_page) = Ok small_out /\
  get "next_cursor" small_out = get "next_cursor" small_page.
Proof.
  assert (project_page (VDict small_page) = Ok small_out) as H by (vm_compute; reflexivity).
  split; [exact H|].
  destruct (project_page_keeps_cursors small_page small_out H eq_refl)
    as (events & outs & _ & _ & _ & _ & Hk).
  apply Hk; discriminate.
Defined.
