(* ===== verification/ExportText.v ===== *)
(** * Text values survive the export

    A string written as escaped JSON in UTF-8 by the traffic is read back
    exactly: [utf8_decode] inverts the UTF-8 encoding and [json_text] inverts
    JSON escaping. *)

From S2P Require Import Prelude PyVal Text Decoders Export ExportSpec.

(** ** Encoders *)

(** A Unicode scalar value. *)
Definition scalar (c : Z) : Prop := 0 <= c <= 0x10ffff /\ ~ (0xd800 <= c <= 0xdfff).

Definition utf8_char (c : Z) : bytes :=
  if c <? 0x80 then [c]
  else if c <? 0x800 then [0xc0 + c / 64; 0x80 + c mod 64]
  else if c <? 0x10000 then [0xe0 + c / 4096; 0x80 + c / 64 mod 64; 0x80 + c mod 64]
  else [0xf0 + c / 262144; 0x80 + c / 4096 mod 64; 0x80 + c / 64 mod 64; 0x80 + c mod 64].

Definition utf8_encode (l : list Z) : bytes := concat (map utf8_char l).

(** The minimal JSON escape of one character. *)
Definition escape_char (c : Z) : list Z :=
  if (c =? 34) || (c =? 92) then [92; c]
  else if c <? 32 then [92; 117; 48; 48; ord (hexdigit (c / 16)); ord (hexdigit (c mod 16))]
  else [c].

Definition json_escape (l : list Z) : list Z := concat (map escape_char l).

(** ** UTF-8 *)

(** The three-byte and four-byte sums. *)
Lemma utf8_sum2 c : (0xc0 + c / 64 - 0xc0) * 64 + (0x80 + c mod 64 - 0x80) = c.
Proof. Z.div_mod_to_equations. lia. Qed.

Lemma utf8_sum3 c :
  (0xe0 + c / 4096 - 0xe0) * 4096 + (0x80 + c / 64 mod 64 - 0x80) * 64 + (0x80 + c mod 64 - 0x80) = c.
Proof.
  replace (c / 4096) with (c / 64 / 64) by (rewrite Z.div_div by lia; done).
  pose proof (Z_div_mod_eq_full c 64). pose proof (Z_div_mod_eq_full (c / 64) 64). lia.
Qed.

Lemma utf8_sum4 c :
  (0xf0 + c / 262144 - 0xf0) * 262144 + (0x80 + c / 4096 mod 64 - 0x80) * 4096 +
  (0x80 + c / 64 mod 64 - 0x80) * 64 + (0x80 + c mod 64 - 0x80) = c.
Proof.
  replace (c / 262144) with (c / 64 / 64 / 64) by (rewrite !Z.div_div by lia; done).
  replace (c / 4096) with (c / 64 / 64) by (rewrite Z.div_div by lia; done).
  pose proof (Z_div_mod_eq_full c 64). pose proof (Z_div_mod_eq_full (c / 64) 64).
  pose proof (Z_div_mod_eq_full (c / 64 / 64) 64). lia.
Qed.

Lemma cont_mod x : cont (0x80 + x mod 64) = true.
Proof. unfold cont. pose proof (Z.mod_pos_bound x 64). lia. Qed.

Lemma utf8_decode_char c rest : scalar c ->
  utf8_decode (utf8_char c ++ rest) = option_map (cons c) (utf8_decode rest).
Proof.
  intros [Hc Hs]. unfold utf8_char.
  destruct (Z.ltb_spec c 0x80) as [H1|H1]; [cbn [app utf8_decode]; by destruct (Z.ltb_spec c 0x80); [|lia]|].
  destruct (Z.ltb_spec c 0x800) as [H2|H2].
  { cbn [app utf8_decode]. assert (2 <= c / 64 <= 31) by (Z.div_mod_to_equations; lia).
    destruct (Z.ltb_spec (0xc0 + c / 64) 0x80); [lia|].
    destruct ((0xc2 <=? _) && _) eqn:E; [|lia]. by rewrite cont_mod, utf8_sum2. }
  destruct (Z.ltb_spec c 0x10000) as [H3|H3].
  { cbn [app utf8_decode]. assert (0 <= c / 4096 <= 15) by (Z.div_mod_to_equations; lia).
    destruct (Z.ltb_spec (0xe0 + c / 4096) 0x80); [lia|].
    destruct ((0xc2 <=? _) && _) eqn:E; [lia|].
    destruct ((0xe0 <=? _) && _) eqn:E'; [|lia]. cbv zeta. rewrite !cont_mod, utf8_sum3.
    destruct (true && true && _ && _) eqn:E''; [done|lia]. }
  cbn [app utf8_decode]. assert (0 <= c / 262144 <= 4) by (Z.div_mod_to_equations; lia).
  destruct (Z.ltb_spec (0xf0 + c / 262144) 0x80); [lia|].
  destruct ((0xc2 <=? _) && _) eqn:E; [lia|]. destruct ((0xe0 <=? _) && _) eqn:E'; [lia|].
  destruct ((0xf0 <=? _) && _) eqn:E2; [|lia]. cbv zeta. rewrite !cont_mod, utf8_sum4.
  destruct (true && true && true && _ && _) eqn:E3; [done|lia].
Qed.

Lemma utf8_roundtrip l : Forall scalar l -> utf8_decode (utf8_encode l) = Some l.
Proof.
  induction 1 as [|c l Hc _ IH]; [done|]. unfold utf8_encode in *. cbn [map concat].
  by rewrite utf8_decode_char, IH.
Qed.

Lemma is_bytes_utf8 l : Forall scalar l -> is_bytes (utf8_encode l).
Proof.
  induction 1 as [|c l [Hc Hs] _ IH]; [constructor|]. unfold utf8_encode. cbn [map concat].
  apply is_bytes_app. split; [|done].
  pose proof (Z.mod_pos_bound c 64). pose proof (Z.mod_pos_bound (c / 64) 64).
  pose proof (Z.mod_pos_bound (c / 4096) 64).
  unfold utf8_char. repeat case_match; repeat constructor; unfold is_byte;
    try lia; Z.div_mod_to_equations; lia.
Qed.

(** ** JSON escapes *)

Lemma hexval4_control c : 0 <= c < 32 ->
  hexval4 48 48 (ord (hexdigit (c / 16))) (ord (hexdigit (c mod 16))) = Some c.
Proof.
  intros Hc. pose proof (Z.mod_pos_bound c 16). pose proof (Z_div_mod_eq_full c 16).
  unfold hexval4. rewrite !chr_ord, !hexval_digit by lia. cbn [hexval].
  change (hexval (chr 48)) with (Some 0). cbn [forallb].
  assert (forall v, 0 <= v < 16 -> (ord (hexdigit v) <? 128) = true) as Ho.
  { intros v Hv. unfold hexdigit. destruct (Z.ltb_spec v 10); rewrite ord_chr by lia; lia. }
  rewrite !Ho by lia. cbn [andb]. f_equal. lia.
Qed.

(** A code unit that is not a high surrogate stands for itself. *)
Lemma json_text_unit a b d e u rest : hexval4 a b d e = Some u -> u < 0xd800 ->
  json_text (92 :: 117 :: a :: b :: d :: e :: rest) = option_map (cons u) (json_text rest).
Proof.
  intros Hh Hu. cbn [json_text Z.eqb Pos.eqb]. rewrite Hh.
  do 6 (destruct rest as [|? rest]; [done|]).
  destruct (unicode_escape _) as [v|]; [|done].
  destruct ((0xd800 <=? u) && _ && _ && _) eqn:E; [lia|done].
Qed.

Lemma json_text_escape c rest : 0 <= c ->
  json_text (escape_char c ++ rest) = option_map (cons c) (json_text rest).
Proof.
  intros Hc. unfold escape_char. destruct ((c =? 34) || (c =? 92)) eqn:E.
  - assert (c = 34 \/ c = 92) as [->| ->] by lia; done.
  - destruct (Z.ltb_spec c 32).
    + apply json_text_unit; [apply hexval4_control; lia|lia].
    + cbn [app json_text]. destruct (Z.eqb_spec c 34); [lia|]. destruct (Z.eqb_spec c 92); [lia|].
      destruct (Z.ltb_spec c 32); [lia|done].
Qed.

Lemma json_roundtrip l : Forall scalar l -> json_text (json_escape l) = Some l.
Proof.
  induction 1 as [|c l [Hc _] _ IH]; [done|]. unfold json_escape in *. cbn [map concat].
  rewrite json_text_escape by lia. by rewrite IH.
Qed.

Lemma escape_scalar l : Forall scalar l -> Forall scalar (json_escape l).
Proof.
  induction 1 as [|c l Hc _ IH]; [constructor|]. unfold json_escape. cbn [map concat].
  apply Forall_app. split; [|done]. unfold escape_char.
  assert (forall v, scalar (ord v)) as Ho.
  { intros v. pose proof (ord_bound v). unfold scalar. lia. }
  assert (forall z, 0 <= z < 256 -> scalar z) as Hz by (unfold scalar; lia).
  repeat case_match; repeat constructor; first [apply Ho | apply Hz; lia | apply Hc].
Qed.

(** A complete string value comes out of the export as the text the traffic
    carried: for every sequence of Unicode scalar values, the field whose bytes
    are its escaped JSON form in UTF-8 has exactly that text as its value. *)
Theorem string_field_roundtrip text record : Forall scalar text ->
  get "status" record = Some (VInt 1) ->
  get "value_hex" record = Some (VStr (hex (utf8_encode (json_escape text)))) ->
  present "status_name" record -> present "original_length" record ->
  exists f, string_field record = Ok f /\ get "value" f = Some (VText text) /\
    get "text_error" f = None.
Proof.
  intros Ht Hs Hv [n Hn] [o Ho]. unfold string_field, item. rewrite Hs, Hv, Hn, Ho.
  cbn [val_eqb Z.eqb Pos.eqb].
  rewrite fromhex_hex by by apply is_bytes_utf8, escape_scalar.
  rewrite utf8_roundtrip by by apply escape_scalar. rewrite json_roundtrip by done.
  eexists. split; [reflexivity|]. by split.
Qed.

Definition quote_record : dict :=
  [("status", VInt 1); ("value_hex", VStr "5c22c3a95c7530303061");
   ("status_name", VStr "complete"); ("original_length", VInt 10)].

Lemma string_field_roundtrip_witness : exists f, string_field quote_record = Ok f /\
  get "value" f = Some (VText [34; 233; 10]) /\ get "text_error" f = None.
Proof.
  apply string_field_roundtrip.
  - unfold scalar. repeat (apply Forall_cons_2; [lia|]). apply Forall_nil_2.
  - reflexivity.
  - vm_compute. reflexivity.
  - eexists. reflexivity.
  - eexists. reflexivity.
Defined.
