(* ===== verification/Combine.v ===== *)
(** * The activity combiner (env/ai-traffic/activity_combine.py)

    Exchange groups keyed by source, ring, run, owner and exchange, collected
    from projected replay pages.  Rows are projections made by [Export], so the
    keys the combiner reads are there and the readers below are total.  The
    SHA-256 of the key is the parameter [digest]. *)

From S2P Require Import Prelude PyVal Decoders Export.

(** ** Readers *)

Definition dget (k : string) (d : dict) : dict :=
  match get k d with Some (VDict x) => x | _ => [] end.

(** [int(v)] of a counter text. *)
Definition int_of (v : val) : Z :=
  match v with VStr s => default 0 (py_int s) | VInt z => z | _ => 0 end.
Definition int_at (k : string) (d : dict) : Z := int_of (getv k d).

Definition str_eq (k : string) (d : dict) (s : string) : bool := val_eqb (getv k d) (VStr s).

(** ** Timing *)

(** [str.isascii() and str.isdecimal()]. *)
Definition ascii_decimal (s : string) : bool :=
  match str_list s with [] => false | l => forallb is_digit l end.

Definition nanoseconds (v : val) : option Z :=
  let z := match v with
           | VStr s => if ascii_decimal s && (strlen s <=? 20) then py_int s else None
           | VInt z => Some z
           | _ => None
           end in
  match z with
  | Some z => if (0 <? z) && (z <? 2 ^ 64) then Some z else None
  | None => None
  end.

(** The civil date of a day number counted from 1970-01-01. *)
Definition civil (days : Z) : Z * Z * Z :=
  let z := days + 719468 in
  let era := z / 146097 in
  let doe := z mod 146097 in
  let yoe := (doe - doe / 1460 + doe / 36524 - doe / 146096) / 365 in
  let doy := doe - (365 * yoe + yoe / 4 - yoe / 100) in
  let mp := (5 * doy + 2) / 153 in
  let d := doy - (153 * mp + 2) / 5 + 1 in
  let m := if mp <? 10 then mp + 3 else mp - 9 in
  ((if m <=? 2 then yoe + era * 400 + 1 else yoe + era * 400), m, d).

(** A number padded with zeros to a width. *)
Definition padded (w : nat) (z : Z) : string :=
  let s := str_list (py_str z) in
  list_str (replicate (w - length s) (chr 48) ++ s).

Definition timestamp (v : val) : val :=
  match nanoseconds v with
  | None => VNone
  | Some z =>
      let seconds := z / 1000000000 in
      let fraction := z mod 1000000000 in
      let '(y, m, d) := civil (seconds / 86400) in
      let s := seconds mod 86400 in
      VStr (String.concat "" [padded 4 y; "-"; padded 2 m; "-"; padded 2 d; "T";
                              padded 2 (s / 3600); ":"; padded 2 (s / 60 mod 60); ":";
                              padded 2 (s mod 60); "."; padded 9 fraction; "Z"])
  end.

(** A projected row. *)
Record row := Row { r_cursor : string; r_event : dict }.

Definition r_evidence (r : row) : dict := dget "evidence" (r_event r).
Definition r_group (r : row) : dict := dget "group" (r_evidence r).
Definition r_record (r : row) : dict := dget "record" (r_evidence r).
Definition r_raw (r : row) : dict := dget "raw" (r_evidence r).
Definition r_kind (r : row) : string := sget "observation" (r_evidence r).
Definition r_side (r : row) : Z := iget "side" (r_group r).
Definition r_phase (r : row) : Z := iget "phase" (r_group r).
Definition r_status (r : row) : Z := iget "status" (r_group r).
Definition is_http (r : row) : bool := String.eqb (r_kind r) "http_response".

Definition observation_timing (first last : row) : dict :=
  let ended := r_phase last =? 3 in
  let start := nanoseconds (getv "monotonic_ns" (r_record first)) in
  let fin := if ended then nanoseconds (getv "monotonic_ns" (r_record last)) else None in
  let duration := match start, fin with
                  | Some s, Some e => if s <=? e then VStr (py_str (e - s)) else VNone
                  | _, _ => VNone
                  end in
  let timing := [("started_at", timestamp (getv "ts_ns" (r_raw first)));
                 ("ended_at", if ended then timestamp (getv "ts_ns" (r_raw last)) else VNone);
                 ("last_observed_at", timestamp (getv "ts_ns" (r_raw last)));
                 ("duration_ns", duration)] in
  let complete := forallb (fun kv => match kv.2 with VNone => false | _ => true end) timing in
  let status := match start, fin with
                | Some s, Some e => if e <? s then "invalid"
                                    else if complete then "complete" else "incomplete"
                | _, _ => if complete then "complete" else "incomplete"
                end in
  timing ++ [("status", VStr status)].

(** ** State *)

(** (source_id, ring, run, owner_instance, exchange). *)
Definition key := (string * Z * string * string * string)%type.
(** (source_id, ring, instance, run). *)
Definition producer := (string * Z * string * string)%type.

Record group := Group {
  g_first : string; g_rows : list row; g_issues : list string; g_confirmed : bool }.

Record combiner := Combiner {
  capacity : Z; max_records : Z;
  pending : list (key * group);      (** a dict, in insertion order *)
  sequences : gmap producer Z;
  cursor : option string }.

Definition new_combiner (capacity max_records : Z) : combiner :=
  Combiner capacity max_records [] ∅ None.

Fixpoint pget (k : key) (d : list (key * group)) : option group :=
  match d with
  | [] => None
  | (k', g) :: t => if decide (k = k') then Some g else pget k t
  end.
Fixpoint pset (k : key) (g : group) (d : list (key * group)) : list (key * group) :=
  match d with
  | [] => [(k, g)]
  | (k', g') :: t => if decide (k = k') then (k', g) :: t else (k', g') :: pset k g t
  end.
Fixpoint ppop (k : key) (d : list (key * group)) : list (key * group) :=
  match d with
  | [] => []
  | (k', g') :: t => if decide (k = k') then t else (k', g') :: ppop k t
  end.

Definition with_pending (c : combiner) (p : list (key * group)) : combiner :=
  Combiner (capacity c) (max_records c) p (sequences c) (cursor c).
Definition with_sequences (c : combiner) (s : gmap producer Z) : combiner :=
  Combiner (capacity c) (max_records c) (pending c) s (cursor c).
Definition with_cursor (c : combiner) (s : string) : combiner :=
  Combiner (capacity c) (max_records c) (pending c) (sequences c) (Some s).

(** ** The checks of [finish] *)

(** (side, kind) -> row. *)
Definition field_map := list (Z * string * row).

Fixpoint fget (side : Z) (kind : string) (f : field_map) : option row :=
  match f with
  | [] => None
  | (s, k, r) :: t => if (side =? s) && String.eqb kind k then Some r else fget side kind t
  end.
Fixpoint fset (side : Z) (kind : string) (r : row) (f : field_map) : field_map :=
  match f with
  | [] => [(side, kind, r)]
  | (s, k, r') :: t =>
      if (side =? s) && String.eqb kind k then (s, k, r) :: t else (s, k, r') :: fset side kind r t
  end.

(** What the first loop of [finish] accumulates. *)
Record scan := Scan {
  s_fields : field_map; s_issues : list string;
  s_calls1 : gset (string * string * string); s_calls2 : gset (string * string * string);
  s_http : gset (string * string); s_confirm : list string }.

Definition scan_row (s : scan) (r : row) : scan :=
  let record := r_record r in
  let side := r_side r in
  if is_http r then
    Scan (s_fields s) (s_issues s) (s_calls1 s) (s_calls2 s)
      ({[ (sget "instance" record, sget "revision" record) ]} ∪ s_http s)
      (if (side =? 1) && (iget "code" record =? 142) then s_confirm s ++ [r_cursor r] else s_confirm s)
  else if negb (mem_Z side [1; 2]) then
    Scan (s_fields s) (s_issues s ++ ["unknown_side"]) (s_calls1 s) (s_calls2 s) (s_http s) (s_confirm s)
  else
    let call := (sget "instance" record, sget "revision" record, sget "invocation" (r_group r)) in
    let issues := match fget side (r_kind r) (s_fields s) with
                  | Some _ => s_issues s ++ ["duplicate_field"]
                  | None => s_issues s
                  end in
    Scan (fset side (r_kind r) r (s_fields s)) issues
      (if side =? 1 then {[ call ]} ∪ s_calls1 s else s_calls1 s)
      (if side =? 2 then {[ call ]} ∪ s_calls2 s else s_calls2 s)
      (s_http s) (s_confirm s).

Definition JSON_KINDS : list string := ["method"; "operation_target"; "message_id"; "reply"].

Definition if_issue (b : bool) (s : string) : list string := if b then [s] else [].

(** The structural issues of a scan. *)
Definition scan_issues (s : scan) : list string :=
  flat_map (fun '(side, calls) =>
      if_issue (negb (size calls =? 1)%nat) "missing_or_multiple_json_messages" ++
      flat_map (fun kind => if_issue (match fget side kind (s_fields s) with None => true | _ => false end)
                              "missing_field") JSON_KINDS)
    [(1, s_calls1 s); (2, s_calls2 s)] ++
  if_issue (negb (size (set_map (fun c => (c.1.1, c.1.2)) (s_calls1 s ∪ s_calls2 s)
                        : gset (string * string)) =? 1)%nat)
    "json_producer_changed" ++
  if_issue (negb (size (s_http s) =? 1)%nat || negb (length (s_confirm s) =? 1)%nat)
    "missing_or_conflicting_http_confirmation".

(** The accumulators of the rest of [finish]. *)
Record summary := Summary {
  m_issues : list string; m_activity : dict; m_outcome : dict; m_sources : dict }.

Definition add_activity (f : field_map) (m : summary) (nk : string * string) : summary :=
  let '(name, kind) := nk in
  match fget 1 kind f with
  | None => m
  | Some r =>
      let value := getv name (dget "activity" (r_event r)) in
      if negb (truthy value) then m else
      let vd := match value with VDict v => v | _ => [] end in
      Summary (m_issues m ++ if_issue (negb (str_eq "status" vd "complete") || has "text_error" vd)
                               (String.append "incomplete_" name))
        (set name value (m_activity m)) (m_outcome m)
        (set name (VStr (r_cursor r)) (m_sources m))
  end.

Definition id_issues (f : field_map) : list string :=
  match fget 1 "message_id" f, fget 2 "message_id" f with
  | Some r1, Some r2 =>
      let v1 := dget "message_id" (dget "activity" (r_event r1)) in
      let v2 := dget "message_id" (dget "activity" (r_event r2)) in
      if negb (str_eq "status" v1 "complete") || negb (str_eq "status" v2 "complete")
      then ["incomplete_id"]
      else if_issue (negb (val_eqb (getv "kind" v1) (getv "kind" v2)
                           && val_eqb (getv "raw_hex" v1) (getv "raw_hex" v2))) "reply_id_mismatch"
  | _, _ => []
  end.

Definition add_reply (f : field_map) (m : summary) : summary :=
  match fget 2 "reply" f with
  | None => m
  | Some r =>
      let outcome := update (dget "reported_outcome" (r_event r)) (m_outcome m) in
      Summary (m_issues m ++ if_issue (negb (str_eq "status" outcome "complete")) "incomplete_reply")
        (m_activity m) outcome (set "reply" (VStr (r_cursor r)) (m_sources m))
  end.

Definition add_http_value (r : row) (m : summary) (name : string) : summary :=
  let value := getv name (dget "reported_outcome" (r_event r)) in
  match value with
  | VDict vd =>
      if truthy value && str_eq "status" vd "complete" then
        Summary
          (m_issues m ++ match get name (m_outcome m) with
                         | Some old => if_issue (negb (val_eqb old value))
                                         (String.append "conflicting_" name)
                         | None => []
                         end)
          (m_activity m) (set name value (m_outcome m))
          (set name (VStr (r_cursor r)) (m_sources m))
      else m
  | _ => m
  end.

Definition add_http (m : summary) (r : row) : summary :=
  if negb (r_side r =? 1) then m
  else fold_left (add_http_value r) ["http_status"; "local_transfer_complete"] m.

Definition tls_reading (r : row) : bool :=
  is_http r && (r_side r =? 1) && has "client_tls" (dget "activity" (r_event r)).

(** The transport block, its issues and its sources. *)
Definition transport (rows : list row) : dict * list string * dict :=
  let readings := filter (fun r => tls_reading r = true) rows in
  let values := map (fun r => getv "client_tls" (dget "activity" (r_event r))) readings in
  match values with
  | [] => ([("client_tls", VDict [("status", VStr "not_observed")])], [], [])
  | v :: _ =>
      let sources := [("client_tls", VList (map (fun r => VStr (r_cursor r)) readings))] in
      if forallb (fun w => val_eqb w v) values
      then ([("client_tls", VDict (set "status" (VStr "observed")
                                     (match v with VDict d => d | _ => [] end)))], [], sources)
      else ([("client_tls", VDict [("status", VStr "conflicting"); ("readings", VList values)])],
            ["conflicting_client_tls"], sources)
  end.

(** [sorted(set(issues))]. *)
Definition sorted_set (l : list string) : list string := merge_sort String.le (elements (list_to_set l : gset string)).

Section combiner.
Variable digest : key -> string.

(** The record of a finished group. *)
Definition combined (k : key) (g : group) (reason : option string) : dict :=
  let rows := g_rows g in
  let issues := g_issues g ++ match reason with Some r => [r] | None => [] end in
  let s := fold_left scan_row rows (Scan [] issues ∅ ∅ ∅ []) in
  let f := s_fields s in
  let m := Summary (s_issues s ++ scan_issues s) [] [] [] in
  let m := fold_left (add_activity f)
             [("method", "method"); ("target", "operation_target"); ("message_id", "message_id")] m in
  let m := Summary (m_issues m ++ id_issues f) (m_activity m) (m_outcome m) (m_sources m) in
  let m := add_reply f m in
  let m := fold_left add_http rows m in
  let m_issues' := m_issues m ++
    if_issue (negb (has "http_status" (m_outcome m)) || negb (has "local_transfer_complete" (m_outcome m)))
      "incomplete_http" in
  let '(tr, tr_issues, tr_sources) := transport rows in
  let issues := sorted_set (m_issues' ++ tr_issues) in
  let sources := update tr_sources (m_sources m) in
  let '(source_id, ring, run, owner, exchange) := k in
  let first := default (Row "" []) (head rows) in
  let last := default (Row "" []) (last rows) in
  [("schema_version", VInt 1); ("event_type", VStr "agent.activity.combined");
   ("activity_id", VStr (digest k)); ("identity_binding", VStr "unknown"); ("identity", VNone);
   ("correlation", VDict [("status", VStr (match issues with [] => "observed_exchange" | _ => "incomplete" end));
                          ("scope", VStr "single_worker_nonpipelined_http1");
                          ("issues", VList (map VStr issues))]);
   ("activity", VDict (m_activity m)); ("reported_outcome", VDict (m_outcome m));
   ("transport", VDict tr); ("timing", VDict (observation_timing first last));
   ("evidence", VDict
      [("source_id", VStr source_id); ("ring", VInt ring); ("run", VStr run);
       ("owner_instance", VStr owner); ("exchange", VStr exchange);
       ("first_cursor", VStr (g_first g)); ("last_cursor", VStr (r_cursor last));
       ("record_count", VInt (len rows)); ("field_sources", VDict sources);
       ("program_binding", VStr "not_verified_by_exporter");
       ("continuity", VStr "observed_records_only")])].

(** [finish]: the group leaves [pending]. *)
Definition finish (c : combiner) (k : key) (reason : option string) : result (combiner * dict) :=
  match pget k (pending c) with
  | None => Err (KeyError "pending")
  | Some g => Ok (with_pending c (ppop k (pending c)), combined k g reason)
  end.

(** [flush]: every group in order, then the sequence table is cleared. *)
Definition flush (c : combiner) (reason : string) : combiner * list dict :=
  (with_sequences (with_pending c []) ∅,
   map (fun kg => combined kg.1 kg.2 (Some reason)) (pending c)).

(** ** [feed] *)

(** [cursor.rsplit(":", 1)] and [int()] of the number. *)
Fixpoint last_colon (l : list ascii) : option (list ascii * list ascii) :=
  match l with
  | [] => None
  | c :: t =>
      match last_colon t with
      | Some (a, b) => Some (c :: a, b)
      | None => if Ascii.eqb c ":" then Some ([], t) else None
      end
  end.

Definition parse_cursor (s : string) : result (string * Z) :=
  match last_colon (str_list s) with
  | None => Err (ValueError "not enough values to unpack")
  | Some (a, b) =>
      match py_int (list_str b) with
      | Some n => Ok (list_str a, n)
      | None => Err (ValueError "invalid literal for int()")
      end
  end.

(** The cursor step: the rows a discontinuity flushes. *)
Definition advance (c : combiner) (cur : string) : result (combiner * list dict) :=
  let? (journal, number) := parse_cursor cur in
  match cursor c with
  | None | Some EmptyString => Ok (with_cursor c cur, [])
  | Some old =>
      let? (previous, offset) := parse_cursor old in
      raise_if (negb (String.eqb journal previous) || (number <=? offset))
        (ValueError "replay cursor changed journal or moved backwards") ;;
      let '(c, out) := if negb (number =? offset + 1) then flush c "cursor_discontinuity" else (c, []) in
      Ok (with_cursor c cur, out)
  end.

Definition kind_slot (kind : string) : option Z :=
  if String.eqb kind "method" then Some 0
  else if String.eqb kind "operation_target" then Some 1
  else if String.eqb kind "message_id" then Some 2
  else if String.eqb kind "reply" then Some 3 else None.

Definition is_str (v : val) : bool := match v with VStr _ => true | _ => false end.

(** [expected]: the invocation a record's sequence number implies. *)
Definition expected_invocation (r : row) : Z :=
  let seq := int_at "sequence" (r_record r) in
  if is_http r then seq else (seq - 1) / 4 + 1.

(** [valid]: the frame is the one its record's position implies. *)
Definition frame_valid (r : row) : bool :=
  let ev := r_evidence r in
  let frame := r_group r in
  let record := r_record r in
  let http := is_http r in
  let seq := int_at "sequence" record in
  let expected := expected_invocation r in
  let phase := r_phase r in
  is_str (getv "source_id" ev) && truthy (getv "source_id" ev)
  && match getv "ring" (r_raw r) with VInt z => (0 <=? z) && (z <? 16) | _ => false end
  && mem_Z (int_at "invocation" frame) [0; expected]
  && (if negb (str_eq "exchange" frame "0") then
        str_eq "invocation" frame (py_str expected)
        && (http || val_eqb (getv "owner_instance" frame) (getv "instance" record))
        && (if phase =? 1 then
              String.eqb (r_kind r) "method" && (r_side r =? 1)
              && val_eqb (getv "exchange" frame) (getv "sequence" record) && (r_status r =? 1)
            else if phase =? 3 then
              http && (r_side r =? 1) && (iget "code" record =? 29) && (r_status r =? 1)
            else if phase =? 4 then
              http && mem_Z (iget "code" record) [1; 5; 57; 142]
              || String.eqb (r_kind r) "method" && (r_side r =? 1) && (r_status r =? 4)
            else if negb http then
              bool_decide (Some ((seq - 1) mod 4) = kind_slot (r_kind r))
              && (if String.eqb (r_kind r) "message_id"
                  then val_eqb (getv "flow_status" record) (VInt 1)
                       && val_eqb (getv "flow_side" record) (getv "side" frame)
                  else true)
            else true)
      else true).

Definition row_producer (r : row) : producer :=
  (sget "source_id" (r_evidence r), iget "ring" (r_raw r), sget "instance" (r_record r),
   sget "run" (r_record r)).
Definition row_key (r : row) : key :=
  (sget "source_id" (r_evidence r), iget "ring" (r_raw r), sget "run" (r_record r),
   sget "owner_instance" (r_group r), sget "exchange" (r_group r)).

(** The event as it is emitted when it is demoted to an observation. *)
Definition demoted (r : row) (status : string) : dict :=
  set "evidence" (VDict (set "status" (VStr status) (r_evidence r)))
    (set "event_type" (VStr "agent.observation") (r_event r)).

(** A row joins the group of its key. *)
Definition join_group (c : combiner) (k : key) (g : group) (r : row) : result (combiner * list dict) :=
  let record := r_record r in
  let http := is_http r in
  let confirmed := g_confirmed g
    || http && (iget "code" record =? 142) && (r_side r =? 1) && (r_status r =? 1) in
  let issues := g_issues g
    ++ if_issue (negb http && (r_side r =? 2) && negb confirmed) "reply_before_http_confirmation"
    ++ if_issue (negb (r_status r =? 1)) "invalid_group" in
  let g := Group (g_first g) (g_rows g ++ [r]) issues confirmed in
  let c := with_pending c (pset k g (pending c)) in
  if mem_Z (r_phase r) [3; 4] then
    let? (c, d) := finish c k (if r_phase r =? 4 then Some "invalidated" else None) in Ok (c, [d])
  else if max_records c <=? len (g_rows g) then
    let? (c, d) := finish c k (Some "record_capacity") in Ok (c, [d])
  else Ok (c, []).

(** A row with an exchange: the start of a group, or one more row of it. *)
Definition feed_exchange (c : combiner) (r : row) : result (combiner * list dict) :=
  let k := row_key r in
  if r_phase r =? 1 then
    match pget k (pending c) with
    | Some _ =>
        let? (c, d) := finish c k (Some "duplicate_start") in Ok (c, [d; r_event r])
    | None =>
        let? (c, out) :=
          (if capacity c <=? len (pending c) then
             match pending c with
             | [] => Err StopIteration
             | (k0, _) :: _ => let? (c, d) := finish c k0 (Some "capacity") in Ok (c, [d])
             end
           else Ok (c, [])) in
        let g := Group (r_cursor r) [] [] false in
        let c := with_pending c (pset k g (pending c)) in
        let? (c, out') := join_group c k g r in
        Ok (c, out ++ out')
    end
  else
    match pget k (pending c) with
    | Some g => join_group c k g r
    | None =>
        Ok (c, [set "correlation" (VDict [("status", VStr "unknown");
                                          ("reason", VStr "unobserved_start")]) (r_event r)])
    end.

(** A valid row: sequence accounting, then its group. *)
Definition feed_valid (c : combiner) (r : row) : result (combiner * list dict) :=
  let p := row_producer r in
  let seq := int_at "sequence" (r_record r) in
  let previous := sequences c !! p in
  let regressed := match previous with Some q => seq <=? q | None => false end in
  if regressed then
    let '(c, out) := flush c "duplicate_or_regressed_sequence" in
    let c := with_sequences c (match previous with
                               | Some q => <[p := q]> (sequences c)
                               | None => sequences c
                               end) in
    Ok (c, out ++ [demoted r "duplicate_or_regressed_sequence"])
  else
    let gap := match previous with Some q => negb (seq =? q + 1) | None => false end in
    let '(c, out1) :=
      if gap || negb (int_at "output_failures" (r_record r) =? 0)
      then flush c "producer_gap" else (c, []) in
    let '(c, out2) :=
      if (capacity c <=? Z.of_nat (size (sequences c)))
         && match sequences c !! p with None => true | Some _ => false end
      then flush c "producer_capacity" else (c, []) in
    let c := with_sequences c (<[p := seq]> (sequences c)) in
    if negb (truthy (getv "exchange" (r_group r))) || str_eq "exchange" (r_group r) "0"
    then Ok (c, out1 ++ out2 ++ [r_event r])
    else
      let? (c, out3) := feed_exchange c r in
      Ok (c, out1 ++ out2 ++ out3).

Definition feed_row (c : combiner) (r : row) : result (combiner * list dict) :=
  let? (c, out) := advance c (r_cursor r) in
  let event_type := sget "event_type" (r_event r) in
  let frame := getv "group" (r_evidence r) in
  if negb (String.eqb event_type "agent.activity") || negb (truthy frame) then
    let '(c, out') :=
      if negb (mem_str event_type ["agent.ring_health"; "agent.discard"])
      then flush c "diagnostic_or_unqualified_record" else (c, []) in
    Ok (c, out ++ out' ++ [r_event r])
  else if negb (frame_valid r) then
    let '(c, out') := flush c "invalid_frame_binding" in
    Ok (c, out ++ out' ++ [demoted r "invalid_frame_binding"])
  else
    let? (c, out') := feed_valid c r in
    Ok (c, out ++ out').

Fixpoint feed_rows (c : combiner) (rows : list row) : result (combiner * list dict) :=
  match rows with
  | [] => Ok (c, [])
  | r :: t =>
      let? (c, out) := feed_row c r in
      let? (c, out') := feed_rows c t in
      Ok (c, out ++ out')
  end.

Definition row_of_val (v : val) : row :=
  match v with
  | VDict d => Row (sget "cursor" d) (dget "event" d)
  | _ => Row "" []
  end.

Definition feed (c : combiner) (page : dict) : result (combiner * list dict) :=
  raise_if (has "error" page) (ValueError "page error") ;;
  let? out := project_page (VDict page) in
  match get "events" out with
  | Some (VList rows) => feed_rows c (map row_of_val rows)
  | _ => Err (KeyError "events")
  end.
End combiner.
