(* ===== verification/CombineSpec.v ===== *)
(** * What the combiner promises

    The tables stay bounded, no row is lost or emitted twice, and a combined
    record claims an observed exchange only when every one of the structural
    checks holds and no discontinuity was seen. *)

From S2P Require Import Prelude PyVal Decoders Export Combine.

(** ** The pending table *)

Lemma pget_pset k k' g d : pget k (pset k' g d) = if decide (k = k') then Some g else pget k d.
Proof.
  induction d as [|[k1 g1] d IH]; simpl; [done|].
  destruct (decide (k' = k1)) as [->|Hn]; simpl.
  - by destruct (decide (k = k1)).
  - rewrite IH. destruct (decide (k = k1)) as [->|]; [|done].
    by destruct (decide (k1 = k')) as [->|].
Qed.

Lemma pget_In k g d : pget k d = Some g -> (k, g) ∈ d.
Proof.
  induction d as [|[k1 g1] d IH]; simpl; [done|].
  destruct (decide (k = k1)) as [->|]; [intros [= ->]; left|intros H; right; auto].
Qed.

Lemma pset_fst k g d : pget k d <> None -> map fst (pset k g d) = map fst d.
Proof.
  induction d as [|[k1 g1] d IH]; simpl; [done|].
  destruct (decide (k = k1)) as [->|]; [done|]. intros H. simpl. by rewrite IH.
Qed.

Lemma pset_fresh k g d : pget k d = None -> pset k g d = d ++ [(k, g)].
Proof.
  induction d as [|[k1 g1] d IH]; simpl; [done|].
  destruct (decide (k = k1)); [done|]. intros H. by rewrite IH.
Qed.

Lemma ppop_split k g d : pget k d = Some g ->
  exists d1 d2, d = d1 ++ (k, g) :: d2 /\ ppop k d = d1 ++ d2.
Proof.
  induction d as [|[k1 g1] d IH]; simpl; [done|].
  destruct (decide (k = k1)) as [->|].
  - intros [= ->]. by exists [], d.
  - intros H. destruct (IH H) as (d1 & d2 & -> & ->). by exists ((k1, g1) :: d1), d2.
Qed.

Lemma pset_split k g g' d : pget k d = Some g ->
  exists d1 d2, d = d1 ++ (k, g) :: d2 /\ pset k g' d = d1 ++ (k, g') :: d2.
Proof.
  induction d as [|[k1 g1] d IH]; simpl; [done|].
  destruct (decide (k = k1)) as [->|].
  - intros [= ->]. by exists [], d.
  - intros H. destruct (IH H) as (d1 & d2 & -> & ->). by exists ((k1, g1) :: d1), d2.
Qed.

Lemma pget_None k d : pget k d = None <-> k ∉ map fst d.
Proof.
  induction d as [|[k1 g1] d IH]; simpl; [set_solver|].
  destruct (decide (k = k1)) as [->|]; [set_solver|]. rewrite IH. set_solver.
Qed.

(** ** The invariant *)

(** A pending group holds between one and [max_records - 1] rows, all of its
    key. *)
Definition group_ok (c : combiner) (kg : key * group) : Prop :=
  0 < len (g_rows kg.2) < max_records c /\ Forall (fun r => row_key r = kg.1) (g_rows kg.2).

Definition inv (c : combiner) : Prop :=
  1 <= capacity c /\ NoDup (map fst (pending c)) /\ len (pending c) <= capacity c /\
  Z.of_nat (size (sequences c)) <= capacity c /\ Forall (group_ok c) (pending c).

Lemma inv_new cap mr : 1 <= cap -> inv (new_combiner cap mr).
Proof.
  intros. split_and!; [done|apply NoDup_nil_2|unfold len; simpl; lia| |apply Forall_nil_2].
  cbn [sequences new_combiner]. rewrite map_size_empty. simpl. lia.
Qed.

Section spec.
Variable digest : key -> string.

Lemma inv_flush c reason : inv c -> inv (flush digest c reason).1.
Proof.
  intros (Hc & _). split_and!; [done|apply NoDup_nil_2|unfold len; simpl; lia| |apply Forall_nil_2].
  cbn [flush fst sequences with_sequences capacity with_pending]. rewrite map_size_empty. simpl. lia.
Qed.

Lemma inv_with_cursor c s : inv c -> inv (with_cursor c s).
Proof. done. Qed.

(** Forgetting or adding a sequence within the bound. *)
Lemma inv_sequences c s : inv c -> Z.of_nat (size s) <= capacity c -> inv (with_sequences c s).
Proof. intros (? & ? & ? & ? & ?) Hs. split_and!; done. Qed.

(** [join_group] needs of its state only what holds outside the group's key. *)
Definition inv_but (c : combiner) (k : key) : Prop :=
  1 <= capacity c /\ NoDup (map fst (pending c)) /\ len (pending c) <= capacity c /\
  Z.of_nat (size (sequences c)) <= capacity c /\
  Forall (fun kg => kg.1 = k \/ group_ok c kg) (pending c).

Lemma inv_but_pop c k g : inv_but c k -> pget k (pending c) = Some g ->
  inv (with_pending c (ppop k (pending c))).
Proof.
  intros (H1 & H2 & H3 & H4 & H5) Hk.
  destruct (ppop_split k g _ Hk) as (d1 & d2 & Hd & Hp). rewrite Hd in H2, H3, H5.
  rewrite map_app in H2. cbn [map fst] in H2. rewrite NoDup_app, NoDup_cons in H2.
  split_and!; [done|..]; cbn [pending with_pending capacity sequences]; rewrite ?Hp.
  - rewrite map_app, NoDup_app. set_solver.
  - unfold len in *. rewrite length_app in *. simpl in *. lia.
  - done.
  - rewrite Forall_app, Forall_cons in H5. destruct H5 as (F1 & _ & F2).
    assert (forall d, (forall kg, kg ∈ d -> kg.1 <> k) ->
      Forall (fun kg => kg.1 = k \/ group_ok c kg) d -> Forall (group_ok c) d) as Hf.
    { intros d Hd' F. rewrite Forall_forall in *. intros kg Hkg.
      destruct (F kg Hkg) as [E|]; [|done]. by destruct (Hd' kg Hkg). }
    apply Forall_app. split; apply Hf; try done; intros [k' g'] Hin; simpl; intros ->.
    + destruct H2 as (_ & H2 & _). apply (H2 k); [|left].
      apply list_elem_of_fmap. by exists (k, g').
    + destruct H2 as (_ & _ & H2 & _). apply H2. apply list_elem_of_fmap. by exists (k, g').
Qed.

Lemma inv_inv_but c k : inv c -> inv_but c k.
Proof.
  intros (? & ? & ? & ? & H). split_and!; [done..|]. eapply Forall_impl; [exact H|]. auto.
Qed.

Lemma finish_inv c k reason c' d : inv c -> finish digest c k reason = Ok (c', d) -> inv c'.
Proof.
  unfold finish. intros Hi H. destruct (pget k (pending c)) as [g|] eqn:Hk; [|done].
  injection H as <- <-. eapply inv_but_pop; [by apply inv_inv_but|done].
Qed.

Lemma join_inv c k g r c' out : inv_but c k -> pget k (pending c) = Some g ->
  row_key r = k -> Forall (fun r => row_key r = k) (g_rows g) ->
  join_group digest c k g r = Ok (c', out) -> inv c'.
Proof.
  intros Hi Hk Hr Hg. unfold join_group. cbv zeta.
  set (g' := Group _ _ _ _).
  assert (pget k (pset k g' (pending c)) = Some g') as Hget
    by (rewrite pget_pset; by rewrite decide_True).
  assert (inv_but (with_pending c (pset k g' (pending c))) k) as Hi'.
  { destruct Hi as (H1 & H2 & H3 & H4 & H5).
    destruct (pset_split k g g' _ Hk) as (d1 & d2 & Hd & Hp).
    split_and!; [done|..]; cbn [pending with_pending capacity sequences]; rewrite ?Hp.
    - rewrite Hd, map_app in H2. by rewrite map_app.
    - rewrite Hd in H3. unfold len in *. rewrite length_app in *. done.
    - done.
    - rewrite Hd in H5. rewrite Forall_app, Forall_cons in *. cbn. tauto. }
  destruct (mem_Z _ _).
  { unfold finish. cbn [pending with_pending]. rewrite Hget. intros [= <- <-].
    by eapply (inv_but_pop (with_pending c (pset k g' (pending c)))). }
  destruct (Z.leb_spec (max_records (with_pending c (pset k g' (pending c)))) (len (g_rows g'))) as [Hm|Hm].
  { unfold finish. cbn [pending with_pending]. rewrite Hget. intros [= <- <-].
    by eapply (inv_but_pop (with_pending c (pset k g' (pending c)))). }
  intros [= <- <-]. destruct Hi' as (H1 & H2 & H3 & H4 & H5). split_and!; [done..|].
  destruct (pset_split k g g' _ Hk) as (d1 & d2 & Hd & Hp).
  cbn [pending with_pending] in *. rewrite Hp in *.
  rewrite Forall_app, Forall_cons in *. destruct H5 as (F1 & _ & F2).
  rewrite map_app in H2. cbn [map fst] in H2. rewrite NoDup_app, NoDup_cons in H2.
  assert (forall d, (forall kg, kg ∈ d -> kg.1 <> k) ->
    Forall (fun kg => kg.1 = k \/ group_ok (with_pending c (d1 ++ (k, g') :: d2)) kg) d ->
    Forall (group_ok (with_pending c (d1 ++ (k, g') :: d2))) d) as Hf.
  { intros d Hd' F. rewrite Forall_forall in *. intros kg Hkg.
    destruct (F kg Hkg) as [E|]; [|done]. by destruct (Hd' kg Hkg). }
  split_and!.
  - apply Hf; [|done]. intros [k' g''] Hin; simpl; intros ->.
    destruct H2 as (_ & H2 & _). apply (H2 k); [|left]. apply list_elem_of_fmap. by exists (k, g'').
  - split; cbn [fst snd].
    + cbn [max_records with_pending] in *. unfold g', len in *. cbn [g_rows] in *.
      rewrite length_app in *. simpl in *. lia.
    + unfold g'. cbn [g_rows]. apply Forall_app. split; [done|]. by apply Forall_singleton.
  - apply Hf; [|done]. intros [k' g''] Hin; simpl; intros ->.
    destruct H2 as (_ & _ & H2 & _). apply H2. apply list_elem_of_fmap. by exists (k, g'').
Qed.

(** Making room for a new group. *)
Definition make_room (c : combiner) : result (combiner * list dict) :=
  if capacity c <=? len (pending c) then
    match pending c with
    | [] => Err StopIteration
    | (k0, _) :: _ => let? (c, d) := finish digest c k0 (Some "capacity") in Ok (c, [d])
    end
  else Ok (c, []).

Lemma make_room_spec c k : inv c -> pget k (pending c) = None ->
  exists c' out, make_room c = Ok (c', out) /\ inv c' /\ pget k (pending c') = None /\
    len (pending c') < capacity c' /\ max_records c' = max_records c.
Proof.
  intros Hi Hk. pose proof Hi as (H1 & H2 & H3 & H4 & H5). unfold make_room.
  destruct (Z.leb_spec (capacity c) (len (pending c))) as [Hc|Hc].
  - destruct (pending c) as [|[k0 g0] rest] eqn:Hp; [unfold len in Hc; simpl in Hc; lia|].
    assert (pget k0 (pending c) = Some g0) as Hg
      by (rewrite Hp; simpl; by rewrite decide_True).
    assert (finish digest c k0 (Some "capacity") =
      Ok (with_pending c rest, combined digest k0 g0 (Some "capacity"))) as Hf.
    { unfold finish. rewrite Hg, Hp. simpl. by rewrite decide_True. }
    exists (with_pending c rest), [combined digest k0 g0 (Some "capacity")].
    rewrite Hf. split_and!; [done|by eapply finish_inv| | |done].
    + rewrite pget_None in *. cbn [map fst pending with_pending] in *. set_solver.
    + cbn [pending with_pending capacity]. unfold len in *. simpl in *. lia.
  - exists c, []. split_and!; done.
Qed.

Lemma feed_exchange_inv c r : inv c ->
  exists c' out, feed_exchange digest c r = Ok (c', out) /\ inv c'.
Proof.
  intros Hi. unfold feed_exchange. cbv zeta. set (k := row_key r).
  assert (forall c g, inv_but c k -> pget k (pending c) = Some g ->
    Forall (fun r => row_key r = k) (g_rows g) ->
    exists c' out, join_group digest c k g r = Ok (c', out) /\ inv c') as Hjoin.
  { intros c0 g0 Hb Hg Hf. destruct (join_group digest c0 k g0 r) as [[c' out]|e] eqn:E.
    - exists c', out. split; [done|]. by eapply join_inv.
    - exfalso. unfold join_group, finish in E. cbv zeta in E.
      cbn [pending with_pending] in E. rewrite pget_pset, decide_True in E by done.
      repeat case_match; simplify_eq. }
  destruct (r_phase r =? 1).
  - destruct (pget k (pending c)) as [g|] eqn:Hk.
    + unfold finish. rewrite Hk. do 2 eexists. split; [reflexivity|].
      eapply inv_but_pop; [by apply inv_inv_but|done].
    + fold (make_room c).
      destruct (make_room_spec c k Hi Hk) as (c1 & out & -> & Hi1 & Hk1 & Hl1 & _).
      destruct (Hjoin (with_pending c1 (pset k (Group (r_cursor r) [] [] false) (pending c1)))
        (Group (r_cursor r) [] [] false)) as (c2 & out2 & -> & Hi2).
      * destruct Hi1 as (H1 & H2 & H3 & H4 & H5).
        split_and!; [done|..]; cbn [pending with_pending capacity sequences];
          rewrite ?pset_fresh by done.
        -- rewrite map_app. cbn [map fst]. apply pget_None in Hk1. rewrite NoDup_app.
           split_and!; [done|set_solver|apply NoDup_singleton].
        -- unfold len in *. rewrite length_app. simpl. lia.
        -- done.
        -- apply Forall_app. split; [|by apply Forall_singleton; left].
           eapply Forall_impl; [exact H5|]. by right.
      * cbn [pending with_pending]. by rewrite pget_pset, decide_True.
      * apply Forall_nil_2.
      * by do 2 eexists.
  - destruct (pget k (pending c)) as [g|] eqn:Hk; [|by do 2 eexists].
    apply Hjoin; [by apply inv_inv_but|done|].
    destruct Hi as (_ & _ & _ & _ & H5). rewrite Forall_forall in H5.
    by destruct (H5 (k, g) (pget_In _ _ _ Hk)).
Qed.

Lemma feed_valid_inv c r : inv c -> exists c' out, feed_valid digest c r = Ok (c', out) /\ inv c'.
Proof.
  intros Hi. unfold feed_valid. cbv zeta. set (p := row_producer r).
  assert (1 <= capacity c) as Hcap by apply Hi.
  match goal with |- context [if ?b then let '(_, _) := flush _ _ _ in _ else _] =>
    destruct b end.
  { destruct (flush digest c _) as [c1 out] eqn:Ef.
    pose proof (inv_flush c "duplicate_or_regressed_sequence" Hi) as Hi1. rewrite Ef in Hi1.
    do 2 eexists. split; [reflexivity|].
    assert (sequences c1 = ∅ /\ capacity c1 = capacity c) as [Hs Hc1]
      by (unfold flush in Ef; by simplify_eq/=).
    apply inv_sequences; [done|]. rewrite Hc1, Hs. destruct (sequences c !! p).
    - rewrite map_size_insert_None by apply lookup_empty. rewrite map_size_empty. simpl. lia.
    - rewrite map_size_empty. lia. }
  assert (forall (b : bool) (c : combiner) reason, inv c -> 1 <= capacity c ->
    exists c1 out1, (if b then flush digest c reason else (c, [])) = (c1, out1) /\ inv c1 /\
      capacity c1 = capacity c /\ (b = true -> sequences c1 = ∅) /\ (b = false -> c1 = c)) as Hfl.
  { intros b c0 reason Hi0 Hc0. destruct b.
    - do 2 eexists. split; [apply surjective_pairing|]. split; [by apply inv_flush|done].
    - do 2 eexists. split; [reflexivity|]. done. }
  match goal with |- context [if ?b then flush digest c "producer_gap" else _] =>
    destruct (Hfl b c "producer_gap" Hi Hcap) as (c1 & out1 & -> & Hi1 & Hc1 & _ & _) end.
  match goal with |- context [if ?b then flush digest c1 "producer_capacity" else _] =>
    remember b as full eqn:Eb end.
  destruct (Hfl full c1 "producer_capacity" Hi1 ltac:(lia)) as (c2 & out2 & -> & Hi2 & Hc2 & H2a & H2b).
  assert (inv (with_sequences c2 (<[p := int_at "sequence" (r_record r)]> (sequences c2)))) as Hi3.
  { apply inv_sequences; [done|]. destruct full.
    - rewrite H2a by done.
      rewrite map_size_insert_None by apply lookup_empty. rewrite map_size_empty. simpl. lia.
    - rewrite H2b by done. destruct Hi1 as (_ & _ & _ & Hsz & _).
      rewrite map_size_insert. destruct (sequences c1 !! p) eqn:El; simpl; lia. }
  destruct (negb (truthy _) || _); [by do 2 eexists|].
  destruct (feed_exchange_inv _ r Hi3) as (c4 & out4 & -> & Hi4); by do 2 eexists.
Qed.

Lemma value_error_parse s e : parse_cursor s = Err e -> exists m, e = ValueError m.
Proof.
  unfold parse_cursor. intros H. destruct (last_colon _) as [[a b]|]; [|by simplify_eq; eexists].
  destruct (py_int _); simplify_eq. by eexists.
Qed.

Lemma advance_spec c cur : inv c ->
  match advance digest c cur with
  | Ok (c', _) => inv c'
  | Err e => exists m, e = ValueError m
  end.
Proof.
  intros Hi. unfold advance. destruct (parse_cursor cur) as [[j n]|e] eqn:Hp;
    [|by eapply value_error_parse].
  destruct (cursor c) as [[|a old]|]; [done| |done].
  destruct (parse_cursor (String a old)) as [[j' n']|e] eqn:Hp'; [|by eapply value_error_parse].
  destruct (_ || _); [by eexists|].
  destruct (negb (n =? n' + 1)); [|done].
  exact (inv_with_cursor _ _ (inv_flush c "cursor_discontinuity" Hi)).
Qed.

Lemma feed_row_inv c r : inv c ->
  match feed_row digest c r with
  | Ok (c', _) => inv c'
  | Err e => exists m, e = ValueError m
  end.
Proof.
  intros Hi. unfold feed_row. pose proof (advance_spec c (r_cursor r) Hi) as Ha.
  destruct (advance digest c (r_cursor r)) as [[c1 out]|e]; [|done]. cbv zeta.
  destruct (_ || _).
  { destruct (negb (mem_str _ _)); [|done].
    exact (inv_flush c1 "diagnostic_or_unqualified_record" Ha). }
  destruct (negb (frame_valid r)); [exact (inv_flush c1 "invalid_frame_binding" Ha)|].
  by destruct (feed_valid_inv c1 r Ha) as (c2 & out2 & -> & Hi2).
Qed.
End spec.

(** C6: the combiner's tables stay bounded on every input: starting from a state
    that satisfies the invariant (a fresh combiner does), feeding any rows ends
    in such a state, with at most [capacity] pending groups under distinct keys,
    each of at most [max_records - 1] rows of its own key, and at most [capacity]
    remembered sequences; the only exception it can raise is the [ValueError] of
    a malformed or backwards cursor. *)
Theorem combiner_bounded digest c rows : inv c ->
  match feed_rows digest c rows with
  | Ok (c', _) => inv c'
  | Err e => exists m, e = ValueError m
  end.
Proof.
  revert c. induction rows as [|r rows IH]; intros c Hi; [done|]. cbn [feed_rows].
  pose proof (feed_row_inv digest c r Hi) as H.
  destruct (feed_row digest c r) as [[c1 out]|e]; [|done].
  specialize (IH c1 H). by destruct (feed_rows digest c1 rows) as [[c2 out2]|e].
Qed.

Lemma combiner_bounded_witness :
  match feed_rows (fun _ => "id") (new_combiner 128 128) [Row "j:1" []; Row "j:2" []] with
  | Ok (c', _) => inv c'
  | Err e => exists m, e = ValueError m
  end.
Proof. apply combiner_bounded. apply inv_new. lia. Defined.

(** ** Conservation *)

Definition is_combined (d : dict) : bool := str_eq "event_type" d "agent.activity.combined".

(** How many input rows an output stands for. *)
Definition weight (d : dict) : Z :=
  if is_combined d then iget "record_count" (dget "evidence" d) else 1.
Definition weights (l : list dict) : Z := foldr (fun d n => weight d + n) 0 l.

(** How many rows are waiting in groups. *)
Definition waiting (p : list (key * group)) : Z := foldr (fun kg n => len (g_rows kg.2) + n) 0 p.

Section conservation.
Variable digest : key -> string.

Lemma weight_combined k g reason : weight (combined digest k g reason) = len (g_rows g).
Proof.
  unfold combined. cbv zeta. destruct (transport (g_rows g)) as [[tr ti] ts].
  destruct k as [[[[? ?] ?] ?] ?]. reflexivity.
Qed.

Lemma weights_app a b : weights (a ++ b) = weights a + weights b.
Proof. unfold weights. induction a as [|x a IH]; simpl; [done|]. rewrite IH. lia. Qed.

Lemma weights_single d : weights [d] = weight d.
Proof. unfold weights. cbn [foldr]. lia. Qed.

Lemma weights_nil : weights [] = 0.
Proof. done. Qed.

Lemma waiting_nil : waiting [] = 0.
Proof. done. Qed.

Lemma waiting_app a b : waiting (a ++ b) = waiting a + waiting b.
Proof. unfold waiting. induction a as [|x a IH]; simpl; [done|]. rewrite IH. lia. Qed.

Lemma flush_weights c reason :
  waiting (pending c) = weights (flush digest c reason).2 /\
  waiting (pending (flush digest c reason).1) = 0.
Proof.
  split; [|done]. cbn [flush snd]. induction (pending c) as [|[k g] p IH]; [done|].
  cbn [map fst snd]. unfold weights, waiting in *. cbn [foldr]. rewrite weight_combined. cbn [snd]. lia.
Qed.

Lemma finish_weights c k reason c' d : finish digest c k reason = Ok (c', d) ->
  waiting (pending c) = waiting (pending c') + weight d.
Proof.
  unfold finish. destruct (pget k (pending c)) as [g|] eqn:Hk; [|done]. intros [= <- <-].
  destruct (ppop_split k g _ Hk) as (d1 & d2 & Hd & Hp). cbn [pending with_pending].
  rewrite Hp, Hd, !waiting_app, weight_combined. unfold waiting at 2. cbn [foldr snd].
  fold (waiting d2). lia.
Qed.

(** An event that is not a combined record counts once, also when it is demoted
    or annotated. *)
Lemma weight_event d : is_combined d = false -> weight d = 1.
Proof. unfold weight. by intros ->. Qed.

Lemma weight_demoted r s : weight (demoted r s) = 1.
Proof. apply weight_event. unfold is_combined, str_eq, demoted, getv. rewrite !get_set. reflexivity. Qed.

Lemma weight_correlation v r : is_combined (r_event r) = false ->
  weight (set "correlation" v (r_event r)) = 1.
Proof.
  intros H. apply weight_event. unfold is_combined, str_eq, getv in *.
  rewrite get_set. exact H.
Qed.

Lemma join_weights c k g r c' out : pget k (pending c) = Some g ->
  join_group digest c k g r = Ok (c', out) ->
  waiting (pending c) + 1 = waiting (pending c') + weights out.
Proof.
  intros Hk. unfold join_group. cbv zeta. set (g' := Group _ _ _ _).
  assert (waiting (pset k g' (pending c)) = waiting (pending c) + 1) as Hw.
  { destruct (pset_split k g g' _ Hk) as (d1 & d2 & Hd & ->). rewrite Hd, !waiting_app.
    unfold waiting at 2 4. cbn [foldr snd]. fold (waiting d2). unfold g'. cbn [g_rows].
    rewrite len_app. change (len [r]) with 1. lia. }
  assert (forall reason c' d,
    finish digest (with_pending c (pset k g' (pending c))) k reason = Ok (c', d) ->
    waiting (pending c) + 1 = waiting (pending c') + weights [d]) as Hfin.
  { intros reason c0 d Hf. apply finish_weights in Hf. cbn [pending with_pending] in Hf.
    unfold weights. cbn [foldr]. lia. }
  repeat match goal with |- context [if ?b then _ else _] => destruct b end;
    try match goal with |- context [finish digest ?x ?y ?z] =>
      destruct (finish digest x y z) as [[c2 d2]|] eqn:Hf; [|done] end;
    intros [= <- <-]; try by eapply Hfin.
  cbn [pending with_pending]. unfold weights. cbn [foldr]. lia.
Qed.

Lemma feed_exchange_weights c r c' out : is_combined (r_event r) = false ->
  feed_exchange digest c r = Ok (c', out) ->
  waiting (pending c) + 1 = waiting (pending c') + weights out.
Proof.
  intros Hr. unfold feed_exchange. cbv zeta. destruct (r_phase r =? 1).
  - destruct (pget (row_key r) (pending c)) as [g|] eqn:Hk.
    + destruct (finish digest c (row_key r) _) as [[c1 d]|] eqn:Hf; [|done]. intros [= <- <-].
      apply finish_weights in Hf. unfold weights. cbn [foldr]. rewrite (weight_event (r_event r)) by done. lia.
    + fold (make_room digest c). destruct (make_room digest c) as [[c1 out1]|] eqn:Hm; [|done].
      assert (waiting (pending c) = waiting (pending c1) + weights out1 /\
        pget (row_key r) (pending c1) = None) as [Hw Hk1].
      { unfold make_room in Hm. destruct (_ <=? _); [|by injection Hm as <- <-; split; [unfold weights; cbn; lia|]].
        destruct (pending c) as [|[k0 g0] rest] eqn:Hp; [done|].
        destruct (finish digest c k0 _) as [[c2 d]|] eqn:Hf; [|done]. injection Hm as <- <-.
        pose proof (finish_weights _ _ _ _ _ Hf) as Hw. split; [unfold weights; cbn [foldr]; rewrite <- Hp; lia|].
        unfold finish in Hf. rewrite Hp in Hf. cbn [pget] in Hf. rewrite decide_True in Hf by done.
        injection Hf as <- _. cbn [pending with_pending ppop]. rewrite decide_True by done.
        rewrite pget_None in *. cbn [map fst] in Hk. set_solver. }
      destruct (join_group digest _ _ _ r) as [[c2 out2]|] eqn:Hj; [|done]. intros [= <- <-].
      apply join_weights in Hj; [|cbn [pending with_pending]; by rewrite pget_pset, decide_True].
      cbn [pending with_pending] in Hj. rewrite pset_fresh, waiting_app in Hj by done.
      unfold waiting at 2 in Hj. cbn [foldr snd g_rows] in Hj. change (len []) with 0 in Hj.
      rewrite weights_app. lia.
  - destruct (pget (row_key r) (pending c)) as [g|] eqn:Hk; [by apply join_weights|].
    intros [= <- <-]. unfold weights. cbn [foldr]. rewrite weight_correlation by done. lia.
Qed.

Lemma feed_valid_weights c r c' out : is_combined (r_event r) = false ->
  feed_valid digest c r = Ok (c', out) ->
  waiting (pending c) + 1 = waiting (pending c') + weights out.
Proof.
  intros Hr. unfold feed_valid. cbv zeta.
  match goal with |- context [if ?b then let '(_, _) := flush _ _ _ in _ else _] => destruct b end.
  { intros [= <- <-]. cbn [pending with_sequences].
    destruct (flush_weights c "duplicate_or_regressed_sequence") as [Hw H0].
    cbn [flush fst snd pending with_sequences with_pending] in *. rewrite weights_app.
    rewrite weights_single, weight_demoted, waiting_nil. lia. }
  assert (forall (b : bool) c reason, waiting (pending c) =
    waiting (pending (if b then flush digest c reason else (c, [])).1) +
    weights (if b then flush digest c reason else (c, [])).2) as Hfl.
  { intros [] c0 reason; [|cbn [fst snd]; rewrite ?weights_nil; lia].
    destruct (flush_weights c0 reason) as [Hw H0]. lia. }
  match goal with |- context [if ?b then flush digest c "producer_gap" else _] =>
    specialize (Hfl b c "producer_gap") as H1;
    destruct (if b then flush digest c "producer_gap" else (c, [])) as [c1 out1] end.
  match goal with |- context [if ?b then flush digest c1 "producer_capacity" else _] =>
    specialize (Hfl b c1 "producer_capacity") as H2;
    destruct (if b then flush digest c1 "producer_capacity" else (c1, [])) as [c2 out2] end.
  cbn [fst snd] in *.
  destruct (negb (truthy _) || _).
  - intros [= <- <-]. cbn [pending with_sequences]. rewrite !weights_app.
    rewrite weights_single, (weight_event (r_event r)) by done. lia.
  - destruct (feed_exchange digest _ r) as [[c4 out4]|] eqn:He; [|done]. intros [= <- <-].
    apply feed_exchange_weights in He; [|done]. cbn [pending with_sequences] in He.
    rewrite !weights_app. lia.
Qed.

Lemma feed_row_weights c r c' out : is_combined (r_event r) = false ->
  feed_row digest c r = Ok (c', out) ->
  waiting (pending c) + 1 = waiting (pending c') + weights out.
Proof.
  intros Hr. unfold feed_row. destruct (advance digest c (r_cursor r)) as [[c1 out1]|] eqn:Ha; [|done].
  assert (waiting (pending c) = waiting (pending c1) + weights out1) as H1.
  { unfold advance in Ha. destruct (parse_cursor (r_cursor r)) as [[j n]|]; [|done].
    destruct (cursor c) as [[|a old]|];
      [injection Ha as <- <-; rewrite weights_nil; cbn [pending with_cursor]; lia|
      |injection Ha as <- <-; rewrite weights_nil; cbn [pending with_cursor]; lia].
    destruct (parse_cursor (String a old)) as [[j' n']|]; [|done]. destruct (_ || _); [done|].
    destruct (negb (n =? n' + 1)); simplify_eq/=; [|rewrite ?weights_nil; lia].
    destruct (flush_weights c "cursor_discontinuity") as [Hw _]. cbn [flush snd] in Hw.
    rewrite ?waiting_nil. lia. }
  cbv zeta. destruct (_ || _).
  { destruct (negb (mem_str _ _)); intros H; simplify_eq/=; rewrite !weights_app;
      rewrite weights_single, (weight_event (r_event r)) by done.
    - destruct (flush_weights c1 "diagnostic_or_unqualified_record") as [Hw _].
      cbn [flush snd] in Hw. rewrite ?waiting_nil. lia.
    - rewrite ?weights_nil. lia. }
  destruct (negb (frame_valid r)).
  { intros H. simplify_eq/=. rewrite !weights_app, weights_single, weight_demoted. destruct (flush_weights c1 "invalid_frame_binding") as [Hw _].
    cbn [flush snd] in Hw. rewrite ?waiting_nil. lia. }
  destruct (feed_valid digest c1 r) as [[c2 out2]|] eqn:Hf; [|done]. intros H. simplify_eq/=.
  apply feed_valid_weights in Hf; [|done]. rewrite weights_app. lia.
Qed.
End conservation.

(** C7: no row is lost and none is counted twice: over any sequence of projected
    rows, the rows waiting in groups before plus the rows fed equal the rows
    waiting after plus the rows the outputs stand for (a combined record stands
    for its [record_count] rows, any other event for one). *)
Theorem rows_conserved digest c rows c' out :
  Forall (fun r => is_combined (r_event r) = false) rows ->
  feed_rows digest c rows = Ok (c', out) ->
  waiting (pending c) + len rows = waiting (pending c') + weights out.
Proof.
  intros Hr. revert c out. induction Hr as [|r rows Hr _ IH]; intros c out H; cbn [feed_rows] in H.
  - injection H as <- <-. unfold weights, len. cbn. lia.
  - destruct (feed_row digest c r) as [[c1 out1]|] eqn:H1; [|done].
    destruct (feed_rows digest c1 rows) as [[c2 out2]|] eqn:H2; [|done]. injection H as <- <-.
    apply feed_row_weights in H1; [|done]. specialize (IH _ _ H2).
    rewrite weights_app, len_cons. lia.
Qed.

Lemma rows_conserved_witness : exists c' out,
  feed_rows (fun _ => "id") (new_combiner 2 2) [Row "j:1" []; Row "j:2" []] = Ok (c', out) /\
  waiting (pending (new_combiner 2 2)) + 2 = waiting (pending c') + weights out.
Proof.
  do 2 eexists. split; [vm_compute; reflexivity|].
  apply (rows_conserved (fun _ => "id") (new_combiner 2 2) [Row "j:1" []; Row "j:2" []]).
  - repeat constructor.
  - vm_compute. reflexivity.
Defined.
