(* ===== verification/CombineExchange.v ===== *)
(** * When the combiner claims an observed exchange

    A combined record is [observed_exchange] exactly when its list of issues is
    empty; this file reads that emptiness back as facts about the rows of the
    group, and shows at which rows such a record can be emitted. *)

From S2P Require Import Prelude PyVal Decoders Export Combine CombineSpec.

(** ** The scan of [finish] *)

Definition json_rows (rows : list row) : list row := filter (fun r => is_http r = false) rows.
Definition http_rows (rows : list row) : list row := filter (fun r => is_http r = true) rows.
Definition slot (r : row) : Z * string := (r_side r, r_kind r).
Definition call (r : row) : string * string * string :=
  (sget "instance" (r_record r), sget "revision" (r_record r), sget "invocation" (r_group r)).
Definition http_producer (r : row) : string * string :=
  (sget "instance" (r_record r), sget "revision" (r_record r)).
Definition confirming (r : row) : bool :=
  is_http r && (r_side r =? 1) && (iget "code" (r_record r) =? 142).

Lemma fget_fset s k s' k' r f :
  fget s k (fset s' k' r f) = if (s =? s') && String.eqb k k' then Some r else fget s k f.
Proof.
  induction f as [|[[s1 k1] r1] f IH]; simpl; [done|].
  destruct ((s' =? s1) && String.eqb k' k1) eqn:E; simpl.
  - bool_prop. apply Z.eqb_eq in H. subst. by destruct ((s =? s1) && String.eqb k k1).
  - rewrite IH. destruct ((s =? s1) && String.eqb k k1) eqn:E1; [|done].
    destruct ((s =? s') && String.eqb k k') eqn:E2; [|done]. bool_prop.
    apply Z.eqb_eq in H, H1. subst. rewrite Z.eqb_refl, String.eqb_refl in E. done.
Qed.

Definition scan_all (issues : list string) (rows : list row) : scan :=
  fold_left scan_row rows (Scan [] issues ∅ ∅ ∅ []).

(** What the scan has seen, and what follows when it added no issue. *)
Record scanned (issues : list string) (rows : list row) (s : scan) : Prop := {
  sc_calls1 : forall x, x ∈ s_calls1 s <-> exists r, r ∈ json_rows rows /\ r_side r = 1 /\ x = call r;
  sc_calls2 : forall x, x ∈ s_calls2 s <-> exists r, r ∈ json_rows rows /\ r_side r = 2 /\ x = call r;
  sc_http : forall x, x ∈ s_http s <-> exists r, r ∈ http_rows rows /\ x = http_producer r;
  sc_confirm : s_confirm s = map r_cursor (filter (fun r => confirming r = true) rows);
  sc_issues : exists more, s_issues s = issues ++ more /\
    (more = [] ->
      Forall (fun r => r_side r = 1 \/ r_side r = 2) (json_rows rows) /\
      NoDup (map slot (json_rows rows)) /\
      forall side kind r, fget side kind (s_fields s) = Some r <->
        r ∈ json_rows rows /\ slot r = (side, kind)) }.

Lemma scan_all_snoc issues rows r :
  scan_all issues (rows ++ [r]) = scan_row (scan_all issues rows) r.
Proof. unfold scan_all. by rewrite fold_left_app. Qed.

Lemma scanned_http issues rows s r : scanned issues rows s -> is_http r = true ->
  scanned issues (rows ++ [r]) (scan_row s r).
Proof.
  intros [C1 C2 Ht Cf (more & Hi & Hm)] Hr. unfold scan_row. rewrite Hr. cbv zeta.
  assert (json_rows (rows ++ [r]) = json_rows rows) as Hj.
  { unfold json_rows. rewrite filter_app, filter_cons_False by by rewrite Hr. apply app_nil_r. }
  constructor; cbn [s_calls1 s_calls2 s_http s_confirm s_issues s_fields]; rewrite ?Hj; try done.
  - intros x. rewrite elem_of_union, elem_of_singleton, Ht. unfold http_rows.
    rewrite filter_app, filter_cons_True by done. fold (http_rows rows). setoid_rewrite elem_of_app.
    setoid_rewrite elem_of_cons. split.
    + intros [->|(r' & ? & ?)]; [exists r|exists r']; set_solver.
    + intros (r' & [?|[->|Hn]] & ->); [right; eauto|by left|]. by apply elem_of_nil in Hn.
  - rewrite filter_app, map_app, <- Cf.
    destruct ((r_side r =? 1) && (iget "code" (r_record r) =? 142)) eqn:E.
    + rewrite filter_cons_True by (unfold confirming; by rewrite Hr, <- andb_assoc, E). done.
    + rewrite filter_cons_False; [by rewrite app_nil_r|]. unfold confirming.
      rewrite Hr. cbn [andb]. by rewrite E.
  - by exists more.
Qed.

Lemma scanned_json issues rows s r : scanned issues rows s -> is_http r = false ->
  scanned issues (rows ++ [r]) (scan_row s r).
Proof.
  intros [C1 C2 Ht Cf (more & Hi & Hm)] Hr. unfold scan_row. rewrite Hr. cbv zeta.
  assert (json_rows (rows ++ [r]) = json_rows rows ++ [r]) as Hj.
  { unfold json_rows. by rewrite filter_app, filter_cons_True by done. }
  assert (http_rows (rows ++ [r]) = http_rows rows) as Hh.
  { unfold http_rows. rewrite filter_app, filter_cons_False by by rewrite Hr. apply app_nil_r. }
  assert (filter (fun r => confirming r = true) (rows ++ [r]) =
    filter (fun r => confirming r = true) rows) as Hc.
  { rewrite filter_app, filter_cons_False; [apply app_nil_r|]. unfold confirming. by rewrite Hr. }
  assert (forall n (calls : gset _), (forall x, x ∈ calls <-> exists r, r ∈ json_rows rows /\ r_side r = n /\ x = call r) ->
    forall x, x ∈ (if r_side r =? n then {[ call r ]} ∪ calls else calls) <->
      exists r', r' ∈ json_rows rows ++ [r] /\ r_side r' = n /\ x = call r') as Hcalls.
  { intros n calls Hn x. setoid_rewrite elem_of_app. setoid_rewrite elem_of_cons.
    destruct (Z.eqb_spec (r_side r) n) as [E|E]; [rewrite elem_of_union, elem_of_singleton|]; rewrite Hn.
    - split.
      + intros [->|(r' & ? & ? & ?)]; [exists r|exists r']; set_solver.
      + intros (r' & [?|[->|Hx]] & ? & ->); [right; eauto|by left|]. by apply elem_of_nil in Hx.
    - split; [intros (r' & ? & ? & ?); exists r'; set_solver|].
      intros (r' & [?|[->|Hx]] & ? & ->); [eauto|done|]. by apply elem_of_nil in Hx. }
  destruct (mem_Z (r_side r) [1; 2]) eqn:Es.
  - cbn [negb]. constructor; cbn [s_calls1 s_calls2 s_http s_confirm s_issues s_fields];
      rewrite ?Hj, ?Hh, ?Hc; try done; try by apply Hcalls.
    destruct (fget (r_side r) (r_kind r) (s_fields s)) as [r0|] eqn:Hf.
    { exists (more ++ ["duplicate_field"]). split; [by rewrite Hi, app_assoc|]. by destruct more. }
    exists more. split; [done|]. intros Hnil. destruct (Hm Hnil) as (F & N & G). split_and!.
    + apply Forall_app. split; [done|]. apply Forall_singleton.
      unfold mem_Z in Es. cbn [existsb] in Es. lia.
    + rewrite map_app. cbn [map]. apply NoDup_app. split_and!; [done| |apply NoDup_singleton].
      intros x Hx ->%list_elem_of_singleton. apply list_elem_of_fmap in Hx as (r' & E' & Hr').
      enough (fget (r_side r) (r_kind r) (s_fields s) = Some r') by congruence.
      apply G. split; [done|]. by rewrite <- E'.
    + intros side kind r'. rewrite fget_fset, elem_of_app, list_elem_of_singleton.
      destruct ((side =? r_side r) && String.eqb kind (r_kind r)) eqn:E.
      * bool_prop. apply Z.eqb_eq in H. subst. split; [intros [= <-]; split; [by right|done]|].
        intros [[Hin| ->] Hs]; [|done]. exfalso.
        assert (fget (r_side r) (r_kind r) (s_fields s) = Some r') by by apply G. congruence.
      * rewrite G. split; [tauto|]. intros [[?| ->] Hs]; [tauto|]. exfalso.
        unfold slot in Hs. injection Hs as <- <-. by rewrite Z.eqb_refl, String.eqb_refl in E.
  - cbn [negb]. unfold mem_Z in Es. cbn [existsb] in Es.
    constructor; cbn [s_calls1 s_calls2 s_http s_confirm s_issues s_fields];
      rewrite ?Hj, ?Hh, ?Hc; try done.
    + intros x. rewrite <- (Hcalls 1 _ C1). by destruct (Z.eqb_spec (r_side r) 1); [lia|].
    + intros x. rewrite <- (Hcalls 2 _ C2). by destruct (Z.eqb_spec (r_side r) 2); [lia|].
    + exists (more ++ ["unknown_side"]). split; [by rewrite Hi, app_assoc|]. by destruct more.
Qed.

Lemma scan_all_scanned issues rows : scanned issues rows (scan_all issues rows).
Proof.
  induction rows as [|r rows IH] using rev_ind.
  - constructor; cbn; try set_solver. exists []. split; [by rewrite app_nil_r|]. intros _.
    split_and!; [constructor|constructor|]. set_solver.
  - rewrite scan_all_snoc. destruct (is_http r) eqn:E; [by apply scanned_http|by apply scanned_json].
Qed.

(** ** Emptiness of the issue list *)

Definition observed (d : dict) : bool := str_eq "status" (dget "correlation" d) "observed_exchange".

Lemma sorted_set_nil l : sorted_set l = [] -> l = [].
Proof.
  unfold sorted_set. intros H. destruct l as [|x l]; [done|]. exfalso.
  assert (x ∈ merge_sort String.le (elements (list_to_set (x :: l) : gset string))) as Hx.
  { rewrite merge_sort_Permutation, elem_of_elements. set_solver. }
  rewrite H in Hx. by apply elem_of_nil in Hx.
Qed.

Lemma if_issue_nil b s : if_issue b s = [] -> b = false.
Proof. by destruct b. Qed.

(** [m'] has the issues of [m] and maybe more. *)
Definition extends (m m' : summary) : Prop := exists more, m_issues m' = m_issues m ++ more.

Lemma extends_refl m : extends m m.
Proof. exists []. by rewrite app_nil_r. Qed.

Lemma extends_trans a b c : extends a b -> extends b c -> extends a c.
Proof. intros [x Hx] [y Hy]. exists (x ++ y). by rewrite Hy, Hx, app_assoc. Qed.

Lemma extends_nil a b : extends a b -> m_issues b = [] -> m_issues a = [].
Proof. intros [x Hx] H. rewrite Hx in H. by apply app_eq_nil in H as [? _]. Qed.

Lemma fold_extends {A} (f : summary -> A -> summary) l m :
  (forall m x, extends m (f m x)) -> extends m (fold_left f l m).
Proof.
  intros Hf. revert m. induction l as [|x l IH]; intros m; [apply extends_refl|].
  eapply extends_trans; [apply Hf|apply IH].
Qed.

Lemma add_activity_extends f m nk : extends m (add_activity f m nk).
Proof.
  destruct nk as [name kind]. unfold add_activity. destruct (fget 1 kind f); [|apply extends_refl].
  destruct (negb _); [apply extends_refl|]. by eexists.
Qed.

Lemma add_reply_extends f m : extends m (add_reply f m).
Proof. unfold add_reply. destruct (fget 2 "reply" f); [by eexists|apply extends_refl]. Qed.

Lemma add_http_extends m r : extends m (add_http m r).
Proof.
  unfold add_http. destruct (negb _); [apply extends_refl|]. apply fold_extends.
  intros m' name. unfold add_http_value. destruct (getv _ _); try apply extends_refl.
  destruct (_ && _); [by eexists|apply extends_refl].
Qed.

Lemma add_activity_outcome f l m : m_outcome (fold_left (add_activity f) l m) = m_outcome m.
Proof.
  revert m. induction l as [|[name kind] l IH]; intros m; [done|]. cbn [fold_left]. rewrite IH.
  unfold add_activity. destruct (fget 1 kind f); [|done]. by destruct (negb _).
Qed.

Lemma size_1_eq {A} `{Countable A} (X : gset A) x y : size X = 1%nat -> x ∈ X -> y ∈ X -> x = y.
Proof. intros Hs Hx Hy. by apply (size_singleton_inv X). Qed.

(** What an observed exchange establishes about the rows of its group. *)
Record exchange_facts (g : group) : Prop := {
  ef_issues : g_issues g = [];
  ef_sides : Forall (fun r => r_side r = 1 \/ r_side r = 2) (json_rows (g_rows g));
  ef_once : NoDup (map slot (json_rows (g_rows g)));
  ef_all : forall side kind, side = 1 \/ side = 2 -> kind ∈ JSON_KINDS ->
    exists r, r ∈ json_rows (g_rows g) /\ slot r = (side, kind);
  ef_call : forall r r', r ∈ json_rows (g_rows g) -> r' ∈ json_rows (g_rows g) ->
    r_side r = r_side r' -> call r = call r';
  ef_producer : forall r r', r ∈ json_rows (g_rows g) -> r' ∈ json_rows (g_rows g) ->
    http_producer r = http_producer r';
  ef_http : forall r r', r ∈ http_rows (g_rows g) -> r' ∈ http_rows (g_rows g) ->
    http_producer r = http_producer r';
  ef_confirm : length (filter (fun r => confirming r = true) (g_rows g)) = 1%nat;
  ef_ids : forall r1 r2, r1 ∈ json_rows (g_rows g) -> r2 ∈ json_rows (g_rows g) ->
    slot r1 = (1, "message_id") -> slot r2 = (2, "message_id") ->
    let v1 := dget "message_id" (dget "activity" (r_event r1)) in
    let v2 := dget "message_id" (dget "activity" (r_event r2)) in
    str_eq "status" v1 "complete" = true /\ str_eq "status" v2 "complete" = true /\
    val_eqb (getv "kind" v1) (getv "kind" v2) = true /\
    val_eqb (getv "raw_hex" v1) (getv "raw_hex" v2) = true;
  ef_reply : forall r, r ∈ json_rows (g_rows g) -> slot r = (2, "reply") ->
    str_eq "status" (update (dget "reported_outcome" (r_event r)) []) "complete" = true }.

(** The structural part. *)
Lemma scan_facts rows s : scanned [] rows s -> s_issues s = [] -> scan_issues s = [] ->
  Forall (fun r => r_side r = 1 \/ r_side r = 2) (json_rows rows) /\
  NoDup (map slot (json_rows rows)) /\
  (forall side kind r, fget side kind (s_fields s) = Some r <->
     r ∈ json_rows rows /\ slot r = (side, kind)) /\
  size (s_calls1 s) = 1%nat /\ size (s_calls2 s) = 1%nat /\ size (s_http s) = 1%nat /\
  length (s_confirm s) = 1%nat /\
  size (set_map (fun c => (c.1.1, c.1.2)) (s_calls1 s ∪ s_calls2 s) : gset (string * string)) = 1%nat /\
  (forall side kind, side = 1 \/ side = 2 -> kind ∈ JSON_KINDS ->
     exists r, fget side kind (s_fields s) = Some r).
Proof.
  intros [C1 C2 Ht Cf (more & Hi & Hm)] H0 Hs. rewrite H0 in Hi.
  assert (more = []) as -> by (by destruct more). destruct (Hm eq_refl) as (F & N & G).
  unfold scan_issues in Hs. cbn [flat_map] in Hs. rewrite !app_nil_r in Hs.
  apply app_eq_nil in Hs as [Hs1 Hs]. apply app_eq_nil in Hs as [Hs2 Hs3].
  apply app_eq_nil in Hs1 as [Ha Hb].
  apply app_eq_nil in Ha as [Ha1 Ha2]. apply app_eq_nil in Hb as [Hb1 Hb2].
  apply if_issue_nil in Ha1, Hb1, Hs2, Hs3.
  apply negb_false_iff, Nat.eqb_eq in Ha1, Hb1, Hs2.
  apply orb_false_iff in Hs3 as [Hs3 Hs4]. apply negb_false_iff, Nat.eqb_eq in Hs3, Hs4.
  split_and!; try done. intros side kind Hside Hkind.
  assert (forall kinds, flat_map (fun kind => if_issue
      (match fget side kind (s_fields s) with None => true | _ => false end) "missing_field") kinds = [] ->
    kind ∈ kinds -> exists r, fget side kind (s_fields s) = Some r) as Hall.
  { intros kinds. induction kinds as [|k0 kinds IH]; [set_solver|]. cbn [flat_map]. intros Hf Hk.
    apply app_eq_nil in Hf as [Hf1 Hf2]. apply elem_of_cons in Hk as [->|Hk]; [|auto].
    apply if_issue_nil in Hf1. destruct (fget side k0 (s_fields s)); [eauto|done]. }
  destruct Hside as [->| ->]; [apply (Hall JSON_KINDS Ha2 Hkind)|apply (Hall JSON_KINDS Hb2 Hkind)].
Qed.

(** The issues and the outcome a group is reported with. *)
Definition group_scan (g : group) (reason : option string) : scan :=
  scan_all (g_issues g ++ match reason with Some r => [r] | None => [] end) (g_rows g).

Definition group_summary (s : scan) (rows : list row) : summary :=
  let f := s_fields s in
  let m := Summary (s_issues s ++ scan_issues s) [] [] [] in
  let m := fold_left (add_activity f)
             [("method", "method"); ("target", "operation_target"); ("message_id", "message_id")] m in
  let m := Summary (m_issues m ++ id_issues f) (m_activity m) (m_outcome m) (m_sources m) in
  fold_left add_http rows (add_reply f m).

Lemma combined_issues digest k g reason : observed (combined digest k g reason) = true ->
  let m := group_summary (group_scan g reason) (g_rows g) in
  m_issues m = [] /\ has "http_status" (m_outcome m) = true /\
  has "local_transfer_complete" (m_outcome m) = true /\
  get "reported_outcome" (combined digest k g reason) = Some (VDict (m_outcome m)).
Proof.
  unfold combined. cbv zeta. fold (scan_all (g_issues g ++ match reason with Some r => [r] | None => [] end) (g_rows g)).
  fold (group_scan g reason).
  change (fold_left add_http (g_rows g) (add_reply _ _)) with (group_summary (group_scan g reason) (g_rows g)).
  set (m := group_summary _ _).
  destruct (transport (g_rows g)) as [[tr ti] ts]. destruct k as [[[[? ?] ?] ?] ?].
  set (l := m_issues m ++ _ ++ ti) || set (l := (m_issues m ++ _) ++ ti).
  destruct (sorted_set l) as [|x y] eqn:Hs; [|done]. intros _.
  apply sorted_set_nil in Hs. unfold l in Hs. apply app_eq_nil in Hs as [Hs _].
  apply app_eq_nil in Hs as [Hs1 Hs2]. apply if_issue_nil, orb_false_iff in Hs2 as [Ha Hb].
  split_and!; [done|by apply negb_false_iff|by apply negb_false_iff|done].
Qed.

Lemma summary_facts s rows : m_issues (group_summary s rows) = [] ->
  s_issues s = [] /\ scan_issues s = [] /\ id_issues (s_fields s) = [] /\
  forall r, fget 2 "reply" (s_fields s) = Some r ->
    str_eq "status" (update (dget "reported_outcome" (r_event r)) []) "complete" = true.
Proof.
  unfold group_summary. cbv zeta. intros H.
  eapply extends_nil in H; [|apply fold_extends, add_http_extends].
  set (m1 := fold_left (add_activity (s_fields s)) _ _) in *.
  set (m2 := Summary (m_issues m1 ++ _) _ _ _) in *.
  assert (m_issues m2 = []) as H2 by (eapply extends_nil; [apply add_reply_extends|exact H]).
  cbn [m2 m_issues] in H2. apply app_eq_nil in H2 as [H1 Hid].
  assert (m_outcome m2 = []) as Ho by (unfold m2; cbn [m_outcome]; unfold m1; by rewrite add_activity_outcome).
  unfold m1 in H1. eapply extends_nil in H1; [|apply fold_extends, add_activity_extends].
  cbn [m_issues] in H1. apply app_eq_nil in H1 as [Hs Hsc]. split_and!; try done.
  intros r Hr. unfold add_reply in H. rewrite Hr, Ho in H. cbn [m_issues] in H.
  apply app_eq_nil in H as [_ H]. apply if_issue_nil, negb_false_iff in H. done.
Qed.

Lemma observed_facts digest k g reason : observed (combined digest k g reason) = true ->
  reason = None /\ exchange_facts g.
Proof.
  intros H. apply combined_issues in H as (Hm & _ & _ & _).
  apply summary_facts in Hm as (Hi & Hs & Hid & Hrep).
  unfold group_scan in *.
  pose proof (scan_all_scanned (g_issues g ++ match reason with Some r => [r] | None => [] end)
    (g_rows g)) as Hsc.
  assert (g_issues g ++ match reason with Some r => [r] | None => [] end = []) as H0.
  { destruct Hsc as [_ _ _ _ (more & Hmore & _)]. rewrite Hi in Hmore. symmetry in Hmore.
    by apply app_eq_nil in Hmore as [? _]. }
  rewrite H0 in *. apply app_eq_nil in H0 as [Hg Hr]. split; [by destruct reason|].
  destruct (scan_facts _ _ Hsc Hi Hs) as (F & N & G & S1 & S2 & Sh & Sc & Sp & All).
  destruct Hsc as [C1 C2 Ht Cf _]. constructor; try done.
  - intros side kind Hside Hkind. destruct (All side kind Hside Hkind) as [r Hf].
    exists r. by apply G.
  - intros r r' Hin Hin' Hsd. rewrite Forall_forall in F. destruct (F r Hin) as [E|E].
    + eapply size_1_eq; [exact S1| |]; apply C1; [by exists r|exists r'; split_and!; congruence].
    + eapply size_1_eq; [exact S2| |]; apply C2; [by exists r|exists r'; split_and!; congruence].
  - assert (forall r, r ∈ json_rows (g_rows g) ->
      http_producer r ∈ (set_map (fun c => (c.1.1, c.1.2))
        (s_calls1 (scan_all [] (g_rows g)) ∪ s_calls2 (scan_all [] (g_rows g))) : gset _)) as Hp.
    { intros r Hin. apply elem_of_map. exists (call r). split; [done|]. apply elem_of_union.
      rewrite Forall_forall in F. destruct (F r Hin) as [E|E];
        [left; apply C1|right; apply C2]; by exists r. }
    intros r r' Hin Hin'. eapply size_1_eq; [exact Sp| |]; auto.
  - intros r r' Hin Hin'. eapply size_1_eq; [exact Sh| |]; apply Ht; eauto.
  - rewrite <- Sc, Cf, length_map. done.
  - intros r1 r2 Hin1 Hin2 Hs1 Hs2. unfold id_issues in Hid.
    rewrite (proj2 (G 1 "message_id" r1)), (proj2 (G 2 "message_id" r2)) in Hid by done.
    cbv zeta in *. destruct (str_eq "status" (dget "message_id" (dget "activity" (r_event r1))) _); [|done].
    destruct (str_eq "status" (dget "message_id" (dget "activity" (r_event r2))) _); [|done].
    cbn [negb orb] in Hid. apply if_issue_nil, negb_false_iff, andb_true_iff in Hid as [? ?]. done.
  - intros r Hin Hs'. apply Hrep. by apply G.
Qed.

(** C8: the combiner claims an observed exchange only on full evidence.  No
    reason to invalidate the group was given and none was noted; every JSON row
    is on side 1 or 2, each of the four kinds of record occurs exactly once per
    side, one message per side and one producer for both; all HTTP rows come from
    one producer and exactly one of them is the client's request confirmation;
    the two message IDs are complete and equal, the reply is complete, and the
    HTTP status and the transfer completion are in the reported outcome. *)
Theorem observed_exchange_evidence digest k g reason :
  observed (combined digest k g reason) = true ->
  reason = None /\ exchange_facts g /\
  exists o, get "reported_outcome" (combined digest k g reason) = Some (VDict o) /\
    has "http_status" o = true /\ has "local_transfer_complete" o = true.
Proof.
  intros H. destruct (observed_facts _ _ _ _ H) as [Hr Hf]. split_and!; [done|done|].
  apply combined_issues in H as (_ & H1 & H2 & H3). eauto.
Qed.

(** ** Where an observed exchange is emitted *)

Section emission.
Variable digest : key -> string.

Lemma reason_not_observed k g x : observed (combined digest k g (Some x)) = false.
Proof.
  destruct (observed _) eqn:E; [|done]. by destruct (observed_facts _ _ _ _ E).
Qed.

Lemma is_combined_combined k g reason : is_combined (combined digest k g reason) = true.
Proof.
  unfold combined. cbv zeta. destruct (transport (g_rows g)) as [[tr ti] ts].
  destruct k as [[[[? ?] ?] ?] ?]. reflexivity.
Qed.

(** A combined output that claims an exchange. *)
Definition claims (d : dict) : Prop := is_combined d = true /\ observed d = true.

Lemma flush_claims c reason d : d ∈ (flush digest c reason).2 -> ~ claims d.
Proof.
  cbn [flush snd]. intros (kg & -> & _)%list_elem_of_fmap [_ H].
  by rewrite reason_not_observed in H.
Qed.

Lemma finish_claims c k x c' d : finish digest c k (Some x) = Ok (c', d) -> ~ claims d.
Proof.
  unfold finish. destruct (pget k (pending c)); [|done]. intros [= _ <-] [_ H].
  by rewrite reason_not_observed in H.
Qed.

Lemma join_claims c k g r c' out d : join_group digest c k g r = Ok (c', out) -> d ∈ out ->
  claims d -> r_phase r = 3.
Proof.
  unfold join_group. cbv zeta. set (c0 := with_pending c _).
  destruct (mem_Z (r_phase r) [3; 4]) eqn:Em.
  - unfold mem_Z in Em. cbn [existsb] in Em. destruct (Z.eqb_spec (r_phase r) 4); [|intros; lia].
    destruct (finish digest c0 k _) as [[c2 d2]|] eqn:Hf; [|done]. intros [= _ <-] Hd Hc.
    apply list_elem_of_singleton in Hd as ->. by apply finish_claims in Hf.
  - destruct (_ <=? _); [|by intros [= _ <-] Hd%elem_of_nil].
    destruct (finish digest c0 k _) as [[c2 d2]|] eqn:Hf; [|done]. intros [= _ <-] Hd Hc.
    apply list_elem_of_singleton in Hd as ->. by apply finish_claims in Hf.
Qed.

Lemma feed_exchange_claims c r c' out d : is_combined (r_event r) = false ->
  feed_exchange digest c r = Ok (c', out) -> d ∈ out -> claims d ->
  r_phase r = 3 /\ pending c <> [].
Proof.
  intros Hr. unfold feed_exchange. cbv zeta. destruct (Z.eqb_spec (r_phase r) 1) as [E1|E1].
  - intros H Hd Hc. exfalso. destruct (pget (row_key r) (pending c)) as [g|].
    + destruct (finish digest c (row_key r) _) as [[c1 d1]|] eqn:Hf; [|done]. injection H as _ <-.
      apply elem_of_cons in Hd as [->|Hd]; [by apply finish_claims in Hf|].
      apply list_elem_of_singleton in Hd as ->. destruct Hc as [Hc _]. congruence.
    + fold (make_room digest c) in H.
      destruct (make_room digest c) as [[c1 out1]|] eqn:Hm; [|done].
      destruct (join_group digest _ _ _ r) as [[c2 out2]|] eqn:Hj; [|done]. injection H as _ <-.
      apply elem_of_app in Hd as [Hd|Hd]; [|by rewrite (join_claims _ _ _ _ _ _ _ Hj Hd Hc) in E1].
      unfold make_room in Hm. destruct (_ <=? _); [|by injection Hm as _ <-; apply elem_of_nil in Hd].
      destruct (pending c) as [|[k0 g0] rest]; [done|].
      destruct (finish digest c k0 _) as [[c3 d3]|] eqn:Hf; [|done]. injection Hm as _ <-.
      apply list_elem_of_singleton in Hd as ->. by apply finish_claims in Hf.
  - destruct (pget (row_key r) (pending c)) as [g|] eqn:Hk.
    + intros H Hd Hc. split; [by eapply join_claims|]. by destruct (pending c).
    + intros [= _ <-] Hd Hc. exfalso. apply list_elem_of_singleton in Hd as ->.
      destruct Hc as [Hc _]. unfold is_combined, str_eq, getv in *. rewrite get_set in Hc.
      cbn [String.eqb Ascii.eqb Bool.eqb] in Hc. congruence.
Qed.

Lemma flushed_pending (b : bool) c reason c1 out1 :
  (if b then flush digest c reason else (c, [])) = (c1, out1) ->
  (b = true -> pending c1 = []) /\ (b = false -> c1 = c) /\ (forall d, d ∈ out1 -> ~ claims d).
Proof.
  destruct b; intros [= <- <-]; split_and!; try done.
  - intros d Hd. by eapply (flush_claims c reason).
  - intros d Hd. by apply elem_of_nil in Hd.
Qed.

Lemma demoted_not_combined r s : is_combined (demoted r s) = false.
Proof. unfold is_combined, str_eq, demoted, getv. rewrite !get_set. reflexivity. Qed.

Lemma feed_valid_claims c r c' out d : is_combined (r_event r) = false ->
  feed_valid digest c r = Ok (c', out) -> d ∈ out -> claims d ->
  r_phase r = 3 /\ int_at "output_failures" (r_record r) = 0 /\ pending c <> [] /\
  match sequences c !! row_producer r with
  | Some q => int_at "sequence" (r_record r) = q + 1
  | None => True
  end.
Proof.
  intros Hr. unfold feed_valid. cbv zeta. set (p := row_producer r).
  set (seq := int_at "sequence" (r_record r)).
  match goal with |- context [if ?b then let '(_, _) := flush _ _ _ in _ else _] =>
    destruct b eqn:Ereg end.
  { destruct (flush digest c _) as [c1 o1] eqn:Hf. intros [= _ <-] Hd Hc. exfalso.
    apply elem_of_app in Hd as [Hd|Hd].
    - eapply (flush_claims c "duplicate_or_regressed_sequence"); [|exact Hc]. by rewrite Hf.
    - apply list_elem_of_singleton in Hd as ->. destruct Hc as [Hc _].
      by rewrite demoted_not_combined in Hc. }
  match goal with |- context [if ?b then flush digest c "producer_gap" else _] =>
    destruct (if b then flush digest c "producer_gap" else (c, [])) as [c1 out1] eqn:H1;
    apply flushed_pending in H1 as (Ht1 & Hf1 & Hn1); remember b as gap eqn:Egap end.
  match goal with |- context [if ?b then flush digest c1 "producer_capacity" else _] =>
    destruct (if b then flush digest c1 "producer_capacity" else (c1, [])) as [c2 out2] eqn:H2;
    apply flushed_pending in H2 as (Ht2 & Hf2 & Hn2); remember b as full eqn:Efull end.
  destruct (negb (truthy _) || _).
  { intros [= _ <-] Hd Hc. exfalso. rewrite !elem_of_app, list_elem_of_singleton in Hd.
    destruct Hd as [Hd|[Hd| ->]]; [by eapply Hn1|by eapply Hn2|]. destruct Hc. congruence. }
  destruct (feed_exchange digest _ r) as [[c4 out4]|] eqn:He; [|done]. intros [= _ <-] Hd Hc.
  rewrite !elem_of_app in Hd. destruct Hd as [Hd|[Hd|Hd]]; [by destruct (Hn1 d)|by destruct (Hn2 d)|].
  destruct (feed_exchange_claims _ _ _ _ _ Hr He Hd Hc) as [Hph Hpend].
  cbn [pending with_sequences] in Hpend. split; [done|].
  destruct full; [by rewrite Ht2 in Hpend|]. rewrite (Hf2 eq_refl) in Hpend.
  destruct gap; [by rewrite Ht1 in Hpend|]. rewrite (Hf1 eq_refl) in Hpend.
  symmetry in Egap. apply orb_false_iff in Egap as [Eg Eo].
  split_and!; [lia|done|]. destruct (sequences c !! p); [lia|done].
Qed.
End emission.

(** An observed exchange is emitted only at the row that completes it and
    only without a gap: the row's frame is the one its record implies, its phase
    is 3, no output loss is reported, the replay cursor follows the last one by
    one, and the record's sequence number follows the producer's last one by one
    if the producer is known. *)
Theorem observed_exchange_contiguous digest c r c' out d :
  is_combined (r_event r) = false -> feed_row digest c r = Ok (c', out) ->
  d ∈ out -> is_combined d = true -> observed d = true ->
  frame_valid r = true /\ r_phase r = 3 /\ int_at "output_failures" (r_record r) = 0 /\
  match sequences c !! row_producer r with
  | Some q => int_at "sequence" (r_record r) = q + 1
  | None => True
  end /\
  match cursor c with
  | None | Some EmptyString => True
  | Some old => exists journal n, parse_cursor old = Ok (journal, n) /\
      parse_cursor (r_cursor r) = Ok (journal, n + 1)
  end.
Proof.
  intros Hr H Hd Hd1 Hd2. assert (claims d) as Hc by done. unfold feed_row in H.
  destruct (advance digest c (r_cursor r)) as [[c1 out1]|] eqn:Ha; [|done]. cbv zeta in H.
  assert ((forall d, d ∈ out1 -> ~ claims d) /\
    (pending c1 <> [] -> sequences c1 = sequences c /\ match cursor c with
    | None | Some EmptyString => True
    | Some old => exists journal n, parse_cursor old = Ok (journal, n) /\
        parse_cursor (r_cursor r) = Ok (journal, n + 1) end)) as [Hn1 Hcur].
  { unfold advance in Ha. destruct (parse_cursor (r_cursor r)) as [[j n]|] eqn:Hp; [|done].
    destruct (cursor c) as [[|a old]|];
      [by injection Ha as <- <-; split; [intros ? []%elem_of_nil|]| 
      |by injection Ha as <- <-; split; [intros ? []%elem_of_nil|]].
    destruct (parse_cursor (String a old)) as [[j' n']|] eqn:Hp'; [|done].
    destruct (_ || _) eqn:Eb; [done|]. apply orb_false_iff in Eb as [Ej _].
    apply negb_false_iff, String.eqb_eq in Ej. subst j'.
    destruct (negb (n =? n' + 1)) eqn:En; injection Ha as <- <-.
    - split; [|done]. intros d0 Hd0. by eapply (flush_claims digest c "cursor_discontinuity").
    - split; [by intros ? []%elem_of_nil|]. intros _. split; [done|]. exists j, n'.
      apply negb_false_iff, Z.eqb_eq in En. by subst. }
  destruct (_ || _).
  { exfalso. destruct (negb (mem_str _ _)).
    - injection H as _ <-. rewrite !elem_of_app, list_elem_of_singleton in Hd.
      destruct Hd as [Hd|[Hd| ->]]; [by eapply Hn1| |congruence].
      by eapply (flush_claims digest c1 "diagnostic_or_unqualified_record").
    - injection H as _ <-. rewrite !elem_of_app, list_elem_of_singleton in Hd.
      destruct Hd as [Hd| ->]; [by eapply Hn1|congruence]. }
  destruct (frame_valid r) eqn:Hv; cbn [negb] in H.
  2: { exfalso. injection H as _ <-. rewrite !elem_of_app, list_elem_of_singleton in Hd.
       destruct Hd as [Hd|[Hd| ->]]; [by eapply Hn1| |by rewrite demoted_not_combined in Hd1].
       by eapply (flush_claims digest c1 "invalid_frame_binding"). }
  destruct (feed_valid digest c1 r) as [[c2 out2]|] eqn:Hf; [|done]. injection H as _ <-.
  apply elem_of_app in Hd as [Hd|Hd]; [by destruct (Hn1 d)|].
  destruct (feed_valid_claims digest _ _ _ _ _ Hr Hf Hd Hc) as (Hph & Hof & Hpend & Hseq).
  destruct (Hcur Hpend) as [Hs Hc']. rewrite Hs in Hseq. by split_and!.
Qed.

(** ** A concrete exchange *)

Definition demo_row (n kind : string) (side phase seq invocation : Z) (instance : string)
    (code : Z) (activity outcome : dict) : row :=
  Row (String.append "j:" n)
    [("event_type", VStr "agent.activity"); ("activity", VDict activity);
     ("reported_outcome", VDict outcome);
     ("evidence", VDict
       [("source_id", VStr "src"); ("raw", VDict [("ring", VInt 0)]); ("observation", VStr kind);
        ("group", VDict [("owner_instance", VStr "7"); ("exchange", VStr "1"); ("status", VInt 1);
                         ("phase", VInt phase); ("side", VInt side);
                         ("invocation", VStr (py_str invocation))]);
        ("record", VDict [("instance", VStr instance); ("revision", VStr "1"); ("run", VStr "3");
                          ("sequence", VStr (py_str seq)); ("output_failures", VStr "0");
                          ("code", VInt code); ("flow_status", VInt 1); ("flow_side", VInt side)])])].

Definition demo_complete (kv : dict) : val := VDict (("status", VStr "complete") :: kv).
Definition demo_id : dict :=
  [("message_id", demo_complete [("kind", VStr "number"); ("raw_hex", VStr "37")])].
Definition demo_json (base : nat) (side invocation first : Z) : list row :=
  imap (fun i '(kind, activity, outcome) =>
          demo_row (pretty (Z.of_nat (base + i))) kind side (if (side =? 1) && (i =? 0)%nat then 1 else 2)
            (first + Z.of_nat i) invocation "7" 0 activity outcome)
    [("method", [("method", demo_complete [])], []);
     ("operation_target", [("target", demo_complete [])], []);
     ("message_id", demo_id, []); ("reply", [], [("status", VStr "complete")])].

Definition demo_rows : list row :=
  demo_json 1 1 1 1 ++ [demo_row "5" "http_response" 1 2 1 1 "9" 142 [] []] ++ demo_json 6 2 2 5 ++
  [demo_row "10" "http_response" 1 2 2 2 "9" 28 [] [("http_status", demo_complete [("value", VInt 200)])]].
Definition demo_last : row :=
  demo_row "11" "http_response" 1 3 3 3 "9" 29 []
    [("local_transfer_complete", demo_complete [("value", VBool true)])].

Definition demo_state : combiner :=
  match feed_rows (fun _ => "id") (new_combiner 128 128) demo_rows with
  | Ok (c, _) => c
  | Err _ => new_combiner 0 0
  end.
Definition demo_group : group := Group "j:1" (demo_rows ++ [demo_last]) [] true.
Definition demo_key : key := ("src", 0, "3", "7", "1").

Lemma observed_exchange_evidence_witness :
  observed (combined (fun _ => "id") demo_key demo_group None) = true /\ exchange_facts demo_group.
Proof.
  assert (observed (combined (fun _ => "id") demo_key demo_group None) = true) as H
    by (vm_compute; reflexivity).
  split; [exact H|].
  destruct (observed_exchange_evidence _ _ _ _ H) as (_ & Hf & _). exact Hf.
Defined.

Definition demo_out : combiner * list dict :=
  match feed_row (fun _ => "id") demo_state demo_last with Ok x => x | Err _ => (demo_state, []) end.

Lemma observed_exchange_contiguous_witness :
  feed_row (fun _ => "id") demo_state demo_last = Ok demo_out /\
  frame_valid demo_last = true /\ r_phase demo_last = 3.
Proof.
  assert (feed_row (fun _ => "id") demo_state demo_last = Ok (demo_out.1, demo_out.2)) as H
    by (vm_compute; reflexivity).
  assert (demo_out.2 = [combined (fun _ => "id") demo_key demo_group None]) as Ho
    by (vm_compute; reflexivity).
  split; [vm_compute; reflexivity|].
  destruct (observed_exchange_contiguous (fun _ => "id") demo_state demo_last demo_out.1 demo_out.2
    (combined (fun _ => "id") demo_key demo_group None)) as (Hv & Hp & _).
  - vm_compute. reflexivity.
  - exact H.
  - rewrite Ho. apply list_elem_of_singleton. reflexivity.
  - vm_compute. reflexivity.
  - vm_compute. reflexivity.
  - split; [exact Hv|exact Hp].
Defined.
