(* ===== verification/Journal.v ===== *)
(** * The stream collector's journal (env/ai-traffic/stream_collector.py)

    The SQLite journal as two tables, the writer ([accept] and what it calls),
    the acknowledged collection loop, the cursor replay and the HTTP handler
    around it.  Parameters: the SHA-256 digest, the random identifiers, the page
    limit of the database ([full]) and the JSON reader of a line. *)

From S2P Require Import Prelude PyVal Text Decoders Export.

(** ** Canonical JSON *)

Definition hex4 (z : Z) : list ascii :=
  [hexdigit (z / 4096 mod 16); hexdigit (z / 256 mod 16); hexdigit (z / 16 mod 16); hexdigit (z mod 16)].

(** One code point of a string with [ensure_ascii]. *)
Definition json_char (c : Z) : list ascii :=
  let esc (x : Z) := [chr 92; chr x] in
  if c =? 34 then esc 34 else if c =? 92 then esc 92
  else if c =? 10 then esc 110 else if c =? 13 then esc 114 else if c =? 9 then esc 116
  else if c =? 12 then esc 102 else if c =? 8 then esc 98
  else if (32 <=? c) && (c <? 127) then [chr c]
  else if c <? 0x10000 then chr 92 :: chr 117 :: hex4 c
  else let v := c - 0x10000 in
       (chr 92 :: chr 117 :: hex4 (0xd800 + v / 1024)) ++
       (chr 92 :: chr 117 :: hex4 (0xdc00 + v mod 1024)).

Definition json_str (cps : list Z) : string :=
  list_str (chr 34 :: flat_map json_char cps ++ [chr 34]).

Definition key_le (a b : string * string) : Prop := String.le a.1 b.1.
#[export] Instance key_le_dec a b : Decision (key_le a b).
Proof. unfold key_le. apply _. Defined.

(** [json.dumps(v, sort_keys=True, separators=(",", ":"), ensure_ascii=True)]. *)
Fixpoint canonical (v : val) : string :=
  match v with
  | VNone => "null"
  | VBool b => if b then "true" else "false"
  | VInt z => py_str z
  | VStr s => json_str (encode s)
  | VText l => json_str l
  | VBytes b => json_str b
  | VList l => String.append "[" (String.append (String.concat "," (map canonical l)) "]")
  | VDict d =>
      let items := map (fun kv => (kv.1, canonical kv.2)) d in
      let sorted := merge_sort key_le items in
      String.append "{" (String.append
        (String.concat "," (map (fun kv => String.append (json_str (encode kv.1))
                                   (String.append ":" kv.2)) sorted)) "}")
  end.

Definition MAX_FRAME : Z := 8192.

(** ** Tables *)

Record event_row := EventRow {
  e_id : Z; e_key : string; e_fingerprint : string; e_body : val }.

(** [events] in id order, the AUTOINCREMENT counter, and [state]. *)
Record db := Db { events : list event_row; last_id : Z; state : gmap string val }.

Record journal := Journal {
  j_db : db; j_retain : Z; j_source : option string; j_source_frame : val }.

Section collector.
Variable sha256 : string -> string.
Variable full : db -> bool.

Definition db_get (d : db) (k : string) : option val := state d !! k.

(** A write that would pass the page limit raises. *)
Definition checked (d : db) : result db :=
  if full d then Err (ValueError "database or disk is full") else Ok d.

Definition db_put (d : db) (k : string) (v : val) : result db :=
  checked (Db (events d) (last_id d) (<[k := v]> (state d))).

(** [DELETE FROM state WHERE key LIKE 'ring:%' OR key LIKE 'drops:%']. *)
Definition delete_progress (d : db) : db :=
  Db (events d) (last_id d)
     (filter (fun kv => starts_with "ring:" kv.1 || starts_with "drops:" kv.1 = false) (state d)).

Fixpoint find_event (k : string) (l : list event_row) : option event_row :=
  match l with
  | [] => None
  | r :: t => if String.eqb k (e_key r) then Some r else find_event k t
  end.

(** [insert]: an existing key must carry the same bytes; otherwise the oldest
    rows beyond [retain - 1] go and the row gets the next id. *)
Definition insert_event (retain : Z) (d : db) (k fingerprint : string) (body : val) : result (db * Z) :=
  match find_event k (events d) with
  | Some r =>
      raise_if (negb (String.eqb (e_fingerprint r) fingerprint))
        (ValueError "conflicting bytes for an existing event identity") ;;
      Ok (d, e_id r)
  | None =>
      let kept := zdrop (len (events d) - (retain - 1)) (events d) in
      let id := last_id d + 1 in
      let? d := checked (Db (kept ++ [EventRow id k fingerprint body]) id (state d)) in
      Ok (d, id)
  end.

(** [Journal(path, retain, max_pages)] on an existing or new database. *)
Definition open_journal (d : db) (retain max_pages : Z) (uuid : string) : result journal :=
  raise_if ((retain <? 2) || (max_pages <? 32)) (ValueError "retain >= 2 and max_pages >= 32 required") ;;
  let d := match state d !! "journal_id" with
           | Some _ => d
           | None => Db (events d) (last_id d) (<["journal_id" := VStr uuid]> (state d))
           end in
  Ok (Journal d retain None VNone).

(** ** [accept] *)

Definition truthy_str (s : option string) : bool :=
  match s with Some (String _ _) => true | _ => false end.

(** [int(v)]. *)
Definition int_val (v : val) : result Z :=
  match v with
  | VInt z => Ok z
  | VBool b => Ok (b2z b)
  | VStr s => match py_int s with
              | Some z => Ok z
              | None => Err (ValueError "invalid literal for int()")
              end
  | _ => Err TypeError
  end.

(** The source registration, inside its transaction. *)
Definition source_transaction (retain : Z) (d : db) (raw : val) (source epoch : string) : result db :=
  match db_get d "source_id" with
  | Some (VStr s) =>
      if String.eqb s source then Ok d else
      let? d := db_put (delete_progress d) "source_id" (VStr source) in
      let? d := db_put d "source_epoch" (VStr epoch) in
      let? (d, _) := insert_event retain d (String.append "source:" epoch) source
        (VDict [("type", VStr "source_boundary"); ("source_id", VStr epoch); ("source", raw);
                ("history", VStr "unknown_before_first_collection")]) in
      Ok d
  | _ =>
      let? d := db_put (delete_progress d) "source_id" (VStr source) in
      let? d := db_put d "source_epoch" (VStr epoch) in
      let? (d, _) := insert_event retain d (String.append "source:" epoch) source
        (VDict [("type", VStr "source_boundary"); ("source_id", VStr epoch); ("source", raw);
                ("history", VStr "unknown_before_first_collection")]) in
      Ok d
  end.

(** A checked frame, ready for its transaction. *)
Record prepared := Prepared {
  p_health : bool; p_progress : string; p_begin : Z; p_position : Z;
  p_key : string; p_fingerprint : string; p_body : dict }.

(** [str(ring)] of an accepted ring index. *)
Definition ring_text (ring : val) : result string :=
  match ring with
  | VInt z => if (0 <=? z) && (z <? 16) then Ok (py_str z) else Err (ValueError "invalid ring index")
  | VBool b => Ok (if b then "True" else "False")
  | _ => Err (ValueError "invalid ring index")
  end.

(** The decoded copy of a method record. *)
Definition decoded_body (body : dict) (payload : bytes) : dict :=
  match method_decode payload with
  | Ok r => set "decoded" (VDict [("schema", VStr "method/v1");
                                  ("binding", VStr "not_verified_by_collector");
                                  ("record", VDict (str_counters r))]) body
  | Err (ValueError m) => set "decode_error" (VStr m) body
  | Err _ => body
  end.

(** The record branch: the payload is read and bounded. *)
Definition record_body (raw body : dict) : result dict :=
  let? data := item "data" raw in
  let? payload := match data with VStr s => fromhex s | _ => Err TypeError end in
  raise_if (512 <? len payload) (ValueError "oversize record") ;;
  let? schema := item "schema" raw in
  Ok (if val_eqb schema (VInt 100) && (len payload =? 144)
         && bytes_eqb (ztake 4 payload) [0x54; 0x45; 0x4d; 0x4a]
      then decoded_body body payload else body).

(** The checks before the transaction. *)
Definition prepare (source : string) (source_frame : val) (kind : string) (raw : dict) : result prepared :=
  let? ring := item "ring" raw in
  let? rt := ring_text ring in
  let health := String.eqb kind "ring_health" in
  let progress := String.append (if health then "drops:" else "ring:") rt in
  let? (begin, position, raw, key) :=
    (if health then
       let? v := item "drops" raw in
       let? position := int_val v in
       raise_if (position <? 0) (ValueError "invalid drop count") ;;
       Ok (0, position, remove "drop_bytes" raw, cat [source; ":drops:"; rt; ":"; py_str position])
     else
       let? b := item "begin" raw in
       let? begin := int_val b in
       let? e := item "end" raw in
       let? position := int_val e in
       raise_if ((begin <? 0) || (position <=? begin)) (ValueError "invalid ring interval") ;;
       Ok (begin, position, raw, cat [source; ":record:"; rt; ":"; py_str begin])) in
  let fingerprint := sha256 (canonical (VDict raw)) in
  let body := [("type", VStr kind); ("source_id", VStr source); ("source", source_frame);
               ("event_id", VStr key); ("raw", VDict raw); ("schema", VStr "application_stream/v1")] in
  let? body := (if String.eqb kind "record" then record_body raw body else Ok body) in
  Ok (Prepared health progress begin position key fingerprint body).

(** The stored checkpoint of a ring. *)
Definition checkpoint (d : db) (k : string) : option (Z * string) :=
  match db_get d k with
  | Some (VDict c) => Some (iget "position" c, sget "fingerprint" c)
  | _ => None
  end.

Definition progress_val (p : prepared) : val :=
  VDict [("position", VInt (p_position p)); ("fingerprint", VStr (p_fingerprint p))].

(** The transaction of a record, a discard or a health frame. *)
Definition frame_transaction (retain : Z) (d : db) (p : prepared) : result db :=
  let previous := checkpoint d (p_progress p) in
  let store (body : dict) : result db :=
    let? (d, _) := insert_event retain d (p_key p) (p_fingerprint p) (VDict body) in
    db_put d (p_progress p) (progress_val p) in
  let with_health (body : dict) : dict :=
    if p_health p then
      set "dropped_since_checkpoint"
        (match previous with Some (q, _) => VInt (p_position p - q) | None => VNone end)
        (set "type" (VStr (if p_position p =? 0 then "ring_health" else "observation_gap")) body)
    else body in
  match previous with
  | Some (q, fp) =>
      raise_if (p_position p <? q) (ValueError "source position regressed") ;;
      if p_position p =? q then
        raise_if (negb (String.eqb fp (p_fingerprint p)))
          (ValueError "conflicting replay at checkpoint") ;;
        Ok d
      else
        raise_if (negb (p_health p) && negb (p_begin p =? q))
          (ValueError "unaccounted source position gap") ;;
        store (with_health (p_body p))
  | None => store (with_health (p_body p))
  end.

(** [accept]: an exception inside a transaction rolls it back, so the database
    is the one before it. *)
Definition accept (epoch : string) (j : journal) (frame : dict) : journal * result unit :=
  let raw := remove "token" frame in
  if MAX_FRAME <? strlen (canonical (VDict raw))
  then (j, Err (ValueError "oversize reader frame")) else
  match item "kind" raw with
  | Err e => (j, Err e)
  | Ok kind =>
      if val_eqb kind (VStr "source") then
        let source := sha256 (canonical (VDict raw)) in
        match source_transaction (j_retain j) (j_db j) (VDict raw) source epoch with
        | Err e => (j, Err e)
        | Ok d =>
            let epoch := match db_get d "source_epoch" with Some (VStr s) => Some s | _ => None end in
            (Journal d (j_retain j) epoch (VDict raw), Ok tt)
        end
      else
        match j_source j, kind with
        | Some (String a s), VStr k =>
            if mem_str k ["record"; "discard"; "ring_health"] then
              match prepare (String a s) (j_source_frame j) k raw with
              | Err e => (j, Err e)
              | Ok p =>
                  match frame_transaction (j_retain j) (j_db j) p with
                  | Err e => (j, Err e)
                  | Ok d => (Journal d (j_retain j) (j_source j) (j_source_frame j), Ok tt)
                  end
              end
            else (j, Err (ValueError "record without a registered source or unknown frame kind"))
        | _, _ => (j, Err (ValueError "record without a registered source or unknown frame kind"))
        end
  end.

(** ** [collect] *)

(** One line of the reader: its bytes and what [json.loads] makes of it. *)
Record line := Line { l_bytes : bytes; l_json : result val }.

(** The read loop: every accepted frame is acknowledged with its token, and the
    first exception ends the loop without an acknowledgement. *)
Fixpoint collect_loop (epochs : nat -> string) (n : nat) (j : journal) (lines : list line)
    (acks : list string) : journal * list string * result unit :=
  match lines with
  | [] => (j, acks, Ok tt)
  | l :: rest =>
      match l_bytes l with
      | [] => (j, acks, Ok tt)
      | _ =>
          if (MAX_FRAME <? len (l_bytes l)) || negb (bytes_eqb (zdrop (len (l_bytes l) - 1) (l_bytes l)) [10])
          then (j, acks, Err (ValueError "incomplete or oversize reader frame; no ACK"))
          else match l_json l with
               | Ok (VDict frame) =>
                   match accept (epochs n) j frame with
                   | (j, Err e) => (j, acks, Err e)
                   | (j, Ok tt) =>
                       match item "token" frame with
                       | Ok (VStr t) => collect_loop epochs (S n) j rest (acks ++ [t])
                       | Ok _ => (j, acks, Err TypeError)
                       | Err e => (j, acks, Err e)
                       end
                   end
               | Ok _ => (j, acks, Err TypeError)
               | Err e => (j, acks, Err e)
               end
      end
  end.
End collector.

(** ** [replay] *)

(** [cursor.split(":", 1)] and [int()] of the offset. *)
Fixpoint first_colon (l : list ascii) : option (list ascii * list ascii) :=
  match l with
  | [] => None
  | c :: t => if Ascii.eqb c ":" then Some ([], t)
              else match first_colon t with Some (a, b) => Some (c :: a, b) | None => None end
  end.

Definition cursor_text (identity : string) (n : Z) : string := cat [identity; ":"; py_str n].

Definition oldest_id (d : db) : Z := match events d with r :: _ => e_id r | [] => 1 end.
Definition newest_id (d : db) : Z := match last (events d) with Some r => e_id r | None => 0 end.

(** The rows after a position. *)
Definition page_of (d : db) (after limit : Z) : list event_row :=
  ztake limit (filter (fun r => after < e_id r) (events d)).

Definition page_doc (d : db) (identity : string) (boundary : dict) (after limit : Z) : dict :=
  let rows := page_of d after limit in
  boundary ++
  [("events", VList (map (fun r => VDict [("cursor", VStr (cursor_text identity (e_id r)));
                                          ("event", e_body r)]) rows));
   ("next_cursor", VStr (cursor_text identity
       (match last rows with Some r => e_id r | None => after end)))].

Definition replay (d : db) (cursor : option string) (limit : Z) : result (Z * dict) :=
  raise_if (negb ((1 <=? limit) && (limit <=? 128))) (ValueError "limit must be 1..128") ;;
  match state d !! "journal_id" with
  | Some (VStr identity) =>
      let oldest := oldest_id d in
      let newest := newest_id d in
      let boundary := [("journal_id", VStr identity);
                       ("oldest_cursor", VStr (cursor_text identity (oldest - 1)));
                       ("latest_cursor", VStr (cursor_text identity newest))] in
      match cursor with
      | None =>
          let boundary := boundary ++
            [("start", VStr "oldest_retained; earlier history not requested")] in
          Ok (200, page_doc d identity boundary (oldest - 1) limit)
      | Some c =>
          match first_colon (str_list c) with
          | None => Err (ValueError "not enough values to unpack")
          | Some (jid, offset) =>
              if negb (String.eqb (list_str jid) identity)
              then Ok (409, boundary ++ [("error", VStr "wrong_journal")]) else
              match py_int (list_str offset) with
              | None => Err (ValueError "invalid literal for int()")
              | Some after =>
                  if after <? oldest - 1
                  then Ok (409, boundary ++ [("error", VStr "retention_gap");
                                             ("requested_cursor", VStr c)])
                  else if newest <? after
                  then Ok (409, boundary ++ [("error", VStr "future_cursor")])
                  else Ok (200, page_doc d identity boundary after limit)
              end
          end
      end
  | _ => Err TypeError
  end.

(** ** [do_GET] *)

(** The poll: successive snapshots of the journal until a page has events, an
    error is reported, or the deadline (the end of the list) is reached. *)
Fixpoint poll (snapshots : list db) (cursor : option string) (limit : Z) : result (Z * dict) :=
  match snapshots with
  | [] => Err StopIteration
  | d :: rest =>
      let? (status, body) := replay d cursor limit in
      let has_events := match get "events" body with Some (VList (_ :: _)) => true | _ => false end in
      match rest with
      | [] => Ok (status, body)
      | _ => if negb (status =? 200) || has_events then Ok (status, body)
             else poll rest cursor limit
      end
  end.

(** The answer to a request with a parsed query: the status and, when it is a
    replay, the document.  [snapshots] are the states of the journal at the polls
    before the deadline.  An exception the handler does not catch leaves it. *)
Definition do_GET (path : string) (query : gmap string string) (snapshots : list db)
  : result (Z * option dict) :=
  if negb (String.eqb path "/events") then Ok (404, None) else
  match py_int (default "100" (query !! "limit")), py_int (default "0" (query !! "wait_ms")) with
  | Some limit, Some wait =>
      if negb ((0 <=? wait) && (wait <=? 10000)) then Ok (400, None) else
      match poll snapshots (query !! "after") limit with
      | Ok (status, body) => Ok (status, Some body)
      | Err (ValueError _) | Err (KeyError _) => Ok (400, None)
      | Err e => Err e
      end
  | _, _ => Ok (400, None)
  end.
