(* ===== verification/JournalSpec.v ===== *)
(** * What the journal promises

    Ids are consecutive and keys unique, whatever is accepted; a refused frame
    changes nothing; the records of a ring form one unbroken chain of intervals;
    accepting a frame again changes nothing; a replay page has no hole and paging
    reaches every retained event; a frame is acknowledged only after it is
    stored. *)

From S2P Require Import Prelude PyVal Text Decoders Export Journal.

(** ** Well-formed tables *)

(** The ids of the retained rows are consecutive and end at [last_id]. *)
Definition ids_from (first : Z) (l : list event_row) : Prop :=
  forall i r, l !! i = Some r -> e_id r = first + Z.of_nat i.

Record wf (retain : Z) (d : db) : Prop := {
  wf_ids : ids_from (last_id d - len (events d) + 1) (events d);
  wf_last : len (events d) <= last_id d;
  wf_keys : NoDup (map e_key (events d));
  wf_retain : len (events d) <= retain }.

Lemma ids_from_app first a b :
  ids_from first (a ++ b) <-> ids_from first a /\ ids_from (first + len a) b.
Proof.
  unfold ids_from, len. split.
  - intros H. split.
    + intros i r Hi. apply H. rewrite lookup_app_l; [done|]. by eapply lookup_lt_Some.
    + intros i r Hi. rewrite (H (length a + i)%nat r); [lia|].
      rewrite lookup_app_r by lia. by replace (length a + i - length a)%nat with i by lia.
  - intros [Ha Hb] i r Hi. apply lookup_app_Some in Hi as [Hi|[Hl Hi]]; [by apply Ha|].
    rewrite (Hb _ _ Hi). lia.
Qed.

Lemma find_event_some k l r : find_event k l = Some r -> r ∈ l /\ e_key r = k.
Proof.
  induction l as [|x l IH]; simpl; [done|]. destruct (String.eqb_spec k (e_key x)) as [->|].
  - intros [= ->]. split; [left|done].
  - intros H. destruct (IH H). split; [by right|done].
Qed.

Lemma find_event_none k l : find_event k l = None -> k ∉ map e_key l.
Proof.
  induction l as [|x l IH]; simpl; [intros _; apply not_elem_of_nil|].
  destruct (String.eqb_spec k (e_key x)) as [->|Hn]; [done|]. intros H.
  apply not_elem_of_cons. auto.
Qed.

Section spec.
Variable sha256 : string -> string.
Variable full : db -> bool.

Lemma checked_ok d d' : checked full d = Ok d' -> d' = d.
Proof. unfold checked. destruct (full d); [done|]. by intros [= ->]. Qed.

Lemma db_put_ok d k v d' : db_put full d k v = Ok d' ->
  events d' = events d /\ last_id d' = last_id d /\ state d' = <[k := v]> (state d).
Proof. intros H%checked_ok. by subst. Qed.

(** What a successful insert does. *)
Lemma insert_event_ok retain d k fp body d' id : insert_event full retain d k fp body = Ok (d', id) ->
  state d' = state d /\
  ((d' = d /\ (exists r, r ∈ events d /\ e_key r = k /\ e_fingerprint r = fp)) \/
   ((k ∉ map e_key (events d)) /\ last_id d' = last_id d + 1 /\
    events d' = drop (Z.to_nat (len (events d) - (retain - 1))) (events d) ++
                [EventRow (last_id d + 1) k fp body])).
Proof.
  unfold insert_event. destruct (find_event k (events d)) as [r|] eqn:Hf.
  - destruct (String.eqb_spec (e_fingerprint r) fp); cbn [negb]; [|done]. intros [= <- <-].
    split; [done|]. left. split; [done|]. exists r. destruct (find_event_some _ _ _ Hf). done.
  - destruct (checked full _) as [d1|] eqn:Hc; [|done]. intros [= <- <-].
    apply checked_ok in Hc. subst. split; [done|]. right. cbn [last_id events].
    split_and!; [by apply find_event_none|done|]. by rewrite zdrop_drop.
Qed.

Lemma insert_event_wf retain d k fp body d' id : 1 <= retain -> wf retain d ->
  insert_event full retain d k fp body = Ok (d', id) -> wf retain d'.
Proof.
  intros Hr Hwf [_ H]%insert_event_ok. destruct H as [[-> _]|(Hk & Hl & He)]; [done|].
  destruct Hwf as [Hid Hlast Hkeys Hret].
  set (m := Z.to_nat (len (events d) - (retain - 1))) in *.
  assert (Z.of_nat m <= len (events d)) as Hm by (unfold m, len in *; lia).
  assert (len (events d') = len (events d) - Z.of_nat m + 1) as Hlen.
  { rewrite He, len_app. change (len [_]) with 1. unfold len in *. rewrite length_drop. lia. }
  constructor.
  - rewrite Hlen, Hl, He. apply ids_from_app. split.
    + intros i r Hi. rewrite lookup_drop in Hi. rewrite (Hid _ _ Hi). lia.
    + intros [|i] r Hi; [|done]. injection Hi as <-. cbn [e_id].
      unfold len. rewrite length_drop. unfold len in Hm. lia.
  - rewrite Hlen, Hl. lia.
  - rewrite He, map_app. cbn [map e_key]. apply NoDup_app. split_and!.
    + rewrite <- skipn_map. rewrite <- (take_drop m (map e_key (events d))) in Hkeys.
      by apply NoDup_app in Hkeys as (_ & _ & ?).
    + intros x Hx ->%list_elem_of_singleton. apply Hk. rewrite <- skipn_map in Hx.
      rewrite <- (take_drop m (map e_key (events d))). apply elem_of_app. by right.
    + apply NoDup_singleton.
  - rewrite Hlen. unfold m, len in *. lia.
Qed.

Lemma wf_state retain d d' : events d' = events d -> last_id d' = last_id d -> wf retain d -> wf retain d'.
Proof. intros He Hl [? ? ? ?]. constructor; by rewrite ?He, ?Hl. Qed.

Lemma source_transaction_wf retain d raw source epoch d' : 1 <= retain -> wf retain d ->
  source_transaction full retain d raw source epoch = Ok d' -> wf retain d'.
Proof.
  intros Hr Hwf. unfold source_transaction.
  assert (forall d',
    (let? d := db_put full (delete_progress d) "source_id" (VStr source) in
     let? d := db_put full d "source_epoch" (VStr epoch) in
     let? (d, _) := insert_event full retain d (String.append "source:" epoch) source
        (VDict [("type", VStr "source_boundary"); ("source_id", VStr epoch); ("source", raw);
                ("history", VStr "unknown_before_first_collection")]) in
     Ok d) = Ok d' -> wf retain d') as Hnew.
  { intros d2. destruct (db_put full (delete_progress d) _ _) as [d3|] eqn:H1; [|done].
    destruct (db_put full d3 _ _) as [d4|] eqn:H2; [|done].
    destruct (insert_event full retain d4 _ _ _) as [[d5 id]|] eqn:H3; [|done]. intros [= <-].
    eapply insert_event_wf; [done| |exact H3].
    apply db_put_ok in H1 as (E1 & L1 & _). apply db_put_ok in H2 as (E2 & L2 & _).
    eapply wf_state; [..|exact Hwf]; by rewrite ?E2, ?L2, ?E1, ?L1. }
  destruct (db_get d "source_id") as [[| | |s| | | |]|]; try apply Hnew.
  destruct (String.eqb s source); [by intros [= <-]|apply Hnew].
Qed.

(** The body stored for a frame: the prepared one, or, for a health frame, one
    whose type says health or gap. *)
Definition stored_body (p : prepared) (body : dict) : Prop :=
  if p_health p then sget "type" body = "ring_health" \/ sget "type" body = "observation_gap"
  else body = p_body p.

(** The transaction of a frame, in terms of the checkpoint before and after. *)
Lemma frame_transaction_ok retain d p d' : frame_transaction full retain d p = Ok d' ->
  (checkpoint d (p_progress p) = Some (p_position p, p_fingerprint p) /\ d' = d) \/
  ((match checkpoint d (p_progress p) with
    | Some (q, _) => q < p_position p /\ (p_health p = false -> p_begin p = q)
    | None => True end) /\
   state d' = <[p_progress p := progress_val p]> (state d) /\
   exists d1 id body, stored_body p body /\
     insert_event full retain d (p_key p) (p_fingerprint p) (VDict body) = Ok (d1, id) /\
     events d' = events d1 /\ last_id d' = last_id d1).
Proof.
  unfold frame_transaction. cbv zeta.
  assert (forall body, stored_body p body ->
    (let? (d0, _) := insert_event full retain d (p_key p) (p_fingerprint p) (VDict body)
      in db_put full d0 (p_progress p) (progress_val p)) = Ok d' ->
    state d' = <[p_progress p := progress_val p]> (state d) /\
    exists d1 id body, stored_body p body /\
      insert_event full retain d (p_key p) (p_fingerprint p) (VDict body) = Ok (d1, id) /\
      events d' = events d1 /\ last_id d' = last_id d1) as Hstore.
  { intros body Hb. destruct (insert_event _ _ _ _ _ _) as [[d1 id]|] eqn:Hi; [|done].
    intros (He & Hl & Hs)%db_put_ok. rewrite Hs.
    destruct (insert_event_ok _ _ _ _ _ _ _ Hi) as [-> _]. split; [done|]. eauto 10. }
  assert (forall v, stored_body p (if p_health p then set "dropped_since_checkpoint" v
    (set "type" (VStr (if p_position p =? 0 then "ring_health" else "observation_gap")) (p_body p))
    else p_body p)) as Hbody.
  { intros v. unfold stored_body, sget. destruct (p_health p); [|done].
    rewrite get_set_ne, get_set_eq by done. destruct (p_position p =? 0); auto. }
  destruct (checkpoint d (p_progress p)) as [[q fp]|].
  - destruct (Z.ltb_spec (p_position p) q); [done|].
    destruct (Z.eqb_spec (p_position p) q) as [->|Hne].
    + destruct (String.eqb_spec fp (p_fingerprint p)) as [->|]; cbn [negb]; [|done].
      intros [= <-]. by left.
    + destruct (negb (p_health p) && negb (p_begin p =? q)) eqn:Eg; [done|].
      intros Hst%Hstore; [|done]. right. split; [|done]. split; [lia|]. intros Hh.
      rewrite Hh in Eg. simpl in Eg. lia.
  - intros H%Hstore; [|done]. by right.
Qed.

Lemma frame_transaction_wf retain d p d' : 1 <= retain -> wf retain d ->
  frame_transaction full retain d p = Ok d' -> wf retain d'.
Proof.
  intros Hr Hwf [[_ ->]|(_ & _ & d1 & id & body & _ & Hi & He & Hl)]%frame_transaction_ok; [done|].
  eapply wf_state; [exact He|exact Hl|]. by eapply insert_event_wf.
Qed.

(** The two shapes of an accepted frame. *)
Lemma accept_cases epoch j frame j' r : accept sha256 full epoch j frame = (j', r) ->
  (exists e, r = Err e /\ j' = j) \/
  (r = Ok tt /\ j_retain j' = j_retain j /\
   (getv "kind" (remove "token" frame) = VStr "source" /\
    source_transaction full (j_retain j) (j_db j) (VDict (remove "token" frame))
      (sha256 (canonical (VDict (remove "token" frame)))) epoch = Ok (j_db j') /\
    j_source_frame j' = VDict (remove "token" frame) /\
    j_source j' = match db_get (j_db j') "source_epoch" with Some (VStr s) => Some s | _ => None end \/
    exists source k p, j_source j = Some source /\ getv "kind" (remove "token" frame) = VStr k /\
      mem_str k ["record"; "discard"; "ring_health"] = true /\
      prepare sha256 source (j_source_frame j) k (remove "token" frame) = Ok p /\
      frame_transaction full (j_retain j) (j_db j) p = Ok (j_db j') /\
      j_source j' = j_source j /\ j_source_frame j' = j_source_frame j)).
Proof.
  unfold accept. cbv zeta. destruct (MAX_FRAME <? _); [intros [= <- <-]; left; eauto|].
  unfold item, getv. destruct (get "kind" (remove "token" frame)) as [kind|] eqn:Hk;
    [|intros [= <- <-]; left; eauto]. cbn [default].
  destruct (val_eqb kind (VStr "source")) eqn:Es.
  - assert (kind = VStr "source") as ->.
    { destruct kind; try done. simpl in Es. by apply String.eqb_eq in Es as ->. }
    destruct (source_transaction _ _ _ _ _ _) as [d|] eqn:Ht; [|intros [= <- <-]; left; eauto].
    intros [= <- <-]. right. split_and!; [done|done|]. by left.
  - destruct (j_source j) as [[|a s]|] eqn:Hs; try (intros [= <- <-]; left; eauto; fail).
    destruct kind as [| | |k| | | |]; try (intros [= <- <-]; left; eauto; fail).
    destruct (mem_str k _) eqn:Hm; [|intros [= <- <-]; left; eauto].
    destruct (prepare _ _ _ _ _) as [p|] eqn:Hp; [|intros [= <- <-]; left; eauto].
    destruct (frame_transaction _ _ _ _) as [d|] eqn:Ht; [|intros [= <- <-]; left; eauto].
    intros [= <- <-]. right. split_and!; [done|done|]. right. by exists (String a s), k, p.
Qed.
End spec.

(** C9: whatever frame arrives, [accept] keeps the journal well formed (retained
    ids are consecutive up to the last one given out, keys are unique, at most
    [retain] rows), and a frame it refuses leaves the journal exactly as it was. *)
Theorem accept_wf sha256 full epoch j frame j' r :
  1 <= j_retain j -> wf (j_retain j) (j_db j) -> accept sha256 full epoch j frame = (j', r) ->
  wf (j_retain j') (j_db j') /\ (r <> Ok tt -> j' = j).
Proof.
  intros Hr Hwf H. apply accept_cases in H as [(e & -> & ->)|(-> & Hret & H)]; [done|].
  split; [|done]. rewrite Hret. destruct H as [(_ & Ht & _)|(? & ? & p & _ & _ & _ & _ & Ht & _)].
  - by eapply source_transaction_wf.
  - by eapply frame_transaction_wf.
Qed.

Definition empty_journal : journal :=
  Journal (Db [] 0 {[ "journal_id" := VStr "j" ]}) 2 None VNone.
Definition source_frame : dict := [("kind", VStr "source"); ("token", VStr "t1")].
Definition record_frame : dict :=
  [("kind", VStr "record"); ("ring", VInt 0); ("begin", VInt 0); ("end", VInt 8);
   ("data", VStr "00"); ("schema", VInt 1); ("token", VStr "t2")].
Definition demo_sha (s : string) : string := s.
Definition demo_journal : journal := (accept demo_sha (fun _ => false) "e1" empty_journal source_frame).1.

Lemma accept_wf_witness :
  wf 2 (j_db (accept demo_sha (fun _ => false) "e1" empty_journal source_frame).1).
Proof.
  destruct (accept_wf demo_sha (fun _ => false) "e1" empty_journal source_frame
    (accept demo_sha (fun _ => false) "e1" empty_journal source_frame).1
    (accept demo_sha (fun _ => false) "e1" empty_journal source_frame).2) as [H _].
  - vm_compute. discriminate.
  - constructor; [intros [|i] r Hi; discriminate|discriminate|apply NoDup_nil_2|discriminate].
  - apply surjective_pairing.
  - exact H.
Defined.

(** ** The chain of a ring *)

(** Intervals that join end to end, from a first position (none at the start of
    a source) to a last one. *)
Inductive chain : option Z -> list (Z * Z) -> option Z -> Prop :=
| chain_nil q : chain q [] q
| chain_first b e l q : b < e -> chain (Some e) l q -> chain None ((b, e) :: l) q
| chain_next b e l q : b < e -> chain (Some e) l q -> chain (Some b) ((b, e) :: l) q.

Lemma chain_app p l1 q l2 r : chain p l1 q -> chain q l2 r -> chain p (l1 ++ l2) r.
Proof. induction 1; intros H2; [done|constructor; auto..]. Qed.

Section chains.
Variable sha256 : string -> string.
Variable full : db -> bool.

(** The frames are accepted one after the other. *)
Fixpoint accept_all (j : journal) (fs : list (string * dict)) : option journal :=
  match fs with
  | [] => Some j
  | (epoch, f) :: t =>
      match accept sha256 full epoch j f with
      | (j', Ok _) => accept_all j' t
      | (_, Err _) => None
      end
  end.

Definition frame_kind (f : dict) : string := sget "kind" (remove "token" f).

(** *** What the stored rows say *)

Definition raw_of (body : dict) : dict :=
  match get "raw" body with Some (VDict d) => d | _ => [] end.

(** The interval of ring [rt] that a stored row records for the source [s]. *)
Definition interval_of (s rt : string) (r : event_row) : option (Z * Z) :=
  match e_body r with
  | VDict body =>
      let raw := raw_of body in
      if mem_str (sget "type" body) ["record"; "discard"] && String.eqb (sget "source_id" body) s then
        match ring_text (getv "ring" raw), int_val (getv "begin" raw), int_val (getv "end" raw) with
        | Ok t, Ok b, Ok e => if String.eqb t rt then Some (b, e) else None
        | _, _, _ => None
        end
      else None
  | _ => None
  end.

Definition stored (s rt : string) (l : list event_row) : list (Z * Z) := omap (interval_of s rt) l.

(** The rows a table of [retain] rows keeps of [l]. *)
Definition kept (retain : Z) (l : list event_row) : list event_row :=
  drop (Z.to_nat (len l - retain)) l.

Lemma kept_all retain l : len l <= retain -> kept retain l = l.
Proof. intros H. unfold kept. by replace (Z.to_nat (len l - retain)) with O by lia. Qed.

Lemma kept_kept retain l1 l2 : 0 <= retain ->
  kept retain (kept retain l1 ++ l2) = kept retain (l1 ++ l2).
Proof.
  intros Hr. unfold kept. set (k := Z.to_nat (len l1 - retain)).
  assert (k <= length l1)%nat as Hk by (unfold k, len; lia).
  rewrite <- (drop_app_le l1 l2 k) by done. rewrite drop_drop. f_equal.
  unfold k, len in *. rewrite length_drop, length_app. lia.
Qed.

Lemma kept_append retain d r : 1 <= retain -> wf retain d ->
  drop (Z.to_nat (len (events d) - (retain - 1))) (events d) ++ [r] = kept retain (events d ++ [r]).
Proof.
  intros Hr Hwf. pose proof (wf_retain _ _ Hwf). unfold kept. rewrite len_app. change (len [r]) with 1.
  rewrite drop_app_le by (unfold len in *; lia). do 2 f_equal. lia.
Qed.

Definition record_key (s rt : string) (b : Z) : string := cat [s; ":record:"; rt; ":"; py_str b].

Lemma colon_inj a b x y : Forall (fun c => c <> ":"%char) a -> Forall (fun c => c <> ":"%char) b ->
  a ++ ":"%char :: x = b ++ ":"%char :: y -> a = b /\ x = y.
Proof.
  intros Ha. revert b. induction Ha as [|c a Hc _ IH]; intros b Hb H; destruct Hb as [|e b He Hb]; simplify_eq/=; [done|].
  destruct (IH _ Hb) as [-> ->]; done.
Qed.

Lemma record_key_inj s rt rt' b b' : no_colon rt -> no_colon rt' ->
  record_key s rt b = record_key s rt' b' -> rt = rt' /\ b = b'.
Proof.
  intros Hrt Hrt' H. apply (f_equal str_list) in H. unfold record_key in H. rewrite !str_list_cat in H.
  cbn [map concat] in H. rewrite !app_nil_r in H. apply app_inv_head in H. apply app_inv_head in H.
  apply colon_inj in H as [Ht%str_list_inj Hb%str_list_inj]; [|done..].
  split; [done|]. by apply (inj pretty).
Qed.

Lemma record_drops_ne s rt b rt' n : cat [s; ":drops:"; rt'; ":"; n] <> record_key s rt b.
Proof.
  intros H. apply (f_equal str_list) in H. unfold record_key in H. rewrite !str_list_cat in H.
  cbn [map concat] in H. by apply app_inv_head in H.
Qed.

Lemma ring_text_no_colon v rt : ring_text v = Ok rt -> no_colon rt.
Proof.
  destruct v as [|b|z| | | | |]; cbn; try done.
  - intros [= <-]. destruct b; repeat constructor; discriminate.
  - destruct ((0 <=? z) && (z <? 16)) eqn:E; [|done]. intros [= <-].
    eapply Forall_impl; [apply py_str_digits; lia|]. intros c Hc ->. by vm_compute in Hc.
Qed.

(** What [prepare] returns: for a health frame, progress and key of the drops;
    for the others, those of the ring, and a body that records the interval. *)
Lemma prepare_ok source sf k raw p : prepare sha256 source sf k raw = Ok p ->
  mem_str k ["record"; "discard"; "ring_health"] = true ->
  exists rt, no_colon rt /\
  if p_health p
  then p_progress p = String.append "drops:" rt /\ exists n, p_key p = cat [source; ":drops:"; rt; ":"; n]
  else p_progress p = String.append "ring:" rt /\ p_key p = record_key source rt (p_begin p) /\
    p_begin p < p_position p /\
    forall rt' i f, interval_of source rt' (EventRow i (p_key p) f (VDict (p_body p))) =
      if String.eqb rt rt' then Some (p_begin p, p_position p) else None.
Proof.
  unfold prepare. intros H Hm.
  destruct (item "ring" raw) as [ring|] eqn:Er; [|done].
  destruct (ring_text ring) as [rt|] eqn:Ert; [|done].
  exists rt. split; [by eapply ring_text_no_colon|].
  cbv zeta in H. destruct (String.eqb k "ring_health") eqn:Eh.
  - destruct (item "drops" raw) as [v|]; [|done]. destruct (int_val v) as [pos|]; [|done].
    destruct (pos <? 0); [done|].
    destruct (if String.eqb k "record" then _ else _) as [body|]; [|done].
    injection H as <-. cbn. eauto.
  - destruct (item "begin" raw) as [b|] eqn:Eb; [|done]. destruct (int_val b) as [bz|] eqn:Ebz; [|done].
    destruct (item "end" raw) as [e|] eqn:Ee; [|done]. destruct (int_val e) as [ez|] eqn:Eez; [|done].
    destruct ((bz <? 0) || (ez <=? bz)) eqn:Ei; [done|].
    destruct (if String.eqb k "record" then _ else _) as [body|] eqn:Ebody; [|done].
    injection H as <-. cbn. split_and!; [done..|lia|]. intros rt' i f.
    unfold interval_of. cbn [e_body].
    assert (sget "type" body = k /\ sget "source_id" body = source /\ raw_of body = raw) as (-> & -> & ->).
    { destruct (String.eqb k "record"); [|by injection Ebody as <-].
      revert Ebody. unfold record_body. destruct (item "data" raw) as [data|]; [|done].
      destruct (match data with VStr s => fromhex s | _ => Err TypeError end) as [payload|]; [|done].
      destruct (512 <? len payload); [done|]. destruct (item "schema" raw) as [sc|]; [|done].
      intros [= <-]. destruct (_ && _ && _); [|done].
      unfold decoded_body, sget, raw_of. destruct (method_decode payload) as [r|[]]; by rewrite ?get_set_ne by done. }
    cbn in Hm. rewrite Eh, orb_false_l in Hm. rewrite Hm, String.eqb_refl. cbn [andb]. unfold getv, item in *.
    destruct (get "ring" raw), (get "begin" raw), (get "end" raw); simplify_eq. cbn [default id].
    by rewrite Ert, Ebz, Eez.
Qed.
Lemma checkpoint_insert d d' k p : state d' = <[k := progress_val p]> (state d) ->
  forall k', checkpoint d' k' =
    if String.eqb k' k then Some (p_position p, p_fingerprint p) else checkpoint d k'.
Proof.
  intros Hs k'. unfold checkpoint, db_get. rewrite Hs.
  destruct (String.eqb_spec k' k) as [->|]; [by rewrite lookup_insert_eq|].
  by rewrite lookup_insert_ne.
Qed.

(** *** The invariant *)

(** The checkpoint position of a ring. *)
Definition position (d : db) (rt : string) : option Z :=
  fst <$> checkpoint d (String.append "ring:" rt).

(** The records stored under the keys of the source [s] lie before the ring's
    checkpoint. *)
Definition behind (s : string) (d : db) : Prop := forall r rt b,
  r ∈ events d -> no_colon rt -> e_key r = record_key s rt b -> exists q, position d rt = Some q /\ b < q.

Definition epoch_of (d : db) : option string :=
  match db_get d "source_epoch" with Some (VStr s) => Some s | _ => None end.

(** A journal between frames: its source, if one is registered since it was
    opened, is the one the database names. *)
Record sound (j : journal) : Prop := {
  sound_retain : 1 <= j_retain j;
  sound_wf : wf (j_retain j) (j_db j);
  sound_source : j_source j = None \/ j_source j = epoch_of (j_db j);
  sound_behind : forall s, epoch_of (j_db j) = Some s -> behind s (j_db j) }.

(** One transaction: it adds at most one row, and of each ring the row records
    the interval by which the checkpoint moves. *)
Lemma transaction_step retain d p d' source sf k raw :
  1 <= retain -> wf retain d -> behind source d ->
  prepare sha256 source sf k raw = Ok p ->
  mem_str k ["record"; "discard"; "ring_health"] = true ->
  frame_transaction full retain d p = Ok d' ->
  behind source d' /\ (forall key, starts_with "ring:" key || starts_with "drops:" key = false ->
    db_get d' key = db_get d key) /\
  exists new, events d' = kept retain (events d ++ new) /\
    forall rt, chain (position d rt) (stored source rt new) (position d' rt).
Proof.
  intros Hr Hwf Hb Hp Hm Ht.
  destruct (prepare_ok _ _ _ _ _ Hp Hm) as (rt0 & Hrt0 & Hcase).
  pose proof (kept_all _ _ (wf_retain _ _ Hwf)) as Hkept.
  apply frame_transaction_ok in Ht as [[_ ->]|(Hc & Hst & d1 & id & body & Hbody & Hi & He & _)].
  { split_and!; [done..|]. exists []. rewrite app_nil_r. split; [done|]. intros rt. constructor. }
  pose proof (checkpoint_insert _ _ _ _ Hst) as Hck.
  assert (forall r, r ∈ events d' -> r ∈ events d \/
    (p_key p ∉ map e_key (events d)) /\ r = EventRow (last_id d + 1) (p_key p) (p_fingerprint p) (VDict body)) as Hrows.
  { intros r. rewrite He. apply insert_event_ok in Hi as [_ [[-> _]|(Hn & _ & ->)]]; [auto|].
    rewrite elem_of_app. intros [Hin|Hin%list_elem_of_singleton]; [left|by right].
    rewrite <- (take_drop (Z.to_nat (len (events d) - (retain - 1))) (events d)). set_solver. }
  assert (forall key, starts_with "ring:" key || starts_with "drops:" key = false ->
    db_get d' key = db_get d key) as Hother.
  { intros key Hkey. unfold db_get. rewrite Hst. apply lookup_insert_ne. intros <-.
    destruct (p_health p); destruct Hcase as [-> _] in Hkey;
      rewrite starts_with_append in Hkey; by rewrite ?orb_true_r in Hkey. }
  unfold stored_body in Hbody. destruct (p_health p) eqn:Hh.
  - destruct Hcase as [Hprog [n Hkey]].
    assert (forall rt, position d' rt = position d rt) as Hpos.
    { intros rt. unfold position. rewrite Hck, Hprog. done. }
    split; [|split; [done|]].
    + intros r rt b Hin Hrt Hk. rewrite Hpos. destruct (Hrows r Hin) as [Hold|[_ ->]]; [by apply (Hb r)|].
      cbn [e_key] in Hk. rewrite Hkey in Hk. by apply record_drops_ne in Hk.
    + apply insert_event_ok in Hi as [_ [[-> _]|(_ & _ & Hev)]].
      * exists []. rewrite app_nil_r, Hkept. split; [done|]. intros rt. rewrite Hpos. constructor.
      * eexists. split; [rewrite He, Hev; by apply kept_append|]. intros rt. rewrite Hpos.
        assert (stored source rt [EventRow (last_id d + 1) (p_key p) (p_fingerprint p) (VDict body)] = []) as ->;
          [|constructor].
        unfold stored. cbn [omap list_omap]. unfold interval_of. cbn [e_body].
        by destruct Hbody as [->| ->].
  - destruct Hcase as (Hprog & Hkey & Hlt & Hint). subst body.
    assert (position d rt0 = None \/ position d rt0 = Some (p_begin p)) as Hbefore.
    { unfold position. rewrite <- Hprog. destruct (checkpoint d (p_progress p)) as [[q fp]|]; [right|by left].
      destruct Hc as [_ Hc]. cbn. by rewrite Hc. }
    assert (forall rt, position d' rt = if String.eqb rt rt0 then Some (p_position p) else position d rt) as Hpos.
    { intros rt. unfold position. rewrite Hck, Hprog.
      destruct (String.eqb_spec rt rt0) as [->|Hne]; [by rewrite String.eqb_refl|].
      destruct (String.eqb_spec (String.append "ring:" rt) (String.append "ring:" rt0)) as [E|]; [|done].
      by injection E. }
    apply insert_event_ok in Hi as [_ [[_ (r & Hin & Hk & _)]|(Hn & _ & Hev)]].
    { exfalso. rewrite Hkey in Hk. destruct (Hb r rt0 _ Hin Hrt0 Hk) as (q & Hq & Hlt').
      destruct Hbefore as [E|E]; rewrite E in Hq; simplify_eq. lia. }
    split; [|split; [done|]].
    + intros r rt b Hin Hrt Hk. rewrite Hpos. destruct (Hrows r Hin) as [Hold|[_ ->]].
      * destruct (Hb r rt b Hold Hrt Hk) as (q & Hq & Hbq).
        destruct (String.eqb_spec rt rt0) as [->|]; [|by exists q]. eexists. split; [done|].
        destruct Hbefore as [E|E]; rewrite E in Hq; simplify_eq. lia.
      * cbn [e_key] in Hk. rewrite Hkey in Hk. apply record_key_inj in Hk as [-> <-]; [|done..].
        rewrite String.eqb_refl. by eexists.
    + eexists. split; [rewrite He, Hev; by apply kept_append|]. intros rt. rewrite Hpos.
      unfold stored. cbn [omap list_omap]. rewrite Hint, (String.eqb_sym rt).
      destruct (String.eqb_spec rt0 rt) as [->|]; [|constructor].
      destruct Hbefore as [-> | ->]; constructor; done || constructor.
Qed.

(** The frame, if it is a registration, is of the source the database names. *)
Definition same_source (d : db) (f : dict) : Prop := frame_kind f = "source" ->
  db_get d "source_id" = Some (VStr (sha256 (canonical (VDict (remove "token" f))))).

(** One accepted frame of the registered source. *)
Lemma accept_step s epoch j f j' : sound j -> epoch_of (j_db j) = Some s ->
  same_source (j_db j) f -> accept sha256 full epoch j f = (j', Ok tt) ->
  sound j' /\ epoch_of (j_db j') = Some s /\ j_retain j' = j_retain j /\
  db_get (j_db j') "source_id" = db_get (j_db j) "source_id" /\
  exists new, events (j_db j') = kept (j_retain j) (events (j_db j) ++ new) /\
    forall rt, chain (position (j_db j) rt) (stored s rt new) (position (j_db j') rt).
Proof.
  intros [Hr Hwf Hsrc Hb] Hs Hsame H. pose proof H as Ha.
  apply accept_cases in H as [(e & ? & _)|(_ & Hret & H)]; [done|].
  destruct H as [(Hk & Ht & _ & Hsrc')|(source & k & p & Hj & Hk & Hm & Hp & Ht & Hsrc' & _)].
  - assert (frame_kind f = "source") as Hfk.
    { unfold frame_kind, sget. unfold getv in Hk. destruct (get "kind" (remove "token" f)); [|done].
      cbn in Hk. by subst. }
    unfold source_transaction in Ht. rewrite (Hsame Hfk), String.eqb_refl in Ht. injection Ht as Hd.
    rewrite <- Hd in *. split_and!; [|done..|].
    + constructor; rewrite <- ?Hd, ?Hret; auto.
    + exists []. rewrite app_nil_r, kept_all by apply Hwf. split; [done|intros rt; constructor].
  - assert (source = s) as ->. { destruct Hsrc as [E|E]; rewrite Hj in E; congruence. }
    destruct (transaction_step _ _ _ _ _ _ _ _ Hr Hwf (Hb s Hs) Hp Hm Ht) as (Hb' & Hdb & Hnew).
    assert (epoch_of (j_db j') = Some s) as Hs'.
    { unfold epoch_of. by rewrite Hdb. }
    split_and!; [|done|done|by apply Hdb|done].
    constructor; rewrite ?Hret; [done| | |].
    + by eapply frame_transaction_wf.
    + right. rewrite Hs', Hsrc'. done.
    + intros s' E. rewrite Hs' in E. by injection E as <-.
Qed.
End chains.

(** Registering another source under a new identifier starts the invariant: the
    checkpoints are gone, and no stored record has a key of the identifier. *)
Section registration.
Variable sha256 : string -> string.
Variable full : db -> bool.
Variable epoch : string.

Definition unused (d : db) : Prop := forall r rt b, r ∈ events d -> e_key r <> record_key epoch rt b.

Lemma progress_deleted d rt : db_get (delete_progress d) (String.append "ring:" rt) = None.
Proof.
  unfold db_get, delete_progress. cbn [state]. apply map_lookup_filter_None. right.
  intros v _. cbn [fst]. by rewrite starts_with_append.
Qed.

(** What a transaction that registers another source leaves. *)
Lemma new_source_transaction retain d raw source d' :
  db_get d "source_id" <> Some (VStr source) ->
  source_transaction full retain d raw source epoch = Ok d' ->
  epoch_of d' = Some epoch /\ (forall rt, position d' rt = None) /\
  forall r, r ∈ events d' -> r ∈ events d \/ e_key r = String.append "source:" epoch.
Proof.
  intros Hne H.
  assert ((let? d := db_put full (delete_progress d) "source_id" (VStr source) in
     let? d := db_put full d "source_epoch" (VStr epoch) in
     let? (d, _) := insert_event full retain d (String.append "source:" epoch) source
        (VDict [("type", VStr "source_boundary"); ("source_id", VStr epoch); ("source", raw);
                ("history", VStr "unknown_before_first_collection")]) in
     Ok d) = Ok d') as Hnew.
  { unfold source_transaction in H.
    destruct (db_get d "source_id") as [[| | |s| | | |]|]; try exact H.
    destruct (String.eqb_spec s source) as [->|]; [done|exact H]. }
  destruct (db_put full (delete_progress d) _ _) as [d3|] eqn:H1; [|done].
  destruct (db_put full d3 _ _) as [d4|] eqn:H2; [|done].
  destruct (insert_event full retain d4 _ _ _) as [[d5 id]|] eqn:H3; [|done]. injection Hnew as <-.
  apply db_put_ok in H1 as (E1 & _ & S1). apply db_put_ok in H2 as (E2 & _ & S2).
  apply insert_event_ok in H3 as [S3 Hev]. split_and!.
  - unfold epoch_of, db_get. rewrite S3, S2, lookup_insert_eq. done.
  - intros rt. unfold position, checkpoint, db_get.
    rewrite S3, S2, S1, !lookup_insert_ne by done.
    change (state (delete_progress d) !! String.append "ring:" rt)
      with (db_get (delete_progress d) (String.append "ring:" rt)).
    by rewrite progress_deleted.
  - intros r. change (events (delete_progress d)) with (events d) in E1.
    destruct Hev as [[-> _]|(_ & _ & ->)]; rewrite E2, E1; [auto|].
    intros [Hin| ->%list_elem_of_singleton]%elem_of_app; [left|by right].
    rewrite <- (take_drop (Z.to_nat (len (events d) - (retain - 1))) (events d)). set_solver.
Qed.

Lemma registered_sound j f j' : 1 <= j_retain j -> wf (j_retain j) (j_db j) ->
  frame_kind f = "source" -> ~ same_source sha256 (j_db j) f ->
  unused (j_db j) -> (forall rt b, String.append "source:" epoch <> record_key epoch rt b) ->
  accept sha256 full epoch j f = (j', Ok tt) ->
  sound j' /\ epoch_of (j_db j') = Some epoch /\ forall rt, position (j_db j') rt = None.
Proof.
  intros Hr Hwf Hk Hne Hun Hkey H. apply accept_cases in H as [(e & ? & _)|(_ & Hret & H)]; [done|].
  destruct H as [(_ & Ht & _ & Hsrc)|(source & k & p & _ & Hk' & Hm & _)].
  - destruct (new_source_transaction _ _ _ _ _ (fun E => Hne (fun _ => E)) Ht) as (He & Hpos & Hrows).
    split; [|done]. constructor; rewrite ?Hret; [done| |by right|].
    + by eapply source_transaction_wf.
    + rewrite He. intros s [= <-] r rt b Hin _ Hb. exfalso.
      destruct (Hrows r Hin) as [Hold|E]; [by eapply Hun|]. rewrite E in Hb. by eapply Hkey.
  - exfalso. unfold frame_kind, sget in Hk. unfold getv in Hk'.
    destruct (get "kind" (remove "token" f)) as [v|]; [|done]. cbn in Hk'. subst v. by rewrite Hk in Hm.
Qed.
End registration.

(** C10: within one source the records and discards of a ring are an unbroken
    chain.  Over any accepted sequence of frames of one source (a registration
    repeated after a restart included), the table of events becomes the old rows
    followed by the new ones, less the oldest beyond the retention; and the
    intervals that the new rows record for a ring join end to end, starting at
    its checkpoint before and ending at its checkpoint after, so no position is
    skipped and none is stored twice. *)
Theorem ring_unbroken sha256 full s j fs j' : sound j -> epoch_of (j_db j) = Some s ->
  Forall (fun ef => same_source sha256 (j_db j) ef.2) fs -> accept_all sha256 full j fs = Some j' ->
  sound j' /\ exists new, events (j_db j') = kept (j_retain j) (events (j_db j) ++ new) /\
    forall rt, chain (position (j_db j) rt) (stored s rt new) (position (j_db j') rt).
Proof.
  intros Hj Hs Hf. revert Hj Hs. revert j Hf.
  induction fs as [|[epoch f] fs IH]; intros j Hf Hj Hs H; cbn [accept_all] in H.
  - injection H as <-. split; [done|]. exists []. rewrite app_nil_r, kept_all by apply (sound_wf _ Hj).
    split; [done|intros rt; constructor].
  - apply Forall_cons in Hf as [Hf1 Hf].
    destruct (accept sha256 full epoch j f) as [j1 [[]|]] eqn:Ha; [|done].
    destruct (accept_step _ _ _ _ _ _ _ Hj Hs Hf1 Ha) as (Hj1 & Hs1 & Hr1 & Hid & new1 & He1 & Hc1).
    destruct (IH j1) as (Hj' & new2 & He2 & Hc2); [|done..|].
    { eapply Forall_impl; [exact Hf|]. intros ef Hef Hk. rewrite Hid. by apply Hef. }
    split; [done|]. exists (new1 ++ new2). split.
    + rewrite He2, He1, Hr1, app_assoc. apply kept_kept. pose proof (sound_retain _ Hj). lia.
    + intros rt. unfold stored. rewrite omap_app. by eapply chain_app.
Qed.

(** The journal after its first registration is sound. *)
Lemma demo_sound : sound demo_journal /\ epoch_of (j_db demo_journal) = Some "e1" /\
  forall rt, position (j_db demo_journal) rt = None.
Proof.
  apply (registered_sound demo_sha (fun _ => false) "e1" empty_journal source_frame).
  - discriminate.
  - constructor; [intros [|i] r Hi; discriminate|discriminate|apply NoDup_nil_2|discriminate].
  - reflexivity.
  - intros H. specialize (H eq_refl). discriminate H.
  - intros r rt b Hin. by apply elem_of_nil in Hin.
  - intros rt b H. discriminate H.
  - vm_compute. reflexivity.
Qed.

Lemma ring_unbroken_witness :
  accept_all demo_sha (fun _ => false) demo_journal [("e2", record_frame)] =
    Some (accept demo_sha (fun _ => false) "e2" demo_journal record_frame).1 /\
  exists new, events (j_db (accept demo_sha (fun _ => false) "e2" demo_journal record_frame).1) =
      kept 2 (events (j_db demo_journal) ++ new) /\
    chain None (stored "e1" "0" new) (Some 8).
Proof.
  assert (accept_all demo_sha (fun _ => false) demo_journal [("e2", record_frame)] =
    Some (accept demo_sha (fun _ => false) "e2" demo_journal record_frame).1) as H
    by (vm_compute; reflexivity).
  split; [exact H|]. destruct demo_sound as (Hs & He & _).
  destruct (ring_unbroken demo_sha (fun _ => false) "e1" demo_journal [("e2", record_frame)] _
    Hs He ltac:(constructor; [discriminate|constructor]) H) as (_ & new & Hn & Hc).
  exists new. split; [exact Hn|]. exact (Hc "0").
Defined.
