(* ===== verification/JournalReplay.v ===== *)
(** * Delivery: repeated frames, acknowledgements, replay pages

    A frame accepted twice changes nothing the second time; a frame is
    acknowledged only once its transaction is committed; a replay page is the
    next consecutive rows; a client that follows [next_cursor] reads every
    retained row once, in order. *)

From S2P Require Import Prelude PyVal Decimal Text Decoders Export Journal JournalSpec.

(** ** Accepting a frame again *)

Section again.
Variable sha256 : string -> string.
Variable full : db -> bool.

Lemma source_transaction_source retain d raw source epoch d' :
  source_transaction full retain d raw source epoch = Ok d' ->
  db_get d' "source_id" = Some (VStr source).
Proof.
  unfold source_transaction.
  assert (forall d',
    (let? d := db_put full (delete_progress d) "source_id" (VStr source) in
     let? d := db_put full d "source_epoch" (VStr epoch) in
     let? (d, _) := insert_event full retain d (String.append "source:" epoch) source
        (VDict [("type", VStr "source_boundary"); ("source_id", VStr epoch); ("source", raw);
                ("history", VStr "unknown_before_first_collection")]) in
     Ok d) = Ok d' -> db_get d' "source_id" = Some (VStr source)) as Hnew.
  { intros d2. destruct (db_put full (delete_progress d) _ _) as [d3|] eqn:H1; [|done].
    destruct (db_put full d3 _ _) as [d4|] eqn:H2; [|done].
    destruct (insert_event full retain d4 _ _ _) as [[d5 id]|] eqn:H3; [|done]. intros [= <-].
    apply db_put_ok in H1 as (_ & _ & S1). apply db_put_ok in H2 as (_ & _ & S2).
    apply insert_event_ok in H3 as [S3 _]. unfold db_get. rewrite S3, S2, S1.
    rewrite lookup_insert_ne by done. apply lookup_insert_eq. }
  destruct (db_get d "source_id") as [[| | |s| | | |]|] eqn:Hs; try apply Hnew.
  destruct (String.eqb_spec s source) as [->|]; [by intros [= <-]|apply Hnew].
Qed.

Lemma source_transaction_same retain d raw source epoch :
  db_get d "source_id" = Some (VStr source) ->
  source_transaction full retain d raw source epoch = Ok d.
Proof. intros H. unfold source_transaction. by rewrite H, String.eqb_refl. Qed.

Lemma frame_transaction_again retain d p d' :
  frame_transaction full retain d p = Ok d' -> frame_transaction full retain d' p = Ok d'.
Proof.
  intros H. assert (checkpoint d' (p_progress p) = Some (p_position p, p_fingerprint p)) as Hc.
  { apply frame_transaction_ok in H as [[Hc ->]|(_ & Hs & _)]; [done|].
    by rewrite (checkpoint_insert _ _ _ _ Hs), String.eqb_refl. }
  unfold frame_transaction. cbv zeta. rewrite Hc, Z.ltb_irrefl, Z.eqb_refl, String.eqb_refl. done.
Qed.

(** The guards of [accept] before the transactions depend on the frame only. *)
Lemma accept_source epoch j f : strlen (canonical (VDict (remove "token" f))) <= MAX_FRAME ->
  get "kind" (remove "token" f) = Some (VStr "source") ->
  accept sha256 full epoch j f =
    match source_transaction full (j_retain j) (j_db j) (VDict (remove "token" f))
      (sha256 (canonical (VDict (remove "token" f)))) epoch with
    | Err e => (j, Err e)
    | Ok d => (Journal d (j_retain j)
        (match db_get d "source_epoch" with Some (VStr s) => Some s | _ => None end)
        (VDict (remove "token" f)), Ok tt)
    end.
Proof.
  intros Hl Hk. unfold accept. cbv zeta. destruct (Z.ltb_spec MAX_FRAME (strlen (canonical (VDict (remove "token" f))))); [lia|].
  unfold item. rewrite Hk. done.
Qed.

Lemma accept_fits epoch j f j' : accept sha256 full epoch j f = (j', Ok tt) ->
  strlen (canonical (VDict (remove "token" f))) <= MAX_FRAME.
Proof.
  unfold accept. cbv zeta.
  destruct (Z.ltb_spec MAX_FRAME (strlen (canonical (VDict (remove "token" f))))); [done|lia].
Qed.

Lemma getv_get k d s : getv k d = VStr s -> get k d = Some (VStr s).
Proof. unfold getv. destruct (get k d); simpl; [by intros ->|done]. Qed.

Lemma accept_registered epoch j f j' k : get "kind" (remove "token" f) = Some (VStr k) ->
  String.eqb k "source" = false -> accept sha256 full epoch j f = (j', Ok tt) -> j_source j <> Some "".
Proof.
  intros Hk Hn. unfold accept. cbv zeta. destruct (MAX_FRAME <? _); [done|].
  unfold item. rewrite Hk. cbn [val_eqb]. rewrite Hn. by destruct (j_source j) as [[|]|].
Qed.
End again.

(** Accepting is idempotent.  A reader that sends an accepted frame again (it
    never saw the acknowledgement) has it accepted again, and the journal, the
    registered source included, stays exactly as it was. *)
Theorem accept_idempotent sha256 full epoch epoch' j frame j' :
  accept sha256 full epoch j frame = (j', Ok tt) ->
  accept sha256 full epoch' j' frame = (j', Ok tt).
Proof.
  intros Ha. pose proof (accept_fits _ _ _ _ _ _ Ha) as Hl. pose proof Ha as Ha0.
  apply accept_cases in Ha as [(e & ? & _)|(_ & Hret & [(Hk & Ht & Hf & Hsrc)|H])]; [done|..].
  - apply getv_get in Hk. rewrite accept_source by done.
    rewrite source_transaction_same by (by eapply source_transaction_source).
    rewrite <- Hsrc, <- Hf. by destruct j'.
  - destruct H as (source & k & p & Hs & Hk & Hm & Hp & Ht & Hs' & Hf').
    apply getv_get in Hk.
    destruct (String.eqb k "source") eqn:Ek; [apply String.eqb_eq in Ek as ->; by vm_compute in Hm|].
    pose proof (accept_registered _ _ _ _ _ _ _ Hk Ek Ha0) as Hne. unfold accept. cbv zeta.
    destruct (Z.ltb_spec MAX_FRAME (strlen (canonical (VDict (remove "token" frame))))); [lia|].
    unfold item. rewrite Hk. cbn [val_eqb]. rewrite Ek, Hs', Hf', Hs.
    destruct source as [|a s]; [by rewrite Hs in Hne|].
    rewrite Hm, Hp, Hret, (frame_transaction_again _ _ _ _ _ Ht), <- Hret, <- Hs, <- Hs', <- Hf'.
    by destruct j'.
Qed.

Lemma accept_idempotent_witness :
  let j' := (accept demo_sha (fun _ => false) "e2" demo_journal record_frame).1 in
  len (events (j_db j')) = 2 /\ accept demo_sha (fun _ => false) "e3" j' record_frame = (j', Ok tt).
Proof.
  intros j'. split; [vm_compute; reflexivity|].
  apply (accept_idempotent demo_sha (fun _ => false) "e2" "e3" demo_journal record_frame).
  vm_compute. reflexivity.
Defined.

(** ** Acknowledgements *)

Definition frame_token (f : dict) : string := sget "token" f.

(** The frames of the lines, with the random identifier drawn at each. *)
Fixpoint frames_of (epochs : nat -> string) (n : nat) (lines : list line) : list (string * dict) :=
  match lines with
  | l :: t => match l_json l with
              | Ok (VDict f) => (epochs n, f) :: frames_of epochs (S n) t
              | _ => []
              end
  | [] => []
  end.

Section acks.
Variable sha256 : string -> string.
Variable full : db -> bool.

(** What is acknowledged when the loop ends in [j'] with [acks'] and [r]: the
    tokens of a prefix [fs] of the frames read; the journal is the one accepting
    exactly [fs] leaves, or that journal with the one next frame stored and not
    acknowledged; without an exception every line was acknowledged. *)
Definition delivered (epochs : nat -> string) (n : nat) (j : journal) (lines : list line)
    (acks : list string) (j' : journal) (acks' : list string) (r : result unit) : Prop :=
  exists fs rest j1, frames_of epochs n lines = fs ++ rest /\
    accept_all sha256 full j fs = Some j1 /\
    acks' = acks ++ map (fun ef => frame_token ef.2) fs /\
    (j' = j1 \/ exists ef, head rest = Some ef /\
                 accept sha256 full ef.1 j1 ef.2 = (j', Ok tt) /\ r <> Ok tt) /\
    (r = Ok tt -> Forall (fun l => l_bytes l <> []) lines -> length fs = length lines).

Lemma delivered_stop epochs n j lines acks r :
  (r = Ok tt -> Forall (fun l => l_bytes l <> []) lines -> lines = []) ->
  delivered epochs n j lines acks j acks r.
Proof.
  intros Hr. exists [], (frames_of epochs n lines), j.
  split_and!; [done..|by rewrite app_nil_r|by left|]. intros H1 H2. by rewrite (Hr H1 H2).
Qed.

Lemma delivered_stored epochs n j l lines acks f j' e :
  l_json l = Ok (VDict f) -> accept sha256 full (epochs n) j f = (j', Ok tt) ->
  delivered epochs n j (l :: lines) acks j' acks (Err e).
Proof.
  intros Hj Ha. eexists [], ((epochs n, f) :: _), j. cbn [frames_of]. rewrite Hj.
  split_and!; [done..|by rewrite app_nil_r| |done]. right. by exists (epochs n, f).
Qed.

Lemma delivered_next epochs n j l lines acks f t j1 j' acks' r :
  l_json l = Ok (VDict f) -> accept sha256 full (epochs n) j f = (j1, Ok tt) ->
  item "token" f = Ok (VStr t) ->
  delivered epochs (S n) j1 lines (acks ++ [t]) j' acks' r ->
  delivered epochs n j (l :: lines) acks j' acks' r.
Proof.
  intros Hj Ha Ht (fs & rest & j2 & Hf & Hacc & -> & Hj' & Hlen).
  exists ((epochs n, f) :: fs), rest, j2. cbn [frames_of app map accept_all length]. rewrite Hj, Ha, Hf.
  split_and!; [done|done| |done|].
  - rewrite <- app_assoc. cbn [app snd]. do 2 f_equal. unfold frame_token, sget, getv.
    unfold item in Ht. destruct (get "token" f); [|done]. by injection Ht as ->.
  - intros Hr Hall. apply Forall_cons in Hall as [_ Hall]. by rewrite Hlen.
Qed.
End acks.

(** C11: a frame is acknowledged only after its transaction is committed.  When
    the collection loop ends, for whatever reason, the acknowledged tokens are
    those of a prefix of the frames read, and the journal is the one that
    accepting exactly that prefix leaves, or that journal with the one next frame
    stored and not acknowledged; a loop that ends without an exception has
    acknowledged every line up to the end of the stream. *)
Theorem acknowledged_is_stored sha256 full epochs n j lines acks j' acks' r :
  collect_loop sha256 full epochs n j lines acks = (j', acks', r) ->
  delivered sha256 full epochs n j lines acks j' acks' r.
Proof.
  revert n j acks. induction lines as [|l lines IH]; intros n j acks; cbn [collect_loop].
  { intros [= <- <- <-]. by apply delivered_stop. }
  destruct (l_bytes l) as [|b bs] eqn:Hb.
  { intros [= <- <- <-]. apply delivered_stop. intros _ Hall%Forall_cons. by destruct Hall. }
  destruct (_ || _); [intros [= <- <- <-]; by apply delivered_stop|].
  destruct (l_json l) as [[| | | | | | |f]|e] eqn:Hj;
    try (intros [= <- <- <-]; by apply delivered_stop).
  destruct (accept sha256 full (epochs n) j f) as [j1 [[]|e]] eqn:Ha; cycle 1.
  { apply accept_cases in Ha as [(? & _ & ->)|(? & _)]; [|done].
    intros [= <- <- <-]; by apply delivered_stop. }
  destruct (item "token" f) as [[| | |t| | | |]|e] eqn:Ht;
    try (intros [= <- <- <-]; by eapply delivered_stored).
  intros H%IH. by eapply delivered_next.
Qed.

Definition demo_lines : list line :=
  [Line [123; 125; 10] (Ok (VDict source_frame)); Line [123; 125; 10] (Ok (VDict record_frame))].

Lemma acknowledged_is_stored_witness :
  let out := collect_loop demo_sha (fun _ => false) (fun _ => "e1") 0 empty_journal demo_lines [] in
  out.1.2 = ["t1"; "t2"] /\ out.2 = Ok tt /\
  delivered demo_sha (fun _ => false) (fun _ => "e1") 0 empty_journal demo_lines [] out.1.1 out.1.2 out.2.
Proof.
  intros out. split; [vm_compute; reflexivity|]. split; [vm_compute; reflexivity|].
  apply (acknowledged_is_stored demo_sha (fun _ => false) (fun _ => "e1") 0 empty_journal demo_lines []).
  by destruct (collect_loop demo_sha (fun _ => false) (fun _ => "e1") 0 empty_journal demo_lines [])
    as [[? ?] ?].
Defined.

(** ** Cursors and pages *)

Lemma first_colon_app a b : Forall (fun c => c <> ":"%char) a ->
  first_colon (a ++ ":"%char :: b) = Some (a, b).
Proof.
  induction 1 as [|c a Hc _ IH]; [done|]. cbn [app first_colon].
  destruct (Ascii.eqb_spec c ":"); [done|]. by rewrite IH.
Qed.

Lemma cursor_text_list identity n :
  str_list (cursor_text identity n) = str_list identity ++ ":"%char :: str_list (py_str n).
Proof.
  unfold cursor_text, cat. cbn [String.concat]. rewrite !str_list_append. done.
Qed.

Section pages.
Variable retain : Z.
Variable d : db.
Hypothesis Hwf : wf retain d.

(** The bounds [replay] reports. *)
Lemma oldest_newest : newest_id d = oldest_id d - 1 + len (events d) /\ 1 <= oldest_id d /\
  ids_from (oldest_id d) (events d).
Proof.
  destruct Hwf as [Hid Hl _ _]. unfold oldest_id, newest_id.
  destruct (events d) as [|r l] eqn:He; [split_and!; [done..|intros i r Hi; done]|].
  assert (e_id r = last_id d - len (r :: l) + 1) as Hr by (rewrite (Hid 0%nat r eq_refl); lia).
  split_and!; [|lia|by rewrite Hr].
  rewrite last_lookup. cbn [length pred]. destruct ((r :: l) !! length l) as [x|] eqn:Hx.
  - rewrite (Hid _ _ Hx), len_cons in *. unfold len in *. lia.
  - apply lookup_ge_None in Hx. cbn [length] in Hx. lia.
Qed.

(** The rows after a position are a suffix of the table. *)
Lemma filter_after first l after : ids_from first l ->
  filter (fun r => after < e_id r) l = drop (Z.to_nat (after + 1 - first)) l.
Proof.
  revert first. induction l as [|r l IH]; intros first Hid; [by rewrite drop_nil|].
  assert (e_id r = first) as Hr by (rewrite (Hid 0%nat r eq_refl); lia).
  assert (ids_from (first + 1) l) as Hl.
  { intros i x Hi. rewrite (Hid (S i) x Hi). lia. }
  destruct (decide (after < e_id r)) as [H|H].
  - replace (Z.to_nat (after + 1 - first)) with O by lia. rewrite drop_0.
    apply filter_all. intros x [i Hi]%list_elem_of_lookup. rewrite (Hid _ _ Hi). lia.
  - rewrite filter_cons_False by done. rewrite (IH _ Hl).
    by replace (Z.to_nat (after + 1 - first)) with (S (Z.to_nat (after + 1 - (first + 1)))) by lia.
Qed.

Lemma page_rows after limit :
  page_of d after limit = take (Z.to_nat limit) (drop (Z.to_nat (after + 1 - oldest_id d)) (events d)).
Proof.
  unfold page_of. destruct oldest_newest as (_ & _ & Hid).
  by rewrite ztake_take, (filter_after _ _ _ Hid).
Qed.

Lemma page_ids after limit : oldest_id d - 1 <= after -> ids_from (after + 1) (page_of d after limit).
Proof.
  intros Ha i r Hi. rewrite page_rows in Hi. destruct oldest_newest as (_ & _ & Hid).
  apply lookup_take_Some in Hi as [Hi _]. rewrite lookup_drop in Hi. rewrite (Hid _ _ Hi). lia.
Qed.

Lemma page_length after limit : oldest_id d - 1 <= after <= newest_id d -> 0 <= limit ->
  len (page_of d after limit) = Z.min limit (newest_id d - after).
Proof.
  intros Ha Hl. rewrite page_rows. destruct oldest_newest as (Hn & _ & _).
  unfold len in *. rewrite length_take, length_drop. lia.
Qed.

Lemma page_last after limit : oldest_id d - 1 <= after ->
  match last (page_of d after limit) with Some r => e_id r | None => after end =
  after + len (page_of d after limit).
Proof.
  intros Ha. pose proof (page_ids after limit Ha) as Hid.
  destruct (last (page_of d after limit)) as [r|] eqn:Hl.
  - rewrite last_lookup in Hl. rewrite (Hid _ _ Hl). apply lookup_lt_Some in Hl. unfold len. lia.
  - apply last_None in Hl as ->. unfold len. simpl. lia.
Qed.

Variable identity : string.
Hypothesis Hjid : state d !! "journal_id" = Some (VStr identity).
Hypothesis Hcolon : no_colon identity.

Definition boundary_of : dict :=
  [("journal_id", VStr identity);
   ("oldest_cursor", VStr (cursor_text identity (oldest_id d - 1)));
   ("latest_cursor", VStr (cursor_text identity (newest_id d)))].

Definition event_doc (r : event_row) : val :=
  VDict [("cursor", VStr (cursor_text identity (e_id r))); ("event", e_body r)].

(** The answer to the cursor of position [after]. *)
Lemma replay_at after limit : 1 <= limit <= 128 -> 0 <= after ->
  replay d (Some (cursor_text identity after)) limit =
  if after <? oldest_id d - 1
  then Ok (409, boundary_of ++ [("error", VStr "retention_gap");
                                ("requested_cursor", VStr (cursor_text identity after))])
  else if newest_id d <? after then Ok (409, boundary_of ++ [("error", VStr "future_cursor")])
  else Ok (200, boundary_of ++
         [("events", VList (map event_doc (page_of d after limit)));
          ("next_cursor", VStr (cursor_text identity (after + len (page_of d after limit))))]).
Proof.
  intros Hl Ha. unfold replay.
  replace ((1 <=? limit) && (limit <=? 128)) with true by lia. cbn [negb]. rewrite Hjid.
  rewrite cursor_text_list, first_colon_app by done.
  rewrite !list_str_list, String.eqb_refl. cbn [negb]. rewrite py_int_str by done.
  destruct (Z.ltb_spec after (oldest_id d - 1)); [done|].
  destruct (newest_id d <? after); [done|]. unfold page_doc. rewrite page_last by lia. done.
Qed.

(** The query of a request: a page limit, a time to wait, and the cursor once
    the client has one. *)
Definition query_of (cursor : option string) (limit wait : Z) : gmap string string :=
  <["limit" := py_str limit]> (<["wait_ms" := py_str wait]>
    (match cursor with Some c => {[ "after" := c ]} | None => ∅ end)).

(** While the journal rests, the handler's polls all see [d]: the answer is that
    of one replay. *)
Lemma poll_rest polls cursor limit :
  poll (replicate (S polls) d) cursor limit = replay d cursor limit.
Proof.
  induction polls as [|polls IH].
  - cbn. by destruct (replay d cursor limit) as [[status body]|].
  - change (replicate (S (S polls)) d) with (d :: replicate (S polls) d).
    cbn [poll]. rewrite IH. destruct (replay d cursor limit) as [[status body]|]; [|done].
    cbn [replicate]. by destruct (_ || _).
Qed.

Lemma request_replay polls cursor limit wait : 0 <= limit -> 0 <= wait <= 10000 ->
  do_GET "/events" (query_of cursor limit wait) (replicate (S polls) d) =
  match replay d cursor limit with
  | Ok (status, body) => Ok (status, Some body)
  | Err (ValueError _) | Err (KeyError _) => Ok (400, None)
  | Err e => Err e
  end.
Proof.
  intros Hl Hw. unfold do_GET, query_of. rewrite String.eqb_refl. cbn [negb].
  rewrite lookup_insert_eq, lookup_insert_ne, lookup_insert_eq by done. unfold default, id.
  rewrite !py_int_str by lia. replace ((0 <=? wait) && (wait <=? 10000)) with true by lia. cbn [negb].
  rewrite !lookup_insert_ne by done.
  assert ((match cursor with Some c => {[ "after" := c ]} | None => ∅ end : gmap string string)
    !! "after" = cursor) as -> by (destruct cursor; [apply lookup_singleton_eq|apply lookup_empty]).
  by rewrite poll_rest.
Qed.

(** A client that asks for pages of [limit] events, each answered after
    [polls] empty polls, and follows [next_cursor] until a page is empty; [n]
    bounds its requests. *)
Fixpoint read_all (polls : nat) (wait : Z) (n : nat) (cursor : option string) (limit : Z)
  : option (list val) :=
  match n with
  | O => None
  | S n =>
      match do_GET "/events" (query_of cursor limit wait) (replicate (S polls) d) with
      | Ok (200, Some body) =>
          match getv "events" body with
          | VList [] => Some []
          | VList es =>
              option_map (app es) (read_all polls wait n (Some (sget "next_cursor" body)) limit)
          | _ => None
          end
      | _ => None
      end
  end.

Lemma read_all_after polls wait limit fuel : 1 <= limit <= 128 -> 0 <= wait <= 10000 -> forall after,
  oldest_id d - 1 <= after <= newest_id d -> newest_id d - after < Z.of_nat fuel ->
  read_all polls wait fuel (Some (cursor_text identity after)) limit =
  Some (map event_doc (drop (Z.to_nat (after + 1 - oldest_id d)) (events d))).
Proof.
  intros Hl Hw. induction fuel as [|fuel IH]; intros after Ha Hf; [lia|].
  destruct oldest_newest as (Hn & Ho & _).
  cbn [read_all]. rewrite request_replay, replay_at by lia.
  replace (after <? oldest_id d - 1) with false by lia.
  replace (newest_id d <? after) with false by lia.
  pose proof (page_length after limit ltac:(lia) ltac:(lia)) as Hlen.
  pose proof (page_rows after limit) as Hp. set (k := Z.to_nat (after + 1 - oldest_id d)) in *.
  change (getv "events" (boundary_of ++ _)) with (VList (map event_doc (page_of d after limit))).
  change (sget "next_cursor" (boundary_of ++ _))
    with (cursor_text identity (after + len (page_of d after limit))).
  destruct (page_of d after limit) as [|r l] eqn:Hpage; cbn [map].
  - change (len []) with 0 in Hlen.
    rewrite drop_ge; [done|]. unfold len in Hn. lia.
  - rewrite len_cons in *. pose proof (len_nonneg l).
    rewrite IH by lia. cbn [option_map]. f_equal.
    change (event_doc r :: map event_doc l) with (map event_doc (r :: l)).
    rewrite Hp, <- map_app. f_equal.
    rewrite <- (take_drop (Z.to_nat limit) (drop k (events d))) at 2. f_equal.
    rewrite drop_drop.
    destruct (Z.le_gt_cases limit (newest_id d - after)).
    + f_equal. lia.
    + rewrite !drop_ge; [done|unfold len in *; lia..].
Qed.
End pages.

(** A replay page has no hole.  Asked for the rows after a retained position,
    [replay] answers 200 with the next rows, as many as the limit and the table
    allow, their ids consecutive from the position, and a next cursor just past
    the last of them; a position older than the retained rows or newer than all
    of them is refused, never skipped over. *)
Theorem replay_page_exact retain d identity after limit :
  wf retain d -> state d !! "journal_id" = Some (VStr identity) -> no_colon identity ->
  1 <= limit <= 128 -> 0 <= after ->
  if (after <? oldest_id d - 1) || (newest_id d <? after)
  then exists body, replay d (Some (cursor_text identity after)) limit = Ok (409, body)
  else exists rows,
    replay d (Some (cursor_text identity after)) limit =
      Ok (200, boundary_of d identity ++
           [("events", VList (map (event_doc identity) rows));
            ("next_cursor", VStr (cursor_text identity (after + len rows)))]) /\
    len rows = Z.min limit (newest_id d - after) /\ ids_from (after + 1) rows /\
    (forall r, r ∈ rows -> r ∈ events d).
Proof.
  intros Hwf Hj Hc Hl Ha. rewrite (replay_at retain d Hwf identity Hj Hc) by done.
  destruct (Z.ltb_spec after (oldest_id d - 1)); cbn [orb]; [by eexists|].
  destruct (Z.ltb_spec (newest_id d) after); cbn [orb]; [by eexists|].
  exists (page_of d after limit). split_and!; [done|..].
  - apply (page_length retain d Hwf); lia.
  - by apply (page_ids retain d Hwf).
  - intros r. rewrite (page_rows retain d Hwf). intros Hr.
    rewrite <- (take_drop (Z.to_nat (after + 1 - oldest_id d)) (events d)).
    apply elem_of_app. right. rewrite <- (take_drop (Z.to_nat limit) (drop _ _)).
    apply elem_of_app. by left.
Qed.

Definition demo_db : db := j_db (accept demo_sha (fun _ => false) "e2" demo_journal record_frame).1.

Lemma demo_db_wf : wf 2 demo_db.
Proof.
  constructor; try (vm_compute; discriminate).
  - intros [|[|i]] r Hi; vm_compute in Hi; simplify_eq; reflexivity.
  - apply NoDup_cons_2; [|apply NoDup_cons_2; [|apply NoDup_nil_2]]; vm_compute; set_solver.
Qed.

Lemma replay_page_exact_witness : exists rows,
  replay demo_db (Some (cursor_text "j" 1)) 5 =
    Ok (200, boundary_of demo_db "j" ++
         [("events", VList (map (event_doc "j") rows));
          ("next_cursor", VStr (cursor_text "j" (1 + len rows)))]) /\ len rows = 1.
Proof.
  pose proof (replay_page_exact 2 demo_db "j" 1 5 demo_db_wf ltac:(vm_compute; reflexivity)
    ltac:(repeat constructor; discriminate) ltac:(lia) ltac:(lia)) as H.
  assert ((1 <? oldest_id demo_db - 1) || (newest_id demo_db <? 1) = false) as E
    by (vm_compute; reflexivity).
  rewrite E in H. destruct H as (rows & H & Hl & _).
  exists rows. split; [exact H|]. rewrite Hl. vm_compute. reflexivity.
Defined.

(** C12: a client that starts without a cursor and follows [next_cursor] until a
    page is empty reads every retained event exactly once, in order, whatever
    page limit it asks for and however long the handler waits at each request,
    in at most one request more than there are events, while the journal rests. *)
Theorem paging_reads_everything retain d identity polls wait limit :
  wf retain d -> state d !! "journal_id" = Some (VStr identity) -> no_colon identity ->
  1 <= limit <= 128 -> 0 <= wait <= 10000 ->
  read_all d polls wait (S (length (events d))) None limit = Some (map (event_doc identity) (events d)).
Proof.
  intros Hwf Hj Hc Hl Hw. destruct (oldest_newest retain d Hwf) as (Hn & Ho & _).
  pose proof (read_all_after retain d Hwf identity Hj Hc polls wait limit (S (length (events d))) Hl Hw
    (oldest_id d - 1) ltac:(unfold len in *; lia) ltac:(unfold len in *; lia)) as H.
  replace (oldest_id d - 1 + 1 - oldest_id d) with 0 in H by lia. rewrite drop_0 in H. rewrite <- H.
  assert (replay d None limit = replay d (Some (cursor_text identity (oldest_id d - 1))) limit \/
    exists b1 b2, replay d None limit = Ok (200, b1) /\
      replay d (Some (cursor_text identity (oldest_id d - 1))) limit = Ok (200, b2) /\
      getv "events" b1 = getv "events" b2 /\ sget "next_cursor" b1 = sget "next_cursor" b2)
    as [E|(b1 & b2 & E1 & E2 & Ev & En)].
  - right. rewrite (replay_at retain d Hwf identity Hj Hc) by lia.
    replace (oldest_id d - 1 <? oldest_id d - 1) with false by lia.
    replace (newest_id d <? oldest_id d - 1) with false by (unfold len in *; lia).
    unfold replay. replace ((1 <=? limit) && (limit <=? 128)) with true by lia. cbn [negb]. rewrite Hj.
    do 2 eexists. split_and!; [reflexivity|reflexivity|reflexivity|].
    cbn. by rewrite (page_last retain d Hwf) by lia.
  - cbn [read_all]. by rewrite !request_replay, E by lia.
  - cbn [read_all]. rewrite !request_replay by lia. by rewrite E1, E2, Ev, En.
Qed.

Lemma paging_reads_everything_witness :
  read_all demo_db 2 100 3 None 1 = Some (map (event_doc "j") (events demo_db)) /\ len (events demo_db) = 2.
Proof.
  split; [|vm_compute; reflexivity].
  assert (3%nat = S (length (events demo_db))) as E by (vm_compute; reflexivity). rewrite E.
  exact (paging_reads_everything 2 demo_db "j" 2 100 1 demo_db_wf ltac:(vm_compute; reflexivity)
    ltac:(repeat constructor; discriminate) ltac:(lia) ltac:(lia)).
Defined.
