(* ===== verification/Authority.v ===== *)
(** * The request-proof authority (env/ai-traffic/attribution.py)

    The bounded HTTP message reader, the destination-side authority (request
    proofs, nonces, grants, the ledger) and its connection loop, and the client
    that builds signed requests.  Parameters: the HMAC, the digest, the JSON
    reader, the random identifiers and the clock (in seconds, where the code
    has a float: an expiry is compared to the second). *)

From S2P Require Import Prelude PyVal Text Journal.

(** ** [read_message] *)

Definition CRLF2 : bytes := [13; 10; 13; 10].
Definition STREAM_LIMIT : Z := 65536.

Definition headers := (gmap string string).

(** One header line into the headers read so far. *)
Definition add_header (hs : result headers) (line : list ascii) : result headers :=
  let? hs := hs in
  match first_colon line with
  | None => Err (ValueError "not enough values to unpack")
  | Some (k, v) =>
      let key := lower (list_str k) in
      match hs !! key with
      | Some _ => Err (ValueError "duplicate fixture header")
      | None => Ok (<[key := str_strip (list_str v)]> hs)
      end
  end.

(** What a reader with the buffered bytes [b] (then end of stream) gives: a
    message and the bytes left, an exception, or an incomplete read with the
    partial bytes. *)
Inductive read :=
| Message (first : string) (hs : headers) (body rest : bytes)
| Incomplete (partial : bytes)
| ReadError (e : exn).

Definition read_message (b : bytes) : read :=
  let i := py_find CRLF2 b 0 in
  if i <? 0 then (if STREAM_LIMIT <? len b - 3 then ReadError LimitOverrunError else Incomplete b)
  else if STREAM_LIMIT <? i then ReadError LimitOverrunError else
  let block := ztake (i + 4) b in
  let rest := zdrop (i + 4) b in
  if negb (forallb (fun x => x <? 128) block) then ReadError (ValueError "ascii") else
  let lines := split_crlf (map chr block) [] in
  match foldl add_header (Ok ∅) (pyslice 1 (-2) lines) with
  | Err e => ReadError e
  | Ok hs =>
      match hs !! "transfer-encoding" with
      | Some _ => ReadError (ValueError "fixture requires fixed content length")
      | None =>
          match hs !! "content-length" with
          | None => ReadError (KeyError "content-length")
          | Some t =>
              match py_int t with
              | None => ReadError (ValueError "invalid literal for int()")
              | Some length =>
                  if negb ((0 <=? length) && (length <=? 16384))
                  then ReadError (ValueError "fixture message too large")
                  else if len rest <? length then Incomplete rest
                  else Message (list_str (List.hd [] lines)) hs (ztake length rest) (zdrop length rest)
              end
          end
      end
  end.

(** ** State *)

Inductive conn_error := Truncated | Raised (e : exn).

Record authority := Authority {
  a_keys : gmap string bytes; grant_key : bytes; seen : gset (string * string);
  operations : gmap string dict; ledger : list dict; errors : list conn_error }.

Definition with_seen (a : authority) s :=
  Authority (a_keys a) (grant_key a) s (operations a) (ledger a) (errors a).
Definition with_operations (a : authority) o :=
  Authority (a_keys a) (grant_key a) (seen a) o (ledger a) (errors a).
Definition with_ledger (a : authority) l :=
  Authority (a_keys a) (grant_key a) (seen a) (operations a) l (errors a).
Definition with_errors (a : authority) e :=
  Authority (a_keys a) (grant_key a) (seen a) (operations a) (ledger a) e.

(** [__init__], the random keys given. *)
Definition new_authority (key_a key_b grant : bytes) : authority :=
  Authority (<["agent-A" := key_a]> {["agent-B" := key_b]}) grant ∅ ∅ [] [].

(** ** Base64 (URL alphabet) *)

Definition b64_char (v : Z) : ascii :=
  if v <? 26 then chr (65 + v) else if v <? 52 then chr (71 + v)
  else if v <? 62 then chr (v - 4) else if v =? 62 then chr 45 else chr 95.

Fixpoint b64_list (b : bytes) : list ascii :=
  match b with
  | [] => []
  | [x] => [b64_char (x / 4); b64_char (x mod 4 * 16); chr 61; chr 61]
  | [x; y] => [b64_char (x / 4); b64_char (x mod 4 * 16 + y / 16); b64_char (y mod 16 * 4); chr 61]
  | x :: y :: z :: t =>
      b64_char (x / 4) :: b64_char (x mod 4 * 16 + y / 16) :: b64_char (y mod 16 * 4 + z / 64)
        :: b64_char (z mod 64) :: b64_list t
  end.
Definition urlsafe_b64encode (b : bytes) : string := list_str (b64_list b).

(** ** Dynamic operations *)

(** [m.get(v)] on a dict with text keys: an unhashable key raises. *)
Definition get_by {A} (m : gmap string A) (v : val) : result (option A) :=
  match v with
  | VStr s => Ok (m !! s)
  | VList _ | VDict _ => Err TypeError
  | _ => Ok None
  end.

(** [x in c]. *)
Definition py_in (x c : val) : result bool :=
  match c, x with
  | VList l, _ => Ok (existsb (val_eqb x) l)
  | VStr s, VStr m => Ok (str_contains m s)
  | VStr _, VText _ => Ok false
  | VText l, VStr m => Ok (0 <=? py_find (encode m) l 0)
  | VText l, VText m => Ok (0 <=? py_find m l 0)
  | VDict d, VStr k => Ok (has k d)
  | VDict _, VList _ | VDict _, VDict _ => Err TypeError
  | VDict _, _ => Ok false
  | _, _ => Err TypeError
  end.

(** [v.get(k)] and [v[k]]. *)
Definition attr_get (k : string) (v : val) : result val :=
  match v with VDict d => Ok (getv k d) | _ => Err AttributeError end.
Definition subscript (k : string) (v : val) : result val :=
  match v with VDict d => item k d | _ => Err TypeError end.

Section authority.
Variable hmac : bytes -> bytes -> string.
Variable sha256 : bytes -> string.
Variable json_loads : bytes -> result val.
(** [json.loads(base64.urlsafe_b64decode(payload))]. *)
Variable claims_of : string -> result val.

Definition encoded (v : val) : bytes := encode (canonical v).

Definition proof (key : bytes) (path nonce : string) (body : bytes) : string :=
  hmac key (encode "POST" ++ [10] ++ encode path ++ [10] ++ encode nonce ++ [10] ++ body).

(** ** Grants *)

Definition mint_claims (actor : string) (parent : dict) (recipient scope : val) (now : Z) : dict :=
  [("issuer", VStr actor); ("recipient", recipient); ("parent", getv "operation" parent);
   ("originator", getv "originator" parent); ("scope", scope);
   ("audience", VStr "fixture-tools"); ("expires", VInt (now + 60))].

Definition signed_token (key : bytes) (payload : string) : string :=
  cat [payload; "."; hmac key (encode payload)].

Definition mint (a : authority) (actor : string) (params : val) (now : Z) : result (string * dict) :=
  let? pid := attr_get "parent" params in
  let? parent := get_by (operations a) pid in
  match parent with
  | None => Err (Rejected "parent_not_owned")
  | Some parent =>
      if negb (val_eqb (getv "actor" parent) (VStr actor)) then Err (Rejected "parent_not_owned") else
      let? recipient := attr_get "recipient" params in
      let? known := get_by (a_keys a) recipient in
      let? scope := attr_get "scope" params in
      match known with
      | None => Err (Rejected "delegation_not_permitted")
      | Some _ =>
          if negb (val_eqb scope (VList [VStr "tools/call"]))
          then Err (Rejected "delegation_not_permitted") else
          let claims := mint_claims actor parent recipient scope now in
          Ok (signed_token (grant_key a) (urlsafe_b64encode (encoded (VDict claims))), claims)
      end
  end.

(** The two parts of a token text, as payload bytes, payload text (when it is
    ASCII) and signature. *)
Definition token_parts (token : val) : result (bytes * option string * string) :=
  match token with
  | VStr s =>
      match split_char "." (str_list s) [] with
      | [p; g] => Ok (encode (list_str p), Some (list_str p), list_str g)
      | _ => Err (ValueError "too many values to unpack")
      end
  | VText l =>
      let i := py_find [46] l 0 in
      let p := ztake i l in
      let g := zdrop (i + 1) l in
      if (i <? 0) || (0 <=? py_find [46] g 0) then Err (ValueError "too many values to unpack") else
      match utf8_encode p with
      | None => Err UnicodeError
      | Some b =>
          if negb (forallb (fun c => c <? 128) g) then Err TypeError else
          Ok (b, if forallb (fun c => c <? 128) p then Some (decode_ascii p) else None, decode_ascii g)
      end
  | _ => Err AttributeError
  end.

(** The checks on the claims of a grant whose signature verified. *)
Definition check_claims (a : authority) (claims : val) (actor : string) (method : val) (now : Z) : result dict :=
  let? pid := subscript "parent" claims in
  let? parent := get_by (operations a) pid in
  match parent with
  | None => Err (Rejected "invalid_grant_parent")
  | Some parent =>
      let? issuer := subscript "issuer" claims in
      if negb (val_eqb (getv "actor" parent) issuer) then Err (Rejected "invalid_grant_parent") else
      let? recipient := subscript "recipient" claims in
      if negb (val_eqb recipient (VStr actor)) then Err (Rejected "wrong_grant_recipient") else
      let? audience := subscript "audience" claims in
      if negb (val_eqb audience (VStr "fixture-tools")) then Err (Rejected "grant_scope") else
      let? scope := subscript "scope" claims in
      let? inside := py_in method scope in
      if negb inside then Err (Rejected "grant_scope") else
      let? expires := subscript "expires" claims in
      let? t := match expires with VInt z => Ok z | VBool b => Ok (b2z b) | _ => Err TypeError end in
      if t <=? now then Err (Rejected "expired_grant") else
      match claims with VDict c => Ok c | _ => Err TypeError end
  end.

(** [except (ValueError, KeyError, TypeError)]: [UnicodeError] is a [ValueError]. *)
Definition malformed {A} (r : result A) : result A :=
  match r with
  | Err (ValueError _) | Err (KeyError _) | Err TypeError | Err UnicodeError =>
      Err (Rejected "malformed_grant")
  | _ => r
  end.

Definition delegation (a : authority) (token : val) (actor : string) (method : val) (now : Z) : result dict :=
  malformed
   (let? (payload, text, signature) := token_parts token in
    if negb (String.eqb signature (hmac (grant_key a) payload))
    then Err (Rejected "invalid_grant_signature") else
    let? claims := match text with Some t => claims_of t | None => Err (ValueError "ascii") end in
    check_claims a claims actor method now).

(** ** [authenticate] and [process] *)

Definition authenticate (a : authority) (hs : headers) (body : bytes) (row : dict) : result (string * dict) :=
  match hs !! "x-agent-key" with
  | None => Err (Rejected "invalid_request_proof")
  | Some actor =>
      match a_keys a !! actor with
      | None | Some [] => Err (Rejected "invalid_request_proof")
      | Some key =>
          if negb (truthy (getv "nonce" row)) ||
             negb (String.eqb (proof key (sget "path" row) (sget "nonce" row) body)
                              (default "" (hs !! "x-request-proof")))
          then Err (Rejected "invalid_request_proof") else
          let claimed := getv "claimed_actor" row in
          Ok (actor, update
                [("actor", VStr actor); ("auth_evidence", VStr "fixture-hmac-request-proof");
                 ("principal", VStr (String.append "configured-principal-" actor));
                 ("claim_mismatch", VBool (negb (val_eqb claimed VNone || val_eqb claimed (VStr actor))))] row)
      end
  end.

(** The random identifiers and the clock of one request. *)
Record draw := Draw { d_attempt : string; d_operation : string; d_now : Z }.

Definition first_row (hs : headers) (path : string) (body : bytes) (connection : string) (peer : val)
    (d : draw) : dict :=
  [("attempt", VStr (d_attempt d)); ("nonce", VStr (default "" (hs !! "x-proof-nonce")));
   ("connection", VStr connection); ("peer", peer); ("path", VStr path);
   ("body_sha256", VStr (sha256 body)); ("actor", VNone); ("originator", VNone); ("parent", VNone);
   ("claimed_actor", match hs !! "x-claimed-agent" with Some s => VStr s | None => VNone end);
   ("accepted", VBool false); ("reason", VStr "unauthenticated")].

Definition OPERATIONS : list (string * string) :=
  [("/mcp", "tools/call"); ("/mcp", "resources/read"); ("/a2a", "SendMessage")].
Definition allowed (path : string) (method : val) : bool :=
  existsb (fun pm => String.eqb path pm.1 && val_eqb method (VStr pm.2)) OPERATIONS.

(** The digest recorded for a grant: of its text. *)
Definition token_bytes (token : val) : bytes :=
  match token with VStr s => encode s | VText l => default [] (utf8_encode l) | _ => [] end.

(** The grant a request carries, if any: the row and the originator and parent
    of the operation. *)
Definition check_grant (a : authority) (data : dict) (actor : string) (row : dict) (now : Z)
    : result (dict * val * val) :=
  match get "delegation" data with
  | None => Ok (row, VStr actor, VNone)
  | Some token =>
      let? claims := delegation a token actor (getv "method" data) now in
      let? originator := item "originator" claims in
      let? parent := item "parent" claims in
      Ok (set "delegation_sha256" (VStr (sha256 (token_bytes token))) row, originator, parent)
  end.

(** The operation itself: a grant minted, or a method of a path that is allowed. *)
Definition perform (a : authority) (path : string) (data : dict) (actor : string) (parent : val) (now : Z)
    : result dict :=
  let method := getv "method" data in
  if String.eqb path "/delegate" && val_eqb method (VStr "delegate") then
    if truthy parent then Err (Rejected "redelegation_not_supported") else
    let? params := item "params" data in
    let? (grant, _) := mint a actor params now in
    Ok [("grant", VStr grant)]
  else if allowed path method then Ok []
  else Err (Rejected "unsupported_fixture_operation").

(** The row once the body is read. *)
Definition read_row (data row : dict) : dict :=
  update [("method", getv "method" data); ("caller_id", getv "id" data);
          ("caller_operation", getv "operation" data); ("caller_session", getv "session" data);
          ("caller_task", getv "task" data)] row.

(** A rejection ends in the ledger; another exception leaves [process] (with the
    nonce already used up when it came later than the proof). *)
Definition reject (a : authority) (status : Z) (row : dict) (reason : string)
    : authority * result (Z * dict) :=
  let row := set "reason" (VStr reason) row in
  (with_ledger a (ledger a ++ [row]), Ok (status, row)).

Definition raised (a : authority) (status : Z) (row : dict) (e : exn) : authority * result (Z * dict) :=
  match e with
  | Rejected reason => reject a status row reason
  | _ => (a, Err e)
  end.

Definition accept_row (row : dict) (originator parent : val) (d : draw) : dict :=
  update [("accepted", VBool true); ("reason", VStr "accepted"); ("operation", VStr (d_operation d));
          ("originator", originator); ("parent", parent)] row.

Definition process (a : authority) (path : string) (hs : headers) (body : bytes)
    (connection : string) (peer : val) (d : draw) : authority * result (Z * dict) :=
  let row := first_row hs path body connection peer d in
  match authenticate a hs body row with
  | Err e => raised a 401 row e
  | Ok (actor, row) =>
      let nonce := sget "nonce" row in
      if decide ((actor, nonce) ∈ seen a) then reject a 403 row "replayed_nonce" else
      let a := with_seen a ({[(actor, nonce)]} ∪ seen a) in
      match json_loads body with
      | Err e => (a, Err e)
      | Ok data =>
          match subscript "method" data, data with
          | Err e, _ => (a, Err e)
          | Ok _, VDict data =>
              let row := read_row data row in
              match check_grant a data actor row (d_now d) with
              | Err e => raised a 403 row e
              | Ok (row, originator, parent) =>
                  match perform a path data actor parent (d_now d) with
                  | Err e => raised a 403 row e
                  | Ok response =>
                      let row := accept_row row originator parent d in
                      (with_ledger (with_operations a (<[d_operation d := row]> (operations a)))
                                   (ledger a ++ [row]), Ok (200, update row response))
                  end
              end
          | Ok _, _ => (a, Err TypeError)
          end
      end
  end.

(** ** [serve] *)

(** The requests of one connection whose bytes are [b]; each consumes at least
    its blank line, so [length b + 1] rounds reach the end of the stream. *)
Fixpoint serve (fuel : nat) (a : authority) (b : bytes) (connection : string) (peer : val)
    (draws : nat -> draw) (n : nat) (out : list (Z * dict)) : authority * list (Z * dict) * result unit :=
  match fuel with
  | O => (a, out, Err OutOfFuel)
  | S fuel =>
      let caught (a : authority) (e : exn) :=
        match e with
        | ValueError _ | KeyError _ | UnicodeError | OSError _ =>
            (with_errors a (errors a ++ [Raised e]), out, Ok tt)
        | _ => (a, out, Err e)
        end in
      match read_message b with
      | Incomplete [] => (a, out, Ok tt)
      | Incomplete _ => (with_errors a (errors a ++ [Truncated]), out, Ok tt)
      | ReadError e => caught a e
      | Message first hs body rest =>
          match str_split first with
          | [method; path; version] =>
              if negb (String.eqb method "POST") || negb (String.eqb version "HTTP/1.1")
              then caught a (ValueError "unexpected fixture request") else
              match process a path hs body connection peer (draws n) with
              | (a, Err e) => caught a e
              | (a, Ok answer) => serve fuel a rest connection peer draws (S n) (out ++ [answer])
              end
          | _ => caught a (ValueError "not enough values to unpack")
          end
      end
  end.

(** ** [Client.request] *)

(** The body and the header text of a signed attempt. *)
Definition request_body (method : string) (params delegation : option val) : bytes :=
  encoded (VDict ([("jsonrpc", VStr "2.0"); ("id", VInt 7); ("operation", VStr "same-operation");
                   ("session", VStr "same-session"); ("task", VStr "same-task"); ("method", VStr method)] ++
                  match params with Some v => [("params", v)] | None => [] end ++
                  match delegation with Some v => [("delegation", v)] | None => [] end)).

Definition crlf : string := list_str [chr 13; chr 10].

Definition request_headers (key : bytes) (actor path nonce : string) (claimed : option string)
    (body : bytes) : string :=
  cat (["POST "; path; " HTTP/1.1"; crlf; "Host: fixture"; crlf; "Content-Length: "; py_str (len body); crlf;
        "X-Agent-Key: "; actor; crlf; "X-Proof-Nonce: "; nonce; crlf;
        "X-Request-Proof: "; proof key path nonce body; crlf] ++
       match claimed with
       | Some (String c s) => ["X-Claimed-Agent: "; String c s; crlf]
       | _ => []
       end).

(** What [exchange] writes. *)
Definition request_bytes (key : bytes) (actor path nonce method : string)
    (params delegation : option val) (claimed : option string) : bytes :=
  let body := request_body method params delegation in
  encode (request_headers key actor path nonce claimed body) ++ [13; 10] ++ body.
End authority.
