(* ===== verification/Joins.v ===== *)
(** * Joining observations with the authority's ledger

    env/ai-traffic/attribution_join.py (the conservative window join),
    env/ai-traffic/correlation_join.py (the lifetime join of the fixture) and
    env/ai-traffic/gap_window.py (the window guard around the latter).  Ledger rows
    and accounting are dicts; lifetime and candidate events are decoded records,
    so their numeric fields are integers. *)

From S2P Require Import Prelude PyVal.

(** The code points of a [str]. *)
Definition text_of (v : val) : option (list Z) :=
  match v with
  | VStr s => Some (encode s)
  | VText l => Some l
  | _ => None
  end.

Definition nonempty_text (v : val) : bool :=
  match text_of v with Some (_ :: _) => true | _ => false end.

Definition is_true (v : val) : bool := match v with VBool true => true | _ => false end.

Definition count {A} `{EqDecision A} (x : A) (l : list A) : Z := len (filter (fun y => y = x) l).

Module Attribution.

Definition integer (v : val) : bool := match v with VInt _ => true | _ => false end.

(** [candidate]: the path and the nonce, as texts. *)
Definition candidate (row : dict) : option (list Z * list Z) :=
  match text_of (getv "path" row) with
  | Some (c :: path) =>
      if c =? 47 then
        match text_of (getv "nonce" row) with
        | Some (n :: nonce) => Some (c :: path, n :: nonce)
        | _ => None
        end
      else None
  | _ => None
  end.

Definition identity (event : dict) : option (list Z * Z) :=
  match text_of (getv "process_session" event), getv "request_seq" event with
  | Some (c :: s), VInt n => if n <? 1 then None else Some (c :: s, n)
  | _, _ => None
  end.

Definition accounted (accounting : dict) (kv : string * Z) : bool :=
  match getv kv.1 accounting with VInt z => z =? kv.2 | _ => false end.

Definition expected (n : Z) : list (string * Z) :=
  [("requests", n); ("fired", n); ("events", n); ("ledger_attempts", n); ("drops", 0); ("errors", 0)].

Fixpoint identities (events : list dict) : option (list (list Z * Z)) :=
  match events with
  | [] => Some []
  | e :: t => match identity e, identities t with
              | Some i, Some l => Some (i :: l)
              | _, _ => None
              end
  end.

Definition window_error (observations ledger : list dict) (accounting : dict) (scope : val) : option string :=
  if negb (is_true scope) then Some "unvalidated_request_scope" else
  if negb (len ledger =? len observations) ||
     negb (forallb (accounted accounting) (expected (len observations)))
  then Some "incomplete_or_lossy_window" else
  match identities observations with
  | None => Some "invalid_request_identity"
  | Some l => if bool_decide (NoDup l) then None else Some "duplicate_request_identity"
  end.

Definition base_row (event : dict) (error : option string) : dict :=
  [("process_session", getv "process_session" event); ("request_seq", getv "request_seq" event);
   ("config_instance", getv "config_instance" event); ("config_revision", getv "config_revision" event);
   ("status", VStr "unknown"); ("reason", match error with Some e => VStr e | None => VNone end);
   ("authenticated_actor", VNone); ("operation", VNone); ("originator", VNone); ("parent", VNone)].

(** The row of an observation with exactly one ledger row. *)
Definition matched (authority row : dict) : dict :=
  let acc := is_true (getv "accepted" authority) in
  let op := getv "operation" authority in
  let row := update [("attempt", getv "attempt" authority); ("claimed_actor", getv "claimed_actor" authority);
                     ("accepted", VBool acc); ("authority_reason", getv "reason" authority)] row in
  if acc && negb (truthy op) then set "reason" (VStr "incomplete_authority_record") row
  else if negb (truthy (getv "actor" authority)) || negb (truthy (getv "auth_evidence" authority))
  then set "reason" (VStr "no_authentication_evidence") row
  else
    let row := update [("authenticated_actor", getv "actor" authority);
                       ("auth_evidence", getv "auth_evidence" authority);
                       ("status", VStr "rejected"); ("reason", VStr "authority_rejected")] row in
    if acc && truthy op then
      update [("status", VStr "attributed"); ("reason", VStr "unique_authenticated_attempt");
              ("operation", op); ("originator", getv "originator" authority);
              ("parent", getv "parent" authority)] row
    else row.

Definition join_row (observations ledger : list dict) (error : option string) (event : dict) : dict :=
  let row := base_row event error in
  match error with
  | Some (String _ _) => row
  | _ =>
      let key := candidate event in
      let matches := filter (fun r => candidate r = key) ledger in
      match key with
      | None => set "reason" (VStr "missing_candidate") row
      | Some _ =>
          if negb (count key (map candidate observations) =? 1) || (1 <? len matches)
          then set "reason" (VStr "ambiguous_candidate") row
          else match matches with
               | [] => set "reason" (VStr "missing_ledger_match") row
               | authority :: _ => matched authority row
               end
      end
  end.

Definition join (observations ledger : list dict) (accounting : dict) (scope : val) : list dict :=
  let error := window_error observations ledger accounting scope in
  map (join_row observations ledger error) observations.

End Attribution.

Module Correlation.

(** A lifetime record or a candidate record. *)
Record event := Event {
  kind : Z; value : Z; sequence : Z; lifetime : Z; attempt : Z; ev_run : Z; failures : Z;
  flags : Z; path : val; nonce : val }.

Definition completed (lifetimes : list event) : list event :=
  filter (fun e => kind e = 2 /\ value e = 0) lifetimes.

Definition base_row (e : event) : dict :=
  [("observation_sequence", VInt (sequence e)); ("lifetime", VInt (lifetime e));
   ("attempt", VInt (attempt e)); ("status", VStr "unknown"); ("reason", VNone);
   ("actor", VNone); ("operation", VNone)].

Fixpoint range_from (i : Z) (n : nat) : list Z :=
  match n with O => [] | S n => i :: range_from (i + 1) n end.

Definition seq_le (a b : event) : Prop := sequence a <= sequence b.
#[export] Instance seq_le_dec a b : Decision (seq_le a b).
Proof. unfold seq_le. apply _. Defined.

(** The stream of the window: sequences 1, 2, ..., one positive run, no failure. *)
Definition stream_ok (events : list event) : bool :=
  match merge_sort seq_le events with
  | [] => false
  | (e :: _) as stream =>
      bool_decide (map sequence stream = range_from 1 (length stream)) &&
      forallb (fun x => ev_run x =? ev_run e) stream && (0 <? ev_run e) &&
      forallb (fun x => failures x =? 0) stream
  end.

Definition count_kind (k : Z) (l : list event) : Z := len (filter (fun e => kind e = k) l).

Definition accounting_ok (lifetimes candidates : list event) (accounting : dict) : bool :=
  forallb (fun kv : string * Z => match get kv.1 accounting with Some (VInt z) => z =? kv.2 | _ => false end)
    [("init", count_kind 1 lifetimes); ("parse", count_kind 2 lifetimes); ("fini", count_kind 3 lifetimes);
     ("candidate", len candidates); ("drops", 0); ("errors", 0); ("selections", 0)].

(** The lifetimes seen so far. *)
Record lives := Lives {
  born : gset Z; ended : gset Z; attempts : gmap Z Z; pending : gmap Z bool }.

Definition attempts_of (s : lives) (life : Z) : Z := default 0 (attempts s !! life).
Definition is_pending (s : lives) (life : Z) : bool := default false (pending s !! life).

(** One lifetime record; [None] is a failed assertion. *)
Definition live_step (s : lives) (e : event) : option lives :=
  let life := lifetime e in
  let check (b : bool) (s : lives) : option lives := if b then Some s else None in
  if kind e =? 1 then
    check ((flags e =? 0) && (0 <? life) && negb (bool_decide (life ∈ born s)) &&
           ((value e =? 0) || bool_decide (value e ∈ ended s)))
      (Lives ({[life]} ∪ born s) (ended s) (attempts s) (pending s))
  else if flags e =? 32 then check ((life =? 0) && (attempt e =? 0)) s
  else if kind e =? 2 then
    let n := if is_pending s life then attempts_of s life else attempts_of s life + 1 in
    check ((flags e =? 0) && bool_decide (life ∈ born s) && negb (bool_decide (life ∈ ended s)) &&
           ((value e =? 0) || (value e =? 17)) && (attempt e =? n))
      (Lives (born s) (ended s) (<[life := n]> (attempts s)) (<[life := value e =? 17]> (pending s)))
  else
    check ((kind e =? 3) && bool_decide (life ∈ born s) && negb (bool_decide (life ∈ ended s)) &&
           (flags e =? (if is_pending s life then 256 else 0)) && (attempt e =? attempts_of s life))
      (Lives (born s) ({[life]} ∪ ended s) (attempts s) (pending s)).

Fixpoint live_steps (s : lives) (l : list event) : option lives :=
  match l with
  | [] => Some s
  | e :: t => match live_step s e with Some s => live_steps s t | None => None end
  end.

Definition window_ok (lifetimes candidates : list event) (ledger : list dict) (accounting : dict) : bool :=
  stream_ok (lifetimes ++ candidates) && accounting_ok lifetimes candidates accounting &&
  (len ledger =? len (completed lifetimes)) &&
  match live_steps (Lives ∅ ∅ ∅ ∅) lifetimes with
  | Some s => bool_decide (born s = ended s)
  | None => false
  end.

(** The candidates of the interval of a completed record. *)
Definition interval (candidates : list event) (e : event) : list event :=
  if lifetime e =? 0 then [] else
  filter (fun c => lifetime c = lifetime e /\ attempt c = attempt e) candidates.

Definition is_hex_char (c : ascii) : bool := match hexval c with Some _ => true | None => false end.

(** The path and nonce of the one terminal candidate of an interval. *)
Definition key_of (candidates : list event) (e : event) : option (string * string) :=
  let group := interval candidates e in
  match filter (fun c => flags c = 1) group with
  | [c] =>
      if forallb (fun c => (flags c =? 0) || (flags c =? 1)) group &&
         forallb (fun c => sequence c <? sequence e) group
      then match path c, nonce c with
           | VStr p, VStr n =>
               if mem_str p ["/mcp"; "/a2a"; "/delegate"] && (strlen n =? 32) &&
                  forallb is_hex_char (str_list n)
               then Some (p, n) else None
           | _, _ => None
           end
      else None
  | _ => None
  end.

Definition unhashable (v : val) : bool := match v with VList _ | VDict _ => true | _ => false end.

Definition ledger_key (row : dict) (k : string * string) : bool :=
  val_eqb (getv "path" row) (VStr k.1) && val_eqb (getv "nonce" row) (VStr k.2).

(** The row of a completed record with exactly one ledger row. *)
Definition matched (m row : dict) : result dict :=
  let? a := item "attempt" m in
  let row := set "authority_attempt" a row in
  if negb (truthy (getv "actor" m)) || negb (truthy (getv "auth_evidence" m))
  then Ok (set "reason" (VStr "no_authentication_evidence") row)
  else match getv "accepted" m with
       | VBool false => Ok (update [("status", VStr "rejected"); ("reason", VStr "authority_rejected");
                                    ("actor", getv "actor" m)] row)
       | VBool true =>
           if truthy (getv "operation" m)
           then Ok (update [("status", VStr "attributed");
                            ("reason", VStr "unique_authenticated_fixture_attempt");
                            ("actor", getv "actor" m); ("operation", getv "operation" m);
                            ("originator", getv "originator" m); ("parent", getv "parent" m)] row)
           else Ok (set "reason" (VStr "incomplete_authority_record") row)
       | _ => Ok (set "reason" (VStr "incomplete_authority_record") row)
       end.

Definition join_row (keys : list (option (string * string))) (ledger : list dict)
    (candidates : list event) (e : event) : result dict :=
  let row := base_row e in
  let key := key_of candidates e in
  if lifetime e =? 0 then Ok (set "reason" (VStr "missing_parser_initialization") row) else
  match key with
  | None => Ok (set "reason" (VStr "unavailable_candidate") row)
  | Some k =>
      let rows := filter (fun r => ledger_key r k = true) ledger in
      if negb (count key keys =? 1) || (1 <? len rows)
      then Ok (set "reason" (VStr "ambiguous_candidate") row)
      else match rows with
           | [] => Ok (set "reason" (VStr "missing_ledger_match") row)
           | m :: _ => matched m row
           end
  end.

Definition join (lifetimes candidates : list event) (ledger : list dict) (accounting : dict)
    : result (list dict) :=
  let done := completed lifetimes in
  if negb (window_ok lifetimes candidates ledger accounting)
  then Ok (map (fun e => set "reason" (VStr "incomplete_or_invalid_window") (base_row e)) done)
  else if existsb (fun r => unhashable (getv "path" r) || unhashable (getv "nonce" r)) ledger
  then Err TypeError
  else mapM_r (join_row (map (key_of candidates) done) ledger candidates) done.

End Correlation.

(** ** [ObservationWindow] *)

Module Window.
Import Correlation.

Record window := Win {
  w_run : val; instances : dict; reason : option string; changes : list string; closed : bool }.

Definition invalidate (r : string) (w : window) : window :=
  Win (w_run w) (instances w) (match reason w with None => Some r | Some _ => reason w end)
    (changes w ++ [r]) (closed w).

Definition same_keys (a b : list string) : bool :=
  forallb (fun k => mem_str k b) a && forallb (fun k => mem_str k a) b.

Definition new_window (run : val) (inst : dict) (fresh : val) : window :=
  let w := Win run inst None [] false in
  let positive := match run with VInt z => 0 <? z | _ => false end in
  if negb (is_true fresh) || negb positive ||
     negb (same_keys (map fst inst) ["init"; "parse"; "fini"; "candidate"]) ||
     existsb (fun kv => negb (truthy kv.2)) inst
  then invalidate "missing_fresh_window_evidence" w else w.

Definition close (inst : dict) (w : window) : window :=
  let w := if closed w || negb (val_eqb (VDict inst) (VDict (instances w)))
           then invalidate "changed_window_identity" w else w in
  Win (w_run w) (instances w) (reason w) (changes w) true.

(** The rows of a window that is not whole say nothing. *)
Definition blank (r : string) (row : dict) : dict :=
  foldr remove (update [("status", VStr "unknown"); ("reason", VStr r); ("actor", VNone);
                        ("operation", VNone)] row) ["parent"; "originator"; "authority_attempt"].

Definition match_window (lifetimes candidates : list event) (ledger : list dict) (accounting : dict)
    (w : window) : window * result (list dict) :=
  let w := if existsb (fun e => negb (val_eqb (VInt (ev_run e)) (w_run w))) (lifetimes ++ candidates)
           then invalidate "changed_run_token" w else w in
  let w := if existsb (fun e => (kind e =? 1) && negb (Z.land (flags e) 4 =? 0)) lifetimes ||
              existsb (fun e => negb (Z.land (flags e) 256 =? 0)) candidates
           then invalidate "tracking_capacity" w else w in
  (w, let? rows := join lifetimes candidates ledger accounting in
      let r := match reason w with
               | Some (String c s) => Some (String c s)
               | _ => if closed w then None else Some "window_not_closed"
               end in
      Ok (match r with Some r => map (blank r) rows | None => rows end)).

End Window.
