(* ===== verification/JoinsSpec.v ===== *)
(** * What the joins promise

    An observation is attributed only to the one ledger row with its candidate,
    which itself carries authentication evidence; a reported gap of a window is
    permanent and blanks every row. *)

From S2P Require Import Prelude PyVal Joins.

Lemma count_one_unique {A} `{EqDecision A} (x : A) (l : list A) i j :
  count x l = 1 -> l !! i = Some x -> l !! j = Some x -> i = j.
Proof.
  unfold count. revert i j. induction l as [|y l IH]; intros i j Hc Hi Hj; [done|].
  assert (forall k, l !! k = Some x -> 1 <= len (filter (fun y => y = x) l)) as Hin.
  { intros k Hk. assert (x ∈ filter (fun y => y = x) l) as Hx
      by (apply list_elem_of_filter; split; [done|by eapply list_elem_of_lookup_2]).
    destruct (filter _ l); [by apply not_elem_of_nil in Hx|]. rewrite len_cons. pose proof (len_nonneg l0). lia. }
  destruct (decide (y = x)) as [->|Hy].
  - rewrite filter_cons_True, len_cons in Hc by done.
    destruct i as [|i], j as [|j]; [done|..]; [specialize (Hin j Hj)|specialize (Hin i Hi)|specialize (Hin i Hi)]; lia.
  - rewrite filter_cons_False in Hc by done.
    destruct i as [|i], j as [|j]; [done|by simplify_eq/=|by simplify_eq/=|]. f_equal. by apply IH.
Qed.

Lemma len_le_one {A} (x : A) l : (1 <? len (x :: l)) = false -> l = [].
Proof. rewrite len_cons. destruct l; [done|]. rewrite len_cons. pose proof (len_nonneg l). lia. Qed.

Ltac row_get := unfold update, getv; cbn [fold_left fst snd]; rewrite ?get_set;
  cbn [String.eqb Ascii.eqb Bool.eqb default].

Module AttributionSpec.
Import Attribution.

(** A matched row is attributed exactly when its ledger row is accepted, names an
    operation, an actor and the evidence for it. *)
Lemma attributed_status authority event error : getv "status" (matched authority (base_row event error)) = VStr "attributed" ->
  getv "accepted" authority = VBool true /\ truthy (getv "operation" authority) = true /\
  truthy (getv "actor" authority) = true /\ truthy (getv "auth_evidence" authority) = true /\
  getv "authenticated_actor" (matched authority (base_row event error)) = getv "actor" authority /\
  getv "operation" (matched authority (base_row event error)) = getv "operation" authority /\
  getv "originator" (matched authority (base_row event error)) = getv "originator" authority.
Proof.
  unfold matched. cbv zeta.
  destruct (is_true (getv "accepted" authority)) eqn:Ea; cbn [andb];
    destruct (truthy (getv "operation" authority)) eqn:Eo; cbn [andb negb];
    destruct (truthy (getv "actor" authority)); cbn [orb negb];
    destruct (truthy (getv "auth_evidence" authority)); cbn [orb negb];
    try (row_get; discriminate).
  intros _. split; [|by row_get].
  unfold is_true in Ea. by destruct (getv "accepted" authority) as [|[]| | | | | |].
Qed.
End AttributionSpec.

Import AttributionSpec.

(** C17: identity comes only from a unique authenticated ledger row.  A row of the
    join that is attributed belongs to an accounted window and to an observation
    whose path and nonce no other observation shares; exactly one ledger row has
    them, it is accepted with an operation, an actor and evidence of
    authentication, and the actor, operation and originator reported are its. *)
Theorem attribution_unique observations ledger accounting scope i row :
  Attribution.join observations ledger accounting scope !! i = Some row ->
  getv "status" row = VStr "attributed" ->
  Attribution.window_error observations ledger accounting scope = None /\
  exists event authority k,
    observations !! i = Some event /\ Attribution.candidate event = Some k /\
    filter (fun r => Attribution.candidate r = Some k) ledger = [authority] /\
    (forall j e, observations !! j = Some e -> Attribution.candidate e = Some k -> j = i) /\
    getv "accepted" authority = VBool true /\ truthy (getv "operation" authority) = true /\
    truthy (getv "actor" authority) = true /\ truthy (getv "auth_evidence" authority) = true /\
    getv "authenticated_actor" row = getv "actor" authority /\
    getv "operation" row = getv "operation" authority /\
    getv "originator" row = getv "originator" authority.
Proof.
  unfold Attribution.join. rewrite list_lookup_fmap. intros Hi Hs.
  apply fmap_Some in Hi as (event & He & ->). unfold Attribution.join_row in *. cbv zeta in *.
  destruct (Attribution.window_error _ _ _ _) as [[|c s]|] eqn:Hw; [| by vm_compute in Hs |].
  { exfalso. unfold Attribution.window_error in Hw. repeat (case_match; try done). }
  split; [done|]. destruct (Attribution.candidate event) as [k|] eqn:Hk; [|done].
  destruct (negb _ || _) eqn:E; [done|]. apply orb_false_iff in E as [Ec El].
  apply negb_false_iff, Z.eqb_eq in Ec.
  destruct (filter _ ledger) as [|authority rest] eqn:Hf; [done|].
  rewrite (len_le_one _ _ El) in *. destruct (attributed_status _ _ _ Hs) as (? & ? & ? & ? & ? & ? & ?).
  exists event, authority, k. split_and!; try done.
  intros j e Hj Hke. eapply (count_one_unique (Some k)); [exact Ec|..].
  - by rewrite list_lookup_fmap, Hj; simpl; rewrite Hke.
  - by rewrite list_lookup_fmap, He; simpl; rewrite Hk.
Qed.

Definition demo_observation : dict :=
  [("process_session", VStr "p"); ("request_seq", VInt 1); ("path", VStr "/mcp"); ("nonce", VStr "n")].
Definition demo_ledger_row : dict :=
  [("path", VStr "/mcp"); ("nonce", VStr "n"); ("attempt", VStr "a"); ("accepted", VBool true);
   ("operation", VStr "op"); ("actor", VStr "agent-A"); ("auth_evidence", VStr "proof");
   ("originator", VStr "agent-A")].
Definition demo_accounting : dict :=
  [("requests", VInt 1); ("fired", VInt 1); ("events", VInt 1); ("ledger_attempts", VInt 1);
   ("drops", VInt 0); ("errors", VInt 0)].

Lemma attribution_unique_witness : exists row,
  Attribution.join [demo_observation] [demo_ledger_row] demo_accounting (VBool true) = [row] /\
  getv "authenticated_actor" row = VStr "agent-A" /\
  exists authority k,
    filter (fun r => Attribution.candidate r = Some k) [demo_ledger_row] = [authority].
Proof.
  eexists. split; [vm_compute; reflexivity|]. split; [reflexivity|].
  destruct (attribution_unique [demo_observation] [demo_ledger_row] demo_accounting (VBool true) 0
    (default [] (Attribution.join [demo_observation] [demo_ledger_row] demo_accounting (VBool true) !! 0%nat)))
    as (_ & _ & authority & k & _ & _ & H & _).
  - vm_compute. reflexivity.
  - vm_compute. reflexivity.
  - by exists authority, k.
Defined.

Lemma mapM_r_lookup {A B} (f : A -> result B) l ys i y :
  mapM_r f l = Ok ys -> ys !! i = Some y -> exists x, l !! i = Some x /\ f x = Ok y.
Proof.
  revert ys i. induction l as [|x l IH]; intros ys i; simpl; [by intros [= <-]|].
  destruct (f x) as [y0|] eqn:Hf; [|done]. destruct (mapM_r f l) as [ys0|]; [|done]. intros [= <-].
  destruct i as [|i]; simpl; [intros [= ->]; by exists x|]. by apply IH.
Qed.

Module CorrelationSpec.
Import Correlation.

(** *** The lifetimes of a window *)

(** The lifetimes that records start, and those they end (a record with flag 32
    is of no lifetime). *)
Definition starts (l : list event) : list Z := map lifetime (filter (fun e => kind e = 1) l).
Definition ends (l : list event) : list Z :=
  map lifetime (filter (fun e => kind e = 3 /\ flags e <> 32) l).

Lemma starts_app l1 l2 : starts (l1 ++ l2) = starts l1 ++ starts l2.
Proof. unfold starts. by rewrite filter_app, map_app. Qed.
Lemma ends_app l1 l2 : ends (l1 ++ l2) = ends l1 ++ ends l2.
Proof. unfold ends. by rewrite filter_app, map_app. Qed.

Lemma starts_one e : starts [e] = if decide (kind e = 1) then [lifetime e] else [].
Proof. unfold starts. rewrite filter_cons. by destruct (decide _). Qed.
Lemma ends_one e : ends [e] = if decide (kind e = 3 /\ flags e <> 32) then [lifetime e] else [].
Proof. unfold ends. rewrite filter_cons. by destruct (decide _). Qed.

(** Splits a passed conjunction of checks into facts. *)
Ltac checks E :=
  repeat (let Hc := fresh "Hcheck" in apply andb_true_iff in E as [E Hc]);
  repeat match goal with
  | Hb : negb _ = true |- _ => apply negb_true_iff in Hb
  | Hb : bool_decide _ = true |- _ => apply bool_decide_eq_true in Hb
  | Hb : bool_decide _ = false |- _ => apply bool_decide_eq_false in Hb
  end.

Ltac one_lifetime :=
  cbn [list_to_set foldr list_to_set];
  split_and!; try (by rewrite ?union_empty_r_L, ?union_empty_l_L); try (by intros ? ?%elem_of_nil);
  try (by intros ? ->%list_elem_of_singleton); try done; try lia.

(** What one accepted record does to the sets of lifetimes. *)
Lemma live_step_sets s e s' : live_step s e = Some s' ->
  born s' = list_to_set (starts [e]) ∪ born s /\ ended s' = list_to_set (ends [e]) ∪ ended s /\
  (forall x, x ∈ starts [e] -> x ∉ born s) /\ (forall x, x ∈ ends [e] -> x ∉ ended s) /\
  (kind e = 2 -> lifetime e <> 0 -> lifetime e ∈ born s /\ lifetime e ∉ ended s).
Proof.
  unfold live_step. cbv zeta. rewrite starts_one, ends_one. intros H.
  destruct (Z.eqb_spec (kind e) 1) as [K|K]; [|destruct (Z.eqb_spec (flags e) 32) as [F|F];
    [|destruct (Z.eqb_spec (kind e) 2) as [K2|K2]]].
  all: destruct (_ && _) eqn:E in H; [injection H as <-|done]; checks E; cbn [born ended].
  - rewrite decide_True, decide_False by lia. one_lifetime.
  - rewrite decide_False, decide_False by lia. one_lifetime.
  - rewrite decide_False, decide_False by lia. one_lifetime.
  - rewrite decide_False, decide_True by lia. one_lifetime.
Qed.

Lemma live_steps_sets l : forall s s', live_steps s l = Some s' ->
  born s' = list_to_set (starts l) ∪ born s /\ ended s' = list_to_set (ends l) ∪ ended s /\
  NoDup (starts l) /\ (forall x, x ∈ starts l -> x ∉ born s) /\
  NoDup (ends l) /\ (forall x, x ∈ ends l -> x ∉ ended s) /\
  forall l1 e l2, l = l1 ++ e :: l2 -> kind e = 2 -> lifetime e <> 0 ->
    (lifetime e ∈ starts l1 \/ lifetime e ∈ born s) /\ lifetime e ∉ ends l1 /\ lifetime e ∉ ended s.
Proof.
  induction l as [|e l IH]; intros s s' H; cbn [live_steps] in H.
  - injection H as <-. split_and!; try set_solver; [apply NoDup_nil_2..|].
    intros l1 e l2 Hl. by destruct l1.
  - destruct (live_step s e) as [s1|] eqn:He; [|done].
    destruct (live_step_sets _ _ _ He) as (Hb & Hen & Hbn & Hnn & Hk).
    destruct (IH _ _ H) as (Hb' & Hen' & Hd & Hdb & Hde & Hdn & Hp). clear IH H He.
    change (e :: l) with ([e] ++ l). rewrite starts_app, ends_app.
    assert (NoDup (starts [e]) /\ NoDup (ends [e])) as [Hs1 Hs2].
    { rewrite starts_one, ends_one.
      split; destruct (decide _); (apply NoDup_singleton || apply NoDup_nil_2). }
    split_and!.
    + rewrite Hb', Hb, list_to_set_app_L. clear. set_solver.
    + rewrite Hen', Hen, list_to_set_app_L. clear. set_solver.
    + apply NoDup_app. split_and!; [done| |done]. intros x Hx Hx'. apply (Hdb x Hx'). rewrite Hb. clear -Hx. set_solver.
    + intros x [Hx|Hx]%elem_of_app; [by apply Hbn|]. specialize (Hdb x Hx). rewrite Hb in Hdb. clear -Hdb. set_solver.
    + apply NoDup_app. split_and!; [done| |done]. intros x Hx Hx'. apply (Hdn x Hx'). rewrite Hen. clear -Hx. set_solver.
    + intros x [Hx|Hx]%elem_of_app; [by apply Hnn|]. specialize (Hdn x Hx). rewrite Hen in Hdn. clear -Hdn. set_solver.
    + intros [|e1 l1] e' l2 Hl Hk2 Hl0; injection Hl as <- Hl.
      * destruct (Hk Hk2 Hl0). split_and!; [by right|apply not_elem_of_nil|done].
      * destruct (Hp l1 e' l2 Hl Hk2 Hl0) as ([H1|H1] & H2 & H3);
          change (e :: l1) with ([e] ++ l1); rewrite starts_app, ends_app; rewrite Hen in H3;
          [|rewrite Hb in H1]; clear -H1 H2 H3; set_solver.
Qed.

(** A window in which nothing is unaccounted for. *)
Record accounted_window (lifetimes candidates : list event) (accounting : dict) : Prop := {
  aw_sequence : map sequence (lifetimes ++ candidates) ≡ₚ range_from 1 (length (lifetimes ++ candidates));
  aw_run : exists run, 0 < run /\ forall e, e ∈ lifetimes ++ candidates -> ev_run e = run /\ failures e = 0;
  aw_counts : forall k n, (k, n) ∈ [("init", count_kind 1 lifetimes); ("parse", count_kind 2 lifetimes);
      ("fini", count_kind 3 lifetimes); ("candidate", len candidates); ("drops", 0); ("errors", 0);
      ("selections", 0)] -> getv k accounting = VInt n;
  aw_starts : NoDup (starts lifetimes);
  aw_ends : NoDup (ends lifetimes);
  aw_ended : starts lifetimes ≡ₚ ends lifetimes;
  aw_inside : forall l1 e l2, lifetimes = l1 ++ e :: l2 -> kind e = 2 -> lifetime e <> 0 ->
    lifetime e ∈ starts l1 /\ lifetime e ∈ ends l2 }.

(** The terminal candidate behind a key. *)
Lemma key_of_some candidates e p n : key_of candidates e = Some (p, n) ->
  exists c, path c = VStr p /\ nonce c = VStr n /\
    filter (fun c => flags c = 1)
      (filter (fun c => lifetime c = lifetime e /\ attempt c = attempt e) candidates) = [c] /\
    forall c', c' ∈ candidates -> lifetime c' = lifetime e -> attempt c' = attempt e ->
      (flags c' = 0 \/ flags c' = 1) /\ sequence c' < sequence e.
Proof.
  unfold key_of. cbv zeta. destruct (filter _ (interval candidates e)) as [|c [|]] eqn:Hf; try done.
  destruct (_ && _) eqn:E; [|done]. apply andb_true_iff in E as [Efl Eseq].
  rewrite forallb_forall in Efl, Eseq.
  unfold interval in Hf, Efl, Eseq. destruct (lifetime e =? 0); [done|].
  destruct (path c) as [| | |p'| | | |] eqn:Hp; try done.
  destruct (nonce c) as [| | |n'| | | |] eqn:Hn; try done.
  destruct (_ && _); [|done]. intros [= <- <-]. exists c. split_and!; try done.
  intros c' Hin Hl Ha.
  assert (In c' (filter (fun c => lifetime c = lifetime e /\ attempt c = attempt e) candidates)) as Hc
    by (by apply list_elem_of_In, list_elem_of_filter).
  specialize (Efl _ Hc). specialize (Eseq _ Hc). lia.
Qed.

Lemma correlated_status m row row' : getv "status" row = VStr "unknown" -> matched m row = Ok row' ->
  getv "status" row' = VStr "attributed" ->
  getv "accepted" m = VBool true /\ truthy (getv "operation" m) = true /\
  truthy (getv "actor" m) = true /\ truthy (getv "auth_evidence" m) = true /\
  getv "actor" row' = getv "actor" m /\ getv "operation" row' = getv "operation" m /\
  getv "originator" row' = getv "originator" m.
Proof.
  unfold matched, item. intros Hr. destruct (get "attempt" m) as [a|]; [|done].
  assert (getv "status" row <> VStr "attributed") as Hn by by rewrite Hr.
  destruct (truthy (getv "actor" m)) eqn:Eac; cbn [negb orb]; cycle 1.
  { intros [= <-]. revert Hn. by row_get. }
  destruct (truthy (getv "auth_evidence" m)) eqn:Eev; cbn [negb orb]; cycle 1.
  { intros [= <-]. revert Hn. by row_get. }
  destruct (getv "accepted" m) as [|[]| | | | | |]; cycle 1;
    try (intros [= <-]; revert Hn; by row_get).
  destruct (truthy (getv "operation" m)) eqn:Eop; [|intros [= <-]; revert Hn; by row_get].
  intros [= <-] _. split; [done|]. split; [done|]. split; [done|]. split; [done|]. by row_get.
Qed.

Lemma stream_ok_perm l : stream_ok l = true -> map sequence l ≡ₚ range_from 1 (length l).
Proof.
  unfold stream_ok. pose proof (merge_sort_Permutation seq_le l) as Hp.
  destruct (merge_sort seq_le l) as [|e s] eqn:Hs; [done|]. intros H.
  apply andb_true_iff in H as [H _]. apply andb_true_iff in H as [H _].
  apply andb_true_iff in H as [H _]. apply bool_decide_eq_true in H.
  rewrite <- Hp, H. by rewrite (Permutation_length Hp).
Qed.

Lemma stream_ok_run l : stream_ok l = true ->
  exists run, 0 < run /\ forall e, e ∈ l -> ev_run e = run /\ failures e = 0.
Proof.
  unfold stream_ok. pose proof (merge_sort_Permutation seq_le l) as Hp.
  destruct (merge_sort seq_le l) as [|e s] eqn:Hs; [done|]. intros H.
  apply andb_true_iff in H as [H Hf]. apply andb_true_iff in H as [H Hr].
  apply andb_true_iff in H as [_ Hrun]. rewrite forallb_forall in Hf, Hrun.
  exists (ev_run e). split; [lia|]. intros x Hx. rewrite <- Hp, list_elem_of_In in Hx.
  specialize (Hf _ Hx). specialize (Hrun _ Hx). lia.
Qed.

Lemma window_ok_accounted lifetimes candidates ledger accounting :
  window_ok lifetimes candidates ledger accounting = true ->
  accounted_window lifetimes candidates accounting.
Proof.
  unfold window_ok. intros H. apply andb_true_iff in H as [H Hl].
  apply andb_true_iff in H as [H _]. apply andb_true_iff in H as [Hs Ha].
  destruct (live_steps _ lifetimes) as [s|] eqn:Hst; [|done]. apply bool_decide_eq_true in Hl.
  destruct (live_steps_sets _ _ _ Hst) as (Hb & He & Hd & _ & Hd' & _ & Hp). cbn [born ended] in *.
  assert (starts lifetimes ≡ₚ ends lifetimes) as Hperm.
  { apply NoDup_Permutation; [done..|]. intros x. rewrite Hb, He in Hl. clear -Hl. set_solver. }
  constructor; [by apply stream_ok_perm|by apply stream_ok_run| |done..|].
  - unfold accounting_ok in Ha. rewrite forallb_forall in Ha. intros k n Hkn%list_elem_of_In%Ha.
    cbn [fst snd] in Hkn. unfold getv. destruct (get k accounting) as [[| |z| | | | |]|]; try done.
    cbn. f_equal. lia.
  - intros l1 e l2 E K L. destruct (Hp l1 e l2 E K L) as ([H1|H1] & H2 & _); [|by apply elem_of_empty in H1].
    split; [done|]. assert (lifetime e ∈ ends lifetimes) as Hin.
    { rewrite <- Hperm, E, starts_app. by apply elem_of_app; left. }
    rewrite E, ends_app in Hin. apply elem_of_app in Hin as [|Hin]; [done|].
    change (e :: l2) with ([e] ++ l2) in Hin. rewrite ends_app in Hin.
    apply elem_of_app in Hin as [Hin|]; [|done]. exfalso. revert Hin.
    rewrite ends_one, decide_False by lia. apply not_elem_of_nil.
Qed.
End CorrelationSpec.

(** C18: a completed parse is attributed only inside a window in which nothing is
    unaccounted for: the sequence numbers of its records are exactly 1 to n, of
    one run and without failures; the counters agree with the records, with no
    drop, error or selection; every lifetime is started once and ended once, and
    every parse of a lifetime lies between the two.  Its own lifetime and attempt
    have exactly one terminal candidate, and all their candidates precede it; no
    other completed parse has the same path and nonce; exactly one ledger row has
    them, and that row is accepted with actor, evidence and operation; the actor,
    operation and originator reported are that row's. *)
Theorem correlation_unique lifetimes candidates ledger accounting rows i row :
  Correlation.join lifetimes candidates ledger accounting = Ok rows -> rows !! i = Some row ->
  getv "status" row = VStr "attributed" ->
  CorrelationSpec.accounted_window lifetimes candidates accounting /\
  exists e c p n m,
    Correlation.completed lifetimes !! i = Some e /\ Correlation.lifetime e <> 0 /\
    filter (fun c => Correlation.flags c = 1)
      (filter (fun c => Correlation.lifetime c = Correlation.lifetime e /\
                        Correlation.attempt c = Correlation.attempt e) candidates) = [c] /\
    (forall c', c' ∈ candidates -> Correlation.lifetime c' = Correlation.lifetime e ->
       Correlation.attempt c' = Correlation.attempt e ->
       (Correlation.flags c' = 0 \/ Correlation.flags c' = 1) /\
       Correlation.sequence c' < Correlation.sequence e) /\
    Correlation.path c = VStr p /\ Correlation.nonce c = VStr n /\
    (forall j e', Correlation.completed lifetimes !! j = Some e' ->
       Correlation.key_of candidates e' = Some (p, n) -> j = i) /\
    filter (fun r => Correlation.ledger_key r (p, n) = true) ledger = [m] /\
    getv "accepted" m = VBool true /\ truthy (getv "operation" m) = true /\
    truthy (getv "actor" m) = true /\ truthy (getv "auth_evidence" m) = true /\
    getv "actor" row = getv "actor" m /\ getv "operation" row = getv "operation" m /\
    getv "originator" row = getv "originator" m.
Proof.
  unfold Correlation.join. cbv zeta. destruct (Correlation.window_ok _ _ _ _) eqn:Hw; cbn [negb]; cycle 1.
  { intros [= <-]. rewrite list_lookup_fmap. intros (e & _ & ->)%fmap_Some. done. }
  destruct (existsb _ ledger); [done|]. intros Hm Hi Hs.
  destruct (mapM_r_lookup _ _ _ _ _ Hm Hi) as (e & He & Hrow). unfold Correlation.join_row in Hrow.
  cbv zeta in Hrow. split.
  { by eapply CorrelationSpec.window_ok_accounted. }
  destruct (Z.eqb_spec (Correlation.lifetime e) 0) as [|Hlife]; [by injection Hrow as <-|].
  destruct (Correlation.key_of candidates e) as [[p n]|] eqn:Hk; [|by injection Hrow as <-].
  destruct (negb _ || _) eqn:E; [by injection Hrow as <-|]. apply orb_false_iff in E as [Ec El].
  apply negb_false_iff, Z.eqb_eq in Ec.
  destruct (filter _ ledger) as [|m rest] eqn:Hf; [by injection Hrow as <-|].
  rewrite (len_le_one _ _ El) in *.
  destruct (CorrelationSpec.correlated_status m (Correlation.base_row e) row eq_refl Hrow Hs)
    as (? & ? & ? & ? & ? & ? & ?).
  destruct (CorrelationSpec.key_of_some _ _ _ _ Hk) as (c & ? & ? & ? & ?).
  exists e, c, p, n, m. split_and!; try done.
  intros j e' Hj Hk'. eapply (count_one_unique (Some (p, n))); [exact Ec|..].
  - by rewrite list_lookup_fmap, Hj; simpl; rewrite Hk'.
  - by rewrite list_lookup_fmap, He; simpl; rewrite Hk.
Qed.

Definition demo_nonce : string := "00112233445566778899aabbccddeeff".
Definition demo_lifetimes : list Correlation.event :=
  [Correlation.Event 1 0 1 1 0 5 0 0 VNone VNone; Correlation.Event 2 0 3 1 1 5 0 0 VNone VNone;
   Correlation.Event 3 0 4 1 1 5 0 0 VNone VNone].
Definition demo_candidates : list Correlation.event :=
  [Correlation.Event 0 0 2 1 1 5 0 1 (VStr "/mcp") (VStr demo_nonce)].
Definition demo_window_accounting : dict :=
  [("init", VInt 1); ("parse", VInt 1); ("fini", VInt 1); ("candidate", VInt 1);
   ("drops", VInt 0); ("errors", VInt 0); ("selections", VInt 0)].
Definition demo_window_ledger : list dict := [set "nonce" (VStr demo_nonce) demo_ledger_row].
Definition demo_rows : list dict :=
  match Correlation.join demo_lifetimes demo_candidates demo_window_ledger demo_window_accounting with
  | Ok rows => rows
  | Err _ => []
  end.

Lemma correlation_unique_witness :
  getv "actor" (default [] (demo_rows !! 0%nat)) = VStr "agent-A" /\
  CorrelationSpec.accounted_window demo_lifetimes demo_candidates demo_window_accounting /\
  exists p n m, filter (fun r => Correlation.ledger_key r (p, n) = true) demo_window_ledger = [m].
Proof.
  split; [vm_compute; reflexivity|].
  destruct (correlation_unique demo_lifetimes demo_candidates demo_window_ledger demo_window_accounting
    demo_rows 0 (default [] (demo_rows !! 0%nat)) ltac:(vm_compute; reflexivity)
    ltac:(vm_compute; reflexivity) ltac:(vm_compute; reflexivity))
    as (Hw & e & c & p & n & m & _ & _ & _ & _ & _ & _ & _ & Hm & _).
  split; [exact Hw|]. by exists p, n, m.
Defined.

(** ** The window guard *)

Module WindowSpec.
Import Correlation Window.

Inductive op :=
| OInvalidate (r : string)
| OClose (inst : dict)
| OMatch (lifetimes candidates : list event) (ledger : list dict) (accounting : dict).

Definition apply_op (w : window) (o : op) : window :=
  match o with
  | OInvalidate r => invalidate r w
  | OClose inst => close inst w
  | OMatch l c g a => (match_window l c g a w).1
  end.
Definition apply_ops (w : window) (os : list op) : window := foldl apply_op w os.

Definition is_close (o : op) : bool := match o with OClose _ => true | _ => false end.

Lemma invalidate_reason r w : reason (invalidate r w) <> None.
Proof. unfold invalidate. cbn. by destruct (reason w). Qed.

Lemma invalidate_keeps r r' w : reason w = Some r -> reason (invalidate r' w) = Some r.
Proof. unfold invalidate. cbn. by intros ->. Qed.

Lemma apply_op_keeps w o r : reason w = Some r -> reason (apply_op w o) = Some r.
Proof.
  intros H. destruct o as [r'|inst|l c g a]; cbn [apply_op].
  - by apply invalidate_keeps.
  - unfold close. cbn. destruct (_ || _); [by apply invalidate_keeps|done].
  - unfold match_window. cbn [fst]. repeat case_match; rewrite ?H; by repeat apply invalidate_keeps.
Qed.

Lemma apply_ops_keeps os : forall w r, reason w = Some r -> reason (apply_ops w os) = Some r.
Proof. induction os as [|o os IH]; intros w r H; [done|]. by apply IH, apply_op_keeps. Qed.

(** What each operation leaves of a window that still has no reason. *)
Lemma apply_op_whole w o : reason (apply_op w o) = None ->
  reason w = None /\ w_run (apply_op w o) = w_run w /\ instances (apply_op w o) = instances w /\
  match o with
  | OInvalidate _ => False
  | OClose inst => closed w = false /\ closed (apply_op w o) = true /\
                   val_eqb (VDict inst) (VDict (instances w)) = true
  | OMatch _ _ _ _ => closed (apply_op w o) = closed w
  end.
Proof.
  intros H. destruct (reason w) as [r|] eqn:Hr; [by rewrite (apply_op_keeps w o r Hr) in H|].
  split; [done|]. destruct o as [r'|inst|l c g a]; cbn [apply_op] in *.
  - by apply invalidate_reason in H.
  - unfold close in *. cbn in *. destruct (_ || _) eqn:E; [by apply invalidate_reason in H|].
    apply orb_false_iff in E as [-> E]. by apply negb_false_iff in E.
  - unfold match_window in *. cbn [fst] in *.
    destruct (_ || _); [by apply invalidate_reason in H|].
    destruct (existsb _ _); [by apply invalidate_reason in H|done].
Qed.

Lemma apply_ops_whole os : forall w, reason (apply_ops w os) = None ->
  reason w = None /\ w_run (apply_ops w os) = w_run w /\
  (forall r, OInvalidate r ∉ os) /\
  (forall inst, OClose inst ∈ os -> val_eqb (VDict inst) (VDict (instances w)) = true) /\
  (closed w = true -> existsb is_close os = false) /\
  (closed (apply_ops w os) = true -> closed w = true \/ length (filter (fun o => is_close o = true) os) = 1%nat).
Proof.
  induction os as [|o os IH]; intros w H; cbn [apply_ops foldl] in *.
  { split_and!; try done; [by intros r Hr%not_elem_of_nil|by intros r Hr%not_elem_of_nil|by left]. }
  destruct (IH _ H) as (H1 & Hrun & Hinv & Hclose & Hcl & Hcl'). 
  destruct (apply_op_whole _ _ H1) as (Hw & Hrun' & Hin & Ho). rewrite Hrun'  in Hrun. rewrite Hin in Hclose.
  split; [done|]. split; [done|]. split.
  { intros r Hr. apply elem_of_cons in Hr as [<-|Hr]; [done|by apply (Hinv r)]. }
  destruct o as [r|inst|l c g a]; [done|..].
  - destruct Ho as (Hc & Hc' & He). split; [|split].
    + intros i [[= ->]|Hi]%elem_of_cons; [done|by apply Hclose].
    + by rewrite Hc.
    + intros _. right. rewrite filter_cons_True by done. cbn [length]. f_equal.
      specialize (Hcl Hc'). rewrite filter_none; [done|]. intros x Hx Hx'.
      assert (existsb is_close os = true); [|congruence].
      apply existsb_exists. exists x. by rewrite <- list_elem_of_In.
  - split; [|split].
    + intros i [?|Hi]%elem_of_cons; [done|by apply Hclose].
    + intros Hc. cbn [existsb is_close orb]. apply Hcl. by rewrite Ho.
    + intros Hc. destruct (Hcl' Hc) as [Hx|Hx]; [left; by rewrite <- Ho|right].
      rewrite filter_cons_False by done. done.
Qed.

Lemma blank_status r row : getv "status" (blank r row) = VStr "unknown".
Proof.
  unfold blank, getv. cbn [foldr]. rewrite !get_remove_ne by done. by row_get.
Qed.

(** No operation but an empty [invalidate] leaves an empty reason. *)
Lemma invalidate_nonempty r w : r <> "" -> reason w <> Some "" -> reason (invalidate r w) <> Some "".
Proof. unfold invalidate. cbn. destruct (reason w); congruence. Qed.

Lemma apply_op_nonempty w o : o <> OInvalidate "" -> reason w <> Some "" -> reason (apply_op w o) <> Some "".
Proof.
  intros Ho Hw. destruct o as [r|inst|l c g a]; cbn [apply_op].
  - apply invalidate_nonempty; congruence.
  - unfold close. cbn. destruct (_ || _); [by apply invalidate_nonempty|done].
  - unfold match_window. cbn [fst]. repeat case_match; by repeat apply invalidate_nonempty.
Qed.

Lemma apply_ops_nonempty os : Forall (fun o => o <> OInvalidate "") os -> forall w,
  reason w <> Some "" -> reason (apply_ops w os) <> Some "".
Proof.
  induction 1 as [|o os Ho _ IH]; intros w Hw; [done|]. by apply IH, apply_op_nonempty.
Qed.

Lemma new_window_nonempty run inst fresh : reason (new_window run inst fresh) <> Some "".
Proof. unfold new_window. by destruct (_ || _). Qed.

Lemma new_window_whole run inst fresh : reason (new_window run inst fresh) = None ->
  fresh = VBool true /\ (exists z, run = VInt z /\ 0 < z) /\
  closed (new_window run inst fresh) = false /\ instances (new_window run inst fresh) = inst /\
  w_run (new_window run inst fresh) = run.
Proof.
  unfold new_window. destruct (_ || _) eqn:E; [done|]. intros _.
  apply orb_false_iff in E as [E _]. apply orb_false_iff in E as [E _].
  apply orb_false_iff in E as [Ef Er]. apply negb_false_iff in Ef, Er.
  split; [unfold is_true in Ef; by destruct fresh as [|[]| | | | | |]|]. split; [|done].
  destruct run; try done. exists z. split; [done|lia].
Qed.

(** A match that reports an attributed row. *)
Lemma match_attributed l c g a w rows row : reason w <> Some "" ->
  (match_window l c g a w).2 = Ok rows -> row ∈ rows -> getv "status" row = VStr "attributed" ->
  reason (match_window l c g a w).1 = None /\ closed w = true /\
  forall e, e ∈ l ++ c -> val_eqb (VInt (ev_run e)) (w_run w) = true.
Proof.
  intros Hw. pose proof (apply_op_nonempty w (OMatch l c g a) ltac:(done) Hw) as Hne.
  cbn [apply_op] in Hne. unfold match_window in *. cbn [fst snd] in *.
  set (w1 := if existsb _ (l ++ c) then _ else _) in *. set (w2 := if _ || _ then _ else _) in *.
  destruct (join l c g a) as [rows0|]; [|done]. intros [= <-] Hin Hs.
  assert (forall r, row ∉ map (blank r) rows0) as Hblank.
  { intros r (x & -> & _)%list_elem_of_fmap. by rewrite blank_status in Hs. }
  destruct (reason w2) as [[|ch s]|] eqn:Hr; [done|by apply Hblank in Hin|].
  destruct (closed w2) eqn:Hc; [|by apply Hblank in Hin]. split; [done|].
  assert (w2 = w1) as E2.
  { unfold w2 in *. destruct (_ || _); [by apply invalidate_reason in Hr|done]. }
  rewrite E2 in *. unfold w1 in *. destruct (existsb _ (l ++ c)) eqn:Ex; [by apply invalidate_reason in Hr|].
  split; [done|]. intros e He. apply list_elem_of_In in He.
  destruct (val_eqb (VInt (ev_run e)) (w_run w)) eqn:Ee; [done|].
  assert (existsb (fun e => negb (val_eqb (VInt (ev_run e)) (w_run w))) (l ++ c) = true); [|congruence].
  apply existsb_exists. exists e. by rewrite Ee.
Qed.

End WindowSpec.

(** A gap is permanent.  If [match] reports any attributed row after some
    operations on a new window, then the window was opened with fresh evidence
    and a positive run, nothing was ever reported against it, it was closed
    exactly once with the same program instances, and every record of the match
    carries its run. *)
Theorem gap_is_permanent run inst fresh os lifetimes candidates ledger accounting rows row :
  Forall (fun o => o <> WindowSpec.OInvalidate "") os ->
  (Window.match_window lifetimes candidates ledger accounting
     (WindowSpec.apply_ops (Window.new_window run inst fresh) os)).2 = Ok rows ->
  row ∈ rows -> getv "status" row = VStr "attributed" ->
  fresh = VBool true /\ (exists z, run = VInt z /\ 0 < z) /\
  (forall r, WindowSpec.OInvalidate r ∉ os) /\
  length (filter (fun o => WindowSpec.is_close o = true) os) = 1%nat /\
  (forall i, WindowSpec.OClose i ∈ os -> val_eqb (VDict i) (VDict inst) = true) /\
  (forall e, e ∈ lifetimes ++ candidates -> VInt (Correlation.ev_run e) = run).
Proof.
  set (w0 := Window.new_window run inst fresh). intros Hne Hm Hin Hs.
  pose proof (WindowSpec.apply_ops_nonempty os Hne w0 (WindowSpec.new_window_nonempty _ _ _)) as Hnon.
  destruct (WindowSpec.match_attributed _ _ _ _ _ _ _ Hnon Hm Hin Hs) as (Hr & Hc & Hrun).
  destruct (WindowSpec.apply_op_whole _ (WindowSpec.OMatch lifetimes candidates ledger accounting) Hr)
    as (Hr0 & _).
  destruct (WindowSpec.apply_ops_whole _ _ Hr0) as (Hr1 & Hrun1 & Hinv & Hclose & _ & Hone).
  destruct (WindowSpec.new_window_whole _ _ _ Hr1) as (Hf & (z & Hz & Hpos) & Hcl & Hi & Hw).
  split; [done|]. split; [by exists z|]. split; [done|].
  unfold w0 in *. split; [destruct (Hone Hc); congruence|]. rewrite Hi in Hclose. split; [done|].
  intros e He. specialize (Hrun e He). rewrite Hrun1, Hw, Hz in Hrun. rewrite Hz. cbn in Hrun.
  f_equal. by apply Z.eqb_eq.
Qed.

Definition demo_instances : dict :=
  [("init", VInt 1); ("parse", VInt 2); ("fini", VInt 3); ("candidate", VInt 4)].
Definition demo_window : Window.window :=
  WindowSpec.apply_ops (Window.new_window (VInt 5) demo_instances (VBool true))
    [WindowSpec.OClose demo_instances].

Lemma gap_is_permanent_witness :
  length (filter (fun o => WindowSpec.is_close o = true) [WindowSpec.OClose demo_instances]) = 1%nat.
Proof.
  destruct (gap_is_permanent (VInt 5) demo_instances (VBool true) [WindowSpec.OClose demo_instances]
    demo_lifetimes demo_candidates demo_window_ledger demo_window_accounting demo_rows
    (default [] (demo_rows !! 0%nat))) as (_ & _ & _ & H & _).
  - repeat constructor. discriminate.
  - vm_compute. reflexivity.
  - vm_compute. left.
  - vm_compute. reflexivity.
  - exact H.
Defined.
