(* ===== verification/Relo.v ===== *)
(** * The sign-time relocation check (substrate/check_relo_baked.py)

    The independent CO-RE resolver: the BTF reader, the ELF section table, the
    relocation records, the field-by-name resolution and the comparison with the
    immediates another relocator wrote.  The C relocator is a parameter, run
    twice per object.  A name is its bytes in UTF-8. *)

From S2P Require Import Prelude Text.

(** ** BTF *)

Definition BTF_MAGIC : Z := 0xEB9F.
Definition K_INT := 1.
Definition K_PTR := 2.
Definition K_ARRAY := 3.
Definition K_STRUCT := 4.
Definition K_UNION := 5.
Definition K_ENUM := 6.
Definition K_TYPEDEF := 8.
Definition K_VOLATILE := 9.
Definition K_CONST := 10.
Definition K_RESTRICT := 11.
Definition K_FUNC_PROTO := 13.
Definition K_VAR := 14.
Definition K_DATASEC := 15.
Definition K_FLOAT := 16.
Definition K_DECL_TAG := 17.
Definition K_TYPE_TAG := 18.
Definition K_ENUM64 := 19.

(** [_trailing]. *)
Definition trailing (kind vlen : Z) : Z :=
  if mem_Z kind [K_INT; K_VAR; K_DECL_TAG] then 4
  else if kind =? K_ARRAY then 12
  else if mem_Z kind [K_STRUCT; K_UNION] then vlen * 12
  else if kind =? K_ENUM then vlen * 8
  else if mem_Z kind [K_ENUM64; K_DATASEC] then vlen * 12
  else if kind =? K_FUNC_PROTO then vlen * 8
  else 0.

Record btf_type := BtfType {
  t_id : Z; t_kind : Z; t_vlen : Z; t_kflag : Z; t_name : string; size_or_type : Z; data_off : Z }.

(** [by_id] holds the types from id 1 on; id 0 is void. *)
Record btf := Btf {
  types_blob : bytes; strs : bytes; by_id : list btf_type; by_name : gmap (Z * string) btf_type }.

(** The bytes up to the next null or the end. *)
Definition terminated (strs : bytes) (off : Z) : bytes :=
  let e := py_find [0] strs off in
  if 0 <=? e then slice off e strs else zdrop off strs.

Definition text_at (strs : bytes) (off : Z) : string :=
  if len strs <=? off then "" else
  decode_ascii (default [] (utf8_encode (decode_replace (terminated strs off)))).

Definition btf_s (b : btf) (off : Z) : string := text_at (strs b) off.


(** The loop of [_index] from [off]; a round moves 12 bytes at least. *)
Fixpoint index_from (fuel : nat) (blob strs : bytes) (off : Z) (ids : list btf_type)
    (names : gmap (Z * string) btf_type) : result (list btf_type * gmap (Z * string) btf_type) :=
  if len blob <? off + 12 then Ok (ids, names) else
  match fuel with
  | O => Err OutOfFuel
  | S fuel =>
      let? name_off := unpack_le 4 blob off in
      let? info := unpack_le 4 blob (off + 4) in
      let? st := unpack_le 4 blob (off + 8) in
      let kind := Z.land (Z.shiftr info 24) 0x1F in
      let vlen := Z.land info 0xFFFF in
      let kflag := Z.land (Z.shiftr info 31) 1 in
      let trail := trailing kind vlen in
      if len blob <? off + 12 + trail then Ok (ids, names) else
      let t := BtfType (len ids + 1) kind vlen kflag (text_at strs name_off) st (off + 12) in
      let names := if String.eqb (t_name t) "" then names else
                   match names !! (kind, t_name t) with
                   | Some _ => names
                   | None => <[(kind, t_name t) := t]> names
                   end in
      index_from fuel blob strs (off + 12 + trail) (ids ++ [t]) names
  end.

Definition parse_btf (blob : bytes) : result btf :=
  raise_if (len blob <? 24) (ValueError "BTF blob shorter than its header") ;;
  let? magic := unpack_le 2 blob 0 in
  let? hdr_len := unpack_le 4 blob 4 in
  raise_if (negb (magic =? BTF_MAGIC)) (ValueError "bad BTF magic") ;;
  let? type_off := unpack_le 4 blob 8 in
  let? type_len := unpack_le 4 blob 12 in
  let? str_off := unpack_le 4 blob 16 in
  let? str_len := unpack_le 4 blob 20 in
  let types := slice (hdr_len + type_off) (hdr_len + type_off + type_len) blob in
  let strs := slice (hdr_len + str_off) (hdr_len + str_off + str_len) blob in
  let? (ids, names) := index_from (length types) types strs 0 [] ∅ in
  Ok (Btf types strs ids names).

Definition type_at (b : btf) (tid : Z) : option btf_type :=
  if tid <? 1 then None else by_id b !! Z.to_nat (tid - 1).

Definition is_record (t : btf_type) : bool := mem_Z (t_kind t) [K_STRUCT; K_UNION].

(** A member: name, type, bit offset, bitfield width. *)
Record member := Member { m_name : string; m_type : Z; m_bit : Z; m_width : Z }.

Definition read_member (b : btf) (t : btf_type) (i : Z) : result member :=
  let? name_off := unpack_le 4 (types_blob b) (data_off t + i * 12) in
  let? tid := unpack_le 4 (types_blob b) (data_off t + i * 12 + 4) in
  let? off := unpack_le 4 (types_blob b) (data_off t + i * 12 + 8) in
  Ok (if t_kflag t =? 0 then Member (btf_s b name_off) tid off 0
      else Member (btf_s b name_off) tid (Z.land off 0xFFFFFF) (Z.land (Z.shiftr off 24) 0xFF)).

Definition members (b : btf) (t : btf_type) : result (list member) :=
  raise_if (negb (is_record t)) (ValueError "type is not a struct/union") ;;
  mapM_r (read_member b t) (map Z.of_nat (seq 0 (Z.to_nat (t_vlen t)))).

(** [strip]: at most 32 qualifiers are followed. *)
Fixpoint strip_from (fuel : nat) (b : btf) (tid : Z) : option btf_type :=
  if tid =? 0 then None else
  match fuel with
  | O => None
  | S fuel =>
      match type_at b tid with
      | None => None
      | Some t =>
          if mem_Z (t_kind t) [K_TYPEDEF; K_CONST; K_VOLATILE; K_RESTRICT; K_TYPE_TAG]
          then strip_from fuel b (size_or_type t) else Some t
      end
  end.
Definition strip_type (b : btf) (tid : Z) : option btf_type := strip_from 32 b tid.

Definition find_struct (b : btf) (name : string) : option btf_type :=
  match by_name b !! (K_STRUCT, name) with
  | Some t => Some t
  | None => by_name b !! (K_UNION, name)
  end.

(** The nesting the interpreter allows. *)
Definition RECURSION : nat := 1000.

Fixpoint size_from (fuel : nat) (b : btf) (tid : Z) : result (option Z) :=
  match fuel with
  | O => Err OutOfFuel
  | S fuel =>
      match strip_type b tid with
      | None => Ok None
      | Some t =>
          if mem_Z (t_kind t) [K_INT; K_STRUCT; K_UNION; K_ENUM; K_ENUM64; K_FLOAT]
          then Ok (Some (size_or_type t))
          else if t_kind t =? K_PTR then Ok (Some 8)
          else if t_kind t =? K_ARRAY then
            let? etid := unpack_le 4 (types_blob b) (data_off t) in
            let? nelems := unpack_le 4 (types_blob b) (data_off t + 8) in
            let? esz := size_from fuel b etid in
            Ok (match esz with Some e => Some (e * nelems) | None => None end)
          else Ok None
      end
  end.
Definition size_of (b : btf) (tid : Z) : result (option Z) := size_from RECURSION b tid.

(** ** ELF sections *)

Definition section := (Z * Z * bytes)%type.

Definition sh_entry (blob : bytes) (e_shoff e_shentsize i : Z) : result (Z * Z * Z) :=
  let o := e_shoff + i * e_shentsize in
  let? _ := unpack_le 8 blob (o + 32) in
  let? name_off := unpack_le 4 blob o in
  let? off := unpack_le 8 blob (o + 24) in
  let? size := unpack_le 8 blob (o + 32) in
  Ok (name_off, off, size).

(** [decode()]. *)
Definition decode_strict (b : bytes) : result string :=
  match utf8_decode b with Some _ => Ok (decode_ascii b) | None => Err UnicodeError end.

Fixpoint sections_from (blob shstr : bytes) (e_shoff e_shentsize : Z) (idx : list Z)
    (out : gmap string section) : result (gmap string section) :=
  match idx with
  | [] => Ok out
  | i :: rest =>
      let? (name_off, off, size) := sh_entry blob e_shoff e_shentsize i in
      let? name := decode_strict (terminated shstr name_off) in
      sections_from blob shstr e_shoff e_shentsize rest
        (<[name := (off, size, slice off (off + size) blob)]> out)
  end.

Definition elf_sections (blob : bytes) : result (gmap string section) :=
  raise_if (negb (bytes_eqb (ztake 4 blob) [0x7f; 0x45; 0x4c; 0x46])) (ValueError "not an ELF64 object") ;;
  let? class_ := at_index blob 4 in
  raise_if (negb (class_ =? 2)) (ValueError "not an ELF64 object") ;;
  let? e_shoff := unpack_le 8 blob 0x28 in
  let? e_shentsize := unpack_le 2 blob 0x3A in
  let? e_shnum := unpack_le 2 blob 0x3C in
  let? e_shstrndx := unpack_le 2 blob 0x3E in
  let? (_, stroff, strsize) := sh_entry blob e_shoff e_shentsize e_shstrndx in
  sections_from blob (slice stroff (stroff + strsize) blob) e_shoff e_shentsize
    (map Z.of_nat (seq 0 (Z.to_nat e_shnum))) ∅.

(** ** Relocation records *)

Record relo := Relo { r_sec : string; r_insn : Z; r_type : Z; r_access : string; r_kind : Z }.

(** The inner loop; it stops early when a record would pass the end. *)
Fixpoint relo_infos (n : nat) (ext : bytes) (b : btf) (sec : string) (rec_size p e : Z) (out : list relo)
    : result (Z * list relo) :=
  match n with
  | O => Ok (p, out)
  | S n =>
      if e <? p + rec_size then Ok (p, out) else
      let? insn_off := unpack_le 4 ext p in
      let? type_id := unpack_le 4 ext (p + 4) in
      let? access_off := unpack_le 4 ext (p + 8) in
      let? kind := unpack_le 4 ext (p + 12) in
      relo_infos n ext b sec rec_size (p + rec_size) e
        (out ++ [Relo sec insn_off type_id (btf_s b access_off) kind])
  end.

Fixpoint relo_groups (fuel : nat) (ext : bytes) (b : btf) (rec_size p e : Z) (out : list relo)
    : result (list relo) :=
  if e <? p + 8 then Ok out else
  match fuel with
  | O => Err OutOfFuel
  | S fuel =>
      let? sec_name_off := unpack_le 4 ext p in
      let? num_info := unpack_le 4 ext (p + 4) in
      let? (p, out) := relo_infos (Z.to_nat num_info) ext b (btf_s b sec_name_off) rec_size (p + 8) e out in
      relo_groups fuel ext b rec_size p e out
  end.

Definition core_relos (ext : bytes) (b : btf) : result (list relo) :=
  if len ext <? 24 then Ok [] else
  let? magic := unpack_le 2 ext 0 in
  let? hdr_len := unpack_le 4 ext 4 in
  raise_if (negb (magic =? BTF_MAGIC)) (ValueError "bad .BTF.ext magic") ;;
  if hdr_len <? 32 then Ok [] else
  let? core_off := unpack_le 4 ext 24 in
  let? core_len := unpack_le 4 ext 28 in
  if core_len =? 0 then Ok [] else
  let base := hdr_len + core_off in
  let? rec_size := unpack_le 4 ext base in
  relo_groups (length ext) ext b rec_size (base + 4) (base + core_len) [].

(** ** Resolution *)

(** [_member_by_name]: anonymous records are searched in place. *)
Fixpoint find_member (fuel : nat) (b : btf) (want : string) (ms : list member) : result (option (Z * Z * Z)) :=
  match fuel with
  | O => Err OutOfFuel
  | S fuel =>
      (fix go (ms : list member) : result (option (Z * Z * Z)) :=
         match ms with
         | [] => Ok None
         | m :: rest =>
             if String.eqb (m_name m) want then Ok (Some (m_bit m, m_type m, m_width m)) else
             if String.eqb (m_name m) "" then
               match strip_type b (m_type m) with
               | Some sub =>
                   if is_record sub then
                     let? sms := members b sub in
                     let? deeper := find_member fuel b want sms in
                     match deeper with
                     | Some (bit, tid, w) => Ok (Some (m_bit m + bit, tid, w))
                     | None => go rest
                     end
                   else go rest
               | None => go rest
               end
             else go rest
         end) ms
  end.

Definition member_by_name (b : btf) (st : btf_type) (want : string) : result (option (Z * Z * Z)) :=
  let? ms := members b st in find_member RECURSION b want ms.

Definition py_repr (s : string) : string := cat ["'"; s; "'"].

(** [".".join(path)] and the hazard of a bitfield. *)
Definition bitfield_hazard (path : list string) (bit width : Z) : string :=
  let p := String.concat "." path in
  if negb (bit mod 8 =? 0) then cat [p; " is a bitfield at bit "; py_str bit; " --- NOT byte aligned"]
  else if negb (width mod 8 =? 0)
  then cat [p; " is a "; py_str width; "-bit bitfield --- byte aligned but not a whole number of bytes; a scalar read is WRONG"]
  else cat [p; " is a "; py_str width; "-bit bitfield on a byte boundary --- safe, but only by alignment"].

(** [l[i]] with a negative index counting from the end. *)
Definition py_index {A} (l : list A) (i : Z) : result A :=
  at_index l (if i <? 0 then i + len l else i).

(** The walk over the indices of the access spec. *)
Fixpoint walk (target local : btf) (parts : list Z) (bit : Z) (cur_local cur_target : option btf_type)
    (path : list string) (hazards : list string) : result (option Z * list string) :=
  match parts with
  | [] =>
      if negb (bit mod 8 =? 0)
      then Ok (None, hazards ++ [cat ["resolved bit offset "; py_str bit; " is not byte aligned"]])
      else Ok (Some (bit / 8), hazards)
  | idx :: parts =>
      match (match cur_target with Some t => if t_kind t =? K_ARRAY then Some t else None | None => None end) with
      | Some t =>
          let? etid := unpack_le 4 (types_blob target) (data_off t) in
          let? esz := size_of target etid in
          match esz with
          | None => Ok (None, hazards ++ ["array element of unknown size"])
          | Some esz =>
              let? cur_local :=
                match cur_local with
                | Some l => if t_kind l =? K_ARRAY
                            then let? e := unpack_le 4 (types_blob local) (data_off l) in
                                 Ok (strip_type local e)
                            else Ok (Some l)
                | None => Ok None
                end in
              walk target local parts (bit + idx * esz * 8) cur_local (strip_type target etid)
                (path ++ [cat ["["; py_str idx; "]"]]) hazards
          end
      | None =>
          match cur_local with
          | Some l =>
              if negb (is_record l)
              then Ok (None, hazards ++ ["access spec walks into a non-struct locally"]) else
              let? lms := members local l in
              if len lms <=? idx
              then Ok (None, hazards ++ [cat ["local member index "; py_str idx; " out of range in ";
                                              py_repr (t_name l); " ("; py_str (len lms); ")"]]) else
              let? lm := py_index lms idx in
              if String.eqb (m_name lm) ""
              then Ok (None, hazards ++ [cat ["local member "; py_str idx; " is anonymous --- not modelled"]]) else
              match cur_target with
              | Some t =>
                  if negb (is_record t)
                  then Ok (None, hazards ++ [cat ["target side is not a struct at ";
                                                  py_repr (String.concat "." path)]]) else
                  let? hit := member_by_name target t (m_name lm) in
                  match hit with
                  | None => Ok (None, hazards ++ [cat ["field "; py_repr (m_name lm);
                                   " is absent from target struct ";
                                   py_repr (if String.eqb (t_name t) "" then "<anon>" else t_name t)]])
                  | Some (mbit, mtid, mw) =>
                      let path := path ++ [m_name lm] in
                      let hazards := if mw =? 0 then hazards
                                     else hazards ++ [bitfield_hazard path mbit mw] in
                      walk target local parts (bit + mbit) (strip_type local (m_type lm))
                        (strip_type target mtid) path hazards
                  end
              | None => Ok (None, hazards ++ [cat ["target side is not a struct at ";
                                                   py_repr (String.concat "." path)]])
              end
          | None => Ok (None, hazards ++ ["access spec walks into a non-struct locally"])
          end
      end
  end.

(** [[int(x) for x in access_spec.split(":") if x != ""]]. *)
Fixpoint split_colons (l word : list ascii) : list (list ascii) :=
  match l with
  | [] => [word]
  | c :: t => if Ascii.eqb c ":" then word :: split_colons t [] else split_colons t (word ++ [c])
  end.
Fixpoint spec_ints (ws : list (list ascii)) : result (list Z) :=
  match ws with
  | [] => Ok []
  | [] :: t => spec_ints t
  | w :: t =>
      match py_int (list_str w) with
      | None => Err (ValueError "invalid literal for int()")
      | Some z => let? l := spec_ints t in Ok (z :: l)
      end
  end.

Definition resolve (target local : btf) (local_type_id : Z) (access_spec : string)
    : result (option Z * list string) :=
  match strip_type local local_type_id with
  | None => Ok (None, [cat ["local type id "; py_str local_type_id; " has no name to match on"]])
  | Some lt =>
      if String.eqb (t_name lt) ""
      then Ok (None, [cat ["local type id "; py_str local_type_id; " has no name to match on"]]) else
      match find_struct target (t_name lt) with
      | None => Ok (None, [cat ["struct "; py_repr (t_name lt); " is absent from the target BTF"]])
      | Some tgt =>
          let? parts := spec_ints (split_colons (str_list access_spec) []) in
          match parts with
          | [] => Ok (None, ["empty access spec"])
          | first :: rest =>
              if first =? 0 then walk target local rest 0 (Some lt) (Some tgt) [t_name lt] [] else
              let? esz := size_of target (t_id tgt) in
              match esz with
              | None => Ok (None, [cat ["leading array index "; py_str first; " on a type of unknown size"]])
              | Some esz =>
                  walk target local rest (first * esz * 8) (Some lt) (Some tgt) [t_name lt]
                    [cat ["leading array index "; py_str first; " (stride "; py_str esz; ")"]]
              end
          end
      end
  end.

(** ** The immediates the relocator wrote *)

Definition baked_imm (secs : gmap string section) (r : relo) : result (option Z) :=
  match secs !! r_sec r with
  | None => Ok None
  | Some (_, size, data) =>
      if size <? r_insn r + 8 then Ok None else
      let? z := unpack_le 4 data (r_insn r + 4) in Ok (Some (signed 4 z))
  end.

Fixpoint baked_immediates (secs : gmap string section) (relos : list relo)
    (out : gmap (string * Z) (option Z)) : result (gmap (string * Z) (option Z)) :=
  match relos with
  | [] => Ok out
  | r :: t => let? i := baked_imm secs r in baked_immediates secs t (<[(r_sec r, r_insn r) := i]> out)
  end.

(** ** [main] *)

(** The counters of a run. *)
Record tally := Tally {
  checked_n : Z; agree_n : Z; mismatch_n : Z; unresolved_n : Z;
  nondeterministic : list string; hazard_rows : list (string * string * string);
  prog_rows : list (string * Z * Z * Z * string) }.

Definition start : tally := Tally 0 0 0 0 [] [] [].

Definition add_row (name : string) (nrel agree mismatch : Z) (note : string) (t : tally) : tally :=
  Tally (checked_n t) (agree_n t) (mismatch_n t) (unresolved_n t) (nondeterministic t) (hazard_rows t)
    (prog_rows t ++ [(name, nrel, agree, mismatch, note)]).

(** How a relocation is named in a report: the struct and the access string. *)
Definition relo_label (local : btf) (r : relo) : string :=
  cat [match strip_type local (r_type r) with Some lt => t_name lt | None => "?" end; "."; r_access r].

(** One relocation compared. *)
Definition compare_relo (name : string) (target local : btf) (baked : gmap (string * Z) (option Z)) (t : tally) (r : relo)
    : result tally :=
  let? (want, hazards) := resolve target local (r_type r) (r_access r) in
  let got := default None (baked !! (r_sec r, r_insn r)) in
  let t := Tally (checked_n t + 1) (agree_n t) (mismatch_n t) (unresolved_n t) (nondeterministic t)
             (hazard_rows t ++ map (pair (name, relo_label local r)) hazards) (prog_rows t) in
  Ok (match want, got with
      | None, _ | _, None =>
          Tally (checked_n t) (agree_n t) (mismatch_n t) (unresolved_n t + 1) (nondeterministic t)
            (hazard_rows t) (prog_rows t)
      | Some w, Some g =>
          if w =? g
          then Tally (checked_n t) (agree_n t + 1) (mismatch_n t) (unresolved_n t) (nondeterministic t)
                 (hazard_rows t) (prog_rows t)
          else Tally (checked_n t) (agree_n t) (mismatch_n t + 1) (unresolved_n t) (nondeterministic t)
                 (hazard_rows t) (prog_rows t)
      end).

Fixpoint compare_all (name : string) (target local : btf) (baked : gmap (string * Z) (option Z)) (t : tally)
    (relos : list relo) : result tally :=
  match relos with
  | [] => Ok t
  | r :: rest => let? t := compare_relo name target local baked t r in compare_all name target local baked t rest
  end.

Section main.
(** What the relocator leaves at each of its two runs on an object: nothing when
    it refuses. *)
Variable relocator : nat -> bytes -> option bytes.

Definition field_relos (relos : list relo) : list relo := filter (fun r => r_kind r = 0) relos.

(** The second run must leave the same object. *)
Definition check_same (name : string) (blob dst : bytes) (t : tally) : tally :=
  if match relocator 1 blob with Some dst2 => bytes_eqb dst dst2 | None => false end then t else
  Tally (checked_n t) (agree_n t) (mismatch_n t) (unresolved_n t) (nondeterministic t ++ [name])
    (hazard_rows t) (prog_rows t).

Definition check_relocated (target local : btf) (name : string) (blob dst : bytes) (relos : list relo)
    (t : tally) : result tally :=
  let t := check_same name blob dst t in
  let? secs := elf_sections dst in
  let? baked := baked_immediates secs relos ∅ in
  let? t' := compare_all name target local baked t relos in
  Ok (add_row name (len relos) (agree_n t' - agree_n t) (mismatch_n t' - mismatch_n t) "" t').

Definition check_object (target : btf) (t : tally) (obj : string * bytes) : result tally :=
  let '(name, blob) := obj in
  match elf_sections blob with
  | Err (ValueError _) | Err UnicodeError => Ok t
  | Err e => Err e
  | Ok secs =>
      match secs !! ".BTF", secs !! ".BTF.ext" with
      | Some (_, _, btf_data), Some (_, _, ext) =>
          let? local := parse_btf btf_data in
          match core_relos ext local with
          | Err (ValueError _) => Ok (add_row name 0 0 0 "bad .BTF.ext" t)
          | Err e => Err e
          | Ok relos =>
              match field_relos relos with
              | [] => Ok (add_row name 0 0 0 "0 field relocations" t)
              | fr =>
                  match relocator 0 blob with
                  | None => Ok (add_row name (len fr) 0 0 "relocator REFUSED" t)
                  | Some dst => check_relocated target local name blob dst fr t
                  end
              end
          end
      | _, _ => Ok (add_row name 0 0 0 "no .BTF/.BTF.ext --- nothing to relocate" t)
      end
  end.

Fixpoint check_objects (target : btf) (t : tally) (objs : list (string * bytes)) : result tally :=
  match objs with
  | [] => Ok t
  | o :: rest => let? t := check_object target t o in check_objects target t rest
  end.

Definition is_fatal (h : string) : bool := str_contains "WRONG" h || str_contains "NOT byte aligned" h.

Definition fatal_row (row : string * string * string) : bool := is_fatal row.2.

Definition exit_code (t : tally) : Z :=
  if negb (mismatch_n t =? 0) || negb (unresolved_n t =? 0) || existsb fatal_row (hazard_rows t)
     || (0 <? len (nondeterministic t))
  then 1 else 0.

Definition relo_main (btf_blob : bytes) (objs : list (string * bytes)) : result (Z * tally) :=
  let? target := parse_btf btf_blob in
  let? t := check_objects target start objs in
  Ok (exit_code t, t).
End main.
