(* ===== verification/ReloSpec.v ===== *)
(** * What the relocation check shows

    A resolved offset is the sum of the offsets of the fields the access spec
    names, looked up by name in the target's types; a path without a fatal hazard
    reads no bitfield a scalar read gets wrong; a clean run means every compared
    relocation agrees.  A program the relocator refuses does not fail the run. *)

From S2P Require Import Prelude Text Relo.

(** ** Reference definition of a path *)

(** Member [want] of a record, anonymous records flattened: its bit offset, type
    and bitfield width. *)
Inductive field_at (b : btf) (want : string) : btf_type -> Z -> Z -> Z -> Prop :=
| fa_here st ms m : members b st = Ok ms -> m ∈ ms -> m_name m = want ->
    field_at b want st (m_bit m) (m_type m) (m_width m)
| fa_anon st ms m sub bit tid w : members b st = Ok ms -> m ∈ ms -> m_name m = "" ->
    strip_type b (m_type m) = Some sub -> is_record sub = true ->
    field_at b want sub bit tid w -> field_at b want st (m_bit m + bit) tid w.

(** The bit offset of a path from a type, and the bit offset and width of every
    field it goes through. *)
Inductive path_at (target local : btf) :
    option btf_type -> option btf_type -> list Z -> Z -> list (Z * Z) -> Prop :=
| pa_end l t : path_at target local l t [] 0 []
| pa_array l l' t idx rest etid esz bits fs :
    t_kind t = K_ARRAY -> unpack_le 4 (types_blob target) (data_off t) = Ok etid ->
    size_of target etid = Ok (Some esz) ->
    path_at target local l' (strip_type target etid) rest bits fs ->
    path_at target local l (Some t) (idx :: rest) (idx * esz * 8 + bits) fs
| pa_field l t idx rest ms lm mbit mtid mw bits fs :
    members local l = Ok ms -> py_index ms idx = Ok lm -> m_name lm <> "" ->
    field_at target (m_name lm) t mbit mtid mw ->
    path_at target local (strip_type local (m_type lm)) (strip_type target mtid) rest bits fs ->
    path_at target local (Some l) (Some t) (idx :: rest) (mbit + bits) ((mbit, mw) :: fs).

(** A field a scalar read gets right. *)
Definition scalar_safe (f : Z * Z) : Prop := f.2 = 0 \/ (f.1 mod 8 = 0 /\ f.2 mod 8 = 0).

(** ** The fuel is enough *)

Lemma unpack_le_fuel n b off : unpack_le n b off <> Err OutOfFuel.
Proof. unfold unpack_le. by repeat case_match. Qed.

(** Follow a chain of reads that cannot run out of fuel. *)
Ltac read_step :=
  match goal with
  | |- context [match unpack_le ?n ?b ?o with _ => _ end] =>
      let E := fresh "E" in
      destruct (unpack_le n b o) eqn:E;
      [|let F := fresh "F" in intros F; injection F as F; apply (unpack_le_fuel n b o); congruence]
  end.

Lemma trailing_nonneg k v : 0 <= v -> 0 <= trailing k v.
Proof. intros. unfold trailing. repeat case_match; lia. Qed.

Lemma index_from_total blob strs fuel : forall off ids names, 0 <= off ->
  len blob - off < 12 * (Z.of_nat fuel + 1) -> index_from fuel blob strs off ids names <> Err OutOfFuel.
Proof.
  induction fuel as [|fuel IH]; intros off ids names Ho Hf; cbn [index_from];
    (destruct (Z.ltb_spec (len blob) (off + 12)); [done|]); [lia|].
  do 3 read_step. case_match; [done|]. apply IH; pose proof (trailing_nonneg
    (Z.land (Z.shiftr a0 24) 0x1F) (Z.land a0 0xFFFF) ltac:(apply Z.land_nonneg; lia)); lia.
Qed.

Lemma parse_btf_total blob : parse_btf blob <> Err OutOfFuel.
Proof.
  unfold parse_btf. case_match; [done|]. do 2 read_step. case_match; [done|]. do 4 read_step. cbv zeta.
  pose proof (index_from_total (slice (a0 + a1) (a0 + a1 + a2) blob)
    (slice (a0 + a3) (a0 + a3 + a4) blob) (length (slice (a0 + a1) (a0 + a1 + a2) blob)) 0 [] ∅) as H1.
  destruct (index_from _ _ _ _ _ _) as [[? ?]|e]; [done|]. intros [= ->]. apply H1; unfold len; lia || done.
Qed.

Lemma relo_infos_forward ext b sec rec_size e n : forall p out p' out', 0 <= rec_size ->
  relo_infos n ext b sec rec_size p e out = Ok (p', out') -> p <= p'.
Proof.
  induction n as [|n IH]; intros p out p' out' Hr; cbn [relo_infos]; [intros [= <- <-]; lia|].
  case_match; [intros [= <- <-]; lia|].
  destruct (unpack_le 4 ext p); [|done]. destruct (unpack_le 4 ext (p + 4)); [|done].
  destruct (unpack_le 4 ext (p + 8)); [|done]. destruct (unpack_le 4 ext (p + 12)); [|done].
  intros Hx%IH; lia.
Qed.

Lemma relo_infos_fuel ext b sec rec_size e n : forall p out,
  relo_infos n ext b sec rec_size p e out <> Err OutOfFuel.
Proof.
  induction n as [|n IH]; intros p out; cbn [relo_infos]; [done|]. case_match; [done|]. do 4 read_step.
  apply IH.
Qed.

Lemma relo_groups_total ext b rec_size e fuel : 0 <= rec_size -> forall p out, 0 <= p ->
  (1 <= fuel)%nat -> len ext - p < 8 * Z.of_nat fuel ->
  relo_groups fuel ext b rec_size p e out <> Err OutOfFuel.
Proof.
  intros Hr. induction fuel as [|fuel IH]; intros p out Hp Hf1 Hf; cbn [relo_groups]; [lia|].
  case_match; [done|]. do 2 read_step.
  assert (p + 8 <= len ext) as Hl by (apply unpack_le_ok in E0 as [? _]; lia).
  destruct (relo_infos _ _ _ _ _ _ _ _) as [[p' out']|x] eqn:Hi.
  - apply relo_infos_forward in Hi; [|done]. apply IH; lia.
  - intros [= ->]. by apply relo_infos_fuel in Hi.
Qed.

Lemma core_relos_total ext b : is_bytes ext -> core_relos ext b <> Err OutOfFuel.
Proof.
  intros Hb. unfold core_relos. destruct (Z.ltb_spec (len ext) 24); [done|]. do 2 read_step.
  case_match; [done|]. case_match; [done|]. do 2 read_step. case_match; [done|]. cbv zeta. read_step.
  pose proof (unpack_le_nonneg _ _ _ _ Hb E0). pose proof (unpack_le_nonneg _ _ _ _ Hb E1).
  pose proof (unpack_le_nonneg _ _ _ _ Hb E3).
  apply relo_groups_total; unfold len in *; lia.
Qed.

(** ** Hazard texts *)

Lemma str_contains_app sub a t : str_contains sub t = true -> str_contains sub (String.append a t) = true.
Proof.
  intros H. induction a as [|c a IH]; [done|].
  change (String.append (String c a) t) with (String c (String.append a t)). cbn [str_contains].
  by rewrite IH, orb_true_r.
Qed.

Lemma cat_contains sub l x : last l = Some x -> str_contains sub x = true -> str_contains sub (cat l) = true.
Proof.
  unfold cat. intros Hl Hs. induction l as [|y l IH]; [done|].
  destruct l as [|z l]; [injection Hl as ->; exact Hs|].
  change (String.concat "" (y :: z :: l)) with (String.append y (String.append "" (String.concat "" (z :: l)))).
  apply str_contains_app, str_contains_app. by apply IH.
Qed.

Lemma bitfield_hazard_fatal path bit w : is_fatal (bitfield_hazard path bit w) = false ->
  bit mod 8 = 0 /\ w mod 8 = 0.
Proof.
  unfold bitfield_hazard, is_fatal. cbv zeta. intros H.
  destruct (Z.eqb_spec (bit mod 8) 0) as [Hb|Hb]; cbn [negb] in H; cycle 1.
  { erewrite (cat_contains "NOT byte aligned") in H;
      [by rewrite orb_true_r in H|reflexivity|reflexivity]. }
  split; [done|]. destruct (Z.eqb_spec (w mod 8) 0) as [Hw|Hw]; [done|]. cbn [negb] in H.
  erewrite (cat_contains "WRONG") in H; [done|reflexivity|reflexivity].
Qed.

(** ** Resolution *)

Lemma find_member_sound b want fuel : forall st ms bit tid w, members b st = Ok ms ->
  forall ms', (forall m, m ∈ ms' -> m ∈ ms) ->
  find_member fuel b want ms' = Ok (Some (bit, tid, w)) -> field_at b want st bit tid w.
Proof.
  induction fuel as [|fuel IH]; intros st ms bit tid w Hms ms' Hin; [done|]. cbn [find_member].
  induction ms' as [|m ms' IHm]; [done|].
  assert (m ∈ ms) as Hm by (apply Hin; left).
  assert (forall m0, m0 ∈ ms' -> m0 ∈ ms) as Hin' by (intros; apply Hin; by right).
  destruct (String.eqb_spec (m_name m) want) as [Hn|_].
  { intros [= <- <- <-]. by eapply fa_here. }
  destruct (String.eqb_spec (m_name m) "") as [Hn|_]; [|by apply IHm].
  destruct (strip_type b (m_type m)) as [sub|] eqn:Hs; [|by apply IHm].
  destruct (is_record sub) eqn:Hr; [|by apply IHm].
  destruct (members b sub) as [sms|] eqn:Hsm; [|done].
  destruct (find_member fuel b want sms) as [[[[bit' tid'] w']|]|] eqn:Hf; [| |done]; [|by apply IHm].
  intros [= <- <- <-]. eapply fa_anon; try done. by eapply IH.
Qed.

Lemma member_by_name_sound b st want bit tid w :
  member_by_name b st want = Ok (Some (bit, tid, w)) -> field_at b want st bit tid w.
Proof.
  unfold member_by_name. destruct (members b st) as [ms|] eqn:Hms; [|done].
  intros H. by eapply (find_member_sound b want RECURSION st ms).
Qed.

Lemma walk_sound target local parts : forall bit l t path hz off hz',
  walk target local parts bit l t path hz = Ok (Some off, hz') ->
  exists bits fs hz2, path_at target local l t parts bits fs /\ 8 * off = bit + bits /\
    hz' = hz ++ hz2 /\ (existsb is_fatal hz2 = false -> Forall scalar_safe fs).
Proof.
  induction parts as [|idx parts IH]; intros bit l t path hz off hz'; cbn [walk].
  { destruct (Z.eqb_spec (bit mod 8) 0) as [Hb|]; [|done]. intros [= <- <-].
    exists 0, [], []. split_and!; [constructor|..]; [|by rewrite app_nil_r|done].
    pose proof (Z_div_mod_eq_full bit 8). lia. }
  destruct (match t with Some t0 => _ | None => None end) as [ta|] eqn:Hta.
  - assert (t = Some ta /\ t_kind ta = K_ARRAY) as [-> Hk].
    { destruct t as [t0|]; [|done]. destruct (Z.eqb_spec (t_kind t0) K_ARRAY); [|done]. by simplify_eq. }
    destruct (unpack_le 4 (types_blob target) (data_off ta)) as [etid|] eqn:He; [|done].
    destruct (size_of target etid) as [[esz|]|] eqn:Hsz; [| |done]; [|done].
    destruct (match l with Some l0 => _ | None => Ok None end) as [l'|]; [|done].
    intros (bits & fs & hz2 & Hp & Hoff & -> & Hsafe)%IH.
    exists (idx * esz * 8 + bits), fs, hz2. split_and!; [by eapply pa_array|lia|done|done].
  - destruct l as [l0|]; [|done]. destruct (is_record l0); cbn [negb]; [|done].
    destruct (members local l0) as [lms|] eqn:Hlm; [|done]. destruct (len lms <=? idx); [done|].
    destruct (py_index lms idx) as [lm|] eqn:Hix; [|done].
    destruct (String.eqb_spec (m_name lm) "") as [|Hne]; [done|].
    destruct t as [t0|]; [|done]. destruct (is_record t0); cbn [negb]; [|done].
    destruct (member_by_name target t0 (m_name lm)) as [[[[mbit mtid] mw]|]|] eqn:Hm; [| |done]; [|done].
    apply member_by_name_sound in Hm.
    intros (bits & fs & hz2 & Hp & Hoff & -> & Hsafe)%IH.
    set (h := if mw =? 0 then [] else [bitfield_hazard (path ++ [m_name lm]) mbit mw]).
    exists (mbit + bits), ((mbit, mw) :: fs), (h ++ hz2).
    split_and!; [by eapply pa_field|lia| |].
    + unfold h. destruct (mw =? 0); [done|]. by rewrite app_assoc.
    + rewrite existsb_app. intros [Hh Hr]%orb_false_iff. constructor; [|by apply Hsafe].
      unfold scalar_safe. cbn [fst snd]. unfold h in Hh. destruct (Z.eqb_spec mw 0); [by left|right].
      cbn [existsb] in Hh. rewrite orb_false_r in Hh. by apply bitfield_hazard_fatal in Hh.
Qed.

(** A resolved relocation is right by name.  The byte offset [resolve]
    returns is the offset of the path in the target's own types that follows the
    names the program's own declaration gives the access spec, plus whole strides
    for a leading array index; and when none of its hazards is fatal, every field
    on the path is a plain member or a bitfield of whole bytes on a byte boundary. *)
Theorem resolve_by_name target local tid spec off hazards :
  resolve target local tid spec = Ok (Some off, hazards) ->
  exists lt t first rest bits fs stride,
    strip_type local tid = Some lt /\ find_struct target (t_name lt) = Some t /\
    spec_ints (split_colons (str_list spec) []) = Ok (first :: rest) /\
    (first = 0 \/ size_of target (t_id t) = Ok (Some stride)) /\
    path_at target local (Some lt) (Some t) rest bits fs /\
    8 * off = first * stride * 8 + bits /\
    (existsb is_fatal hazards = false -> Forall scalar_safe fs).
Proof.
  unfold resolve. destruct (strip_type local tid) as [lt|] eqn:Hlt; [|done].
  destruct (String.eqb (t_name lt) ""); [done|].
  destruct (find_struct target (t_name lt)) as [t|] eqn:Ht; [|done].
  destruct (spec_ints _) as [[|first rest]|]; [done| |done].
  destruct (Z.eqb_spec first 0) as [->|Hf].
  - intros (bits & fs & hz2 & Hp & Hoff & -> & Hs)%walk_sound.
    exists lt, t, 0, rest, bits, fs, 0. split_and!; try done; by left.
  - destruct (size_of target (t_id t)) as [[esz|]|] eqn:Hsz; [| |done]; [|done].
    intros (bits & fs & hz2 & Hp & Hoff & -> & Hs)%walk_sound.
    exists lt, t, first, rest, bits, fs, esz. split_and!; try done; [by right|].
    rewrite existsb_app. intros H. apply orb_false_iff in H as [_ H]. auto.
Qed.

Definition demo_target_btf : bytes :=
  [159; 235; 1; 0; 24; 0; 0; 0; 0; 0; 0; 0; 52; 0; 0; 0; 52; 0; 0; 0; 17; 0; 0; 0; 1; 0; 0; 0; 0;
  0; 0; 1; 4; 0; 0; 0; 32; 0; 0; 0; 5; 0; 0; 0; 2; 0; 0; 4; 8; 0; 0; 0; 7; 0; 0; 0; 1; 0; 0; 0; 0;
  0; 0; 0; 9; 0; 0; 0; 1; 0; 0; 0; 32; 0; 0; 0; 0; 105; 110; 116; 0; 115; 0; 97; 0; 98; 0; 112; 0;
  48; 58; 48; 0].
Definition demo_object : bytes :=
  [127; 69; 76; 70; 2; 1; 0; 0; 0; 0; 0; 0; 0; 0; 0; 0; 0; 0; 0; 0; 0; 0; 0; 0; 0; 0; 0; 0; 0; 0;
  0; 0; 0; 0; 0; 0; 0; 0; 0; 0; 240; 0; 0; 0; 0; 0; 0; 0; 0; 0; 0; 0; 0; 0; 0; 0; 0; 0; 64; 0; 5;
  0; 4; 0; 183; 0; 0; 0; 4; 0; 0; 0; 159; 235; 1; 0; 24; 0; 0; 0; 0; 0; 0; 0; 40; 0; 0; 0; 40; 0;
  0; 0; 17; 0; 0; 0; 1; 0; 0; 0; 0; 0; 0; 1; 4; 0; 0; 0; 32; 0; 0; 0; 5; 0; 0; 0; 1; 0; 0; 4; 8;
  0; 0; 0; 9; 0; 0; 0; 1; 0; 0; 0; 0; 0; 0; 0; 0; 105; 110; 116; 0; 115; 0; 97; 0; 98; 0; 112; 0;
  48; 58; 48; 0; 159; 235; 1; 0; 32; 0; 0; 0; 0; 0; 0; 0; 0; 0; 0; 0; 0; 0; 0; 0; 0; 0; 0; 0; 0;
  0; 0; 0; 28; 0; 0; 0; 16; 0; 0; 0; 11; 0; 0; 0; 1; 0; 0; 0; 0; 0; 0; 0; 2; 0; 0; 0; 13; 0; 0; 0;
  0; 0; 0; 0; 0; 112; 0; 46; 66; 84; 70; 0; 46; 66; 84; 70; 46; 101; 120; 116; 0; 46; 115; 104;
  115; 116; 114; 116; 97; 98; 0; 0; 0; 0; 0; 0; 0; 0; 0; 0; 0; 0; 0; 0; 0; 0; 0; 0; 0; 0; 0; 0; 0;
  0; 0; 0; 0; 0; 0; 0; 0; 0; 0; 0; 0; 0; 0; 0; 0; 0; 0; 0; 0; 0; 0; 0; 0; 0; 0; 0; 0; 0; 0; 0; 0;
  0; 0; 0; 0; 0; 0; 0; 0; 0; 0; 1; 0; 0; 0; 1; 0; 0; 0; 0; 0; 0; 0; 0; 0; 0; 0; 0; 0; 0; 0; 0; 0;
  0; 0; 64; 0; 0; 0; 0; 0; 0; 0; 8; 0; 0; 0; 0; 0; 0; 0; 0; 0; 0; 0; 0; 0; 0; 0; 1; 0; 0; 0; 0; 0;
  0; 0; 0; 0; 0; 0; 0; 0; 0; 0; 3; 0; 0; 0; 1; 0; 0; 0; 0; 0; 0; 0; 0; 0; 0; 0; 0; 0; 0; 0; 0; 0;
  0; 0; 72; 0; 0; 0; 0; 0; 0; 0; 81; 0; 0; 0; 0; 0; 0; 0; 0; 0; 0; 0; 0; 0; 0; 0; 1; 0; 0; 0; 0;
  0; 0; 0; 0; 0; 0; 0; 0; 0; 0; 0; 8; 0; 0; 0; 1; 0; 0; 0; 0; 0; 0; 0; 0; 0; 0; 0; 0; 0; 0; 0; 0;
  0; 0; 0; 153; 0; 0; 0; 0; 0; 0; 0; 60; 0; 0; 0; 0; 0; 0; 0; 0; 0; 0; 0; 0; 0; 0; 0; 1; 0; 0; 0;
  0; 0; 0; 0; 0; 0; 0; 0; 0; 0; 0; 0; 17; 0; 0; 0; 1; 0; 0; 0; 0; 0; 0; 0; 0; 0; 0; 0; 0; 0; 0; 0;
  0; 0; 0; 0; 213; 0; 0; 0; 0; 0; 0; 0; 27; 0; 0; 0; 0; 0; 0; 0; 0; 0; 0; 0; 0; 0; 0; 0; 1; 0; 0;
  0; 0; 0; 0; 0; 0; 0; 0; 0; 0; 0; 0; 0].

(** The demonstration object and target, parsed. *)
Definition demo_target : btf := match parse_btf demo_target_btf with Ok b => b | Err _ => Btf [] [] [] ∅ end.
Definition demo_local : btf :=
  match elf_sections demo_object with
  | Ok secs => match secs !! ".BTF" with
               | Some (_, _, d) => match parse_btf d with Ok b => b | Err _ => Btf [] [] [] ∅ end
               | None => Btf [] [] [] ∅
               end
  | Err _ => Btf [] [] [] ∅
  end.

Lemma resolve_by_name_witness :
  resolve demo_target demo_local 2 "0:0" = Ok (Some 4, []) /\
  exists lt t bits fs, strip_type demo_local 2 = Some lt /\
    path_at demo_target demo_local (Some lt) (Some t) [0] bits fs /\ bits = 32.
Proof.
  assert (resolve demo_target demo_local 2 "0:0" = Ok (Some 4, [])) as H by (vm_compute; reflexivity).
  split; [exact H|].
  destruct (resolve_by_name _ _ _ _ _ _ H)
    as (lt & t & first & rest & bits & fs & stride & Hl & _ & Hs & _ & Hp & Hb & _).
  vm_compute in Hs. injection Hs as <- <-. exists lt, t, bits, fs. split_and!; [done|done|lia].
Defined.


(** ** Runs *)

Definition sane (t : tally) : Prop := 0 <= mismatch_n t /\ 0 <= unresolved_n t.
Definition clean (t : tally) : Prop :=
  mismatch_n t = 0 /\ unresolved_n t = 0 /\ existsb fatal_row (hazard_rows t) = false /\
  nondeterministic t = [].

Lemma exit_code_clean t : exit_code t = 0 <-> clean t.
Proof.
  unfold exit_code, clean. destruct (Z.eqb_spec (mismatch_n t) 0), (Z.eqb_spec (unresolved_n t) 0),
    (existsb fatal_row (hazard_rows t)), (nondeterministic t) as [|x l]; cbn [negb orb]; try naive_solver.
Qed.

Lemma fatal_rows (at_ : string * string) hz : existsb fatal_row (map (pair at_) hz) = existsb is_fatal hz.
Proof. induction hz as [|h hz IH]; [done|]. cbn. by rewrite IH. Qed.

(** The relocation resolves without a fatal hazard, to the immediate written. *)
Definition agrees (target local : btf) (baked : gmap (string * Z) (option Z)) (r : relo) : Prop :=
  exists off hz, resolve target local (r_type r) (r_access r) = Ok (Some off, hz) /\
    existsb is_fatal hz = false /\ default None (baked !! (r_sec r, r_insn r)) = Some off.

Lemma compare_relo_clean name target local baked t r t' : sane t ->
  compare_relo name target local baked t r = Ok t' ->
  sane t' /\ (clean t' -> clean t /\ agrees target local baked r).
Proof.
  intros [Hm Hu]. unfold compare_relo. destruct (resolve _ _ _ _) as [[want hz]|] eqn:Hr; [|done].
  cbv zeta. unfold clean, sane, agrees.
  destruct want as [w|]; [destruct (default None _) as [g|] eqn:Hg; [destruct (Z.eqb_spec w g) as [->|]|]|];
    intros [= <-]; cbn [mismatch_n unresolved_n hazard_rows nondeterministic];
    (split; [lia|]); intros (Hm0 & Hu0 & Hf & Hn); try lia.
  rewrite existsb_app in Hf. rewrite fatal_rows in Hf.
  apply orb_false_iff in Hf as [Hf1 Hf2]. split; [done|]. by exists g, hz.
Qed.

Lemma compare_all_clean name target local baked relos : forall t t', sane t ->
  compare_all name target local baked t relos = Ok t' ->
  sane t' /\ (clean t' -> clean t /\ Forall (agrees target local baked) relos).
Proof.
  induction relos as [|r relos IH]; intros t t' Hs; cbn [compare_all].
  { intros [= <-]. done. }
  destruct (compare_relo _ _ _ _ _ _) as [t1|] eqn:H1; [|done]. intros H2.
  destruct (compare_relo_clean _ _ _ _ _ _ _ Hs H1) as [Hs1 Hc1].
  destruct (IH _ _ Hs1 H2) as [Hs2 Hc2]. split; [done|]. intros Hc.
  destruct (Hc2 Hc) as [Hc' Hall]. destruct (Hc1 Hc'). split; [done|]. by constructor.
Qed.

Lemma baked_lookup secs relos : forall out m, baked_immediates secs relos out = Ok m ->
  forall k i, m !! k = Some i ->
  out !! k = Some i \/ exists r, r ∈ relos /\ (r_sec r, r_insn r) = k /\ baked_imm secs r = Ok i.
Proof.
  induction relos as [|r relos IH]; intros out m; cbn [baked_immediates].
  { intros [= <-]. by left. }
  destruct (baked_imm secs r) as [i0|] eqn:Hb; [|done]. intros H k i Hk.
  destruct (IH _ _ H k i Hk) as [Ho|(r' & Hr' & He & Hb')].
  - apply lookup_insert_Some in Ho as [[<- <-]|[_ Ho]]; [right|by left].
    exists r. by split; [left|].
  - right. exists r'. by split; [right|].
Qed.

(** Two records of one instruction read the same immediate. *)
Lemma agrees_baked target local secs relos baked r : baked_immediates secs relos ∅ = Ok baked ->
  agrees target local baked r ->
  exists off hz, resolve target local (r_type r) (r_access r) = Ok (Some off, hz) /\
    existsb is_fatal hz = false /\ baked_imm secs r = Ok (Some off).
Proof.
  intros Hb (off & hz & Hr & Hf & Hg). exists off, hz. split_and!; [done|done|].
  destruct (baked !! (r_sec r, r_insn r)) as [i|] eqn:Hi; [|done]. cbn in Hg. subst.
  destruct (baked_lookup _ _ _ _ Hb _ _ Hi) as [He|(r' & _ & [= Hs Hn] & Hb')]; [done|].
  unfold baked_imm in *. by rewrite Hs, Hn in Hb'.
Qed.

Section runs.
Variable relocator : nat -> bytes -> option bytes.

(** What a clean run establishes of one object: if its field relocations were
    read and the relocator produced an object, it did so reproducibly and every
    field relocation agrees with the immediate in that object. *)
Definition verified (target : btf) (blob : bytes) : Prop :=
  forall secs o1 s1 d1 o2 s2 d2 local relos dst,
    elf_sections blob = Ok secs -> secs !! ".BTF" = Some (o1, s1, d1) ->
    secs !! ".BTF.ext" = Some (o2, s2, d2) -> parse_btf d1 = Ok local ->
    core_relos d2 local = Ok relos -> relocator 0 blob = Some dst -> field_relos relos <> [] ->
    relocator 1 blob = Some dst /\
    exists dsecs, elf_sections dst = Ok dsecs /\
      forall r, r ∈ field_relos relos -> exists off hz,
        resolve target local (r_type r) (r_access r) = Ok (Some off, hz) /\
        existsb is_fatal hz = false /\ baked_imm dsecs r = Ok (Some off).

Lemma check_relocated_clean target local name blob dst relos t t' : sane t ->
  check_relocated relocator target local name blob dst relos t = Ok t' ->
  sane t' /\ (clean t' -> clean t /\ relocator 1 blob = Some dst /\
    exists dsecs, elf_sections dst = Ok dsecs /\
      forall r, r ∈ relos -> exists off hz,
        resolve target local (r_type r) (r_access r) = Ok (Some off, hz) /\
        existsb is_fatal hz = false /\ baked_imm dsecs r = Ok (Some off)).
Proof.
  intros Hs. unfold check_relocated. cbv zeta. set (t0 := check_same relocator name blob dst t).
  assert (sane t0 /\ (clean t0 -> clean t /\ relocator 1 blob = Some dst)) as [Hs0 Hc0].
  { unfold t0, check_same. destruct (relocator 1 blob) as [dst2|]; cycle 1.
    - split; [done|]. intros (_ & _ & _ & Hn). cbn in Hn. by destruct (nondeterministic t).
    - destruct (bytes_eqb dst dst2) eqn:E; [apply bytes_eqb_eq in E as ->; done|].
      split; [done|]. intros (_ & _ & _ & Hn). cbn in Hn. by destruct (nondeterministic t). }
  destruct (elf_sections dst) as [dsecs|]; [|done].
  destruct (baked_immediates dsecs relos ∅) as [baked|] eqn:Hb; [|done].
  destruct (compare_all _ _ _ _ t0 relos) as [t1|] eqn:Hc; [|done]. intros [= <-].
  destruct (compare_all_clean _ _ _ _ _ _ _ Hs0 Hc) as [Hs1 Hc1]. split; [done|].
  intros Hcl. destruct (Hc1 Hcl) as [Hcl0 Hall]. destruct (Hc0 Hcl0). split_and!; [done|done|].
  exists dsecs. split; [done|]. intros r Hr. rewrite Forall_forall in Hall.
  by eapply agrees_baked; [|apply Hall].
Qed.

Lemma check_object_clean target t name blob t' : sane t ->
  check_object relocator target t (name, blob) = Ok t' ->
  sane t' /\ (clean t' -> clean t /\ verified target blob).
Proof.
  intros Hs. unfold check_object, verified.
  destruct (elf_sections blob) as [secs|e]; cycle 1.
  { destruct e; try done; (intros [= <-]; split; [done|]; intros Hc; split; [done|by intros]). }
  destruct (secs !! ".BTF") as [[[o1 s1] d1]|] eqn:E1; cycle 1.
  { intros [= <-]. split; [done|]. intros Hc. split; [done|]. intros; simplify_eq; congruence. }
  destruct (secs !! ".BTF.ext") as [[[o2 s2] d2]|] eqn:E2; cycle 1.
  { intros [= <-]. split; [done|]. intros Hc. split; [done|]. intros; simplify_eq; congruence. }
  destruct (parse_btf d1) as [local|] eqn:Ep; [|done].
  destruct (core_relos d2 local) as [relos|e] eqn:Er; cycle 1.
  { destruct e; try done; (intros [= <-]; split; [done|]; intros Hc; split; [done|]; intros;
      simplify_eq; congruence). }
  destruct (field_relos relos) as [|r0 rs] eqn:Ef.
  { intros [= <-]. split; [done|]. intros Hc. split; [done|]. intros; simplify_eq; congruence. }
  destruct (relocator 0 blob) as [dst|] eqn:Ed; cycle 1.
  { intros [= <-]. split; [done|]. intros Hc. split; [done|]. intros; simplify_eq; congruence. }
  intros H. destruct (check_relocated_clean _ _ _ _ _ _ _ _ Hs H) as [Hs' Hc']. split; [done|].
  intros Hc. destruct (Hc' Hc) as (Hct & H1 & dsecs & Hd & Hall). split; [done|].
  intros secs' ? ? d1' ? ? d2' local' relos' dst' [= <-] [= <- <- <-]%(eq_trans (eq_sym E1))
    [= <- <- <-]%(eq_trans (eq_sym E2)) [= <-]%(eq_trans (eq_sym Ep)) [= <-]%(eq_trans (eq_sym Er))
    [= <-] _. rewrite Ef. eauto.
Qed.

Lemma check_objects_clean target objs : forall t t', sane t ->
  check_objects relocator target t objs = Ok t' ->
  sane t' /\ (clean t' -> clean t /\ Forall (fun o => verified target o.2) objs).
Proof.
  induction objs as [|[name blob] objs IH]; intros t t' Hs; cbn [check_objects].
  { intros [= <-]. done. }
  destruct (check_object _ _ _ _) as [t1|] eqn:H1; [|done]. intros H2.
  destruct (check_object_clean _ _ _ _ _ Hs H1) as [Hs1 Hc1].
  destruct (IH _ _ Hs1 H2) as [Hs2 Hc2]. split; [done|]. intros Hc.
  destruct (Hc2 Hc) as [Hc' Hall]. destruct (Hc1 Hc'). split; [done|]. by constructor.
Qed.
End runs.

(** C19: exit status 0 means agreement.  If the check exits 0, then for every
    object whose field relocations were read and that the relocator accepted, the
    relocator is reproducible on it and every field relocation resolves, without
    a fatal hazard, to exactly the immediate it wrote. *)
Theorem clean_run_agrees relocator btf_blob objs t :
  relo_main relocator btf_blob objs = Ok (0, t) ->
  exists target, parse_btf btf_blob = Ok target /\
    Forall (fun o => verified relocator target o.2) objs.
Proof.
  unfold relo_main. destruct (parse_btf btf_blob) as [target|]; [|done].
  destruct (check_objects _ _ _ _) as [t1|] eqn:Hc; [|done]. intros [= H <-].
  exists target. split; [done|].
  destruct (check_objects_clean relocator target objs start t1) as [_ Hall]; [done|done|].
  by apply Hall, exit_code_clean.
Qed.

(** A refusal is not a failure.  A relocator that refuses every object makes
    the check exit 0 with nothing compared, however many field relocations the
    objects carry: status 0 does not say that every relocation was checked. *)
Theorem refused_objects_pass relocator btf_blob objs code t :
  (forall blob, relocator 0%nat blob = None) ->
  relo_main relocator btf_blob objs = Ok (code, t) -> code = 0 /\ checked_n t = 0.
Proof.
  intros Hno. unfold relo_main. destruct (parse_btf btf_blob) as [target|]; [|done].
  assert (forall t t', clean t -> checked_n t = 0 -> check_objects relocator target t objs = Ok t' ->
    clean t' /\ checked_n t' = 0) as Hall.
  { induction objs as [|[name blob] objs IH]; intros t0 t' Hc Hn; cbn [check_objects].
    { by intros [= <-]. }
    destruct (check_object _ _ _ _) as [t1|] eqn:H1; [|done]. apply IH; unfold check_object in H1;
      rewrite Hno in H1; repeat (case_match; try done); by simplify_eq. }
  destruct (check_objects _ _ _ _) as [t1|] eqn:Hc; [|done]. intros [= <- <-].
  destruct (Hall start t1) as [Hcl Hn]; [done|done|done|]. by rewrite (proj2 (exit_code_clean t1) Hcl).
Qed.

Lemma clean_run_agrees_witness :
  is_ok (relo_main (fun _ b => Some b) demo_target_btf [("p", demo_object)]) = true /\
  exists target, parse_btf demo_target_btf = Ok target /\
    Forall (fun o => verified (fun _ b => Some b) target o.2) [("p", demo_object)].
Proof.
  split; [vm_compute; reflexivity|].
  eapply (clean_run_agrees (fun _ b => Some b) demo_target_btf [("p", demo_object)]
    (match relo_main (fun _ b => Some b) demo_target_btf [("p", demo_object)] with
     | Ok (_, t) => t | Err _ => start end)).
  vm_compute. reflexivity.
Defined.

Lemma refused_objects_pass_witness :
  (exists t, relo_main (fun _ _ => None) demo_target_btf [("p", demo_object)] = Ok (0, t) /\
     checked_n t = 0) /\
  (exists t, relo_main (fun _ b => Some b) demo_target_btf [("p", demo_object)] = Ok (0, t) /\
     checked_n t = 1).
Proof.
  split; [|eexists; split; vm_compute; reflexivity].
  destruct (relo_main (fun _ _ => None) demo_target_btf [("p", demo_object)]) as [[c t]|] eqn:E;
    [|vm_compute in E; discriminate].
  destruct (refused_objects_pass (fun _ _ => None) demo_target_btf [("p", demo_object)] c t
    (fun _ => eq_refl) E) as [-> H]. exists t. split; [reflexivity|exact H].
Defined.
