(* ===== verification/Target.v ===== *)
(** * Attachment targets (substrate/ls_buildid.py, bind_target.py)

    The build-id reader, the section table of a program object, the resolution of
    a hook against the hook index and the target binary, and the target record with
    the check that a copied object still holds it.  A file is its bytes; the index
    is its text. *)

From S2P Require Import Prelude Text.

(** ** [ls_buildid] *)

(** [_read] of a file: the bytes at an offset, all of them. *)
Definition read_at (f : bytes) (off size : Z) : result bytes :=
  if (SSIZE_MAX <? off) || (SSIZE_MAX <? size) then Err OverflowError else
  let b := slice off (off + size) f in
  raise_if (negb (len b =? size)) (ValueError "short read") ;; Ok b.

Definition GNU : bytes := [0x47; 0x4e; 0x55; 0].
Definition note_header (ds : Z) : bytes := le_bytes 4 4 ++ le_bytes 4 ds ++ le_bytes 4 3 ++ GNU.

Fixpoint parse_note_from (sizes : list Z) (n : bytes) : option bytes :=
  match sizes with
  | [] => None
  | ds :: rest =>
      let i := py_find (note_header ds) n 0 in
      if (0 <=? i) && (i + 16 + ds <=? len n) then Some (slice (i + 16) (i + 16 + ds) n)
      else parse_note_from rest n
  end.
Definition parse_note (n : bytes) : option bytes := parse_note_from [20; 16; 8] n.

Definition BUILD_ID_SECTION : bytes := encode ".note.gnu.build-id".

(** The loop over the section headers. *)
Fixpoint section_id (f strs : bytes) (shoff shes : Z) (idx : list Z) : result (option string) :=
  match idx with
  | [] => Ok None
  | i :: rest =>
      let? sh := read_at f (shoff + i * shes) shes in
      let? nmoff := unpack_le 4 sh 0 in
      let e := py_find [0] strs nmoff in
      if negb (bytes_eqb (pyslice nmoff e strs) BUILD_ID_SECTION)
      then section_id f strs shoff shes rest else
      let? off := unpack_le 8 sh 0x18 in
      let? sz := unpack_le 8 sh 0x20 in
      let? note := read_at f off sz in
      match parse_note note with
      | Some got => Ok (Some (hex got))
      | None => section_id f strs shoff shes rest
      end
  end.

Definition span_le (a b : Z * Z) : Prop := a.1 < b.1 \/ (a.1 = b.1 /\ a.2 <= b.2).
#[export] Instance span_le_dec a b : Decision (span_le a b).
Proof. unfold span_le. apply _. Defined.

(** The note segments, in file order of the program headers. *)
Fixpoint note_spans (f : bytes) (phoff pes : Z) (idx : list Z) : result (list (Z * Z)) :=
  match idx with
  | [] => Ok []
  | i :: rest =>
      let? ph := read_at f (phoff + i * pes) pes in
      let? typ := unpack_le 4 ph 0 in
      if negb (typ =? 4) then note_spans f phoff pes rest else
      let? off := unpack_le 8 ph 0x08 in
      let? sz := unpack_le 8 ph 0x20 in
      let? spans := note_spans f phoff pes rest in
      Ok ((off, sz) :: spans)
  end.

(** Adjacent spans are joined; [merged] is kept last first. *)
Fixpoint merge_spans (merged spans : list (Z * Z)) : list (Z * Z) :=
  match spans with
  | [] => reverse merged
  | (off, sz) :: rest =>
      match merged with
      | (o, s) :: m => if o + s =? off then merge_spans ((o, s + sz) :: m) rest
                       else merge_spans ((off, sz) :: merged) rest
      | [] => merge_spans [(off, sz)] rest
      end
  end.

Fixpoint span_id (f : bytes) (spans : list (Z * Z)) : result (option string) :=
  match spans with
  | [] => Ok None
  | (off, sz) :: rest =>
      let? note := read_at f off sz in
      match parse_note note with
      | Some got => Ok (Some (hex got))
      | None => span_id f rest
      end
  end.

Definition build_id (f : bytes) : result string :=
  let? e := read_at f 0 64 in
  raise_if (negb (bytes_eqb (ztake 4 e) [0x7f; 0x45; 0x4c; 0x46])) (ValueError "not an ELF file") ;;
  let? class_ := at_index e 4 in
  raise_if (negb (class_ =? 2)) (ValueError "not 64-bit ELF") ;;
  let? shoff := unpack_le 8 e 0x28 in
  let? shes := unpack_le 2 e 0x3a in
  let? shn := unpack_le 2 e 0x3c in
  let? shstrndx := unpack_le 2 e 0x3e in
  let? by_section :=
    (if negb (shoff =? 0) && negb (shn =? 0) && (shstrndx <? shn) then
       let? sh := read_at f (shoff + shstrndx * shes) shes in
       let? stroff := unpack_le 8 sh 0x18 in
       let? strsz := unpack_le 8 sh 0x20 in
       let? strs := read_at f stroff strsz in
       section_id f strs shoff shes (range shn)
     else Ok None) in
  match by_section with
  | Some id => Ok id
  | None =>
      let? phoff := unpack_le 8 e 0x20 in
      let? pes := unpack_le 2 e 0x36 in
      let? pn := unpack_le 2 e 0x38 in
      let? spans := note_spans f phoff pes (range pn) in
      let? found := span_id f (merge_spans [] (merge_sort span_le spans)) in
      match found with
      | Some id => Ok id
      | None => Err (ValueError "no NT_GNU_BUILD_ID")
      end
  end.

(** ** Sections of a program object *)

Record sec := Sec { s_name : string; s_off : Z; s_size : Z }.

Definition read_sec (blob names : bytes) (o : Z) : result sec :=
  let? nm := unpack_le 4 blob o in
  let? off := unpack_le 8 blob (o + 24) in
  let? size := unpack_le 8 blob (o + 32) in
  let e := py_find [0] names nm in
  raise_if (e <? 0) (ValueError "unterminated section name") ;;
  raise_if (negb (forallb (fun c => c <? 128) (slice nm e names))) UnicodeError ;;
  Ok (Sec (decode_ascii (slice nm e names)) off size).

Definition sections (blob : bytes) : result (list sec) :=
  raise_if ((len blob <? 64) || negb (bytes_eqb (ztake 6 blob) [0x7f; 0x45; 0x4c; 0x46; 2; 1]))
    (ValueError "expected little-endian ELF64") ;;
  let? off := unpack_le 8 blob 40 in
  let? size := unpack_le 2 blob 58 in
  let? count := unpack_le 2 blob 60 in
  let? strings := unpack_le 2 blob 62 in
  raise_if (negb (size =? 64) || (count =? 0) || (count <=? strings) || (len blob <? off + size * count))
    (ValueError "invalid ELF section table") ;;
  let? stroff := unpack_le 8 blob (off + strings * size + 24) in
  let? strsize := unpack_le 8 blob (off + strings * size + 32) in
  raise_if (len blob <? stroff + strsize) (ValueError "truncated section names") ;;
  mapM_r (fun i => read_sec blob (slice stroff (stroff + strsize) blob) (off + i * size)) (range count).

Definition is_entry (n : string) : bool := starts_with "fentry/" n || starts_with "fexit/" n.

Definition program_section (blob : bytes) : result string :=
  let? ss := sections blob in
  match List.filter is_entry (map s_name ss) with
  | [n] => Ok n
  | _ => Err (ValueError "expected exactly one fentry/ or fexit/ section")
  end.

(** ** [resolve] *)

(** One line of the hook index: a header, a row of the hook, or neither. *)
Definition index_line (hook : string) (acc : gmap string string * list (list string)) (line : list ascii)
    : gmap string string * list (list string) :=
  let fields := tab_fields line in
  let is_header := match line with c :: _ => ord c =? 35 | [] => false end in
  match fields with
  | f0 :: f1 :: _ =>
      if is_header then (<[list_str (List.tl (str_list f0)) := f1]> acc.1, acc.2)
      else if String.eqb f0 hook then (acc.1, acc.2 ++ [fields]) else acc
  | [f0] => if String.eqb f0 hook then (acc.1, acc.2 ++ [fields]) else acc
  | [] => acc
  end.

Definition read_index (index hook : string) : gmap string string * list (list string) :=
  foldl (index_line hook) (∅, []) (splitlines index).

Definition ENDBR64 : bytes := [0xf3; 0x0f; 0x1e; 0xfa].
Definition NOPS : bytes := [0x90; 0x90; 0x90; 0x90; 0x90].
Definition entry_bytes (pad : Z) : bytes := (if pad =? 0 then [] else ENDBR64) ++ NOPS.

Record segment := Segment { p_type : Z; p_flags : Z; p_off : Z; p_va : Z; p_filesz : Z }.
Definition read_segment (blob : bytes) (o : Z) : result segment :=
  let? typ := unpack_le 4 blob o in
  let? flags := unpack_le 4 blob (o + 4) in
  let? off := unpack_le 8 blob (o + 8) in
  let? va := unpack_le 8 blob (o + 16) in
  let? filesz := unpack_le 8 blob (o + 32) in
  Ok (Segment typ flags off va filesz).

Definition covers (s : segment) (entry n : Z) : bool :=
  (p_type s =? 1) && negb (Z.land (p_flags s) 1 =? 0) && (p_va s <=? entry) &&
  (entry - p_va s + n <=? p_filesz s).

Fixpoint find_segment (blob : bytes) (phoff entry pad : Z) (idx : list Z) : result unit :=
  match idx with
  | [] => Err (ValueError "target is outside file-backed executable segments")
  | i :: rest =>
      let? s := read_segment blob (phoff + i * 56) in
      if covers s entry (len (entry_bytes pad)) then
        let at_ := p_off s + entry - p_va s in
        raise_if (negb (bytes_eqb (slice at_ (at_ + len (entry_bytes pad)) blob) (entry_bytes pad)))
          (ValueError "index target does not have its declared entry pad") ;;
        Ok tt
      else find_segment blob phoff entry pad rest
  end.

Definition resolve_target (index : string) (binary : bytes) (hook : string) : result (string * Z * Z) :=
  let? bid := build_id binary in
  raise_if (negb (strlen bid =? 40)) (ValueError "target requires a full 20-byte GNU build ID") ;;
  let '(meta, candidates) := read_index index hook in
  raise_if (negb (bool_decide (meta !! "build_id" = Some bid))) (ValueError "hook index BUILD ID MISMATCH") ;;
  match candidates with
  | [row] =>
      match row with
      | _ :: addr :: "pad" :: p :: _ =>
          raise_if (negb (mem_str p ["0"; "4"]))
            (ValueError "target is not a supported +0/+4 padded entry") ;;
          let pad := if String.eqb p "4" then 4 else 0 in
          match py_int0 addr with
          | None => Err (ValueError "invalid literal for int()")
          | Some a =>
              let entry := a - pad in
              let? etype := unpack_le 2 binary 16 in
              let? machine := unpack_le 2 binary 18 in
              raise_if (negb (bytes_eqb (ztake 6 binary) [0x7f; 0x45; 0x4c; 0x46; 2; 1])
                        || negb (etype =? 2) || negb (machine =? 62))
                (ValueError "target must be x86-64 ET_EXEC; PIE is not supported") ;;
              let? phoff := unpack_le 8 binary 32 in
              let? size := unpack_le 2 binary 54 in
              let? count := unpack_le 2 binary 56 in
              raise_if (negb (size =? 56) || (len binary <? phoff + count * size))
                (ValueError "invalid executable segment table") ;;
              let? _ := find_segment binary phoff entry pad (range count) in
              Ok (bid, entry, pad)
          end
      | _ => Err (ValueError "target is not a supported +0/+4 padded entry")
      end
  | _ => Err (ValueError "target missing or ambiguous in hook index")
  end.

(** ** Records *)

Definition MAGIC1 : bytes := encode "LSTARG1" ++ [0].
Definition MAGIC2 : bytes := encode "LSTARG2" ++ [0].

(** [struct.pack("<8s40sQBB6x", ...)]. *)
Definition pack_target (magic : bytes) (bid : string) (entry is_exit pad : Z) : result bytes :=
  let? e := pack_le 8 entry in
  let? x := pack_le 1 is_exit in
  let? p := pack_le 1 pad in
  Ok (pack_s 8 magic ++ pack_s 40 (encode bid) ++ e ++ x ++ p ++ replicate 6 0).

(** The contents of the one target section. *)
Definition target_contents (blob : bytes) : result (option bytes) :=
  let? ss := sections blob in
  Ok (match List.filter (fun s => String.eqb (s_name s) ".ls.target") ss with
      | [s] => Some (slice (s_off s) (s_off s + s_size s) blob)
      | _ => None
      end).

Definition preserved (blob record : bytes) : result bytes :=
  let? c := target_contents blob in
  match c with
  | Some b => raise_if (negb (bytes_eqb b record)) (ValueError "objcopy did not preserve the target record") ;;
              Ok blob
  | None => Err (ValueError "objcopy did not preserve the target record")
  end.

(** ** What a bound target is

    The build id is the descriptor of a GNU build-id note of the file; a resolved
    hook is the one row of an index of that very build and its entry holds the
    declared pad in an executable segment of the binary. *)

(** ** Searching and slicing *)

Lemma is_prefix_spec p l : is_prefix p l = true -> exists t, l = p ++ t.
Proof.
  revert l. induction p as [|x p IH]; intros l; [by exists l|]. destruct l as [|y l]; [done|]. cbn [is_prefix].
  intros [->%Z.eqb_eq H]%andb_true_iff. destruct (IH _ H) as [t ->]. by exists t.
Qed.

Lemma find_from_spec p l : forall i j, 0 <= i -> find_from p l i = j -> 0 <= j ->
  i <= j /\ exists a t, l = a ++ p ++ t /\ len a = j - i.
Proof.
  induction l as [|x l IH]; intros i j Hi; cbn [find_from].
  - destruct (is_prefix p []) eqn:E; [|intros <- ?; lia]. intros <- _. split; [lia|].
    apply is_prefix_spec in E as [t ->]. exists [], t. by rewrite Z.sub_diag.
  - destruct (is_prefix p (x :: l)) eqn:E.
    + intros <- _. split; [lia|]. apply is_prefix_spec in E as [t ->]. exists [], t. by rewrite Z.sub_diag.
    + intros H Hj. destruct (IH (i + 1) j ltac:(lia) H Hj) as (Hle & a & t & -> & Ha).
      split; [lia|]. exists (x :: a), t. split; [done|]. rewrite len_cons. lia.
Qed.

Lemma py_find_spec p l j : py_find p l 0 = j -> 0 <= j -> exists a t, l = a ++ p ++ t /\ len a = j.
Proof.
  unfold py_find. pose proof (len_nonneg l). destruct (Z.ltb_spec (len l) 0); [lia|].
  rewrite zdrop_drop. cbn [Z.to_nat drop]. intros H1 H2.
  destruct (find_from_spec p l 0 j ltac:(lia) H1 H2) as (_ & a & t & Hl & Ha).
  exists a, t. split; [done|lia].
Qed.

Lemma slice_slice {A} a b c d (l : list A) : 0 <= a -> a <= b -> 0 <= c -> c + b <= d ->
  slice a b (slice c d l) = slice (c + a) (c + b) l.
Proof.
  intros. rewrite !slice_take_drop, skipn_firstn_comm, drop_drop, take_take.
  f_equal; [lia|]. f_equal. lia.
Qed.

(** ** The build id *)

(** At [off] the file has a GNU build-id note whose descriptor is [desc]. *)
Definition note_at (f : bytes) (off : Z) (desc : bytes) : Prop :=
  0 <= off /\ (len desc = 20 \/ len desc = 16 \/ len desc = 8) /\
  slice off (off + 16 + len desc) f = note_header (len desc) ++ desc.

Lemma parse_note_spec sizes n got : (forall ds, In ds sizes -> 0 <= ds) -> parse_note_from sizes n = Some got ->
  exists i, 0 <= i /\ In (len got) sizes /\ i + 16 + len got <= len n /\
    slice i (i + 16 + len got) n = note_header (len got) ++ got.
Proof.
  intros Hpos. induction sizes as [|ds sizes IH]; cbn [parse_note_from]; [done|].
  destruct (_ && _) eqn:E; cycle 1.
  { intros H. destruct IH as (i & ? & ? & ? & ?); [by intros; apply Hpos; right|done|].
    exists i. split_and!; auto. by right. }
  apply andb_true_iff in E as [Hi Hl]. apply Z.leb_le in Hi, Hl. intros [= <-].
  assert (0 <= ds) as Hds by (apply Hpos; by left).
  set (i := py_find (note_header ds) n 0) in *.
  assert (len (slice (i + 16) (i + 16 + ds) n) = ds) as Hlen by (rewrite length_slice; lia).
  rewrite Hlen. exists i. split_and!; [done|by left|done|].
  destruct (py_find_spec (note_header ds) n i eq_refl Hi) as (a & t & Hn & Ha).
  assert (len (note_header ds) = 16) as Hh by reflexivity.
  assert (slice (i + 16) (i + 16 + ds) n = take (Z.to_nat ds) t) as ->.
  { rewrite Hn, slice_app_r, slice_app_r, slice_take_drop by lia. rewrite Ha, Hh.
    replace (i + 16 - i - 16) with 0 by lia. by replace (i + 16 + ds - i - 16 - 0) with ds by lia. }
  rewrite Hn, slice_app_r, slice_take_drop, Ha by lia. replace (i - i) with 0 by lia.
  rewrite Z.sub_0_r, drop_0, take_app_ge by (unfold len in Hh; lia). do 2 f_equal. unfold len in Hh. lia.
Qed.

Lemma read_at_ok f off size b : read_at f off size = Ok b ->
  b = slice off (off + size) f /\ len b = size.
Proof.
  unfold read_at. case_match; [done|]. cbv zeta.
  destruct (Z.eqb_spec (len (slice off (off + size) f)) size); [|done]. by intros [= <-].
Qed.

Lemma read_note f off size b got : 0 <= off -> read_at f off size = Ok b -> parse_note b = Some got ->
  exists p, note_at f p got.
Proof.
  intros Ho [-> Hl]%read_at_ok H. unfold parse_note in H.
  apply parse_note_spec in H as (i & Hi & Hin & Hle & Hs); [|simpl; intros; lia].
  exists (off + i). split_and!; [lia|simpl in Hin; lia|].
  rewrite slice_slice in Hs; [|lia|pose proof (len_nonneg got); lia|lia|lia].
  by rewrite <- Hs, !Z.add_assoc.
Qed.

Lemma read_at_bytes f off size b : is_bytes f -> read_at f off size = Ok b -> is_bytes b.
Proof. intros Hf [-> _]%read_at_ok. by apply is_bytes_slice. Qed.

Lemma section_id_note f strs shoff shes idx id : is_bytes f ->
  section_id f strs shoff shes idx = Ok (Some id) -> exists p desc, note_at f p desc /\ id = hex desc.
Proof.
  intros Hf. induction idx as [|i idx IH]; cbn [section_id]; [done|].
  destruct (read_at f (shoff + i * shes) shes) as [sh|] eqn:Hsh; [|done].
  destruct (unpack_le 4 sh 0); [|done]. case_match; [done|]. clear H.
  destruct (unpack_le 8 sh 0x18) as [off|] eqn:Ho; [|done]. destruct (unpack_le 8 sh 0x20) as [sz|]; [|done].
  destruct (read_at f off sz) as [note|] eqn:Hn; [|done].
  destruct (parse_note note) as [got|] eqn:Hp; [|done]. intros [= <-].
  destruct (read_note f off sz note got) as [p Hp']; [|done|done|by exists p, got].
  eapply unpack_le_nonneg, Ho. by eapply read_at_bytes.
Qed.

Lemma span_id_note f spans id : (forall o s, (o, s) ∈ spans -> 0 <= o) ->
  span_id f spans = Ok (Some id) -> exists p desc, note_at f p desc /\ id = hex desc.
Proof.
  induction spans as [|[o s] spans IH]; intros Hpos; cbn [span_id]; [done|].
  destruct (read_at f o s) as [note|] eqn:Hn; [|done].
  destruct (parse_note note) as [got|] eqn:Hp; cycle 1.
  { apply IH. intros o' s' H. apply (Hpos o' s'). by right. }
  intros [= <-]. destruct (read_note f o s note got) as [p Hp']; [|done|done|by exists p, got].
  apply (Hpos o s). left.
Qed.

Lemma merge_spans_pos spans : forall m, (forall o s, (o, s) ∈ m -> 0 <= o) ->
  (forall o s, (o, s) ∈ spans -> 0 <= o) -> forall o s, (o, s) ∈ merge_spans m spans -> 0 <= o.
Proof.
  induction spans as [|[off sz] spans IH]; intros m Hm Hs o s; cbn [merge_spans].
  { rewrite elem_of_reverse. apply Hm. }
  assert (0 <= off) as Hoff by (apply (Hs off sz); left).
  assert (forall o s, (o, s) ∈ spans -> 0 <= o) as Hs' by (intros o1 s1 H1; apply (Hs o1 s1); by right).
  destruct m as [|[o0 s0] m]; [|destruct (o0 + s0 =? off)]; apply IH; try done;
    intros o1 s1 [[= -> ->]|H1]%elem_of_cons; try done; try by apply not_elem_of_nil in H1.
  - apply (Hm o0 s0). left.
  - apply (Hm o1 s1). by right.
  - by apply (Hm o1 s1).
Qed.

Lemma note_spans_pos f phoff pes idx spans : is_bytes f -> note_spans f phoff pes idx = Ok spans ->
  forall o s, (o, s) ∈ spans -> 0 <= o.
Proof.
  intros Hf. revert spans. induction idx as [|i idx IH]; intros spans; cbn [note_spans].
  { intros [= <-] o s H. by apply not_elem_of_nil in H. }
  destruct (read_at f (phoff + i * pes) pes) as [ph|] eqn:Hph; [|done].
  destruct (unpack_le 4 ph 0) as [typ|]; [|done]. destruct (negb (typ =? 4)); [apply IH|].
  destruct (unpack_le 8 ph 8) as [off|] eqn:Ho; [|done]. destruct (unpack_le 8 ph 0x20) as [sz|]; [|done].
  destruct (note_spans f phoff pes idx) as [rest|]; [|done]. intros [= <-] o s [[= -> ->]|H]%elem_of_cons.
  - eapply unpack_le_nonneg, Ho. by eapply read_at_bytes.
  - by eapply IH.
Qed.

Lemma build_id_note f id : is_bytes f -> build_id f = Ok id -> exists p desc, note_at f p desc /\ id = hex desc.
Proof.
  intros Hf. unfold build_id. destruct (read_at f 0 64) as [e|]; [|done]. case_match; [done|].
  destruct (at_index e 4); [|done]. case_match; [done|].
  destruct (unpack_le 8 e 0x28) as [shoff|]; [|done]. destruct (unpack_le 2 e 0x3a) as [shes|]; [|done].
  destruct (unpack_le 2 e 0x3c) as [shn|]; [|done]. destruct (unpack_le 2 e 0x3e) as [ndx|]; [|done].
  destruct (if _ && _ && _ then _ else _) as [[id0|]|] eqn:Hsec; [| |done].
  { intros [= <-]. case_match; [|done]. destruct (read_at f (shoff + ndx * shes) shes) as [sh|]; [|done].
    destruct (unpack_le 8 sh 0x18); [|done]. destruct (unpack_le 8 sh 0x20); [|done].
    destruct (read_at f a0 a1); [|done]. by eapply section_id_note. }
  destruct (unpack_le 8 e 0x20) as [phoff|]; [|done]. destruct (unpack_le 2 e 0x36) as [pes|]; [|done].
  destruct (unpack_le 2 e 0x38) as [pn|]; [|done].
  destruct (note_spans f phoff pes (range pn)) as [spans|] eqn:Hsp; [|done].
  destruct (span_id f _) as [[id0|]|] eqn:Hid; [|done|done]. intros [= <-].
  eapply span_id_note; [|exact Hid]. intros o s. apply merge_spans_pos; [by intros ? ? ?%not_elem_of_nil|].
  intros o' s'. rewrite merge_sort_Permutation. by eapply note_spans_pos.
Qed.

(** ** Resolution *)

(** The binary holds the entry bytes of [entry] in an executable segment. *)
Definition padded_at (binary : bytes) (entry pad : Z) : Prop :=
  exists o s, read_segment binary o = Ok s /\ p_type s = 1 /\ Z.land (p_flags s) 1 <> 0 /\
    p_va s <= entry /\ entry - p_va s + len (entry_bytes pad) <= p_filesz s /\
    slice (p_off s + entry - p_va s) (p_off s + entry - p_va s + len (entry_bytes pad)) binary =
      entry_bytes pad.

Lemma find_segment_ok binary phoff entry pad idx :
  find_segment binary phoff entry pad idx = Ok tt -> padded_at binary entry pad.
Proof.
  induction idx as [|i idx IH]; cbn [find_segment]; [done|].
  destruct (read_segment binary (phoff + i * 56)) as [s|] eqn:Hs; [|done].
  destruct (covers s entry _) eqn:Hc; [|done]. cbv zeta. destruct (bytes_eqb _ _) eqn:He; [|done].
  intros _. apply bytes_eqb_eq in He. unfold covers in Hc. bool_prop.
  exists (phoff + i * 56), s. split_and!; try done; lia.
Qed.

(** The hook index says the hook is at [entry] with its pad, and is of the build. *)
Definition indexed (index hook bid : string) (entry pad : Z) : Prop :=
  (read_index index hook).1 !! "build_id" = Some bid /\
  exists name addr p rest, (read_index index hook).2 = [name :: addr :: "pad" :: p :: rest] /\
    py_int0 addr = Some (entry + pad) /\ ((p = "0" /\ pad = 0) \/ (p = "4" /\ pad = 4)).

Lemma resolve_target_ok index binary hook bid entry pad :
  resolve_target index binary hook = Ok (bid, entry, pad) ->
  build_id binary = Ok bid /\ strlen bid = 40 /\ indexed index hook bid entry pad /\
  padded_at binary entry pad.
Proof.
  unfold resolve_target, indexed. destruct (build_id binary) as [b|]; [|done].
  destruct (Z.eqb_spec (strlen b) 40) as [Hl|]; [|done]. cbn [negb].
  destruct (read_index index hook) as [meta cands]. cbn [fst snd].
  case_bool_decide as Hm; [|done]. cbn [negb].
  destruct cands as [|row [|]]; [done| |done].
  destruct row as [|name [|addr [|k [|p rest]]]]; try done; try (by repeat case_match).
  destruct (String.eqb_spec k "pad") as [->|Hk]; cycle 1.
  { intros H. exfalso. repeat (case_match; simplify_eq); done. }
  destruct (mem_str p ["0"; "4"]) eqn:Hp; [|done]. cbn [negb].
  apply mem_str_In in Hp. destruct (py_int0 addr) as [a|] eqn:Ha; [|done].
  destruct (unpack_le 2 binary 16); [|done]. destruct (unpack_le 2 binary 18); [|done].
  case_match; [done|]. destruct (unpack_le 8 binary 32) as [phoff|]; [|done].
  destruct (unpack_le 2 binary 54); [|done]. destruct (unpack_le 2 binary 56) as [count|]; [|done].
  case_match; [done|]. destruct (find_segment _ _ _ _ _) as [[]|] eqn:Hf; [|done].
  intros [= <- <- <-]. split_and!; [done|done|done| |by eapply find_segment_ok].
  exists name, addr, p, rest. split_and!; [done|rewrite Ha; f_equal; lia|].
  destruct Hp as [<-|[<-|[]]]; auto.
Qed.

(** ** Records *)

(** The fields of a target record, by offset. *)
Definition unpack_target (r : bytes) : bytes * bytes * Z * Z * Z :=
  (slice 0 8 r, slice 8 48 r, le_int (slice 48 56 r), le_int (slice 56 57 r), le_int (slice 57 58 r)).

Lemma pack_s_exact n b : length b = n -> pack_s n b = b.
Proof.
  intros <-. unfold pack_s. rewrite take_ge, Nat.sub_diag by lia. apply app_nil_r.
Qed.

Lemma length_encode s : len (encode s) = strlen s.
Proof. unfold encode, strlen, len. by rewrite length_map. Qed.

Lemma pack_target_ok magic bid entry x pad r : length magic = 8%nat -> strlen bid = 40 ->
  pack_target magic bid entry x pad = Ok r ->
  len r = 64 /\ unpack_target r = (magic, encode bid, entry, x, pad).
Proof.
  intros Hm Hb. unfold pack_target. destruct (pack_le 8 entry) as [e|] eqn:He; [|done].
  destruct (pack_le 1 x) as [xb|] eqn:Hx; [|done]. destruct (pack_le 1 pad) as [pb|] eqn:Hp; [|done].
  intros [= <-]. apply pack_le_ok in He as [Le Ve]. apply pack_le_ok in Hx as [Lx Vx].
  apply pack_le_ok in Hp as [Lp Vp].
  assert (length (encode bid) = 40%nat) as Lb by (pose proof (length_encode bid); unfold len in *; lia).
  rewrite (pack_s_exact 8 magic) by done. rewrite (pack_s_exact 40 (encode bid)) by done.
  split; [unfold len; rewrite !length_app; cbn [length replicate]; lia|].
  match goal with |- unpack_target ?x = _ => set (r := x) end.
  assert (chunks [8; 40; 8; 1; 1; 6]%nat r = [magic; encode bid; e; xb; pb; replicate 6 0]) as Hc.
  { pose proof (chunks_concat [magic; encode bid; e; xb; pb; replicate 6 0]) as H. cbn [map concat] in H.
    rewrite app_nil_r, Hm, Lb, Le, Lx, Lp in H. exact H. }
  cbn [chunks] in Hc. rewrite !drop_drop in Hc. injection Hc as H1 H2 H3 H4 H5 _.
  unfold unpack_target. rewrite !slice_take_drop.
  change (Z.to_nat (8 - 0)) with 8%nat. change (Z.to_nat 0) with 0%nat. rewrite drop_0, H1.
  change (Z.to_nat (48 - 8)) with 40%nat. change (Z.to_nat 8) with 8%nat. rewrite H2.
  change (Z.to_nat (56 - 48)) with 8%nat. change (Z.to_nat 48) with 48%nat. rewrite H3.
  change (Z.to_nat (57 - 56)) with 1%nat. change (Z.to_nat 56) with 56%nat. rewrite H4.
  change (Z.to_nat (58 - 57)) with 1%nat. change (Z.to_nat 57) with 57%nat. rewrite H5.
  by rewrite Ve, Vx, Vp.
Qed.

Lemma preserved_ok blob record out : preserved blob record = Ok out ->
  out = blob /\ target_contents blob = Ok (Some record).
Proof.
  unfold preserved. destruct (target_contents blob) as [[b|]|]; [|done|done].
  destruct (bytes_eqb b record) eqn:E; [|done]. apply bytes_eqb_eq in E as ->. by intros [= <-].
Qed.

(** C20: a resolved hook is where the index and the binary both put it.  When a
    hook resolves, the build id is the 20-byte descriptor of a GNU build-id note
    of the target binary, the hook index names that very build, exactly one row of
    it is the hook, with pad 0 or 4, and the file bytes at the entry, inside an
    executable segment, are the declared endbr64 and five NOPs. *)
Theorem resolved_target_sound index binary hook bid entry pad :
  is_bytes binary -> resolve_target index binary hook = Ok (bid, entry, pad) ->
  (exists p desc, note_at binary p desc /\ len desc = 20 /\ bid = hex desc) /\
  indexed index hook bid entry pad /\ padded_at binary entry pad.
Proof.
  intros Hb H. apply resolve_target_ok in H as (Hid & Hlen & Hix & Hpad).
  split_and!; [|done|done]. destruct (build_id_note _ _ Hb Hid) as (p & desc & Hn & ->).
  exists p, desc. split_and!; [done| |done]. revert Hlen. unfold strlen, hex. rewrite str_list_str.
  assert (len (hex_list desc) = 2 * len desc) as ->; [|lia].
  clear. induction desc as [|x l IH]; [done|]. cbn [hex_list]. rewrite !len_cons, IH. lia.
Qed.

(** ** Concrete objects

    A writer of small ELF files: program headers, then the contents of the
    sections, then the section headers. *)

Fixpoint demo_shdrs (name off : Z) (secs : list (string * bytes)) : bytes :=
  match secs with
  | [] => []
  | (n, d) :: t =>
      le_bytes 4 name ++ le_bytes 4 1 ++ replicate 16 0 ++ le_bytes 8 off ++ le_bytes 8 (len d) ++
      replicate 8 0 ++ le_bytes 8 1 ++ replicate 8 0 ++ demo_shdrs (name + strlen n + 1) (off + len d) t
  end.

Definition demo_elf (etype machine : Z) (phdrs : list bytes) (secs : list (string * bytes)) : bytes :=
  let names := 0 :: concat (map (fun n => encode n ++ [0]) (map fst secs ++ [".shstrtab"])) in
  let secs := secs ++ [(".shstrtab", names)] in
  let body := concat (map snd secs) in
  let off := 64 + len (concat phdrs) in
  [0x7f; 0x45; 0x4c; 0x46; 2; 1] ++ replicate 10 0 ++ le_bytes 2 etype ++ le_bytes 2 machine ++
  replicate 12 0 ++ le_bytes 8 64 ++ le_bytes 8 (off + len body) ++ replicate 6 0 ++ le_bytes 2 56 ++
  le_bytes 2 (len phdrs) ++ le_bytes 2 64 ++ le_bytes 2 (len secs + 1) ++ le_bytes 2 (len secs) ++
  concat phdrs ++ body ++ replicate 64 0 ++ demo_shdrs 1 off secs.

(** Two padded functions at 0x1000: [foo] without and [bar] with endbr64. *)
Definition demo_binary : bytes :=
  demo_elf 2 62
    [le_bytes 4 1 ++ le_bytes 4 5 ++ le_bytes 8 120 ++ le_bytes 8 0x1000 ++ le_bytes 8 0x1000 ++
     le_bytes 8 14 ++ le_bytes 8 14 ++ le_bytes 8 16]
    [(".text", entry_bytes 0 ++ entry_bytes 4);
     (".note.gnu.build-id", note_header 20 ++ map Z.of_nat (seq 1 20))].

Definition demo_id : string := "0102030405060708090a0b0c0d0e0f1011121314".

Definition demo_index : string :=
  list_str (concat (map (fun fs : list string => str_list (String.concat (String (chr 9) "") fs) ++ [chr 10])
    [["#build_id"; demo_id]; ["foo"; "0x1000"; "pad"; "0"]; ["bar"; "0x1009"; "pad"; "4"]])).

Lemma resolved_target_sound_witness :
  padded_at demo_binary 0x1000 0 /\
  resolve_target demo_index demo_binary "foo" = Ok (demo_id, 0x1000, 0).
Proof.
  assert (resolve_target demo_index demo_binary "foo" =
    Ok (demo_id, 0x1000, 0)) as H by (vm_compute; reflexivity).
  split; [|exact H].
  assert (is_bytes demo_binary) as Hb.
  { unfold is_bytes, is_byte. apply Forall_forall. intros x Hx.
    assert (forallb (fun x => (0 <=? x) && (x <? 256)) demo_binary = true) as Hf by (vm_compute; reflexivity).
    rewrite forallb_forall in Hf. apply list_elem_of_In in Hx. specialize (Hf x Hx). lia. }
  exact (proj2 (proj2 (resolved_target_sound _ _ _ _ _ _ Hb H))).
Defined.
