(* ===== verification/AuthoritySpec.v ===== *)
(** * What the authority promises

    A ledger row names an actor only when the request proof verified under that
    actor's key, and is accepted only with a nonce the actor never used; accepted
    rows never share an actor and a nonce; the originator of a delegated operation
    is the originator of the operation it descends from. *)

From S2P Require Import Prelude PyVal Text Journal Authority Target.

(** ** Reading rows *)

Ltac row_get := unfold accept_row, read_row, update, getv, sget;
  cbn [fold_left fst snd]; rewrite ?get_set; cbn [String.eqb Ascii.eqb Bool.eqb default].

Definition accepted (row : dict) : Prop := getv "accepted" row = VBool true.
#[export] Instance accepted_dec row : Decision (accepted row).
Proof.
  unfold accepted. destruct (getv "accepted" row) as [|[]| | | | | |];
    first [by left|by right].
Defined.

Section spec.
Variable hmac : bytes -> bytes -> string.
Variable sha256 : bytes -> string.
Variable json_loads : bytes -> result val.
Variable claims_of : string -> result val.

Record request := Request {
  q_path : string; q_headers : headers; q_body : bytes; q_connection : string; q_peer : val;
  q_draw : draw }.

Definition step (a : authority) (q : request) : authority * result (Z * dict) :=
  process hmac sha256 json_loads claims_of a (q_path q) (q_headers q) (q_body q) (q_connection q)
    (q_peer q) (q_draw q).

Definition nonce_of (q : request) : string := default "" (q_headers q !! "x-proof-nonce").
Definition start_row (q : request) : dict :=
  first_row sha256 (q_headers q) (q_path q) (q_body q) (q_connection q) (q_peer q) (q_draw q).

(** The request carries a proof that verifies under the key of [actor]. *)
Definition proved (a : authority) (q : request) (actor : string) : Prop :=
  q_headers q !! "x-agent-key" = Some actor /\ nonce_of q <> "" /\
  exists key, a_keys a !! actor = Some key /\ key <> [] /\
    default "" (q_headers q !! "x-request-proof") = proof hmac key (q_path q) (nonce_of q) (q_body q).

(** The row of an authenticated request. *)
Definition auth_row (actor : string) (row : dict) : dict :=
  update [("actor", VStr actor); ("auth_evidence", VStr "fixture-hmac-request-proof");
          ("principal", VStr (String.append "configured-principal-" actor));
          ("claim_mismatch", VBool (negb (val_eqb (getv "claimed_actor" row) VNone ||
                                          val_eqb (getv "claimed_actor" row) (VStr actor))))] row.

Lemma authenticate_ok a q actor row :
  authenticate hmac a (q_headers q) (q_body q) (start_row q) = Ok (actor, row) ->
  proved a q actor /\ row = auth_row actor (start_row q).
Proof.
  unfold authenticate, proved. change (sget "path" (start_row q)) with (q_path q).
  change (sget "nonce" (start_row q)) with (nonce_of q).
  change (getv "nonce" (start_row q)) with (VStr (nonce_of q)).
  destruct (q_headers q !! "x-agent-key") as [ac|]; [|done].
  destruct (a_keys a !! ac) as [[|k ks]|] eqn:Hk; [done| |done].
  destruct (_ || _) eqn:E; [done|]. intros [= <- <-]. split; [|done].
  apply orb_false_iff in E as [En Ep]. apply negb_false_iff in En, Ep. apply String.eqb_eq in Ep.
  split; [done|]. split; [intros H0; rewrite H0 in En; done|]. by exists (k :: ks).
Qed.

Lemma authenticate_err a hs body row e : authenticate hmac a hs body row = Err e ->
  e = Rejected "invalid_request_proof".
Proof.
  unfold authenticate. destruct (hs !! "x-agent-key"); [|by intros [= <-]].
  destruct (a_keys a !! s) as [[|]|]; [by intros [= <-]| |by intros [= <-]].
  destruct (_ || _); [by intros [= <-]|done].
Qed.

(** The end of one request: nothing recorded, a rejected row, or an operation. *)
Inductive outcome (a : authority) (q : request) : authority -> result (Z * dict) -> Prop :=
| out_raised e s : seen a ⊆ s -> outcome a q (with_seen a s) (Err e)
| out_unproved row status : status <> 200 -> getv "actor" row = VNone -> ~ accepted row ->
    outcome a q (with_ledger a (ledger a ++ [row])) (Ok (status, row))
| out_rejected s actor row status : seen a ⊆ s -> status <> 200 ->
    proved a q actor -> getv "actor" row = VStr actor -> ~ accepted row ->
    outcome a q (with_ledger (with_seen a s) (ledger a ++ [row])) (Ok (status, row))
| out_accepted actor data row originator parent response :
    proved a q actor -> (actor, nonce_of q) ∉ seen a -> json_loads (q_body q) = Ok (VDict data) ->
    check_grant hmac sha256 claims_of a data actor (read_row data (auth_row actor (start_row q)))
      (d_now (q_draw q)) = Ok (row, originator, parent) ->
    perform hmac a (q_path q) data actor parent (d_now (q_draw q)) = Ok response ->
    outcome a q
      (with_ledger (with_operations (with_seen a ({[(actor, nonce_of q)]} ∪ seen a))
          (<[d_operation (q_draw q) := accept_row row originator parent (q_draw q)]> (operations a)))
        (ledger a ++ [accept_row row originator parent (q_draw q)]))
      (Ok (200, update (accept_row row originator parent (q_draw q)) response)).

Lemma with_seen_same a : with_seen a (seen a) = a.
Proof. by destruct a. Qed.

Lemma check_grant_row a data actor row now row' o p :
  check_grant hmac sha256 claims_of a data actor row now = Ok (row', o, p) ->
  row' = row \/ exists v, row' = set "delegation_sha256" v row.
Proof.
  unfold check_grant. destruct (get "delegation" data) as [t|]; [|intros [= <- <- <-]; by left].
  destruct (delegation _ _ _ _ _ _ _) as [c|]; [|done]. destruct (item "originator" c); [|done].
  destruct (item "parent" c); [|done]. intros [= <- <- <-]. right. by eexists.
Qed.

(** Fields the later updates of a row leave alone. *)
Lemma granted_field a data actor row now row' o p k :
  check_grant hmac sha256 claims_of a data actor row now = Ok (row', o, p) ->
  k <> "delegation_sha256" -> getv k row' = getv k row.
Proof.
  intros [->|[v ->]]%check_grant_row Hk; [done|]. unfold getv. by rewrite get_set_ne.
Qed.

Lemma raised_outcome a q s actor row e : seen a ⊆ s -> proved a q actor ->
  getv "actor" row = VStr actor -> ~ accepted row ->
  outcome a q (raised (with_seen a s) 403 row e).1 (raised (with_seen a s) 403 row e).2.
Proof.
  intros Hs Hp Ha Hn. assert (forall e, outcome a q (with_seen a s) (Err e)) as Hr
    by (intros; by constructor).
  destruct e; try apply Hr. cbn [raised reject fst snd].
  apply (out_rejected a q s actor); [done|done|done|..].
  - unfold getv in *. by rewrite get_set_ne.
  - unfold accepted, getv in *. by rewrite get_set_ne.
Qed.

Lemma step_outcome a q : outcome a q (step a q).1 (step a q).2.
Proof.
  unfold step, process. cbv zeta. change (first_row _ _ _ _ _ _ _) with (start_row q).
  destruct (authenticate hmac a _ _ (start_row q)) as [[actor row]|e] eqn:Ha; cycle 1.
  { apply authenticate_err in Ha as ->. cbn [raised reject fst snd].
    by apply out_unproved. }
  apply authenticate_ok in Ha as [Hp ->].
  change (sget "nonce" (auth_row actor (start_row q))) with (nonce_of q).
  destruct (decide _) as [Hs|Hs].
  { rewrite <- (with_seen_same a) at 2 3. by apply (out_rejected a q _ actor). }
  set (s := {[(actor, nonce_of q)]} ∪ seen a). assert (seen a ⊆ s) as Hss by set_solver.
  destruct (json_loads (q_body q)) as [data|e] eqn:Hj; [|by constructor].
  destruct (subscript "method" data); [|by constructor].
  destruct data as [| | | | | | |data]; try by constructor.
  change (check_grant hmac sha256 claims_of (with_seen a s)) with (check_grant hmac sha256 claims_of a).
  change (perform hmac (with_seen a s)) with (perform hmac a).
  set (row := read_row data (auth_row actor (start_row q))).
  destruct (check_grant _ _ _ a data actor row _) as [[[row' o] p]|e] eqn:Hg;
    [|by apply raised_outcome with actor].
  destruct (perform _ _ _ _ _ _ _) as [resp|e] eqn:Hf; [exact (out_accepted a q actor data row' o p resp Hp Hs Hj Hg Hf)|].
  apply raised_outcome with actor; [done|done|..]; unfold accepted;
    by rewrite (granted_field _ _ _ _ _ _ _ _ _ Hg).
Qed.

(** ** Runs *)

Fixpoint run (a : authority) (qs : list request) : authority :=
  match qs with
  | [] => a
  | q :: t => run (step a q).1 t
  end.

Definition identity_of (row : dict) : val * string := (getv "actor" row, sget "nonce" row).
Definition accepted_ids (l : list dict) : list (val * string) := map identity_of (filter accepted l).

(** Accepted identities are distinct and used up. *)
Definition fresh_ids (a : authority) : Prop :=
  NoDup (accepted_ids (ledger a)) /\
  forall actor nonce, (VStr actor, nonce) ∈ accepted_ids (ledger a) -> (actor, nonce) ∈ seen a.

Lemma accepted_ids_app l row :
  accepted_ids (l ++ [row]) =
  accepted_ids l ++ (if decide (accepted row) then [identity_of row] else []).
Proof.
  unfold accepted_ids. rewrite filter_app, map_app. f_equal.
  destruct (decide (accepted row)) as [H|H].
  - by rewrite filter_cons_True.
  - by rewrite filter_cons_False.
Qed.

Lemma accepted_row_facts a q actor data row o p :
  check_grant hmac sha256 claims_of a data actor (read_row data (auth_row actor (start_row q)))
      (d_now (q_draw q)) = Ok (row, o, p) ->
  accepted (accept_row row o p (q_draw q)) /\
  identity_of (accept_row row o p (q_draw q)) = (VStr actor, nonce_of q) /\
  getv "operation" (accept_row row o p (q_draw q)) = VStr (d_operation (q_draw q)) /\
  getv "originator" (accept_row row o p (q_draw q)) = o /\
  getv "parent" (accept_row row o p (q_draw q)) = p.
Proof.
  intros Hg. unfold accepted, identity_of.
  assert (getv "actor" row = VStr actor) as Ha by by rewrite (granted_field _ _ _ _ _ _ _ _ _ Hg).
  assert (getv "nonce" row = VStr (nonce_of q)) as Hn by by rewrite (granted_field _ _ _ _ _ _ _ _ _ Hg).
  unfold getv in *. destruct (get "nonce" row) eqn:E; [|done]. cbn in Hn. subst.
  row_get. rewrite Ha, E. done.
Qed.

Lemma not_accepted_ids l row : ~ accepted row -> accepted_ids (l ++ [row]) = accepted_ids l.
Proof. intros H. rewrite accepted_ids_app, decide_False by done. apply app_nil_r. Qed.

Lemma step_fresh a q : fresh_ids a -> fresh_ids (step a q).1.
Proof.
  intros [Hnd Hseen]. unfold fresh_ids.
  destruct (step_outcome a q) as [e s Hs|row st _ _ Hn|s actor row st Hs _ _ _ Hn|
    actor data row o p resp _ Hnew _ Hg _];
    cbn [ledger seen with_ledger with_seen with_operations];
    rewrite ?not_accepted_ids by done; [split; [done|]; intros; apply Hs; auto| |
      split; [done|]; intros; apply Hs; auto|]; [done|].
  destruct (accepted_row_facts _ _ _ _ _ _ _ Hg) as (Hacc & Hid & _).
  rewrite accepted_ids_app, decide_True, Hid by done. split.
  - apply NoDup_app. split_and!; [done| |apply NoDup_singleton].
    intros x Hx ->%list_elem_of_singleton. apply Hnew. by apply Hseen.
  - intros ac n [Hx|Hx]%elem_of_app; [set_solver|].
    apply list_elem_of_singleton in Hx as [= -> ->]. set_solver.
Qed.

Lemma run_fresh qs : forall a, fresh_ids a -> fresh_ids (run a qs).
Proof. induction qs as [|q qs IH]; intros a H; [done|]. by apply IH, step_fresh. Qed.

(** ** Delegation *)

(** The claims of the grant a request obtains. *)
Definition minted_at (a : authority) (q : request) : list dict :=
  match q_headers q !! "x-agent-key", json_loads (q_body q), (step a q).2 with
  | Some actor, Ok (VDict data), Ok (status, _) =>
      if (status =? 200) && String.eqb (q_path q) "/delegate" && val_eqb (getv "method" data) (VStr "delegate") then
        match mint hmac a actor (getv "params" data) (d_now (q_draw q)) with
        | Ok (_, claims) => [claims]
        | Err _ => []
        end
      else []
  | _, _, _ => []
  end.

(** No grant is forged: a token whose signature verifies carries claims this
    authority minted. *)
Definition genuine (minted : list dict) (a : authority) (q : request) : Prop :=
  forall data token payload text claims,
    json_loads (q_body q) = Ok (VDict data) -> get "delegation" data = Some token ->
    token_parts token = Ok (payload, Some text, hmac (grant_key a) payload) ->
    claims_of text = Ok (VDict claims) ->
    exists c, c ∈ minted /\ forall k, get k claims = get k c.

(** Runs in which no grant is forged and identifiers are fresh; the second index
    lists the claims minted so far. *)
Inductive reach (a0 : authority) : authority -> list dict -> Prop :=
| reach_start : reach a0 a0 []
| reach_step a m q : reach a0 a m -> genuine m a q ->
    operations a !! d_operation (q_draw q) = None ->
    reach a0 (step a q).1 (m ++ minted_at a q).

(** An operation is its actor's own, or descends from another operation by a
    grant its actor issued. *)
Definition descends (ops : gmap string dict) (minted : list dict) (row : dict) : Prop :=
  (getv "parent" row = VNone /\ getv "originator" row = getv "actor" row) \/
  (exists p r c, getv "parent" row = VStr p /\ ops !! p = Some r /\
     getv "originator" row = getv "originator" r /\ c ∈ minted /\
     getv "issuer" c = getv "actor" r /\ getv "recipient" c = getv "actor" row).

Definition owned (ops : gmap string dict) (c : dict) : Prop :=
  exists p r, getv "parent" c = VStr p /\ ops !! p = Some r /\
    getv "issuer" c = getv "actor" r /\ getv "originator" c = getv "originator" r.

Record lineage (ops : gmap string dict) (minted : list dict) : Prop := {
  lin_key : forall k r, ops !! k = Some r -> getv "operation" r = VStr k;
  lin_minted : forall c, c ∈ minted -> owned ops c;
  lin_row : forall k r, ops !! k = Some r -> descends ops minted r }.

Lemma owned_mono ops ops' c : ops ⊆ ops' -> owned ops c -> owned ops' c.
Proof.
  intros Hs (p & r & Hp & Hr & H). exists p, r. split; [done|]. split; [|done].
  by eapply lookup_weaken.
Qed.

Lemma descends_mono ops ops' m m' r : ops ⊆ ops' -> m ⊆ m' -> descends ops m r -> descends ops' m' r.
Proof.
  intros Hs Hm [H|(p & r' & c & Hp & Hr & Ho & Hc & H)]; [by left|]. right. exists p, r', c.
  split_and!; [done|by eapply lookup_weaken|done|by apply Hm|apply H..].
Qed.

Lemma get_by_some {A} (m : gmap string A) v x : get_by m v = Ok (Some x) ->
  exists s, v = VStr s /\ m !! s = Some x.
Proof. destruct v; try done. simpl. intros [= H]. eauto. Qed.

(** What a mint returns. *)
Lemma mint_owned a actor params now t c : mint hmac a actor params now = Ok (t, c) ->
  (forall k r, operations a !! k = Some r -> getv "operation" r = VStr k) -> owned (operations a) c.
Proof.
  unfold mint. intros H Hkey. destruct (attr_get "parent" params) as [pid|]; [|done].
  destruct (get_by (operations a) pid) as [[r|]|] eqn:Hg; [|done..].
  apply get_by_some in Hg as (p & -> & Hr).
  destruct (negb _) eqn:Ea; [done|]. apply negb_false_iff, val_eqb_str in Ea.
  destruct (attr_get "recipient" params) as [rc|]; [|done].
  destruct (get_by (a_keys a) rc) as [known|]; [|done].
  destruct (attr_get "scope" params) as [sc|]; [|done]. destruct known; [|done].
  destruct (negb _); [done|]. injection H as <- <-. exists p, r.
  split_and!; [by apply Hkey|done|by rewrite Ea|done].
Qed.

(** What an accepted grant says. *)
Lemma delegation_ok a token actor method now c :
  delegation hmac claims_of a token actor method now = Ok c ->
  exists payload text p r, token_parts token = Ok (payload, Some text, hmac (grant_key a) payload) /\
    claims_of text = Ok (VDict c) /\ get "parent" c = Some (VStr p) /\
    operations a !! p = Some r /\ getv "recipient" c = VStr actor.
Proof.
  unfold delegation. set (body := match token_parts token with Ok _ => _ | Err e => _ end).
  intros H. assert (body = Ok c) as Hb by (destruct body as [|[]]; simpl in H; congruence). clear H.
  unfold body in Hb. clear body. destruct (token_parts token) as [[[payload text] sg]|]; [|done].
  destruct (negb _) eqn:Es; [done|]. apply negb_false_iff, String.eqb_eq in Es as ->.
  destruct text as [text|]; [|done]. destruct (claims_of text) as [cl|] eqn:Hc; [|done].
  unfold check_claims in Hb. destruct (subscript "parent" cl) as [pid|] eqn:Hp; [|done].
  destruct (get_by (operations a) pid) as [[r|]|] eqn:Hg; [|done..].
  apply get_by_some in Hg as (p & -> & Hr).
  destruct (subscript "issuer" cl); [|done]. destruct (negb _); [done|].
  destruct (subscript "recipient" cl) as [rc|] eqn:Hrc; [|done].
  destruct (negb (val_eqb rc _)) eqn:Erc; [done|]. apply negb_false_iff, val_eqb_str in Erc as ->.
  destruct (subscript "audience" cl); [|done]. destruct (negb _); [done|].
  destruct (subscript "scope" cl); [|done]. destruct (py_in method _) as [[]|]; [|done..].
  destruct (subscript "expires" cl) as [ex|]; [|done].
  destruct (match ex with VInt z => _ | _ => _ end); [|done]. destruct (_ <=? now); [done|].
  destruct cl as [| | | | | | |cl]; try done. injection Hb as ->.
  exists payload, text, p, r. split_and!; try done.
  - unfold subscript, item in Hp. destruct (get "parent" c); [|done]. by injection Hp as ->.
  - unfold subscript, item in Hrc. unfold getv. destruct (get "recipient" c); [|done]. by injection Hrc as ->.
Qed.

Lemma accepted_descends a q m actor data row o p : lineage (operations a) m -> genuine m a q ->
  json_loads (q_body q) = Ok (VDict data) ->
  check_grant hmac sha256 claims_of a data actor (read_row data (auth_row actor (start_row q)))
      (d_now (q_draw q)) = Ok (row, o, p) ->
  descends (operations a) m (accept_row row o p (q_draw q)).
Proof.
  intros Hlin Hgen Hj Hg. destruct (accepted_row_facts _ _ _ _ _ _ _ Hg) as (_ & Hid & _ & Ho & Hp).
  injection Hid as Hac _. unfold descends. rewrite Hac, Ho, Hp.
  unfold check_grant in Hg. destruct (get "delegation" data) as [token|] eqn:Ht; cycle 1.
  { injection Hg as <- <- <-. by left. }
  destruct (delegation _ _ _ _ _ _ _) as [c|] eqn:Hd; [|done].
  apply delegation_ok in Hd as (payload & text & pid & r & Htp & Hc & Hpar & Hr & Hrec).
  destruct (Hgen _ _ _ _ _ Hj Ht Htp Hc) as (c' & Hc' & Heq).
  destruct (lin_minted _ _ Hlin _ Hc') as (p' & r' & Hp' & Hr' & Hiss & Horig).
  unfold item in Hg. destruct (get "originator" c) as [ov|] eqn:Hov; [|done]. rewrite Hpar in Hg.
  injection Hg as _ <- <-. right.
  unfold getv in Hp', Horig, Hrec. rewrite <- Heq, Hpar in Hp'. injection Hp' as ->.
  rewrite <- Heq, Hov in Horig. exists p', r', c'.
  split_and!; [done|done|done|done|done|]. unfold getv. by rewrite <- Heq.
Qed.

Lemma minted_owned a q : (forall k r, operations a !! k = Some r -> getv "operation" r = VStr k) ->
  forall c, c ∈ minted_at a q -> owned (operations a) c.
Proof.
  intros Hkey c. unfold minted_at. destruct (q_headers q !! "x-agent-key"); [|set_solver].
  destruct (json_loads (q_body q)) as [[]|]; try set_solver.
  destruct (step a q).2 as [[z ?]|]; try set_solver.
  destruct (_ && _); [|set_solver]. destruct (mint _ _ _ _ _) as [[t c']|] eqn:Hm; [|set_solver].
  intros ->%list_elem_of_singleton. by eapply mint_owned.
Qed.

Lemma step_operations a q : operations a !! d_operation (q_draw q) = None ->
  operations a ⊆ operations (step a q).1.
Proof.
  intros Hf. destruct (step_outcome a q); cbn [operations with_ledger with_seen with_operations];
    [done..|by apply insert_subseteq].
Qed.

Lemma step_lineage a m q : lineage (operations a) m -> genuine m a q ->
  operations a !! d_operation (q_draw q) = None ->
  lineage (operations (step a q).1) (m ++ minted_at a q).
Proof.
  intros Hlin Hgen Hf. pose proof (step_operations a q Hf) as Hsub.
  assert (forall k r, operations (step a q).1 !! k = Some r -> operations a !! k = Some r \/
    (getv "operation" r = VStr k /\ descends (operations a) m r)) as Hnew.
  { intros k r. destruct (step_outcome a q) as [| | |actor data row o p resp _ _ Hj Hg _];
      cbn [operations with_ledger with_seen with_operations]; auto.
    intros [[<- <-]|[_ H]]%lookup_insert_Some; [right|auto].
    split; [by destruct (accepted_row_facts _ _ _ _ _ _ _ Hg) as (_ & _ & ? & _)|].
    by eapply accepted_descends. }
  constructor.
  - intros k r [H|[H _]]%Hnew; [by apply (lin_key _ _ Hlin)|done].
  - intros c [Hc|Hc]%elem_of_app; eapply owned_mono; [exact Hsub| |exact Hsub|].
    + by apply (lin_minted _ _ Hlin).
    + eapply minted_owned; [|done]. apply (lin_key _ _ Hlin).
  - intros k r H%Hnew. eapply descends_mono; [exact Hsub|apply (list_subseteq_app_l m m); done|].
    destruct H as [H|[_ H]]; [by apply (lin_row _ _ Hlin k)|done].
Qed.
End spec.

(** C14: a ledger row names an actor only after the request proof verified under
    that actor's own key, over the path, the nonce and the exact body; a request
    is accepted (status 200) only with a nonce the actor has not used, and then
    exactly its row is recorded as accepted. *)
Theorem actor_is_proved hmac sha256 json_loads claims_of a q status response :
  (step hmac sha256 json_loads claims_of a q).2 = Ok (status, response) ->
  exists row, ledger (step hmac sha256 json_loads claims_of a q).1 = ledger a ++ [row] /\
    (status = 200 <-> accepted row) /\
    ((getv "actor" row = VNone /\ ~ accepted row) \/
     exists actor, getv "actor" row = VStr actor /\ proved hmac a q actor /\
       (accepted row -> (actor, nonce_of q) ∉ seen a)).
Proof.
  destruct (step_outcome hmac sha256 json_loads claims_of a q)
    as [e s Hs|row st Hst Hac Hn|s actor row st Hs Hst Hp Hac Hn|actor data row o p resp Hp Hnew _ Hg _];
    intros [= <- <-]; cbn [ledger with_ledger with_seen with_operations]; eexists; split; try reflexivity.
  - split; [done|by left].
  - split; [done|]. right. by exists actor.
  - destruct (accepted_row_facts _ _ _ _ _ _ _ _ _ _ Hg) as (Hacc & [= Hid _] & _).
    split; [done|]. right. by exists actor.
Qed.

(** C16: delegation keeps the originator.  In a run where no grant is forged and
    operation identifiers are fresh, every recorded operation either has no
    parent and its actor as originator, or names as parent a recorded operation
    whose actor issued it a grant, and has that operation's originator. *)
Theorem delegation_lineage hmac sha256 json_loads claims_of key_a key_b grant a minted k row :
  reach hmac sha256 json_loads claims_of (new_authority key_a key_b grant) a minted ->
  operations a !! k = Some row -> descends (operations a) minted row.
Proof.
  intros Hr. assert (lineage (operations a) minted) as Hlin.
  { induction Hr as [|a m q _ IH Hg Hf]; [|by apply step_lineage].
    constructor; [done| |done]. intros c H. by apply not_elem_of_nil in H. }
  apply (lin_row _ _ Hlin).
Qed.

(** A run of three requests: agent A acts, delegates that operation to agent B,
    and B acts under the grant. *)
Definition demo_hmac (_ _ : bytes) : string := "h".
Definition demo_digest (_ : bytes) : string := "s".
Definition demo_json (b : bytes) : result val :=
  match b with
  | [1] => Ok (VDict [("method", VStr "tools/call")])
  | [2] => Ok (VDict [("method", VStr "delegate");
                      ("params", VDict [("parent", VStr "op1"); ("recipient", VStr "agent-B");
                                        ("scope", VList [VStr "tools/call"])])])
  | _ => Ok (VDict [("method", VStr "tools/call"); ("delegation", VStr "x.h")])
  end.
Definition demo_request (actor path nonce : string) (body : Z) (op : string) (now : Z) : request :=
  Request path (<["x-agent-key" := actor]> (<["x-proof-nonce" := nonce]> {["x-request-proof" := "h"]}))
    [body] "c" VNone (Draw "t" op now).
Definition demo_claims : dict :=
  [("issuer", VStr "agent-A"); ("recipient", VStr "agent-B"); ("parent", VStr "op1");
   ("originator", VStr "agent-A"); ("scope", VList [VStr "tools/call"]);
   ("audience", VStr "fixture-tools"); ("expires", VInt 162)].
Definition demo_claims_of (_ : string) : result val := Ok (VDict demo_claims).
Definition demo_authority : authority := new_authority [1] [2] [3].
Definition demo_q1 := demo_request "agent-A" "/mcp" "n1" 1 "op1" 101.
Definition demo_q2 := demo_request "agent-A" "/delegate" "n2" 2 "op2" 102.
Definition demo_q3 := demo_request "agent-B" "/mcp" "n1" 3 "op3" 103.
Definition demo_step := step demo_hmac demo_digest demo_json demo_claims_of.
Definition demo_a2 : authority := (demo_step (demo_step demo_authority demo_q1).1 demo_q2).1.

Lemma actor_is_proved_witness :
  exists row, ledger (demo_step demo_a2 demo_q3).1 = ledger demo_a2 ++ [row] /\ accepted row.
Proof.
  destruct (actor_is_proved demo_hmac demo_digest demo_json demo_claims_of demo_a2 demo_q3 200
    (match (demo_step demo_a2 demo_q3).2 with Ok (_, r) => r | Err _ => [] end)) as (row & Hl & Hs & _).
  - vm_compute. reflexivity.
  - exists row. split; [exact Hl|]. by apply Hs.
Defined.

Lemma delegation_lineage_witness : exists a minted row,
  operations a !! "op3" = Some row /\ getv "parent" row = VStr "op1" /\
  getv "originator" row = VStr "agent-A" /\ descends (operations a) minted row.
Proof.
  pose proof (reach_start demo_hmac demo_digest demo_json demo_claims_of demo_authority) as H0.
  assert (forall m a q data, demo_json (q_body q) = Ok (VDict data) -> get "delegation" data = None ->
    genuine demo_hmac demo_json demo_claims_of m a q) as Hplain.
  { intros m a q data Hj Hd data' token payload text claims Hj' Ht. rewrite Hj in Hj'.
    injection Hj' as <-. by rewrite Hd in Ht. }
  pose proof (reach_step _ _ _ _ _ _ _ demo_q1 H0 (Hplain _ _ demo_q1 [("method", VStr "tools/call")] eq_refl eq_refl)
    ltac:(vm_compute; reflexivity)) as H1.
  pose proof (reach_step _ _ _ _ _ _ _ demo_q2 H1
    (Hplain _ _ demo_q2 [("method", VStr "delegate");
       ("params", VDict [("parent", VStr "op1"); ("recipient", VStr "agent-B");
                         ("scope", VList [VStr "tools/call"])])] eq_refl eq_refl)
    ltac:(vm_compute; reflexivity)) as H2.
  assert (genuine demo_hmac demo_json demo_claims_of
    (([] ++ minted_at demo_hmac demo_digest demo_json demo_claims_of demo_authority demo_q1) ++
     minted_at demo_hmac demo_digest demo_json demo_claims_of (demo_step demo_authority demo_q1).1 demo_q2)
    demo_a2 demo_q3) as Hg.
  { intros data token payload text claims _ _ _ [= <-]. exists demo_claims.
    split; [|done]. vm_compute. left. }
  pose proof (reach_step _ _ _ _ _ _ _ demo_q3 H2 Hg ltac:(vm_compute; reflexivity)) as H3.
  destruct (operations (demo_step demo_a2 demo_q3).1 !! "op3") as [row|] eqn:Hrow;
    [|vm_compute in Hrow; discriminate].
  pose proof (delegation_lineage _ _ _ _ _ _ _ _ _ "op3" row H3 Hrow) as Hd.
  eexists (demo_step demo_a2 demo_q3).1, _, row.
  split; [exact Hrow|]. split; [|split; [|exact Hd]]; clear Hd;
    vm_compute in Hrow; injection Hrow as <-; reflexivity.
Defined.

(** ** The connections of the authority

    A connection is a run of the requests read from its bytes, and its loop ends
    within the bytes it is given. *)

(** What is left after a message is shorter. *)
Lemma read_message_shorter b first hs body rest : read_message b = Message first hs body rest ->
  (length rest < length b)%nat.
Proof.
  unfold read_message. destruct (py_find CRLF2 b 0 <? 0) eqn:Hi; [by destruct (STREAM_LIMIT <? len b - 3)|].
  apply Z.ltb_ge in Hi. destruct (py_find_spec CRLF2 b _ eq_refl Hi) as (pre & t & Hb & Hlen).
  destruct (STREAM_LIMIT <? _); [done|]. set (i := py_find CRLF2 b 0) in *. clearbody i. subst b.
  assert (length (zdrop (i + 4) (pre ++ CRLF2 ++ t)) = length t) as Hr.
  { rewrite zdrop_drop, length_drop, !length_app. unfold len in Hlen. cbn [length CRLF2]. lia. }
  revert Hr. generalize (zdrop (i + 4) (pre ++ CRLF2 ++ t)). intros r Hr.
  destruct (negb _); [done|]. destruct (foldl _ _ _) as [h|]; [|done]. destruct (h !! "transfer-encoding"); [done|].
  destruct (h !! "content-length") as [s|]; [|done]. destruct (py_int s) as [n|]; [|done].
  destruct (negb _); [done|]. destruct (_ <? n); [done|]. intros [= _ _ _ <-].
  rewrite zdrop_drop, length_drop, Hr, !length_app. cbn [length CRLF2]. lia.
Qed.

Section serve.
Variable hmac : bytes -> bytes -> string.
Variable sha256 : bytes -> string.
Variable json_loads : bytes -> result val.
Variable claims_of : string -> result val.

Abbreviation serve := (serve hmac sha256 json_loads claims_of).
Abbreviation run := (run hmac sha256 json_loads claims_of).

(** One round for each byte, and one more, is enough. *)
Lemma serve_enough f1 : forall f2 a b connection peer draws n out,
  (length b < f1)%nat -> (length b < f2)%nat ->
  serve f1 a b connection peer draws n out = serve f2 a b connection peer draws n out.
Proof.
  induction f1 as [|f1 IH]; intros f2 a b connection peer draws n out H1 H2; [lia|].
  destruct f2 as [|f2]; [lia|]. cbn [Authority.serve].
  destruct (read_message b) as [first hs body rest|p|e] eqn:Hm; [|done..].
  apply read_message_shorter in Hm. destruct (str_split first) as [|m [|p [|v [|]]]]; try done.
  destruct (negb (String.eqb m "POST") || negb (String.eqb v "HTTP/1.1")); [done|]. destruct (process _ _ _ _ _ _ _ _ _ _ _) as [a' [ans|e]]; [|done].
  apply IH; lia.
Qed.

(** The requests of a connection are a run of the authority; besides, it only
    records at most one error, at its end. *)
Lemma serve_run fuel : forall a b connection peer draws n out, exists qs es,
  (serve fuel a b connection peer draws n out).1.1 = with_errors (run a qs) (errors (run a qs) ++ es) /\
  (length es <= 1)%nat /\ Forall (fun q => q_connection q = connection /\ q_peer q = peer) qs.
Proof.
  assert (forall (a : authority) e0 (out : list (Z * dict)) (e : exn), exists es : list conn_error, (length es <= 1)%nat /\
    (match e with ValueError _ | KeyError _ | UnicodeError | OSError _ =>
       (with_errors a (errors a ++ [Raised e0]), out, Ok tt) | _ => (a, out, Err e) end).1.1 =
    with_errors a (errors a ++ es)) as Hcaught.
  { intros a e0 out e. destruct e;
      first [exists [Raised e0]; by split; [cbn; lia|]|exists []; split; [cbn; lia|by rewrite app_nil_r; destruct a]]. }
  induction fuel as [|fuel IH]; intros a b connection peer draws n out; cbn [Authority.serve].
  - exists [], []. split_and!; [rewrite app_nil_r; by destruct a|cbn; lia|done].
  - destruct (read_message b) as [first hs body rest|p|e].
    + assert (forall e, exists qs es, (match e with ValueError _ | KeyError _ | UnicodeError | OSError _ =>
         (with_errors a (errors a ++ [Raised e]), out, Ok tt) | _ => (a, out, Err e) end).1.1 =
         with_errors (run a qs) (errors (run a qs) ++ es) /\ (length es <= 1)%nat /\
         Forall (fun q => q_connection q = connection /\ q_peer q = peer) qs) as Hnone.
      { intros e. destruct (Hcaught a e out e) as (es & Hl & He). exists [], es. split_and!; [exact He|done|done]. }
      destruct (str_split first) as [|m [|path [|v [|]]]]; try exact (Hnone (ValueError "not enough values to unpack")).
      destruct (negb (String.eqb m "POST") || negb (String.eqb v "HTTP/1.1")); [exact (Hnone (ValueError "unexpected fixture request"))|].
      set (q := Request path hs body connection peer (draws n)).
      change (process hmac sha256 json_loads claims_of a path hs body connection peer (draws n)) with (step hmac sha256 json_loads claims_of a q).
      destruct (step hmac sha256 json_loads claims_of a q) as [a' [ans|e]] eqn:Hs.
      * destruct (IH a' rest connection peer draws (S n) (out ++ [ans])) as (qs & es & He & Hl & Hq).
        exists (q :: qs), es. cbn [AuthoritySpec.run]. rewrite Hs. split_and!; [exact He|exact Hl|by constructor].
      * destruct (Hcaught a' e out e) as (es & Hl & He). exists [q], es. cbn [AuthoritySpec.run]. rewrite Hs.
        split_and!; [exact He|exact Hl|by constructor].
    + destruct p as [|x p].
      * exists [], []. split_and!; [rewrite app_nil_r; by destruct a|cbn; lia|done].
      * exists [], [Truncated]. by split_and!; [|cbn; lia|].
    + destruct (Hcaught a e out e) as (es & Hl & He). by exists [], es.
Qed.
End serve.

Lemma runs_app hmac sha256 json_loads claims_of qs1 qs2 : forall a,
  run hmac sha256 json_loads claims_of a (qs1 ++ qs2) =
  run hmac sha256 json_loads claims_of (run hmac sha256 json_loads claims_of a qs1) qs2.
Proof. induction qs1 as [|q qs1 IH]; intros a; [done|]. cbn [app run]. apply IH. Qed.

(** C15: a captured request that was accepted once is never accepted again.  After
    any sequence of requests, whatever connections they came from, and after all
    the requests of a further connection, no two accepted rows of the ledger share
    an actor and a nonce.  The connection is served to the end of its bytes, more
    rounds changing nothing, and what it does to the ledger is what a run of
    requests does. *)
Theorem replay_never_accepted hmac sha256 json_loads claims_of key_a key_b grant qs b connection peer draws n out k :
  let start := new_authority key_a key_b grant in
  let a := run hmac sha256 json_loads claims_of start qs in
  let served fuel := serve hmac sha256 json_loads claims_of fuel a b connection peer draws n out in
  let a' := (served (S (length b))).1.1 in
  served (S (length b) + k)%nat = served (S (length b)) /\
  NoDup (accepted_ids (ledger a')) /\
  exists qs', ledger a' = ledger (run hmac sha256 json_loads claims_of start (qs ++ qs')) /\
    Forall (fun q => q_connection q = connection /\ q_peer q = peer) qs'.
Proof.
  cbv zeta. split; [apply serve_enough; lia|].
  destruct (serve_run hmac sha256 json_loads claims_of (S (length b))
    (run hmac sha256 json_loads claims_of (new_authority key_a key_b grant) qs) b connection peer draws n out)
    as (qs' & es & -> & _ & Hq).
  rewrite <- runs_app. cbn [ledger with_errors]. split; [|by exists qs'].
  apply run_fresh. split; [apply NoDup_nil_2|]. intros ? ? H. by apply not_elem_of_nil in H.
Qed.
