(* ===== verification/Sign.v ===== *)
(** * Signing and sending a program (substrate/sign_shield.py, loader-client/ls_client.py)

    The 112-byte binding, the expiry argument, the signing command and the wire
    header of the loader client.  SHA-256, the signature and the clock are
    parameters; the date arithmetic is the calendar's. *)

From S2P Require Import Prelude Text Target.

(** ** [sign_shield] *)

Definition BINDING_LEN : Z := 112.
Definition HOOK_MAX : Z := 64.
Definition MODES : list (string * Z) := [("disable", 0); ("monitor", 1); ("enforce", 2)].

(** [b[i] = v] on a bytearray. *)
Definition set_byte (i : nat) (v : Z) (b : bytes) : result bytes :=
  raise_if (negb ((0 <=? v) && (v <? 256))) (ValueError "byte must be in range(0, 256)") ;;
  Ok (splice i [v] b).

(** [struct.pack_into("<I", b, off, v)]. *)
Definition pack_into32 (off : nat) (v : Z) (b : bytes) : result bytes :=
  let? x := pack_le 4 v in Ok (splice off x b).

Section sign.
Variable sha256_digest : bytes -> bytes.

Definition build_binding (prog : bytes) (hook : string) (build_min build_max mode_ceiling ctx_abi expires_with : Z)
    : result bytes :=
  let h := sha256_digest prog in
  let hb := encode hook in
  raise_if (HOOK_MAX <=? len hb) (SystemExit "hook name too long") ;;
  let b := replicate 112 0 in
  let b := splice 0 h b in
  let b := splice 32 hb b in
  let? b := pack_into32 96 build_min b in
  let? b := pack_into32 100 build_max b in
  let? b := set_byte 104 mode_ceiling b in
  let? b := set_byte 105 ctx_abi b in
  pack_into32 108 expires_with b.

(** ** [parse_expiry] *)

(** Days from 1970-01-01 to a date of the Gregorian calendar. *)
Definition days_from_civil (y m d : Z) : Z :=
  let y := if m <=? 2 then y - 1 else y in
  let era := y / 400 in
  let yoe := y - era * 400 in
  let doy := (153 * (if 2 <? m then m - 3 else m + 9) + 2) / 5 + d - 1 in
  let doe := yoe * 365 + yoe / 4 - yoe / 100 + doy in
  era * 146097 + doe - 719468.

Definition leap (y : Z) : bool := (y mod 4 =? 0) && (negb (y mod 100 =? 0) || (y mod 400 =? 0)).
Definition month_days (y m : Z) : Z :=
  if m =? 2 then (if leap y then 29 else 28) else if mem_Z m [4; 6; 9; 11] then 30 else 31.

(** The number in [n] digits at the front of a text. *)
Fixpoint fixed_digits (n : nat) (l : list ascii) (acc : Z) : option (Z * list ascii) :=
  match n with
  | O => Some (acc, l)
  | S n => match l with
           | c :: t => if is_digit c then fixed_digits n t (10 * acc + (ord c - 48)) else None
           | [] => None
           end
  end.

Definition expect_char (c : Z) (l : list ascii) : option (list ascii) :=
  match l with x :: t => if ord x =? c then Some t else None | [] => None end.

(** The optional time of day after a date: hours, minutes, seconds. *)
Definition time_of_day (l : list ascii) : option (Z * Z * Z) :=
  match l with
  | [] => Some (0, 0, 0)
  | sep :: t =>
      if (ord sep =? 84) || (ord sep =? 32) then
        match fixed_digits 2 t 0 with
        | Some (h, t) =>
            match expect_char 58 t with
            | Some t =>
                match fixed_digits 2 t 0 with
                | Some (mi, []) => Some (h, mi, 0)
                | Some (mi, t) =>
                    match expect_char 58 t with
                    | Some t => match fixed_digits 2 t 0 with
                                | Some (s, []) => Some (h, mi, s)
                                | _ => None
                                end
                    | None => None
                    end
                | None => None
                end
            | None => None
            end
        | None => None
        end
      else None
  end.

(** The fields of a date, when the text has its shape. *)
Definition date_fields (l : list ascii) : option (Z * Z * Z * (Z * Z * Z)) :=
  match fixed_digits 4 l 0 with
  | Some (y, t) =>
      match expect_char 45 t with
      | Some t =>
          match fixed_digits 2 t 0 with
          | Some (m, t) =>
              match expect_char 45 t with
              | Some t =>
                  match fixed_digits 2 t 0 with
                  | Some (d, t) => match time_of_day t with Some hms => Some (y, m, d, hms) | None => None end
                  | None => None
                  end
              | None => None
              end
          | None => None
          end
      | None => None
      end
  | None => None
  end.

(** [datetime.fromisoformat(...).timestamp()] in UTC; a date that does not exist
    is refused. *)
Definition epoch_of (f : Z * Z * Z * (Z * Z * Z)) : result Z :=
  let '(y, m, d, (h, mi, s)) := f in
  raise_if (negb ((1 <=? y) && (1 <=? m) && (m <=? 12) && (1 <=? d) && (d <=? month_days y m)
                  && (h <? 24) && (mi <? 60) && (s <? 60)))
    (ValueError "invalid date") ;;
  Ok (days_from_civil y m d * 86400 + h * 3600 + mi * 60 + s).

(** [\+(\d+)([dhw])]: the number and the seconds of the unit. *)
Fixpoint offset_from (l : list ascii) (some : bool) (acc : Z) : option Z :=
  match l with
  | [u] => if some then
             if ord u =? 104 then Some (acc * 3600)
             else if ord u =? 100 then Some (acc * 86400)
             else if ord u =? 119 then Some (acc * 604800) else None
           else None
  | c :: t => if is_digit c then offset_from t true (10 * acc + (ord c - 48)) else None
  | [] => None
  end.
Definition relative_offset (l : list ascii) : option Z :=
  match l with
  | c :: t => if ord c =? 43 then offset_from t false 0 else None
  | [] => None
  end.

Definition NEVER : Z := 0xFFFFFFFF.
Definition EPOCH_SANE : Z := 1577836800.

Definition parse_expiry (now : Z) (x : string) : result Z :=
  if mem_str x ["never"; "none"; ""] then Ok NEVER else
  let? v :=
    match relative_offset (str_list x) with
    | Some secs => Ok (now + secs)
    | None =>
        match date_fields (str_list x) with
        | Some f => epoch_of f
        | None => match py_int0 x with
                  | Some v => Ok v
                  | None => Err (ValueError "invalid literal for int()")
                  end
        end
    end in
  raise_if (negb (v =? NEVER) && negb (v =? 0) && negb ((EPOCH_SANE <=? v) && (v <=? 0xFFFFFFFE)))
    (ValueError "resolves to an epoch before 2020-01-01") ;;
  Ok v.

(** ** [current_ctx_abi] *)

Fixpoint skip_blank (l : list ascii) : list ascii :=
  match l with c :: t => if is_blank c then skip_blank t else l | [] => [] end.
Fixpoint lead_digits (l : list ascii) (some : bool) (acc : Z) : option Z :=
  match l with
  | c :: t => if is_digit c then lead_digits t true (10 * acc + (ord c - 48))
              else if some then Some acc else None
  | [] => if some then Some acc else None
  end.

(** A definition of the version at the front of a text. *)
Definition abi_here (s : string) : option Z :=
  if starts_with "#define" s then
    let t := drop 7 (str_list s) in
    match t with
    | c :: _ =>
        if is_blank c then
          let u := skip_blank t in
          if starts_with "SHIELD_CTX_ABI_VERSION" (list_str u) then
            let v := drop 22 u in
            match v with
            | c :: _ => if is_blank c then lead_digits (skip_blank v) false 0 else None
            | [] => None
            end
          else None
        else None
    | [] => None
    end
  else None.

Fixpoint current_ctx_abi (text : string) : result Z :=
  match abi_here text with
  | Some v => Ok v
  | None => match text with
            | EmptyString => Err (SystemExit "no SHIELD_CTX_ABI_VERSION")
            | String _ t => current_ctx_abi t
            end
  end.

(** ** [main] *)

(** The signature the key gives of a message; [None] when signing fails. *)
Variable openssl_sign : bytes -> option bytes.

Definition sign (message : bytes) : result bytes :=
  match openssl_sign message with
  | None => Err (SystemExit "signing failed")
  | Some sig => raise_if (negb (len sig =? 64)) (SystemExit "not an Ed25519 signature") ;; Ok sig
  end.

Definition mode_value (name : string) : result Z :=
  match List.find (fun kv => String.eqb kv.1 name) MODES with
  | Some kv => Ok kv.2
  | None => Err (SystemExit "invalid choice")
  end.

Definition sign_main (prog : bytes) (hook : string) (build_min build_max : Z) (mode_ceiling : string)
    (ctx_abi : option Z) (abi_header : string) (now : Z) (expires : string) : result bytes :=
  let? expires_with := parse_expiry now expires in
  let? mode := mode_value mode_ceiling in
  raise_if (negb (bytes_eqb (ztake 4 prog) [0x7f; 0x45; 0x4c; 0x46])) (SystemExit "not an ELF object") ;;
  let? abi := match ctx_abi with Some v => Ok v | None => current_ctx_abi abi_header end in
  let? binding := build_binding prog hook build_min build_max mode abi expires_with in
  let? sig := sign binding in
  Ok (binding ++ sig).
End sign.

(** ** [ls_client] *)

Module Client.
Definition HDR : Z := 192.
Definition OFF_HOOK : Z := 48.
Definition OFF_SIG : Z := 128.
Definition SIG_LEN : Z := 64.
Definition OP_LOAD : Z := 1.
Definition OP_STATUS : Z := 3.
Definition OP_DEV_ARM : Z := 0x1003.
Definition OP_DEV_DISARM : Z := 0x1004.
Definition MODE_ENFORCE : Z := 2.

(** Run when the module is imported. *)
Definition verify_layout : result unit :=
  raise_if (negb (OFF_HOOK =? 16 + 32)) AssertionError ;;
  raise_if (negb (OFF_SIG =? OFF_HOOK + HOOK_MAX)) AssertionError ;;
  raise_if (negb (HDR =? OFF_SIG + SIG_LEN)) AssertionError ;;
  Ok tt.

(** The bytes of a request. *)
Definition request (op : Z) (payload hook : bytes) (slot mode : Z) : result bytes :=
  raise_if (HOOK_MAX - 1 <? len hook) (ValueError "hook name longer than 63 bytes") ;;
  let b := replicate 192 0 in
  let? b := pack_into32 0 op b in
  let? b := pack_into32 4 slot b in
  let? b := set_byte 8 mode b in
  let? b := pack_into32 12 (len payload) b in
  Ok ((match hook with [] => b | _ => splice 48 hook b end) ++ payload).

(** The reply of the loader to some bytes: its text, a timeout, or an error. *)
Inductive reply := Reply (s : string) | TimedOut | Failed (s : string).

Definition send (loader : bytes -> reply) (op : Z) (payload hook : bytes) (slot mode : Z) : result string :=
  let? msg := request op payload hook slot mode in
  Ok (match loader msg with
      | Reply s => str_strip s
      | TimedOut => "*** TIMEOUT"
      | Failed s => String.append "*** " s
      end).

Inductive command := Status | Load (elf hook : bytes) (slot mode : Z) | Arm (entry : bytes) | Disarm (entry : bytes).

(** [main]: the reply printed and the exit status. *)
Definition client_main (loader : bytes -> reply) (c : command) : result (string * Z) :=
  let? r := match c with
            | Status => send loader OP_STATUS [] [] 0 MODE_ENFORCE
            | Load elf hook slot mode => send loader OP_LOAD elf hook slot mode
            | Arm entry => send loader OP_DEV_ARM [] entry 0 MODE_ENFORCE
            | Disarm entry => send loader OP_DEV_DISARM [] entry 0 MODE_ENFORCE
            end in
  Ok (r, if starts_with "***" r || starts_with "ERR" r then 1 else 0).
End Client.

(** ** What a signature covers

    The signed binding is 112 bytes that read back as every argument: the hash of
    the program, the hook, the build range, the mode ceiling, the context ABI and
    the expiry, which is one the loader can enforce. *)

Lemma splice_app off (pre old v post : bytes) : length pre = off -> length old = length v ->
  splice off v (pre ++ old ++ post) = pre ++ v ++ post.
Proof.
  intros <- Ho. unfold splice. rewrite take_app_length. f_equal. f_equal.
  rewrite <- Ho, app_assoc, drop_app_ge by (rewrite length_app; lia).
  by rewrite length_app, Nat.sub_diag, drop_0.
Qed.

Lemma pack_into32_ok off v (b b' pre post old : bytes) : b = pre ++ old ++ post -> length pre = off ->
  length old = 4%nat -> pack_into32 off v b = Ok b' ->
  exists x, length x = 4%nat /\ le_int x = v /\ b' = pre ++ x ++ post.
Proof.
  intros -> Hp Ho. unfold pack_into32. destruct (pack_le 4 v) as [x|] eqn:Hx; [|done]. intros [= <-].
  apply pack_le_ok in Hx as [Hl Hv]. exists x. split_and!; [done|done|]. apply splice_app; congruence.
Qed.

Lemma set_byte_ok off v (b b' pre post : bytes) o : b = pre ++ [o] ++ post -> length pre = off ->
  set_byte off v b = Ok b' -> b' = pre ++ [v] ++ post.
Proof.
  intros -> Hp. unfold set_byte. case_match; [done|]. intros [= <-].
  by apply (splice_app off pre [o] [v] post).
Qed.

(** The fields of a binding, by offset. *)
Definition c_string (b : bytes) : string :=
  decode_ascii ((fix go l := match l with
                             | x :: t => if x =? 0 then [] else x :: go t
                             | [] => []
                             end) b).
Definition read_binding (b : bytes) : bytes * string * Z * Z * Z * Z * bytes * Z :=
  (slice 0 32 b, c_string (slice 32 96 b), le_int (slice 96 100 b), le_int (slice 100 104 b),
   le_int (slice 104 105 b), le_int (slice 105 106 b), slice 106 108 b, le_int (slice 108 112 b)).

Definition no_nul (s : string) : Prop := Forall (fun c => ord c <> 0) (str_list s).

Lemma c_string_padded hook n : no_nul hook -> c_string (encode hook ++ replicate n 0) = hook.
Proof.
  unfold c_string, encode, decode_ascii, no_nul. intros H.
  rewrite <- (list_str_list hook) at 2. f_equal.
  induction H as [|c l Hc _ IH]; cbn [map app]; [by destruct n|].
  destruct (Z.eqb_spec (ord c) 0); [done|]. cbn [map]. by rewrite chr_ord, IH.
Qed.

Section binding.
Variable sha256_digest : bytes -> bytes.
Hypothesis digest_32 : forall p, length (sha256_digest p) = 32%nat.

Lemma build_binding_ok prog hook bmin bmax mode abi expires b : no_nul hook ->
  build_binding sha256_digest prog hook bmin bmax mode abi expires = Ok b ->
  len b = 112 /\
  read_binding b = (sha256_digest prog, hook, bmin, bmax, mode, abi, [0; 0], expires).
Proof.
  intros Hnul. unfold build_binding. cbv zeta. set (h := sha256_digest prog). set (hb := encode hook).
  destruct (Z.leb_spec HOOK_MAX (len hb)) as [|Hhb]; [done|]. unfold HOOK_MAX, len in Hhb.
  assert (length h = 32%nat) as Lh by apply digest_32.
  set (f := hb ++ replicate (64 - length hb) 0).
  assert (length f = 64%nat) as Lf by (unfold f; rewrite length_app, length_replicate; lia).
  assert (splice 32 hb (splice 0 h (replicate 112 0)) = (h ++ f) ++ replicate 16 0) as ->.
  { assert (splice 0 h (replicate 112 0) = h ++ replicate 80 0) as ->.
    { unfold splice. rewrite take_0, Lh. done. }
    assert (replicate 80 0 = replicate (length hb) 0 ++ replicate (64 - length hb) 0 ++ replicate 16 0) as ->.
    { rewrite <- !replicate_add. f_equal. lia. }
    rewrite splice_app by (rewrite ?length_replicate; done). unfold f. by rewrite <- !app_assoc. }
  destruct (pack_into32 96 _ _) as [b1|] eqn:H1; [|done].
  eapply (pack_into32_ok _ _ _ _ (h ++ f) (replicate 12 0) [0; 0; 0; 0]) in H1
    as (x1 & L1 & V1 & ->); [|done|rewrite length_app; lia|done].
  destruct (pack_into32 100 _ _) as [b2|] eqn:H2; [|done].
  eapply (pack_into32_ok _ _ _ _ ((h ++ f) ++ x1) (replicate 8 0) [0; 0; 0; 0]) in H2
    as (x2 & L2 & V2 & ->); [|by rewrite <- !app_assoc|rewrite !length_app; lia|done].
  destruct (set_byte 104 _ _) as [b3|] eqn:H3; [|done].
  eapply (set_byte_ok _ _ _ _ (((h ++ f) ++ x1) ++ x2) (replicate 7 0) 0) in H3 as ->;
    [|by rewrite <- !app_assoc|rewrite !length_app; lia].
  destruct (set_byte 105 _ _) as [b4|] eqn:H4; [|done].
  eapply (set_byte_ok _ _ _ _ ((((h ++ f) ++ x1) ++ x2) ++ [mode]) (replicate 6 0) 0) in H4 as ->;
    [|by rewrite <- !app_assoc|rewrite !length_app; cbn [length]; lia].
  intros H5.
  eapply (pack_into32_ok _ _ _ _ ((((((h ++ f) ++ x1) ++ x2) ++ [mode]) ++ [abi]) ++ [0; 0]) [] [0; 0; 0; 0]) in H5
    as (x3 & L3 & V3 & ->); [|by rewrite <- !app_assoc|rewrite !length_app; cbn [length]; lia|done].
  pose proof (chunks_concat [h; f; x1; x2; [mode]; [abi]; [0; 0]; x3]) as Hc.
  cbn [map concat] in Hc. rewrite Lh, Lf, L1, L2, L3 in Hc. cbn [length] in Hc.
  rewrite app_nil_r in *. rewrite <- !app_assoc.
  split; [unfold len; rewrite !length_app; cbn [length]; lia|].
  revert Hc. match goal with |- _ -> read_binding ?x = _ => set (r := x) end. intros Hc.
  cbn [chunks] in Hc. rewrite !drop_drop in Hc. cbn [Nat.add] in Hc. injection Hc as C1 C2 C3 C4 C5 C6 C7 C8.
  unfold read_binding. rewrite !slice_take_drop.
  change (take 32 (drop 0 r)) with (take 32 r) in *.
  change (Z.to_nat (32 - 0)) with 32%nat. change (Z.to_nat 0) with 0%nat. rewrite drop_0, C1.
  change (Z.to_nat (96 - 32)) with 64%nat. change (Z.to_nat 32) with 32%nat. rewrite C2.
  change (Z.to_nat (100 - 96)) with 4%nat. change (Z.to_nat 96) with 96%nat. rewrite C3.
  change (Z.to_nat (104 - 100)) with 4%nat. change (Z.to_nat 100) with 100%nat. rewrite C4.
  change (Z.to_nat (105 - 104)) with 1%nat. change (Z.to_nat 104) with 104%nat. rewrite C5.
  change (Z.to_nat (106 - 105)) with 1%nat. change (Z.to_nat 105) with 105%nat. rewrite C6.
  change (Z.to_nat (108 - 106)) with 2%nat. change (Z.to_nat 106) with 106%nat. rewrite C7.
  change (Z.to_nat (112 - 108)) with 4%nat. change (Z.to_nat 108) with 108%nat. rewrite C8.
  unfold f, hb. rewrite c_string_padded, V1, V2, V3 by done.
  assert (forall v, le_int [v] = v) as E by (intros; cbn; lia). by rewrite !E.
Qed.
End binding.

Lemma parse_expiry_ok now x v : parse_expiry now x = Ok v ->
  v = NEVER \/ v = 0 \/ EPOCH_SANE <= v < NEVER.
Proof.
  unfold parse_expiry. case_match; [intros [= <-]; by left|].
  destruct (match relative_offset _ with Some _ => _ | None => _ end) as [w|]; [|done].
  destruct (negb _ && _ && _) eqn:E; [done|]. intros [= <-]. unfold NEVER in *. lia.
Qed.

(** *** The context version *)

(** A text that begins with [#define SHIELD_CTX_ABI_VERSION] and the digits of [v]. *)
Definition declaration (l : list ascii) (v : Z) : Prop :=
  exists b1 b2 ds rest,
    l = str_list "#define" ++ b1 ++ str_list "SHIELD_CTX_ABI_VERSION" ++ b2 ++ ds ++ rest /\
    b1 <> [] /\ b2 <> [] /\ Forall (fun c => is_blank c = true) (b1 ++ b2) /\
    ds <> [] /\ Forall (fun c => is_digit c = true) ds /\
    match rest with c :: _ => is_digit c = false | [] => True end /\
    v = foldl (fun a c => 10 * a + (ord c - 48)) 0 ds.

(** The first declaration of the header is of [v]. *)
Definition declares (header : string) (v : Z) : Prop :=
  exists pre l, str_list header = pre ++ l /\ declaration l v /\
    forall pre' l' v', str_list header = pre' ++ l' -> declaration l' v' -> (length pre <= length pre')%nat.

Lemma skip_blank_split l : exists b, l = b ++ skip_blank l /\ Forall (fun c => is_blank c = true) b /\
  match skip_blank l with c :: _ => is_blank c = false | [] => True end.
Proof.
  induction l as [|c l (b & E & Hb & Hr)]; [by exists []|]. cbn [skip_blank].
  destruct (is_blank c) eqn:Hc; [|by exists []]. exists (c :: b). split_and!; [by rewrite E at 1|by constructor|done].
Qed.

Lemma skip_blank_app b l : Forall (fun c => is_blank c = true) b ->
  match l with c :: _ => is_blank c = false | [] => True end -> skip_blank (b ++ l) = l.
Proof.
  induction 1 as [|c b Hc _ IH]; intros Hl.
  - destruct l as [|c l]; [done|]. cbn [app skip_blank]. by rewrite Hl.
  - cbn [app skip_blank]. rewrite Hc. by apply IH.
Qed.

Lemma lead_digits_split l : forall some acc v, lead_digits l some acc = Some v ->
  exists ds rest, l = ds ++ rest /\ Forall (fun c => is_digit c = true) ds /\ (some = false -> ds <> []) /\
    match rest with c :: _ => is_digit c = false | [] => True end /\
    v = foldl (fun a c => 10 * a + (ord c - 48)) acc ds.
Proof.
  induction l as [|c l IH]; intros some acc v; cbn [lead_digits].
  { destruct some; [|done]. intros [= <-]. by exists [], []. }
  destruct (is_digit c) eqn:Hc.
  - intros (ds & rest & -> & Hd & _ & Hr & ->)%IH. exists (c :: ds), rest. split_and!; try done. by constructor.
  - destruct some; [|done]. intros [= <-]. by exists [], (c :: l).
Qed.

Lemma lead_digits_app ds rest : Forall (fun c => is_digit c = true) ds ->
  match rest with c :: _ => is_digit c = false | [] => True end -> forall some acc, (some = false -> ds <> []) ->
  lead_digits (ds ++ rest) some acc = Some (foldl (fun a c => 10 * a + (ord c - 48)) acc ds).
Proof.
  induction 1 as [|c ds Hc _ IH]; intros Hr some acc Hs.
  - destruct some; [|by destruct (Hs eq_refl)]. destruct rest as [|c rest]; [done|]. cbn [app lead_digits]. by rewrite Hr.
  - cbn [app lead_digits]. rewrite Hc. by apply IH.
Qed.

Lemma blank_not_digit c : is_blank c = true -> is_digit c = false.
Proof. unfold is_blank, is_space, is_digit, mem_Z. cbn [existsb]. lia. Qed.

Lemma abi_here_iff s v : abi_here s = Some v <-> declaration (str_list s) v.
Proof.
  split.
  - unfold abi_here. destruct (starts_with "#define" s) eqn:Hd; [|done].
    apply starts_with_list in Hd as [t ->]. cbv zeta.
    assert (drop 7 (str_list "#define" ++ t) = t) as -> by done. destruct t as [|c t]; [done|]. destruct (is_blank c) eqn:Hc; [|done].
    destruct (skip_blank_split (c :: t)) as (b1 & E1 & Hb1 & _). set (u := skip_blank (c :: t)) in *.
    destruct (starts_with _ (list_str u)) eqn:Hn; [|done].
    apply starts_with_list in Hn as [w Hw]. rewrite str_list_str in Hw.
    rewrite Hw. assert (drop 22 (str_list "SHIELD_CTX_ABI_VERSION" ++ w) = w) as -> by done.
    destruct w as [|e w]; [done|]. destruct (is_blank e) eqn:He; [|done].
    destruct (skip_blank_split (e :: w)) as (b2 & E2 & Hb2 & _).
    intros (ds & rest & E3 & Hds & Hne & Hr & ->)%lead_digits_split.
    exists b1, b2, ds, rest. split_and!.
    + by rewrite E1, Hw, E2, E3.
    + intros ->. cbn [app] in E1. rewrite <- E1 in Hw. injection Hw as -> _. by vm_compute in Hc.
    + intros ->. cbn [app] in E2. rewrite <- E2 in E3. destruct ds as [|d ds]; [by apply Hne|].
      injection E3 as -> _. apply Forall_cons in Hds as [Hd _].
      apply blank_not_digit in He. by rewrite He in Hd.
    + by apply Forall_app.
    + by apply Hne.
    + done.
    + done.
    + done.
  - intros (b1 & b2 & ds & rest & E & Hb1 & Hb2 & [Hf1 Hf2]%Forall_app & Hds & Hfd & Hr & ->). unfold abi_here.
    rewrite (starts_with_app _ _ _ E), E. cbv zeta.
    assert (forall t, drop 7 (str_list "#define" ++ t) = t) as -> by done.
    destruct b1 as [|c b1]; [done|]. cbn [app]. pose proof Hf1 as [-> _]%Forall_cons.
    change (c :: b1 ++ ?x) with ((c :: b1) ++ x). rewrite skip_blank_app; [|done|by vm_compute].
    rewrite (starts_with_app _ _ (b2 ++ ds ++ rest)) by (by rewrite str_list_str).
    assert (forall t, drop 22 (str_list "SHIELD_CTX_ABI_VERSION" ++ t) = t) as -> by done.
    destruct b2 as [|e b2]; [done|]. cbn [app]. pose proof Hf2 as [-> _]%Forall_cons.
    change (e :: b2 ++ ?x) with ((e :: b2) ++ x). rewrite skip_blank_app; [|done|].
    + rewrite lead_digits_app; done.
    + destruct ds as [|d ds]; [done|]. apply Forall_cons in Hfd as [Hd _]. cbn [app].
      destruct (is_blank d) eqn:He; [|done]. apply blank_not_digit in He. by rewrite He in Hd.
Qed.

Lemma current_ctx_abi_declares header v : current_ctx_abi header = Ok v -> declares header v.
Proof.
  induction header as [|c s IH]; cbn [current_ctx_abi]; destruct (abi_here _) as [v'|] eqn:Hv; try done.
  - intros [= ->]. exists [], (str_list (String c s)). split_and!; [done|by apply abi_here_iff|]. intros. cbn. lia.
  - intros (pre & l & E & Hl & Hfirst)%IH. exists (c :: pre), l. split_and!; [|done|].
    + change (str_list (String c s)) with (c :: str_list s). by rewrite E.
    + intros [|c' pre'] l' v2 E' Hd.
      * cbn [app] in E'. exfalso. enough (abi_here (String c s) = Some v2) as F by by rewrite F in Hv.
        apply abi_here_iff. by rewrite E'.
      * change (str_list (String c s)) with (c :: str_list s) in E'. injection E' as _ E'.
        cbn [length]. specialize (Hfirst _ _ _ E' Hd). lia.
Qed.

(** What the signer leaves: a 112-byte binding and the key's signature of it, the
    binding reading back as the arguments; the context version, when it is not
    given, is the one the header declares. *)
Definition signed_for (sha256_digest : bytes -> bytes) (openssl_sign : bytes -> option bytes)
    (prog : bytes) (hook : string) (bmin bmax : Z) (ceiling : string) (ctx_abi : option Z) (header : string)
    (now : Z) (expires : string) (binding sig : bytes) : Prop :=
  exists mode abi expiry, openssl_sign binding = Some sig /\
    len binding = 112 /\ len sig = 64 /\ In (ceiling, mode) MODES /\
    parse_expiry now expires = Ok expiry /\
    (expiry = NEVER \/ expiry = 0 \/ EPOCH_SANE <= expiry < NEVER) /\
    match ctx_abi with Some v => abi = v | None => declares header abi end /\
    read_binding binding = (sha256_digest prog, hook, bmin, bmax, mode, abi, [0; 0], expiry).

Lemma sign_main_ok sha256_digest openssl_sign prog hook bmin bmax ceiling ctx_abi header now expires out :
  (forall p, length (sha256_digest p) = 32%nat) -> no_nul hook ->
  sign_main sha256_digest openssl_sign prog hook bmin bmax ceiling ctx_abi header now expires = Ok out ->
  exists binding sig, out = binding ++ sig /\
    signed_for sha256_digest openssl_sign prog hook bmin bmax ceiling ctx_abi header now expires binding sig.
Proof.
  intros Hd Hn. unfold sign_main. destruct (parse_expiry now expires) as [expiry|] eqn:He; [|done].
  unfold mode_value. destruct (List.find _ MODES) as [[nm mode]|] eqn:Hm; [|done].
  apply List.find_some in Hm as [Hin Hnm]. cbn [fst] in Hnm. apply String.eqb_eq in Hnm as ->.
  case_match; [done|]. destruct (match ctx_abi with Some _ => _ | None => _ end) as [abi|] eqn:Ha; [|done].
  destruct (build_binding _ _ _ _ _ _ _ _) as [binding|] eqn:Hb; [|done].
  unfold sign. destruct (openssl_sign binding) as [sig|] eqn:Hs; [|done].
  destruct (Z.eqb_spec (len sig) 64) as [Hl|]; [|done]. intros [= <-].
  destruct (build_binding_ok _ Hd _ _ _ _ _ _ _ _ Hn Hb) as [Hlb Hr].
  exists binding, sig. split; [done|]. exists mode, abi, expiry.
  split_and!; try done; [by eapply parse_expiry_ok|].
  destruct ctx_abi as [v|]; [by injection Ha|by apply current_ctx_abi_declares].
Qed.

(** One signature covers everything.  The file the signer writes is a
    112-byte binding and the key's 64-byte signature of exactly those bytes, and
    the binding reads back as the hash of the program, the hook, the build range,
    the mode ceiling asked for, the context ABI and the expiry, with zero padding;
    the expiry is never, zero, or an instant after 2020 that fits its field. *)
Theorem signature_covers_arguments sha256_digest openssl_sign prog hook bmin bmax ceiling ctx_abi header now expires out :
  (forall p, length (sha256_digest p) = 32%nat) -> no_nul hook ->
  sign_main sha256_digest openssl_sign prog hook bmin bmax ceiling ctx_abi header now expires = Ok out ->
  exists binding sig, out = binding ++ sig /\
    signed_for sha256_digest openssl_sign prog hook bmin bmax ceiling ctx_abi header now expires binding sig.
Proof. apply sign_main_ok. Qed.

Lemma signature_covers_arguments_witness :
  exists out, sign_main (fun _ => replicate 32 7) (fun _ => Some (replicate 64 9))
    [0x7f; 0x45; 0x4c; 0x46] "rst_why" 0 0xffffffff "monitor" None
    "#define SHIELD_CTX_ABI_VERSION 3" 1700000000 "2026-12-31" = Ok out /\
  exists binding sig mode abi expiry, out = binding ++ sig /\ In ("monitor", mode) MODES /\
    read_binding binding = (replicate 32 7, "rst_why", 0, 0xffffffff, mode, abi, [0; 0], expiry).
Proof.
  eexists. split; [vm_compute; reflexivity|].
  destruct (signature_covers_arguments (fun _ => replicate 32 7) (fun _ => Some (replicate 64 9))
    [0x7f; 0x45; 0x4c; 0x46] "rst_why" 0 0xffffffff "monitor" None
    "#define SHIELD_CTX_ABI_VERSION 3" 1700000000 "2026-12-31"
    (match sign_main (fun _ => replicate 32 7) (fun _ => Some (replicate 64 9))
       [0x7f; 0x45; 0x4c; 0x46] "rst_why" 0 0xffffffff "monitor" None
       "#define SHIELD_CTX_ABI_VERSION 3" 1700000000 "2026-12-31" with Ok o => o | Err _ => [] end))
    as (binding & sig & Ho & mode & abi & expiry & Hs & Hlb & Hls & Hm & _ & _ & _ & Hr).
  - reflexivity.
  - repeat constructor; discriminate.
  - vm_compute. reflexivity.
  - exists binding, sig, mode, abi, expiry. split; [rewrite <- Ho; vm_compute; reflexivity|].
    split; [exact Hm|exact Hr].
Defined.
