(* ===== verification/Admit.v ===== *)
(** * Exit-hook admission (substrate/exit_admit.py, completion_admit.py)

    The two gates as functions of the texts the tools print ([nm], [gdb],
    [readelf], [llvm-dwarfdump]) and of their exit statuses; [exit_admit] reads
    what [gdb] and [nm] printed whatever their status. *)

From S2P Require Import Prelude Text Target.

(** What a command left: its exit status and the text it printed. *)
Record output := Completed { returncode : Z; stdout : string }.

(** [_Miss]: a command that cannot be run. *)
Definition Miss : output := Completed 127 "".

Definition UNWIND_INITIATORS : list string :=
  ["_Unwind_RaiseException"; "_Unwind_ForcedUnwind"; "_Unwind_Resume";
   "__cxa_throw"; "__cxa_begin_catch"; "__cxa_rethrow"].

(** ** [func_addr] *)

Definition symbol_row (fn line : string) : option string :=
  match str_split line with
  | [addr; kind; name] =>
      if String.eqb name fn && mem_str kind ["T"; "t"; "W"; "w"] then Some addr else None
  | _ => None
  end.

Fixpoint first_symbol (fn : string) (lines : list string) : option Z :=
  match lines with
  | [] => None
  | l :: t => match symbol_row fn l with
              | Some addr => py_int16 addr
              | None => first_symbol fn t
              end
  end.
Definition func_addr (nm : output) (fn : string) : option Z := first_symbol fn (text_lines (stdout nm)).

(** ** [frame_has_lsda] *)

Definition is_hex_lower (c : ascii) : bool :=
  is_digit c || ((97 <=? ord c) && (ord c <=? 102)).

Fixpoint hex_run (l : list ascii) : list ascii * list ascii :=
  match l with
  | c :: t => if is_hex_lower c then let '(a, b) := hex_run t in (c :: a, b) else ([], l)
  | [] => ([], [])
  end.
Definition hex_value (l : list ascii) : Z := default 0 (base_digits 16 l false 0).

(** [pc=([0-9a-f]+)\.\.\.([0-9a-f]+)] at the front of a text. *)
Definition pc_here (l : list ascii) : option (Z * Z) :=
  match l with
  | p :: c :: e :: t =>
      if (ord p =? 112) && (ord c =? 99) && (ord e =? 61) then
        match hex_run t with
        | (a :: lo, d1 :: d2 :: d3 :: t') =>
            if (ord d1 =? 46) && (ord d2 =? 46) && (ord d3 =? 46) then
              match hex_run t' with
              | (b :: hi, _) => Some (hex_value (a :: lo), hex_value (b :: hi))
              | _ => None
              end
            else None
        | _ => None
        end
      else None
  | _ => None
  end.

(** The last place a range is found: the dots before it are greedy. *)
Fixpoint last_pc (l : list ascii) : option (Z * Z) :=
  match l with
  | [] => None
  | _ :: t => match last_pc t with Some r => Some r | None => pc_here l end
  end.

(** [FDE .*pc=...] searched in a line. *)
Fixpoint fde_range (l : list ascii) : option (Z * Z) :=
  match l with
  | [] => None
  | _ :: t => if starts_with "FDE " (list_str l) then last_pc (drop 4 l) else fde_range t
  end.

Definition within (addr : Z) (r : Z * Z) : bool := (r.1 <=? addr) && (addr <? r.2).

(** The loop over the frame lines: the range of the last FDE and whether an LSDA
    followed it. *)
Fixpoint scan_frames (addr : Z) (lines : list string) (cur : option (Z * Z)) (lsda : bool) : bool * bool :=
  match lines with
  | [] => match cur with
          | Some r => if within addr r then (lsda, true) else (false, true)
          | None => (false, true)
          end
  | l :: t =>
      match fde_range (str_list l) with
      | Some r =>
          match cur with
          | Some r0 => if within addr r0 then (lsda, true) else scan_frames addr t (Some r) false
          | None => scan_frames addr t (Some r) false
          end
      | None => scan_frames addr t cur (lsda || str_contains "LSDA Address" l)
      end
  end.

(** [dwarfdump] is the frame table of the first tool that answers, [Miss] when
    there is none. *)
Definition frame_has_lsda (dwarfdump : output) (addr : option Z) : bool * bool :=
  match addr with
  | Some a => if returncode dwarfdump =? 0 then scan_frames a (text_lines (stdout dwarfdump)) None false
              else (false, false)
  | None => (false, false)
  end.

(** ** [return_type], [classify_return] *)

(** [s.rsplit(" (", 1)[0]] when the separator occurs. *)
Fixpoint before_last_paren (l : list ascii) : option (list ascii) :=
  match l with
  | [] => None
  | c :: t => match before_last_paren t with
              | Some r => Some (c :: r)
              | None => if starts_with " (" (list_str l) then Some [] else None
              end
  end.

Fixpoint first_type (lines : list string) : option string :=
  match lines with
  | [] => None
  | l :: t =>
      let line := str_strip l in
      if starts_with "type = " line then
        let body := drop 7 (str_list line) in
        Some (str_strip (list_str (default body (before_last_paren body))))
      else first_type t
  end.
Definition return_type (gdb : output) : option string := first_type (text_lines (stdout gdb)).

Definition ends_with_star (s : string) : bool :=
  match last (str_list s) with Some c => ord c =? 42 | None => false end.

Definition FLOATS : list string := ["float"; "double"; "long double"; "_Float"; "__float"].
Definition RECORDS : list string := ["struct "; "union "; "class "].
Definition INTEGERS : list string :=
  ["enum"; "int"; "unsigned"; "char"; "short"; "long"; "signed"; "_Bool"; "bool"; "uint"; "u_int";
   "size_t"; "ssize_t"; "int8"; "int16"; "int32"; "int64"; "uint8"; "uint16"; "uint32"; "uint64"].
Definition starts_any (l : list string) (s : string) : bool := existsb (fun p => starts_with p s) l.

Definition classify_return (t : option string) : bool :=
  match t with
  | None => false
  | Some t =>
      let ts := str_strip t in
      if ends_with_star ts then true
      else if String.eqb ts "void" then false
      else if starts_any FLOATS ts then false
      else if starts_any RECORDS ts then false
      else starts_any INTEGERS ts
  end.

(** ** [unwind_clear] *)

Definition is_word (c : ascii) : bool :=
  is_digit c || ((65 <=? ord c) && (ord c <=? 90)) || ((97 <=? ord c) && (ord c <=? 122)) || (ord c =? 95).

(** [\bname\b] searched in a text; [before] says whether a word character came
    just before it. *)
Fixpoint word_in (name : string) (before : bool) (l : list ascii) : bool :=
  match l with
  | [] => false
  | c :: t =>
      (negb before && starts_with name (list_str l) &&
       match drop (length (str_list name)) l with
       | d :: _ => negb (is_word d)
       | [] => true
       end) || word_in name (is_word c) t
  end.

Definition imports_of (readelf : string) : list string :=
  flat_map (fun line => if str_contains " UND " line
                        then List.filter (fun s => word_in s false (str_list line)) UNWIND_INITIATORS
                        else []) (text_lines readelf).

(** The unwind initiators found; a failed scan counts as one. *)
Definition unwind_found (readelf : output) : list string :=
  if returncode readelf =? 0 then imports_of (stdout readelf) else ["unwind symbol scan failed"].

(** ** [main] *)

(** The exit status.  The refusal for unwind imports formats a message with two
    places and one argument, which raises. *)
Definition exit_main (gdb nm readelf dwarfdump : output) (fn : string) : result Z :=
  let safe_ret := classify_return (return_type gdb) in
  let clear := match unwind_found readelf with [] => true | _ => false end in
  let '(lsda, decided) := frame_has_lsda dwarfdump (func_addr nm fn) in
  if safe_ret && (clear && negb lsda) then Ok 0
  else raise_if (negb clear) TypeError ;; Ok 1.

(** ** [completion_admit.admit] *)

Definition name_start (c : ascii) : bool := is_word c && negb (is_digit c).
Definition name_char (c : ascii) : bool := is_word c || (ord c =? 46).
Definition valid_name (s : string) : bool :=
  match str_list s with c :: t => name_start c && forallb name_char t | [] => false end.

(** The frame loop of the completion gate: an LSDA inside the current FDE. *)
Fixpoint frame_lsda (addr : Z) (lines : list string) (current : bool) : bool :=
  match lines with
  | [] => false
  | l :: t =>
      match fde_range (str_list l) with
      | Some r => frame_lsda addr t (within addr r)
      | None => (current && str_contains "LSDA Address" l) || frame_lsda addr t current
      end
  end.

(** A command that fails raises. *)
Definition checked_output (o : output) : result string :=
  if returncode o =? 0 then Ok (stdout o) else Err (RuntimeError "CalledProcessError").

Definition completion_admit (debug binary : bytes) (gdb nm readelf dwarfdump : output) (function : string)
    : result (string * Z) :=
  raise_if (negb (valid_name function)) (ValueError "unsupported function name") ;;
  let? runtime_id := build_id binary in
  raise_if (negb (strlen runtime_id =? 40)) (ValueError "matching full runtime and debug build IDs required") ;;
  let? debug_id := build_id debug in
  raise_if (negb (String.eqb debug_id runtime_id))
    (ValueError "matching full runtime and debug build IDs required") ;;
  let? types := checked_output gdb in
  let lines := map str_strip (List.filter (starts_with "type = ") (text_lines types)) in
  raise_if (match lines with [l] => negb (starts_with "type = void (" l) | _ => true end)
    (ValueError "completion snapshots require an exact void return") ;;
  let? symbols := checked_output nm in
  match omap (symbol_row function) (text_lines symbols) with
  | [addr] =>
      match py_int16 addr with
      | None => Err (ValueError "invalid literal for int()")
      | Some address =>
          let? dynamic := checked_output readelf in
          raise_if (match imports_of dynamic with [] => false | _ => true end)
            (ValueError "runtime imports an unwind initiator") ;;
          let? frames := checked_output dwarfdump in
          raise_if (frame_lsda address (text_lines frames) false) (ValueError "target frame carries an LSDA") ;;
          Ok (runtime_id, address)
      end
  | _ => Err (ValueError "missing or ambiguous target symbol")
  end.

(** ** What admission establishes

    An admitted exit target returns a value in rax, the runtime imports no unwind
    initiator and the frame of the target carries no LSDA, as far as the tools
    decide it.  Two behaviours differ from the tool's own description: unwind
    imports end in an exception, and a frame no tool could check is admitted. *)

(** The frame table as blocks: the range of each FDE and whether an LSDA line
    follows it before the next one. *)
Fixpoint blocks (cur : option (Z * Z)) (lsda : bool) (lines : list string) : list (Z * Z * bool) :=
  let closed := match cur with Some r => [(r, lsda)] | None => [] end in
  match lines with
  | [] => closed
  | l :: t =>
      match fde_range (str_list l) with
      | Some r => closed ++ blocks (Some r) false t
      | None => blocks cur (lsda || str_contains "LSDA Address" l) t
      end
  end.

Fixpoint covering (addr : Z) (bs : list (Z * Z * bool)) : option bool :=
  match bs with
  | [] => None
  | (r, b) :: t => if within addr r then Some b else covering addr t
  end.

Lemma covering_app addr a b : covering addr (a ++ b) =
  match covering addr a with Some x => Some x | None => covering addr b end.
Proof. induction a as [|[r x] a IH]; simpl; [done|]. by destruct (within addr r). Qed.

(** The streaming loop finds the first block that covers the address. *)
Lemma scan_frames_blocks addr lines : forall cur lsda,
  scan_frames addr lines cur lsda = (default false (covering addr (blocks cur lsda lines)), true).
Proof.
  induction lines as [|l t IH]; intros cur lsda; cbn [scan_frames blocks].
  - destruct cur as [r|]; [|done]. cbn [covering]. by destruct (within addr r).
  - destruct (fde_range (str_list l)) as [r|]; [|apply IH].
    rewrite covering_app. destruct cur as [r0|]; cbn [covering]; [|apply IH].
    destruct (within addr r0); [done|apply IH].
Qed.

(** The completion gate refuses when any block that covers the address has one. *)
Lemma frame_lsda_blocks addr lines : forall cur lsda,
  frame_lsda addr lines (match cur with Some r => within addr r | None => false end) = false ->
  (forall r, cur = Some r -> within addr r = true -> lsda = false) ->
  forall r b, (r, b) ∈ blocks cur lsda lines -> within addr r = true -> b = false.
Proof.
  induction lines as [|l t IH]; intros cur lsda H Hc r b; cbn [blocks frame_lsda] in *.
  - destruct cur as [r0|]; [|by intros ?%not_elem_of_nil].
    intros [= -> ->]%list_elem_of_singleton Hw. by eapply Hc.
  - destruct (fde_range (str_list l)) as [r1|].
    + intros [Hin|Hin]%elem_of_app Hw.
      * destruct cur as [r0|]; [|by apply not_elem_of_nil in Hin].
        apply list_elem_of_singleton in Hin as [= -> ->]. by eapply Hc.
      * by apply (IH (Some r1) false H ltac:(done) r b).
    + apply orb_false_iff in H as [H1 H2]. apply (IH cur _ H2). intros r0 -> Hw.
      rewrite Hw in H1. cbn in H1. by rewrite H1, (Hc r0 eq_refl Hw).
Qed.

(** A name of the text that no letter, digit or underscore runs into. *)
Definition named_after (before : bool) (s : string) (l : list ascii) : Prop :=
  exists a b, l = a ++ str_list s ++ b /\
    match last a with Some c => is_word c = false | None => before = false end /\
    match b with c :: _ => is_word c = false | [] => True end.
Definition named_in (s : string) (line : string) : Prop := named_after false s (str_list line).

Lemma word_in_iff s : s <> "" -> forall l before, word_in s before l = true <-> named_after before s l.
Proof.
  intros Hs. assert (str_list s <> []) as Hne by by destruct s. induction l as [|c t IH]; intros before.
  - split; [done|]. intros (a & b & H & _). symmetry in H. apply app_eq_nil in H as [_ H]. by apply app_eq_nil in H as [H _].
  - cbn [word_in]. rewrite orb_true_iff, IH, !andb_true_iff, negb_true_iff. split.
    + intros [[[Hb Hp] Hd]|(a & b & -> & Ha & Hb)].
      * apply starts_with_list in Hp as (b & Hp). rewrite str_list_str in Hp. exists [], b. split; [exact Hp|].
        split; [exact Hb|]. rewrite Hp, drop_app_length in Hd. destruct b; [done|]. by apply negb_true_iff in Hd.
      * exists (c :: a), b. split; [done|]. split; [|done]. rewrite last_cons. by destruct (last a).
    + intros (a & b & Hl & Ha & Hb). destruct a as [|c' a].
      * left. cbn [app last] in *. split; [split; [done|]|].
        -- apply (starts_with_app s _ b). by rewrite str_list_str.
        -- rewrite Hl, drop_app_length. destruct b; [done|]. by rewrite Hb.
      * right. injection Hl as <- ->. exists a, b. split; [done|]. split; [|done]. rewrite last_cons in Ha. by destruct (last a).
Qed.

(** No line of the dynamic symbols names an unwind initiator as undefined. *)
Definition no_unwind (text : string) : Prop :=
  forall line s, line ∈ text_lines text -> str_contains " UND " line = true -> In s UNWIND_INITIATORS ->
    ~ named_in s line.

Lemma imports_nil text : imports_of text = [] <-> no_unwind text.
Proof.
  assert (forall s line, In s UNWIND_INITIATORS -> word_in s false (str_list line) = true <-> named_in s line) as Hw.
  { intros s line Hs. apply word_in_iff. intros ->. by repeat destruct Hs as [Hs|Hs]. }
  unfold imports_of, no_unwind. split.
  - intros H line s Hl Hu Hs Hn. apply (Hw s line Hs) in Hn.
    assert (In s (flat_map (fun line => if str_contains " UND " line
      then List.filter (fun s => word_in s false (str_list line)) UNWIND_INITIATORS else [])
      (text_lines text))) as Hin; [|by rewrite H in Hin].
    apply in_flat_map. exists line. split; [by apply list_elem_of_In|]. rewrite Hu.
    by apply filter_In.
  - intros H. destruct (flat_map _ _) as [|s l] eqn:E; [done|]. exfalso.
    assert (In s (s :: l)) as Hin by by left. rewrite <- E in Hin. apply in_flat_map in Hin as (line & Hl & Hin).
    destruct (str_contains " UND " line) eqn:Hu; [|done]. apply filter_In in Hin as [Hs Hin].
    apply (H line s); [by apply list_elem_of_In|done..|]. by apply Hw.
Qed.

(** ** Return types, as the debugger spells them

    What a C function returns, with its spelling and with where the calling
    convention leaves the value: in rax (and rdx) for a pointer, an integer or an
    enumeration; elsewhere, or nowhere, for the others. *)

Inductive int_word := WSigned | WUnsigned | WShort | WLong | WInt | WChar | WBool.
Inductive floating := Float | Double | LongDouble | Float16 | Float128 | GnuFloat128.
Inductive record_kind := Struct | Union | Class.

Inductive return_value :=
| Nothing
| Pointer (to : string)
| Integer (w : int_word) (ws : list int_word)
| Enumeration (tag : option string)
| Floating (f : floating)
| ByValue (k : record_kind) (tag : option string).

Definition in_rax (v : return_value) : bool :=
  match v with Pointer _ | Integer _ _ | Enumeration _ => true | Nothing | Floating _ | ByValue _ _ => false end.

Definition word_text (w : int_word) : string :=
  match w with
  | WSigned => "signed" | WUnsigned => "unsigned" | WShort => "short" | WLong => "long"
  | WInt => "int" | WChar => "char" | WBool => "_Bool"
  end.
Fixpoint words_text (w : int_word) (ws : list int_word) : string :=
  match ws with [] => word_text w | w' :: ws => cat [word_text w; " "; words_text w' ws] end.
Definition floating_text (f : floating) : string :=
  match f with
  | Float => "float" | Double => "double" | LongDouble => "long double"
  | Float16 => "_Float16" | Float128 => "_Float128" | GnuFloat128 => "__float128"
  end.
Definition record_text (k : record_kind) : string :=
  match k with Struct => "struct " | Union => "union " | Class => "class " end.
Definition tag_text (tag : option string) : string := default "{...}" tag.

Definition spelling (v : return_value) : string :=
  match v with
  | Nothing => "void"
  | Pointer to => cat [to; " *"]
  | Integer w ws => words_text w ws
  | Enumeration tag => cat ["enum "; tag_text tag]
  | Floating f => floating_text f
  | ByValue k tag => cat [record_text k; tag_text tag]
  end.

(** A tag is a name, a pointer is to a type that is spelled from its first letter. *)
Definition spellable (v : return_value) : Prop :=
  match v with
  | Pointer to => exists c t, str_list to = c :: t /\ is_blank c = false
  | Enumeration (Some tag) | ByValue _ (Some tag) => tag <> "" /\ Forall (fun c => is_word c = true) (str_list tag)
  | _ => True
  end.

(** The first type line is [type = <ret> (<params>)], with no parenthesis among the
    parameters. *)
Definition declares (gdb : output) (v : return_value) : Prop :=
  spellable v /\ exists before line after params,
    text_lines (stdout gdb) = before ++ line :: after /\
    Forall (fun l => starts_with "type = " (str_strip l) = false) before /\
    str_strip line = cat ["type = "; spelling v; " ("; params; ")"] /\
    Forall (fun c => c <> "("%char) (str_list params).

(** A text that neither begins nor ends with white space. *)
Definition begins_shown (s : string) : Prop := exists c t, str_list s = c :: t /\ is_blank c = false.
Definition ends_shown (s : string) : Prop := exists t c, str_list s = t ++ [c] /\ is_blank c = false.

Lemma begins_cat a l : begins_shown a -> begins_shown (cat (a :: l)).
Proof. intros (c & t & H & Hc). unfold begins_shown. rewrite str_list_cat. cbn [map concat]. rewrite H. by eexists _, _. Qed.

Lemma ends_cat l b : ends_shown b -> ends_shown (cat (l ++ [b])).
Proof.
  intros (t & c & H & Hc). unfold ends_shown. rewrite str_list_cat, map_app, concat_app. cbn [map concat].
  rewrite app_nil_r, H, app_assoc. by eexists _, _.
Qed.

Lemma strip_trimmed s : begins_shown s -> ends_shown s -> str_strip s = s.
Proof.
  intros (c & t & Hs & Hc) (t' & d & Hs' & Hd). unfold str_strip. rewrite Hs. cbn [lstrip]. rewrite Hc, <- Hs, Hs'.
  rewrite reverse_snoc. cbn [lstrip]. rewrite Hd, reverse_cons, reverse_involutive, <- Hs'. apply list_str_list.
Qed.

Lemma word_not_blank c : is_word c = true -> is_blank c = false /\ ord c <> 42.
Proof. unfold is_word, is_blank, is_space, is_digit. lia. Qed.

Lemma tag_ends tag : match tag with Some t => t <> "" /\ Forall (fun c => is_word c = true) (str_list t) | None => True end ->
  exists t c, str_list (tag_text tag) = t ++ [c] /\ is_blank c = false /\ ord c <> 42.
Proof.
  destruct tag as [tag|]; cbn [tag_text default].
  - intros [Hne Hw]. destruct (@exists_last _ (str_list tag)) as (l & x & E); [by destruct tag|].
    rewrite E in *. apply Forall_app in Hw as [_ Hx]. apply Forall_singleton, word_not_blank in Hx. by exists l, x.
  - intros _. exists (str_list "{..."), "}"%char. done.
Qed.

Lemma words_trimmed w ws : begins_shown (words_text w ws) /\ ends_shown (words_text w ws).
Proof.
  revert w. induction ws as [|w' ws IH]; intros w; cbn [words_text].
  - split; [by destruct w; eexists _, _|].
    exists (removelast (str_list (word_text w))), (List.last (str_list (word_text w)) "x"%char). by destruct w.
  - split; [apply begins_cat; by destruct w; eexists _, _|].
    apply (ends_cat [word_text w; " "]), IH.
Qed.

Lemma spelling_trimmed v : spellable v -> begins_shown (spelling v) /\ ends_shown (spelling v).
Proof.
  destruct v as [|to|w ws|tag|f|k tag]; cbn [spelling spellable]; intros H.
  - split; [by eexists _, _|]. by exists (str_list "voi"), "d"%char.
  - split; [by apply begins_cat|]. apply (ends_cat [to] " *"). by exists [" "%char], "*"%char.
  - apply words_trimmed.
  - split; [by eexists _, _|]. apply (ends_cat ["enum "]). apply tag_ends in H as (t & c & ? & ? & _). by exists t, c.
  - split; [by destruct f; eexists _, _|]. exists (removelast (str_list (floating_text f))), (List.last (str_list (floating_text f)) "x"%char). by destruct f.
  - split; [by destruct k; eexists _, _|]. apply (ends_cat [record_text k]).
    apply tag_ends in H as (t & c & ? & ? & _). by exists t, c.
Qed.

Lemma star_of s t c : str_list s = t ++ [c] -> ends_with_star s = (ord c =? 42).
Proof. intros H. unfold ends_with_star. by rewrite H, last_snoc. Qed.

(** The classification of a type that is spelled so. *)
Lemma classify_spelling v : spellable v -> classify_return (Some (spelling v)) = in_rax v.
Proof.
  intros H. destruct (spelling_trimmed v H) as [Ho Hc]. unfold classify_return. rewrite strip_trimmed by done.
  destruct v as [|to|w ws|tag|f|k tag]; cbn [spelling spellable in_rax] in *; clear Ho Hc.
  - done.
  - rewrite (star_of _ (str_list to ++ [" "%char]) "*"%char); [done|]. rewrite str_list_cat. cbn. by rewrite <- app_assoc.
  - destruct (ends_with_star _); [done|]. destruct ws as [|w2 [|w3 ws]]; [by destruct w|by destruct w, w2..].
  - by destruct (ends_with_star _).
  - by destruct f.
  - apply tag_ends in H as (t & c & Ht & _ & H42).
    rewrite (star_of _ (str_list (record_text k) ++ t) c).
    2:{ rewrite str_list_cat. cbn [map concat]. by rewrite Ht, app_nil_r, app_assoc. }
    rewrite (proj2 (Z.eqb_neq _ _)) by done. by destruct k.
Qed.

Lemma before_last_paren_app a b : before_last_paren ("("%char :: b) = None ->
  before_last_paren (a ++ " "%char :: "("%char :: b) = Some a.
Proof.
  intros Hb. induction a as [|c a IH]; cbn [app].
  - change (before_last_paren (" "%char :: "("%char :: b)) with
      (match before_last_paren ("("%char :: b) with
       | Some r => Some (" "%char :: r)
       | None => if starts_with " (" (list_str (" "%char :: "("%char :: b)) then Some [] else None end).
    by rewrite Hb.
  - cbn [before_last_paren]. by rewrite IH.
Qed.

Lemma no_last_paren c b : Forall (fun x => x <> "("%char) b -> before_last_paren (c :: b) = None.
Proof.
  intros H. revert c. induction H as [|x b Hx Hb IH]; intros c; cbn [before_last_paren].
  - destruct (starts_with _ _) eqn:E; [|done]. apply starts_with_list in E as (t & E). by rewrite str_list_str in E.
  - specialize (IH x). cbn [before_last_paren] in IH. rewrite IH. clear IH. destruct (starts_with _ _) eqn:E; [|done].
    apply starts_with_list in E as (t & E). rewrite str_list_str in E. cbn in E. congruence.
Qed.

Lemma declares_type gdb v : declares gdb v -> return_type gdb = Some (spelling v).
Proof.
  intros (Hv & before & line & after & params & Ht & Hb & Hl & Hp). destruct (spelling_trimmed v Hv) as [Ho Hc].
  unfold return_type. rewrite Ht. clear Ht. induction Hb as [|l before Hlb _ IH]; cbn [app first_type].
  - assert (str_list (str_strip line) = str_list "type = " ++ str_list (spelling v) ++
      " "%char :: "("%char :: str_list params ++ [")"%char]) as Hs.
    { rewrite Hl, str_list_cat. cbn [map concat]. by rewrite app_nil_r. }
    rewrite (starts_with_app "type = " _ _ Hs), Hs. f_equal.
    change (drop 7 (str_list "type = " ++ ?x)) with x.
    rewrite before_last_paren_app; cycle 1.
    { apply no_last_paren, Forall_app. split; [done|by repeat constructor]. }
    cbn [from_option id]. rewrite list_str_list. by apply strip_trimmed.
  - by rewrite Hlb.
Qed.

(** An exit is safe as far as the tools say: there is a declared return type and, when
    it is one spelled as above, its value is in rax; the symbol scan succeeded and
    names no unwind initiator; and when the frame table was read and the symbols
    have the function, the block that covers it carries no LSDA. *)
Definition exit_safe (gdb nm readelf dwarfdump : output) (fn : string) : Prop :=
  return_type gdb <> None /\ (forall v, declares gdb v -> in_rax v = true) /\
  (returncode readelf = 0 /\ no_unwind (stdout readelf)) /\
  (forall a, returncode dwarfdump = 0 -> func_addr nm fn = Some a ->
     covering a (blocks None false (text_lines (stdout dwarfdump))) <> Some true).

Lemma unwind_found_nil readelf : unwind_found readelf = [] <-> returncode readelf = 0 /\ no_unwind (stdout readelf).
Proof.
  unfold unwind_found. destruct (Z.eqb_spec (returncode readelf) 0) as [E|E]; [|by split; [|intros []]].
  rewrite imports_nil. tauto.
Qed.

Lemma frame_clear nm dwarfdump fn : (frame_has_lsda dwarfdump (func_addr nm fn)).1 = false <->
  forall a, returncode dwarfdump = 0 -> func_addr nm fn = Some a ->
    covering a (blocks None false (text_lines (stdout dwarfdump))) <> Some true.
Proof.
  unfold frame_has_lsda. destruct (func_addr nm fn) as [a|]; [|by split].
  destruct (Z.eqb_spec (returncode dwarfdump) 0) as [E|E]; [|by split].
  rewrite scan_frames_blocks. cbn [fst]. split.
  - intros H a' _ [= <-] Hc. by rewrite Hc in H.
  - intros H. specialize (H a E eq_refl). by destruct (covering a _) as [[]|].
Qed.

(** The exit status, by the three checks. *)
Lemma exit_main_checks gdb nm readelf dwarfdump fn : exit_main gdb nm readelf dwarfdump fn =
  match unwind_found readelf with
  | [] => if classify_return (return_type gdb) && negb (frame_has_lsda dwarfdump (func_addr nm fn)).1 then Ok 0 else Ok 1
  | _ => Err TypeError
  end.
Proof.
  unfold exit_main. destruct (frame_has_lsda _ _) as [lsda decided]. destruct (unwind_found readelf); cbn [fst andb negb].
  - by destruct (classify_return _), lsda.
  - by rewrite andb_false_r.
Qed.

Lemma exit_main_safe gdb nm readelf dwarfdump fn :
  exit_main gdb nm readelf dwarfdump fn = Ok 0 -> exit_safe gdb nm readelf dwarfdump fn.
Proof.
  rewrite exit_main_checks. destruct (unwind_found readelf) eqn:Hu; [|done].
  destruct (classify_return (return_type gdb)) eqn:Hc; [|done].
  destruct (frame_has_lsda dwarfdump (func_addr nm fn)).1 eqn:Hf; [done|]. intros _. split_and!.
  - intros H. by rewrite H in Hc.
  - intros v Hv. rewrite (declares_type _ _ Hv), classify_spelling in Hc; [done|]. by destruct Hv.
  - by apply unwind_found_nil.
  - by apply unwind_found_nil.
  - by apply frame_clear.
Qed.

(** C39: what the exit gate decides, of a function whose declared type the debugger
    prints as [type = <ret> (<params>)], with [<ret>] in C's own words and no
    parenthesis among the parameters.  It ends with status 0 exactly when the value is
    a pointer, an integer, a boolean or an enumeration (not void, floating point or a
    record by value), the symbol scan succeeded and names no unwind initiator as
    undefined, and the frame table, where it was read and the symbols have the
    function, puts no LSDA in the first FDE that covers it.  An unwind import or a
    failed scan never reaches the refusal: its message has too few arguments and
    raises.  A function whose frame was not decided, as no tool read the table or the
    symbols lack it, is admitted on the other two checks, although the file calls
    undecided a refusal; one of which no type is printed is never admitted.  A typedef
    is judged by its name ([typedef_by_its_name]). *)
Theorem exit_admission gdb nm readelf dwarfdump fn v (Hv : declares gdb v) :
  let clear := returncode readelf = 0 /\ no_unwind (stdout readelf) in
  (exit_main gdb nm readelf dwarfdump fn = Ok 0 <->
    in_rax v = true /\ clear /\
    forall a, returncode dwarfdump = 0 -> func_addr nm fn = Some a ->
      covering a (blocks None false (text_lines (stdout dwarfdump))) <> Some true) /\
  (exit_main gdb nm readelf dwarfdump fn = Err TypeError <-> ~ clear) /\
  (in_rax v = true -> clear -> returncode dwarfdump <> 0 \/ func_addr nm fn = None ->
    exit_main gdb nm readelf dwarfdump fn = Ok 0) /\
  (forall gdb', Forall (fun l => starts_with "type = " (str_strip l) = false) (text_lines (stdout gdb')) ->
    exit_main gdb' nm readelf dwarfdump fn <> Ok 0).
Proof.
  assert (exit_main gdb nm readelf dwarfdump fn = Ok 0 <->
    in_rax v = true /\ (returncode readelf = 0 /\ no_unwind (stdout readelf)) /\
    forall a, returncode dwarfdump = 0 -> func_addr nm fn = Some a ->
      covering a (blocks None false (text_lines (stdout dwarfdump))) <> Some true) as Hok.
  { rewrite <- unwind_found_nil, <- frame_clear, exit_main_checks, (declares_type _ _ Hv), classify_spelling by apply Hv.
    destruct (unwind_found readelf); [|by split; [|intros (_ & ? & _)]].
    destruct (in_rax v), (frame_has_lsda _ _).1; cbn; naive_solver. }
  cbv zeta. split_and!; [exact Hok| | |].
  - rewrite <- unwind_found_nil, exit_main_checks. destruct (unwind_found readelf); [|done].
    destruct (_ && _); split; try done; intros H; by destruct H.
  - intros Hr Hc Hd. apply Hok. split_and!; [done|apply Hc..|]. intros a H1 H2. destruct Hd; congruence.
  - intros gdb' Hno. rewrite exit_main_checks. assert (return_type gdb' = None) as ->.
    { unfold return_type. induction Hno as [|l t Hl _ IH]; [done|]. cbn [first_type]. by rewrite Hl. }
    by destruct (unwind_found readelf).
Qed.

Definition demo_gdb := Completed 0 "type = unsigned long (void)".
Definition demo_nm := Completed 0 "0000000000001000 T f".
Definition demo_throw := Completed 0 "1: 0 FUNC GLOBAL DEFAULT UND __cxa_throw@CXXABI_1.3 (2)".

Lemma demo_declares : declares demo_gdb (Integer WUnsigned [WLong]).
Proof.
  split; [exact I|]. exists [], "type = unsigned long (void)"%string, [], "void"%string.
  split_and!; [done|constructor|done|by repeat constructor].
Qed.

Lemma exit_admission_witness :
  exit_main demo_gdb demo_nm (Completed 0 "") Miss "f" = Ok 0 /\
  exit_main demo_gdb demo_nm demo_throw Miss "f" = Err TypeError.
Proof.
  split.
  - destruct (exit_admission demo_gdb demo_nm (Completed 0 "") Miss "f" _ demo_declares) as (_ & _ & H & _).
    apply H; [done| |by left]. split; [done|]. by apply imports_nil.
  - destruct (exit_admission demo_gdb demo_nm demo_throw Miss "f" _ demo_declares) as (_ & H & _).
    apply H. intros [_ Hn]. by apply imports_nil in Hn.
Defined.

(** A type named by a typedef is judged by the beginning of its name; and a pointer
    whose asterisk stands next to the parenthesis is judged by what it points to. *)
Lemma typedef_by_its_name : classify_return (Some "int_pair_t") = true /\ classify_return (Some "pair_t") = false.
Proof. done. Qed.

Lemma pointer_next_to_parenthesis :
  return_type (Completed 0 "type = struct conn *(int)") = Some "struct conn *(int)"%string /\
  exit_main (Completed 0 "type = struct conn *(int)") demo_nm (Completed 0 "") Miss "f" = Ok 1.
Proof. by vm_compute. Qed.

(** One type line, and it is a function that returns void. *)
Definition declared_void (gdb : output) : Prop :=
  exists l, map str_strip (List.filter (starts_with "type = ") (text_lines (stdout gdb))) = [l] /\
    starts_with "type = void (" l = true.

(** One defined text symbol of this name, at this address. *)
Definition symbol_at (nm : output) (fn : string) (address : Z) : Prop :=
  exists addr, omap (symbol_row fn) (text_lines (stdout nm)) = [addr] /\ py_int16 addr = Some address.

(** The completion gate: an admitted function is void, one symbol, no unwind
    import, and no block that covers it carries an LSDA. *)
Lemma completion_admitted debug binary gdb nm readelf dwarfdump fn id addr :
  completion_admit debug binary gdb nm readelf dwarfdump fn = Ok (id, addr) ->
  build_id binary = Ok id /\ build_id debug = Ok id /\ declared_void gdb /\ symbol_at nm fn addr /\
  no_unwind (stdout readelf) /\
  (forall r b, (r, b) ∈ blocks None false (text_lines (stdout dwarfdump)) -> within addr r = true -> b = false).
Proof.
  unfold completion_admit. case_match; [done|]. destruct (build_id binary) as [rid|]; [|done].
  case_match; [done|]. destruct (build_id debug) as [did|]; [|done].
  destruct (String.eqb_spec did rid) as [->|]; [|done]. cbn [negb]. unfold checked_output.
  destruct (returncode gdb =? 0); [|done].
  destruct (map str_strip _) as [|l [|]] eqn:Hl; try done. destruct (starts_with _ l) eqn:Hv; [|done].
  destruct (returncode nm =? 0); [|done]. destruct (omap _ _) as [|ad [|]] eqn:Ho; try done.
  destruct (py_int16 ad) as [address|] eqn:Ha; [|done].
  destruct (returncode readelf =? 0); [|done]. destruct (imports_of (stdout readelf)) eqn:Hi; [|done].
  destruct (returncode dwarfdump =? 0); [|done]. destruct (frame_lsda _ _ _) eqn:Hf; [done|]. intros [= <- <-].
  split_and!; [done|done|by exists l|by exists ad|by apply imports_nil|].
  intros r b. by apply (frame_lsda_blocks address (text_lines (stdout dwarfdump)) None false).
Qed.
