(* ===== verification/Bind.v ===== *)
(** * Target records written into a program object (substrate/bind_target.py,
    bind_targets.py, bind_snapshot.py)

    The three binders: the hook a section names is resolved against the index and
    the binary, admitted where it is an exit, packed, and handed to [objcopy]; the
    object is kept only when the record reads back. *)

From S2P Require Import Prelude Text Target Admit.

Section bind.
(** The object with its target section replaced, when the copier succeeds. *)
Variable objcopy : bytes -> bytes -> option bytes.
(** What the tools print: [gdb] on a debug binary and a function, [nm] and
    [nm --defined-only] on a debug binary, [readelf] and [llvm-dwarfdump] on the
    target. *)
Variable gdb : bytes -> string -> output.
Variables nm nm_defined readelf dwarfdump : bytes -> output.

(** [exit_admit.py debug binary hook] ends with status 0. *)
Definition exit_admitted (debug binary : bytes) (hook : string) : bool :=
  match exit_main (gdb debug hook) (nm debug) (readelf binary) (dwarfdump binary) hook with
  | Ok rc => rc =? 0
  | Err _ => false
  end.

(** ** bind_target.py: [main], the new object *)

Definition bind_target (prog : bytes) (index : string) (binary : bytes) (debug : option bytes) : result bytes :=
  let? sec := program_section prog in
  let hook := after_slash sec in
  let? (bid, entry, pad) := resolve_target index binary hook in
  let is_exit := starts_with "fexit/" sec in
  let? _ :=
    (if is_exit then
       match debug with
       | None => Err (ValueError "fexit requires a matching debug binary")
       | Some d =>
           let? dbid := build_id d in
           raise_if (negb (String.eqb dbid bid)) (ValueError "fexit requires a matching debug binary") ;;
           raise_if (negb (exit_admitted d binary hook)) (RuntimeError "exit_admit") ;; Ok tt
       end
     else Ok tt) in
  let? record := pack_target MAGIC1 bid entry (if is_exit then 1 else 0) pad in
  match objcopy record prog with
  | None => Err (RuntimeError "objcopy")
  | Some result_ => preserved result_ record
  end.

(** ** bind_targets.py *)

Definition SET_MAGIC : bytes := encode "LSTSET1" ++ [0].
Definition MAX_TARGETS : Z := 12.

(** The rows of [bind_targets.bind], with the entries seen so far. *)
Fixpoint set_rows (index : string) (binary : bytes) (names : list string) (entries : list Z)
    : result (list bytes) :=
  match names with
  | [] => Ok []
  | section :: rest =>
      raise_if (negb (starts_with "fentry/" section) || (strlen section =? 7) || (80 <=? strlen section))
        (ValueError "target sets support named entry hooks only") ;;
      let? (bid, entry, pad) := resolve_target index binary (after_slash section) in
      raise_if (mem_Z entry entries) (ValueError "two sections resolve to the same entry") ;;
      let? target := pack_target MAGIC1 bid entry 0 pad in
      let? rows := set_rows index binary rest (entry :: entries) in
      Ok ((pack_s 80 (encode section) ++ pack_s 64 target) :: rows)
  end.

Definition bind_targets (prog : bytes) (binary : bytes) (index : string) : result bytes :=
  let? ss := sections prog in
  let names := List.filter is_entry (map s_name ss) in
  raise_if (negb ((2 <=? len names) && (len names <=? MAX_TARGETS)) || negb (bool_decide (NoDup names)))
    (ValueError "expected 2..12 distinct entry sections") ;;
  let? rows := set_rows index binary names [] in
  let record := SET_MAGIC ++ le_bytes 4 (len rows) ++ le_bytes 4 0 ++ concat rows in
  match objcopy record prog with
  | None => Err (RuntimeError "objcopy")
  | Some result_ => preserved result_ record
  end.

(** ** bind_snapshot.py *)

Definition SNAPSHOT_PREFIX : string := "fexit/snapshot/".

Definition bind_snapshot (prog : bytes) (index : string) (binary debug : bytes) : result bytes :=
  let? section := program_section prog in
  let function := list_str (drop 15 (str_list section)) in
  raise_if (negb (starts_with SNAPSHOT_PREFIX section) || String.eqb function "")
    (ValueError "expected one completion-only snapshot section") ;;
  let? (qbid, qaddr) := completion_admit debug binary (gdb debug function) (nm_defined debug)
                          (readelf binary) (dwarfdump binary) function in
  let? (bid, entry, pad) := resolve_target index binary function in
  raise_if (negb (String.eqb bid qbid) || negb (entry =? qaddr))
    (ValueError "admission and attachment target differ") ;;
  let? record := pack_target MAGIC2 bid entry 1 pad in
  match objcopy record prog with
  | None => Err (RuntimeError "objcopy")
  | Some result_ => preserved result_ record
  end.
End bind.

(** ** What the binders write

    The record in a bound object is the target that was resolved and, for an exit,
    admitted: one record of 64 bytes for [bind_target] and [bind_snapshot], one
    row per entry section for [bind_targets]. *)

Section spec.
Variable objcopy : bytes -> bytes -> option bytes.
Variable gdb : bytes -> string -> output.
Variables nm nm_defined readelf dwarfdump : bytes -> output.

Lemma exit_admitted_safe debug binary hook :
  exit_admitted gdb nm readelf dwarfdump debug binary hook = true ->
  exit_safe (gdb debug hook) (nm debug) (readelf binary) (dwarfdump binary) hook.
Proof.
  unfold exit_admitted. destruct (exit_main _ _ _ _ _) as [rc|] eqn:H; [|done].
  intros ->%Z.eqb_eq. by apply exit_main_safe.
Qed.

(** The record travels unchanged.  An object [bind_target] produces has
    exactly one target section, 64 bytes that read back as the magic, the build
    id, the entry, the exit flag and the pad of the hook its one program section
    names, as resolved; and for an exit program the debug binary had the same
    build id, the function returns its value in rax, the target imports no unwind
    initiator, and where the frame table was read the frame has no LSDA. *)
Theorem bound_record_exact prog index binary debug out :
  bind_target objcopy gdb nm readelf dwarfdump prog index binary debug = Ok out ->
  exists section bid entry pad record,
    program_section prog = Ok section /\
    resolve_target index binary (after_slash section) = Ok (bid, entry, pad) /\
    target_contents out = Ok (Some record) /\ len record = 64 /\
    unpack_target record =
      (MAGIC1, encode bid, entry, if starts_with "fexit/" section then 1 else 0, pad) /\
    (starts_with "fexit/" section = true -> exists d, debug = Some d /\ build_id d = Ok bid /\
       exit_safe (gdb d (after_slash section)) (nm d) (readelf binary) (dwarfdump binary)
         (after_slash section)).
Proof.
  unfold bind_target. destruct (program_section prog) as [section|]; [|done].
  destruct (resolve_target index binary (after_slash section)) as [[[bid entry] pad]|] eqn:Hr; [|done].
  cbv zeta. destruct (if starts_with "fexit/" section then _ else _) as [u|] eqn:Hx; [|done].
  destruct (pack_target _ _ _ _ _) as [record|] eqn:Hp; [|done].
  destruct (objcopy record prog) as [res|]; [|done]. intros [-> Ht]%preserved_ok.
  pose proof (resolve_target_ok _ _ _ _ _ _ Hr) as (_ & Hlen & _).
  apply pack_target_ok in Hp as [Hl Hu]; [|done|done].
  exists section, bid, entry, pad, record. split_and!; try done.
  intros Hf. rewrite Hf in Hx. destruct debug as [d|]; [|done].
  destruct (build_id d) as [dbid|] eqn:Hd; [|done].
  destruct (String.eqb_spec dbid bid) as [->|]; [|done].
  exists d. cbn [negb] in Hx. destruct (exit_admitted _ _ _ _ _ _ _) eqn:Ha; [|done].
  split_and!; [done|done|by apply exit_admitted_safe].
Qed.

(** A completion snapshot goes only into a void function.  An object
    [bind_snapshot] produces carries the snapshot magic, the exit flag and the
    address of the one text symbol its section names; that address is where the
    index and the padded entry of the target put the hook; the function is
    declared void, the target imports no unwind initiator, and no frame that
    covers the address carries an LSDA. *)
Theorem snapshot_admitted prog index binary debug out :
  bind_snapshot objcopy gdb nm_defined readelf dwarfdump prog index binary debug = Ok out ->
  exists section bid entry pad record,
    let function := list_str (drop 15 (str_list section)) in
    program_section prog = Ok section /\ starts_with SNAPSHOT_PREFIX section = true /\ function <> "" /\
    build_id debug = Ok bid /\ indexed index function bid entry pad /\ padded_at binary entry pad /\
    declared_void (gdb debug function) /\ symbol_at (nm_defined debug) function entry /\
    no_unwind (stdout (readelf binary)) /\
    (forall r b, (r, b) ∈ blocks None false (text_lines (stdout (dwarfdump binary))) ->
       within entry r = true -> b = false) /\
    target_contents out = Ok (Some record) /\ unpack_target record = (MAGIC2, encode bid, entry, 1, pad).
Proof.
  unfold bind_snapshot. destruct (program_section prog) as [section|] eqn:Hp; [|done]. cbv zeta.
  destruct (starts_with SNAPSHOT_PREFIX section) eqn:Hs; [|done]. cbn [negb orb].
  destruct (String.eqb_spec (list_str (drop 15 (str_list section))) "") as [|Hf]; [done|].
  set (f := list_str _) in *.
  destruct (completion_admit _ _ _ _ _ _ _) as [[qbid qaddr]|] eqn:Hq; [|done].
  destruct (resolve_target index binary f) as [[[bid entry] pad]|] eqn:Hr; [|done].
  destruct (String.eqb_spec bid qbid) as [<-|]; [|done].
  destruct (Z.eqb_spec entry qaddr) as [<-|]; [|done]. cbn [negb orb].
  destruct (pack_target _ _ _ _ _) as [record|] eqn:Hk; [|done].
  destruct (objcopy record prog) as [res|]; [|done]. intros [-> Ht]%preserved_ok.
  pose proof (resolve_target_ok _ _ _ _ _ _ Hr) as (_ & Hlen & Hix & Hpad).
  apply pack_target_ok in Hk as [_ Hu]; [|done|done].
  apply completion_admitted in Hq as (_ & Hd & Hv & Hsy & Hn & Hl).
  by exists section, bid, entry, pad, record.
Qed.

(** A row of a target set: the section name in 80 bytes and the record of the
    hook it names. *)
Definition binds (index : string) (binary : bytes) (section : string) (row : bytes) (entry : Z) : Prop :=
  starts_with "fentry/" section = true /\ 7 < strlen section < 80 /\
  exists bid pad, resolve_target index binary (after_slash section) = Ok (bid, entry, pad) /\
    ztake 80 row = encode section ++ replicate (80 - length (encode section)) 0 /\
    len row = 144 /\ unpack_target (zdrop 80 row) = (MAGIC1, encode bid, entry, 0, pad).

Lemma pack_s_padded n b : (length b <= n)%nat -> pack_s n b = b ++ replicate (n - length b) 0.
Proof. intros. unfold pack_s. by rewrite take_ge. Qed.

Lemma starts_with_length p s : starts_with p s = true -> strlen p <= strlen s.
Proof.
  revert s. induction p as [|a p IH]; intros s; [intros _; apply len_nonneg|].
  destruct s as [|b s]; [done|]. cbn [starts_with]. intros [_ H]%andb_true_iff. apply IH in H.
  unfold strlen in *. cbn [str_list]. rewrite !len_cons. lia.
Qed.

Lemma set_rows_ok index binary names : forall seen rows,
  set_rows index binary names seen = Ok rows ->
  exists entries, Forall3 (binds index binary) names rows entries /\ NoDup entries /\
    forall e, e ∈ entries -> e ∉ seen.
Proof.
  induction names as [|section names IH]; intros seen rows; cbn [set_rows].
  { intros [= <-]. exists []. split_and!; [constructor|constructor|]. by intros e ?%elem_of_nil. }
  destruct (starts_with "fentry/" section) eqn:Hs; [|done]. cbn [negb orb].
  destruct (Z.eqb_spec (strlen section) 7) as [|H7]; [done|].
  destruct (Z.leb_spec 80 (strlen section)) as [|H80]; [done|].
  destruct (resolve_target _ _ _) as [[[bid entry] pad]|] eqn:Hr; [|done].
  destruct (mem_Z entry seen) eqn:Hm; [done|].
  destruct (pack_target _ _ _ _ _) as [target|] eqn:Hk; [|done].
  destruct (set_rows index binary names (entry :: seen)) as [rows'|] eqn:Hrest; [|done]. intros [= <-].
  apply IH in Hrest as (entries & Hall & Hnd & Hnew). exists (entry :: entries).
  pose proof (resolve_target_ok _ _ _ _ _ _ Hr) as (_ & Hlen & _ & _).
  apply pack_target_ok in Hk as [Hl Hu]; [|done|done].
  pose proof (starts_with_length _ _ Hs) as Hs7. change (strlen "fentry/") with 7 in Hs7.
  pose proof (length_encode section) as Hle.
  assert (length (pack_s 80 (encode section)) = 80%nat) as L80.
  { rewrite pack_s_padded, length_app, length_replicate; unfold len in *; lia. }
  assert (pack_s 64 target = target) as Et by (apply pack_s_exact; unfold len in Hl; lia).
  split_and!.
  - constructor; [|done]. unfold binds. split_and!; [done|lia|lia|]. exists bid, pad.
    rewrite Et, ztake_take, zdrop_drop. change (Z.to_nat 80) with 80%nat.
    rewrite take_app_length', drop_app_length', len_app by done. split_and!; [done| |unfold len in *; lia|done].
    apply pack_s_padded. unfold len in *. lia.
  - constructor; [|done]. intros Hin. apply (Hnew _ Hin). left.
  - intros e [->|Hin]%elem_of_cons.
    + intros Hin. apply mem_Z_elem in Hin. by rewrite Hin in Hm.
    + intros Hs'. apply (Hnew e Hin). by right.
Qed.

(** A target set names every entry section once.  An object [bind_targets]
    produces holds the set magic, the number of rows, and for each of its 2 to 12
    distinct entry sections one 144-byte row with that section's name and the
    target it resolves to; no two rows arm the same entry. *)
Theorem target_set_exact prog index binary out :
  bind_targets objcopy prog binary index = Ok out ->
  exists ss rows entries, sections prog = Ok ss /\
    let names := List.filter is_entry (map s_name ss) in
    2 <= len names <= 12 /\ NoDup names /\ Forall3 (binds index binary) names rows entries /\ NoDup entries /\
    target_contents out = Ok (Some (SET_MAGIC ++ le_bytes 4 (len names) ++ le_bytes 4 0 ++ concat rows)).
Proof.
  unfold bind_targets, MAX_TARGETS. destruct (sections prog) as [ss|]; [|done]. cbv zeta.
  set (names := List.filter is_entry (map s_name ss)).
  destruct (negb _ || _) eqn:Hg; [done|]. apply orb_false_iff in Hg as [Hc Hn].
  apply negb_false_iff, bool_decide_eq_true in Hn.
  destruct (set_rows index binary names []) as [rows|] eqn:Hr; [|done].
  destruct (objcopy _ prog) as [res|]; [|done]. intros [-> Ht]%preserved_ok.
  apply set_rows_ok in Hr as (entries & Hall & Hnd & _). exists ss, rows, entries.
  fold names. split_and!; try done; [lia|lia|].
  rewrite Ht. unfold len. by rewrite (Forall3_length_lm _ _ _ _ Hall).
Qed.
End spec.

Definition demo_bound (section : string) (record prog : bytes) : option bytes :=
  Some (demo_elf 1 247 [] [(section, [0x95; 0; 0; 0; 0; 0; 0; 0]); (".ls.target", record)]).
Definition demo_prog (section : string) : bytes := demo_elf 1 247 [] [(section, [0x95; 0; 0; 0; 0; 0; 0; 0])].

Lemma bound_record_exact_witness :
  exists out, bind_target (demo_bound "fentry/foo") (fun _ _ => Miss) (fun _ => Miss) (fun _ => Miss)
    (fun _ => Miss) (demo_prog "fentry/foo") demo_index demo_binary None = Ok out /\
  exists record, target_contents out = Ok (Some record) /\ len record = 64.
Proof.
  destruct (bind_target (demo_bound "fentry/foo") (fun _ _ => Miss) (fun _ => Miss) (fun _ => Miss)
    (fun _ => Miss) (demo_prog "fentry/foo") demo_index demo_binary None) as [out|e] eqn:H.
  - exists out. split; [reflexivity|].
    destruct (bound_record_exact (demo_bound "fentry/foo") (fun _ _ => Miss) (fun _ => Miss) (fun _ => Miss)
      (fun _ => Miss) (demo_prog "fentry/foo") demo_index demo_binary None out H)
      as (section & bid & entry & pad & record & _ & _ & Hc & Hl & _).
    exists record. split; [exact Hc|exact Hl].
  - exfalso. vm_compute in H. discriminate H.
Defined.

Definition demo_set_obj (tail : list (string * bytes)) : bytes :=
  demo_elf 1 247 [] ([("fentry/foo", replicate 8 0); ("fentry/bar", replicate 8 0)] ++ tail).
Definition demo_set_copy (record prog : bytes) : option bytes := Some (demo_set_obj [(".ls.target", record)]).

Lemma target_set_exact_witness :
  exists out, bind_targets demo_set_copy (demo_set_obj []) demo_binary demo_index = Ok out /\
  exists record, target_contents out = Ok (Some record).
Proof.
  destruct (bind_targets demo_set_copy (demo_set_obj []) demo_binary demo_index) as [out|e] eqn:H.
  - exists out. split; [reflexivity|].
    destruct (target_set_exact demo_set_copy (demo_set_obj []) demo_index demo_binary out H)
      as (ss & rows & entries & _ & _ & _ & _ & _ & Hc).
    eexists. exact Hc.
  - exfalso. vm_compute in H. discriminate H.
Defined.

(** The tools on a void function without unwind information. *)
Definition demo_void := Completed 0 "type = void (int)".
Definition demo_symbol := Completed 0 "0000000000001005 T bar".

Lemma snapshot_admitted_witness :
  exists out, bind_snapshot (demo_bound "fexit/snapshot/bar") (fun _ _ => demo_void) (fun _ => demo_symbol)
    (fun _ => Completed 0 "") (fun _ => Completed 0 "") (demo_prog "fexit/snapshot/bar") demo_index demo_binary
    demo_binary = Ok out /\
  exists record, target_contents out = Ok (Some record) /\ unpack_target record = (MAGIC2, encode demo_id, 0x1005, 1, 4).
Proof.
  destruct (bind_snapshot (demo_bound "fexit/snapshot/bar") (fun _ _ => demo_void) (fun _ => demo_symbol)
    (fun _ => Completed 0 "") (fun _ => Completed 0 "") (demo_prog "fexit/snapshot/bar") demo_index demo_binary
    demo_binary) as [out|e] eqn:H.
  - exists out. split; [reflexivity|].
    destruct (snapshot_admitted (demo_bound "fexit/snapshot/bar") (fun _ _ => demo_void) (fun _ => demo_symbol)
      (fun _ => Completed 0 "") (fun _ => Completed 0 "") (demo_prog "fexit/snapshot/bar") demo_index demo_binary
      demo_binary out H)
      as (section & bid & entry & pad & record & _ & _ & _ & _ & _ & _ & _ & _ & _ & _ & Hc & _).
    exists record. split; [exact Hc|].
    vm_compute in H. injection H as <-. vm_compute in Hc. injection Hc as <-. vm_compute. reflexivity.
  - exfalso. vm_compute in H. discriminate H.
Defined.
