(* ===== verification/Loader.v ===== *)
(** * The loader command (env/scripts/ls-load.py)

    The program that speaks the loader protocol inside the container: its own copy
    of the build-id reader, the hook index and the resolver over it, the signed
    blob beside a program, the 192-byte message, configuration documents and the
    commands.  Files are functions from a path to bytes; the socket and the JSON
    library are parameters. *)

From S2P Require Import Prelude PyVal Text Target Sign.

Definition HDR : Z := 192.
Definition OFF_OP : nat := 0.
Definition OFF_EPOCH : nat := 4.
Definition OFF_MODE : nat := 8.
Definition OFF_PROGLEN : nat := 12.
Definition OFF_HOOK : nat := 48.
Definition OFF_CTX_ABI : nat := 121.
Definition CTX_ABI_VERSION : Z := 3.
Definition OFF_BINDING : nat := 16.
Definition OFF_SIG : nat := 128.
Definition SIG_LEN : Z := 64.
Definition OP_LOAD : Z := 1.
Definition OP_SET_MODE : Z := 2.
Definition OP_STATUS : Z := 3.
Definition OP_REVOKE : Z := 4.
Definition OP_CONFIG_STATUS : Z := 5.
Definition OP_CONFIG_PUBLISH : Z := 6.
Definition OP_BENCH : Z := 0x1001.
Definition OP_SAMPLES : Z := 0x1002.
Definition OP_ARM : Z := 0x1003.
Definition OP_DISARM : Z := 0x1004.
Definition PROGRAM_OPS : list (string * Z) :=
  [("program-load", 0x2001); ("program-attach", 0x2002); ("program-detach", 0x2003);
   ("program-mode", 0x2004); ("program-revoke", 0x2005); ("program-status", 0x2006)].

(** ** [elf_build_id] *)

(** [f.seek(off); f.read(size)]: as many bytes as there are. *)
Definition file_read (f : bytes) (off size : Z) : result bytes :=
  if (SSIZE_MAX <? off) || (SSIZE_MAX <? size) then Err OverflowError else Ok (slice off (off + size) f).

(** [_note_build_id]. *)
Fixpoint note_id_from (sizes : list Z) (note : bytes) : option string :=
  match sizes with
  | [] => None
  | dsz :: rest =>
      let i := py_find (note_header dsz) note 0 in
      if (0 <=? i) && (i + 16 + dsz <=? len note) then Some (hex (slice (i + 16) (i + 16 + dsz) note))
      else note_id_from rest note
  end.
Definition note_build_id (note : bytes) : option string := note_id_from [20; 16; 8] note.

Fixpoint headers_id (f strs : bytes) (shoff shentsize : Z) (idx : list Z) : result (option string) :=
  match idx with
  | [] => Ok None
  | i :: rest =>
      let? sh := file_read f (shoff + i * shentsize) shentsize in
      let? nmoff := unpack_le 4 sh 0 in
      if negb (bytes_eqb (pyslice nmoff (py_find [0] strs nmoff) strs) BUILD_ID_SECTION)
      then headers_id f strs shoff shentsize rest else
      let? off := unpack_le 8 sh 0x18 in
      let? sz := unpack_le 8 sh 0x20 in
      let? note := file_read f off sz in
      match note_build_id note with
      | Some got => Ok (Some got)
      | None => headers_id f strs shoff shentsize rest
      end
  end.

Fixpoint segment_spans (f : bytes) (phoff phentsize : Z) (idx : list Z) : result (list (Z * Z)) :=
  match idx with
  | [] => Ok []
  | i :: rest =>
      let? ph := file_read f (phoff + i * phentsize) phentsize in
      let? p_type := unpack_le 4 ph 0 in
      if negb (p_type =? 4) then segment_spans f phoff phentsize rest else
      let? off := unpack_le 8 ph 0x08 in
      let? sz := unpack_le 8 ph 0x20 in
      let? spans := segment_spans f phoff phentsize rest in
      Ok ((off, sz) :: spans)
  end.

Fixpoint merged_id (f : bytes) (spans : list (Z * Z)) : result (option string) :=
  match spans with
  | [] => Ok None
  | (off, sz) :: rest =>
      let? note := file_read f off sz in
      match note_build_id note with
      | Some got => Ok (Some got)
      | None => merged_id f rest
      end
  end.

Definition elf_build_id (f : bytes) : result (option string) :=
  let? e := file_read f 0 64 in
  if negb (bytes_eqb (ztake 4 e) [0x7f; 0x45; 0x4c; 0x46]) then Ok None else
  let? class_ := at_index e 4 in
  if negb (class_ =? 2) then Ok None else
  let? shoff := unpack_le 8 e 0x28 in
  let? shentsize := unpack_le 2 e 0x3a in
  let? shnum := unpack_le 2 e 0x3c in
  let? shstrndx := unpack_le 2 e 0x3e in
  let? by_section :=
    (if negb (shoff =? 0) && negb (shnum =? 0) && (shstrndx <? shnum) then
       let? sh := file_read f (shoff + shstrndx * shentsize) shentsize in
       let? stroff := unpack_le 8 sh 0x18 in
       let? strsz := unpack_le 8 sh 0x20 in
       let? strs := file_read f stroff strsz in
       headers_id f strs shoff shentsize (range shnum)
     else Ok None) in
  match by_section with
  | Some id => Ok (Some id)
  | None =>
      let? phoff := unpack_le 8 e 0x20 in
      let? phentsize := unpack_le 2 e 0x36 in
      let? phnum := unpack_le 2 e 0x38 in
      let? spans := segment_spans f phoff phentsize (range phnum) in
      merged_id f (merge_spans [] (merge_sort span_le spans))
  end.

(** ** Programs and their signatures *)

(** A file: its bytes, or nothing when it cannot be read. *)
Abbreviation files := (string -> option bytes).

Definition read_program (read : files) (path : string) : result bytes :=
  match read path with
  | None => Err (SystemExit "cannot read")
  | Some [] => Err (SystemExit "is empty")
  | Some blob => raise_if (negb (bytes_eqb (ztake 4 blob) [0x7f; 0x45; 0x4c; 0x46])) (SystemExit "not an ELF object") ;;
                 Ok blob
  end.

(** [elf_fentry_hook]: the loop over the sections, and the errors it swallows. *)
Fixpoint fentry_from (blob strs : bytes) (shoff shentsize : Z) (idx : list Z) : result bytes :=
  match idx with
  | [] => Ok []
  | i :: rest =>
      let? nmoff := unpack_le 4 blob (shoff + i * shentsize) in
      let name := pyslice nmoff (py_find [0] strs nmoff) strs in
      if is_prefix (encode "fentry/") name then Ok (drop 7 name)
      else fentry_from blob strs shoff shentsize rest
  end.

Definition elf_fentry_hook (blob : bytes) : result bytes :=
  let found :=
    if negb (bytes_eqb (ztake 4 blob) [0x7f; 0x45; 0x4c; 0x46]) then Ok [] else
    let? class_ := at_index blob 4 in
    if negb (class_ =? 2) then Ok [] else
    let? shoff := unpack_le 8 blob 0x28 in
    let? shentsize := unpack_le 2 blob 0x3a in
    let? shnum := unpack_le 2 blob 0x3c in
    let? shstrndx := unpack_le 2 blob 0x3e in
    if (shoff =? 0) || (shnum =? 0) || (shnum <=? shstrndx) then Ok [] else
    let base := shoff + shstrndx * shentsize in
    let? stroff := unpack_le 8 blob (base + 0x18) in
    let? strsz := unpack_le 8 blob (base + 0x20) in
    fentry_from blob (slice stroff (stroff + strsz) blob) shoff shentsize (range shnum) in
  match found with
  | Err StructError | Err IndexError => Ok []
  | r => r
  end.

Fixpoint first_readable (read : files) (paths : list string) : option bytes :=
  match paths with
  | [] => None
  | p :: rest => match read p with Some b => Some b | None => first_readable read rest end
  end.

Definition read_signature (read : files) (prog_path : string) (signature_path : option string)
    : result (bytes * bytes) :=
  let base := if ends_with ".o" prog_path then list_str (take (length (str_list prog_path) - 2) (str_list prog_path))
              else prog_path in
  let candidates := match signature_path with
                    | Some (String _ _ as p) => [p]
                    | _ => [cat [base; ".sig"]; cat [prog_path; ".sig"]]
                    end in
  match first_readable read candidates with
  | Some blob => raise_if (negb (len blob =? BINDING_LEN + SIG_LEN)) (SystemExit "wrong size of a signed blob") ;;
                 Ok (ztake BINDING_LEN blob, zdrop BINDING_LEN blob)
  | None => Err (SystemExit "no signature found")
  end.

(** ** [msg] *)

Record message := Message {
  m_op : Z; m_slot : Z; m_mode : Z; m_hook : bytes; m_prog : bytes; m_epoch : option Z;
  m_signed : option (bytes * bytes) }.

Definition msg (m : message) : result bytes :=
  let b := replicate 192 0 in
  let? b := pack_into32 OFF_OP (m_op m) b in
  let? b := pack_into32 OFF_EPOCH (default (m_slot m) (m_epoch m)) b in
  let? b := pack_into32 OFF_MODE (m_mode m) b in
  let? b := pack_into32 OFF_PROGLEN (len (m_prog m)) b in
  let b := splice OFF_CTX_ABI [CTX_ABI_VERSION] b in
  let? b := match m_signed m with
            | Some (binding, sig) =>
                raise_if (negb (len binding =? BINDING_LEN) || negb (len sig =? SIG_LEN))
                  (SystemExit "malformed signed blob") ;;
                Ok (splice OFF_SIG sig (splice OFF_BINDING binding b))
            | None =>
                match m_hook m with
                | [] => Ok b
                | hook => raise_if (64 <? len hook) (SystemExit "hook longer than the field") ;;
                          Ok (splice OFF_HOOK hook b)
                end
            end in
  Ok (b ++ m_prog m).

(** ** The hook index *)

Record index_row := Row { r_arm_at : string; r_method : string; r_pad : string }.
Record hook_index := Index { i_meta : gmap string string; i_syms : gmap string (list index_row) }.

(** One line of the file, without its newline. *)
Definition index_add (ix : hook_index) (line : list ascii) : hook_index :=
  match line with
  | [] => ix
  | c :: t =>
      if ord c =? 35 then
        match tab_fields t with
        | k :: v :: _ => if String.eqb k "name" then ix else Index (<[k := v]> (i_meta ix)) (i_syms ix)
        | _ => ix
        end
      else
        match tab_fields line with
        | name :: at_ :: method :: rest =>
            Index (i_meta ix)
              (<[name := default [] (i_syms ix !! name) ++ [Row at_ method (default "-" (head rest))]]> (i_syms ix))
        | _ => ix
        end
  end.

Definition read_index (text : string) : hook_index :=
  fold_left index_add (file_lines (str_list text) []) (Index ∅ ∅).

(** [resolve_hook]: the index file when there is one, the bytes of the running
    binary when it is found. *)
Definition resolve_hook (index : option string) (running : option bytes) (spec : string) : result string :=
  if starts_with "0x" spec || starts_with "0X" spec then
    match py_int16 spec with
    | Some _ => Ok spec
    | None => Err (SystemExit "not a hex address and not a symbol name")
    end
  else
    match index, running with
    | None, _ => Err (SystemExit "no hook index")
    | _, None => Err (SystemExit "cannot find the running tmm binary")
    | Some text, Some exe =>
        let ix := read_index text in
        let? live := elf_build_id exe in
        match live, i_meta ix !! "build_id" with
        | None, _ => Err (SystemExit "no GNU build id")
        | _, None => Err (SystemExit "no #build_id header")
        | Some live, Some want =>
            raise_if (negb (String.eqb live want)) (SystemExit "BUILD ID MISMATCH") ;;
            match i_syms ix !! spec with
            | Some [r] => Ok (r_arm_at r)
            | Some (_ :: _ :: _) => Err (SystemExit "AMBIGUOUS")
            | _ => Err (SystemExit "not in the index")
            end
        end
    end.

(** ** [resolve_sock] *)

(** The part of a path up to its last slash, and after it. *)
Fixpoint split_path (l : list ascii) : option (list ascii * list ascii) :=
  match l with
  | [] => None
  | c :: t => match split_path t with
              | Some (d, f) => Some (c :: d, f)
              | None => if ord c =? 47 then Some ([c], t) else None
              end
  end.
Fixpoint rstrip_slash (l : list ascii) : list ascii :=
  match l with
  | [] => []
  | c :: t => match rstrip_slash t with
              | [] => if ord c =? 47 then [] else [c]
              | t' => c :: t'
              end
  end.
Definition dirname (p : string) : string :=
  match split_path (str_list p) with
  | Some (d, _) => match rstrip_slash d with [] => list_str d | d' => list_str d' end
  | None => ""
  end.
Definition basename (p : string) : string :=
  match split_path (str_list p) with Some (_, f) => list_str f | None => p end.
Definition path_join (d f : string) : string :=
  if starts_with "/" f then f else if ends_with "/" d then cat [d; f] else cat [d; "/"; f].

(** The environment, which paths exist, and the names in a directory. *)
Definition resolve_sock (env : option string) (pick : bool) (exists_ : string -> bool) (listdir : string -> list string)
    : result string :=
  let base := default "/tmp/ls_load.sock" env in
  if exists_ base then Ok base else
  let d := match dirname base with "" => "." | d => d end in
  let name := basename base in
  match merge_sort String.le (map (path_join d) (List.filter (starts_with (cat [name; "."])) (listdir d))) with
  | [] => Err (SystemExit "no loader socket")
  | s :: rest => raise_if (match rest with [] => false | _ => negb pick end) (SystemExit "several loaders listening") ;;
                 Ok s
  end.

(** ** Configuration documents *)

Definition CONFIG_FIELDS : list string :=
  ["abi"; "schema"; "session"; "instance"; "expected_revision"; "revision"; "program_sha256"; "rows"].

Definition config_integer (document : dict) (name : string) (low high : Z) : result Z :=
  let? value := item name document in
  match value with
  | VInt z => raise_if (negb ((low <=? z) && (z <=? high))) (ValueError "invalid configuration") ;; Ok z
  | _ => Err (ValueError "invalid configuration")
  end.

Definition hexadecimal (value : val) (size : Z) : result bytes :=
  match value with
  | VStr s =>
      raise_if (negb (strlen s =? size * 2)
                || existsb (fun c => match hexval c with Some _ => false | None => true end) (str_list s))
        (ValueError "invalid configuration") ;;
      fromhex s
  | _ => Err (ValueError "invalid configuration")
  end.

(** [int.from_bytes(b, "big")]. *)
Definition be_int (b : bytes) : Z := le_int (reverse b).

Definition config_body (document : val) : result bytes :=
  match document with
  | VDict d =>
      raise_if (negb (bool_decide (list_to_set (map fst d) =@{gset string} list_to_set CONFIG_FIELDS)))
        (ValueError "configuration requires exactly") ;;
      let? abi := config_integer d "abi" 1 1 in
      let? schema := config_integer d "schema" 1 0xffffffff in
      let? expected := config_integer d "expected_revision" 0 0xffffffffffffffff in
      let? revision := config_integer d "revision" 1 0xffffffffffffffff in
      raise_if (revision <=? expected) (ValueError "revision must exceed expected_revision") ;;
      let? session := hexadecimal (getv "session" d) 8 in
      let? instance := hexadecimal (getv "instance" d) 8 in
      raise_if ((be_int session =? 0) || negb (Z.testbit (be_int instance) 63)) (ValueError "invalid session or instance") ;;
      let? sha := hexadecimal (getv "program_sha256" d) 32 in
      match getv "rows" d with
      | VList rows =>
          raise_if (16 <? len rows) (ValueError "rows must be a list of at most 16 records") ;;
          let? data := mapM_r (fun row => hexadecimal row 32) rows in
          let? a := pack_le 4 abi in let? s := pack_le 4 schema in
          let? ss := pack_le 8 (be_int session) in let? i := pack_le 8 (be_int instance) in
          let? e := pack_le 8 expected in let? r := pack_le 8 revision in
          let? n := pack_le 4 (len rows) in let? z := pack_le 4 0 in
          Ok (a ++ s ++ ss ++ i ++ e ++ r ++ n ++ z ++ pack_s 32 sha ++ concat data)
      | _ => Err (ValueError "rows must be a list of at most 16 records")
      end
  | _ => Err (ValueError "configuration requires exactly")
  end.

(** [_unique_config_fields]: the object of the pairs, each key once. *)
Definition unique_config_fields (pairs : list (string * val)) : result dict :=
  fold_left (fun acc kv => let? d := acc in
    raise_if (has kv.1 d) (ValueError "duplicate configuration field") ;; Ok (set kv.1 kv.2 d)) pairs (Ok []).

Definition has_newline (s : string) : bool := existsb (fun c => ord c =? 10) (str_list s).

(** [config_send], of the response. *)
Definition config_response (response : string) : result string :=
  raise_if (negb (starts_with "OK config " response) || has_newline response) (ValueError response) ;; Ok response.

(** ** The commands *)

(** [_ARGS]: how many arguments each command takes. *)
Definition ARGS : list (string * (Z * Z)) :=
  [("program-load", (3, 3)); ("program-status", (1, 1)); ("program-attach", (3, 3)); ("program-detach", (3, 3));
   ("program-mode", (3, 3)); ("program-revoke", (2, 2)); ("arm", (1, 2)); ("disarm", (1, 1)); ("load", (2, 4));
   ("load-signed", (3, 4)); ("status", (1, 1)); ("config-status", (1, 1)); ("config-publish", (2, 2));
   ("samples", (1, 1)); ("mode", (2, 2)); ("revoke", (1, 1)); ("bench", (1, 3))].

Fixpoint lookup_str {A} (k : string) (l : list (string * A)) : option A :=
  match l with
  | [] => None
  | (k', a) :: t => if String.eqb k k' then Some a else lookup_str k t
  end.

Definition is_decimal (s : string) : bool :=
  match s with EmptyString => false | _ => forallb is_digit (str_list s) end.

Definition check_args (cmd : string) (rest : list string) : result unit :=
  match lookup_str cmd ARGS with
  | None => Err (SystemExit "unknown command")
  | Some (lo, hi) =>
      raise_if ((len rest <? lo) || (hi <? len rest)) (SystemExit "takes another number of arguments") ;;
      let first := default "" (head rest) in
      raise_if (String.eqb cmd "disarm" && is_decimal first) (SystemExit "disarm takes the FUNCTION NAME") ;;
      raise_if (mem_str cmd ["arm"; "load"; "status"; "mode"; "revoke"; "config-status"; "config-publish"]
                && match py_int first with Some _ => false | None => true end)
        (SystemExit "expects a SLOT NUMBER first") ;;
      Ok tt
  end.

Definition to_int (s : string) : result Z :=
  match py_int s with Some z => Ok z | None => Err (ValueError "invalid literal for int()") end.
Definition to_int0 (s : string) : result Z :=
  match py_int0 s with Some z => Ok z | None => Err (ValueError "invalid literal for int()") end.
Definition arg (i : nat) (rest : list string) : string := default "" (rest !! i).

(** The bytes before the first NUL. *)
Fixpoint until_nul (b : bytes) : bytes :=
  match b with [] => [] | x :: t => if x =? 0 then [] else x :: until_nul t end.

(** [except (OSError, ValueError) as exc: sys.exit(...)]. *)
Definition as_exit {A} (r : result A) : result A :=
  match r with
  | Err (ValueError m) | Err (OSError m) => Err (SystemExit m)
  | Err UnicodeError => Err (SystemExit "UnicodeDecodeError")
  | r => r
  end.

(** What a command sends, and what it makes of the response. *)
Record plan := Plan { p_message : message; p_handle : string -> result string }.
Definition plain (m : message) : plan := Plan m Ok.
Definition simple (op slot : Z) : message := Message op slot 0 [] [] None None.

Definition program_response (response : string) : result string :=
  raise_if (negb (starts_with "OK program=" response) || has_newline response) (ValueError response) ;; Ok response.

Section commands.
Variable read : files.
(** [open(path, encoding="utf-8").read(n)]. *)
Variable read_text : string -> Z -> result string.
(** [json.loads] with the function its objects are built by, and the indented
    [json.dumps]. *)
Variable json_loads : (list (string * val) -> result dict) -> string -> result val.
Variable json_indent : val -> string.

Definition program_body (cmd : string) (rest : list string) : result (bytes * option (bytes * bytes) * Z) :=
  if String.eqb cmd "program-load" then
    let? body := read_program read (arg 1 rest) in
    let? (binding, signature) := read_signature read (arg 1 rest) (Some (arg 2 rest)) in
    raise_if (negb (bytes_eqb (until_nul (slice 32 96 binding)) (encode "@program-v1")))
      (ValueError "program signature must bind @program-v1") ;;
    Ok (body, Some (binding, signature), 0)
  else if String.eqb cmd "program-status" then Ok ([], None, 0)
  else
    let? instance := to_int0 (arg 1 rest) in
    raise_if (negb ((0 <? instance) && (instance <=? 0xffffffffffffffff))) (ValueError "invalid program instance") ;;
    let? (entry, mode) :=
      (if mem_str cmd ["program-attach"; "program-detach"] then
         let? entry := to_int (arg 2 rest) in
         raise_if (negb ((0 <=? entry) && (entry <? 12))) (ValueError "entry index must be 0..11") ;; Ok (entry, 0)
       else if String.eqb cmd "program-mode" then
         let? mode := to_int (arg 2 rest) in
         raise_if (negb (mem_Z mode [0; 1; 2])) (ValueError "program mode must be 0, 1 or 2") ;; Ok (0, mode)
       else Ok (0, 0)) in
    let? i := pack_le 8 instance in let? e := pack_le 4 entry in let? z := pack_le 4 0 in
    Ok (i ++ e ++ z, None, mode).

Definition program_plan (cmd : string) (op : Z) (rest : list string) : result plan :=
  let? program := to_int (arg 0 rest) in
  raise_if (negb ((0 <=? program) && (program <? 8))) (ValueError "program index must be 0..7") ;;
  let? (body, signed, mode) := program_body cmd rest in
  Ok (Plan (Message op program mode [] body None signed) program_response).

Definition config_plan (cmd : string) (rest : list string) : result plan :=
  let? slot := to_int (arg 0 rest) in
  raise_if (negb ((0 <=? slot) && (slot <? 64))) (ValueError "configuration slot must be 0..63") ;;
  if String.eqb cmd "config-status" then
    Ok (Plan (simple OP_CONFIG_STATUS slot) (fun r =>
      let? r := config_response r in
      let? v := json_loads (fun ps => Ok (fold_left (fun d kv => set kv.1 kv.2 d) ps [])) (list_str (drop 10 (str_list r))) in
      Ok (json_indent v)))
  else
    let? text := read_text (arg 1 rest) 16385 in
    raise_if (16384 <? strlen text) (ValueError "configuration JSON exceeds 16 KiB") ;;
    let? document := json_loads unique_config_fields text in
    let? body := config_body document in
    let revision := match document with VDict d => iget "revision" d | _ => 0 end in
    Ok (Plan (Message OP_CONFIG_PUBLISH slot 0 [] body None None) (fun r =>
      let? r := config_response r in
      raise_if (negb (String.eqb r (cat ["OK config published slot="; py_str slot; " revision="; py_str revision])))
        (ValueError "unexpected publication response") ;; Ok r)).

(** [load] and [load-signed], their arguments put in one order. *)
Definition load_plan (slot path : string) (signature : option string) (mode : string) : result plan :=
  let? slot := to_int slot in
  let? mode := to_int mode in
  let? prog := read_program read path in
  let? signed := read_signature read path signature in
  Ok (plain (Message OP_LOAD slot mode [] prog None (Some signed))).

Definition bench_plan (rest : list string) : result plan :=
  let? iters := match rest !! 1%nat with Some s => to_int s | None => Ok 10000 end in
  let? prog := read_program read (arg 0 rest) in
  let? hook := match rest !! 2%nat with Some s => Ok (encode s) | None => elf_fentry_hook prog end in
  raise_if (match hook with [] => true | _ => false end) (SystemExit "no fentry section") ;;
  Ok (plain (Message OP_BENCH 0 0 hook prog (Some iters) None)).

Definition plan_of (cmd : string) (rest : list string) : result plan :=
  match lookup_str cmd PROGRAM_OPS with
  | Some op => program_plan cmd op rest
  | None =>
      if mem_str cmd ["config-status"; "config-publish"] then config_plan cmd rest
      else if String.eqb cmd "arm" then
        let? slot := to_int (arg 0 rest) in
        Ok (plain (Message OP_ARM slot 0 (encode (arg 1 rest)) [] None None))
      else if String.eqb cmd "disarm" then Ok (plain (Message OP_DISARM 0 0 (encode (arg 0 rest)) [] None None))
      else if String.eqb cmd "load" then
        load_plan (arg 0 rest) (arg 1 rest) None (default "2" (rest !! 2%nat))
      else if String.eqb cmd "load-signed" then
        load_plan (arg 0 rest) (arg 1 rest) (Some (arg 2 rest)) (default "1" (rest !! 3%nat))
      else if String.eqb cmd "status" then let? slot := to_int (arg 0 rest) in Ok (plain (simple OP_STATUS slot))
      else if String.eqb cmd "samples" then let? slot := to_int (arg 0 rest) in Ok (plain (simple OP_SAMPLES slot))
      else if String.eqb cmd "mode" then
        let? slot := to_int (arg 0 rest) in
        let? mode := to_int (arg 1 rest) in
        Ok (plain (Message OP_SET_MODE slot mode [] [] None None))
      else if String.eqb cmd "revoke" then let? slot := to_int (arg 0 rest) in Ok (plain (simple OP_REVOKE slot))
      else if String.eqb cmd "bench" then bench_plan rest
      else Err (SystemExit "unknown command")
  end.

(** [send]: the socket, when one is found; no connection, or the error of a broken
    one, or the chunks that come back before the end or a timeout. *)
Variable sock : result string.
Variable talk : string -> bytes -> option (result (list bytes * bool)).

Definition send (payload : bytes) : result string :=
  let? path := sock in
  match talk path payload with
  | None => Err (SystemExit "cannot reach the loader")
  | Some answer =>
      let? (received, timed_out) := answer in
      let out := concat received ++ if timed_out : bool then 10 :: encode "<timed out waiting for a reply>" else [] in
      Ok (list_str (reverse (lstrip (reverse (str_list (decode_ascii out))))))
  end.

Definition run_command (cmd : string) (rest : list string) : result string :=
  let? p := plan_of cmd rest in
  let? m := msg (p_message p) in
  let? r := send m in
  p_handle p r.

(** [main]: the text printed. *)
Definition loader_main (argv : list string) : result string :=
  match argv with
  | [] => Err (SystemExit "usage")
  | cmd :: rest =>
      let? _ := check_args cmd rest in
      if mem_str cmd (map fst PROGRAM_OPS) || mem_str cmd ["config-status"; "config-publish"]
      then as_exit (run_command cmd rest) else run_command cmd rest
  end.
End commands.
