(* ===== verification/LoaderSpec.v ===== *)
(** * What the loader command promises

    Its copy of the build-id reader agrees with the canonical one; the resolver
    answers only for the running build and one entry; a program is sent for
    loading only with its signed blob, and what the signer wrote arrives at the
    offsets the wire format names; a configuration document reads back. *)

From S2P Require Import Prelude PyVal Text Target Sign Loader.

(** ** The build id *)

Lemma note_id_hex sizes note : note_id_from sizes note = option_map hex (parse_note_from sizes note).
Proof.
  induction sizes as [|ds sizes IH]; cbn [note_id_from parse_note_from]; [done|].
  cbv zeta. by destruct (_ && _).
Qed.

Lemma note_build_id_hex note : note_build_id note = option_map hex (parse_note note).
Proof. apply note_id_hex. Qed.

Lemma read_at_file f off size b : read_at f off size = Ok b -> file_read f off size = Ok b.
Proof.
  unfold read_at, file_read. case_match; [done|]. cbv zeta. by case_match.
Qed.

(** Wherever the canonical reader gets its bytes, so does the copy. *)
Ltac same_read :=
  match goal with
  | H : read_at ?f ?o ?n = Ok _ |- context [file_read ?f ?o ?n] => rewrite (read_at_file _ _ _ _ H)
  | |- context [read_at ?f ?o ?n] => let H := fresh in destruct (read_at f o n) eqn:H; [|done]
  | |- context [unpack_le ?n ?b ?o] => destruct (unpack_le n b o); [|done]
  end.

Lemma headers_id_agrees f strs shoff shes idx r : section_id f strs shoff shes idx = Ok r ->
  headers_id f strs shoff shes idx = Ok r.
Proof.
  induction idx as [|i idx IH]; cbn [section_id headers_id]; [done|]. repeat same_read.
  case_match; [done|]. repeat same_read. rewrite note_build_id_hex. by destruct (parse_note _).
Qed.

Lemma segment_spans_agrees f phoff pes idx : forall r, note_spans f phoff pes idx = Ok r ->
  segment_spans f phoff pes idx = Ok r.
Proof.
  induction idx as [|i idx IH]; intros r; cbn [note_spans segment_spans]; [done|]. repeat same_read.
  case_match; [apply IH|]. repeat same_read.
  destruct (note_spans f phoff pes idx) as [rest|]; [|done]. by rewrite (IH rest).
Qed.

Lemma merged_id_agrees f spans r : span_id f spans = Ok r -> merged_id f spans = Ok r.
Proof.
  induction spans as [|[o s] spans IH]; cbn [span_id merged_id]; [done|]. repeat same_read.
  rewrite note_build_id_hex. by destruct (parse_note _).
Qed.

Lemma elf_build_id_agrees f id : build_id f = Ok id -> elf_build_id f = Ok (Some id).
Proof.
  unfold build_id, elf_build_id. repeat same_read. case_match; [done|].
  destruct (at_index _ 4); [|done]. case_match; [done|]. do 4 same_read.
  destruct (if _ && _ && _ then _ else Ok None) as [by_section|] eqn:Hs; [|done].
  match goal with |- _ -> (match ?x with Ok _ => _ | Err _ => _ end) = _ => assert (x = Ok by_section) as -> end.
  { case_match; [|done]. revert Hs. repeat same_read. apply headers_id_agrees. }
  destruct by_section as [got|]; [by intros [= ->]|]. do 3 same_read.
  destruct (note_spans _ _ _ _) as [spans|] eqn:Hn; [|done]. rewrite (segment_spans_agrees _ _ _ _ _ Hn).
  destruct (span_id f _) as [found|] eqn:Hf; [|done]. rewrite (merged_id_agrees _ _ _ Hf).
  destruct found; [by intros [= ->]|done].
Qed.

Lemma read_note_file f off size b id : 0 <= off -> file_read f off size = Ok b -> note_build_id b = Some id ->
  exists p desc, note_at f p desc /\ id = hex desc.
Proof.
  unfold file_read. case_match; [done|]. intros Ho [= <-]. rewrite note_build_id_hex. unfold parse_note.
  destruct (parse_note_from _ _) as [got|] eqn:Hp; [|done]. intros [= <-].
  apply parse_note_spec in Hp as (i & Hi & Hin & Hle & Hs); [|simpl; intros; lia].
  assert (len got = 20 \/ len got = 16 \/ len got = 8) as Hd by (simpl in Hin; lia).
  assert (len (slice off (off + size) f) <= size) as Hsz.
  { destruct (Z.leb_spec 0 size); [|].
    - pose proof (length_slice_le off (off + size) f). lia.
    - exfalso. revert Hle. rewrite slice_take_drop. replace (Z.to_nat (off + size - off)) with 0%nat by lia.
      change (len (take 0 (drop (Z.to_nat off) f))) with 0. lia. }
  exists (off + i), got. split; [|done]. split_and!; [lia|done|].
  rewrite slice_slice in Hs by lia. by rewrite <- Hs, !Z.add_assoc.
Qed.

Lemma file_read_bytes f off size b : is_bytes f -> file_read f off size = Ok b -> is_bytes b.
Proof. intros Hf. unfold file_read. case_match; [done|]. intros [= <-]. by apply is_bytes_slice. Qed.

Lemma headers_id_note f strs shoff shes idx id : is_bytes f ->
  headers_id f strs shoff shes idx = Ok (Some id) -> exists p desc, note_at f p desc /\ id = hex desc.
Proof.
  intros Hf. induction idx as [|i idx IH]; cbn [headers_id]; [done|].
  destruct (file_read f (shoff + i * shes) shes) as [sh|] eqn:Hsh; [|done].
  destruct (unpack_le 4 sh 0); [|done]. case_match; [done|]. clear H.
  destruct (unpack_le 8 sh 0x18) as [off|] eqn:Ho; [|done]. destruct (unpack_le 8 sh 0x20) as [sz|]; [|done].
  destruct (file_read f off sz) as [note|] eqn:Hn; [|done].
  destruct (note_build_id note) as [got|] eqn:Hp; [|done]. intros [= <-].
  eapply read_note_file; [|done|done]. eapply unpack_le_nonneg, Ho. by eapply file_read_bytes.
Qed.

Lemma merged_id_note f spans id : (forall o s, (o, s) ∈ spans -> 0 <= o) ->
  merged_id f spans = Ok (Some id) -> exists p desc, note_at f p desc /\ id = hex desc.
Proof.
  induction spans as [|[o s] spans IH]; intros Hpos; cbn [merged_id]; [done|].
  destruct (file_read f o s) as [note|] eqn:Hn; [|done].
  destruct (note_build_id note) as [got|] eqn:Hp; cycle 1.
  { apply IH. intros o' s' H. apply (Hpos o' s'). by right. }
  intros [= <-]. eapply read_note_file; [|done|done]. apply (Hpos o s). left.
Qed.

Lemma segment_spans_pos f phoff pes idx spans : is_bytes f -> segment_spans f phoff pes idx = Ok spans ->
  forall o s, (o, s) ∈ spans -> 0 <= o.
Proof.
  intros Hf. revert spans. induction idx as [|i idx IH]; intros spans; cbn [segment_spans].
  { intros [= <-] o s H. by apply not_elem_of_nil in H. }
  destruct (file_read f (phoff + i * pes) pes) as [ph|] eqn:Hph; [|done].
  destruct (unpack_le 4 ph 0) as [typ|]; [|done]. destruct (negb (typ =? 4)); [apply IH|].
  destruct (unpack_le 8 ph 8) as [off|] eqn:Ho; [|done]. destruct (unpack_le 8 ph 0x20) as [sz|]; [|done].
  destruct (segment_spans f phoff pes idx) as [rest|]; [|done]. intros [= <-] o s [[= -> ->]|H]%elem_of_cons.
  - eapply unpack_le_nonneg, Ho. by eapply file_read_bytes.
  - by eapply IH.
Qed.

Lemma elf_build_id_note f id : is_bytes f -> elf_build_id f = Ok (Some id) ->
  exists p desc, note_at f p desc /\ id = hex desc.
Proof.
  intros Hf. unfold elf_build_id. destruct (file_read f 0 64) as [e|]; [|done]. case_match; [done|].
  destruct (at_index e 4); [|done]. case_match; [done|].
  destruct (unpack_le 8 e 0x28) as [shoff|]; [|done]. destruct (unpack_le 2 e 0x3a) as [shes|]; [|done].
  destruct (unpack_le 2 e 0x3c) as [shn|]; [|done]. destruct (unpack_le 2 e 0x3e) as [ndx|]; [|done].
  destruct (if _ && _ && _ then _ else _) as [[id0|]|] eqn:Hsec; [| |done].
  { intros [= <-]. case_match; [|done]. destruct (file_read f (shoff + ndx * shes) shes) as [sh|]; [|done].
    destruct (unpack_le 8 sh 0x18); [|done]. destruct (unpack_le 8 sh 0x20); [|done].
    destruct (file_read f a0 a1); [|done]. by eapply headers_id_note. }
  destruct (unpack_le 8 e 0x20) as [phoff|]; [|done]. destruct (unpack_le 2 e 0x36) as [pes|]; [|done].
  destruct (unpack_le 2 e 0x38) as [pn|]; [|done].
  destruct (segment_spans f phoff pes (range pn)) as [spans|] eqn:Hsp; [|done].
  apply merged_id_note. intros o s. apply merge_spans_pos; [by intros ? ? ?%not_elem_of_nil|].
  intros o' s'. rewrite merge_sort_Permutation. by eapply segment_spans_pos.
Qed.

(** Two readers, one answer.  Whatever file the canonical build-id reader
    answers on, the loader's own copy, which tolerates short reads, gives the same
    build id; and any id the copy gives, on any file, is the hexadecimal
    descriptor of a GNU build-id note that is in the file. *)
Theorem loader_build_id_agrees f :
  is_bytes f ->
  (forall id, build_id f = Ok id -> elf_build_id f = Ok (Some id)) /\
  (forall id, elf_build_id f = Ok (Some id) -> exists p desc, note_at f p desc /\ id = hex desc).
Proof. intros Hf. split; [apply elf_build_id_agrees|intros id; by apply elf_build_id_note]. Qed.

Lemma is_bytes_check f : forallb (fun x => (0 <=? x) && (x <? 256)) f = true -> is_bytes f.
Proof.
  rewrite forallb_forall. unfold is_bytes, is_byte. intros H. apply Forall_forall. intros x Hx.
  apply list_elem_of_In in Hx. specialize (H x Hx). lia.
Qed.

Lemma loader_build_id_agrees_witness : elf_build_id demo_binary = Ok (Some demo_id).
Proof.
  apply loader_build_id_agrees; [apply is_bytes_check|]; vm_compute; reflexivity.
Defined.

(** ** The hook index *)

(** The row a line of the index gives for a name. *)
Definition row_for (name : string) (line : list ascii) : option index_row :=
  match line with
  | [] => None
  | c :: _ =>
      if ord c =? 35 then None else
      match tab_fields line with
      | n :: at_ :: method :: rest => if String.eqb n name then Some (Row at_ method (default "-" (head rest))) else None
      | _ => None
      end
  end.

(** The value a header line gives a key. *)
Definition header_for (key : string) (line : list ascii) : option string :=
  match line with
  | [] => None
  | c :: t =>
      if ord c =? 35 then
        match tab_fields t with
        | k :: v :: _ => if String.eqb k key && negb (String.eqb k "name") then Some v else None
        | _ => None
        end
      else None
  end.

Lemma index_add_syms ix line name :
  default [] (i_syms (index_add ix line) !! name) =
  default [] (i_syms ix !! name) ++ match row_for name line with Some r => [r] | None => [] end.
Proof.
  unfold index_add, row_for. destruct line as [|c t]; [by rewrite app_nil_r|].
  destruct (ord c =? 35).
  { rewrite app_nil_r. destruct (tab_fields t) as [|k [|v l]]; try done. by destruct (String.eqb k "name"). }
  destruct (tab_fields (c :: t)) as [|n [|at_ [|me l]]]; try by rewrite app_nil_r. cbn [i_syms].
  destruct (String.eqb_spec n name) as [->|Hn]; [by rewrite lookup_insert_eq|].
  by rewrite lookup_insert_ne, app_nil_r.
Qed.

Lemma index_add_meta ix line key :
  i_meta (index_add ix line) !! key =
  match header_for key line with Some v => Some v | None => i_meta ix !! key end.
Proof.
  unfold index_add, header_for. destruct line as [|c t]; [done|]. destruct (ord c =? 35).
  - destruct (tab_fields t) as [|k [|v l]]; try done.
    destruct (String.eqb_spec k key) as [->|Hk]; cbn [andb].
    + destruct (String.eqb key "name"); [done|]. cbn [i_meta negb]. by rewrite lookup_insert_eq.
    + destruct (String.eqb k "name"); [done|]. cbn [i_meta]. by rewrite lookup_insert_ne.
  - by destruct (tab_fields (c :: t)) as [|n [|at_ [|me l]]].
Qed.

Lemma read_index_fold lines name : forall ix,
  default [] (i_syms (fold_left index_add lines ix) !! name) =
  default [] (i_syms ix !! name) ++ omap (row_for name) lines.
Proof.
  induction lines as [|l lines IH]; intros ix; cbn [fold_left omap list_omap]; [by rewrite app_nil_r|].
  rewrite IH, index_add_syms, <- app_assoc. f_equal. unfold list_omap. by destruct (row_for name l).
Qed.

(** The symbol table holds, under each name, exactly the rows of that name. *)
Lemma read_index_syms text name :
  default [] (i_syms (read_index text) !! name) = omap (row_for name) (file_lines (str_list text) []).
Proof. unfold read_index. by rewrite read_index_fold. Qed.

Lemma read_index_meta lines key v : forall ix,
  i_meta (fold_left index_add lines ix) !! key = Some v ->
  i_meta ix !! key = Some v \/ exists l, l ∈ lines /\ header_for key l = Some v.
Proof.
  induction lines as [|l lines IH]; intros ix; cbn [fold_left]; [by left|]. intros H.
  apply IH in H as [H|(l' & Hl & Hv)]; [|right; exists l'; split; [by right|done]].
  rewrite index_add_meta in H. destruct (header_for key l) eqn:E; [|by left].
  right. exists l. split; [left|congruence].
Qed.

(** A name resolves to one address of the running build or not at all.  When
    the resolver answers for a name, the build id of the running binary is the one
    the index names in a header, exactly one line of the index is a row of that
    name, and the answer is its address; an address given as hexadecimal comes
    back unchanged. *)
Theorem resolve_hook_exact index running spec at_ :
  resolve_hook index running spec = Ok at_ ->
  (starts_with "0x" spec || starts_with "0X" spec = true /\ at_ = spec) \/
  (exists text exe id r, index = Some text /\ running = Some exe /\ elf_build_id exe = Ok (Some id) /\
     let lines := file_lines (str_list text) [] in
     (exists l, l ∈ lines /\ header_for "build_id" l = Some id) /\
     omap (row_for spec) lines = [r] /\ at_ = r_arm_at r).
Proof.
  unfold resolve_hook. destruct (starts_with "0x" spec || starts_with "0X" spec).
  { destruct (py_int16 spec); [|done]. intros [= <-]. by left. }
  destruct index as [text|]; [|done]. destruct running as [exe|]; [|done]. cbv zeta.
  destruct (elf_build_id exe) as [[live|]|] eqn:Hl; [|done|done].
  destruct (i_meta (read_index text) !! "build_id") as [want|] eqn:Hw; [|done].
  destruct (String.eqb_spec live want) as [<-|]; [|done]. cbn [negb].
  destruct (i_syms (read_index text) !! spec) as [[|r [|r' l]]|] eqn:Hs; try done. intros [= <-]. right.
  exists text, exe, live, r. split_and!; try done.
  - apply read_index_meta in Hw as [H|H]; [by cbn [i_meta] in H; rewrite lookup_empty in H|done].
  - by rewrite <- read_index_syms, Hs.
Qed.

Lemma resolve_hook_exact_witness :
  exists at_, resolve_hook (Some demo_index) (Some demo_binary) "bar" = Ok at_ /\
    exists r, omap (row_for "bar") (file_lines (str_list demo_index) []) = [r] /\ at_ = r_arm_at r.
Proof.
  exists "0x1009"%string.
  assert (resolve_hook (Some demo_index) (Some demo_binary) "bar" = Ok "0x1009"%string) as H
    by (vm_compute; reflexivity).
  split; [exact H|].
  destruct (resolve_hook_exact (Some demo_index) (Some demo_binary) "bar" "0x1009" H)
    as [[Hx _]|(text & exe & id & r & He & _ & _ & _ & Hr & Ha)]; [vm_compute in Hx; discriminate Hx|].
  injection He as <-. exists r. split; [exact Hr|exact Ha].
Defined.

(** ** The message *)

(** The fields of a message on the wire, by offset: op, epoch, mode, program
    length, the binding, the signature and the program. *)
Definition read_msg (b : bytes) : Z * Z * Z * Z * bytes * bytes * bytes :=
  (le_int (slice 0 4 b), le_int (slice 4 8 b), le_int (slice 8 12 b), le_int (slice 12 16 b),
   slice 16 128 b, slice 128 192 b, zdrop 192 b).

(** The binding area of an unsigned message: a hook, and the context version. *)
Definition bare_binding (hook : bytes) : bytes :=
  replicate 32 0 ++ hook ++ replicate (64 - length hook) 0 ++ replicate 9 0 ++ [CTX_ABI_VERSION] ++ replicate 6 0.

Lemma splice_at off (pre old v post b : bytes) : b = pre ++ old ++ post -> length pre = off ->
  length old = length v -> splice off v b = pre ++ v ++ post.
Proof. intros ->. apply splice_app. Qed.

Lemma header_ok op slot mode plen b1 b2 b3 b4 :
  pack_into32 OFF_OP op (replicate 192 0) = Ok b1 -> pack_into32 OFF_EPOCH slot b1 = Ok b2 ->
  pack_into32 OFF_MODE mode b2 = Ok b3 -> pack_into32 OFF_PROGLEN plen b3 = Ok b4 ->
  exists h, len h = 16 /\ b4 = h ++ replicate 176 0 /\
    le_int (slice 0 4 h) = op /\ le_int (slice 4 8 h) = slot /\ le_int (slice 8 12 h) = mode /\
    le_int (slice 12 16 h) = plen.
Proof.
  intros H1 H2 H3 H4.
  eapply (pack_into32_ok _ _ _ _ [] (replicate 188 0) (replicate 4 0)) in H1 as (x1 & L1 & V1 & ->); [|done..].
  eapply (pack_into32_ok _ _ _ _ x1 (replicate 184 0) (replicate 4 0)) in H2 as (x2 & L2 & V2 & ->); [|done..].
  eapply (pack_into32_ok _ _ _ _ (x1 ++ x2) (replicate 180 0) (replicate 4 0)) in H3 as (x3 & L3 & V3 & ->);
    [|by rewrite <- !app_assoc|rewrite length_app; unfold OFF_MODE; lia|done].
  eapply (pack_into32_ok _ _ _ _ ((x1 ++ x2) ++ x3) (replicate 176 0) (replicate 4 0)) in H4 as (x4 & L4 & V4 & ->);
    [|by rewrite <- !app_assoc|rewrite !length_app; unfold OFF_PROGLEN; lia|done].
  exists (x1 ++ x2 ++ x3 ++ x4).
  assert (len x1 = 4 /\ len x2 = 4 /\ len x3 = 4 /\ len x4 = 4) as (M1 & M2 & M3 & M4) by (unfold len; lia).
  rewrite !len_app, <- !app_assoc. split_and!; [lia|done|..]; slice_fields; done.
Qed.

Lemma msg_ok m b : msg m = Ok b ->
  (forall binding sig, m_signed m = Some (binding, sig) -> len binding = 112 /\ len sig = 64) /\
  read_msg b = (m_op m, default (m_slot m) (m_epoch m), m_mode m, len (m_prog m),
    match m_signed m with Some (binding, _) => binding | None => bare_binding (m_hook m) end,
    match m_signed m with Some (_, sig) => sig | None => replicate 64 0 end, m_prog m).
Proof.
  unfold msg. cbv zeta. destruct (pack_into32 OFF_OP _ _) as [b1|] eqn:H1; [|done].
  destruct (pack_into32 OFF_EPOCH _ _) as [b2|] eqn:H2; [|done].
  destruct (pack_into32 OFF_MODE _ _) as [b3|] eqn:H3; [|done].
  destruct (pack_into32 OFF_PROGLEN _ _) as [b4|] eqn:H4; [|done].
  destruct (header_ok _ _ _ _ _ _ _ _ H1 H2 H3 H4) as (h & Lh & -> & <- & <- & <- & <-).
  assert (length h = 16%nat) as Lh' by (unfold len in Lh; lia).
  assert (splice OFF_CTX_ABI [CTX_ABI_VERSION] (h ++ replicate 176 0) = h ++ bare_binding [] ++ replicate 64 0) as ->.
  { rewrite (splice_at _ (h ++ replicate 105 0) [0] _ (replicate 70 0)); [|..|done].
    - by rewrite <- app_assoc.
    - by rewrite <- app_assoc.
    - rewrite length_app, length_replicate. unfold OFF_CTX_ABI. lia. }
  assert (forall bd sg p, len bd = 112 -> len sg = 64 ->
    read_msg ((h ++ bd ++ sg) ++ p) = (le_int (slice 0 4 h), le_int (slice 4 8 h), le_int (slice 8 12 h),
      le_int (slice 12 16 h), bd, sg, p)) as Hread.
  { intros bd sg p Lb Ls. unfold read_msg. rewrite <- !app_assoc.
    assert (forall a c, 0 <= a <= c -> c <= 16 -> slice a c (h ++ bd ++ sg ++ p) = slice a c h) as Hh.
    { intros a c Ha Hc. rewrite !slice_take_drop, drop_app_le by lia. apply take_app_le.
      rewrite length_drop. lia. }
    rewrite !Hh by lia. slice_fields. do 2 f_equal. rewrite zdrop_drop. change (Z.to_nat 192) with 192%nat.
    rewrite !app_assoc, drop_app_length'; [done|]. rewrite !length_app. unfold len in *. lia. }
  destruct (m_signed m) as [[binding sig]|].
  - destruct (Z.eqb_spec (len binding) BINDING_LEN) as [Lb|]; [|done].
    destruct (Z.eqb_spec (len sig) SIG_LEN) as [Ls|]; [|done]. cbn [negb orb]. intros <-%Ok_inj.
    unfold BINDING_LEN, SIG_LEN in *. split; [by intros ? ? [= <- <-]|]. rewrite <- Hread by done. do 2 f_equal.
    rewrite (splice_at OFF_BINDING h (bare_binding []) binding (replicate 64 0)); [|done|done|change (length (bare_binding [])) with 112%nat; unfold len in Lb; lia].
    rewrite (splice_at OFF_SIG (h ++ binding) (replicate 64 0) sig []); [by rewrite app_nil_r, <- app_assoc| |..].
    + by rewrite app_nil_r, <- app_assoc.
    + rewrite length_app. unfold len in *. unfold OFF_SIG. lia.
    + rewrite length_replicate. unfold len in *. lia.
  - destruct (m_hook m) as [|c hook] eqn:Eh.
    { intros <-%Ok_inj. split; [done|]. by rewrite Hread. }
    destruct (Z.ltb_spec 64 (len (c :: hook))) as [|Hl]; [done|]. intros <-%Ok_inj. split; [done|].
    set (hk := c :: hook) in *. assert (length hk <= 64)%nat as Hl' by (unfold len in Hl; lia).
    assert (len (bare_binding hk) = 112) as Lbb.
    { unfold bare_binding, len. rewrite !length_app, !length_replicate. cbn [length]. lia. }
    rewrite <- Hread by done. do 2 f_equal.
    rewrite (splice_at OFF_HOOK (h ++ replicate 32 0) (replicate (length hk) 0) hk
      (replicate (64 - length hk) 0 ++ replicate 9 0 ++ [CTX_ABI_VERSION] ++ replicate 6 0 ++ replicate 64 0)).
    + unfold bare_binding. by rewrite <- !app_assoc.
    + unfold bare_binding. cbn [length]. rewrite <- !app_assoc. f_equal. f_equal.
      rewrite !app_assoc. do 4 f_equal. cbn [app]. rewrite <- replicate_add. f_equal. lia.
    + rewrite length_app, length_replicate. unfold OFF_HOOK. lia.
    + by rewrite length_replicate.
Qed.
