(* ===== verification/LoaderWire.v ===== *)
(** * What the loader puts on the wire

    The message round trip, the signed program from the signer to the wire, and
    configuration documents. *)

From S2P Require Import Prelude PyVal Text Target Sign Loader LoaderSpec.

(** ** Messages *)

Definition u32 (z : Z) : Prop := 0 <= z < 2 ^ 32.

(** The fields of a message fit the wire format. *)
Definition fits (m : message) : Prop :=
  u32 (m_op m) /\ u32 (default (m_slot m) (m_epoch m)) /\ u32 (m_mode m) /\ u32 (len (m_prog m)) /\
  match m_signed m with
  | Some (binding, sig) => len binding = 112 /\ len sig = 64
  | None => len (m_hook m) <= 64
  end.

Lemma pack_into32_iff off v b : (exists b', pack_into32 off v b = Ok b') <-> u32 v.
Proof.
  unfold pack_into32, pack_le, u32. change (8 * Z.of_nat 4) with 32.
  destruct (_ && _) eqn:E; split; try lia; intros H; [by eexists|by destruct H].
Qed.

Lemma pack_into32_u32 off v b : u32 v -> exists b', pack_into32 off v b = Ok b'.
Proof. apply pack_into32_iff. Qed.

Lemma pack_into32_fits off v b b' : pack_into32 off v b = Ok b' -> u32 v.
Proof. intros. by eapply pack_into32_iff; eexists. Qed.

Lemma msg_fits m : fits m <-> exists b, msg m = Ok b.
Proof.
  split.
  - intros (H1 & H2 & H3 & H4 & Hs). unfold msg. cbv zeta.
    destruct (pack_into32_u32 OFF_OP _ (replicate 192 0) H1) as [b1 ->].
    destruct (pack_into32_u32 OFF_EPOCH _ b1 H2) as [b2 ->]. destruct (pack_into32_u32 OFF_MODE _ b2 H3) as [b3 ->].
    destruct (pack_into32_u32 OFF_PROGLEN _ b3 H4) as [b4 ->].
    destruct (m_signed m) as [[binding sig]|].
    + destruct Hs as [-> ->]. by eexists.
    + destruct (m_hook m) as [|c h]; [by eexists|]. destruct (Z.ltb_spec 64 (len (c :: h))); [lia|by eexists].
  - intros [b H]. pose proof (proj1 (msg_ok _ _ H)) as Hs. revert H. unfold msg, fits. cbv zeta.
    destruct (pack_into32 OFF_OP _ _) as [b1|] eqn:H1; [|done].
    destruct (pack_into32 OFF_EPOCH _ _) as [b2|] eqn:H2; [|done].
    destruct (pack_into32 OFF_MODE _ _) as [b3|] eqn:H3; [|done].
    destruct (pack_into32 OFF_PROGLEN _ _) as [b4|] eqn:H4; [|done]. intros H.
    split_and!; [by eapply pack_into32_fits..|].
    destruct (m_signed m) as [[binding sig]|]; [by apply Hs|].
    destruct (m_hook m) as [|c h]; [unfold len; cbn; lia|].
    destruct (Z.ltb_spec 64 (len (c :: h))); [done|lia].
Qed.

Lemma length_msg m b : msg m = Ok b -> len b = 192 + len (m_prog m).
Proof.
  intros H. apply msg_ok in H as [Hs H]. unfold read_msg in H. injection H as _ _ _ _ _ Hsig Hp.
  assert (len (slice 128 192 b) = 64) as Hl.
  { rewrite Hsig. destruct (m_signed m) as [[binding sig]|]; [by eapply Hs|done]. }
  rewrite <- Hp, zdrop_drop. revert Hl. rewrite slice_take_drop. unfold len.
  rewrite length_take, !length_drop. lia.
Qed.

(** A message is built exactly when its fields fit the wire format, and it
    reads back: 192 bytes and the program; op, epoch (the slot, or the iteration
    count that replaces it), mode and program length; a signed message carries
    the binding and the signature it was given, an unsigned one the hook and the
    context version, and every byte no field uses is zero. *)
Theorem message_roundtrip m :
  (fits m <-> exists b, msg m = Ok b) /\
  forall b, msg m = Ok b ->
    len b = 192 + len (m_prog m) /\
    read_msg b = (m_op m, default (m_slot m) (m_epoch m), m_mode m, len (m_prog m),
      match m_signed m with Some (binding, _) => binding | None => bare_binding (m_hook m) end,
      match m_signed m with Some (_, sig) => sig | None => replicate 64 0 end, m_prog m).
Proof.
  split; [apply msg_fits|]. intros b H. split; [by apply length_msg|]. by apply msg_ok.
Qed.

Lemma message_roundtrip_witness :
  exists b, msg (Message OP_ARM 5 0 (encode "rst_why") [] None None) = Ok b /\
    read_msg b = (OP_ARM, 5, 0, 0, bare_binding (encode "rst_why"), replicate 64 0, []).
Proof.
  assert (exists b, msg (Message OP_ARM 5 0 (encode "rst_why") [] None None) = Ok b) as [b H].
  { apply (message_roundtrip (Message OP_ARM 5 0 (encode "rst_why") [] None None)).
    repeat split; vm_compute; discriminate. }
  exists b. split; [exact H|].
  exact (proj2 (proj2 (message_roundtrip (Message OP_ARM 5 0 (encode "rst_why") [] None None)) b H)).
Defined.

(** ** From the signer to the wire *)

Lemma read_program_ok read path prog : read_program read path = Ok prog ->
  read path = Some prog /\ ztake 4 prog = [0x7f; 0x45; 0x4c; 0x46].
Proof.
  unfold read_program. destruct (read path) as [[|x b]|]; [done| |done].
  destruct (bytes_eqb _ _) eqn:E; [|done]. intros [= <-]. by apply bytes_eqb_eq in E.
Qed.

Lemma first_readable_some read paths b : first_readable read paths = Some b -> exists p, read p = Some b.
Proof.
  induction paths as [|p paths IH]; cbn [first_readable]; [done|].
  destruct (read p) as [b'|] eqn:E; [|done]. intros [= <-]. by exists p.
Qed.

Lemma read_signature_ok read path sigpath binding sig :
  read_signature read path sigpath = Ok (binding, sig) ->
  exists p, read p = Some (binding ++ sig) /\ len binding = 112 /\ len sig = 64.
Proof.
  unfold read_signature. cbv zeta. destruct (first_readable _ _) as [b|] eqn:E; [|done].
  destruct (Z.eqb_spec (len b) (BINDING_LEN + SIG_LEN)) as [Hl|]; [|done]. intros [= <- <-].
  apply first_readable_some in E as [p Hp]. exists p. unfold BINDING_LEN, SIG_LEN in *.
  rewrite ztake_take, zdrop_drop, take_drop. unfold len in *. rewrite length_take, length_drop. split_and!; [done|lia|lia].
Qed.

(** A program and the signed blob of one file, as a message carries them. *)
Definition carries_signed (read : files) (m : message) : Prop :=
  exists path sigpath binding sig,
    read path = Some (m_prog m) /\ ztake 4 (m_prog m) = [0x7f; 0x45; 0x4c; 0x46] /\
    read sigpath = Some (binding ++ sig) /\ len binding = 112 /\ len sig = 64 /\
    m_signed m = Some (binding, sig) /\
    (m_op m = 0x2001 -> until_nul (slice 32 96 binding) = encode "@program-v1").

Lemma load_plan_signed read slot path sigpath mode p : load_plan read slot path sigpath mode = Ok p ->
  m_op (p_message p) = OP_LOAD /\ carries_signed read (p_message p).
Proof.
  unfold load_plan. destruct (to_int slot); [|done]. destruct (to_int mode); [|done].
  destruct (read_program read path) as [prog|] eqn:Hp; [|done].
  destruct (read_signature read path sigpath) as [[binding sig]|] eqn:Hs; [|done]. intros [= <-].
  apply read_program_ok in Hp as [Hp Hm]. apply read_signature_ok in Hs as (sp & Hs & Hb & Hg).
  split; [done|]. by exists path, sp, binding, sig.
Qed.

Lemma pack_le_len n z b : pack_le n z = Ok b -> len b = Z.of_nat n.
Proof. unfold pack_le. destruct (_ && _); [|done]. intros [= <-]. unfold len. by rewrite length_le_bytes. Qed.

Lemma program_body_signed read cmd rest body signed mode : program_body read cmd rest = Ok (body, signed, mode) ->
  if String.eqb cmd "program-load"
  then forall op slot, carries_signed read (Message op slot mode [] body None signed)
  else signed = None /\ len body = if String.eqb cmd "program-status" then 0 else 16.
Proof.
  unfold program_body. destruct (String.eqb cmd "program-load").
  - destruct (read_program read (arg 1 rest)) as [prog|] eqn:Hp; [|done].
    destruct (read_signature _ _ _) as [[binding sig]|] eqn:Hs; [|done].
    destruct (bytes_eqb (until_nul _) _) eqn:E; [|done]. intros [= <- <- <-] op slot.
    apply read_program_ok in Hp as [Hp Hm]. apply read_signature_ok in Hs as (sp & Hs & Hb & Hg).
    apply bytes_eqb_eq in E. by exists (arg 1 rest), sp, binding, sig.
  - destruct (String.eqb cmd "program-status"); [by intros [= <- <- <-]|].
    destruct (to_int0 _); [|done]. case_match; [done|].
    destruct (if mem_str cmd _ then _ else _) as [[entry md]|]; [|done].
    destruct (pack_le 8 _) eqn:H8; [|done]. destruct (pack_le 4 entry) eqn:He; [|done].
    destruct (pack_le 4 0) eqn:H0; [|done]. intros [= <- <- <-]. split; [done|].
    by rewrite !len_app, (pack_le_len _ _ _ H8), (pack_le_len _ _ _ He), (pack_le_len _ _ _ H0).
Qed.

Lemma lookup_str_in {A} k (l : list (string * A)) a : lookup_str k l = Some a -> In (k, a) l.
Proof.
  induction l as [|[k' b] l IH]; cbn [lookup_str]; [done|].
  destruct (String.eqb_spec k k') as [->|]; [intros [= ->]; by left|]. intros H. right. by apply IH.
Qed.

Section plans.
Variable read : files.
Variable read_text : string -> Z -> result string.
Variable json_loads : (list (string * val) -> result dict) -> string -> result val.
Variable json_indent : val -> string.

(** What an unsigned message carries: the program of [bench], to be measured
    under a hook and thrown away; a configuration document; the 16 bytes of
    instance and entry of a program command; or nothing. *)
Definition unsigned_body (m : message) : Prop :=
  (m_op m = OP_BENCH /\ m_slot m = 0 /\ m_hook m <> [] /\
     exists path, read path = Some (m_prog m) /\ ztake 4 (m_prog m) = [0x7f; 0x45; 0x4c; 0x46]) \/
  m_op m = OP_CONFIG_PUBLISH \/
  (m_op m ∈ [0x2002; 0x2003; 0x2004; 0x2005] /\ len (m_prog m) = 16) \/
  m_prog m = [].

(** A message is signed and loads, or is neither. *)
Definition signed_or_bare (m : message) : Prop :=
  (m_op m = OP_LOAD \/ m_op m = 0x2001) /\ carries_signed read m \/
  m_op m <> OP_LOAD /\ m_op m <> 0x2001 /\ m_signed m = None /\ unsigned_body m.

Lemma program_plan_signed cmd op rest p : lookup_str cmd PROGRAM_OPS = Some op ->
  program_plan read cmd op rest = Ok p -> signed_or_bare (p_message p).
Proof.
  intros Hop. unfold program_plan. destruct (to_int _) as [program|]; [|done]. case_match; [done|].
  destruct (program_body read cmd rest) as [[[body signed] mode]|] eqn:Hb; [|done]. intros [= <-].
  apply program_body_signed in Hb. apply lookup_str_in in Hop. cbn in Hop.
  repeat destruct Hop as [[= <- <-]|Hop]; try done; cbn in Hb |- *.
  - left. split; [by right|done].
  - destruct Hb as [-> Hb]. right. split_and!; [done..|]. right; right; left. split; [set_solver|done].
  - destruct Hb as [-> Hb]. right. split_and!; [done..|]. right; right; left. split; [set_solver|done].
  - destruct Hb as [-> Hb]. right. split_and!; [done..|]. right; right; left. split; [set_solver|done].
  - destruct Hb as [-> Hb]. right. split_and!; [done..|]. right; right; left. split; [set_solver|done].
  - destruct Hb as [-> Hb]. right. split_and!; [done..|]. right; right; right. by destruct body.
Qed.

Lemma config_plan_unsigned cmd rest p : config_plan read_text json_loads json_indent cmd rest = Ok p ->
  signed_or_bare (p_message p).
Proof.
  unfold config_plan. destruct (to_int _) as [slot|]; [|done]. case_match; [done|].
  destruct (String.eqb cmd "config-status").
  { intros [= <-]. right. split_and!; [done..|]. by do 3 right. }
  destruct (read_text _ _); [|done]. case_match; [done|]. destruct (json_loads _ _); [|done].
  destruct (config_body _); [|done]. intros [= <-]. right. split_and!; [done..|]. by right; left.
Qed.

Lemma bench_plan_bare rest p : bench_plan read rest = Ok p -> signed_or_bare (p_message p).
Proof.
  unfold bench_plan. destruct (match rest !! 1%nat with Some s => to_int s | None => Ok 10000 end) as [iters|]; [|done].
  destruct (read_program read (arg 0 rest)) as [prog|] eqn:Hp; [|done].
  destruct (match rest !! 2%nat with Some s => Ok (encode s) | None => elf_fentry_hook prog end) as [hook|]; [|done].
  destruct hook as [|c h]; [done|]. intros [= <-]. apply read_program_ok in Hp as [Hp Hm].
  right. split_and!; [done..|]. left. split_and!; [done..|]. by exists (arg 0 rest).
Qed.

(** C23: a program that is to run never travels unsigned.  Whatever the command
    and its arguments: a message whose operation makes the data plane load a
    program carries an ELF object and the 112-byte binding and 64-byte signature of
    one signature file, for a multi-entry program one that binds its reserved name.
    Every other message is unsigned, and the only one that carries a program at all
    is [bench]'s, of slot 0, which asks for the program to be timed under a hook;
    the others carry a configuration document, the 16 bytes of a program command,
    or nothing. *)
Theorem loads_are_signed cmd rest p :
  plan_of read read_text json_loads json_indent cmd rest = Ok p ->
  let m := p_message p in
  (m_op m = OP_LOAD \/ m_op m = 0x2001) /\ carries_signed read m \/
  m_op m <> OP_LOAD /\ m_op m <> 0x2001 /\ m_signed m = None /\ unsigned_body m.
Proof.
  unfold plan_of. destruct (lookup_str cmd PROGRAM_OPS) as [op|] eqn:Hop; [by apply program_plan_signed|].
  destruct (mem_str cmd _); [apply config_plan_unsigned|].
  assert (forall op slot mode hook q, op <> OP_LOAD -> op <> 0x2001 ->
    Ok (plain (Message op slot mode hook [] None None)) = Ok q -> signed_or_bare (p_message q)) as Hplain.
  { intros op slot mode hook q H1 H2 [= <-]. right. split_and!; [done..|]. by do 3 right. }
  assert (forall slot path sp mode q, load_plan read slot path sp mode = Ok q -> signed_or_bare (p_message q)) as Hload.
  { intros slot path sp mode q [Ho Hs]%load_plan_signed. left. split; [by left|done]. }
  unfold simple. repeat (case_match; try done); try apply bench_plan_bare; try apply Hload; by apply Hplain.
Qed.
End plans.

(** Files of a signed program. *)
Definition demo_files (path : string) : option bytes :=
  if String.eqb path "p.bpf.o" then Some [0x7f; 0x45; 0x4c; 0x46]
  else if String.eqb path "p.bpf.sig" then Some (replicate 176 7) else None.

Lemma loads_are_signed_witness :
  exists p, plan_of demo_files (fun _ _ => Ok "") (fun _ _ => Ok VNone) (fun _ => "") "load" ["5"; "p.bpf.o"] = Ok p /\
    carries_signed demo_files (p_message p).
Proof.
  destruct (plan_of demo_files (fun _ _ => Ok "") (fun _ _ => Ok VNone) (fun _ => "") "load" ["5"; "p.bpf.o"])
    as [p|e] eqn:H.
  - exists p. split; [reflexivity|].
    destruct (loads_are_signed demo_files (fun _ _ => Ok "") (fun _ _ => Ok VNone) (fun _ => "") "load"
      ["5"; "p.bpf.o"] p H) as [[_ Hs]|(Hn & _)]; [exact Hs|].
    exfalso. apply Hn. vm_compute in H. injection H as <-. reflexivity.
  - exfalso. vm_compute in H. discriminate H.
Defined.

(** The signature file beside a program. *)
Definition beside (path : string) : string :=
  cat [if ends_with ".o" path then list_str (take (length (str_list path) - 2) (str_list path)) else path; ".sig"].

(** The commands that load a program of one entry: with the signature file beside
    it, or with one that is named. *)
Inductive asks_load (slot path mode : string) : string -> string -> list string -> Prop :=
| asks_beside : asks_load slot path mode (beside path) "load" [slot; path; mode]
| asks_named c s : asks_load slot path mode (String c s) "load-signed" [slot; path; String c s; mode].

Lemma read_signature_first read path sigpath binding sig :
  len binding = BINDING_LEN -> len sig = SIG_LEN ->
  match sigpath with Some p => p <> ""%string /\ read p = Some (binding ++ sig)
                   | None => read (beside path) = Some (binding ++ sig) end ->
  read_signature read path sigpath = Ok (binding, sig).
Proof.
  intros Lb Ls H. unfold read_signature. cbv zeta.
  assert (first_readable read (match sigpath with
    | Some (String _ _ as p) => [p]
    | _ => [beside path; cat [path; ".sig"]] end) = Some (binding ++ sig)) as E.
  { destruct sigpath as [[|c p]|]; cbn [first_readable]; [by destruct H| |by rewrite H].
    destruct H as [_ H]. by rewrite H. }
  unfold beside in E. rewrite E, len_app, Lb, Ls, Z.eqb_refl. cbn [negb]. rewrite ztake_take, zdrop_drop.
  assert (Z.to_nat BINDING_LEN = length binding) as -> by (unfold len in Lb; lia).
  by rewrite take_app_length, drop_app_length.
Qed.

(** C24: what was signed is what arrives.  When the signer's output for a program
    is the signature file beside it, or the one named, the command that loads it
    sends one message, and on the wire the program is that program, the binding
    area reads back as its hash, hook, build range, mode ceiling, expiry and
    context version (the one given, or the one the header declares), and the
    signature area is the key's signature of exactly that binding. *)
Theorem signed_program_arrives sha256_digest openssl_sign prog hook bmin bmax ceiling ctx_abi header now expires
    out read read_text json_loads json_indent cmd rest path sigpath slot mode s m :
  (forall p, length (sha256_digest p) = 32%nat) -> no_nul hook ->
  sign_main sha256_digest openssl_sign prog hook bmin bmax ceiling ctx_abi header now expires = Ok out ->
  asks_load slot path mode sigpath cmd rest -> read path = Some prog -> read sigpath = Some out ->
  to_int slot = Ok s -> to_int mode = Ok m -> u32 s -> u32 m -> u32 (len prog) ->
  exists p b binding sig,
    plan_of read read_text json_loads json_indent cmd rest = Ok p /\
    msg (p_message p) = Ok b /\ read_msg b = (OP_LOAD, s, m, len prog, binding, sig, prog) /\
    signed_for sha256_digest openssl_sign prog hook bmin bmax ceiling ctx_abi header now expires binding sig.
Proof.
  intros Hd Hn Hsign Hask Hp Hs Es Em Us Um Ul.
  assert (ztake 4 prog = [0x7f; 0x45; 0x4c; 0x46]) as Hmagic.
  { revert Hsign. unfold sign_main. destruct (parse_expiry now expires); [|done]. destruct (mode_value ceiling); [|done].
    destruct (bytes_eqb (ztake 4 prog) _) eqn:E; [|done]. by apply bytes_eqb_eq in E. }
  destruct (sign_main_ok _ _ _ _ _ _ _ _ _ _ _ _ Hd Hn Hsign) as (binding & sig & -> & Hf).
  pose proof Hf as (? & ? & ? & _ & Lb & Ls & _).
  assert (read_program read path = Ok prog) as Hrp.
  { unfold read_program. rewrite Hp. destruct prog; [done|]. by rewrite Hmagic, bytes_eqb_refl. }
  set (q := plain (Message OP_LOAD s m [] prog None (Some (binding, sig)))).
  assert (forall sp, read_signature read path sp = Ok (binding, sig) -> load_plan read slot path sp mode = Ok q) as Hplan.
  { intros sp Hrs. unfold load_plan. by rewrite Es, Em, Hrp, Hrs. }
  assert (plan_of read read_text json_loads json_indent cmd rest = Ok q) as Hq.
  { destruct Hask as [|c sp].
    - change (load_plan read slot path None mode = Ok q). by apply Hplan, read_signature_first.
    - change (load_plan read slot path (Some (String c sp)) mode = Ok q). by apply Hplan, read_signature_first. }
  destruct (proj1 (msg_fits (p_message q))) as [b Hb].
  { unfold fits, q. cbn. split_and!; try done; unfold u32, OP_LOAD; lia. }
  exists q, b, binding, sig. split_and!; [done|done| |done]. by apply msg_ok in Hb as [_ ->].
Qed.

Definition demo_signer (prog : bytes) : result bytes :=
  sign_main (fun _ => replicate 32 7) (fun _ => Some (replicate 64 9)) prog "rst_why" 0 0xffffffff "monitor" None
    "#define SHIELD_CTX_ABI_VERSION 3" 1700000000 "2026-12-31".
Definition demo_elf_prog : bytes := [0x7f; 0x45; 0x4c; 0x46; 1].
Definition demo_out : bytes := Eval vm_compute in match demo_signer demo_elf_prog with Ok o => o | Err _ => [] end.
Definition demo_store (path : string) : option bytes :=
  if String.eqb path "p.o" then Some demo_elf_prog else if String.eqb path "p.sig" then Some demo_out else None.

Lemma signed_program_arrives_witness :
  exists p b binding sig,
    plan_of demo_store (fun _ _ => Ok "") (fun _ _ => Ok VNone) (fun _ => "") "load" ["5"; "p.o"; "1"] = Ok p /\
    msg (p_message p) = Ok b /\ read_msg b = (OP_LOAD, 5, 1, 5, binding, sig, demo_elf_prog).
Proof.
  destruct (signed_program_arrives (fun _ => replicate 32 7) (fun _ => Some (replicate 64 9)) demo_elf_prog
    "rst_why" 0 0xffffffff "monitor" None "#define SHIELD_CTX_ABI_VERSION 3" 1700000000 "2026-12-31"
    demo_out demo_store (fun _ _ => Ok "") (fun _ _ => Ok VNone) (fun _ => "") "load" ["5"; "p.o"; "1"]
    "p.o" (beside "p.o") "5" "1" 5 1)
    as (p & b & binding & sig & Hp & Hb & Hr & _); try (split; [discriminate|reflexivity]).
  - reflexivity.
  - repeat constructor; discriminate.
  - vm_compute. reflexivity.
  - apply asks_beside.
  - reflexivity.
  - vm_compute. reflexivity.
  - reflexivity.
  - reflexivity.
  - exists p, b, binding, sig. split; [exact Hp|]. split; [exact Hb|exact Hr].
Defined.
