(* ===== verification/LoaderConfig.v ===== *)
(** * Configuration documents on the wire

    What [config_body] accepts and how its bytes read back. *)

From S2P Require Import Prelude PyVal Text Target Sign Loader.

Definition all_hex (l : list ascii) : Prop := Forall (fun c => hexval c <> None) l.

Lemma hex_not_space c : hexval c <> None -> is_space c = false.
Proof.
  intros H. destruct (is_space c) eqn:E; [|done]. exfalso. apply H. unfold is_space in E. unfold hexval. cbv zeta.
  assert (ord c < 48) as Hc by (apply orb_true_iff in E as [E%Z.eqb_eq|E]; lia).
  assert (forall x y, 48 <= x -> (x <=? ord c) && y = false) as Hf
    by (intros x y Hx; destruct (Z.leb_spec x (ord c)); [lia|done]).
  by rewrite !Hf by lia.
Qed.

(** Hexadecimal text without white space: two characters a byte. *)
Lemma fromhex_length n : forall l b, (length l <= n)%nat -> all_hex l -> fromhex_list l = Some b ->
  length l = (2 * length b)%nat.
Proof.
  induction n as [|n IH]; intros l b Hn Hl; destruct l as [|c [|d l]]; cbn [length fromhex_list] in *; try lia;
    try (intros [= <-]; done); inversion_clear Hl as [|? ? Hc Hr]; rewrite hex_not_space by done.
  - by destruct (hexval c).
  - inversion_clear Hr as [|? ? Hd Hl]. destruct (hexval c); [|done]. destruct (hexval d); [|done].
    destruct (fromhex_list l) as [r|] eqn:E; [|done]. intros [= <-]. cbn [length].
    rewrite (IH l r) by (done || lia). lia.
Qed.

Lemma hexadecimal_ok v size b : hexadecimal v size = Ok b ->
  exists s, v = VStr s /\ fromhex s = Ok b /\ len b = size.
Proof.
  unfold hexadecimal. destruct v as [| | |s| | | |]; try done.
  destruct (Z.eqb_spec (strlen s) (size * 2)) as [Hl|]; [|done]. cbn [negb orb].
  destruct (existsb _ _) eqn:E; [done|]. intros H. exists s. split_and!; [done|done|].
  unfold fromhex in H. destruct (fromhex_list (str_list s)) as [b'|] eqn:Hb; [|done]. injection H as <-.
  assert (all_hex (str_list s)) as Hx.
  { apply Forall_forall. intros c Hc Hv. apply not_true_iff_false in E. apply E, existsb_exists.
    exists c. split; [by apply list_elem_of_In|]. by rewrite Hv. }
  apply (fromhex_length _ _ _ (le_n _) Hx) in Hb. unfold strlen, len in *. lia.
Qed.

Lemma config_integer_ok d name lo hi z : config_integer d name lo hi = Ok z ->
  get name d = Some (VInt z) /\ lo <= z <= hi.
Proof.
  unfold config_integer, item. destruct (get name d) as [[]|]; try done. case_match eqn:E; [done|].
  intros [= <-]. split; [done|lia].
Qed.

Lemma mapM_hex rows data : mapM_r (fun row => hexadecimal row 32) rows = Ok data ->
  Forall2 (fun row bs => exists s, row = VStr s /\ fromhex s = Ok bs /\ len bs = 32) rows data.
Proof.
  revert data. induction rows as [|row rows IH]; intros data; cbn [mapM_r]; [intros [= <-]; constructor|].
  destruct (hexadecimal row 32) as [bs|] eqn:H; [|done]. destruct (mapM_r _ rows) as [rest|]; [|done].
  intros [= <-]. constructor; [by apply hexadecimal_ok|by apply IH].
Qed.

Lemma length_rows rows data : Forall2 (fun row bs => exists s, row = VStr s /\ fromhex s = Ok bs /\ len bs = 32) rows data ->
  len (concat data) = 32 * len rows.
Proof.
  induction 1 as [|row bs rows data (s & _ & _ & Hl) _ IH]; [done|]. cbn [concat]. rewrite len_app, len_cons. lia.
Qed.

(** The fields of a configuration body, by offset. *)
Definition read_config (b : bytes) : Z * Z * Z * Z * Z * Z * Z * Z * bytes :=
  (le_int (slice 0 4 b), le_int (slice 4 8 b), le_int (slice 8 16 b), le_int (slice 16 24 b),
   le_int (slice 24 32 b), le_int (slice 32 40 b), le_int (slice 40 44 b), le_int (slice 44 48 b), slice 48 80 b).

(** A configuration is sent only when it is complete and advances, and it
    reads back.  An accepted document is an object with exactly the eight fields,
    abi 1, a non-zero session, an instance with its top bit set, and a revision
    above the expected one within 64 bits; the body is 80 bytes and 32 per row, at
    most 16 rows, whose fields read back as the document's numbers, digest and
    rows. *)
Theorem config_body_exact document b :
  config_body document = Ok b ->
  exists d schema session instance expected revision sha rows data s i h,
    document = VDict d /\ (list_to_set (map fst d) : gset string) = list_to_set CONFIG_FIELDS /\
    get "abi" d = Some (VInt 1) /\ get "schema" d = Some (VInt schema) /\ 1 <= schema < 2 ^ 32 /\
    get "expected_revision" d = Some (VInt expected) /\ get "revision" d = Some (VInt revision) /\
    0 <= expected < revision /\ revision < 2 ^ 64 /\
    getv "session" d = VStr s /\ fromhex s = Ok session /\ be_int session <> 0 /\
    getv "instance" d = VStr i /\ fromhex i = Ok instance /\ Z.testbit (be_int instance) 63 = true /\
    getv "program_sha256" d = VStr h /\ fromhex h = Ok sha /\
    getv "rows" d = VList rows /\ len rows <= 16 /\
    Forall2 (fun row bs => exists s, row = VStr s /\ fromhex s = Ok bs /\ len bs = 32) rows data /\
    len b = 80 + 32 * len rows /\ zdrop 80 b = concat data /\
    read_config b = (1, schema, be_int session, be_int instance, expected, revision, len rows, 0, sha).
Proof.
  unfold config_body. destruct document as [| | | | | | |d]; try done.
  destruct (bool_decide _) eqn:Hk; [|done]. apply bool_decide_eq_true in Hk. cbn [negb].
  destruct (config_integer d "abi" 1 1) as [abi|] eqn:Ha; [|done].
  destruct (config_integer d "schema" _ _) as [schema|] eqn:Hsc; [|done].
  destruct (config_integer d "expected_revision" _ _) as [expected|] eqn:He; [|done].
  destruct (config_integer d "revision" _ _) as [revision|] eqn:Hr; [|done].
  apply config_integer_ok in Ha as [Ha Ba], Hsc as [Hsc Bs], He as [He Be], Hr as [Hr Br].
  destruct (Z.leb_spec revision expected) as [|Hlt]; [done|].
  destruct (hexadecimal (getv "session" d) 8) as [session|] eqn:Hse; [|done].
  destruct (hexadecimal (getv "instance" d) 8) as [instance|] eqn:Hi; [|done].
  apply hexadecimal_ok in Hse as (s & Es & Fs & _), Hi as (i & Ei & Fi & _).
  destruct (Z.eqb_spec (be_int session) 0) as [|Hs0]; [done|].
  destruct (Z.testbit (be_int instance) 63) eqn:Ht; [|done]. cbn [negb orb].
  destruct (hexadecimal (getv "program_sha256" d) 32) as [sha|] eqn:Hh; [|done].
  apply hexadecimal_ok in Hh as (h & Eh & Fh & Lh).
  destruct (getv "rows" d) as [| | | | | |rows|] eqn:Hrows; try done.
  destruct (Z.ltb_spec 16 (len rows)) as [|Hn]; [done|].
  destruct (mapM_r _ rows) as [data|] eqn:Hd; [|done]. apply mapM_hex in Hd.
  destruct (pack_le 4 abi) as [x1|] eqn:H1; [|done]. destruct (pack_le 4 schema) as [x2|] eqn:H2; [|done].
  destruct (pack_le 8 (be_int session)) as [x3|] eqn:H3; [|done].
  destruct (pack_le 8 (be_int instance)) as [x4|] eqn:H4; [|done].
  destruct (pack_le 8 expected) as [x5|] eqn:H5; [|done]. destruct (pack_le 8 revision) as [x6|] eqn:H6; [|done].
  destruct (pack_le 4 (len rows)) as [x7|] eqn:H7; [|done]. destruct (pack_le 4 0) as [x8|] eqn:H8; [|done].
  intros <-%Ok_inj.
  apply pack_le_ok in H1 as [L1 V1], H2 as [L2 V2], H3 as [L3 V3], H4 as [L4 V4], H5 as [L5 V5], H6 as [L6 V6],
    H7 as [L7 V7], H8 as [L8 V8].
  assert (len x1 = 4 /\ len x2 = 4 /\ len x3 = 8 /\ len x4 = 8) as (M1 & M2 & M3 & M4) by (unfold len; lia).
  assert (len x5 = 8 /\ len x6 = 8 /\ len x7 = 4 /\ len x8 = 4) as (M5 & M6 & M7 & M8) by (unfold len; lia).
  pose proof (length_rows _ _ Hd) as Mc.
  assert (pack_s 32 sha = sha) as -> by (apply pack_s_exact; unfold len in Lh; lia).
  assert (abi = 1) as -> by lia.
  exists d, schema, session, instance, expected, revision, sha, rows, data, s, i, h.
  split_and!; try done; try lia; rewrite ?len_app; try lia.
  - rewrite zdrop_drop. change (Z.to_nat 80) with 80%nat. rewrite !app_assoc, drop_app_length'; [done|].
    rewrite !length_app. unfold len in *. lia.
  - unfold read_config. slice_fields. by rewrite V1, V2, V3, V4, V5, V6, V7, V8.
Qed.

Definition demo_config : val :=
  VDict [("abi", VInt 1); ("schema", VInt 2); ("session", VStr "0000000000000001"); ("instance", VStr "8000000000000002");
         ("expected_revision", VInt 0); ("revision", VInt 1);
         ("program_sha256", VStr (list_str (replicate 64 "a"%char))); ("rows", VList [VStr (list_str (replicate 64 "0"%char))])].

Lemma config_body_exact_witness :
  exists b, config_body demo_config = Ok b /\ exists rows : list val, len b = 80 + 32 * len rows /\ len rows <= 16.
Proof.
  destruct (config_body demo_config) as [b|e] eqn:H.
  - exists b. split; [reflexivity|].
    destruct (config_body_exact demo_config b H) as (d & schema & session & instance & expected & revision & sha & rows
      & data & s & i & h & _ & _ & _ & _ & _ & _ & _ & _ & _ & _ & _ & _ & _ & _ & _ & _ & _ & _ & Hn & _ & Hl & _).
    exists rows. split; [exact Hl|exact Hn].
  - exfalso. vm_compute in H. discriminate H.
Defined.
