(* ===== verification/HookMap.v ===== *)
(** * The hook map (substrate/mk_hook_map.py)

    Which functions of a build can be armed, read from the bytes at their entries
    and from a disassembly, and the index the loader and the binder read.  The
    tools' outputs are arguments; the disassembly is walked by function addresses,
    the way [main] calls it. *)

From S2P Require Import Prelude PyVal Decimal Text Hex Target Sign Admit Loader LoaderSpec.

Definition PAD5 : bytes := NOPS.

(** [run]: the text of a command that ended well. *)
Definition run (o : output) : result string :=
  if returncode o =? 0 then Ok (stdout o) else Err (SystemExit "command failed").

(** [[0-9a-f]+]. *)
Definition hex1 (l : list ascii) : option (list ascii * list ascii) :=
  match hex_run l with ([], _) => None | r => Some r end.

Definition match_build_id (l : list ascii) : option string :=
  match literal (str_list "Build ID:") l with
  | Some t => match hex1 (lstrip t) with Some (h, _) => Some (list_str h) | None => None end
  | None => None
  end.
Definition map_build_id (readelf_n : output) : result (option string) :=
  let? out := run readelf_n in Ok (search match_build_id (str_list out)).

Definition blank_hex (l : list ascii) : option (Z * list ascii) :=
  match blanks1 l with
  | Some t => match hex1 t with Some (h, r) => Some (hex_value h, r) | None => None end
  | None => None
  end.

Definition match_text (l : list ascii) : option (Z * Z * Z) :=
  match literal (str_list ".text") l with
  | Some t =>
      match blanks1 t with
      | Some t =>
          match literal (str_list "PROGBITS") t with
          | Some t =>
              match blank_hex t with
              | Some (a, t) =>
                  match blank_hex t with
                  | Some (o, t) => match blank_hex t with Some (s, _) => Some (a, o, s) | None => None end
                  | None => None
                  end
              | None => None
              end
          | None => None
          end
      | None => None
      end
  | None => None
  end.
Definition text_section (readelf_S : output) : result (Z * Z * Z) :=
  let? out := run readelf_S in
  match search match_text (str_list out) with
  | Some r => Ok r
  | None => Err (SystemExit "no .text section found")
  end.

(** [functions]. *)
Fixpoint functions_from (lines : list string) : result (list (Z * string)) :=
  match lines with
  | [] => Ok []
  | l :: t =>
      match str_split l with
      | [a; k; name] =>
          if mem_str k ["t"; "T"] then
            match py_int16 a with
            | Some z => let? rest := functions_from t in Ok ((z, name) :: rest)
            | None => Err (ValueError "invalid literal for int()")
            end
          else functions_from t
      | _ => functions_from t
      end
  end.
Definition functions (nm : output) : result (list (Z * string)) :=
  let? out := run nm in functions_from (text_lines out).

(** ** The disassembly *)

Record insn := Insn { nbytes : Z; mnem : string; ops : string }.

Fixpoint hex_blank_run (l : list ascii) : list ascii * list ascii :=
  match l with
  | c :: t => if is_hex_lower c || (ord c =? 32) then let '(a, b) := hex_blank_run t in (c :: a, b) else ([], l)
  | [] => ([], [])
  end.

Fixpoint word (l : list ascii) : list ascii * list ascii :=
  match l with
  | c :: t => if is_blank c then ([], l) else let '(a, b) := word t in (c :: a, b)
  | [] => ([], [])
  end.

(** A line of [objdump -d] that is an instruction: its address, and the rest. *)
Definition insn_line (line : list ascii) : option (Z * insn) :=
  match blanks1 line with
  | Some t =>
      match hex1 t with
      | Some (a, c :: tb :: t) =>
          if (ord c =? 58) && (ord tb =? 9) then
            match hex_blank_run t with
            | ([], _) => None
            | (bs, rest) =>
                let rest := match rest with x :: r => if ord x =? 9 then r else rest | [] => [] end in
                let text := str_list (str_strip (list_str rest)) in
                let '(m, o) := word text in
                Some (hex_value a, Insn (len (split_blank bs [])) (list_str m) (list_str (lstrip o)))
            end
          else None
      | _ => None
      end
  | None => None
  end.

Definition closed (cur : option Z) (insns : list insn) : list (Z * list insn) :=
  match cur with Some a => [(a, insns)] | None => [] end.

(** [_objdump_text] with the addresses wanted. *)
Fixpoint walk_text (want : gset Z) (need : Z) (lines : list (list ascii)) (cur : option Z) (insns : list insn)
    (got : Z) : list (Z * list insn) :=
  match lines with
  | [] => closed cur insns
  | l :: t =>
      match insn_line l with
      | None => walk_text want need t cur insns got
      | Some (addr, i) =>
          if decide (addr ∈ want) then closed cur insns ++ walk_text want need t (Some addr) [i] (nbytes i)
          else match cur with
               | None => walk_text want need t None insns got
               | Some _ => if need <=? got then walk_text want need t cur insns got
                           else walk_text want need t cur (insns ++ [i]) (got + nbytes i)
               end
      end
  end.

(** A mnemonic whose encoding depends on where it sits. *)
Definition posdep (m : string) : bool :=
  existsb (fun p => starts_with p (lower m)) ["j"; "call"; "loop"; "xbegin"].

Record info := Info { copy_bytes : Z; why : option string }.
Definition relocatable (i : info) : bool := match why i with None => true | Some _ => false end.

(** The bytes of the leading instructions up to [need], or why not. *)
Fixpoint copy_span (need total : Z) (insns : list insn) : Z * option string :=
  match insns with
  | [] => (total, None)
  | i :: t =>
      if str_contains "(bad)" (mnem i) || String.eqb (mnem i) "" then (total, Some "undecodable")
      else if posdep (mnem i) then (total, Some (cat ["relative branch ("; mnem i; ")"]))
      else if str_contains "(%rip)" (ops i) then (total, Some "rip-relative operand")
      else if need <=? total + nbytes i then (total + nbytes i, None)
      else copy_span need (total + nbytes i) t
  end.

Definition info_of (need : Z) (insns : list insn) : info :=
  let '(total, why) := copy_span need 0 insns in
  match why with
  | Some w => Info 0 (Some w)
  | None => if total <? need then Info 0 (Some "function shorter than the patch") else Info total None
  end.

Definition relocatability (objdump : output) (func_addrs : gset Z) : result (gmap Z info) :=
  let? out := run objdump in
  Ok (fold_left (fun m ai => <[ai.1 := info_of 5 ai.2]> m)
        (walk_text func_addrs 5 (splitlines out) None [] 0) ∅).

(** ** The map *)

Record entry := Entry {
  e_name : string; e_entry : Z; e_pad : option Z; e_info : info }.
Definition arm_at (e : entry) : Z := e_entry e + default 0 (e_pad e).
Definition arm_method (e : entry) : string := match e_pad e with Some _ => "pad" | None => "displace" end.

(** The pad at a function entry: after endbr64, at the entry, or none. *)
Definition pad_of (head : bytes) : option Z :=
  if bytes_eqb (ztake 4 head) ENDBR64 && bytes_eqb (slice 4 9 head) PAD5 then Some 4
  else if bytes_eqb (ztake 5 head) PAD5 then Some 0
  else None.

Definition in_range (taddr tsize addr : Z) : bool := (taddr <=? addr) && (addr <? taddr + tsize - 9).

(** [head[4]] of a head that the end of the file cuts after endbr64. *)
Definition cut_head (taddr tsize : Z) (text : bytes) (fn : Z * string) : bool :=
  in_range taddr tsize fn.1 && bytes_eqb (slice (fn.1 - taddr) (fn.1 - taddr + 9) text) ENDBR64.

(** The loop body of [main] for one function: the entry emitted, if any. *)
Definition entry_of (taddr tsize : Z) (text : bytes) (reloc : gmap Z info) (fn : Z * string) : option entry :=
  let '(addr, name) := fn in
  if negb (in_range taddr tsize addr) then None else
  let pad := pad_of (slice (addr - taddr) (addr - taddr + 9) text) in
  let r := default (Info 0 (Some "not present in the .text disassembly")) (reloc !! addr) in
  match pad with
  | None => if relocatable r then Some (Entry name addr None r) else None
  | Some _ => Some (Entry name addr pad r)
  end.

(** [main], of the tools' texts on the two files and the bytes of the binary. *)
Definition map_main (id_binary id_debug sections nm objdump : output) (binary : bytes)
    : result (option string * list entry) :=
  let? bid_b := map_build_id id_binary in
  let? bid_d := map_build_id id_debug in
  raise_if (negb (bool_decide (bid_b = bid_d))) (SystemExit "BUILD IDs DIFFER") ;;
  let? (taddr, toff, tsize) := text_section sections in
  let text := slice toff (toff + tsize) binary in
  let? funcs := functions nm in
  let in_text : gset Z := list_to_set (map fst (List.filter (fun f => in_range taddr tsize f.1) funcs)) in
  let? reloc := relocatability objdump in_text in
  raise_if (negb (Z.of_nat (size in_text) =? 0) && (10 * Z.of_nat (size reloc) <? 8 * Z.of_nat (size in_text)))
    (SystemExit "DISASSEMBLY COVERED ONLY") ;;
  raise_if (existsb (cut_head taddr tsize text) funcs) IndexError ;;
  Ok (bid_b, omap (entry_of taddr tsize text reloc) funcs).

(** ** The index *)

Definition index_line_of (e : entry) : string :=
  cat [e_name e; tab; "0x"; hex_int (arm_at e); tab; arm_method e; tab;
       match e_pad e with Some p => py_str p | None => "-" end; tab; py_str (copy_bytes (e_info e))].

Definition index_lines (bid : option string) (tmos_version : string) (es : list entry) : list string :=
  [cat ["#ls-hook-index"; tab; "1"]; cat ["#build_id"; tab; default "None" bid];
   cat ["#tmos_version"; tab; tmos_version]; cat ["#ctx_abi_version"; tab; "1"];
   cat ["#name"; tab; "arm_at"; tab; "arm_method"; tab; "pad_offset"; tab; "displace_bytes"]]
  ++ map index_line_of es.

Definition hook_index_text (bid : option string) (tmos_version : string) (es : list entry) : string :=
  cat (map (fun l => cat [l; newline]) (index_lines bid tmos_version es)).

(** ** What the hook map promises

    An entry is listed only when the bytes at its address, or the disassembly of
    its leading instructions, allow arming it; no padded function of the text is
    left out; and the index written from the map reads back, in the binder and in
    the loader, as exactly those entries. *)

(** ** The disassembly *)

(** An instruction that can be copied elsewhere as it is. *)
Definition movable (i : insn) : Prop :=
  str_contains "(bad)" (mnem i) = false /\ mnem i <> "" /\ posdep (mnem i) = false /\
  str_contains "(%rip)" (ops i) = false.

Definition sum_bytes (l : list insn) : Z := foldr (fun i n => nbytes i + n) 0 l.

Lemma copy_span_ok need insns : forall total t, copy_span need total insns = (t, None) ->
  exists k, t = total + sum_bytes (take k insns) /\ Forall movable (take k insns).
Proof.
  induction insns as [|i insns IH]; intros total t; cbn [copy_span].
  { intros [= <-]. exists 0%nat. split; [cbn; lia|constructor]. }
  destruct (str_contains "(bad)" (mnem i)) eqn:E1; [done|]. destruct (String.eqb_spec (mnem i) "") as [|E2]; [done|].
  destruct (posdep (mnem i)) eqn:E3; [done|]. destruct (str_contains "(%rip)" (ops i)) eqn:E4; [done|]. cbn [orb].
  destruct (Z.leb_spec need (total + nbytes i)).
  - intros [= <-]. exists 1%nat. unfold sum_bytes. cbn [take foldr]. rewrite take_0. split; [cbn; lia|].
    by repeat constructor.
  - intros (k & -> & Hk)%IH. exists (S k). cbn [take sum_bytes foldr]. fold (sum_bytes (take k insns)).
    split; [lia|]. by constructor.
Qed.

(** At [addr] the listing [lines] has these leading instructions. *)
Definition listed_at (lines : list (list ascii)) (addr : Z) (insns : list insn) : Prop :=
  exists pre i rest more, omap insn_line lines = pre ++ (addr, i) :: rest /\ i :: map snd rest = insns ++ more.

Lemma walk_text_listed want need : forall lines cur insns got addr l,
  (addr, l) ∈ walk_text want need lines cur insns got ->
  listed_at lines addr l \/
  (cur = Some addr /\ exists more rest, l = insns ++ more /\ map snd (omap insn_line lines) = more ++ rest /\
    (need <= got -> more = [])).
Proof.
  induction lines as [|line lines IH]; intros cur insns got addr l; cbn [walk_text].
  { destruct cur as [a|]; [|by intros ?%not_elem_of_nil]. intros [= -> ->]%list_elem_of_singleton.
    right. split; [done|]. exists [], []. by rewrite app_nil_r. }
  unfold listed_at. change (omap insn_line (line :: lines)) with
    (match insn_line line with Some y => y :: omap insn_line lines | None => omap insn_line lines end).
  destruct (insn_line line) as [[a i]|] eqn:El; [|by intros H%IH].
  assert (forall l, listed_at lines addr l ->
    exists pre i0 rest more, (a, i) :: omap insn_line lines = pre ++ (addr, i0) :: rest /\
      i0 :: map snd rest = l ++ more) as Hlift.
  { intros l' (pre & i0 & rest & more & -> & H). by exists ((a, i) :: pre), i0, rest, more. }
  assert (cur = Some addr -> l = insns -> exists more rest, l = insns ++ more /\
    map snd ((a, i) :: omap insn_line lines) = more ++ rest /\ (need <= got -> more = [])) as Hstop.
  { intros _ ->. eexists [], _. by rewrite app_nil_r. }
  destruct (decide (a ∈ want)); [intros [H|H]%elem_of_app|destruct cur as [c|]; [destruct (Z.leb_spec need got)|]].
  - destruct cur as [c|]; [|by apply not_elem_of_nil in H]. apply list_elem_of_singleton in H as [= -> ->].
    right. split; [done|by apply Hstop].
  - apply IH in H as [H|([= ->] & more & rest & -> & Hm & _)]; left; [by apply Hlift|].
    exists [], i, (omap insn_line lines), rest. split; [done|]. cbn [app]. by rewrite Hm.
  - intros Hin. apply IH in Hin as [Hin|([= ->] & more & rest & -> & Hm & Hn)]; [left; by apply Hlift|].
    right. split; [done|]. apply Hstop; [done|]. by rewrite Hn, app_nil_r.
  - intros Hin. apply IH in Hin as [Hin|([= ->] & more & rest & -> & Hm & Hn)]; [left; by apply Hlift|].
    right. split; [done|]. exists (i :: more), rest. split_and!; [by rewrite <- app_assoc| |lia].
    cbn [map snd app]. by rewrite Hm.
  - intros Hin. apply IH in Hin as [Hin|(? & _)]; [left; by apply Hlift|done].
Qed.

(** A function that may be displaced: at its address the disassembly lists
    instructions whose first ones are movable and are the bytes to copy, at least
    the five of the jump. *)
Definition displaceable (objdump : output) (addr n : Z) : Prop :=
  exists insns k, listed_at (splitlines (stdout objdump)) addr insns /\
    Forall movable (take k insns) /\ n = sum_bytes (take k insns) /\ 5 <= n.

Lemma info_of_ok need insns : why (info_of need insns) = None ->
  exists k, Forall movable (take k insns) /\ copy_bytes (info_of need insns) = sum_bytes (take k insns) /\
    need <= copy_bytes (info_of need insns).
Proof.
  unfold info_of. destruct (copy_span need 0 insns) as [total [w|]] eqn:H; [done|].
  apply copy_span_ok in H as (k & -> & Hk). destruct (Z.ltb_spec (0 + sum_bytes (take k insns)) need); [done|].
  intros _. exists k. cbn [copy_bytes]. split_and!; [done|lia|lia].
Qed.

Lemma fold_insert_in {A} (f : list insn -> A) (l : list (Z * list insn)) : forall m k a,
  fold_left (fun m ai => <[ai.1 := f ai.2]> m) l m !! k = Some a ->
  (m : gmap Z A) !! k = Some a \/ exists insns, (k, insns) ∈ l /\ a = f insns.
Proof.
  induction l as [|[k0 i0] l IH]; intros m k a; cbn [fold_left]; [by left|]. intros [H|(insns & Hin & ->)]%IH.
  - cbn [fst snd] in H. apply lookup_insert_Some in H as [[-> <-]|[_ H]]; [|by left].
    right. exists i0. split; [left|done].
  - right. exists insns. split; [by right|done].
Qed.

Lemma relocatability_ok objdump want reloc addr i : relocatability objdump want = Ok reloc ->
  reloc !! addr = Some i -> why i = None -> displaceable objdump addr (copy_bytes i).
Proof.
  unfold relocatability, run. destruct (returncode objdump =? 0); [|done]. intros [= <-] H Hw.
  apply fold_insert_in in H as [H|(insns & Hin & ->)]; [by rewrite lookup_empty in H|].
  apply walk_text_listed in Hin as [Hl|[? _]]; [|done].
  apply info_of_ok in Hw as (k & Hk & Hc & Hn). by exists insns, k.
Qed.

(** ** Pads *)

Lemma pad_of_iff head p : pad_of head = Some p <->
  (p = 0 \/ p = 4) /\ take (Z.to_nat (p + 5)) head = entry_bytes p.
Proof.
  unfold pad_of. rewrite !ztake_take, slice_take_drop. change (Z.to_nat 4) with 4%nat. change (Z.to_nat 5) with 5%nat.
  change (Z.to_nat (9 - 4)) with 5%nat.
  assert (bytes_eqb (take 4 head) ENDBR64 && bytes_eqb (take 5 (drop 4 head)) PAD5 = true <->
    take 9 head = entry_bytes 4) as H4.
  { rewrite andb_true_iff, !bytes_eqb_eq. change (entry_bytes 4) with (ENDBR64 ++ PAD5).
    change 9%nat with (4 + 5)%nat. rewrite <- (take_take_drop head 4 5). split; [by intros [-> ->]|].
    intros H. apply app_inj_1 in H; [done|]. apply (f_equal length) in H as Hl.
    change (length (ENDBR64 ++ PAD5)) with 9%nat in Hl. change (length ENDBR64) with 4%nat.
    rewrite length_app, !length_take, length_drop in Hl. rewrite length_take. lia. }
  destruct (_ && _) eqn:E.
  - apply proj1 in H4. specialize (H4 eq_refl). split; [intros [= <-]; split; [by right|done]|].
    intros [[-> | ->] H]; [|done]. exfalso. apply (f_equal (take 4)) in H, H4.
    rewrite take_take in H, H4. change (4 `min` 9)%nat with 4%nat in H4.
    change (4 `min` Z.to_nat (0 + 5))%nat with 4%nat in H. rewrite H in H4. discriminate H4.
  - assert (take 9 head <> entry_bytes 4) as Hn by (by intros ?%H4).
    destruct (bytes_eqb (take 5 head) PAD5) eqn:E5.
    + apply bytes_eqb_eq in E5. split; [intros [= <-]; split; [by left|done]|]. by intros [[-> | ->] H].
    + split; [done|]. intros [[-> | ->] H]; [|done]. change (Z.to_nat (0 + 5)) with 5%nat in H.
      rewrite H, bytes_eqb_refl in E5. done.
Qed.

Lemma slice_head a p (l : bytes) : 0 <= a -> p = 0 \/ p = 4 ->
  take (Z.to_nat (p + 5)) (slice a (a + 9) l) = slice a (a + p + 5) l.
Proof. intros Ha Hp. rewrite !slice_take_drop, take_take. f_equal. lia. Qed.

(** The bytes of a pad of this shape, at an address of the text. *)
Definition pad_at (text : bytes) (off p : Z) : Prop :=
  (p = 0 \/ p = 4) /\ slice off (off + p + 5) text = entry_bytes p.

(** C21: the hook map lists what the bytes allow, and nothing else.  Both files
    have the same build id, or neither has one.  Every entry listed is a function
    symbol that begins inside the text, more than nine bytes before its end, with
    at its address the five NOPs, alone or after endbr64, at the offset recorded,
    or else leading instructions that can be copied as they are and cover the
    jump.  And every function symbol that begins there and has such a pad is
    listed with that offset; one that begins in the last nine bytes never is,
    whatever its bytes ([tail_pad_missed]). *)
Theorem hook_map_fail_closed id_binary id_debug sections nm objdump binary bid es :
  map_main id_binary id_debug sections nm objdump binary = Ok (bid, es) ->
  exists taddr toff tsize funcs,
    map_build_id id_binary = Ok bid /\ map_build_id id_debug = Ok bid /\
    text_section sections = Ok (taddr, toff, tsize) /\ functions nm = Ok funcs /\
    let text := slice toff (toff + tsize) binary in
    (forall e, e ∈ es -> (e_entry e, e_name e) ∈ funcs /\ taddr <= e_entry e < taddr + tsize - 9 /\
       match e_pad e with
       | Some p => pad_at text (e_entry e - taddr) p
       | None => displaceable objdump (e_entry e) (copy_bytes (e_info e)) /\
                 forall p, ~ pad_at text (e_entry e - taddr) p
       end) /\
    (forall addr name p, (addr, name) ∈ funcs -> taddr <= addr < taddr + tsize - 9 ->
       pad_at text (addr - taddr) p ->
       exists e, e ∈ es /\ e_name e = name /\ e_entry e = addr /\ e_pad e = Some p).
Proof.
  unfold map_main. destruct (map_build_id id_binary) as [b1|]; [|done]. destruct (map_build_id id_debug) as [b2|]; [|done].
  case_bool_decide as Hb; [subst b2|done]. destruct (text_section sections) as [[[taddr toff] tsize]|]; [|done].
  destruct (functions nm) as [funcs|]; [|done]. cbn [negb]. cbv zeta.
  destruct (relocatability objdump _) as [reloc|] eqn:Hr; [|done]. case_match; [done|]. case_match; [done|]. intros [= <- <-].
  exists taddr, toff, tsize, funcs. split_and!; [done..| |].
  - intros e [[addr name] [Hin He]]%list_elem_of_omap. unfold entry_of in He.
    destruct (in_range taddr tsize addr) eqn:Hrange; [|done]. cbn [negb] in He.
    assert (0 <= addr - taddr) as Ha by (unfold in_range in Hrange; lia).
    destruct (pad_of _) as [p|] eqn:Hp.
    + injection He as <-. cbn [e_entry e_name e_pad]. apply pad_of_iff in Hp as [Hp Ht].
      split_and!; [done|unfold in_range in Hrange; lia..|]. split; [done|]. by rewrite <- slice_head.
    + destruct (relocatable _) eqn:Hw; [|done]. injection He as <-. cbn [e_entry e_name e_pad e_info].
      split_and!; [done|unfold in_range in Hrange; lia..| |].
      * unfold relocatable in Hw. destruct (reloc !! addr) as [i|] eqn:Hi; [|done]. cbn in *.
        destruct (why i) eqn:Hwi; [done|]. by eapply relocatability_ok.
      * intros p [Hp0 Ht]. enough (pad_of (slice (addr - taddr) (addr - taddr + 9)
          (slice toff (toff + tsize) binary)) = Some p) as E by by rewrite E in Hp.
        apply pad_of_iff. split; [done|]. by rewrite slice_head.
  - intros addr name p Hin Hbounds [Hp Ht].
    assert (in_range taddr tsize addr = true) as Hrange by (unfold in_range; lia).
    assert (0 <= addr - taddr) as Ha by lia.
    eexists (Entry name addr (Some p) _). split_and!; try done.
    apply list_elem_of_omap. exists (addr, name). split; [done|]. unfold entry_of. rewrite Hrange. cbn [negb].
    assert (pad_of (slice (addr - taddr) (addr - taddr + 9) (slice toff (toff + tsize) binary)) = Some p) as ->; [|done].
    apply pad_of_iff. split; [done|]. by rewrite slice_head.
Qed.

(** ** A concrete build

    The two padded functions of [demo_binary], and a third without a pad. *)

Definition demo_build_id : output := Completed 0 (cat ["    Build ID: "; demo_id; newline]).
Definition demo_sections : output :=
  Completed 0 (cat ["  [ 1] .text   PROGBITS  0000000000001000 000078 000020 00  AX"; newline]).
Definition demo_nm : output :=
  Completed 0 (cat ["0000000000001000 T foo"; newline; "0000000000001005 t bar"; newline;
                    "0000000000001010 t baz"; newline; "0000000000002000 B data"; newline]).
Definition demo_objdump : output :=
  Completed 0 (cat (map (fun r : string * string * string => cat ["    "; r.1.1; ":"; tab; r.1.2; tab; r.2; newline])
    [("1000", "90 ", "nop"); ("1005", "f3 0f 1e fa ", "endbr64"); ("1010", "55 ", "push   %rbp");
     ("1011", "48 89 e5 ", "mov    %rsp,%rbp"); ("1014", "48 83 ec 10 ", "sub    $0x10,%rsp")])).

Definition demo_map : list entry :=
  [Entry "foo" 0x1000 (Some 0) (Info 0 (Some "function shorter than the patch"));
   Entry "bar" 0x1005 (Some 4) (Info 0 (Some "function shorter than the patch"));
   Entry "baz" 0x1010 None (Info 8 None)].

(** The last nine bytes are outside: [bar] has its whole pad there and is left out. *)
Definition tail_sections : output :=
  Completed 0 (cat ["  [ 1] .text   PROGBITS  0000000000001000 000078 00000e  00  AX"; newline]).

Example tail_pad_missed :
  pad_at (slice 0x78 (0x78 + 14) demo_binary) 5 4 /\
  map_main demo_build_id demo_build_id tail_sections demo_nm demo_objdump demo_binary =
    Ok (Some demo_id, [Entry "foo" 0x1000 (Some 0) (Info 5 None)]).
Proof. split; [split; [by right|]|]; vm_compute; reflexivity. Qed.

(** Two files without a build id count as a pair. *)
Example no_build_id_mapped :
  exists es, map_main (Completed 0 "") (Completed 0 "") demo_sections demo_nm demo_objdump demo_binary = Ok (None, es) /\
    length es = 3%nat.
Proof. eexists. split; vm_compute; reflexivity. Qed.

Lemma demo_map_made :
  map_main demo_build_id demo_build_id demo_sections demo_nm demo_objdump demo_binary = Ok (Some demo_id, demo_map).
Proof. vm_compute. reflexivity. Qed.

Lemma hook_map_fail_closed_witness :
  map_main demo_build_id demo_build_id demo_sections demo_nm demo_objdump demo_binary = Ok (Some demo_id, demo_map) /\
  map_build_id demo_build_id = Ok (Some demo_id).
Proof.
  split; [exact demo_map_made|].
  destruct (hook_map_fail_closed _ _ _ _ _ _ _ _ demo_map_made) as (taddr & toff & tsize & funcs & Hid & _).
  exact Hid.
Defined.
