(* ===== verification/HookIndex.v ===== *)
(** * The hook index as a file

    The index [mk_hook_map] writes, read back by the binder and by the loader. *)

From S2P Require Import Prelude PyVal Decimal Text Hex Target Sign Admit Loader LoaderSpec HookMap.

(** ** Lines and fields *)

(** A text that stays one field of one line. *)
Definition field_char (c : ascii) : Prop := ord c <> 9 /\ is_break c = false.
Definition field (s : string) : Prop := Forall field_char (str_list s).

Lemma field_without s : field s -> without (chr 9) (str_list s).
Proof. intros H. eapply Forall_impl; [exact H|]. intros c [Hc _] ->. by apply Hc. Qed.

Lemma break_char c : is_break c = false -> ord c <> 10 /\ ord c <> 13.
Proof. unfold is_break. lia. Qed.

Lemma splitlines_text ls : Forall (fun l => Forall (fun c => is_break c = false) (str_list l)) ls ->
  splitlines (cat (map (fun l => cat [l; newline]) ls)) = map str_list ls.
Proof.
  intros H. unfold splitlines. rewrite str_list_cat, map_map.
  assert (forall a rest, Forall (fun c => is_break c = false) a -> forall w,
    lines_from (a ++ chr 10 :: rest) w = (w ++ a) :: lines_from rest []) as Hword.
  { intros a rest Ha. induction Ha as [|x a Hx _ IH]; intros w; cbn [lines_from app].
    - change (is_break (chr 10)) with true. cbv iota. rewrite app_nil_r.
      destruct rest as [|d t]; [done|]. by change (ord (chr 10) =? 13) with false.
    - by rewrite Hx, IH, <- app_assoc. }
  induction H as [|l ls Hl _ IH]; [done|]. cbn [map concat]. rewrite str_list_cat. cbn [map concat].
  change (str_list newline) with [chr 10]. rewrite app_nil_r, <- app_assoc. cbn [app]. rewrite Hword by done.
  cbn [app]. by rewrite IH.
Qed.

(** The fields of a line joined by tabs. *)
Fixpoint tabbed (fs : list string) : string :=
  match fs with
  | [] => ""
  | [f] => f
  | f :: t => cat [f; tab; tabbed t]
  end.

Lemma tabbed_list f g fs : str_list (tabbed (f :: g :: fs)) = str_list f ++ chr 9 :: str_list (tabbed (g :: fs)).
Proof.
  change (tabbed (f :: g :: fs)) with (cat [f; tab; tabbed (g :: fs)]). rewrite str_list_cat. cbn [map concat].
  by rewrite app_nil_r.
Qed.

Lemma tab_fields_tabbed fs : fs <> [] -> Forall field fs -> tab_fields (str_list (tabbed fs)) = fs.
Proof.
  intros Hne H. unfold tab_fields. induction H as [|f fs Hf Hfs IH]; [done|]. destruct fs as [|g fs].
  - cbn [tabbed]. rewrite split_char_word by (by apply field_without). cbn [map app]. by rewrite list_str_list.
  - rewrite tabbed_list, split_char_sep by (by apply field_without). cbn [map app]. rewrite list_str_list.
    f_equal. by apply IH.
Qed.

Lemma tabbed_no_break fs : Forall field fs -> Forall (fun c => is_break c = false) (str_list (tabbed fs)).
Proof.
  induction 1 as [|f fs Hf Hfs IH]; [constructor|].
  assert (Forall (fun c => is_break c = false) (str_list f)) as Hb
    by (eapply Forall_impl; [exact Hf|]; by intros c [_ ?]).
  destruct fs as [|g fs]; [done|]. rewrite tabbed_list. apply Forall_app. split; [done|]. by constructor.
Qed.

Lemma digits_field s : is_digits (str_list s) -> field s.
Proof.
  intros H. eapply Forall_impl; [exact H|]. intros c. unfold is_digit, field_char, is_break. lia.
Qed.

Lemma literal_field s : forallb (fun c => negb (ord c =? 9) && negb (is_break c)) (str_list s) = true -> field s.
Proof.
  intros H. apply Forall_forall. intros c Hc. rewrite forallb_forall in H. apply list_elem_of_In in Hc.
  specialize (H c Hc). unfold field_char. destruct (Z.eqb_spec (ord c) 9); [done|]. by destruct (is_break c).
Qed.

(** ** The lines of the index *)

(** An entry that can be written: its name is one field that is not a comment,
    its numbers are those of a map. *)
Record writable (e : entry) : Prop := {
  w_name : field (e_name e) /\ starts_with "#" (e_name e) = false;
  w_pad : e_pad e = None \/ e_pad e = Some 0 \/ e_pad e = Some 4;
  w_numbers : 0 <= arm_at e /\ 0 <= copy_bytes (e_info e) }.

Definition pad_text (e : entry) : string := match e_pad e with Some p => py_str p | None => "-" end.

Definition entry_fields (e : entry) : list string :=
  [e_name e; cat ["0x"; hex_int (arm_at e)]; arm_method e; pad_text e; py_str (copy_bytes (e_info e))].

Definition header_fields (bid tmos : string) : list (list string) :=
  [["#ls-hook-index"; "1"]; ["#build_id"; bid]; ["#tmos_version"; tmos]; ["#ctx_abi_version"; "1"];
   ["#name"; "arm_at"; "arm_method"; "pad_offset"; "displace_bytes"]].

Lemma entry_fields_ok e : writable e -> Forall field (entry_fields e).
Proof.
  intros [[Hn _] Hp [Ha Hc]]. unfold entry_fields. rewrite !Forall_cons. split_and!; [done| | | | |constructor].
  - unfold field. rewrite str_list_cat. cbn [map concat]. rewrite app_nil_r. apply Forall_app.
    split; [by apply literal_field|]. destruct (hex_int_digits _ Ha) as (ds & _ & Hr & _ & ->).
    apply Forall_map. eapply Forall_impl; [exact Hr|]. intros d Hd. by destruct (hexdigit_clean d Hd) as (? & ? & _).
  - unfold arm_method. by destruct (e_pad e); apply literal_field.
  - unfold pad_text. by destruct Hp as [-> |[-> | ->]]; apply literal_field.
  - by apply digits_field, py_str_digits.
Qed.

Lemma index_lines_tabbed bid tmos es :
  map str_list (index_lines (Some bid) tmos es) =
  map (fun fs => str_list (tabbed fs)) (header_fields bid tmos ++ map entry_fields es).
Proof.
  unfold index_lines. rewrite !map_app, !map_map. f_equal.
Qed.

Lemma index_fields_ok bid tmos es : field bid -> field tmos -> Forall writable es ->
  Forall (Forall field) (header_fields bid tmos ++ map entry_fields es).
Proof.
  intros Hb Ht Hes. apply Forall_app. split.
  - unfold header_fields. rewrite !Forall_cons, !Forall_nil. split_and!; try done; by apply literal_field.
  - apply Forall_map. eapply Forall_impl; [exact Hes|]. apply entry_fields_ok.
Qed.

(** The lines both readers see. *)
Lemma index_text_lines bid tmos es : field bid -> field tmos -> Forall writable es ->
  splitlines (hook_index_text (Some bid) tmos es) =
    map (fun fs => str_list (tabbed fs)) (header_fields bid tmos ++ map entry_fields es) /\
  file_lines (str_list (hook_index_text (Some bid) tmos es)) [] =
    map (fun fs => str_list (tabbed fs)) (header_fields bid tmos ++ map entry_fields es).
Proof.
  intros Hb Ht Hes. pose proof (index_fields_ok bid tmos es Hb Ht Hes) as Hf. rewrite <- index_lines_tabbed.
  assert (Forall (Forall (fun c => is_break c = false)) (map str_list (index_lines (Some bid) tmos es))) as Hl.
  { rewrite index_lines_tabbed. apply Forall_map. eapply Forall_impl; [exact Hf|].
    intros fs Hfs. by apply tabbed_no_break. }
  rewrite Forall_map in Hl. unfold hook_index_text. split; [apply splitlines_text; exact Hl|]. apply file_lines_text.
  eapply Forall_impl; [exact Hl|]. intros l H. eapply Forall_impl; [exact H|]. apply break_char.
Qed.

(** The entries of a name. *)
Definition named (name : string) (es : list entry) : list entry := List.filter (fun e => String.eqb (e_name e) name) es.

Lemma named_all (P : entry -> Prop) name es : Forall P es -> Forall P (named name es).
Proof.
  rewrite !Forall_forall. intros H e He. apply list_elem_of_In, filter_In in He as [He _].
  by apply H, list_elem_of_In.
Qed.

(** A line of the index is a header exactly when its first field starts with [#]. *)
Lemma header_line k v rest : Forall field (String "#" k :: v :: rest) ->
  exists t, str_list (tabbed (String "#" k :: v :: rest)) = "#"%char :: t /\ tab_fields t = k :: v :: rest.
Proof.
  intros H. exists (str_list (tabbed (k :: v :: rest))). split; [by rewrite !tabbed_list|].
  apply tab_fields_tabbed; [done|]. inversion H as [|? ? Hk Hr]; subst. constructor; [|done]. by inversion Hk.
Qed.

Lemma entry_line e : writable e ->
  (exists c t, str_list (tabbed (entry_fields e)) = c :: t /\ (ord c =? 35) = false) /\
  tab_fields (str_list (tabbed (entry_fields e))) = entry_fields e.
Proof.
  intros H. split; [|apply tab_fields_tabbed; [done|by apply entry_fields_ok]].
  destruct H as [[_ Hn] _ _]. unfold entry_fields. rewrite tabbed_list.
  destruct (e_name e) as [|c n]; cbn [str_list app]; eexists _, _; (split; [done|]); [done|].
  cbn [starts_with] in Hn. destruct (Z.eqb_spec (ord c) 35) as [E|]; [|done].
  assert (c = "#"%char) as -> by (rewrite <- (chr_ord c), E; done). by rewrite Ascii.eqb_refl in Hn.
Qed.

(** ** The binder *)

Lemma binder_header hook acc k v rest : Forall field (String "#" k :: v :: rest) ->
  index_line hook acc (str_list (tabbed (String "#" k :: v :: rest))) = (<[k := v]> acc.1, acc.2).
Proof.
  intros H. unfold index_line. rewrite tab_fields_tabbed by done. destruct (header_line k v rest H) as (t & -> & _).
  cbn [str_list List.tl]. by rewrite list_str_list.
Qed.

Lemma binder_entries hook es : Forall writable es -> forall acc,
  foldl (index_line hook) acc (map (fun fs => str_list (tabbed fs)) (map entry_fields es)) =
  (acc.1, acc.2 ++ map entry_fields (named hook es)).
Proof.
  induction 1 as [|e es He _ IH]; intros acc; [cbn; rewrite app_nil_r; by destruct acc|].
  cbn [map foldl]. rewrite IH. destruct (entry_line e He) as [(c & t & Hl & Hc) Hf].
  assert (index_line hook acc (str_list (tabbed (entry_fields e))) =
    if String.eqb (e_name e) hook then (acc.1, acc.2 ++ [entry_fields e]) else acc) as ->.
  { unfold index_line. rewrite Hf, Hl, Hc. done. }
  unfold named. cbn [List.filter]. destruct (String.eqb (e_name e) hook); cbn [fst snd map]; [|done].
  by rewrite <- app_assoc.
Qed.

Lemma binder_reads bid tmos es name : field bid -> field tmos -> Forall writable es ->
  let r := Target.read_index (hook_index_text (Some bid) tmos es) name in
  r.1 !! "build_id" = Some bid /\ r.2 = map entry_fields (named name es).
Proof.
  intros Hb Ht Hes. destruct (index_text_lines bid tmos es Hb Ht Hes) as [Hl _].
  pose proof (index_fields_ok bid tmos es Hb Ht Hes) as Hf. apply Forall_app in Hf as [Hf _].
  unfold Target.read_index. rewrite Hl, map_app, foldl_app. rewrite binder_entries by done.
  unfold header_fields in *. rewrite !Forall_cons in Hf. destruct Hf as (H1 & H2 & H3 & H4 & H5 & _).
  cbn [map foldl]. rewrite !binder_header by (rewrite ?Forall_cons; done). cbn [fst snd].
  split; [|done]. by repeat (rewrite lookup_insert_ne by done); rewrite lookup_insert_eq.
Qed.

(** ** The loader *)

Lemma loader_header ix k v rest : Forall field (String "#" k :: v :: rest) ->
  index_add ix (str_list (tabbed (String "#" k :: v :: rest))) =
  if String.eqb k "name" then ix else Index (<[k := v]> (i_meta ix)) (i_syms ix).
Proof.
  intros H. destruct (header_line k v rest H) as (t & -> & Ht). unfold index_add. by rewrite Ht.
Qed.

Lemma loader_meta es : Forall writable es -> forall ix,
  i_meta (fold_left index_add (map (fun fs => str_list (tabbed fs)) (map entry_fields es)) ix) = i_meta ix.
Proof.
  induction 1 as [|e es He _ IH]; intros ix; [done|]. cbn [map fold_left]. rewrite IH.
  destruct (entry_line e He) as [(c & t & Hl & Hc) Hf]. unfold index_add.
  rewrite Hl in *. rewrite Hc, Hf. done.
Qed.

Definition row_of (e : entry) : index_row := Row (cat ["0x"; hex_int (arm_at e)]) (arm_method e) (pad_text e).

Lemma loader_row e name : writable e -> row_for name (str_list (tabbed (entry_fields e))) =
  if String.eqb (e_name e) name then Some (row_of e) else None.
Proof.
  intros He. destruct (entry_line e He) as [(c & t & Hl & Hc) Hf]. unfold row_for. rewrite Hl in *. by rewrite Hc, Hf.
Qed.

Lemma loader_reads bid tmos es name : field bid -> field tmos -> Forall writable es ->
  let ix := Loader.read_index (hook_index_text (Some bid) tmos es) in
  i_meta ix !! "build_id" = Some bid /\ default [] (i_syms ix !! name) = map row_of (named name es).
Proof.
  intros Hb Ht Hes. cbv zeta. destruct (index_text_lines bid tmos es Hb Ht Hes) as [_ Hl].
  pose proof (index_fields_ok bid tmos es Hb Ht Hes) as Hf. apply Forall_app in Hf as [Hf _].
  unfold header_fields in Hf. rewrite !Forall_cons in Hf. destruct Hf as (H1 & H2 & H3 & H4 & H5 & _).
  split.
  - unfold Loader.read_index. rewrite Hl, map_app, fold_left_app, loader_meta by done.
    unfold header_fields. cbn [map fold_left]. rewrite !loader_header by (rewrite ?Forall_cons; done).
    cbn [i_meta i_syms String.eqb Ascii.eqb Bool.eqb].
    by repeat (rewrite lookup_insert_ne by done); rewrite lookup_insert_eq.
  - rewrite read_index_syms, Hl, map_app, omap_app. unfold header_fields. cbn [map omap list_omap].
    assert (forall k v rest, Forall field (String "#" k :: v :: rest) ->
      row_for name (str_list (tabbed (String "#" k :: v :: rest))) = None) as Hn.
    { intros k v rest H. destruct (header_line k v rest H) as (t & -> & _). done. }
    rewrite !Hn by (rewrite ?Forall_cons; done). cbn [app]. clear -Hes. unfold named.
    induction Hes as [|e es He _ IH]; [done|]. cbn [map omap list_omap List.filter]. rewrite loader_row by done.
    destruct (String.eqb (e_name e) name); cbn [map]; [f_equal|]; exact IH.
Qed.

(** ** The interface between the map and its readers

    What a reader of the index promises: of a written index, the build id of its
    header, and under each name the rows of exactly the entries of that name. *)

Class IndexReader (row : Type) := {
  id_of : string -> option string;
  rows_of : string -> string -> list row;
  written : entry -> row;
  reads bid tmos es name : field bid -> field tmos -> Forall writable es ->
    id_of (hook_index_text (Some bid) tmos es) = Some bid /\
    rows_of (hook_index_text (Some bid) tmos es) name = map written (named name es) }.

#[export] Instance binder_reader : IndexReader (list string) := {|
  id_of text := (Target.read_index text "").1 !! "build_id";
  rows_of text name := (Target.read_index text name).2;
  written := entry_fields;
  reads bid tmos es name Hb Ht Hes :=
    conj (proj1 (binder_reads bid tmos es "" Hb Ht Hes)) (proj2 (binder_reads bid tmos es name Hb Ht Hes)) |}.

#[export] Instance loader_reader : IndexReader index_row := {|
  id_of text := i_meta (Loader.read_index text) !! "build_id";
  rows_of text name := default [] (i_syms (Loader.read_index text) !! name);
  written := row_of;
  reads := loader_reads |}.

(** Through any reader, a name has one row exactly when it has one entry. *)
Lemma unique_row `{IndexReader row} bid tmos es name r : field bid -> field tmos -> Forall writable es ->
  rows_of (hook_index_text (Some bid) tmos es) name = [r] <-> exists e, named name es = [e] /\ r = written e.
Proof.
  intros Hb Ht Hes. destruct (reads bid tmos es name Hb Ht Hes) as [_ ->].
  destruct (named name es) as [|e [|e' t]]; cbn [map]; naive_solver.
Qed.

(** The loader resolves a name to the address of the one row the index gives it. *)
Lemma resolve_hook_rows text exe name at_ : starts_with "0x" name || starts_with "0X" name = false ->
  resolve_hook (Some text) (Some exe) name = Ok at_ <->
  exists id r, elf_build_id exe = Ok (Some id) /\ id_of (row := index_row) text = Some id /\
    rows_of (row := index_row) text name = [r] /\ at_ = r_arm_at r.
Proof.
  intros Hx. unfold resolve_hook. rewrite Hx. cbv zeta. cbn [id_of rows_of loader_reader].
  destruct (elf_build_id exe) as [[live|]|]; [|naive_solver..].
  destruct (i_meta _ !! "build_id") as [want|]; [|naive_solver].
  destruct (String.eqb_spec live want) as [->|Hne]; [|naive_solver]. cbn [negb].
  destruct (i_syms _ !! name) as [[|r [|r' rows]]|]; cbn [from_option id]; naive_solver.
Qed.

(** ** The entries of a map can be written *)

Lemma blank_field l : Forall (fun c => is_blank c = false) l -> Forall field_char l.
Proof.
  intros H. eapply Forall_impl; [exact H|]. intros c. unfold is_blank, is_space, field_char, is_break. lia.
Qed.

Lemma split_blank_words l : forall w, Forall (fun c => is_blank c = false) w ->
  Forall (Forall (fun c => is_blank c = false)) (split_blank l w).
Proof.
  induction l as [|c l IH]; intros w Hw; cbn [split_blank].
  - destruct w as [|x w]; [by apply Forall_nil|by apply Forall_singleton].
  - destruct (is_blank c) eqn:E; [|apply IH; apply Forall_app; by repeat constructor].
    destruct w; [by apply IH|]. constructor; [done|]. by apply IH.
Qed.

Lemma str_split_fields s : Forall field (str_split s).
Proof.
  unfold str_split, field. apply Forall_map. eapply Forall_impl; [by apply split_blank_words|].
  intros l Hl. rewrite str_list_str. by apply blank_field.
Qed.

Lemma functions_fields lines : forall fs, functions_from lines = Ok fs -> Forall (fun f => field f.2) fs.
Proof.
  induction lines as [|l lines IH]; intros fs; cbn [functions_from]; [by intros [= <-]|].
  pose proof (str_split_fields l) as Hl.
  destruct (str_split l) as [|a [|k [|name [|]]]]; try apply IH.
  destruct (mem_str k ["t"; "T"]); [|apply IH]. destruct (py_int16 a); [|done].
  destruct (functions_from lines) as [rest|]; [|done]. intros [= <-]. constructor; [|by apply IH].
  rewrite !Forall_cons in Hl. apply Hl.
Qed.

Lemma search_ok {A} (try : list ascii -> option A) (Q : A -> Prop) (H : forall l a, try l = Some a -> Q a) l a :
  search try l = Some a -> Q a.
Proof.
  induction l as [|c l IH]; cbn [search].
  - destruct (try []) eqn:E; [|done]. intros [= <-]. by eapply H.
  - destruct (try (c :: l)) eqn:E; [|done]. intros [= <-]. by eapply H.
Qed.

Lemma hex_run_chars l : forall h r, hex_run l = (h, r) -> Forall (fun c => is_hex_lower c = true) h.
Proof.
  induction l as [|c l IH]; intros h r; cbn [hex_run]; [by intros [= <- _]|].
  destruct (is_hex_lower c) eqn:E; [|by intros [= <- _]]. destruct (hex_run l) as [a b] eqn:Hr.
  intros [= <- _]. constructor; [done|]. by eapply IH.
Qed.

Lemma map_build_id_field o bid : map_build_id o = Ok (Some bid) -> field bid.
Proof.
  unfold map_build_id, run. destruct (returncode o =? 0); [|done]. intros H%Ok_inj. revert H. apply search_ok.
  intros l a. unfold match_build_id, hex1. destruct (literal _ l) as [t|]; [|done].
  destruct (hex_run (lstrip t)) as [[|x h] r] eqn:Hr; [done|]. apply hex_run_chars in Hr. intros <-%(inj Some).
  unfold field. rewrite str_list_str. eapply Forall_impl; [exact Hr|].
  intros c. unfold is_hex_lower, is_digit, field_char, is_break. lia.
Qed.

Lemma base_digits_nonneg base l : 0 <= base -> forall u acc z, 0 <= acc -> base_digits base l u acc = Some z -> 0 <= z.
Proof.
  intros Hb. induction l as [|c l IH]; intros u acc z Ha; cbn [base_digits]; [done|].
  destruct (digit_in base c) as [d|] eqn:Hd.
  - assert (0 <= d) as Hd0.
    { unfold digit_in in Hd. cbv zeta in Hd. repeat case_match; simplify_eq; lia. }
    destruct l; [intros [= <-]; nia|]. apply IH. nia.
  - destruct (u && _); [|done]. by apply IH.
Qed.

Lemma text_section_nonneg o a off s : text_section o = Ok (a, off, s) -> 0 <= a.
Proof.
  unfold text_section, run. destruct (returncode o =? 0); [|done].
  destruct (search match_text _) as [[[a' off'] s']|] eqn:Hs; [|done]. intros [= <- <- <-].
  assert (forall l h t, blank_hex l = Some (h, t) -> 0 <= h) as Hh.
  { intros l h t. unfold blank_hex. repeat case_match; try done. intros [= <- _]. unfold hex_value.
    destruct (base_digits 16 _ _ _) eqn:E; [|done]. cbn. by eapply base_digits_nonneg, E. }
  apply (search_ok _ (fun r => 0 <= r.1.1)) in Hs; [done|].
  intros l [[a1 o1] s1]. unfold match_text. destruct (literal _ l); [|done]. destruct (blanks1 _); [|done].
  destruct (literal _ _) as [t|]; [|done]. destruct (blank_hex t) as [[z t1]|] eqn:E; [|done].
  destruct (blank_hex t1) as [[? t2]|]; [|done]. destruct (blank_hex t2) as [[? ?]|]; [|done].
  intros [= <- _ _]. by eapply Hh.
Qed.

Lemma info_of_nonneg insns : 0 <= copy_bytes (info_of 5 insns).
Proof.
  unfold info_of. destruct (copy_span 5 0 insns) as [t [w|]]; [done|].
  destruct (Z.ltb_spec t 5); cbn [copy_bytes]; lia.
Qed.

Lemma relocatability_nonneg objdump want reloc addr i : relocatability objdump want = Ok reloc ->
  reloc !! addr = Some i -> 0 <= copy_bytes i.
Proof.
  unfold relocatability, run. destruct (returncode objdump =? 0); [|done]. intros <-%Ok_inj H.
  apply fold_insert_in in H as [H|(insns & _ & ->)]; [by rewrite lookup_empty in H|apply info_of_nonneg].
Qed.

Lemma entry_of_writable taddr tsize text reloc fn e : 0 <= taddr -> field fn.2 ->
  (forall a i, reloc !! a = Some i -> 0 <= copy_bytes i) ->
  entry_of taddr tsize text reloc fn = Some e -> starts_with "#" (e_name e) = false -> writable e.
Proof.
  destruct fn as [addr name]. cbn [snd]. intros Ht Hf Hr. unfold entry_of.
  destruct (in_range taddr tsize addr) eqn:Hin; [|done]. cbn [negb].
  assert (0 <= addr) as Ha by (unfold in_range in Hin; lia).
  assert (0 <= copy_bytes (default (Info 0 (Some "not present in the .text disassembly")) (reloc !! addr))) as Hc
    by (destruct (reloc !! addr) eqn:E; [by eapply Hr|done]).
  destruct (pad_of _) as [p|] eqn:Hp.
  - apply pad_of_iff in Hp as [Hp _]. intros [= <-] Hn.
    constructor; unfold arm_at; cbn [e_name e_pad e_entry e_info]; [done|naive_solver|].
    split; [destruct Hp as [-> | ->]; cbn; lia|done].
  - destruct (relocatable _); [|done]. intros [= <-] Hn. constructor; unfold arm_at; cbn [e_name e_pad e_entry e_info].
    + done.
    + by left.
    + split; [cbn; lia|done].
Qed.

(** What a map holds can be written, comments apart. *)
Lemma map_main_writable id_binary id_debug sections nm objdump binary bid es :
  map_main id_binary id_debug sections nm objdump binary = Ok (Some bid, es) ->
  Forall (fun e => starts_with "#" (e_name e) = false) es -> field bid /\ Forall writable es.
Proof.
  unfold map_main. destruct (map_build_id id_binary) as [b1|] eqn:Hb; [|done].
  destruct (map_build_id id_debug) as [b2|]; [|done]. case_match; [done|].
  destruct (text_section sections) as [[[taddr toff] tsize]|] eqn:Ht; [|done]. unfold functions.
  destruct (run nm) as [lines|]; [|done]. destruct (functions_from _) as [funcs|] eqn:Hf; [|done]. cbv zeta.
  destruct (relocatability objdump _) as [reloc|] eqn:Hr; [|done]. do 2 (case_match; [done|]).
  intros [= -> <-] Hn.
  split; [by eapply map_build_id_field|]. rewrite Forall_forall in Hn |- *. intros e He.
  specialize (Hn e He). apply list_elem_of_omap in He as (fn & Hin & He).
  apply functions_fields in Hf. rewrite Forall_forall in Hf. eapply entry_of_writable; [|by apply Hf| |exact He|done].
  - by eapply text_section_nonneg.
  - intros a i. by eapply relocatability_nonneg.
Qed.

Lemma pad_text_in e : writable e -> (pad_text e = "0" -> e_pad e = Some 0) /\ (pad_text e = "4" -> e_pad e = Some 4).
Proof. intros [_ Hp _]. unfold pad_text. by destruct Hp as [-> |[-> | ->]]. Qed.

(** C22: one map serves the binder and the loader.  From the index written out of a
    map (in which no name begins with a number sign, and the version is one field),
    the loader resolves a name that is not an address literal exactly when the running binary has the map's
    build id and one entry has that name, to that entry's arm address in
    hexadecimal; and whatever target the binder resolves there is the only entry
    of its name, with the map's build id, its function address and its pad. *)
Theorem index_serves_both id_binary id_debug sections nm objdump binary bid es tmos name :
  map_main id_binary id_debug sections nm objdump binary = Ok (Some bid, es) ->
  Forall (fun e => starts_with "#" (e_name e) = false) es -> field tmos ->
  starts_with "0x" name || starts_with "0X" name = false ->
  let index := hook_index_text (Some bid) tmos es in
  (forall exe at_, resolve_hook (Some index) (Some exe) name = Ok at_ <->
     elf_build_id exe = Ok (Some bid) /\ exists e, named name es = [e] /\ at_ = cat ["0x"; hex_int (arm_at e)]) /\
  (forall target id entry pad, resolve_target index target name = Ok (id, entry, pad) ->
     id = bid /\ exists e, named name es = [e] /\ e_entry e = entry /\ e_pad e = Some pad).
Proof.
  intros Hm Hn Htm Hx. destruct (map_main_writable _ _ _ _ _ _ _ _ Hm Hn) as [Hb Hes]. cbv zeta. split.
  - intros exe at_. rewrite resolve_hook_rows by done.
    destruct (reads (row := index_row) bid tmos es name Hb Htm Hes) as [-> _]. split.
    + intros (id & r & He & [= <-] & Hr & ->). apply unique_row in Hr as (e & He' & ->); try done. by split; [|exists e].
    + intros (He & e & Hn' & ->). exists bid, (row_of e). split_and!; try done. apply unique_row; try done. by exists e.
  - intros target id entry pad H.
    apply resolve_target_ok in H as (_ & _ & [Hid (n & a & p & rest & Hrow & Ha & Hp)] & _).
    pose proof (binder_reads bid tmos es name Hb Htm Hes) as [Hm1 _]. split; [congruence|].
    change (rows_of (hook_index_text (Some bid) tmos es) name = [n :: a :: "pad" :: p :: rest]) in Hrow.
    apply unique_row in Hrow as (e & He & Hrow'); try done. exists e.
    assert (writable e) as Hw by (eapply Forall_singleton; rewrite <- He; by apply named_all).
    injection Hrow' as _ -> _ Hpt _. rewrite py_int0_hex in Ha by apply Hw. injection Ha as Ha.
    destruct (pad_text_in e Hw) as [H0 H4]. split; [done|].
    assert (e_pad e = Some pad) as Hpad by (destruct Hp as [[-> ->]|[-> ->]]; auto).
    split; [|done]. unfold arm_at in Ha. rewrite Hpad in Ha. cbn in Ha. lia.
Qed.

Lemma index_serves_both_witness :
  resolve_hook (Some (hook_index_text (Some demo_id) "17.5" demo_map)) (Some demo_binary) "bar" = Ok "0x1009".
Proof.
  assert (Forall (fun e => starts_with "#" (e_name e) = false) demo_map) as Hn by (repeat constructor).
  assert (field "17.5") as Ht by (by apply literal_field).
  destruct (index_serves_both _ _ _ _ _ _ _ _ "17.5" "bar" demo_map_made Hn Ht eq_refl) as [Hl _].
  apply Hl. split; [vm_compute; reflexivity|].
  exists (Entry "bar" 0x1005 (Some 4) (Info 0 (Some "function shorter than the patch"))).
  split; reflexivity.
Defined.
