(* ===== verification/Probe.v ===== *)
(** * Generated probes (substrate/mk_probe.py)

    The description of a parameter's type from its debug entry, the choice of a
    signature, the record layout, the map name, the generated source and the
    signature index with its reader.  The debug entries are data (the library
    that reads them is a parameter); SHA-256 is a parameter. *)

From S2P Require Import Prelude Decimal Text Journal JournalReplay Target.

Definition STR_BYTES : Z := 24.
Definition BLOB_BYTES : Z := 16.
Definition CTX_MAX : Z := 96.
Definition LS_MAP_NAME_MAX : Z := 32.
Definition SIG_VERSION : Z := 1.

(** ** Debug entries *)

(** A debug entry: tag, name, the entry its type attribute refers to, whether it
    has a low_pc, and its children. *)
Inductive die := Die (tag : string) (name : option string) (type : option Z) (low_pc : bool) (children : list die).

Definition d_tag (d : die) := let 'Die t _ _ _ _ := d in t.
Definition d_name (d : die) := let 'Die _ n _ _ _ := d in n.
Definition d_type (d : die) := let 'Die _ _ t _ _ := d in t.
Definition d_low_pc (d : die) := let 'Die _ _ _ l _ := d in l.
Definition d_children (d : die) := let 'Die _ _ _ _ c := d in c.

(** A compilation unit resolves references. *)
Definition cu := gmap Z die.

(** [x or default]. *)
Definition or_else (o : option string) (default_ : string) : string :=
  match o with Some (String c s) => String c s | _ => default_ end.

Definition is_qualifier (tag : string) : bool :=
  mem_str tag ["DW_TAG_typedef"; "DW_TAG_const_type"; "DW_TAG_volatile_type"].

(** The loop that looks through qualifiers under a pointer. *)
Fixpoint peel (fuel : nat) (u : cu) (d : option die) : option die :=
  match fuel, d with
  | S fuel, Some x => if is_qualifier (d_tag x)
                      then peel fuel u (match d_type x with Some r => u !! r | None => None end)
                      else d
  | _, _ => d
  end.

Definition pointee (u : cu) (d : option die) : string * string :=
  match d with
  | None => ("opaque", "void *")
  | Some p =>
      if String.eqb (d_tag p) "DW_TAG_base_type" && ends_with "char" (or_else (d_name p) "")
      then ("string", cat [or_else (d_name p) "None"; " *"])
      else if mem_str (d_tag p) ["DW_TAG_structure_type"; "DW_TAG_union_type"]
      then ("blob", cat ["struct "; or_else (d_name p) "anon"; " *"])
      else ("opaque", cat [or_else (d_name p) (d_tag p); " *"])
  end.

(** [resolve]: at most nine entries deep. *)
Fixpoint resolve_die (fuel : nat) (u : cu) (d : option die) : string * string :=
  match fuel, d with
  | S fuel, Some x =>
      let tag := d_tag x in
      if String.eqb tag "DW_TAG_base_type" then ("scalar", or_else (d_name x) "int")
      else if String.eqb tag "DW_TAG_enumeration_type"
      then ("scalar", String.append "enum " (or_else (d_name x) "?"))
      else if is_qualifier tag then
        match d_type x with
        | None => ("scalar", or_else (d_name x) "void")
        | Some r => resolve_die fuel u (u !! r)
        end
      else if String.eqb tag "DW_TAG_pointer_type" then
        match d_type x with
        | None => ("opaque", "void *")
        | Some r => pointee u (peel 8 u (u !! r))
        end
      else ("unknown", tag)
  | _, _ => ("unknown", "?")
  end.

(** ** [signature] *)

Record param := Param { pa_name : option string; pa_kind : string; pa_detail : string }.

Definition is_named (o : option string) : bool := match o with Some (String _ _) => true | _ => false end.

Definition params_of (u : cu) (d : die) : list param :=
  map (fun c => let '(k, t) := resolve_die 9 u (match d_type c with Some r => u !! r | None => None end) in
                Param (d_name c) k t)
      (List.filter (fun c => String.eqb (d_tag c) "DW_TAG_formal_parameter") (d_children d)).

Definition score (d : die) (ps : list param) : Z * Z :=
  (if d_low_pc d then 1 else 0, len (List.filter (fun p => is_named (pa_name p)) ps)).
Definition better (a b : Z * Z) : bool := (b.1 <? a.1) || ((a.1 =? b.1) && (b.2 <? a.2)).

(** The walk over the entries of all units. *)
Fixpoint signature_from (want : string) (best : option (Z * Z * list param)) (dies : list (cu * die))
    : result (list param) :=
  match dies with
  | [] => match best with
          | Some (_, ps) => Ok ps
          | None => Err (SystemExit "no DWARF subprogram with parameters")
          end
  | (u, d) :: rest =>
      if String.eqb (d_tag d) "DW_TAG_subprogram" && bool_decide (d_name d = Some want) then
        match params_of u d with
        | [] => signature_from want best rest
        | ps =>
            let sc := score d ps in
            let best := match best with
                        | None => Some (sc, ps)
                        | Some (b, _) => if better sc b then Some (sc, ps) else best
                        end in
            if d_low_pc d && (sc.2 =? len ps) then Ok ps else signature_from want best rest
        end
      else signature_from want best rest
  end.
Definition signature (dies : list (cu * die)) (want : string) : result (list param) :=
  signature_from want None dies.

(** ** [layout] *)

(** A parameter with its index and the name its field gets. *)
Record arg := Arg { a_index : Z; a_name : string; a_kind : string; a_detail : string }.
Record field := Field { f_arg : arg; f_bytes : Z }.

Definition numbered (ps : list param) : list arg :=
  imap (fun i p => Arg (Z.of_nat i) (or_else (pa_name p) (String.append "arg" (py_str (Z.of_nat i))))
                     (pa_kind p) (pa_detail p)) ps.

Definition kind_order (k : string) : Z :=
  if mem_str k ["scalar"; "opaque"] then 0 else if String.eqb k "string" then 1
  else if String.eqb k "blob" then 2 else 3.
Definition order_le (a b : arg) : Prop := kind_order (a_kind a) <= kind_order (a_kind b).
#[export] Instance order_le_dec a b : Decision (order_le a b).
Proof. unfold order_le. apply _. Defined.

Definition kind_bytes (k : string) : option Z :=
  if mem_str k ["scalar"; "opaque"] then Some 8 else if String.eqb k "string" then Some STR_BYTES
  else if String.eqb k "blob" then Some BLOB_BYTES else None.

(** The loop over the reachable parameters. *)
Fixpoint place (no_probe_read : bool) (reach : list arg) (fields : list field) (dropped : list arg) (used : Z)
    : list field * list arg * Z :=
  match reach with
  | [] => (fields, dropped, used)
  | a :: rest =>
      if no_probe_read && mem_str (a_kind a) ["string"; "blob"]
      then place no_probe_read rest fields (dropped ++ [a]) used else
      match kind_bytes (a_kind a) with
      | None => place no_probe_read rest fields (dropped ++ [a]) used
      | Some want =>
          if CTX_MAX <? used + want then place no_probe_read rest fields (dropped ++ [a]) used
          else place no_probe_read rest (fields ++ [Field a want]) dropped (used + want)
      end
  end.

Definition layout (ps : list param) (no_probe_read : bool) : list field * list arg * Z :=
  place no_probe_read (merge_sort order_le (take 5 (numbered ps))) [] (drop 5 (numbered ps)) 4.

(** ** [map_name] *)

Section generate.
Variable sha256 : string -> string.

Definition map_name (fn : string) : result string :=
  let name := cat ["probe_"; list_str (take 8 (str_list (sha256 fn))); "_out"] in
  raise_if (LS_MAP_NAME_MAX <=? strlen name) AssertionError ;; Ok name.

(** ** [generate] *)

Definition quote : string := list_str [chr 34].
(** ["%-Ns"]. *)
Definition ljust (n : nat) (s : string) : string :=
  list_str (str_list s ++ replicate (n - length (str_list s)) (chr 32)).
Definition is_register (k : string) : bool := mem_str k ["scalar"; "opaque"].

Definition drop_reason (a : arg) : string :=
  if 5 <=? a_index a then "beyond the five registers the generic context carries"
  else if mem_str (a_kind a) ["scalar"; "string"; "blob"; "opaque"]
  then "no room inside the 96-byte context ceiling"
  else cat ["type not classifiable from DWARF ("; a_detail a; ")"].

Definition head_lines (fn : string) (ps : list param) (dropped : list arg) (used : Z) (no_probe_read : bool)
    : list string :=
  ["/* GENERATED by substrate/mk_probe.py --- do not edit."; " *";
   cat [" * A probe for "; fn; "(), derived entirely from the build's own DWARF. No host-side ctx"];
   " * builder exists for this function and none is needed: the program is handed the"] ++
  (if no_probe_read then
     [" * GENERIC five-register context and reads SCALAR ARGUMENTS ONLY."; " *";
      " * GENERATED WITH --no-probe-read. Every pointer argument is dropped, because a";
      " * pointer has to be dereferenced and that needs bpf_probe_read (helper 4), which";
      " * the target build does not register. A program using an unregistered helper is";
      " * refused at load without saying which helper, so the choice is made here instead.";
      " * Regenerate without the flag once the target has helper 4 to capture the rest."]
   else
     [" * GENERIC five-register context and does its own dereferencing through";
      " * bpf_probe_read, so this costs a program rather than a rebuild of TMM."]) ++
  [" *"; " * Signature as DWARF describes it:"] ++
  imap (fun i p => cat [" *     arg"; py_str (Z.of_nat i); "  "; ljust 14 (or_else (pa_name p) "?"); " ";
                        ljust 8 (pa_kind p); " "; pa_detail p;
                        if (5 <=? i)%nat then "   [UNREACHABLE: beyond 5 registers]" else ""]) ps ++
  (match dropped with
   | [] => []
   | _ => [" *"; " * DROPPED, and why --- so nothing is silently absent from the record:"] ++
          map (fun a => cat [" *     arg"; py_str (a_index a); " "; ljust 14 (a_name a); " "; drop_reason a]) dropped
   end) ++
  [" *"; cat [" * Record is "; py_str used; " of "; py_str CTX_MAX;
              " bytes. The ceiling is PREVAIL's limit on context reads."]; " */"].

Definition map_lines (fn mp : string) (fields : list field) : list string :=
  ["typedef unsigned int  __u32;"; "typedef unsigned long long __u64;"; "";
   "struct bpf_map_def { __u32 type, key_size, value_size, max_entries, map_flags; };";
   "#define BPF_MAP_TYPE_HASH             1"; "#define BPF_MAP_TYPE_PERF_EVENT_ARRAY 4"; "";
   cat ["/* Output map: "; mp; "  <-  "; fn]; " *";
   " * Named from a DIGEST of the function name, not from the name itself. The host records";
   " * a map by symbol name in a 32-byte table and refuses anything longer, and a refused";
   " * map is silent: the helper gets a null map, returns -1, this program does not read the";
   " * return value, so the probe fires and the counter is exact and no record ever appears.";
   " * A 36-character name did exactly that on 2026-08-19. */";
   cat ["struct bpf_map_def "; mp; " __attribute__((section("; quote; "maps"; quote; "), used)) = {"];
   "    .type = BPF_MAP_TYPE_PERF_EVENT_ARRAY,";
   "    .key_size = sizeof(__u32), .value_size = sizeof(__u32), .max_entries = 16,"; "};"; ""] ++
  (if existsb (fun f => mem_str (a_kind (f_arg f)) ["string"; "blob"]) fields
   then [cat ["static long ("; "*bpf_probe_read"; ")(void *, __u32, const void *"; ") = (void *"; ")4;"]]
   else []) ++
  [cat ["static long ("; "*bpf_perf_event_output"; ")(void *, void *, __u64, void *, __u64) = (void *"; ")25;"];
   ""; "struct ls_ctx_generic { __u64 arg[5]; };"; ""].

Definition field_line (f : field) : string :=
  if is_register (a_kind (f_arg f)) then cat ["    __u64 "; a_name (f_arg f); ";"]
  else cat ["    char  "; a_name (f_arg f); "["; py_str (f_bytes f); "];"].

Definition record_lines (fields : list field) : list string :=
  ["/* The record this probe emits. A consumer decodes it from the descriptor emitted";
   " * alongside --- the host validated its LENGTH and nothing else. */"; "struct rec {";
   "    __u32 present;      /* bit i set = arg i was captured */"] ++
  map field_line fields ++
  ["};"; cat ["_Static_assert(sizeof(struct rec) <= "; py_str CTX_MAX; ", "; quote;
              "record exceeds PREVAIL's context ceiling"; quote; ");"]; ""].

Definition capture_lines (f : field) : list string :=
  let a := f_arg f in
  (if is_register (a_kind a) then
     [cat ["    r."; a_name a; " = c->arg["; py_str (a_index a); "];                    /* "; a_detail a;
           " --- register, no read needed */"];
      cat ["    r.present |= 1u << "; py_str (a_index a); ";"]]
   else
     [cat ["    /* "; a_detail a; " --- a pointer, so probe_read it. A bad address returns non-zero and"];
      "     * the field simply stays absent rather than faulting the data plane. */";
      cat ["    if (bpf_probe_read(r."; a_name a; ", sizeof r."; a_name a; ", (const void *"; ")c->arg[";
           py_str (a_index a); "]) == 0)"];
      cat ["        r.present |= 1u << "; py_str (a_index a); ";"]]) ++ [""].

Definition body_lines (fn mp : string) (fields : list field) : list string :=
  [cat ["__attribute__((section("; quote; "fentry/"; fn; quote; "), used))"]; "__u64";
   "shield(struct ls_ctx_generic *c)"; "{"; "    struct rec r;"; "    int i;"; "";
   "    /* Zero the whole record first. A field a probe_read fails on must read as absent,";
   "     * not as whatever was on the stack --- and `present` is what says which is which. */";
   "    for (i = 0; i < (int)sizeof r; i++)"; cat ["        ((char *"; ")&r)[i] = 0;"]; "    r.present = 0;"; ""] ++
  flat_map capture_lines fields ++
  [cat ["    bpf_perf_event_output(c, &"; mp; ", 0, &r, sizeof r);"];
   "    return 0ull;                          /* observation only --- always fall through */"; "}"].

Definition generate (fn : string) (ps : list param) (fields : list field) (dropped : list arg) (used : Z)
    (no_probe_read : bool) : result string :=
  let? mp := map_name fn in
  Ok (String.append (String.concat newline
        (head_lines fn ps dropped used no_probe_read ++ map_lines fn mp fields ++ record_lines fields ++
         body_lines fn mp fields)) newline).

(** The part of [main] from a signature to the source: its text and the size it
    reports. *)
Definition make_probe (fn : string) (ps : list param) (no_probe_read : bool) : result (string * Z) :=
  let '(fields, dropped, used) := layout ps no_probe_read in
  match fields with
  | [] => Err (SystemExit "nothing capturable under these constraints")
  | _ => let? src := generate fn ps fields dropped used no_probe_read in Ok (src, used)
  end.
End generate.

(** ** The signature index *)

Definition seen_map := gmap string (Z * Z * list param).

(** One entry of the walk of [build_index]. *)
Definition index_die (seen : seen_map) (ud : cu * die) : seen_map :=
  let '(u, d) := ud in
  if String.eqb (d_tag d) "DW_TAG_subprogram" then
    match d_name d with
    | Some (String c n) =>
        match params_of u d with
        | [] => seen
        | ps =>
            let sc := score d ps in
            match seen !! String c n with
            | None => <[String c n := (sc, ps)]> seen
            | Some (b, _) => if better sc b then <[String c n := (sc, ps)]> seen else seen
            end
        end
    | _ => seen
    end
  else seen.

Definition encode_param (p : param) : string :=
  cat [replace_char ":" "_" (or_else (pa_name p) ""); ":"; pa_kind p; ":";
       replace_char "|" "_" (replace_char ":" "_" (pa_detail p))].

Definition index_row (name : string) (ps : list param) : string :=
  cat [name; tab; py_str (len ps); tab; String.concat "|" (map encode_param ps)].

Definition index_lines (bid : string) (seen : seen_map) : list string :=
  [cat ["#ls-sig-index"; tab; py_str SIG_VERSION]; cat ["#build_id"; tab; bid];
   cat ["#name"; tab; "nparams"; tab; "name:kind:detail|..."]] ++
  map (fun kv => index_row kv.1 kv.2.2)
      (merge_sort (fun a b : string * (Z * Z * list param) => String.le a.1 b.1) (map_to_list seen)).

Definition index_text (bid : string) (seen : seen_map) : string :=
  cat (map (fun l => cat [l; list_str [chr 10]]) (index_lines bid seen)).

(** [build_index]: the text of the file. *)
Definition build_index (debug : bytes) (dies : list (cu * die)) : result string :=
  let? bid := build_id debug in Ok (index_text bid (foldl index_die ∅ dies)).

(** ** [load_index] *)

(** [tok.split(":", 2)], when it gives three parts. *)
Definition parse_token (tok : list ascii) : option param :=
  match first_colon tok with
  | Some (a, rest) =>
      match first_colon rest with
      | Some (b, c) => Some (Param (match a with [] => None | _ => Some (list_str a) end) (list_str b) (list_str c))
      | None => None
      end
  | None => None
  end.

Fixpoint find_row (want : string) (lines : list (list ascii)) : option (list param) :=
  match lines with
  | [] => None
  | l :: rest =>
      if match l with c :: _ => ord c =? 35 | [] => false end then find_row want rest else
      match split_char (chr 9) l [] with
      | n :: _ :: enc :: _ =>
          if String.eqb (list_str n) want
          then Some (omap parse_token (split_char "|" enc []))
          else find_row want rest
      | _ => find_row want rest
      end
  end.

Definition load_index (text want : string) : option (list param) :=
  find_row want (file_lines (str_list text) []).

(** ** What a generated probe captures

    The record fits the context ceiling as the C compiler lays it out, every
    parameter is either captured or listed as dropped, and a signature read back
    from the index is the one the debug information gave. *)

(** ** The record in C *)

(** Offsets and alignment of [struct rec]: a 32-bit word, then 64-bit words
    aligned to eight and character arrays. *)
Definition round_up (n a : Z) : Z := (n + a - 1) / a * a.
Definition c_member (st : Z * Z) (f : field) : Z * Z :=
  if is_register (a_kind (f_arg f)) then (round_up st.1 8 + 8, 8) else (st.1 + f_bytes f, st.2).
Definition c_sizeof (fields : list field) : Z :=
  let '(off, align) := foldl c_member (4, 4) fields in round_up off align.

Definition total (fields : list field) : Z := foldr (fun f n => f_bytes f + n) 0 fields.

Lemma total_app a b : total (a ++ b) = total a + total b.
Proof. induction a as [|x a IH]; simpl; lia. Qed.

(** A field as [layout] makes it. *)
Definition good (no_probe_read : bool) (f : field) : Prop :=
  kind_bytes (a_kind (f_arg f)) = Some (f_bytes f) /\
  (no_probe_read = true -> is_register (a_kind (f_arg f)) = true).

Lemma kind_bytes_cases k n : kind_bytes k = Some n ->
  (is_register k = true /\ n = 8) \/ (is_register k = false /\ (n = 24 \/ n = 16) /\ mem_str k ["string"; "blob"] = true).
Proof.
  unfold kind_bytes, is_register. destruct (mem_str k ["scalar"; "opaque"]) eqn:E; [intros [= <-]; by left|].
  intros H. right. split; [done|]. unfold mem_str. cbn [existsb].
  destruct (String.eqb k "string"); [injection H as <-; auto|].
  destruct (String.eqb k "blob"); [injection H as <-; auto|done].
Qed.

Lemma total_mod8 npr fields : Forall (good npr) fields -> total fields mod 8 = 0.
Proof.
  induction 1 as [|f fields [Hk _] _ IH]; [done|]. cbn [total foldr]. fold (total fields).
  assert (f_bytes f mod 8 = 0) as Hf
    by (destruct (kind_bytes_cases _ _ Hk) as [[_ ->]|[_ [[->| ->] _]]]; done).
  by rewrite Zplus_mod, Hf, IH.
Qed.

Lemma round_up_4 n : n mod 8 = 0 -> round_up (4 + n) 8 = 8 + n.
Proof. intros H. unfold round_up. Z.div_mod_to_equations. lia. Qed.
Lemma round_up_8 n : n mod 8 = 0 -> round_up (8 + n) 8 = 8 + n.
Proof. intros H. unfold round_up. Z.div_mod_to_equations. lia. Qed.

(** The layout of a prefix, before and after the first 64-bit word. *)
Lemma c_layout npr fields : Forall (good npr) fields ->
  foldl c_member (4, 4) fields =
  if existsb (fun f => is_register (a_kind (f_arg f))) fields then (8 + total fields, 8) else (4 + total fields, 4).
Proof.
  intros H. induction fields as [|f fields IH] using rev_ind; [done|].
  apply Forall_app in H as [H Hf]. apply Forall_cons in Hf as [[Hk _] _].
  rewrite foldl_app, existsb_app, total_app, (IH H). cbn [foldl existsb total foldr]. rewrite orb_false_r, Z.add_0_r.
  pose proof (total_mod8 npr fields H) as Hm. unfold c_member.
  destruct (kind_bytes_cases _ _ Hk) as [[-> ->]|[-> _]].
  - rewrite orb_true_r. destruct (existsb _ fields); cbn [fst].
    + rewrite round_up_8 by done. f_equal. lia.
    + rewrite round_up_4 by done. f_equal. lia.
  - rewrite orb_false_r. destruct (existsb _ fields); cbn [fst snd]; f_equal; lia.
Qed.

Lemma c_sizeof_total npr fields : Forall (good npr) fields ->
  c_sizeof fields = 4 + total fields + (if existsb (fun f => is_register (a_kind (f_arg f))) fields then 4 else 0).
Proof.
  intros H. unfold c_sizeof. rewrite (c_layout npr) by done. pose proof (total_mod8 npr fields H).
  destruct (existsb _ fields); [rewrite round_up_8 by done; lia|].
  unfold round_up. Z.div_mod_to_equations. lia.
Qed.

(** ** The placement loop *)

Lemma place_spec npr reach : forall fields dropped used, used <= CTX_MAX ->
  exists fs ds, place npr reach fields dropped used = (fields ++ fs, dropped ++ ds, used + total fs) /\
    used + total fs <= CTX_MAX /\ Forall (good npr) fs /\ map f_arg fs ++ ds ≡ₚ reach.
Proof.
  induction reach as [|a reach IH]; intros fields dropped used Hu; cbn [place].
  { exists [], []. rewrite !app_nil_r, Z.add_0_r. by split_and!. }
  assert (exists fs ds, place npr reach fields (dropped ++ [a]) used = (fields ++ fs, dropped ++ ds, used + total fs) /\
    used + total fs <= CTX_MAX /\ Forall (good npr) fs /\ map f_arg fs ++ ds ≡ₚ a :: reach) as Hdrop.
  { destruct (IH fields (dropped ++ [a]) used Hu) as (fs & ds & -> & Hle & Hg & Hp).
    exists fs, (a :: ds). rewrite <- app_assoc. split_and!; try done. by rewrite <- Permutation_middle, Hp. }
  destruct (npr && mem_str (a_kind a) ["string"; "blob"]) eqn:En; [done|].
  destruct (kind_bytes (a_kind a)) as [want|] eqn:Hk; [|done].
  destruct (Z.ltb_spec CTX_MAX (used + want)); [done|].
  destruct (IH (fields ++ [Field a want]) dropped (used + want)) as (fs & ds & -> & Hle & Hg & Hp); [lia|].
  exists (Field a want :: fs), ds. rewrite <- app_assoc. cbn [total foldr map f_arg f_bytes app]. fold (total fs).
  split_and!; [by rewrite Z.add_assoc|lia| |by rewrite Hp].
  constructor; [|done]. split; [done|]. intros ->. cbn [f_arg] in *. cbn [andb] in En.
  destruct (kind_bytes_cases _ _ Hk) as [[? _]|(_ & _ & ?)]; congruence.
Qed.

(** C40: a generated record fits, and nothing is silently absent.  The bytes
    [layout] counts are the header and the fields and never pass the 96-byte
    ceiling; neither does the size the C compiler gives the struct, which is four
    bytes more than counted when a 64-bit field follows the header; every
    parameter is exactly once among the captured and the dropped; captured ones
    are among the first five, and without [bpf_probe_read] none needs a
    dereference. *)
Theorem layout_fits ps no_probe_read :
  let '(fields, dropped, used) := layout ps no_probe_read in
  used = 4 + total fields /\ used <= CTX_MAX /\ c_sizeof fields <= CTX_MAX /\
  c_sizeof fields = used + (if existsb (fun f => is_register (a_kind (f_arg f))) fields then 4 else 0) /\
  map f_arg fields ++ dropped ≡ₚ numbered ps /\
  (forall f, f ∈ fields -> f_arg f ∈ take 5 (numbered ps)) /\
  (no_probe_read = true -> Forall (fun f => is_register (a_kind (f_arg f)) = true) fields).
Proof.
  unfold layout.
  destruct (place_spec no_probe_read (merge_sort order_le (take 5 (numbered ps))) [] (drop 5 (numbered ps)) 4)
    as (fs & ds & -> & Hle & Hg & Hp); [done|].
  cbn [app]. pose proof (c_sizeof_total _ _ Hg) as Hsz. pose proof (total_mod8 _ _ Hg) as Hm.
  rewrite merge_sort_Permutation in Hp. split_and!; [done|done| |lia| | |].
  - rewrite Hsz. unfold CTX_MAX in *. destruct (existsb _ fs); [|lia]. Z.div_mod_to_equations. lia.
  - rewrite (Permutation_app_comm (drop 5 _)), app_assoc, Hp. by rewrite take_drop.
  - intros f Hf. rewrite <- Hp. apply elem_of_app. left. by apply list_elem_of_fmap_2.
  - intros ->. eapply Forall_impl; [exact Hg|]. intros f [_ H]. by apply H.
Qed.

(** ** Parameters *)

(** A parameter as the index keeps it. *)
Definition stored (p : param) : param :=
  Param (match replace_char ":" "_" (or_else (pa_name p) "") with "" => None | s => Some s end)
    (pa_kind p) (replace_char "|" "_" (replace_char ":" "_" (pa_detail p))).

Record storable (p : param) : Prop := {
  st_name : clean (or_else (pa_name p) "") /\ without "|" (str_list (or_else (pa_name p) ""));
  st_kind : clean (pa_kind p) /\ without "|" (str_list (pa_kind p)) /\ no_colon (pa_kind p);
  st_detail : clean (pa_detail p) }.

Lemma encode_param_list p : str_list (encode_param p) =
  str_list (replace_char ":" "_" (or_else (pa_name p) "")) ++ ":"%char :: str_list (pa_kind p) ++
  ":"%char :: str_list (replace_char "|" "_" (replace_char ":" "_" (pa_detail p))).
Proof.
  unfold encode_param. rewrite str_list_cat. cbn [map concat]. rewrite app_nil_r.
  change (str_list ":") with [":"%char]. cbn [app]. done.
Qed.

Lemma parse_encoded p : storable p -> parse_token (str_list (encode_param p)) = Some (stored p).
Proof.
  intros [_ (_ & _ & Hk) _]. rewrite encode_param_list. unfold parse_token.
  rewrite first_colon_app by (by apply replace_without). rewrite first_colon_app by exact Hk.
  unfold stored. rewrite !list_str_list. f_equal.
  destruct (replace_char ":" "_" (or_else (pa_name p) "")) as [|c s] eqn:E; done.
Qed.

Lemma encode_param_bar p : storable p -> without "|" (str_list (encode_param p)).
Proof.
  intros [[_ Hn] (_ & Hk & _) _]. rewrite encode_param_list. unfold without.
  rewrite Forall_app, Forall_cons, Forall_app, Forall_cons. split_and!; try done.
  - by apply replace_forall.
  - by apply replace_without.
Qed.

Lemma encode_param_clean p : storable p -> clean (encode_param p).
Proof.
  intros [[Hn _] (Hk & _ & _) Hd]. unfold clean. rewrite encode_param_list.
  rewrite Forall_app, Forall_cons, Forall_app, Forall_cons.
  split_and!; try done; repeat apply replace_forall; done.
Qed.

(** Reading the parameters of a row. *)
Lemma parse_params ps : Forall storable ps ->
  omap parse_token (split_char "|" (str_list (String.concat "|" (map encode_param ps))) []) = map stored ps.
Proof.
  intros H. destruct ps as [|p ps]; [done|]. change "|"%string with (String "|" "").
  rewrite split_char_concat; [|done|].
  - rewrite map_map. apply (omap_all (fun x => str_list (encode_param x))).
    eapply Forall_impl; [exact H|]. intros q. apply parse_encoded.
  - apply Forall_map. eapply Forall_impl; [exact H|]. intros q. apply encode_param_bar.
Qed.

(** ** Rows *)

(** A function of the index whose row is readable. *)
Definition readable (name : string) (ps : list param) : Prop :=
  clean name /\ starts_with "#" name = false /\ Forall storable ps.

Lemma encoded_clean ps : Forall storable ps -> clean (String.concat "|" (map encode_param ps)).
Proof.
  unfold clean. induction 1 as [|p ps Hp Hps IH]; [constructor|].
  destruct ps as [|q ps]; [by apply encode_param_clean|].
  change (String.concat "|" (map encode_param (p :: q :: ps)))
    with (String.append (encode_param p) (String.append "|" (String.concat "|" (map encode_param (q :: ps))))).
  rewrite !str_list_append, !Forall_app. split_and!; [by apply encode_param_clean| |exact IH].
  by repeat constructor.
Qed.

Lemma index_row_list name ps : str_list (index_row name ps) =
  str_list name ++ chr 9 :: str_list (py_str (len ps)) ++ chr 9 :: str_list (String.concat "|" (map encode_param ps)).
Proof.
  unfold index_row. rewrite str_list_cat. cbn [map concat]. rewrite app_nil_r.
  change (str_list tab) with [chr 9]. done.
Qed.

Lemma index_row_clean_but_tab name ps : readable name ps ->
  Forall (fun c => ord c <> 10 /\ ord c <> 13) (str_list (index_row name ps)).
Proof.
  intros (Hn & _ & Hps). rewrite index_row_list, Forall_app, Forall_cons, Forall_app, Forall_cons.
  assert (forall l, Forall clean_char l -> Forall (fun c => ord c <> 10 /\ ord c <> 13) l) as Hw
    by (intros l H; eapply Forall_impl; [exact H|]; by intros c (_ & ? & ?)).
  split_and!; try done; apply Hw; [exact Hn| |by apply encoded_clean].
  eapply Forall_impl; [apply py_str_digits, len_nonneg|]. intros c. apply digit_clean.
Qed.

(** The row of a function is found, whatever rows of other functions come first. *)
Lemma find_row_here name ps rest : readable name ps ->
  find_row name (str_list (index_row name ps) :: rest) = Some (map stored ps).
Proof.
  intros (Hn & Hh & Hps). cbn [find_row]. rewrite index_row_list.
  assert (match str_list name ++ chr 9 :: str_list (py_str (len ps)) ++
    chr 9 :: str_list (String.concat "|" (map encode_param ps)) with
    | c :: _ => ord c =? 35 | [] => false end = false) as ->.
  { destruct name as [|c s]; [done|]. cbn [str_list app]. cbn [starts_with] in Hh.
    destruct (Z.eqb_spec (ord c) 35) as [E|]; [|done].
    rewrite <- (chr_ord c), E in Hh. done. }
  rewrite split_char_sep by (by apply clean_without_tab). cbn [app].
  rewrite split_char_sep by (eapply Forall_impl; [apply py_str_digits, len_nonneg|];
    intros c Hc ->; by apply digit_clean in Hc as [? _]). cbn [app].
  rewrite split_char_word by (by apply clean_without_tab, encoded_clean). cbn [app].
  rewrite list_str_list, String.eqb_refl, parse_params by done. done.
Qed.

Lemma find_row_other want name ps rest : readable name ps -> name <> want ->
  find_row want (str_list (index_row name ps) :: rest) = find_row want rest.
Proof.
  intros (Hn & Hh & Hps) Hne. cbn [find_row]. rewrite index_row_list. case_match; [done|].
  rewrite split_char_sep by (by apply clean_without_tab). cbn [app].
  rewrite split_char_sep by (eapply Forall_impl; [apply py_str_digits, len_nonneg|];
    intros c Hc ->; by apply digit_clean in Hc as [? _]). cbn [app].
  rewrite split_char_word by (by apply clean_without_tab, encoded_clean).
  rewrite list_str_list. by destruct (String.eqb_spec name want).
Qed.

Lemma find_row_in want ps kvs : NoDup (map fst kvs) ->
  Forall (fun kv : string * (Z * Z * list param) => readable kv.1 kv.2.2) kvs ->
  (exists sc, (want, (sc, ps)) ∈ kvs) ->
  find_row want (map (fun kv => str_list (index_row kv.1 kv.2.2)) kvs) = Some (map stored ps).
Proof.
  intros Hnd Hr [sc Hin]. induction kvs as [|[k [sc0 ps0]] kvs IH]; [by apply not_elem_of_nil in Hin|].
  cbn [map fst snd] in *. apply NoDup_cons in Hnd as [Hk Hnd]. apply Forall_cons in Hr as [Hr0 Hr].
  cbn [fst snd] in Hr0. apply elem_of_cons in Hin as [[= <- <- <-]|Hin]; [by apply find_row_here|].
  rewrite find_row_other; [by apply IH|done|]. intros ->. apply Hk.
  apply list_elem_of_fmap. by exists (want, (sc, ps)).
Qed.

(** ** The file *)

(** The functions of the index, in the order they are written. *)
Definition written (seen : seen_map) : list (string * (Z * Z * list param)) :=
  merge_sort (fun a b : string * (Z * Z * list param) => String.le a.1 b.1) (map_to_list seen).

Lemma written_perm seen : written seen ≡ₚ map_to_list seen.
Proof. apply merge_sort_Permutation. Qed.

Lemma written_nodup seen : NoDup (map fst (written seen)).
Proof. rewrite written_perm. apply NoDup_fst_map_to_list. Qed.

Lemma written_in (seen : seen_map) fn sp : seen !! fn = Some sp -> (fn, sp) ∈ written seen.
Proof. intros H. rewrite written_perm. by apply elem_of_map_to_list. Qed.

Definition all_readable (seen : seen_map) : Prop := forall name sc ps, seen !! name = Some (sc, ps) -> readable name ps.

Lemma written_readable seen : all_readable seen ->
  Forall (fun kv : string * (Z * Z * list param) => readable kv.1 kv.2.2) (written seen).
Proof.
  intros Hr. apply Forall_forall. intros [k [s p]] Hin. rewrite written_perm in Hin.
  apply elem_of_map_to_list in Hin. by eapply Hr.
Qed.

(** The lines of the file: comments, then a row for each function. *)
Lemma index_file_lines bid seen : clean bid -> all_readable seen ->
  exists l1 l2 l3, Forall (fun l => exists t, l = "#"%char :: t) [l1; l2; l3] /\
    file_lines (str_list (index_text bid seen)) [] =
      [l1; l2; l3] ++ map (fun kv => str_list (index_row kv.1 kv.2.2)) (written seen).
Proof.
  intros Hb Hr. pose proof (written_readable seen Hr) as Hall. unfold index_text.
  rewrite file_lines_text; cycle 1.
  { unfold index_lines. fold (written seen). apply Forall_app. split.
    - rewrite !Forall_cons. split_and!; [vm_compute; by repeat constructor| |vm_compute; by repeat constructor|constructor].
      rewrite str_list_cat. cbn [map concat]. rewrite !Forall_app.
      split_and!; [vm_compute; by repeat constructor|vm_compute; by repeat constructor| |constructor].
      eapply Forall_impl; [exact Hb|]. by intros c (_ & ? & ?).
    - apply Forall_map. eapply Forall_impl; [exact Hall|]. intros [k [s p]]. apply index_row_clean_but_tab. }
  unfold index_lines. fold (written seen). rewrite map_app, map_map. cbn [map]. do 3 eexists.
  split; [|reflexivity]. rewrite !Forall_cons, !str_list_cat. cbn [map concat str_list app].
  split_and!; [by eexists..|constructor].
Qed.

(** For an index whose names and details hold no tab and no line break, looking a
    function up in the written text returns the parameters recorded for it, in
    order, each with its kind and with its name and detail as stored. *)
Lemma index_roundtrip bid seen fn sc ps : clean bid -> all_readable seen -> seen !! fn = Some (sc, ps) ->
  load_index (index_text bid seen) fn = Some (map stored ps).
Proof.
  intros Hb Hr Hfn. unfold load_index.
  destruct (index_file_lines bid seen Hb Hr) as (l1 & l2 & l3 & Hc & ->).
  rewrite !Forall_cons in Hc. destruct Hc as ([t1 ->] & [t2 ->] & [t3 ->] & _).
  cbn [app find_row]. change (ord "#" =? 35) with true. cbv iota.
  apply find_row_in; [apply written_nodup|by apply written_readable|].
  exists sc. by apply written_in.
Qed.

Definition demo_param : param := Param (Some "uf") "blob" "struct a::b *".
