(* ===== verification/TypeCat.v ===== *)
(** * The catalog of struct fields (substrate/gen_type_catalog.py)

    The dump of a build's type information, read line by line, and the tables
    made from it: the scalar fields of every named struct, the pointers and the
    embedded structs a path can follow, and the bitfields, kept apart.  What
    [bpftool] prints is the argument. *)

From S2P Require Import Prelude PyVal Text Assoc.

(** ** The dump *)

Record member := Member { m_name : string; m_type : Z; m_offset : Z; m_bits : Z }.
Record btype := BType { b_kind : string; b_name : string; b_members : list member; b_size : option Z; b_ref : option Z }.

(** [re.search(r"size=(\d+)", rest)] and [re.search(r"type_id=(\d+)", rest)]. *)
Definition number_after (key : string) (l : list ascii) : option Z :=
  search (fun l => match literal (str_list key) l with
                   | Some t => option_map fst (digits1 t)
                   | None => None
                   end) l.

(** [[(\d+)] (\w+)], and what follows the blanks after it. *)
Definition match_head (l : list ascii) : option (Z * string * list ascii) :=
  match literal ["["%char] l with
  | Some t =>
      match digits1 t with
      | Some (tid, t) =>
          match literal ["]"%char] t with
          | Some t =>
              match blanks1 t with
              | Some t =>
                  match run1 is_word t with
                  | Some (kind, t) => match blanks1 t with Some t => Some (tid, list_str kind, t) | None => None end
                  | None => None
                  end
              | None => None
              end
          | None => None
          end
      | None => None
      end
  | None => None
  end.

Definition not_quote (c : ascii) : bool := negb (ord c =? 39).

(** The name in quotes, or [(anon)], and the rest of the line. *)
Definition match_name (l : list ascii) : option (string * list ascii) :=
  match literal [chr 39] l with
  | Some t =>
      let '(name, t) := run_of not_quote t in
      match literal [chr 39] t with Some rest => Some (list_str name, rest) | None => None end
  | None => match literal (str_list "(anon)") l with Some rest => Some ("", rest) | None => None end
  end.

Definition match_type (l : list ascii) : option (Z * btype) :=
  match match_head l with
  | Some (tid, kind, t) =>
      match match_name t with
      | Some (name, rest) => Some (tid, BType kind name [] (number_after "size=" rest) (number_after "type_id=" rest))
      | None => None
      end
  | None => None
  end.

(** An optional [\s+key=(\d+)]: its value, 0 when it is not there. *)
Definition optional_key (key : string) (l : list ascii) : Z * list ascii :=
  match blanks1 l with
  | Some t =>
      match literal (str_list key) t with
      | Some t => match digits1 t with Some r => r | None => (0, l) end
      | None => (0, l)
      end
  | None => (0, l)
  end.

Definition match_member (l : list ascii) : option member :=
  match blanks1 l with
  | Some t =>
      match literal [chr 39] t with
      | Some t =>
          match run1 not_quote t with
          | Some (name, t) =>
              match literal [chr 39] t with
              | Some t =>
                  match blanks1 t with
                  | Some t =>
                      match literal (str_list "type_id=") t with
                      | Some t =>
                          match digits1 t with
                          | Some (tid, t) =>
                              let '(boff, t) := optional_key "bits_offset=" t in
                              let '(bsz, _) := optional_key "bitfield_size=" t in
                              Some (Member (list_str name) tid boff bsz)
                          | None => None
                          end
                      | None => None
                      end
                  | None => None
                  end
              | None => None
              end
          | None => None
          end
      | None => None
      end
  | None => None
  end.

Abbreviation types := (list (Z * btype)).

Definition add_member (m : member) (t : btype) : btype :=
  BType (b_kind t) (b_name t) (b_members t ++ [m]) (b_size t) (b_ref t).

(** One line of the dump. *)
Definition dump_line (st : types * option Z) (line : list ascii) : types * option Z :=
  let '(ts, cur) := st in
  match match_type line with
  | Some (tid, t) => (aset tid t ts, Some tid)
  | None =>
      match match_member line, cur with
      | Some m, Some tid =>
          match aget tid ts with
          | Some t => if mem_str (b_kind t) ["STRUCT"; "UNION"] then (aset tid (add_member m t) ts, cur) else (ts, cur)
          | None => (ts, cur)
          end
      | _, _ => (ts, cur)
      end
  end.

Definition read_dump (raw : string) : types := (fold_left dump_line (splitlines raw) ([], None)).1.

(** ** Types *)

Definition is_modifier (k : string) : bool := mem_str k ["TYPEDEF"; "CONST"; "VOLATILE"; "RESTRICT"; "TYPE_TAG"].
Definition is_number (k : string) : bool := mem_str k ["INT"; "ENUM"; "ENUM64"; "FLOAT"].

Definition type_of (ts : types) (tid : option Z) : option btype :=
  match tid with Some t => aget t ts | None => None end.

(** [size_of] at depths 0 to 12; deeper is 0. *)
Fixpoint size_of (fuel : nat) (ts : types) (tid : option Z) : Z :=
  match fuel with
  | O => 0
  | S fuel =>
      match type_of ts tid with
      | None => 0
      | Some t =>
          if String.eqb (b_kind t) "PTR" then 8
          else if is_number (b_kind t) then default 0 (b_size t)
          else if is_modifier (b_kind t) then size_of fuel ts (b_ref t)
          else 0
      end
  end.

(** The pointee, peeled at most [fuel] times. *)
Fixpoint peeled (fuel : nat) (ts : types) (t : option btype) : option btype :=
  match t, fuel with
  | Some t, S fuel => if is_modifier (b_kind t) then peeled fuel ts (type_of ts (b_ref t)) else Some t
  | _, _ => t
  end.

Fixpoint ptr_target (fuel : nat) (ts : types) (tid : option Z) : option string :=
  match fuel with
  | O => None
  | S fuel =>
      match type_of ts tid with
      | None => None
      | Some t =>
          if is_modifier (b_kind t) then ptr_target fuel ts (b_ref t)
          else if negb (String.eqb (b_kind t) "PTR") then None
          else match peeled 12 ts (type_of ts (b_ref t)) with
               | Some p => if String.eqb (b_kind p) "STRUCT" && negb (String.eqb (b_name p) "") then Some (b_name p) else None
               | None => None
               end
      end
  end.

Definition identifier (s : string) : bool := is_ident (str_list s).

Fixpoint embedded_target (fuel : nat) (ts : types) (tid : option Z) : option string :=
  match fuel with
  | O => None
  | S fuel =>
      match type_of ts tid with
      | None => None
      | Some t =>
          if is_modifier (b_kind t) then embedded_target fuel ts (b_ref t)
          else if String.eqb (b_kind t) "STRUCT" && identifier (b_name t) then Some (b_name t)
          else None
      end
  end.

Definition DEPTH : nat := 13.

(** ** The tables *)

Definition W : list (Z * string) := [(1, "u8"); (2, "u16"); (4, "u32"); (8, "u64")].

Record bitfield := Bitfield { f_unit : string; f_byte : Z; f_shift : Z; f_width : Z }.

Record tables := Tables {
  t_fields : list (string * string); t_edges : list (string * string);
  t_bits : list (string * bitfield); t_members : list (string * string) }.

(** The tables of one struct after one more member. *)
Definition member_tables (ts : types) (name : string) (tb : tables) (m : member) : tables :=
  let s := size_of DEPTH ts (Some (m_type m)) in
  if negb (m_bits m =? 0) then
    match assoc s W with
    | Some u =>
        let byte := m_offset m / (s * 8) * s in
        Tables (t_fields tb) (t_edges tb)
          (aset (m_name m) (Bitfield u byte (m_offset m - byte * 8) (m_bits m)) (t_bits tb)) (t_members tb)
    | None => tb
    end
  else
    Tables
      (match assoc s W with Some w => aset (m_name m) w (t_fields tb) | None => t_fields tb end)
      (match ptr_target DEPTH ts (Some (m_type m)) with
       | Some tgt => aset (m_name m) tgt (t_edges tb) | None => t_edges tb end)
      (t_bits tb)
      (match embedded_target DEPTH ts (Some (m_type m)) with
       | Some tgt => if identifier name && identifier (m_name m) then aset (m_name m) tgt (t_members tb)
                     else t_members tb
       | None => t_members tb end).

Definition struct_tables (ts : types) (t : btype) : tables :=
  fold_left (member_tables ts (b_name t)) (b_members t) (Tables [] [] [] []).

(** [if rows and (name not in d or len(rows) > len(d[name])): d[name] = rows]. *)
Definition richer {A} (name : string) (rows : list (string * A)) (d : list (string * list (string * A)))
    : list (string * list (string * A)) :=
  match rows with
  | [] => d
  | _ => match aget name d with
         | Some old => if (length old <? length rows)%nat then aset name rows d else d
         | None => aset name rows d
         end
  end.

Record catalog := Catalog {
  c_scalars : list (string * list (string * string)); c_ptrs : list (string * list (string * string));
  c_bits : list (string * list (string * bitfield)); c_embedded : list (string * list (string * string)) }.

(** One type of the loop in [build]. *)
Definition add_type (ts : types) (c : catalog) (t : btype) : catalog :=
  if negb (String.eqb (b_kind t) "STRUCT") || String.eqb (b_name t) "" then c else
  let tb := struct_tables ts t in
  let cat := richer (b_name t) (t_fields tb) (c_scalars c) in
  let ptrs := richer (b_name t) (t_edges tb) (c_ptrs c) in
  let bits := richer (b_name t) (t_bits tb) (c_bits c) in
  let taken := match t_members tb, aget (b_name t) (c_embedded c) with
               | [], _ => false
               | rows, Some old => (length old <? length rows)%nat
               | _, None => true
               end in
  let embedded := if taken then aset (b_name t) (t_members tb) (c_embedded c) else c_embedded c in
  let cat := if taken then match aget (b_name t) cat with Some _ => cat | None => aset (b_name t) [] cat end else cat in
  Catalog cat ptrs bits embedded.

Definition catalog_of (ts : types) : catalog := fold_left (add_type ts) (map snd ts) (Catalog [] [] [] []).

(** ** The document *)

Definition names_val (d : list (string * string)) : val := VDict (map (fun kv => (kv.1, VStr kv.2)) d).
Definition bits_val (d : list (string * bitfield)) : val :=
  VDict (map (fun kv => (kv.1, VDict [("unit", VStr (f_unit kv.2)); ("byte", VInt (f_byte kv.2));
                                      ("shift", VInt (f_shift kv.2)); ("width", VInt (f_width kv.2))])) d).
Definition table_val {A} (f : A -> val) (d : list (string * A)) : dict := map (fun kv => (kv.1, f kv.2)) d.

Definition catalog_doc (c : catalog) : dict :=
  set "__embedded__" (VDict (table_val names_val (c_embedded c)))
    (set "__bitfields__" (VDict (table_val bits_val (c_bits c)))
       (set "__ptr_targets__" (VDict (table_val names_val (c_ptrs c))) (table_val names_val (c_scalars c)))).

(** [build], of what [bpftool] printed. *)
Definition build (raw : string) : dict := catalog_doc (catalog_of (read_dump raw)).

(** ** What the catalog says of the types

    Every row of the catalog comes from a member of a struct of that name: a
    scalar from a member that is not a bitfield and whose type is a number or a
    pointer of that width, an edge from a pointer to, or an embedded value of, the
    struct it names, a bitfield from a bitfield; and a struct defined once has each
    member in one table only. *)

(** A type behind its typedefs and qualifiers. *)
Inductive resolves (ts : types) : option Z -> btype -> Prop :=
| resolves_here tid t : type_of ts tid = Some t -> is_modifier (b_kind t) = false -> resolves ts tid t
| resolves_step tid t u : type_of ts tid = Some t -> is_modifier (b_kind t) = true ->
    resolves ts (b_ref t) u -> resolves ts tid u.

Definition has_width (t : btype) (n : Z) : Prop :=
  (b_kind t = "PTR" /\ n = 8) \/ (is_number (b_kind t) = true /\ b_size t = Some n).

Definition struct_named (t : btype) (name : string) : Prop := b_kind t = "STRUCT" /\ b_name t = name.

Lemma number_not_modifier k : is_number k = true -> is_modifier k = false.
Proof. unfold is_number, is_modifier. rewrite mem_str_In. cbn [In]. by intros [<-|[<-|[<-|[<-|[]]]]]. Qed.

Lemma size_of_resolves ts n : n <> 0 -> forall fuel tid, size_of fuel ts tid = n ->
  exists u, resolves ts tid u /\ has_width u n.
Proof.
  intros Hn. induction fuel as [|fuel IH]; intros tid; cbn [size_of]; [lia|].
  destruct (type_of ts tid) as [t|] eqn:Ht; [|lia].
  destruct (String.eqb_spec (b_kind t) "PTR") as [Hk|Hk].
  { intros <-. exists t. split; [|by left]. apply resolves_here; [done|]. by rewrite Hk. }
  destruct (is_number (b_kind t)) eqn:Hnum.
  { destruct (b_size t) as [s|] eqn:Hs; cbn [from_option id]; [|lia]. intros ->. exists t.
    split; [|by right]. apply resolves_here; [done|by apply number_not_modifier]. }
  destruct (is_modifier (b_kind t)) eqn:Hm; [|lia]. intros (u & Hu & Hw)%IH. exists u.
  split; [|done]. by eapply resolves_step.
Qed.

Lemma peeled_resolves ts fuel : forall tid p, peeled fuel ts (type_of ts tid) = Some p ->
  is_modifier (b_kind p) = false -> resolves ts tid p.
Proof.
  induction fuel as [|fuel IH]; intros tid p; destruct (type_of ts tid) as [t|] eqn:Ht; cbn [peeled]; try done.
  - intros [= ->] Hp. by apply resolves_here.
  - destruct (is_modifier (b_kind t)) eqn:Hm.
    + intros H Hp. eapply resolves_step; [done..|]. by apply IH.
    + intros [= ->] _. by apply resolves_here.
Qed.

(** What a target means. *)
Definition points_to (ts : types) (tid : Z) (name : string) : Prop :=
  exists u p, resolves ts (Some tid) u /\ b_kind u = "PTR" /\ resolves ts (b_ref u) p /\ struct_named p name.
Definition embeds (ts : types) (tid : Z) (name : string) : Prop :=
  exists u, resolves ts (Some tid) u /\ struct_named u name.

Lemma ptr_target_resolves ts name fuel : forall tid, ptr_target fuel ts tid = Some name ->
  exists u p, resolves ts tid u /\ b_kind u = "PTR" /\ resolves ts (b_ref u) p /\ struct_named p name.
Proof.
  induction fuel as [|fuel IH]; intros tid; cbn [ptr_target]; [done|].
  destruct (type_of ts tid) as [t|] eqn:Ht; [|done]. destruct (is_modifier (b_kind t)) eqn:Hm.
  { intros (u & p & Hu & Hr)%IH. exists u, p. split; [|done]. by eapply resolves_step. }
  destruct (String.eqb_spec (b_kind t) "PTR") as [Hk|]; [|done]. cbn [negb].
  destruct (peeled 12 ts (type_of ts (b_ref t))) as [p|] eqn:Hp; [|done].
  destruct (String.eqb_spec (b_kind p) "STRUCT") as [Hs|]; [|done].
  destruct (String.eqb_spec (b_name p) ""); [done|]. intros [= <-]. exists t, p.
  split_and!; [by apply resolves_here|done| |done]. eapply peeled_resolves; [exact Hp|]. by rewrite Hs.
Qed.

Lemma embedded_target_resolves ts name fuel : forall tid, embedded_target fuel ts tid = Some name ->
  exists u, resolves ts tid u /\ struct_named u name.
Proof.
  induction fuel as [|fuel IH]; intros tid; cbn [embedded_target]; [done|].
  destruct (type_of ts tid) as [t|] eqn:Ht; [|done]. destruct (is_modifier (b_kind t)) eqn:Hm.
  { intros (u & Hu & Hr)%IH. exists u. split; [|done]. by eapply resolves_step. }
  destruct (String.eqb_spec (b_kind t) "STRUCT") as [Hs|]; [|done]. destruct (identifier (b_name t)); [|done].
  intros [= <-]. exists t. split; [by apply resolves_here|done].
Qed.

(** ** The rows of one struct *)

(** What each kind of row says of the member it is about. *)
Definition scalar_row (ts : types) (m : member) (w : string) : Prop :=
  m_bits m = 0 /\ exists n u, assoc n W = Some w /\ resolves ts (Some (m_type m)) u /\ has_width u n.
Definition edge_row (ts : types) (m : member) (tgt : string) : Prop := m_bits m = 0 /\ points_to ts (m_type m) tgt.
Definition embedded_row (ts : types) (m : member) (tgt : string) : Prop := m_bits m = 0 /\ embeds ts (m_type m) tgt.
Definition bits_row (ts : types) (m : member) (b : bitfield) : Prop :=
  m_bits m <> 0 /\ f_width b = m_bits m /\ f_byte b * 8 + f_shift b = m_offset m /\
  exists n u, assoc n W = Some (f_unit b) /\ resolves ts (Some (m_type m)) u /\ has_width u n /\
    0 <= f_shift b < 8 * n.

(** Every row of a table is about some member, as [P] says. *)
Definition about {A} (ms : list member) (P : member -> A -> Prop) (d : list (string * A)) : Prop :=
  forall f a, aget f d = Some a -> exists m, m ∈ ms /\ m_name m = f /\ P m a.

Lemma about_nil {A} ms (P : member -> A -> Prop) : about ms P [].
Proof. intros f a. done. Qed.

Lemma about_set {A} ms (P : member -> A -> Prop) m a d : m ∈ ms -> P m a -> about ms P d ->
  about ms P (aset (m_name m) a d).
Proof.
  intros Hm Ha Hd f b. rewrite aget_aset. case_decide as E; [|by apply Hd]. intros [= <-]. by exists m.
Qed.

Record tables_about (ts : types) (ms : list member) (tb : tables) : Prop := {
  about_fields : about ms (scalar_row ts) (t_fields tb);
  about_edges : about ms (edge_row ts) (t_edges tb);
  about_bits : about ms (bits_row ts) (t_bits tb);
  about_members : about ms (embedded_row ts) (t_members tb) }.

Lemma W_width n w : assoc n W = Some w -> 0 < n.
Proof. unfold W. cbn [assoc]. repeat (case_match; [lia|]). done. Qed.

Lemma member_tables_about ts name ms tb m : m ∈ ms -> tables_about ts ms tb ->
  tables_about ts ms (member_tables ts name tb m).
Proof.
  intros Hm [Hf He Hb Hs]. unfold member_tables.
  assert (forall w, assoc (size_of DEPTH ts (Some (m_type m))) W = Some w ->
    exists n u, assoc n W = Some w /\ resolves ts (Some (m_type m)) u /\ has_width u n /\
      n = size_of DEPTH ts (Some (m_type m))) as Hw.
  { intros w H. pose proof (W_width _ _ H). destruct (size_of_resolves ts (size_of DEPTH ts (Some (m_type m))) ltac:(lia)
      DEPTH (Some (m_type m)) eq_refl) as (u & Hu & Hwu). by eexists _, u. }
  destruct (Z.eqb_spec (m_bits m) 0) as [Hz|Hz]; cbn [negb].
  - constructor; cbn [t_fields t_edges t_bits t_members]; [| |done|].
    + destruct (assoc _ W) as [w|] eqn:Ha; [|done]. apply about_set; [done| |done]. split; [done|].
      destruct (Hw w eq_refl) as (n & u & ? & ? & ? & _). by exists n, u.
    + destruct (ptr_target _ _ _) as [tgt|] eqn:Ht; [|done]. apply about_set; [done| |done]. split; [done|].
      by apply ptr_target_resolves in Ht.
    + destruct (embedded_target _ _ _) as [tgt|] eqn:Ht; [|done]. destruct (_ && _); [|done].
      apply about_set; [done| |done]. split; [done|]. by apply embedded_target_resolves in Ht.
  - destruct (assoc _ W) as [w|] eqn:Ha; [|by constructor].
    destruct (Hw w eq_refl) as (n & u & Hn & Hu & Hwu & Hs').
    constructor; cbn [t_fields t_edges t_bits t_members]; try done. apply about_set; [done| |done].
    pose proof (W_width _ _ Hn). rewrite <- Hs'. unfold bits_row. cbn [f_width f_byte f_shift f_unit].
    split_and!; [done|done|lia|]. exists n, u. split_and!; try done.
    + pose proof (Z.mul_div_le (m_offset m) (n * 8)). lia.
    + pose proof (Z.mul_succ_div_gt (m_offset m) (n * 8)). lia.
Qed.

Lemma struct_tables_about ts t : tables_about ts (b_members t) (struct_tables ts t).
Proof.
  unfold struct_tables. assert (tables_about ts (b_members t) (Tables [] [] [] [])) as H
    by (constructor; apply about_nil).
  assert (forall l tb, l ⊆ b_members t -> tables_about ts (b_members t) tb ->
    tables_about ts (b_members t) (fold_left (member_tables ts (b_name t)) l tb)) as Hf; [|by apply Hf].
  clear H. induction l as [|m l IH]; intros tb Hl Ht; [done|]. cbn [fold_left]. apply IH.
  - intros x Hx. apply Hl. by right.
  - apply member_tables_about; [|done]. apply Hl. left.
Qed.

(** ** The whole catalog *)

Definition member_in (ts : types) (st : string) (m : member) : Prop :=
  exists t, t ∈ map snd ts /\ struct_named t st /\ m ∈ b_members t.

Definition listed {A} (d : list (string * list (string * A))) (st f : string) (a : A) : Prop :=
  exists rows, aget st d = Some rows /\ aget f rows = Some a.

Definition table_sound {A} (ts : types) (P : member -> A -> Prop) (d : list (string * list (string * A))) : Prop :=
  forall st f a, listed d st f a -> exists m, member_in ts st m /\ m_name m = f /\ P m a.

Lemma listed_aset {A} st name rows (d : list (string * list (string * A))) f a :
  listed (aset name rows d) st f a -> (st = name /\ aget f rows = Some a) \/ listed d st f a.
Proof.
  intros (r & Hr & Ha). rewrite aget_aset in Hr. case_decide as E; [|right; by exists r].
  injection Hr as ->. by left.
Qed.

Lemma listed_richer {A} st name rows (d : list (string * list (string * A))) f a :
  listed (richer name rows d) st f a -> (st = name /\ aget f rows = Some a) \/ listed d st f a.
Proof.
  unfold richer. destruct rows as [|r rows]; [by right|].
  destruct (aget name d) as [old|]; [case_match; [|by right]|]; apply listed_aset.
Qed.

Lemma sound_richer {A} ts P t rows (d : list (string * list (string * A))) :
  t ∈ map snd ts -> b_kind t = "STRUCT" -> about (b_members t) P rows -> table_sound ts P d ->
  table_sound ts P (richer (b_name t) rows d).
Proof.
  intros Ht Hk Hr Hd st f a [[-> Ha]|H]%listed_richer; [|by apply Hd].
  apply Hr in Ha as (m & Hm & Hf & HP). exists m. split; [by exists t|done].
Qed.

Record catalog_sound_for (ts : types) (c : catalog) : Prop := {
  sound_scalars : table_sound ts (scalar_row ts) (c_scalars c);
  sound_ptrs : table_sound ts (edge_row ts) (c_ptrs c);
  sound_bits : table_sound ts (bits_row ts) (c_bits c);
  sound_embedded : table_sound ts (embedded_row ts) (c_embedded c) }.

Lemma add_type_sound ts c t : t ∈ map snd ts -> catalog_sound_for ts c -> catalog_sound_for ts (add_type ts c t).
Proof.
  intros Ht [Hc Hp Hb He]. unfold add_type. destruct (String.eqb_spec (b_kind t) "STRUCT") as [Hk|]; [|done].
  destruct (String.eqb_spec (b_name t) ""); [done|]. cbn [negb orb]. cbv zeta.
  destruct (struct_tables_about ts t) as [Af Ae Ab Am].
  constructor; cbn [c_scalars c_ptrs c_bits c_embedded]; try by apply sound_richer.
  - case_match; [|by apply sound_richer]. destruct (aget (b_name t) (richer _ _ _)) eqn:E; [by apply sound_richer|].
    intros st f a [[-> ?]|Hl]%listed_aset; [done|]. by eapply (sound_richer ts _ t).
  - case_match; [|done]. intros st f a [[-> Ha]|Hl]%listed_aset; [|by apply He].
    apply Am in Ha as (m & Hm & Hf & HP). exists m. split; [by exists t|done].
Qed.

Lemma catalog_sound ts : catalog_sound_for ts (catalog_of ts).
Proof.
  unfold catalog_of. assert (forall l c, l ⊆ map snd ts -> catalog_sound_for ts c ->
    catalog_sound_for ts (fold_left (add_type ts) l c)) as H.
  { induction l as [|t l IH]; intros c Hl Hc; [done|]. cbn [fold_left]. apply IH.
    - intros x Hx. apply Hl. by right.
    - apply add_type_sound; [|done]. apply Hl. left. }
  apply H; [done|]. constructor; intros st f a (r & Hr & _); done.
Qed.

(** ** Structs defined once *)

(** The one definition of a struct, its members with distinct names. *)
Definition defined_once (ts : types) (t : btype) : Prop :=
  exists l1 l2, map snd ts = l1 ++ t :: l2 /\ b_kind t = "STRUCT" /\ b_name t <> "" /\
    (forall u, u ∈ l1 ++ l2 -> ~ struct_named u (b_name t)) /\ NoDup (map m_name (b_members t)).

Definition rows {A} (d : list (string * list (string * A))) (st : string) : list (string * A) := default [] (aget st d).

Lemma rows_richer {A} st name r (d : list (string * list (string * A))) : st <> name ->
  rows (richer name r d) st = rows d st.
Proof.
  intros H. unfold rows, richer. destruct r; [done|].
  destruct (aget name d); [case_match; [|done]|]; by rewrite aget_aset_ne.
Qed.

(** [setdefault(name, {})] changes no row. *)
Lemma rows_setdefault {A} (b : bool) st name (d : list (string * list (string * A))) :
  rows (if b then match aget name d with Some _ => d | None => aset name [] d end else d) st = rows d st.
Proof.
  destruct b; [|done]. destruct (aget name d) eqn:E; [done|]. unfold rows. rewrite aget_aset.
  case_decide as Hst; [|done]. subst. by rewrite E.
Qed.

Lemma add_type_other ts c t st : ~ struct_named t st ->
  rows (c_scalars (add_type ts c t)) st = rows (c_scalars c) st /\
  rows (c_bits (add_type ts c t)) st = rows (c_bits c) st.
Proof.
  intros Hn. unfold add_type. destruct (String.eqb_spec (b_kind t) "STRUCT") as [Hk|]; [|done].
  destruct (String.eqb_spec (b_name t) ""); [done|]. cbn [negb orb]. cbv zeta. cbn [c_scalars c_bits].
  assert (st <> b_name t) as Hne by (intros ->; by apply Hn). rewrite rows_setdefault.
  by split; apply rows_richer.
Qed.

Lemma fold_other ts st l : (forall t, t ∈ l -> ~ struct_named t st) -> forall c,
  rows (c_scalars (fold_left (add_type ts) l c)) st = rows (c_scalars c) st /\
  rows (c_bits (fold_left (add_type ts) l c)) st = rows (c_bits c) st.
Proof.
  induction l as [|t l IH]; intros Hl c; [done|]. cbn [fold_left].
  destruct (IH (fun u Hu => Hl u (list_elem_of_further _ _ _ Hu)) (add_type ts c t)) as [-> ->].
  apply add_type_other. apply Hl. left.
Qed.

Lemma rows_richer_new {A} name r (d : list (string * list (string * A))) : rows d name = [] ->
  rows (richer name r d) name = r.
Proof.
  intros H. unfold rows, richer in *. destruct r as [|x r]; [done|].
  destruct (aget name d) as [old|]; cbn [from_option id] in H; [subst old; cbn [length Nat.ltb Nat.leb]|];
    by rewrite aget_aset_eq.
Qed.

Lemma catalog_rows ts t : defined_once ts t ->
  rows (c_scalars (catalog_of ts)) (b_name t) = t_fields (struct_tables ts t) /\
  rows (c_bits (catalog_of ts)) (b_name t) = t_bits (struct_tables ts t).
Proof.
  intros (l1 & l2 & Hts & Hk & Hne & Hother & _). unfold catalog_of. rewrite Hts, fold_left_app. cbn [fold_left].
  destruct (fold_other ts (b_name t) l2 (fun u Hu => Hother u ltac:(apply elem_of_app; by right))
    (add_type ts (fold_left (add_type ts) l1 (Catalog [] [] [] [])) t)) as [-> ->].
  destruct (fold_other ts (b_name t) l1 (fun u Hu => Hother u ltac:(apply elem_of_app; by left))
    (Catalog [] [] [] [])) as [H1 H2].
  set (c := fold_left _ l1 _) in *. unfold add_type. rewrite Hk.
  destruct (String.eqb_spec (b_name t) ""); [done|]. cbn [negb orb String.eqb Ascii.eqb Bool.eqb]. cbv zeta.
  change (String.eqb "STRUCT" "STRUCT") with true. cbn [negb orb c_scalars c_bits].
  rewrite rows_setdefault. by split; apply rows_richer_new.
Qed.

(** The scalar and the bitfield a member gives, if any. *)
Definition scalar_of (ts : types) (m : member) : option string :=
  if m_bits m =? 0 then assoc (size_of DEPTH ts (Some (m_type m))) W else None.
Definition bits_of (ts : types) (m : member) : option bitfield :=
  if m_bits m =? 0 then None else
  let s := size_of DEPTH ts (Some (m_type m)) in
  option_map (fun u => let byte := m_offset m / (s * 8) * s in Bitfield u byte (m_offset m - byte * 8) (m_bits m))
    (assoc s W).

Lemma member_tables_rows ts name tb m f :
  aget f (t_fields (member_tables ts name tb m)) =
    (if decide (f = m_name m) then match scalar_of ts m with Some w => Some w | None => aget f (t_fields tb) end
     else aget f (t_fields tb)) /\
  aget f (t_bits (member_tables ts name tb m)) =
    (if decide (f = m_name m) then match bits_of ts m with Some b => Some b | None => aget f (t_bits tb) end
     else aget f (t_bits tb)).
Proof.
  unfold member_tables, scalar_of, bits_of. destruct (m_bits m =? 0); cbn [negb].
  - cbn [t_fields t_bits]. destruct (assoc _ W); [rewrite aget_aset|]; by case_decide.
  - destruct (assoc _ W); cbn [option_map t_fields t_bits]; [rewrite aget_aset|]; by case_decide.
Qed.

Lemma fold_members ts name l : forall tb, NoDup (map m_name l) ->
  let tb' := fold_left (member_tables ts name) l tb in
  (forall f, f ∉ map m_name l -> aget f (t_fields tb') = aget f (t_fields tb) /\
                                aget f (t_bits tb') = aget f (t_bits tb)) /\
  (forall m, m ∈ l -> aget (m_name m) (t_fields tb) = None -> aget (m_name m) (t_bits tb) = None ->
     aget (m_name m) (t_fields tb') = scalar_of ts m /\ aget (m_name m) (t_bits tb') = bits_of ts m).
Proof.
  induction l as [|m0 l IH]; intros tb Hd; cbv zeta; cbn [fold_left map].
  { split; [done|]. by intros m ?%not_elem_of_nil. }
  apply NoDup_cons in Hd as [Hn Hd]. destruct (IH (member_tables ts name tb m0) Hd) as [Ho Hi]. clear IH.
  assert (forall f, f <> m_name m0 -> aget f (t_fields (member_tables ts name tb m0)) = aget f (t_fields tb) /\
    aget f (t_bits (member_tables ts name tb m0)) = aget f (t_bits tb)) as Hne.
  { intros f Hf. destruct (member_tables_rows ts name tb m0 f) as [-> ->]. by rewrite !decide_False. }
  split.
  - intros f [Hf Hl]%not_elem_of_cons. destruct (Ho f Hl) as [-> ->]. by apply Hne.
  - intros m [->|Hm]%elem_of_cons Hf Hb.
    + destruct (Ho _ Hn) as [-> ->]. destruct (member_tables_rows ts name tb m0 (m_name m0)) as [-> ->].
      rewrite !decide_True, Hf, Hb by done. by destruct (scalar_of ts m0), (bits_of ts m0).
    + assert (m_name m <> m_name m0) as Hx by (intros E; apply Hn; rewrite <- E; by apply list_elem_of_fmap_2).
      destruct (Hne _ Hx) as [E1 E2]. apply Hi; [done|by rewrite E1|by rewrite E2].
Qed.

(** *** What a member's type is, independently of the generator *)

(** [u] is found behind exactly [k] typedefs and qualifiers. *)
Inductive behind (ts : types) : nat -> option Z -> btype -> Prop :=
| behind_none tid u : type_of ts tid = Some u ->
    ~ In (b_kind u) ["TYPEDEF"; "CONST"; "VOLATILE"; "RESTRICT"; "TYPE_TAG"] -> behind ts 0 tid u
| behind_one k tid t u : type_of ts tid = Some t ->
    In (b_kind t) ["TYPEDEF"; "CONST"; "VOLATILE"; "RESTRICT"; "TYPE_TAG"] ->
    behind ts k (b_ref t) u -> behind ts (S k) tid u.

(** A number or a pointer of [n] bytes. *)
Definition wide (u : btype) (n : Z) : Prop :=
  b_kind u = "PTR" /\ n = 8 \/ In (b_kind u) ["INT"; "ENUM"; "ENUM64"; "FLOAT"] /\ b_size u = Some n.

(** The type of a member holds [n] bytes, behind at most twelve typedefs and
    qualifiers, and [n] is a width the catalog has a name for. *)
Definition holds_bytes (ts : types) (m : member) (n : Z) : Prop :=
  n ∈ [1; 2; 4; 8] /\ exists k u, (k <= 12)%nat /\ behind ts k (Some (m_type m)) u /\ wide u n.

Definition width_name (n : Z) : string := cat ["u"; py_str (8 * n)].

Lemma is_modifier_In k : is_modifier k = true <-> In k ["TYPEDEF"; "CONST"; "VOLATILE"; "RESTRICT"; "TYPE_TAG"].
Proof. apply mem_str_In. Qed.
Lemma is_number_In k : is_number k = true <-> In k ["INT"; "ENUM"; "ENUM64"; "FLOAT"].
Proof. apply mem_str_In. Qed.

Lemma size_of_iff ts n fuel : n <> 0 -> forall tid,
  size_of fuel ts tid = n <-> exists k u, (k < fuel)%nat /\ behind ts k tid u /\ wide u n.
Proof.
  intros Hn. induction fuel as [|fuel IH]; intros tid.
  { split; [done|]. intros (k & u & Hk & _). lia. }
  cbn [size_of]. destruct (type_of ts tid) as [t|] eqn:Ht; cycle 1.
  { split; [done|]. intros (k & u & _ & Hb & _). inversion Hb; congruence. }
  assert (forall k u, ~ In (b_kind t) ["TYPEDEF"; "CONST"; "VOLATILE"; "RESTRICT"; "TYPE_TAG"] ->
    behind ts k tid u -> k = 0%nat /\ u = t) as Hhere.
  { intros k u Hno Hb. inversion Hb; subst; split; congruence. }
  destruct (String.eqb_spec (b_kind t) "PTR") as [Hk|Hk]; [|destruct (is_number (b_kind t)) eqn:Hnum;
    [|destruct (is_modifier (b_kind t)) eqn:Hm]].
  - assert (~ In (b_kind t) ["TYPEDEF"; "CONST"; "VOLATILE"; "RESTRICT"; "TYPE_TAG"]) as Hno.
    { rewrite Hk. cbn. naive_solver. }
    split.
    + intros <-. exists 0%nat, t. split_and!; [lia|by constructor|by left].
    + intros (k & u & _ & Hb & Hw). destruct (Hhere k u Hno Hb) as [_ ->].
      destruct Hw as [[_ ->]|[Hi _]]; [done|]. rewrite Hk in Hi. cbn in Hi. naive_solver.
  - assert (~ In (b_kind t) ["TYPEDEF"; "CONST"; "VOLATILE"; "RESTRICT"; "TYPE_TAG"]) as Hno.
    { apply number_not_modifier in Hnum. rewrite <- is_modifier_In. by rewrite Hnum. }
    apply is_number_In in Hnum. split.
    + destruct (b_size t) as [z|] eqn:Hz; cbn [from_option id]; [|done]. intros ->.
      exists 0%nat, t. split_and!; [lia|by constructor|by right].
    + intros (k & u & _ & Hb & Hw). destruct (Hhere k u Hno Hb) as [_ ->].
      by destruct Hw as [[? _]|[_ ->]].
  - apply is_modifier_In in Hm. rewrite IH. split.
    + intros (k & u & Hlt & Hb & Hw). exists (S k), u. split_and!; [lia|by eapply behind_one|done].
    + intros (k & u & Hlt & Hb & Hw). inversion Hb as [? ? E Hno|k' ? t' ? E Hin Hb']; subst; rewrite Ht in E;
        injection E as <-; [done|]. exists k', u. split_and!; [lia|done..].
  - assert (~ In (b_kind t) ["TYPEDEF"; "CONST"; "VOLATILE"; "RESTRICT"; "TYPE_TAG"]) as Hno.
    { rewrite <- is_modifier_In. by rewrite Hm. }
    split; [done|]. intros (k & u & _ & Hb & Hw). destruct (Hhere k u Hno Hb) as [_ ->].
    destruct Hw as [[? _]|[Hi _]]; [done|]. apply is_number_In in Hi. by rewrite Hi in Hnum.
Qed.

Lemma width_iff ts m w : assoc (size_of DEPTH ts (Some (m_type m))) W = Some w <->
  exists n, holds_bytes ts m n /\ w = width_name n.
Proof.
  assert (forall n w, assoc n W = Some w <-> n ∈ [1; 2; 4; 8] /\ w = width_name n) as HW.
  { intros n w'. unfold W. cbn [assoc]. rewrite !elem_of_cons, elem_of_nil.
    repeat (match goal with |- context [?a =? ?b] => destruct (Z.eqb_spec a b) as [->|] end;
      [split; [by intros [= <-]; split; [tauto|vm_compute]|by intros [_ ->]; vm_compute]|]). naive_solver. }
  rewrite HW. unfold holds_bytes. split.
  - intros [Hn ->]. exists (size_of DEPTH ts (Some (m_type m))). split; [|done]. split; [done|].
    assert (size_of DEPTH ts (Some (m_type m)) <> 0) as Hne by (intros E; rewrite E in Hn; set_solver).
    destruct (proj1 (size_of_iff ts _ DEPTH Hne _) eq_refl) as (k & u & Hk & Hb & Hw). unfold DEPTH in Hk.
    exists k, u. split_and!; [lia|done..].
  - intros (n & [Hn (k & u & Hk & Hb & Hw)] & ->).
    assert (size_of DEPTH ts (Some (m_type m)) = n) as ->; [|done].
    apply size_of_iff; [intros ->; set_solver|]. exists k, u. split_and!; [unfold DEPTH; lia|done..].
Qed.

(** The storage unit that a bitfield's offset lies in. *)
Lemma bits_of_placed ts m b : bits_of ts m = Some b <->
  m_bits m <> 0 /\ exists n, holds_bytes ts m n /\ f_unit b = width_name n /\ f_width b = m_bits m /\
    (n | f_byte b) /\ f_byte b * 8 + f_shift b = m_offset m /\ 0 <= f_shift b < 8 * n.
Proof.
  unfold bits_of. destruct (Z.eqb_spec (m_bits m) 0) as [Hz|Hz]; [naive_solver|]. cbv zeta.
  set (s := size_of DEPTH ts (Some (m_type m))).
  assert (forall n, holds_bytes ts m n -> s = n /\ 0 < n) as Hsize.
  { intros n [Hn (k & u & Hk & Hb & Hw)]. assert (0 < n) by (rewrite !elem_of_cons, elem_of_nil in Hn; lia).
    split; [|done]. apply size_of_iff; [lia|]. exists k, u. split_and!; [unfold DEPTH; lia|done..]. }
  split.
  - intros H. split; [done|]. destruct (assoc s W) as [w|] eqn:Ew; [|done]. injection H as <-.
    apply width_iff in Ew as (n & Hn & ->). destruct (Hsize n Hn) as [-> Hpos]. exists n. cbn.
    split_and!; [done..|by apply Z.divide_factor_r|lia| |].
    + pose proof (Z.mul_div_le (m_offset m) (n * 8)). lia.
    + pose proof (Z.mul_succ_div_gt (m_offset m) (n * 8)). lia.
  - intros (_ & n & Hn & Hu & Hwd & [q Hq] & Hsum & Hsh). destruct (Hsize n Hn) as [Es Hpos].
    assert (assoc s W = Some (width_name n)) as -> by (apply width_iff; by exists n).
    cbn [option_map]. rewrite Es. assert (m_offset m / (n * 8) = q) as Eq.
    { symmetry. apply (Z.div_unique_pos _ _ _ (f_shift b)); lia. }
    rewrite Eq, <- Hq, <- Hu, <- Hwd. destruct b as [fu fb fs fw]. cbn in *. do 2 f_equal. lia.
Qed.

(** C25: the catalog is exact for a struct that is defined once.  Each of its
    members is listed as a scalar exactly when it is not a bitfield and its type,
    found behind at most twelve typedefs and qualifiers, is a number or a pointer of
    1, 2, 4 or 8 bytes, under the name of that width; and as a bitfield exactly when
    it is one and its type is such, with the storage unit of that width at the byte,
    a multiple of its size, that the offset of the member lies in, the shift from
    there, and the bits of the member.  No member is listed as both. *)
Theorem catalog_exact raw t m : defined_once (read_dump raw) t -> m ∈ b_members t ->
  let ts := read_dump raw in
  let c := catalog_of ts in
  (forall w, listed (c_scalars c) (b_name t) (m_name m) w <->
     m_bits m = 0 /\ exists n, holds_bytes ts m n /\ w = width_name n) /\
  (forall b, listed (c_bits c) (b_name t) (m_name m) b <->
     m_bits m <> 0 /\ exists n, holds_bytes ts m n /\ f_unit b = width_name n /\ f_width b = m_bits m /\
     (n | f_byte b) /\ f_byte b * 8 + f_shift b = m_offset m /\ 0 <= f_shift b < 8 * n).
Proof.
  intros Ho Hm. cbv zeta. destruct (catalog_rows _ _ Ho) as [Hs Hb].
  assert (forall A (d : list (string * list (string * A))) f a,
    listed d (b_name t) f a <-> aget f (rows d (b_name t)) = Some a) as Hl.
  { intros A d f a. unfold listed, rows. destruct (aget (b_name t) d); cbn [from_option id]; naive_solver. }
  destruct Ho as (_ & _ & _ & _ & _ & _ & Hd).
  destruct (fold_members (read_dump raw) (b_name t) (b_members t) (Tables [] [] [] []) Hd) as [_ Hin].
  destruct (Hin m Hm eq_refl eq_refl) as [Hf Hbits]. fold (struct_tables (read_dump raw) t) in Hf, Hbits.
  pose proof (width_iff (read_dump raw) m) as Hw. split.
  - intros w. rewrite Hl, Hs, Hf, <- Hw. unfold scalar_of. destruct (Z.eqb_spec (m_bits m) 0); naive_solver.
  - intros b. rewrite Hl, Hb, Hbits. rewrite bits_of_placed. destruct (Z.eqb_spec (m_bits m) 0) as [Hz|Hz]; naive_solver.
Qed.

(** ** A dump *)

Definition demo_dump : string :=
  cat (map (fun l => cat [l; newline])
    ["[1] INT 'unsigned int' size=4 bits_offset=0 nr_bits=32 encoding=(none)";
     "[2] STRUCT 'conn' size=24 vlen=4";
     cat [tab; "'port' type_id=5 bits_offset=0"];
     cat [tab; "'closing' type_id=1 bits_offset=33 bitfield_size=1"];
     cat [tab; "'next' type_id=3 bits_offset=64"];
     cat [tab; "'stats' type_id=4 bits_offset=128"];
     "[3] PTR '(anon)' type_id=2";
     "[4] STRUCT 'stats' size=8 vlen=1";
     cat [tab; "'hits' type_id=6 bits_offset=0"];
     "[5] TYPEDEF 'port_t' type_id=1";
     "[6] INT 'unsigned long' size=8 bits_offset=0 nr_bits=64 encoding=(none)"]).

Definition demo_conn : btype :=
  BType "STRUCT" "conn"
    [Member "port" 5 0 0; Member "closing" 1 33 1; Member "next" 3 64 0; Member "stats" 4 128 0] (Some 24) None.

Definition demo_stats : btype := BType "STRUCT" "stats" [Member "hits" 6 0 0] (Some 8) None.

Lemma demo_dump_types : read_dump demo_dump =
  [(1, BType "INT" "unsigned int" [] (Some 4) None); (2, demo_conn); (3, BType "PTR" "(anon)" [] None (Some 2));
   (4, demo_stats); (5, BType "TYPEDEF" "port_t" [] None (Some 1)); (6, BType "INT" "unsigned long" [] (Some 8) None)].
Proof. vm_compute. reflexivity. Qed.

Lemma demo_conn_once : defined_once (read_dump demo_dump) demo_conn.
Proof.
  rewrite demo_dump_types. eexists [_], [_; _; _; _]. split_and!; [reflexivity|done|done| |].
  - intros u Hu [Hk Hn]. revert Hu Hk Hn. cbn [app]. rewrite !elem_of_cons.
    intros [->|[->|[->|[->|[->|?%not_elem_of_nil]]]]]; done.
  - exact (bool_decide_eq_true_1 (NoDup (map m_name (b_members demo_conn))) eq_refl).
Qed.

Lemma catalog_exact_witness :
  (exists b, listed (c_bits (catalog_of (read_dump demo_dump))) "conn" "closing" b) /\
  (forall w, ~ listed (c_scalars (catalog_of (read_dump demo_dump))) "conn" "closing" w).
Proof.
  assert (Member "closing" 1 33 1 ∈ b_members demo_conn) as Hm by (by right; left).
  destruct (catalog_exact demo_dump demo_conn _ demo_conn_once Hm) as [Hs Hb]. split.
  - exists (Bitfield "u32" 4 1 1). apply Hb. split; [discriminate|]. exists 4. split.
    { rewrite demo_dump_types. split; [by do 2 right; left|].
      exists 0%nat, (BType "INT" "unsigned int" [] (Some 4) None). split; [lia|]. split.
      - apply behind_none; [reflexivity|]. cbn. intros [?|[?|[?|[?|[?|[]]]]]]; discriminate.
      - right. split; [by left|reflexivity]. }
    cbn. split_and!; [reflexivity|reflexivity|by exists 1|reflexivity|lia|lia].
  - intros w H. apply Hs in H as [H _]. discriminate H.
Defined.

(** Two definitions of one name can end up mixed, each table keeping the longer of
    its own rows: here [flag] is a scalar of one definition and a bitfield of the
    other, and is listed as both. *)
Lemma mixed_definitions :
  let ts := [(1, BType "INT" "unsigned int" [] (Some 4) None);
             (2, BType "STRUCT" "s" [Member "flag" 1 0 0; Member "x" 1 32 0] (Some 8) None);
             (3, BType "STRUCT" "s" [Member "flag" 1 0 1] (Some 4) None)] in
  (exists w, listed (c_scalars (catalog_of ts)) "s" "flag" w) /\
  (exists b, listed (c_bits (catalog_of ts)) "s" "flag" b).
Proof. split; eexists _, _; split; vm_compute; reflexivity. Qed.
