(* ===== verification/Trace.v ===== *)
(** * The trace language (substrate/tmmtrace.py)

    A one-line trace expression, the resolution of its values against the index
    of signatures and the catalog of struct fields, the C program generated for
    it, and the histogram of values.  The texts of the index and of the expression
    are ASCII; the catalog is the JSON document read; sha1 is a parameter. *)

From S2P Require Import Prelude PyVal Text Assoc Journal.

Definition quote_char : string := list_str [chr 34].
Definition newline_char (c : ascii) : bool := ord c =? 10.

(** ** [parse] *)

(** [\s*\}\s*$]. *)
Definition closes (l : list ascii) : bool :=
  match lstrip l with
  | c :: t => (ord c =? 125) && match lstrip t with [] => true | _ => false end
  | [] => false
  end.

(** [.*?], up to the first place where the end matches. *)
Fixpoint action_from (l : list ascii) : option (list ascii) :=
  if closes l then Some [] else
  match l with
  | c :: t => if newline_char c then None else option_map (cons c) (action_from t)
  | [] => None
  end.

Definition not_slash (c : ascii) : bool := negb (ord c =? 47).

Definition match_section (l : list ascii) : option (string * list ascii) :=
  match literal (str_list "fentry/") l with
  | Some t => Some ("fentry", t)
  | None => match literal (str_list "fexit/") l with Some t => Some ("fexit", t) | None => None end
  end.

Definition match_pred (l : list ascii) : option (list ascii * list ascii) :=
  match l with
  | c :: t =>
      if ord c =? 47 then
        let '(p, t) := run_of not_slash t in
        match literal [chr 47] t with Some t => Some (p, lstrip t) | None => None end
      else Some ([], l)
  | [] => Some ([], l)
  end.

Definition match_probe (l : list ascii) : option (string * string * list ascii * list ascii) :=
  match match_section (lstrip l) with
  | Some (section, t) =>
      match run1 is_word t with
      | Some (hook, t) =>
          if negb (is_ident hook) then None else
          match match_pred (lstrip t) with
          | Some (pred, t) =>
              match literal ["{"%char] t with
              | Some t => option_map (fun act => (section, list_str hook, pred, act)) (action_from (lstrip t))
              | None => None
              end
          | None => None
          end
      | None => None
      end
  | None => None
  end.

Definition parse (expr : string) : result (string * string * string * string) :=
  match match_probe (str_list expr) with
  | Some (section, hook, pred, act) => Ok (section, hook, str_strip (list_str pred), str_strip (list_str act))
  | None => Err (DslError "expected  <fentry|fexit>/<hook> [/pred/] { <action> }")
  end.

(** ** [hook_params] *)

Record tparam := TParam { q_name : string; q_kind : string; q_struct : option string }.

(** [struct\s+(\w+)\s*\*], anywhere. *)
Definition struct_ptr (detail : list ascii) : option string :=
  search (fun l =>
    match literal (str_list "struct") l with
    | Some t =>
        match blanks1 t with
        | Some t =>
            match run1 is_word t with
            | Some (name, t) => match literal ["*"%char] (lstrip t) with Some _ => Some (list_str name) | None => None end
            | None => None
            end
        | None => None
        end
    | None => None
    end) detail.

Definition trace_param (tok : list ascii) : option tparam :=
  match first_colon tok with
  | Some (name, t) =>
      match first_colon t with
      | Some (kind, detail) => Some (TParam (list_str name) (list_str kind) (struct_ptr detail))
      | None => None
      end
  | None => None
  end.

(** The cache of the file: the last row of a name. *)
Definition sig_line (cache : list (string * string)) (line : list ascii) : list (string * string) :=
  match line with
  | c :: _ =>
      if ord c =? 35 then cache else
      match tab_fields line with
      | name :: _ :: spec :: _ => aset name spec cache
      | _ => cache
      end
  | [] => cache
  end.
Definition sig_cache (text : string) : list (string * string) :=
  fold_left sig_line (file_lines (str_list text) []) [].

(** The fields a program sees, by struct, and the C type of each. *)
Abbreviation fields := (list (string * list (string * string))).

Section trace.
(** signatures.tsv when it can be read, and types.json, [{}] when it cannot. *)
Variable sigs : option string.
Variable types : val.
Variable sha1 : bytes -> string.

Definition hook_params (hook : string) : option (list tparam) :=
  match sigs with
  | None => None
  | Some text =>
      match aget hook (sig_cache text) with
      | None | Some EmptyString => None
      | Some spec => Some (omap trace_param (split_char "|" (str_list spec) []))
      end
  end.

(** ** The catalog *)

(** [v.get(key)]. *)
Definition dget (key : string) (v : val) : result (option val) :=
  match v with VDict d => Ok (get key d) | _ => Err AttributeError end.
(** [v.get(st, {}).get(f)]. *)
Definition lookup2 (st f : string) (v : val) : result (option val) :=
  let? o := dget st v in
  match o with None => Ok None | Some d => dget f d end.
Definition table_of (key : string) : result val := let? o := dget key types in Ok (default (VDict []) o).
Definition ptr_edges : result val := table_of "__ptr_targets__".
Definition embedded_edges : result val := table_of "__embedded__".
Definition bitfields : result val := table_of "__bitfields__".

Definition truthy_opt (o : option val) : option val :=
  match o with Some v => if truthy v then Some v else None | None => None end.

Definition CTYPE : list (string * string) := [("u8", "__u8"); ("u16", "__u16"); ("u32", "__u32"); ("u64", "__u64")].
(** [CTYPE[v]]. *)
Definition ctype (v : val) : result string :=
  match v with
  | VStr s => match aget s CTYPE with Some ct => Ok ct | None => Err (KeyError s) end
  | VList _ | VDict _ => Err TypeError
  | _ => Err (KeyError "")
  end.

(** An item formatted with [%d]. *)
Definition shown_int (key : string) (d : dict) : result unit :=
  let? v := item key d in
  match v with VInt _ | VBool _ => Ok tt | _ => Err TypeError end.

(** [_bitfield_refusal]: whether there is a message. *)
Definition bitfield_refusal (st field : string) : result bool :=
  let? bfs := bitfields in
  let? bf := lookup2 st field bfs in
  match truthy_opt bf with
  | None => Ok false
  | Some (VDict d) =>
      let? _ := shown_int "width" d in let? _ := shown_int "shift" d in
      let? _ := item "unit" d in let? _ := shown_int "byte" d in Ok true
  | Some _ => Err TypeError
  end.

(** ** [resolve_path] *)

Inductive hop_kind := HPtr | HEmbedded | HScalar.
Record hop := Hop { h_struct : string; h_field : string; h_kind : hop_kind; h_extra : string }.

(** A path that is not there: a refusal when it is a bitfield, no chain otherwise. *)
Definition refuse_bitfield (st field : string) : result (option (list hop)) :=
  let? r := bitfield_refusal st field in
  if r : bool then Err (DslError "BITFIELD") else Ok None.

(** The hops of a path from a struct, or none. *)
Fixpoint follow (cur : string) (parts : list string) : result (option (list hop)) :=
  match parts with
  | [] => Ok None
  | [f] =>
      let? ty := lookup2 cur f types in
      match truthy_opt ty with
      | Some ty => let? ct := ctype ty in Ok (Some [Hop cur f HScalar ct])
      | None => refuse_bitfield cur f
      end
  | f :: rest =>
      let? edges := ptr_edges in let? tgt := lookup2 cur f edges in
      let? inner := embedded_edges in let? member := lookup2 cur f inner in
      match truthy_opt tgt, truthy_opt member with
      | Some _, Some _ => Err (DslError "ambiguous pointer/embedded metadata")
      | None, None => refuse_bitfield cur f
      | Some t, None | None, Some t =>
          let kind := match truthy_opt tgt with Some _ => HPtr | None => HEmbedded end in
          match t with
          | VStr next => let? hops := follow next rest in Ok (option_map (cons (Hop cur f kind next)) hops)
          | VList _ | VDict _ => Err TypeError
          | _ => let? bfs := bitfields in let? _ := dget "" bfs in Ok None
          end
      end
  end.

Fixpoint first_chain (starts : list (Z * string)) (parts : list string) : result (option (Z * list hop)) :=
  match starts with
  | [] => Ok None
  | (i, st) :: rest =>
      let? hops := follow st parts in
      match hops with Some hops => Ok (Some (i, hops)) | None => first_chain rest parts end
  end.

Inductive value :=
| Scalar (n : Z)
| Chain (n : Z) (hops : list hop)
| Field (st : string) (n : Z) (field : string) (ty : val).

Definition numbered_params (ps : list tparam) : list (Z * tparam) := zip (range (len ps)) ps.
Definition chosen (argidx : option Z) (i : Z) : bool := match argidx with None => true | Some n => i =? n end.

Definition start_of (argidx : option Z) (ip : Z * tparam) : option (Z * string) :=
  match q_struct ip.2 with
  | Some st => if String.eqb (q_kind ip.2) "blob" && chosen argidx ip.1 then Some (ip.1, st) else None
  | None => None
  end.

Definition resolve_path (hook : string) (argidx : option Z) (parts : list string) : result value :=
  match hook_params hook with
  | None => Err (DslError "no signature")
  | Some params =>
      match omap (start_of argidx) (numbered_params params) with
      | [] => Err (DslError "no struct-typed argument to start from")
      | starts =>
          let? found := first_chain starts parts in
          match found with
          | Some (i, hops) => Ok (Chain i hops)
          | None => Err (DslError "could not resolve path")
          end
      end
  end.

(** ** [resolve_value] *)

(** [arg([0-4])]. *)
Definition match_arg (l : list ascii) : option (Z * list ascii) :=
  match literal (str_list "arg") l with
  | Some (c :: t) => if (48 <=? ord c) && (ord c <=? 52) then Some (ord c - 48, t) else None
  | _ => None
  end.

Definition match_ident (l : list ascii) : option (string * list ascii) :=
  match run1 is_word l with
  | Some (n, t) => if is_ident n then Some (list_str n, t) else None
  | None => None
  end.

(** [_FIELD]: struct(argN).field[:ty]. *)
Definition match_field (l : list ascii) : option value :=
  match match_ident l with
  | Some (st, t) =>
      match literal ["("%char] t with
      | Some t =>
          match match_arg t with
          | Some (n, t) =>
              match literal (str_list ").") t with
              | Some t =>
                  match match_ident t with
                  | Some (field, []) => Some (Field st n field (VStr "u64"))
                  | Some (field, c :: t) =>
                      if (ord c =? 58) && mem_str (list_str t) ["u8"; "u16"; "u32"; "u64"]
                      then Some (Field st n field (VStr (list_str t))) else None
                  | None => None
                  end
              | None => None
              end
          | None => None
          end
      | None => None
      end
  | None => None
  end.

(** [args.a.b.c] and [argN.a.b.c]: the argument named, and the names. *)
Definition match_dotted (l : list ascii) : option (option Z * list string) :=
  match split_char "." l [] with
  | hd :: ((_ :: _) as fs) =>
      if forallb is_ident fs then
        let names := map list_str fs in
        if String.eqb (list_str hd) "args" then Some (None, names)
        else match match_arg hd with Some (n, []) => Some (Some n, names) | _ => None end
      else None
  | _ => None
  end.

(** [name in v]. *)
Definition contained (name : string) (v : val) : result bool :=
  match v with
  | VDict d => Ok (has name d)
  | VStr s => Ok (str_contains name s)
  | VList l => Ok (existsb (val_eqb (VStr name)) l)
  | _ => Err TypeError
  end.

Fixpoint scalar_param (name : string) (n : option Z) (ps : list (Z * tparam)) : option Z :=
  match ps with
  | [] => None
  | (i, p) :: rest =>
      if chosen n i && String.eqb (q_name p) name && mem_str (q_kind p) ["scalar"; "string"] then Some i
      else scalar_param name n rest
  end.

Fixpoint struct_field (name : string) (n : option Z) (ps : list (Z * tparam)) : result (option value) :=
  match ps with
  | [] => Ok None
  | (i, p) :: rest =>
      match (if chosen n i && String.eqb (q_kind p) "blob" then q_struct p else None) with
      | None => struct_field name n rest
      | Some st =>
          let? o := dget st types in
          let fields := default (VDict []) o in
          let? c := contained name fields in
          if negb c then struct_field name n rest else
          match fields with
          | VDict d => let? ty := item name d in Ok (Some (Field st i name ty))
          | _ => Err TypeError
          end
      end
  end.

Fixpoint refuse_bitfields (name : string) (n : option Z) (ps : list (Z * tparam)) : result unit :=
  match ps with
  | [] => Ok tt
  | (i, p) :: rest =>
      match (if chosen n i && String.eqb (q_kind p) "blob" then q_struct p else None) with
      | None => refuse_bitfields name n rest
      | Some st =>
          let? r := bitfield_refusal st name in
          raise_if r (DslError "BITFIELD") ;; refuse_bitfields name n rest
      end
  end.

Definition resolve_name (hook : string) (n : option Z) (name : string) : result value :=
  match hook_params hook with
  | None => Err (DslError "no signature")
  | Some params =>
      let ps := numbered_params params in
      match scalar_param name n ps with
      | Some i => Ok (Scalar i)
      | None =>
          let? found := struct_field name n ps in
          match found with
          | Some v => Ok v
          | None => let? _ := refuse_bitfields name n ps in Err (DslError "could not resolve")
          end
      end
  end.

Definition resolve_value (hook : string) (tok : string) : result value :=
  let l := str_list tok in
  match match_arg l with
  | Some (n, []) => Ok (Scalar n)
  | _ =>
      match match_field l with
      | Some v => Ok v
      | None =>
          match match_dotted l with
          | Some (n, [name]) => resolve_name hook n name
          | Some (n, parts) => resolve_path hook n parts
          | None => Err (DslError "bad value")
          end
      end
  end.

(** ** [_read] *)

(** [reg]: a field the program must see, with one type per field. *)
Definition reg (st field ct : string) (fs : fields) : result fields :=
  let fl := default [] (aget st fs) in
  raise_if (match aget field fl with Some old => negb (String.eqb old ct) | None => false end)
    (DslError "conflicting field types") ;;
  Ok (aset st (aset field ct fl) fs).

(** A variable of the generated program. *)
Definition var (name : string) (k : Z) : string := cat [name; py_str k].
Definition var2 (name : string) (k h : Z) : string := cat [name; py_str k; "_"; py_str h].
Definition argument (n : Z) : string := cat ["c->arg["; py_str n; "]"].

Definition field_type (h : hop) : string :=
  match h_kind h with HPtr => "__u64" | HEmbedded => cat ["struct "; h_extra h] | HScalar => h_extra h end.

(** The lines of the hops from number [h], reading from [src]. *)
Fixpoint read_chain (k h : Z) (src : string) (hops : list hop) (fs : fields) : result (list string * string * fields) :=
  match hops with
  | [] => Err (DslError "chain did not end in a scalar")
  | hp :: rest =>
      let pv := var2 "p" k h in
      let? fs := reg (h_struct hp) (h_field hp) (field_type hp) fs in
      let head := [cat ["    struct "; h_struct hp; " *"; pv; " = (struct "; h_struct hp; " *)("; src; ");"];
                   cat ["    if ("; pv; " == 0) return 0ull;"]] in
      match h_kind hp with
      | HPtr =>
          let hv := var2 "h" k h in
          let lines := [cat ["    __u64 "; hv; " = 0;"];
                        cat ["    if (bpf_probe_read(&"; hv; ", sizeof "; hv; ", &"; pv; "->"; h_field hp; ") != 0 || "; hv; " == 0)"];
                        "        return 0ull;   /* unreadable or NULL hop --- decline */"] in
          let? (more, ex, fs) := read_chain k (h + 1) hv rest fs in
          Ok (head ++ lines ++ more, ex, fs)
      | HEmbedded =>
          let? (more, ex, fs) := read_chain k (h + 1) (cat ["&"; pv; "->"; h_field hp]) rest fs in
          Ok (head ++ more, ex, fs)
      | HScalar =>
          let vv := var "v" k in
          Ok (head ++ [cat ["    "; h_extra hp; " "; vv; " = 0;"];
                       cat ["    if (bpf_probe_read(&"; vv; ", sizeof "; vv; ", &"; pv; "->"; h_field hp; ") != 0)"];
                       "        return 0ull;"], cat ["(__u64)"; vv], fs)
      end
  end.

(** [_read]: the code, the expression, and the fields. *)
Definition read_value (v : value) (k : Z) (fs : fields) : result (string * string * fields) :=
  match v with
  | Scalar n => Ok ("", argument n, fs)
  | Chain n hops =>
      let? (lines, ex, fs) := read_chain k 0 (argument n) hops fs in
      Ok (cat [String.concat newline lines; newline], ex, fs)
  | Field st n field ty =>
      let? ct := ctype ty in
      let? fs := reg st field ct fs in
      let p := var "p" k in
      let vv := var "v" k in
      Ok (cat ["    struct "; st; " *"; p; " = (struct "; st; " *)"; argument n; ";"; newline;
               "    "; ct; " "; vv; " = 0;"; newline;
               "    if (bpf_probe_read(&"; vv; ", sizeof "; vv; ", &"; p; "->"; field; ") != 0)"; newline;
               "        return 0ull;"; newline], cat ["(__u64)"; vv], fs)
  end.

(** ** [codegen] *)

Record gen := Gen { g_fields : fields; g_code : list string; g_k : Z }.

Definition take (hook tok : string) (g : gen) : result (string * gen) :=
  let? v := resolve_value hook tok in
  let? (code, ex, fs) := read_value v (g_k g) (g_fields g) in
  Ok (ex, Gen fs (match code with EmptyString => g_code g | _ => g_code g ++ [code] end) (g_k g + 1)).

(** [re.split(r"\|\||&&", pred)]. *)
Fixpoint split_ops (l word : list ascii) : list (list ascii) :=
  match l with
  | [] => [word]
  | x :: t =>
      match t with
      | y :: t' => if ((ord x =? 124) && (ord y =? 124)) || ((ord x =? 38) && (ord y =? 38))
                   then word :: split_ops t' [] else split_ops t (word ++ [x])
      | [] => [word ++ [x]]
      end
  end.

(** An operator and an integer at the end, the operators in the order they are tried. *)
Fixpoint first_op (ops : list string) (l : list ascii) : option (string * string) :=
  match ops with
  | [] => None
  | op :: rest =>
      match literal (str_list op) l with
      | Some t =>
          let t := lstrip t in
          let ds := match t with c :: t' => if ord c =? 45 then t' else t | [] => [] end in
          match run1 is_digit ds with
          | Some (_, []) => Some (op, list_str t)
          | _ => first_op rest l
          end
      | None => first_op rest l
      end
  end.
Definition OPS : list string := ["=="; "!="; "<="; ">="; "<"; ">"].

(** [_PRED]: the shortest left side, at least one character. *)
Fixpoint term_from (pre l : list ascii) : option (string * string * string) :=
  match match pre with [] => None | _ => first_op OPS (lstrip l) end with
  | Some (op, rhs) => Some (str_strip (list_str pre), op, rhs)
  | None => match l with
            | c :: t => if newline_char c then None else term_from (pre ++ [c]) t
            | [] => None
            end
  end.

Fixpoint take_terms (hook : string) (terms : list string) (g : gen) : result (list string * gen) :=
  match terms with
  | [] => Ok ([], g)
  | t :: rest =>
      match term_from [] (str_list t) with
      | None => Err (DslError "predicate term must be  <value> <op> <int>")
      | Some (lhs, op, rhs) =>
          let? (ex, g) := take hook lhs g in
          let? (parts, g) := take_terms hook rest g in
          Ok (cat [ex; " "; op; " "; rhs] :: parts, g)
      end
  end.

Definition predicate_terms (pred : string) : result (string * list string) :=
  let has_and := str_contains "&&" pred in
  let has_or := str_contains "||" pred in
  raise_if (has_and && has_or) (DslError "predicate mixes '&&' and '||'") ;;
  let terms := List.filter (fun t => negb (String.eqb t ""))
                 (map (fun t => str_strip (list_str t)) (split_ops (str_list pred) [])) in
  raise_if (match terms with [] => true | _ => false end) (DslError "empty predicate") ;;
  Ok (if has_or then "||" else "&&", terms).

Definition joined_condition (join : string) (parts : list string) : string :=
  match parts with
  | [one] => one
  | _ => String.concat (cat [" "; join; " "]) (map (fun x => cat ["("; x; ")"]) parts)
  end.

Definition take_pred (hook pred : string) (g : gen) : result (option string * gen) :=
  if String.eqb pred "" then Ok (None, g) else
  let? (join, terms) := predicate_terms pred in
  let? (parts, g) := take_terms hook terms g in
  Ok (Some (joined_condition join parts), g).

(** What follows a leading [@name =], when there is one. *)
Definition skip_name (l : list ascii) : list ascii :=
  match literal ["@"%char] l with
  | Some t =>
      match run1 is_word t with
      | Some (_, t) => match literal ["="%char] (lstrip t) with Some t => lstrip t | None => l end
      | None => l
      end
  | None => l
  end.
Definition is_count (action : string) : bool :=
  mem_str (list_str (skip_name (str_list action))) ["count"; "count()"].

(** The text between [name(] and the last parenthesis, not empty. *)
Definition between (name : string) (l : list ascii) : option string :=
  match literal (str_list name) l with
  | Some t =>
      match reverse t with
      | c :: ((_ :: _) as inner) => if ord c =? 41 then Some (str_strip (list_str (reverse inner))) else None
      | _ => None
      end
  | None => None
  end.
Definition match_hist (action : string) : option string := between "hist(" (skip_name (str_list action)).
Definition match_shield (action : string) : option string := between "shield(" (str_list action).

(** The read that only makes the object carry a relocation. *)
Fixpoint canary (ps : list (Z * tparam)) (g : gen) : result gen :=
  match ps with
  | [] => Ok g
  | (i, p) :: rest =>
      match (if String.eqb (q_kind p) "blob" then q_struct p else None) with
      | None => canary rest g
      | Some st =>
          let? o := dget st types in
          match truthy_opt o with
          | None => canary rest g
          | Some (VDict ((fld, ty) :: _)) =>
              let? ct := ctype ty in
              let? fs := reg st fld ct (g_fields g) in
              Ok (Gen fs (g_code g ++
                [cat ["    struct "; st; " *pc = (struct "; st; " *)"; argument i; ";"; newline;
                      "    "; ct; " vc = 0;"; newline;
                      "    (void)bpf_probe_read(&vc, sizeof vc, &pc->"; fld; ");  /* canary: relocation only */"; newline]])
                (g_k g))
          | Some _ => Err TypeError
          end
      end
  end.

(** [_ident]. *)
Definition strip_underscores (l : list ascii) : list ascii :=
  let front := fix go l := match l with c :: t => if ord c =? 95 then go t else l | [] => [] end in
  reverse (front (reverse (front l))).
Definition program_name (expr hook action : string) : string :=
  let tag := list_str (strip_underscores (firstn 12
    (map (fun c => if is_word c then c else "_"%char) (str_list action)))) in
  cat ["tt_"; hook; "_"; if String.eqb tag "" then "probe" else tag; "_";
       list_str (firstn 6 (str_list (sha1 (encode expr))))].

(** [emit]: the declaration of a struct after those of the structs in it. *)
Record emission := Emission { e_lines : list (string * string); e_done : list string }.

Definition embedded_of (ct : string) : option string :=
  if starts_with "struct " ct then Some (list_str (drop 7 (str_list ct))) else None.

Definition field_le (a b : string * string) : Prop := String.le a.1 b.1.
#[export] Instance field_le_dec a b : Decision (field_le a b).
Proof. unfold field_le. apply _. Defined.

Definition declaration (st : string) (fl : list (string * string)) : string :=
  cat ["struct "; st; " { ";
       String.concat " " (map (fun fc : string * string => cat [fc.2; " "; fc.1; ";"]) (merge_sort field_le fl));
       " } __attribute__((preserve_access_index));"].

Fixpoint emit (fuel : nat) (fs : fields) (visiting : list string) (st : string) (em : emission) : result emission :=
  match fuel with
  | O => Err OutOfFuel
  | S fuel =>
      if mem_str st (e_done em) then Ok em else
      match aget st fs with
      | None => Err (DslError "incomplete or cyclic embedded struct metadata")
      | Some fl =>
          raise_if (mem_str st visiting) (DslError "incomplete or cyclic embedded struct metadata") ;;
          let? em := fold_left (fun acc ct => let? em := acc in
              match embedded_of ct with Some inner => emit fuel fs (st :: visiting) inner em | None => Ok em end)
            (map snd fl) (Ok em) in
          Ok (Emission (e_lines em ++ [(st, declaration st fl)]) (e_done em ++ [st]))
      end
  end.

Definition emit_all (fs : fields) : result emission :=
  fold_left (fun acc st => let? em := acc in emit (S (length fs)) fs [] st em)
    (merge_sort String.le (keys fs)) (Ok (Emission [] [])).

Definition head_text (expr : string) : list string :=
  [cat ["/* generated by tmmtrace from:  "; expr; " */"];
   "typedef unsigned char __u8; typedef unsigned short __u16;";
   "typedef unsigned int __u32; typedef unsigned long long __u64;";
   "static long (*bpf_probe_read)(void *, __u32, const void *) = (void *)4;"].

Definition context (section : string) : string :=
  if String.eqb section "fexit" then "ls_ctx_exit" else "ls_ctx_generic".
Definition context_definition (section : string) : string :=
  if String.eqb section "fexit" then "struct ls_ctx_exit { __u64 arg[5]; __u64 ret; };"
  else "struct ls_ctx_generic { __u64 arg[5]; };".

(** The return statement, and the state after what it reads. *)
Definition take_action (hook action : string) (cond : option string) (g : gen) : result (string * gen) :=
  let is_shield := match match_shield action with Some _ => true | None => false end in
  if is_count action || is_shield then
    raise_if (is_shield && match cond with None => true | Some _ => false end) (DslError "shield(...) needs a predicate") ;;
    let? g := match g_code g with
              | [] => canary (numbered_params (default [] (hook_params hook))) g
              | _ => Ok g
              end in
    Ok (match cond with
        | Some c =>
            if is_shield then
              cat ["    return ("; c; ") ? 1ull : 0ull;   /* MATCH -> SAFE_RETURN; under ENFORCE the host ";
                   "skips the body and returns the arm-time safe value */"]
            else cat ["    return ("; c; ") ? 1ull : 0ull;   /* SAFE_RETURN on match; safe_returns = count */"]
        | None => "    return 1ull;                 /* count every invocation (safe_returns) */"
        end, g)
  else
    let? (ex, g) := take hook (default action (match_hist action)) g in
    Ok (match cond with
        | Some c => cat ["    if (!("; c; ")) return 0ull;"; newline; "    return "; ex; ";   /* value; host samples it */"]
        | None => cat ["    return "; ex; ";                 /* value; host samples it */"]
        end, g).

(** The text, the function, the section and the hook. *)
Definition codegen (expr : string) : result (string * string * string * string) :=
  let? (section, hook, pred, action) := parse expr in
  let fn := program_name expr hook action in
  let? (cond, g) := take_pred hook pred (Gen [] [] 0) in
  let? (ret, g) := take_action hook action cond g in
  let? em := emit_all (g_fields g) in
  Ok (String.concat newline
        (head_text expr ++ map snd (e_lines em) ++
         [context_definition section; "";
          cat ["__attribute__((section("; quote_char; section; "/"; hook; quote_char; "), used))"];
          cat ["__u64 "; fn; "(struct "; context section; " *c)"]; "{"] ++ g_code g ++ [ret; "}"; ""]),
      fn, section, hook).

(** [build_prog]: what the sidecar file says of the program. *)
Definition program_kind (action : string) : string :=
  match match_shield action with
  | Some _ => "shield"
  | None => if is_count action then "count" else "value"
  end.
End trace.
