(* ===== verification/TraceSem.v ===== *)
(** * What a generated program computes

    The statements the generator writes, as a small language with the meaning C
    and [bpf_probe_read] give them, and the meaning of a trace expression: its
    values found by walking the memory of the process, its predicate, its action.
    The text generated is the text of a program of that language, and the program
    computes what the expression says. *)

From S2P Require Import Prelude PyVal Text Assoc Trace.

(** ** The language *)

Inductive cvar := VPtr (k h : Z) | VHop (k h : Z) | VVal (k : Z) | VBase (k : Z).
#[export] Instance cvar_eq_dec : EqDecision cvar.
Proof. solve_decision. Defined.

Definition var_name (x : cvar) : string :=
  match x with
  | VPtr k h => var2 "p" k h | VHop k h => var2 "h" k h | VVal k => var "v" k | VBase k => var "p" k
  end.
Definition block_of_var (x : cvar) : Z :=
  match x with VPtr k _ | VHop k _ | VVal k | VBase k => k end.

Inductive cexpr := EArg (n : Z) | EVar (x : cvar) | EAddr (p : cvar) (st f : string) | EValue (x : cvar).

Inductive stmt :=
| DeclPtr (st : string) (x : cvar) (e : cexpr) (paren : bool)
| NullCheck (x : cvar)
| DeclInt (ct : string) (x : cvar)
| Probe (x p : cvar) (st f : string) (nonzero : bool)
| CanaryRead (st : string) (n : Z) (ct f : string).

Definition term : Type := cexpr * string * string.

Inductive return_ :=
| RMatch (join : string) (ts : list term) (shield : bool)
| ROne
| RValue (cond : option (string * list term)) (e : cexpr).

(** Texts. *)
Definition expr_text (e : cexpr) : string :=
  match e with
  | EArg n => argument n
  | EVar x => var_name x
  | EAddr p st f => cat ["&"; var_name p; "->"; f]
  | EValue x => cat ["(__u64)"; var_name x]
  end.

Definition stmt_lines (s : stmt) : list string :=
  match s with
  | DeclPtr st x e paren =>
      [cat ["    struct "; st; " *"; var_name x; " = (struct "; st; " *)";
            if paren then cat ["("; expr_text e; ")"] else expr_text e; ";"]]
  | NullCheck x => [cat ["    if ("; var_name x; " == 0) return 0ull;"]]
  | DeclInt ct x => [cat ["    "; ct; " "; var_name x; " = 0;"]]
  | Probe x p st f nonzero =>
      [cat ["    if (bpf_probe_read(&"; var_name x; ", sizeof "; var_name x; ", &"; var_name p; "->"; f; ") != 0";
            if nonzero then cat [" || "; var_name x; " == 0)"] else ")"];
       if nonzero then "        return 0ull;   /* unreadable or NULL hop --- decline */" else "        return 0ull;"]
  | CanaryRead st n ct f =>
      [cat ["    struct "; st; " *pc = (struct "; st; " *)"; argument n; ";"];
       cat ["    "; ct; " vc = 0;"];
       cat ["    (void)bpf_probe_read(&vc, sizeof vc, &pc->"; f; ");  /* canary: relocation only */"]]
  end.

(** A block of statements: its lines, each ended. *)
Definition block_text (b : list stmt) : string := cat [String.concat newline (concat (map stmt_lines b)); newline].

Definition term_text (t : term) : string := let '(e, op, rhs) := t in cat [expr_text e; " "; op; " "; rhs].
Definition cond_text (c : string * list term) : string := joined_condition c.1 (map term_text c.2).

Definition return_text (r : return_) : string :=
  match r with
  | RMatch join ts true =>
      cat ["    return ("; cond_text (join, ts); ") ? 1ull : 0ull;   /* MATCH -> SAFE_RETURN; under ENFORCE the host ";
           "skips the body and returns the arm-time safe value */"]
  | RMatch join ts false =>
      cat ["    return ("; cond_text (join, ts); ") ? 1ull : 0ull;   /* SAFE_RETURN on match; safe_returns = count */"]
  | ROne => "    return 1ull;                 /* count every invocation (safe_returns) */"
  | RValue (Some c) e =>
      cat ["    if (!("; cond_text c; ")) return 0ull;"; newline; "    return "; expr_text e; ";   /* value; host samples it */"]
  | RValue None e => cat ["    return "; expr_text e; ";                 /* value; host samples it */"]
  end.

(** ** Its meaning

    The five words of the context, the memory [bpf_probe_read] can read, by address
    and size, and the offsets the relocator puts in. *)
Definition size_of_ctype (ct : string) : Z := default 8 (aget ct [("__u8", 1); ("__u16", 2); ("__u32", 4); ("__u64", 8)]).

Definition word (z : Z) : Z := z mod 2 ^ 64.

(** The sign and the digits of an integer. *)
Definition digits_of (rhs : string) : bool * list ascii :=
  match str_list rhs with
  | c :: t => if ord c =? 45 then (true, t) else (false, c :: t)
  | [] => (false, [])
  end.
Definition signed (s : bool) (z : Z) : Z := if s then - z else z.

(** The integer the expression names, and the one C reads there: a literal that
    starts with 0 is octal. *)
Definition integer_value (rhs : string) : Z := let '(s, ds) := digits_of rhs in signed s (dec_value ds).
Definition octal_value (l : list ascii) : Z := foldl (fun a c => a * 8 + (ord c - 48)) 0 l.
Definition c_digits (ds : list ascii) : Z :=
  match ds with
  | c :: _ :: _ => if ord c =? 48 then octal_value ds else dec_value ds
  | _ => dec_value ds
  end.
Definition c_literal (rhs : string) : Z := let '(s, ds) := digits_of rhs in signed s (c_digits ds).
Definition plain_literal (rhs : string) : bool :=
  match (digits_of rhs).2 with c :: _ :: _ => negb (ord c =? 48) | _ => true end.

(** A comparison whose left side is a 64-bit unsigned value: the right side is
    converted to one. *)
Definition compare (op : string) (a b : Z) : bool :=
  if String.eqb op "==" then a =? b else if String.eqb op "!=" then negb (a =? b)
  else if String.eqb op "<=" then a <=? b else if String.eqb op ">=" then b <=? a
  else if String.eqb op "<" then a <? b else b <? a.

(** A word of the context; there is none outside it. *)
Definition word_at (ctx : list Z) (n : Z) : option Z := if n <? 0 then None else ctx !! Z.to_nat n.

(** The words of the context that a program names. *)
Definition expr_args (x : cexpr) : list Z := match x with EArg n => [n] | _ => [] end.
Definition stmt_args (s : stmt) : list Z :=
  match s with DeclPtr _ _ e _ => expr_args e | CanaryRead _ n _ _ => [n] | _ => [] end.
Definition terms_args (ts : list term) : list Z := concat (map (fun t : term => expr_args t.1.1) ts).
Definition return_args (r : return_) : list Z :=
  match r with
  | RMatch _ ts _ => terms_args ts
  | ROne => []
  | RValue (Some c) e => terms_args c.2 ++ expr_args e
  | RValue None e => expr_args e
  end.
Definition program_args (b : list stmt) (r : return_) : list Z := concat (map stmt_args b) ++ return_args r.

Section meaning.
Variable args : Z -> Z.
Variable mem : Z -> Z -> option Z.
Variable off : string -> string -> Z.

Abbreviation env := (list (cvar * (string * Z))).

Definition value_in (e : env) (x : cvar) : Z := match aget x e with Some tv => tv.2 | None => 0 end.
Definition type_in (e : env) (x : cvar) : string := match aget x e with Some tv => tv.1 | None => "__u64" end.
Definition member_address (a : Z) (st f : string) : Z := word (a + off st f).

Definition eval (e : env) (x : cexpr) : Z :=
  match x with
  | EArg n => args n
  | EVar x | EValue x => value_in e x
  | EAddr p st f => member_address (value_in e p) st f
  end.

(** A statement: the variables after it, or nothing when the program returned 0. *)
Definition exec (e : env) (s : stmt) : option env :=
  match s with
  | DeclPtr st x ex _ => Some ((x, ("__u64", eval e ex)) :: e)
  | NullCheck x => if value_in e x =? 0 then None else Some e
  | DeclInt ct x => Some ((x, (ct, 0)) :: e)
  | Probe x p st f nonzero =>
      match mem (member_address (value_in e p) st f) (size_of_ctype (type_in e x)) with
      | Some v => if nonzero && (v =? 0) then None else Some ((x, (type_in e x, v)) :: e)
      | None => None
      end
  | CanaryRead _ _ _ _ => Some e
  end.

Fixpoint exec_all (e : env) (b : list stmt) : option env :=
  match b with
  | [] => Some e
  | s :: rest => match exec e s with Some e => exec_all e rest | None => None end
  end.

Definition holds (e : env) (t : term) : bool := let '(ex, op, rhs) := t in compare op (eval e ex) (word (c_literal rhs)).
Definition cond_holds (e : env) (c : string * list term) : bool :=
  if String.eqb c.1 "||" then existsb (holds e) c.2 else forallb (holds e) c.2.

Definition returned (e : env) (r : return_) : Z :=
  match r with
  | RMatch join ts _ => if cond_holds e (join, ts) then 1 else 0
  | ROne => 1
  | RValue (Some c) ex => if cond_holds e c then eval e ex else 0
  | RValue None ex => eval e ex
  end.

Definition run_words (b : list stmt) (r : return_) : Z :=
  match exec_all [] b with Some e => returned e r | None => 0 end.
End meaning.

(** A program on a context.  One that names a word outside it, as [c->arg[5]], has
    no meaning: what it would read there is not an argument of the call. *)
Definition run (ctx : list Z) (mem : Z -> Z -> option Z) (off : string -> string -> Z) (b : list stmt) (r : return_)
    : option Z :=
  if forallb (fun n => bool_decide (is_Some (word_at ctx n))) (program_args b r)
  then Some (run_words (fun n => default 0 (word_at ctx n)) mem off b r) else None.

(** ** What an expression means

    A value is found by walking from an argument: through a pointer that is read
    and not null, into an embedded struct, to a scalar of its own width. *)
Section expression.
Variable arg : Z -> option Z.
Variable mem : Z -> Z -> option Z.
Variable off : string -> string -> Z.

Fixpoint walk (a : Z) (hops : list hop) : option Z :=
  match hops with
  | [] => None
  | hp :: rest =>
      if a =? 0 then None else
      let m := member_address off a (h_struct hp) (h_field hp) in
      match h_kind hp with
      | HPtr => match mem m 8 with Some v => if v =? 0 then None else walk v rest | None => None end
      | HEmbedded => walk m rest
      | HScalar => mem m (size_of_ctype (h_extra hp))
      end
  end.

Definition width_of (ty : val) : Z := match ctype ty with Ok ct => size_of_ctype ct | Err _ => 0 end.

Definition meaning_of (v : value) : option Z :=
  match v with
  | Scalar n => arg n
  | Chain n hops => match arg n with Some a => walk a hops | None => None end
  | Field st n f ty => match arg n with Some a => mem (member_address off a st f) (width_of ty) | None => None end
  end.

(** The argument a value is found from. *)
Definition value_arg (v : value) : Z := match v with Scalar n | Chain n _ | Field _ n _ _ => n end.

(** A resolved expression: the terms of its predicate and its action. *)
Inductive doing := Matching (shield : bool) | Reading (v : value).
Record plan := Plan { pl_pred : option (bool * list (value * string * string)); pl_doing : doing }.

Fixpoint all_values (vs : list value) : option (list Z) :=
  match vs with
  | [] => Some []
  | v :: t => match meaning_of v, all_values t with Some z, Some zs => Some (z :: zs) | _, _ => None end
  end.

Definition term_holds (t : value * string * string) : bool :=
  let '(v, op, rhs) := t in match meaning_of v with Some z => compare op z (word (integer_value rhs)) | None => false end.

Definition pred_holds (p : option (bool * list (value * string * string))) : bool :=
  match p with
  | None => true
  | Some (is_or, ts) => if is_or : bool then existsb term_holds ts else forallb term_holds ts
  end.

Definition plan_values (p : plan) : list value :=
  match pl_pred p with Some (_, ts) => map (fun t => t.1.1) ts | None => [] end ++
  match pl_doing p with Reading v => [v] | Matching _ => [] end.

Definition plan_args (p : plan) : list Z := map value_arg (plan_values p).

(** 0 when some value cannot be read, whatever the predicate; else what the action
    says when the predicate holds, and 0 when it does not. *)
Definition plan_meaning (p : plan) : Z :=
  match all_values (plan_values p) with
  | None => 0
  | Some _ =>
      if pred_holds (pl_pred p) then
        match pl_doing p with Matching _ => 1 | Reading v => default 0 (meaning_of v) end
      else 0
  end.
End expression.
