(* ===== verification/TraceSound.v ===== *)
(** * Generated programs compute what the expression says *)

From S2P Require Import Prelude PyVal Text Assoc Trace TraceSem.

(** ** The resolved expression *)

Section plan.
Variable sigs : option string.
Variable types : val.

Definition resolve_term (hook : string) (t : string) : result (value * string * string) :=
  match term_from [] (str_list t) with
  | None => Err (DslError "predicate term must be  <value> <op> <int>")
  | Some (lhs, op, rhs) => let? v := resolve_value sigs types hook lhs in Ok (v, op, rhs)
  end.

Definition resolve_pred (hook pred : string) : result (option (bool * list (value * string * string))) :=
  if String.eqb pred "" then Ok None else
  let? (join, terms) := predicate_terms pred in
  let? ts := mapM_r (resolve_term hook) terms in
  Ok (Some (String.eqb join "||", ts)).

Definition resolve_action (hook action : string) : result doing :=
  let is_shield := match match_shield action with Some _ => true | None => false end in
  if is_count action || is_shield then Ok (Matching is_shield)
  else let? v := resolve_value sigs types hook (default action (match_hist action)) in Ok (Reading v).

Definition plan_of (expr : string) : result plan :=
  let? (_, hook, pred, action) := parse expr in
  let? p := resolve_pred hook pred in
  let? d := resolve_action hook action in
  Ok (Plan p d).
End plan.

(** ** Texts *)

Lemma str_list_app a b : str_list (String.append a b) = str_list a ++ str_list b.
Proof. induction a as [|c a IH]; [done|]. change (str_list (String.append (String c a) b)) with (c :: str_list (String.append a b)). by rewrite IH. Qed.

Lemma str_list_concat sep x y l :
  str_list (String.concat sep (x :: y :: l)) = str_list x ++ str_list sep ++ str_list (String.concat sep (y :: l)).
Proof. change (String.concat sep (x :: y :: l)) with (String.append x (String.append sep (String.concat sep (y :: l)))). by rewrite !str_list_app. Qed.

Lemma str_list_concat1 sep x : str_list (String.concat sep [x]) = str_list x.
Proof. done. Qed.

(** Texts that are the same characters; lists of such texts. *)
Ltac str_eq :=
  apply str_list_inj;
  repeat (first [rewrite str_list_cat | rewrite str_list_concat1 | rewrite str_list_concat]; cbn [map concat]);
  rewrite ?app_nil_r, ?app_nil_l, <- ?app_assoc; try reflexivity.
Ltac lines_eq := repeat lazymatch goal with |- _ :: _ = _ :: _ => apply f_equal2; [by str_eq|] end; try reflexivity.

Lemma block_text_nonempty s b : block_text (s :: b) <> "".
Proof.
  intros H. apply (f_equal (fun s => length (str_list s))) in H. unfold block_text in H.
  rewrite str_list_cat in H. cbn [map concat] in H. rewrite !length_app in H. change (str_list newline) with [chr 10] in H.
  cbn [length str_list] in H. lia.
Qed.

(** ** One value *)

Fixpoint chain_block (k h : Z) (src : cexpr) (hops : list hop) : list stmt * cexpr :=
  match hops with
  | [] => ([], src)
  | hp :: rest =>
      let p := VPtr k h in
      let st := h_struct hp in
      let f := h_field hp in
      let head := [DeclPtr st p src true; NullCheck p] in
      match h_kind hp with
      | HPtr =>
          let '(b, e) := chain_block k (h + 1) (EVar (VHop k h)) rest in
          (head ++ [DeclInt "__u64" (VHop k h); Probe (VHop k h) p st f true] ++ b, e)
      | HEmbedded => let '(b, e) := chain_block k (h + 1) (EAddr p st f) rest in (head ++ b, e)
      | HScalar => (head ++ [DeclInt (h_extra hp) (VVal k); Probe (VVal k) p st f false], EValue (VVal k))
      end
  end.

Definition value_block (k : Z) (v : value) : list stmt * cexpr :=
  match v with
  | Scalar n => ([], EArg n)
  | Chain n hops => chain_block k 0 (EArg n) hops
  | Field st n f ty =>
      ([DeclPtr st (VBase k) (EArg n) false; DeclInt (match ctype ty with Ok ct => ct | Err _ => "" end) (VVal k);
        Probe (VVal k) (VBase k) st f false], EValue (VVal k))
  end.

Lemma read_chain_text k hops : forall h src fs lines ex fs',
  read_chain k h (expr_text src) hops fs = Ok (lines, ex, fs') ->
  let '(b, e) := chain_block k h src hops in lines = concat (map stmt_lines b) /\ ex = expr_text e /\ b <> [].
Proof.
  induction hops as [|hp rest IH]; intros h src fs lines ex fs'; cbn [read_chain chain_block]; [done|].
  destruct (reg _ _ _ fs) as [fs1|]; [|done]. destruct (h_kind hp).
  - change (var2 "h" k h) with (expr_text (EVar (VHop k h))). destruct (read_chain _ _ _ rest fs1) as [[[more e] fs2]|] eqn:Hr; [|done].
    intros [= <- <- <-]. apply IH in Hr. destruct (chain_block k (h + 1) _ rest) as [b e']. destruct Hr as (-> & -> & _).
    split_and!; [|done|done]. cbn [app map stmt_lines concat var_name]. lines_eq.
  - change (cat ["&"; var2 "p" k h; "->"; h_field hp]) with (expr_text (EAddr (VPtr k h) (h_struct hp) (h_field hp))).
    destruct (read_chain _ _ _ rest fs1) as [[[more e] fs2]|] eqn:Hr; [|done].
    intros [= <- <- <-]. apply IH in Hr. destruct (chain_block k (h + 1) _ rest) as [b e']. destruct Hr as (-> & -> & _).
    split_and!; [|done|done]. cbn [app map stmt_lines concat var_name]. lines_eq.
  - intros [= <- <- <-]. split_and!; [|done|done]. cbn [app map stmt_lines concat var_name]. lines_eq.
Qed.

(** A chain that ends in a scalar, as every chain that can be read does. *)
Fixpoint ends_in_scalar (hops : list hop) : bool :=
  match hops with [] => false | hp :: rest => match h_kind hp with HScalar => true | _ => ends_in_scalar rest end end.

Lemma read_chain_ends k hops : forall h src fs r, read_chain k h src hops fs = Ok r -> ends_in_scalar hops = true.
Proof.
  induction hops as [|hp rest IH]; intros h src fs r; cbn [read_chain ends_in_scalar]; [done|].
  destruct (reg _ _ _ fs) as [fs1|]; [|done].
  destruct (h_kind hp); [..|done]; destruct (read_chain _ _ _ rest fs1) eqn:H; [|done| |done]; intros _; by eapply IH.
Qed.

(** The block of a value, as the code the generator keeps. *)
Definition code_of (b : list stmt) : list string := match b with [] => [] | _ => [block_text b] end.

Lemma read_value_text v k fs code ex fs' : read_value v k fs = Ok (code, ex, fs') ->
  let '(b, e) := value_block k v in
  ex = expr_text e /\ match code with EmptyString => [] | _ => [code] end = code_of b.
Proof.
  assert (forall code s b, code = block_text (s :: b) ->
    match code with EmptyString => [] | _ => [code] end = [block_text (s :: b)]) as Hne.
  { intros c s b ->. pose proof (block_text_nonempty s b). by destruct (block_text (s :: b)). }
  destruct v as [n|n hops|st n f ty]; cbn [read_value value_block].
  - by intros [= <- <- _].
  - change (argument n) with (expr_text (EArg n)). destruct (read_chain _ _ _ _ _) as [[[lines e] fs1]|] eqn:H; [|done].
    intros Heq. injection Heq as <- <- <-. apply read_chain_text in H.
    destruct (chain_block k 0 (EArg n) hops) as [b e']. destruct H as (-> & -> & Hb). split; [done|]. destruct b as [|s b]; [done|]. by apply Hne.
  - destruct (ctype ty) as [ct|]; [|done]. destruct (reg _ _ _ fs) as [fs1|]; [|done]. intros H.
    injection H as Hc <- <-. split; [done|]. rewrite <- Hc. apply Hne. unfold block_text. cbn [map stmt_lines concat app].
    str_eq.
Qed.

Section sound.
Variable args : Z -> Z.
Variable mem : Z -> Z -> option Z.
Variable off : string -> string -> Z.

Abbreviation env := (list (cvar * (string * Z))).
Abbreviation known := (fun n : Z => Some (args n)).

Lemma exec_all_app e b1 b2 : exec_all args mem off e (b1 ++ b2) =
  match exec_all args mem off e b1 with Some e' => exec_all args mem off e' b2 | None => None end.
Proof.
  revert e. induction b1 as [|s b1 IH]; intros e; [done|]. cbn [app exec_all].
  destruct (exec args mem off e s); [apply IH|done].
Qed.

(** Two environments that agree but on the variables of block [k] and later. *)
Definition agree (k : Z) (e e' : env) : Prop := forall x, block_of_var x < k -> aget x e' = aget x e.

Lemma agree_refl k e : agree k e e.
Proof. done. Qed.
Lemma agree_trans k k' e e1 e2 : k <= k' -> agree k e e1 -> agree k' e1 e2 -> agree k e e2.
Proof. intros Hk H1 H2 x Hx. rewrite H2, H1; [done..|lia]. Qed.
Lemma agree_push k e e' x tv : k <= block_of_var x -> agree k e e' -> agree k e ((x, tv) :: e').
Proof. intros Hk H y Hy. cbn [aget]. rewrite decide_False by (intros ->; lia). by apply H. Qed.

(** The variables of an expression belong to one block. *)
Definition expr_in (k : Z) (ex : cexpr) : Prop :=
  match ex with EArg _ => True | EVar x | EAddr x _ _ | EValue x => block_of_var x = k end.

Lemma eval_agree k k' e e' ex : expr_in k ex -> k < k' -> agree k' e e' -> eval args off e' ex = eval args off e ex.
Proof. intros Hx Hk H. destruct ex; cbn [eval expr_in] in *; unfold value_in; rewrite ?H by lia; done. Qed.

(** What running the block of a value does. *)
Definition computes (k : Z) (e : env) (o : option Z) (b : list stmt) (ex : cexpr) : Prop :=
  match o with
  | None => exec_all args mem off e b = None
  | Some z => exists e', exec_all args mem off e b = Some e' /\ eval args off e' ex = z /\ agree k e e'
  end.

Lemma computes_step k e e1 o s b ex : exec args mem off e s = Some e1 -> agree k e e1 ->
  computes k e1 o b ex -> computes k e o (s :: b) ex.
Proof.
  unfold computes. intros Hs Ha. cbn [exec_all]. rewrite Hs. destruct o; [|done].
  intros (e' & He & Hz & Ha'). exists e'. split_and!; [done..|]. by eapply agree_trans.
Qed.

Lemma computes_stop k e s b ex : exec args mem off e s = None -> computes k e None (s :: b) ex.
Proof. unfold computes. intros Hs. cbn [exec_all]. by rewrite Hs. Qed.

Lemma value_here e x tv : value_in ((x, tv) :: e) x = tv.2.
Proof. unfold value_in. cbn [aget]. by rewrite decide_True. Qed.
Lemma value_there e x y tv : x <> y -> value_in ((y, tv) :: e) x = value_in e x.
Proof. intros H. unfold value_in. cbn [aget]. by rewrite decide_False. Qed.
Lemma type_here e x tv : type_in ((x, tv) :: e) x = tv.1.
Proof. unfold type_in. cbn [aget]. by rewrite decide_True. Qed.

Ltac agrees := repeat first [by apply agree_refl | apply agree_push; [cbn [block_of_var]; lia|]].
Ltac env_step := eapply computes_step; [reflexivity|by agrees|].

Lemma chain_computes k hops : forall h src e, ends_in_scalar hops = true ->
  computes k e (walk mem off (eval args off e src) hops) (chain_block k h src hops).1 (chain_block k h src hops).2.
Proof.
  induction hops as [|hp rest IH]; intros h src e; cbn [ends_in_scalar]; [done|]. intros Hends. cbn [walk chain_block].
  set (a := eval args off e src). set (m := member_address off a (h_struct hp) (h_field hp)).
  assert (forall b ex o, (a <> 0 -> computes k ((VPtr k h, ("__u64", a)) :: e) o b ex) ->
    computes k e (if a =? 0 then None else o)
      (DeclPtr (h_struct hp) (VPtr k h) src true :: NullCheck (VPtr k h) :: b) ex) as Hhead.
  { intros b ex o H. destruct (Z.eqb_spec a 0) as [Ha|Ha].
    - env_step. apply computes_stop. cbn [exec]. rewrite value_here. cbn [snd]. fold a. by rewrite Ha.
    - env_step. eapply computes_step; [|apply agree_refl|by apply H]. cbn [exec]. rewrite value_here. cbn [snd].
      fold a. by destruct (Z.eqb_spec a 0). }
  destruct (h_kind hp).
  - destruct (chain_block k (h + 1) (EVar (VHop k h)) rest) as [b ex] eqn:Hc. cbn [fst snd app]. apply Hhead. intros Ha.
    env_step. set (e2 := (VHop k h, _) :: _).
    assert (exec args mem off e2 (Probe (VHop k h) (VPtr k h) (h_struct hp) (h_field hp) true) =
      match mem m 8 with Some v => if v =? 0 then None else Some ((VHop k h, ("__u64", v)) :: e2) | None => None end) as Hp.
    { cbn [exec]. subst e2. rewrite type_here, value_there, value_here by done. done. }
    destruct (mem m 8) as [v|]; [|by apply computes_stop]. destruct (Z.eqb_spec v 0); [by apply computes_stop|].
    eapply computes_step; [exact Hp|by agrees|].
    specialize (IH (h + 1) (EVar (VHop k h)) ((VHop k h, ("__u64", v)) :: e2) Hends). rewrite Hc in IH.
    cbn [eval fst snd] in IH. by rewrite value_here in IH.
  - destruct (chain_block k (h + 1) (EAddr (VPtr k h) (h_struct hp) (h_field hp)) rest) as [b ex] eqn:Hc.
    cbn [fst snd app]. apply Hhead. intros Ha.
    specialize (IH (h + 1) (EAddr (VPtr k h) (h_struct hp) (h_field hp)) ((VPtr k h, ("__u64", a)) :: e) Hends).
    rewrite Hc in IH. cbn [eval fst snd] in IH. by rewrite value_here in IH.
  - cbn [fst snd app]. apply Hhead. intros Ha. env_step. set (e2 := (VVal k, _) :: _).
    assert (exec args mem off e2 (Probe (VVal k) (VPtr k h) (h_struct hp) (h_field hp) false) =
      match mem m (size_of_ctype (h_extra hp)) with
      | Some v => Some ((VVal k, (h_extra hp, v)) :: e2) | None => None end) as Hp.
    { cbn [exec]. subst e2. rewrite type_here, value_there, value_here by done. done. }
    destruct (mem m _) as [v|]; [|by apply computes_stop].
    eapply computes_step; [exact Hp|by agrees|]. eexists. split; [reflexivity|].
    cbn [eval]. by rewrite value_here.
Qed.

(** What the generator could read. *)
Definition readable (v : value) : Prop :=
  match v with
  | Scalar _ => True
  | Chain _ hops => ends_in_scalar hops = true
  | Field _ _ _ ty => exists ct, ctype ty = Ok ct
  end.

Lemma chain_expr_in k hops : forall h src, ends_in_scalar hops = true -> expr_in k (chain_block k h src hops).2.
Proof.
  induction hops as [|hp rest IH]; intros h src; cbn [ends_in_scalar chain_block]; [done|].
  destruct (h_kind hp); [..|done]; intros Hends;
    specialize (fun s => IH (h + 1) s Hends); by [> specialize (IH (EVar (VHop k h))) | specialize (IH (EAddr (VPtr k h) (h_struct hp) (h_field hp)))];
    destruct (chain_block k (h + 1) _ rest).
Qed.

Lemma value_computes k v e : readable v ->
  computes k e (meaning_of known mem off v) (value_block k v).1 (value_block k v).2 /\ expr_in k (value_block k v).2.
Proof.
  destruct v as [n|n hops|st n f ty]; cbn [readable value_block meaning_of fst snd].
  - intros _. split; [|done]. by exists e.
  - intros H. split; [by apply (chain_computes k hops 0 (EArg n))|by apply chain_expr_in].
  - intros [ct Hct]. split; [|done]. unfold width_of. rewrite Hct. do 2 env_step. set (e2 := (VVal k, _) :: _).
    assert (exec args mem off e2 (Probe (VVal k) (VBase k) st f false) =
      match mem (member_address off (args n) st f) (size_of_ctype ct) with
      | Some v => Some ((VVal k, (ct, v)) :: e2) | None => None end) as Hp.
    { cbn [exec]. subst e2. rewrite type_here, value_there, value_here by done. done. }
    destruct (mem _ _) as [v|]; [|by apply computes_stop].
    eapply computes_step; [exact Hp|by agrees|]. eexists. split; [reflexivity|]. cbn [eval]. by rewrite value_here.
Qed.

(** ** Several values *)

Fixpoint values_blocks (k : Z) (vs : list value) : list (list stmt) * list cexpr :=
  match vs with
  | [] => ([], [])
  | v :: t =>
      let r := values_blocks (k + 1) t in ((value_block k v).1 :: r.1, (value_block k v).2 :: r.2)
  end.

Lemma values_blocks_app vs1 vs2 : forall k, values_blocks k (vs1 ++ vs2) =
  ((values_blocks k vs1).1 ++ (values_blocks (k + len vs1) vs2).1,
   (values_blocks k vs1).2 ++ (values_blocks (k + len vs1) vs2).2).
Proof.
  induction vs1 as [|v vs1 IH]; intros k; cbn [app values_blocks fst snd].
  - rewrite Z.add_0_r. by destruct (values_blocks k vs2).
  - rewrite IH, len_cons. cbn [fst snd]. replace (k + 1 + len vs1) with (k + (1 + len vs1)) by lia. done.
Qed.

Lemma values_compute vs : Forall readable vs -> forall k e,
  match all_values known mem off vs with
  | None => exec_all args mem off e (concat (values_blocks k vs).1) = None
  | Some zs => exists e', exec_all args mem off e (concat (values_blocks k vs).1) = Some e' /\
      map (eval args off e') (values_blocks k vs).2 = zs /\ agree k e e'
  end.
Proof.
  induction 1 as [|v vs Hv _ IH]; intros k e; cbn [all_values values_blocks concat fst snd map]; [by exists e|].
  rewrite exec_all_app. destruct (value_computes k v e Hv) as [Hc Hin]. unfold computes in Hc.
  destruct (meaning_of known mem off v) as [z|]; [|by rewrite Hc].
  destruct Hc as (e1 & -> & Hz & Ha1). specialize (IH (k + 1) e1).
  destruct (all_values known mem off vs) as [zs|]; [|done]. destruct IH as (e2 & -> & <- & Ha2).
  exists e2. split_and!; [done| |eapply (agree_trans k (k + 1)); [lia|done..]].
  f_equal. rewrite <- Hz. eapply (eval_agree k (k + 1)); [done|lia|done].
Qed.
End sound.

(** ** The generator *)

Definition codes (bs : list (list stmt)) : list string := concat (map code_of bs).

Lemma codes_blocks bs : exists blocks, codes bs = map block_text blocks /\ concat blocks = concat bs /\ blocks ⊆ bs.
Proof.
  unfold codes. induction bs as [|b bs (blocks & H & Hc & Hs)]; [by exists []|]. cbn [map concat]. rewrite H.
  destruct b as [|s b]; [exists blocks; set_solver|]. exists ((s :: b) :: blocks).
  cbn [code_of map concat app]. rewrite Hc. set_solver.
Qed.

Lemma codes_app a b : codes (a ++ b) = codes a ++ codes b.
Proof. unfold codes. by rewrite map_app, concat_app. Qed.

Section gen.
Variable sigs : option string.
Variable types : val.

Lemma read_value_readable v k fs r : read_value v k fs = Ok r -> readable v.
Proof.
  destruct v as [n|n hops|st n f ty]; cbn [read_value readable]; [done|..].
  - destruct (read_chain _ _ _ _ _) eqn:H; [|done]. intros _. by eapply read_chain_ends.
  - destruct (ctype ty) as [ct|]; [|done]. intros _. by exists ct.
Qed.

Lemma take_ok hook tok g ex g' : take sigs types hook tok g = Ok (ex, g') ->
  exists v, resolve_value sigs types hook tok = Ok v /\ readable v /\
    ex = expr_text (value_block (g_k g) v).2 /\ g_k g' = g_k g + 1 /\
    g_code g' = g_code g ++ code_of (value_block (g_k g) v).1.
Proof.
  unfold take. destruct (resolve_value _ _ _ _) as [v|]; [|done].
  destruct (read_value _ _ _) as [[[code e] fs]|] eqn:Hr; [|done]. intros H. exists v. split; [done|].
  split; [by eapply read_value_readable|]. apply read_value_text in Hr. destruct (value_block (g_k g) v) as [b e'].
  destruct Hr as [-> Hc]. injection H as <- <-. split_and!; [done|done|]. cbn [g_code fst]. rewrite <- Hc.
  destruct code; [by rewrite app_nil_r|done].
Qed.

(** The comparison of a term, once its value has an expression. *)
Definition compared (e : cexpr) (t : value * string * string) : term := (e, t.1.2, t.2).

Lemma take_terms_ok hook terms : forall g parts g', take_terms sigs types hook terms g = Ok (parts, g') ->
  exists ts, mapM_r (resolve_term sigs types hook) terms = Ok ts /\
    let vs := map (fun t => t.1.1) ts in
    Forall readable vs /\ g_k g' = g_k g + len ts /\
    parts = map term_text (zip_with compared (values_blocks (g_k g) vs).2 ts) /\
    g_code g' = g_code g ++ codes (values_blocks (g_k g) vs).1.
Proof.
  induction terms as [|t terms IH]; intros g parts g'; cbn [take_terms mapM_r].
  { intros [= <- <-]. exists []. cbv zeta. cbn [map values_blocks zip_with fst snd].
    change (codes []) with (@nil string). change (len []) with 0. rewrite app_nil_r.
    split_and!; [done|by apply Forall_nil|lia|done..]. }
  unfold resolve_term at 1. destruct (term_from [] (str_list t)) as [[[lhs op] rhs]|]; [|done].
  destruct (take _ _ hook lhs g) as [[ex g1]|] eqn:Ht; [|done]. apply take_ok in Ht as (v & -> & Hv & -> & Hk & Hcode).
  destruct (take_terms _ _ hook terms g1) as [[parts1 g2]|] eqn:Hts; [|done].
  apply IH in Hts as (ts & -> & Hvs & Hk2 & -> & Hcode2). intros [= <- <-]. eexists ((v, op, rhs) :: ts).
  split; [done|]. cbv zeta. cbn [map fst snd values_blocks zip_with]. rewrite Hk in *.
  split_and!; [by constructor|rewrite len_cons; lia|done|].
  rewrite Hcode2, Hcode, <- app_assoc. done.
Qed.

Definition join_of (is_or : bool) : string := if is_or then "||" else "&&".

Lemma predicate_terms_join pred join terms : predicate_terms pred = Ok (join, terms) ->
  join_of (String.eqb join "||") = join.
Proof. unfold predicate_terms. repeat (case_match; try done); by intros [= <- _]. Qed.

(** The predicate of a plan as terms over expressions, from block [k]. *)
Definition pred_values (p : option (bool * list (value * string * string))) : list value :=
  match p with Some (_, ts) => map (fun t => t.1.1) ts | None => [] end.
Definition pred_terms (es : list cexpr) (p : option (bool * list (value * string * string)))
    : option (string * list term) :=
  option_map (fun bt : bool * _ => (join_of bt.1, zip_with compared es bt.2)) p.

Lemma take_pred_ok hook pred cond g : take_pred sigs types hook pred (Gen [] [] 0) = Ok (cond, g) ->
  exists p, resolve_pred sigs types hook pred = Ok p /\
    let r := values_blocks 0 (pred_values p) in
    Forall readable (pred_values p) /\ g_k g = len (pred_values p) /\
    cond = option_map cond_text (pred_terms r.2 p) /\ g_code g = codes r.1.
Proof.
  unfold take_pred, resolve_pred. destruct (String.eqb pred "").
  { intros [= <- <-]. exists None. split_and!; [done|by apply Forall_nil|done..]. }
  destruct (predicate_terms pred) as [[join terms]|] eqn:Hp; [|done]. apply predicate_terms_join in Hp.
  destruct (take_terms _ _ hook terms _) as [[parts g1]|] eqn:Ht; [|done].
  apply take_terms_ok in Ht as (ts & -> & Hvs & Hk & -> & Hcode). intros [= <- <-].
  exists (Some (String.eqb join "||", ts)). split; [done|]. cbn [pred_values pred_terms option_map fst snd g_k g_code app] in *.
  split_and!; [done| | |done].
  - rewrite Hk. unfold len. by rewrite length_map.
  - unfold cond_text. cbn [fst snd]. by rewrite Hp.
Qed.

(** The value an action reads. *)
Definition doing_values (d : doing) : list value := match d with Reading v => [v] | Matching _ => [] end.
Definition return_of (cond : option (string * list term)) (es : list cexpr) (d : doing) : return_ :=
  match d, es with
  | Matching shield, _ => match cond with Some c => RMatch c.1 c.2 shield | None => ROne end
  | Reading _, e :: _ => RValue cond e
  | Reading _, [] => ROne
  end.

Lemma canary_text st i ct fld :
  code_of [CanaryRead st i ct fld] =
    [cat ["    struct "; st; " *pc = (struct "; st; " *)"; argument i; ";"; newline;
          "    "; ct; " vc = 0;"; newline;
          "    (void)bpf_probe_read(&vc, sizeof vc, &pc->"; fld; ");  /* canary: relocation only */"; newline]].
Proof. cbn [code_of]. f_equal. unfold block_text. cbn [map stmt_lines concat app]. str_eq. Qed.

Lemma canary_ok ps g g' : canary types ps g = Ok g' ->
  exists b, g_code g' = g_code g ++ code_of b /\ (forall args mem off e, exec_all args mem off e b = Some e) /\
    forall n, n ∈ concat (map stmt_args b) -> n ∈ map fst ps.
Proof.
  revert g'. induction ps as [|[i p] ps IH]; intros g'; cbn [canary].
  { intros [= <-]. exists []. rewrite app_nil_r. split; [done|]. split; [done|]. by intros n ?%elem_of_nil. }
  assert (canary types ps g = Ok g' -> exists b, g_code g' = g_code g ++ code_of b /\
    (forall args mem off e, exec_all args mem off e b = Some e) /\
    forall n, n ∈ concat (map stmt_args b) -> n ∈ map fst ((i, p) :: ps)) as Hskip.
  { intros (b & ? & ? & Hin)%IH. exists b. split_and!; [done..|]. intros n Hn. right. by apply Hin. }
  destruct (if String.eqb (q_kind p) "blob" then q_struct p else None) as [st|]; [|exact Hskip].
  destruct (dget st types) as [o|]; [|done]. destruct (truthy_opt o) as [[]|]; try done.
  destruct d as [|[fld ty] d]; [done|]. destruct (ctype ty) as [ct|]; [|done]. destruct (reg _ _ _ _) as [fs|]; [|done].
  intros H. injection H as <-. exists [CanaryRead st i ct fld]. rewrite canary_text. split_and!; [done..|].
  intros n Hn. apply list_elem_of_singleton in Hn as ->. left.
Qed.

Lemma numbered_params_bound ps n : n ∈ map fst (numbered_params ps) -> 0 <= n < len ps.
Proof.
  unfold numbered_params. intros ([m p] & -> & H)%list_elem_of_fmap.
  apply list_elem_of_In, in_combine_l, list_elem_of_In in H. unfold range in H. apply list_elem_of_fmap in H as (k & -> & Hk%elem_of_seq).
  cbn [fst] in *. unfold len in *. lia.
Qed.

Lemma take_action_ok hook action cond ret g g' : 
  take_action sigs types hook action (option_map cond_text cond) g = Ok (ret, g') ->
  exists d, resolve_action sigs types hook action = Ok d /\ Forall readable (doing_values d) /\
    (forall shield, d = Matching shield -> shield = true -> cond <> None) /\
    let r := values_blocks (g_k g) (doing_values d) in
    ret = return_text (return_of cond r.2 d) /\
    exists canary_block, g_code g' = g_code g ++ codes r.1 ++ code_of canary_block /\
      (forall args mem off e, exec_all args mem off e canary_block = Some e) /\
      forall n, n ∈ concat (map stmt_args canary_block) -> 0 <= n < len (default [] (hook_params sigs hook)).
Proof.
  unfold take_action, resolve_action. set (sh := match match_shield action with Some _ => true | None => false end).
  destruct (is_count action || sh).
  - destruct (sh && _) eqn:Hguard; [done|].
    destruct (match g_code g with [] => _ | _ => Ok g end) as [g1|] eqn:Hc; [|done]. intros H. injection H as <- <-.
    exists (Matching sh). split; [done|]. split; [by apply Forall_nil|]. split.
    { intros s [= <-] Hs ->. by rewrite Hs in Hguard. }
    cbn [doing_values values_blocks fst snd return_of]. split.
    + destruct cond as [[join ts]|]; [|done]. cbn [option_map fst snd return_text]. by destruct sh.
    + change (codes []) with (@nil string). destruct (g_code g) as [|c cs] eqn:Hg.
      * apply canary_ok in Hc as (b & Hb & He & Hn). exists b. rewrite Hb, Hg. split_and!; [done..|].
        intros n H%Hn. by apply numbered_params_bound.
      * injection Hc as <-. exists []. rewrite Hg, !app_nil_r. split_and!; [done..|]. by intros n ?%elem_of_nil.
  - destruct (take _ _ hook _ g) as [[ex g1]|] eqn:Ht; [|done]. apply take_ok in Ht as (v & -> & Hv & -> & Hk & Hcode).
    intros H. injection H as <- <-. exists (Reading v). split; [done|]. split; [by apply Forall_singleton|]. split; [done|].
    cbn [doing_values values_blocks fst snd return_of]. split; [by destruct cond|]. exists [].
    rewrite Hcode, app_nil_r. unfold codes. cbn [map concat]. rewrite app_nil_r. split_and!; [done..|].
    by intros n ?%elem_of_nil.
Qed.
End gen.

(** ** The program *)

(** The lines of a generated program around its declarations, code and return. *)
Definition program_text (expr section hook fn : string) (decls code : list string) (ret : string) : string :=
  String.concat newline
    (head_text expr ++ decls ++
     [context_definition section; "";
      cat ["__attribute__((section("; quote_char; section; "/"; hook; quote_char; "), used))"];
      cat ["__u64 "; fn; "(struct "; context section; " *c)"]; "{"] ++ code ++ [ret; "}"; ""]).

(** Literals that C and the expression read alike. *)
Definition plain_plan (p : plan) : Prop :=
  match pl_pred p with Some (_, ts) => Forall (fun t : value * string * string => plain_literal t.2 = true) ts | None => True end.

Lemma plain_literal_value rhs : plain_literal rhs = true -> c_literal rhs = integer_value rhs.
Proof.
  unfold plain_literal, c_literal, integer_value. destruct (digits_of rhs) as [s ds]. cbn [snd].
  destruct ds as [|c [|d ds]]; try done. cbn [c_digits]. by destruct (ord c =? 48).
Qed.

Section meaning.
Variable args : Z -> Z.
Variable mem : Z -> Z -> option Z.
Variable off : string -> string -> Z.

Abbreviation known := (fun n : Z => Some (args n)).

Lemma terms_hold e ts : forall es,
  all_values known mem off (map (fun t => t.1.1) ts) = Some (map (eval args off e) es) ->
  Forall (fun t : value * string * string => plain_literal t.2 = true) ts ->
  existsb (holds args off e) (zip_with compared es ts) = existsb (term_holds known mem off) ts /\
  forallb (holds args off e) (zip_with compared es ts) = forallb (term_holds known mem off) ts.
Proof.
  induction ts as [|[[v op] rhs] ts IH]; intros es; cbn [map all_values fst snd]; [by destruct es|].
  destruct (meaning_of known mem off v) as [z|] eqn:Hz; [|done].
  destruct (all_values _ _ _ _) as [zs|] eqn:Hzs; [|done]. destruct es as [|e0 es]; [done|]. intros [= -> Hes] Hp.
  apply Forall_cons in Hp as [Hl Hp]. cbn [snd] in Hl. subst zs. destruct (IH es eq_refl Hp) as [He Ha].
  cbn [zip_with existsb forallb]. rewrite He, Ha. unfold compared, holds, term_holds. cbn [fst snd].
  by rewrite Hz, plain_literal_value.
Qed.

Lemma pred_terms_hold e p es :
  all_values known mem off (pred_values p) = Some (map (eval args off e) es) ->
  match p with Some (_, ts) => Forall (fun t : value * string * string => plain_literal t.2 = true) ts | None => True end ->
  match pred_terms es p with Some c => cond_holds args off e c | None => true end = pred_holds known mem off p.
Proof.
  destruct p as [[is_or ts]|]; [|done]. cbn [pred_values pred_terms option_map fst snd pred_holds]. intros Hv Hp.
  destruct (terms_hold e ts es Hv Hp) as [He Ha]. unfold cond_holds. cbn [fst snd]. rewrite He, Ha. by destruct is_or.
Qed.

Lemma all_values_app vs1 vs2 : all_values known mem off (vs1 ++ vs2) =
  match all_values known mem off vs1, all_values known mem off vs2 with
  | Some a, Some b => Some (a ++ b) | _, _ => None end.
Proof.
  induction vs1 as [|v vs1 IH]; cbn [app all_values]; [by destruct (all_values known mem off vs2)|].
  rewrite IH. destruct (meaning_of known mem off v); [|done]. by destruct (all_values known mem off vs1), (all_values known mem off vs2).
Qed.

Lemma all_values_length vs : forall zs, all_values known mem off vs = Some zs -> length zs = length vs.
Proof.
  induction vs as [|v vs IH]; intros zs; cbn [all_values]; [by intros [= <-]|].
  destruct (meaning_of known mem off v); [|done]. destruct (all_values known mem off vs) as [zs'|]; [|done].
  intros [= <-]. cbn [length]. by rewrite (IH zs').
Qed.

Lemma values_blocks_length vs : forall k, length (values_blocks k vs).2 = length vs.
Proof. induction vs as [|v vs IH]; intros k; cbn [values_blocks snd length]; [done|]. by rewrite IH. Qed.

Lemma run_means p canary_block : Forall readable (pred_values (pl_pred p)) -> Forall readable (doing_values (pl_doing p)) ->
  plain_plan p -> (forall e, exec_all args mem off e canary_block = Some e) ->
  let r1 := values_blocks 0 (pred_values (pl_pred p)) in
  let r2 := values_blocks (len (pred_values (pl_pred p))) (doing_values (pl_doing p)) in
  run_words args mem off (concat (r1.1 ++ r2.1) ++ canary_block) (return_of (pred_terms r1.2 (pl_pred p)) r2.2 (pl_doing p)) =
  plan_meaning known mem off p.
Proof.
  destruct p as [p d]. cbn [pl_pred pl_doing]. intros Hp Hd Hplain Hcan. cbv zeta. unfold run_words, plan_meaning.
  pose proof (values_compute args mem off _ (proj2 (Forall_app _ _ _) (conj Hp Hd)) 0 []) as Hc.
  rewrite values_blocks_app, Z.add_0_l in Hc. cbn [fst snd] in Hc. rewrite exec_all_app.
  change (plan_values (Plan p d)) with (pred_values p ++ doing_values d).
  destruct (all_values known mem off (pred_values p ++ doing_values d)) as [zs|] eqn:Hzs; [|by rewrite Hc].
  destruct Hc as (e & -> & Hes & _). rewrite Hcan. rewrite all_values_app in Hzs.
  destruct (all_values known mem off (pred_values p)) as [zp|] eqn:Hzp; [|done].
  destruct (all_values known mem off (doing_values d)) as [zd|] eqn:Hzd; [|done]. injection Hzs as <-.
  rewrite map_app in Hes. apply app_inj_1 in Hes as [Hes1 Hes2]; cycle 1.
  { by rewrite length_map, values_blocks_length, (all_values_length _ _ Hzp). }
  subst zp. pose proof (pred_terms_hold e p _ Hzp Hplain) as Hh. cbn [pl_pred pl_doing] in *.
  destruct d as [shield|v]; cbn [doing_values values_blocks return_of fst snd] in *.
  - destruct (pred_terms _ p) as [[join ts]|]; cbn [returned fst snd]; rewrite <- Hh; [|done]. by destruct (cond_holds _ _ _ _).
  - cbn [all_values] in Hzd. destruct (meaning_of known mem off v) as [z|]; [|done]. injection Hzd as <-. injection Hes2 as Hz.
    cbn [from_option id]. destruct (pred_terms _ p) as [c|]; cbn [returned]; rewrite <- Hh; [|done].
    by destruct (cond_holds _ _ _ _).
Qed.
End meaning.

(** ** The words of the context *)

Lemma chain_args k hops : forall h src n,
  n ∈ concat (map stmt_args (chain_block k h src hops).1) \/ n ∈ expr_args (chain_block k h src hops).2 ->
  n ∈ expr_args src.
Proof.
  induction hops as [|hp rest IH]; intros h src n; cbn [chain_block fst snd].
  { intros [?%elem_of_nil|H]; [done|exact H]. }
  destruct (h_kind hp).
  - specialize (IH (h + 1) (EVar (VHop k h)) n). destruct (chain_block k (h + 1) _ rest) as [b e].
    cbn [fst snd app map concat stmt_args expr_args] in *. rewrite elem_of_app. rewrite elem_of_nil in IH. tauto.
  - specialize (IH (h + 1) (EAddr (VPtr k h) (h_struct hp) (h_field hp)) n). destruct (chain_block k (h + 1) _ rest) as [b e].
    cbn [fst snd app map concat stmt_args expr_args] in *. rewrite elem_of_app. rewrite elem_of_nil in IH. tauto.
  - cbn. rewrite app_nil_r. rewrite elem_of_nil. tauto.
Qed.

Lemma value_args k v : readable v -> forall n,
  n ∈ concat (map stmt_args (value_block k v).1) \/ n ∈ expr_args (value_block k v).2 <-> n = value_arg v.
Proof.
  intros Hv n. split.
  - destruct v as [m|m hops|st m f ty]; cbn [readable value_block fst snd value_arg] in *.
    + by intros [?%elem_of_nil|Hn%list_elem_of_singleton].
    + intros H%chain_args. by apply list_elem_of_singleton in H.
    + cbn. by intros [Hn%list_elem_of_singleton|?%elem_of_nil].
  - intros ->. destruct v as [n|n hops|st n f ty]; cbn [readable value_block fst snd value_arg] in *.
    + right. by left.
    + left. destruct hops as [|hp rest]; [done|]. cbn [chain_block].
      destruct (h_kind hp); [destruct (chain_block k (0 + 1) _ rest)..|]; cbn; left.
    + left. cbn. left.
Qed.

Lemma values_args vs : Forall readable vs -> forall k n,
  n ∈ concat (map stmt_args (concat (values_blocks k vs).1)) \/
  n ∈ concat (map expr_args (values_blocks k vs).2) <-> n ∈ map value_arg vs.
Proof.
  induction 1 as [|v vs Hv _ IH]; intros k n; cbn [map values_blocks fst snd concat]; [rewrite elem_of_nil; tauto|].
  rewrite map_app, concat_app, !elem_of_app, elem_of_cons, <- (value_args k v Hv), <- (IH (k + 1)). tauto.
Qed.

Lemma terms_args_compared es (ts : list (value * string * string)) : length es = length ts ->
  terms_args (zip_with compared es ts) = concat (map expr_args es).
Proof.
  revert ts. induction es as [|e es IH]; intros [|t ts]; try done. intros [= H].
  unfold terms_args in *. cbn [zip_with map concat]. by rewrite IH.
Qed.

Lemma plan_args_named p can : Forall readable (pred_values (pl_pred p)) -> Forall readable (doing_values (pl_doing p)) ->
  let r1 := values_blocks 0 (pred_values (pl_pred p)) in
  let r2 := values_blocks (len (pred_values (pl_pred p))) (doing_values (pl_doing p)) in
  forall n, n ∈ plan_args p \/ n ∈ concat (map stmt_args can) <->
    n ∈ program_args (concat (r1.1 ++ r2.1) ++ can) (return_of (pred_terms r1.2 (pl_pred p)) r2.2 (pl_doing p)).
Proof.
  destruct p as [p d]. cbn [pl_pred pl_doing]. intros Hp Hd. cbv zeta. intros n.
  unfold plan_args. change (plan_values (Plan p d)) with (pred_values p ++ doing_values d).
  unfold program_args. rewrite map_app, concat_app, !map_app, !concat_app, !elem_of_app,
    <- (values_args _ Hp 0), <- (values_args _ Hd (len (pred_values p))).
  set (ts := pred_terms (values_blocks 0 (pred_values p)).2 p).
  assert (n ∈ concat (map expr_args (values_blocks 0 (pred_values p)).2) <->
          n ∈ match ts with Some c => terms_args c.2 | None => [] end) as ->.
  { subst ts. destruct p as [[is_or ts]|]; [|done]. cbn [pred_terms option_map fst snd].
    rewrite terms_args_compared; [done|]. cbn [pred_values]. by rewrite values_blocks_length, length_map. }
  assert (n ∈ return_args (return_of ts (values_blocks (len (pred_values p)) (doing_values d)).2 d) <->
          n ∈ match ts with Some c => terms_args c.2 | None => [] end \/
          n ∈ concat (map expr_args (values_blocks (len (pred_values p)) (doing_values d)).2)) as ->; [|tauto].
  destruct d as [shield|v]; cbn [doing_values values_blocks snd map concat return_of];
    destruct ts; cbn; rewrite ?app_nil_r, ?elem_of_app, ?elem_of_nil; tauto.
Qed.

(** With the words of its arguments known, a plan means what it means of the
    context. *)
Section bridge.
Context (arg arg' : Z -> option Z) (mem : Z -> Z -> option Z) (off : string -> string -> Z).

Lemma meaning_bridge v : arg (value_arg v) = arg' (value_arg v) -> meaning_of arg mem off v = meaning_of arg' mem off v.
Proof. destruct v; cbn; by intros ->. Qed.

Lemma values_bridge vs : (forall n, n ∈ map value_arg vs -> arg n = arg' n) ->
  all_values arg mem off vs = all_values arg' mem off vs /\
  forall v, v ∈ vs -> meaning_of arg mem off v = meaning_of arg' mem off v.
Proof.
  intros H. assert (forall v, v ∈ vs -> meaning_of arg mem off v = meaning_of arg' mem off v) as Hv.
  { intros v Hv. apply meaning_bridge, H. by apply list_elem_of_fmap_2. }
  split; [|done]. clear H. induction vs as [|v vs IH]; [done|]. cbn [all_values].
  rewrite (Hv v) by left. rewrite IH; [done|]. intros u Hu. apply Hv. by right.
Qed.

Lemma terms_bridge ts : (forall v, v ∈ map (fun t : value * string * string => t.1.1) ts ->
    meaning_of arg mem off v = meaning_of arg' mem off v) ->
  existsb (term_holds arg mem off) ts = existsb (term_holds arg' mem off) ts /\
  forallb (term_holds arg mem off) ts = forallb (term_holds arg' mem off) ts.
Proof.
  induction ts as [|[[v op] rhs] ts IH]; intros H; [done|]. cbn [existsb forallb].
  destruct IH as [-> ->]; [intros u Hu; apply H; by right|]. unfold term_holds.
  rewrite (H v) by left. done.
Qed.

Lemma plan_bridge p : (forall n, n ∈ plan_args p -> arg n = arg' n) ->
  plan_meaning arg mem off p = plan_meaning arg' mem off p.
Proof.
  intros H. destruct (values_bridge (plan_values p) H) as [Ha Hv]. unfold plan_meaning. rewrite Ha.
  destruct (all_values arg' mem off (plan_values p)); [|done]. destruct p as [p d]. cbn [pl_pred pl_doing] in *.
  assert (pred_holds arg mem off p = pred_holds arg' mem off p) as ->.
  { destruct p as [[is_or ts]|]; [|done]. cbn [pred_holds].
    destruct (terms_bridge ts) as [-> ->]; [|done]. intros v Hin. apply Hv. unfold plan_values. cbn [pl_pred].
    apply elem_of_app. by left. }
  destruct d as [|v]; [done|]. rewrite Hv; [done|]. unfold plan_values. cbn [pl_doing].
  apply elem_of_app. right. left.
Qed.
End bridge.

(** C27: a generated program computes what its expression says.  Its text is the
    text of a program of reads and one return, which names every argument that the
    expression reads, and no other but one of the parameters of the hook.  If those are among the five words of the context, that
    program, whatever the words, the readable memory and the offsets of the fields,
    returns 0 when a value of the expression cannot be read, or when a pointer along
    a path of several members is null (a single field is read at its address
    whatever the pointer); else 1, or the value asked for, exactly when the
    predicate holds of the values found, and 0 when it does not.  Comparisons are
    of 64-bit unsigned integers, and the integers of the predicate are those
    written, when none has a leading zero.  A shield always has a predicate. *)
Theorem generated_program_means sigs types sha1 expr text fn section hook :
  codegen sigs types sha1 expr = Ok (text, fn, section, hook) ->
  exists p decls blocks r, plan_of sigs types expr = Ok p /\
    text = program_text expr section hook fn decls (map block_text blocks) (return_text r) /\
    (pl_doing p = Matching true -> pl_pred p <> None) /\
    (forall n, n ∈ plan_args p -> n ∈ program_args (concat blocks) r) /\
    (forall n, n ∈ program_args (concat blocks) r -> n ∈ plan_args p \/ 0 <= n < len (default [] (hook_params sigs hook))) /\
    (plain_plan p -> (forall n, n ∈ program_args (concat blocks) r -> 0 <= n < 5) ->
     forall ctx mem off, length ctx = 5%nat ->
       run ctx mem off (concat blocks) r = Some (plan_meaning (word_at ctx) mem off p)).
Proof.
  unfold codegen, plan_of. destruct (parse expr) as [[[[sec hk] pred] action]|]; [|done].
  destruct (take_pred _ _ hk pred _) as [[cond g]|] eqn:Hp; [|done].
  apply take_pred_ok in Hp as (p & -> & Hrp & Hk & -> & Hcode).
  destruct (take_action _ _ hk action _ g) as [[ret g1]|] eqn:Ha; [|done].
  apply take_action_ok in Ha as (d & -> & Hrd & Hsh & -> & can & Hcode1 & Hcan & Hcanarg).
  destruct (emit_all (g_fields g1)) as [em|]; [|done].
  intros H%Ok_inj. do 3 apply pair_equal_spec in H as [H <-]. subst text.
  rewrite Hk in *. set (r1 := values_blocks 0 (pred_values p)) in *. set (r2 := values_blocks _ (doing_values d)) in *.
  destruct (codes_blocks ((r1.1 ++ r2.1) ++ [can])) as (blocks & Hb & Hcat & _).
  exists (Plan p d), (map snd (e_lines em)), blocks, (return_of (pred_terms r1.2 p) r2.2 d). 
  assert (forall n, n ∈ plan_args (Plan p d) \/ n ∈ concat (map stmt_args can) <->
            n ∈ program_args (concat blocks) (return_of (pred_terms r1.2 p) r2.2 d)) as Hargs.
  { intros n. rewrite Hcat, concat_app. cbn [concat]. rewrite app_nil_r. by apply (plan_args_named (Plan p d) can). }
  split_and!; [done| | | | |].
  - assert (codes ((r1.1 ++ r2.1) ++ [can]) = g_code g1) as Hall.
    { rewrite !codes_app, Hcode1, Hcode, <- app_assoc. unfold codes at 3. cbn [map concat]. by rewrite app_nil_r. }
    unfold program_text. by rewrite <- Hb, Hall.
  - cbn [pl_doing pl_pred]. intros -> ->. by eapply (Hsh true).
  - intros n Hn. apply Hargs. by left.
  - intros n [Hn|Hn%Hcanarg]%Hargs; [by left|by right].
  - intros Hplain Hfive ctx mem off Hctx. unfold run.
    assert (forall n, 0 <= n < 5 -> is_Some (word_at ctx n)) as Hword.
    { intros n Hn. unfold word_at. destruct (Z.ltb_spec n 0); [lia|]. apply lookup_lt_is_Some. lia. }
    rewrite (proj2 (forallb_forall _ _)); cycle 1.
    { intros n Hn%list_elem_of_In. by apply bool_decide_eq_true, Hword, Hfive. }
    f_equal. rewrite (plan_bridge (word_at ctx) (fun n => Some (default 0 (word_at ctx n)))); cycle 1.
    { intros n Hn. destruct (Hword n) as [w ->]; [|done]. apply Hfive, Hargs. by left. }
    rewrite Hcat, concat_app. cbn [concat]. rewrite app_nil_r.
    by apply (run_means (fun n => default 0 (word_at ctx n)) mem off (Plan p d)).
Qed.
