(* ===== verification/TraceDecl.v ===== *)
(** * The declarations of a generated program

    The generator ends on every set of fields; every struct the program reads is
    declared once, after the structs it holds by value, with each field it reads
    under the type it is read with. *)

From S2P Require Import Prelude PyVal Text Assoc Trace TraceSem TraceSound.

(** ** Emission *)

(** Declarations so far: one per struct done, each after the structs embedded in it. *)
Record good (fs : fields) (em : emission) : Prop := {
  good_done : map fst (e_lines em) = e_done em;
  good_once : NoDup (e_done em);
  good_order : forall l1 st d l2, e_lines em = l1 ++ (st, d) :: l2 ->
    exists fl, aget st fs = Some fl /\ d = declaration st fl /\
      forall ct inner, ct ∈ map snd fl -> embedded_of ct = Some inner -> inner ∈ map fst l1 }.

(** What one call keeps. *)
Record emitted (fs : fields) (visiting : list string) (em em' : emission) : Prop := {
  em_good : good fs em';
  em_more : e_done em ⊆ e_done em';
  em_visiting : forall x, x ∈ visiting -> x ∈ e_done em' -> x ∈ e_done em }.

Lemma emitted_refl fs visiting em : good fs em -> emitted fs visiting em em.
Proof. by constructor. Qed.

Lemma emitted_trans fs visiting a b c : emitted fs visiting a b -> emitted fs visiting b c -> emitted fs visiting a c.
Proof.
  intros [_ M1 V1] [G2 M2 V2]. constructor; [done| |].
  - intros x Hx. by apply M2, M1.
  - intros x Hx Hc. apply V1; [done|]. by apply V2.
Qed.

(** The loop over the types of a struct's fields. *)
Definition emit_types (fuel : nat) (fs : fields) (visiting : list string) (cts : list string) (em : emission)
    : result emission :=
  fold_left (fun acc ct => let? em := acc in
    match embedded_of ct with Some inner => emit fuel fs visiting inner em | None => Ok em end) cts (Ok em).

Lemma fold_err {A B} (f : result B -> A -> result B) (Hf : forall e a, f (Err e) a = Err e) l e :
  fold_left f l (Err e) = Err e.
Proof. induction l as [|a l IH]; [done|]. cbn [fold_left]. by rewrite Hf. Qed.

Lemma emit_types_cons fuel fs visiting ct cts em :
  emit_types fuel fs visiting (ct :: cts) em =
  let? em := match embedded_of ct with Some inner => emit fuel fs visiting inner em | None => Ok em end in
  emit_types fuel fs visiting cts em.
Proof.
  unfold emit_types. cbn [fold_left]. destruct (embedded_of ct); [|done].
  destruct (emit _ _ _ _ _); [done|]. by rewrite fold_err.
Qed.

Lemma good_add fs em st fl : good fs em -> aget st fs = Some fl -> st ∉ e_done em ->
  (forall ct inner, ct ∈ map snd fl -> embedded_of ct = Some inner -> inner ∈ e_done em) ->
  good fs (Emission (e_lines em ++ [(st, declaration st fl)]) (e_done em ++ [st])).
Proof.
  intros [Hd Ho Hg] Hfl Hn Hin. constructor; cbn [e_lines e_done].
  - by rewrite map_app, Hd.
  - apply NoDup_app. split_and!; [done| |apply NoDup_singleton]. by intros x Hx ->%list_elem_of_singleton.
  - intros l1 x d l2 He. destruct (decide (l2 = [])) as [->|Hl2].
    + apply app_inj_tail in He as [<- [= <- <-]]. exists fl. split_and!; [done..|]. intros ct inner Hct Hi.
      rewrite Hd. by eapply Hin.
    + destruct (exists_last Hl2) as (l2' & y & ->).
      rewrite app_comm_cons, app_assoc in He. apply app_inj_tail in He as [He _]. by eapply Hg.
Qed.

Lemma emit_ok fs : forall fuel visiting st em em', good fs em -> emit fuel fs visiting st em = Ok em' ->
  emitted fs visiting em em' /\ st ∈ e_done em'.
Proof.
  induction fuel as [|fuel IH]; intros visiting st em em' Hg; cbn [emit]; [done|].
  destruct (mem_str st (e_done em)) eqn:Hdone.
  { intros [= <-]. apply mem_str_In in Hdone. split; [by apply emitted_refl|by apply list_elem_of_In]. }
  destruct (aget st fs) as [fl|] eqn:Hfl; [|done]. destruct (mem_str st visiting) eqn:Hv; [done|].
  fold (emit_types fuel fs (st :: visiting) (map snd fl) em).
  assert (forall cts em em1, good fs em -> emit_types fuel fs (st :: visiting) cts em = Ok em1 ->
    emitted fs (st :: visiting) em em1 /\
    forall ct inner, ct ∈ cts -> embedded_of ct = Some inner -> inner ∈ e_done em1) as Hts.
  { induction cts as [|ct cts IHc]; intros a b Ha; [intros [= <-]; split; [by apply emitted_refl|by intros ? ? ?%not_elem_of_nil]|].
    rewrite emit_types_cons. destruct (embedded_of ct) as [inner|] eqn:Hi.
    - destruct (emit fuel fs _ inner a) as [a1|] eqn:He; [|done]. intros Hb.
      destruct (IH _ _ _ _ Ha He) as [E1 Hin]. destruct (IHc _ _ (em_good _ _ _ _ E1) Hb) as [E2 Hall].
      split; [by eapply emitted_trans|]. intros c i [->|Hc]%elem_of_cons Hci; [|by eapply Hall].
      rewrite Hi in Hci. injection Hci as <-. by apply (em_more _ _ _ _ E2).
    - intros Hb. destruct (IHc _ _ Ha Hb) as [E2 Hall]. split; [done|].
      intros c i [->|Hc]%elem_of_cons Hci; [congruence|by eapply Hall]. }
  destruct (emit_types _ _ _ _ em) as [em1|] eqn:He; [|done]. intros [= <-].
  destruct (Hts _ _ _ Hg He) as [[G M V] Hall].
  assert (st ∉ e_done em) as Hn.
  { intros H. apply list_elem_of_In, mem_str_In in H. by rewrite H in Hdone. }
  assert (st ∉ e_done em1) as Hn1 by (intros H; apply Hn, V; [left|done]). split; [|cbn; apply elem_of_app; right; left].
  constructor.
  - by apply good_add.
  - intros x Hx. apply elem_of_app. left. by apply M.
  - intros x Hx [H| ->%list_elem_of_singleton]%elem_of_app; [apply V; [by right|done]|].
    apply list_elem_of_In, mem_str_In in Hx. by rewrite Hx in Hv.
Qed.

(** ** Its end *)

Lemma emit_total fs : forall fuel visiting st em, NoDup visiting -> visiting ⊆ keys fs ->
  (length fs < fuel + length visiting)%nat -> emit fuel fs visiting st em <> Err OutOfFuel.
Proof.
  induction fuel as [|fuel IH]; intros visiting st em Hd Hs Hl; cbn [emit].
  { exfalso. pose proof (NoDup_incl_length (l := visiting) (l' := keys fs)) as H.
    unfold keys in H. rewrite length_map in H. apply Nat.lt_nge in Hl. apply Hl. apply H; [by apply NoDup_ListNoDup|].
    intros x Hx. apply list_elem_of_In, Hs. by apply list_elem_of_In. }
  destruct (mem_str st (e_done em)); [done|]. destruct (aget st fs) as [fl|] eqn:Hfl; [|done].
  destruct (mem_str st visiting) eqn:Hv; [done|]. fold (emit_types fuel fs (st :: visiting) (map snd fl) em).
  assert (forall cts em, emit_types fuel fs (st :: visiting) cts em <> Err OutOfFuel) as Hts.
  { induction cts as [|ct cts IHc]; intros a; [done|]. rewrite emit_types_cons. destruct (embedded_of ct) as [inner|]; [|apply IHc].
    assert (emit fuel fs (st :: visiting) inner a <> Err OutOfFuel) as He.
    { apply IH.
      - apply NoDup_cons. split; [|done]. intros H. apply list_elem_of_In, mem_str_In in H. by rewrite H in Hv.
      - intros x [->|Hx]%elem_of_cons; [|by apply Hs]. apply aget_in in Hfl. unfold keys. apply list_elem_of_fmap.
        by exists (st, fl).
      - cbn [length]. lia. }
    destruct (emit _ _ _ _ _); [apply IHc|]. intros [= ->]. by apply He. }
  specialize (Hts (map snd fl) em). destruct (emit_types _ _ _ _ em); [done|]. intros [= ->]. by apply Hts.
Qed.

Definition emit_roots (fs : fields) (sts : list string) (em : emission) : result emission :=
  fold_left (fun acc st => let? em := acc in emit (S (length fs)) fs [] st em) sts (Ok em).

Lemma emit_roots_cons fs st sts em :
  emit_roots fs (st :: sts) em = let? em := emit (S (length fs)) fs [] st em in emit_roots fs sts em.
Proof. unfold emit_roots. cbn [fold_left]. destruct (emit _ _ _ _ _); [done|]. by rewrite fold_err. Qed.

Lemma emit_all_total fs : emit_all fs <> Err OutOfFuel.
Proof.
  unfold emit_all. fold (emit_roots fs (merge_sort String.le (keys fs)) (Emission [] [])).
  generalize (Emission [] []). induction (merge_sort String.le (keys fs)) as [|st sts IH]; intros em; [done|].
  rewrite emit_roots_cons. pose proof (emit_total fs (S (length fs)) [] st em) as H.
  destruct (emit _ _ _ _ _); [apply IH|]. intros [= ->]. apply H; [by apply NoDup_nil|by intros x ?%not_elem_of_nil|cbn; lia|done].
Qed.

Lemma emit_all_ok fs em : emit_all fs = Ok em -> good fs em /\ forall st, st ∈ e_done em <-> st ∈ keys fs.
Proof.
  unfold emit_all. fold (emit_roots fs (merge_sort String.le (keys fs)) (Emission [] [])).
  assert (forall sts em em', good fs em -> emit_roots fs sts em = Ok em' ->
    good fs em' /\ e_done em ⊆ e_done em' /\ sts ⊆ e_done em') as Hr.
  { induction sts as [|st sts IH]; intros a b Ha; [intros [= <-]; split_and!; [done..|]; by intros x ?%not_elem_of_nil|].
    rewrite emit_roots_cons. destruct (emit _ _ _ st a) as [a1|] eqn:He; [|done]. intros Hb.
    destruct (emit_ok _ _ _ _ _ _ Ha He) as [[G M _] Hst]. destruct (IH _ _ G Hb) as (G2 & M2 & Hall).
    split_and!; [done| |].
    - intros x Hx. by apply M2, M.
    - intros x [->|Hx]%elem_of_cons; [by apply M2|by apply Hall]. }
  intros He. destruct (Hr _ _ _ (Build_good fs (Emission [] []) eq_refl NoDup_nil_2
    ltac:(intros l1 st d l2 H; by destruct l1)) He) as (G & _ & Hall).
  split; [done|]. intros st. split; [|intros H; apply Hall; by rewrite merge_sort_Permutation].
  destruct G as [Hd _ Ho]. rewrite <- Hd. intros ([x d] & -> & Hin)%list_elem_of_fmap.
  apply list_elem_of_split in Hin as (l1 & l2 & Hl). destruct (Ho _ _ _ _ Hl) as (fl & Hfl & _).
  apply aget_in in Hfl. unfold keys. apply list_elem_of_fmap. by exists (x, fl).
Qed.

(** ** The fields the code reads *)

Definition declared (fs : fields) (st f ct : string) : Prop :=
  exists fl, aget st fs = Some fl /\ aget f fl = Some ct.

(** Later fields keep the earlier ones. *)
Definition extends (fs fs' : fields) : Prop := forall st f ct, declared fs st f ct -> declared fs' st f ct.

Lemma fields_extend_refl fs : extends fs fs.
Proof. by intros ???. Qed.
#[local] Hint Resolve fields_extend_refl : core.

Lemma reg_ok st f ct fs fs' : reg st f ct fs = Ok fs' -> declared fs' st f ct /\ extends fs fs'.
Proof.
  unfold reg. set (fl := default [] (aget st fs)). intros H.
  assert (forall old, aget f fl = Some old -> old = ct) as Hold.
  { intros old Ho. rewrite Ho in H. by destruct (String.eqb_spec old ct). }
  assert (fs' = aset st (aset f ct fl) fs) as -> by (destruct (match aget f fl with Some _ => _ | None => _ end); [done|by injection H]).
  split; [eexists; by rewrite !aget_aset_eq|]. intros s g c (fl' & Hs & Hg). unfold declared. rewrite aget_aset.
  case_decide as E; [|by exists fl']. subst s. eexists. split; [done|]. rewrite aget_aset. case_decide as E2.
  - subst g. f_equal. symmetry. apply Hold. subst fl. by rewrite Hs.
  - subst fl. by rewrite Hs.
Qed.

(** An address inside a struct is that of a member held by value. *)
Definition expr_declared (fs : fields) (e : cexpr) : Prop :=
  match e with EAddr _ st f => exists inner, declared fs st f (cat ["struct "; inner]) | _ => True end.

(** What a block reads is declared: a field with the type of the variable it is
    read into, a member held by value as a struct. *)
Definition stmt_declared (fs : fields) (b : list stmt) (s : stmt) : Prop :=
  match s with
  | DeclPtr _ _ e _ => expr_declared fs e
  | Probe x _ st f _ => exists ct, DeclInt ct x ∈ b /\ declared fs st f ct
  | CanaryRead st _ ct f => declared fs st f ct
  | _ => True
  end.
Definition well_declared (fs : fields) (b : list stmt) : Prop := Forall (stmt_declared fs b) b.

Lemma stmt_declared_mono fs fs' b b' s : extends fs fs' -> b ⊆ b' -> stmt_declared fs b s -> stmt_declared fs' b' s.
Proof.
  intros He Hb. destruct s as [st x e paren|x|ct x|x p st f nz|st n ct f]; cbn [stmt_declared]; try done.
  - destruct e; cbn [expr_declared]; try done. intros [inner H]. exists inner. by apply He.
  - intros (ct & Hct & H). exists ct. split; [by apply Hb|by apply He].
  - apply He.
Qed.

Lemma well_declared_mono fs fs' b : extends fs fs' -> well_declared fs b -> well_declared fs' b.
Proof. intros He Hb. eapply Forall_impl; [exact Hb|]. intros s. by apply stmt_declared_mono. Qed.

Lemma well_declared_app fs b1 b2 : Forall (stmt_declared fs b1) b1 -> well_declared fs b2 -> well_declared fs (b1 ++ b2).
Proof.
  intros H1 H2. unfold well_declared. apply Forall_app. split; eapply Forall_impl; [exact H1| |exact H2|];
    intros s; (apply stmt_declared_mono; [by intros ???|]); intros x Hx; apply elem_of_app; auto.
Qed.

Lemma read_chain_declares k hops : forall h src fs lines ex fs',
  read_chain k h (expr_text src) hops fs = Ok (lines, ex, fs') -> expr_declared fs src ->
  extends fs fs' /\ well_declared fs' (chain_block k h src hops).1.
Proof.
  induction hops as [|hp rest IH]; intros h src fs lines ex fs'; cbn [read_chain chain_block]; [done|].
  destruct (reg _ _ _ fs) as [fs1|] eqn:Hr; [|done]. apply reg_ok in Hr as [Hd He]. unfold field_type in Hd.
  assert (forall fs2 e, extends fs1 fs2 -> expr_declared fs e -> expr_declared fs2 e) as Hsrc.
  { intros fs2 e He2. destruct e; cbn [expr_declared]; try done. intros [inner H]. exists inner. by apply He2, He. }
  destruct (h_kind hp).
  - change (var2 "h" k h) with (expr_text (EVar (VHop k h))). destruct (read_chain _ _ _ rest fs1) as [[[more e] fs2]|] eqn:Hc; [|done].
    intros [= _ _ <-] Hs. apply IH in Hc as [He2 Hw]; [|done].
    destruct (chain_block k (h + 1) _ rest) as [b e']. cbn [fst] in *. split; [by intros ??? H%He%He2|].
    rewrite app_assoc. apply well_declared_app; [|done]. cbn [app].
    repeat (apply Forall_cons_2; cbn [stmt_declared]; [try done|]); [by apply Hsrc| |by apply Forall_nil].
    exists "__u64". split; [by right; right; left|by apply He2].
  - change (cat ["&"; var2 "p" k h; "->"; h_field hp]) with (expr_text (EAddr (VPtr k h) (h_struct hp) (h_field hp))).
    destruct (read_chain _ _ _ rest fs1) as [[[more e] fs2]|] eqn:Hc; [|done]. intros [= _ _ <-] Hs.
    apply IH in Hc as [He2 Hw]; [|by eexists].
    destruct (chain_block k (h + 1) _ rest) as [b e']. cbn [fst] in *. split; [by intros ??? H%He%He2|].
    apply well_declared_app; [|done]. repeat (apply Forall_cons_2; cbn [stmt_declared]; [try done|]); [by apply Hsrc|by apply Forall_nil].
  - intros [= _ _ <-] Hs. cbn [fst app]. split; [done|]. unfold well_declared.
    repeat (apply Forall_cons_2; cbn [stmt_declared]; [try done|]); [by apply Hsrc| |by apply Forall_nil].
    eexists. split; [by right; right; left|done].
Qed.

Lemma read_value_declares v k fs code ex fs' : read_value v k fs = Ok (code, ex, fs') ->
  extends fs fs' /\ well_declared fs' (value_block k v).1.
Proof.
  destruct v as [n|n hops|st n f ty]; cbn [read_value value_block].
  - intros [= _ _ <-]. split; [done|by apply Forall_nil].
  - change (argument n) with (expr_text (EArg n)). destruct (read_chain _ _ _ _ _) as [[[lines e] fs1]|] eqn:H; [|done].
    intros Heq. injection Heq as _ _ <-. by apply read_chain_declares in H.
  - destruct (ctype ty) as [ct|]; [|done]. destruct (reg _ _ _ fs) as [fs1|] eqn:Hr; [|done].
    apply reg_ok in Hr as [Hd He]. intros H. injection H as _ _ <-. split; [done|]. cbn [fst]. unfold well_declared.
    repeat (apply Forall_cons_2; cbn [stmt_declared expr_declared]; [try done|]); [|by apply Forall_nil].
    exists ct. split; [by right; left|done].
Qed.

(** ** The generator *)

Definition gen_ok (g : gen) : Prop :=
  exists bs, g_code g = codes bs /\ Forall (well_declared (g_fields g)) bs.

Section gen.
Variable sigs : option string.
Variable types : val.

Lemma gen_ok_add g fs b k : gen_ok g -> extends (g_fields g) fs -> well_declared fs b ->
  gen_ok (Gen fs (g_code g ++ code_of b) k).
Proof.
  intros (bs & Hc & Hb) He Hw. exists (bs ++ [b]). cbn [g_code g_fields]. split.
  - rewrite Hc, codes_app. unfold codes at 3. cbn [map concat]. by rewrite app_nil_r.
  - apply Forall_app. split; [|by apply Forall_singleton]. eapply Forall_impl; [exact Hb|].
    intros x. by apply well_declared_mono.
Qed.

Lemma take_gen_ok hook tok g ex g' : take sigs types hook tok g = Ok (ex, g') -> gen_ok g -> gen_ok g'.
Proof.
  unfold take. destruct (resolve_value _ _ _ _) as [v|]; [|done].
  destruct (read_value v _ _) as [[[code e] fs]|] eqn:Hr; [|done]. intros H Hg. injection H as _ <-.
  pose proof (read_value_text _ _ _ _ _ _ Hr) as Ht. apply read_value_declares in Hr as [He Hw].
  destruct (value_block (g_k g) v) as [b e']. destruct Ht as [_ Hc]. cbn [fst] in Hw.
  pose proof (gen_ok_add g fs b (g_k g + 1) Hg He Hw) as H. rewrite <- Hc in H.
  destruct code; [by rewrite app_nil_r in H|done].
Qed.

Lemma take_terms_gen_ok hook terms : forall g parts g',
  take_terms sigs types hook terms g = Ok (parts, g') -> gen_ok g -> gen_ok g'.
Proof.
  induction terms as [|t terms IH]; intros g parts g'; cbn [take_terms]; [by intros [= _ <-]|].
  destruct (term_from [] (str_list t)) as [[[lhs op] rhs]|]; [|done].
  destruct (take _ _ hook lhs g) as [[ex g1]|] eqn:Ht; [|done].
  destruct (take_terms _ _ hook terms g1) as [[ps g2]|] eqn:Hts; [|done]. intros [= _ <-] Hg.
  eapply IH; [exact Hts|]. by eapply take_gen_ok.
Qed.

Lemma canary_gen_ok ps : forall g g', canary types ps g = Ok g' -> gen_ok g -> gen_ok g'.
Proof.
  induction ps as [|[i p] ps IH]; intros g g'; cbn [canary]; [by intros [= <-]|].
  destruct (if String.eqb (q_kind p) "blob" then q_struct p else None) as [st|]; [|apply IH].
  destruct (dget st types) as [o|]; [|done]. destruct (truthy_opt o) as [[]|]; try done; [|apply IH].
  destruct d as [|[fld ty] d]; [done|]. destruct (ctype ty) as [ct|]; [|done].
  destruct (reg _ _ _ _) as [fs|] eqn:Hr; [|done]. apply reg_ok in Hr as [Hd He]. intros H Hg. injection H as <-.
  pose proof (gen_ok_add g fs [CanaryRead st i ct fld] (g_k g) Hg He) as H.
  rewrite (canary_text st i ct fld) in H. apply H. by apply Forall_singleton.
Qed.

Lemma take_action_gen_ok hook action cond ret g g' :
  take_action sigs types hook action cond g = Ok (ret, g') -> gen_ok g -> gen_ok g'.
Proof.
  unfold take_action. destruct (is_count action || _).
  - destruct (_ && _); [done|]. destruct (match g_code g with [] => _ | _ => Ok g end) as [g1|] eqn:Hc; [|done].
    intros H Hg. injection H as _ <-. destruct (g_code g); [by eapply canary_gen_ok|by injection Hc as <-].
  - destruct (take _ _ hook _ g) as [[ex g1]|] eqn:Ht; [|done]. intros H Hg. injection H as _ <-. by eapply take_gen_ok.
Qed.
End gen.

(** C28: a generated program declares what it reads.  The generator always ends its
    declarations.  Every struct the program reads a field of is declared once,
    after every struct it holds by value, with the fields the program reads; each
    read goes into a variable of the type its field is declared with, and an
    address taken inside a struct is of a member declared as a struct. *)
Theorem generated_program_declared sigs types sha1 expr :
  (forall fs, emit_all fs <> Err OutOfFuel) /\
  forall text fn section hook, codegen sigs types sha1 expr = Ok (text, fn, section, hook) ->
  exists fs decls blocks ret,
    text = program_text expr section hook fn (map snd decls) (map block_text blocks) ret /\
    NoDup (map fst decls) /\ (forall st, st ∈ map fst decls <-> st ∈ keys fs) /\
    Forall (well_declared fs) blocks /\
    forall l1 st d l2, decls = l1 ++ (st, d) :: l2 ->
      exists fl, aget st fs = Some fl /\ d = declaration st fl /\
        forall ct inner, ct ∈ map snd fl -> embedded_of ct = Some inner -> inner ∈ map fst l1.
Proof.
  split; [apply emit_all_total|]. intros text fn section hook. unfold codegen.
  destruct (parse expr) as [[[[sec hk] pred] action]|]; [|done].
  destruct (take_pred _ _ hk pred _) as [[cond g]|] eqn:Hp; [|done].
  destruct (take_action _ _ hk action cond g) as [[ret g1]|] eqn:Ha; [|done].
  destruct (emit_all (g_fields g1)) as [em|] eqn:He; [|done].
  intros H%Ok_inj. do 3 apply pair_equal_spec in H as [H <-]. subst text.
  assert (gen_ok g) as Hg.
  { unfold take_pred in Hp. destruct (String.eqb pred ""); [injection Hp as _ <-; by exists []|].
    destruct (predicate_terms pred) as [[join terms]|]; [|done].
    destruct (take_terms _ _ hk terms _) as [[parts g2]|] eqn:Ht; [|done]. injection Hp as _ <-.
    eapply take_terms_gen_ok; [exact Ht|]. by exists []. }
  eapply take_action_gen_ok in Hg as (bs & Hc & Hw); [|exact Ha].
  destruct (emit_all_ok _ _ He) as [[Hd Ho Hord] Hall]. destruct (codes_blocks bs) as (blocks & Hb & _ & Hs).
  exists (g_fields g1), (e_lines em), blocks, ret. rewrite Hd. split_and!; [|done|done| |done].
  - unfold program_text. by rewrite <- Hb, <- Hc.
  - rewrite Forall_forall in Hw |- *. intros b Hin. by apply Hw, Hs.
Qed.
