(* ===== verification/TraceRead.v ===== *)
(** * Reads through the catalog

    A value named through the parameters of a hook and the catalog of the build is
    read the way the build lays it out: along members that point to or hold the
    structs on the path, to a member that is a number or a pointer of the width
    read and not a bitfield. *)

From S2P Require Import Prelude PyVal Text Assoc TypeCat Trace TraceSem TraceSound.

(** ** The catalog as a document *)

Lemma get_table {A} (f : A -> val) d k : get k (table_val f d) = option_map f (aget k d).
Proof.
  induction d as [|[k' a] d IH]; [done|]. cbn [table_val map fst snd get aget]. fold (table_val f d).
  destruct (String.eqb_spec k k') as [->|Hk]; [by rewrite decide_True|]. by rewrite decide_False.
Qed.

Lemma get_catalog c k : get k (catalog_doc c) =
  if String.eqb k "__embedded__" then Some (VDict (table_val names_val (c_embedded c)))
  else if String.eqb k "__bitfields__" then Some (VDict (table_val bits_val (c_bits c)))
  else if String.eqb k "__ptr_targets__" then Some (VDict (table_val names_val (c_ptrs c)))
  else option_map names_val (aget k (c_scalars c)).
Proof. unfold catalog_doc. by rewrite !get_set, get_table. Qed.

Lemma names_get (rows : list (string * string)) f :
  get f (map (fun kv => (kv.1, VStr kv.2)) rows) = option_map VStr (aget f rows).
Proof. exact (get_table VStr rows f). Qed.

(** One row of a table of names. *)
Lemma table_row d st f v : lookup2 st f (VDict (table_val names_val d)) = Ok (Some v) ->
  exists w, v = VStr w /\ listed d st f w.
Proof.
  unfold lookup2, dget. rewrite get_table. unfold listed. destruct (aget st d) as [rows|]; [|done].
  cbn [option_map names_val]. intros [= H]. rewrite names_get in H.
  destruct (aget f rows) as [w|] eqn:Hw; [|done]. injection H as <-. by exists w; split; [|exists rows].
Qed.

Lemma reserved_row {A} (g : A -> val) (d : list (string * A)) f v ct :
  (forall a, exists r, g a = VDict r) -> dget f (VDict (table_val g d)) = Ok (Some v) -> ctype v <> Ok ct.
Proof.
  intros Hg. unfold dget. rewrite get_table. intros [= H]. destruct (aget f d) as [a|]; [|done].
  destruct (Hg a) as [r Hr]. injection H as <-. by rewrite Hr.
Qed.

(** A type the generator can read is that of a scalar of the catalog. *)
Lemma scalar_listed c st f v ct : lookup2 st f (VDict (catalog_doc c)) = Ok (Some v) -> ctype v = Ok ct ->
  exists w, v = VStr w /\ aget w CTYPE = Some ct /\ listed (c_scalars c) st f w.
Proof.
  unfold lookup2. change (dget st (VDict (catalog_doc c))) with (Ok (get st (catalog_doc c))). rewrite get_catalog.
  destruct (String.eqb st "__embedded__").
  { intros H Hc. exfalso. by eapply (reserved_row names_val) in H; [|by eexists]. }
  destruct (String.eqb st "__bitfields__").
  { intros H Hc. exfalso. by eapply (reserved_row bits_val) in H; [|by eexists]. }
  destruct (String.eqb st "__ptr_targets__").
  { intros H Hc. exfalso. by eapply (reserved_row names_val) in H; [|by eexists]. }
  destruct (aget st (c_scalars c)) as [rows|] eqn:Hst; [|done]. cbn [option_map]. unfold names_val at 1.
  cbn [dget]. intros [= H] Hc. rewrite names_get in H. destruct (aget f rows) as [w|] eqn:Hw; [|done].
  injection H as <-. exists w. split; [done|]. cbn [ctype] in Hc. destruct (aget w CTYPE) as [ct'|]; [|done].
  injection Hc as ->. split; [done|by exists rows].
Qed.

Lemma truthy_opt_some o v : truthy_opt o = Some v -> o = Some v.
Proof. destruct o as [v'|]; cbn [truthy_opt]; [|done]. case_match; [|done]. by intros [= ->]. Qed.

Lemma edges_of c key d : get key (catalog_doc c) = Some (VDict d) -> table_of (VDict (catalog_doc c)) key = Ok (VDict d).
Proof. intros H. unfold table_of, dget. by rewrite H. Qed.

(** ** Paths *)

(** The hops from a struct, each along a member of it. *)
Inductive linked (ts : TypeCat.types) : string -> list hop -> Prop :=
| linked_scalar cur m w ct : member_in ts cur m -> scalar_row ts m w -> aget w CTYPE = Some ct ->
    linked ts cur [Hop cur (m_name m) HScalar ct]
| linked_ptr cur m next hops : member_in ts cur m -> edge_row ts m next -> linked ts next hops ->
    linked ts cur (Hop cur (m_name m) HPtr next :: hops)
| linked_embedded cur m next hops : member_in ts cur m -> embedded_row ts m next -> linked ts next hops ->
    linked ts cur (Hop cur (m_name m) HEmbedded next :: hops).

Lemma follow_step types cur f g rest : follow types cur (f :: g :: rest) =
  let? edges := ptr_edges types in let? tgt := lookup2 cur f edges in
  let? inner := embedded_edges types in let? member := lookup2 cur f inner in
  match truthy_opt tgt, truthy_opt member with
  | Some _, Some _ => Err (DslError "ambiguous pointer/embedded metadata")
  | None, None => refuse_bitfield types cur f
  | Some t, None | None, Some t =>
      let kind := match truthy_opt tgt with Some _ => HPtr | None => HEmbedded end in
      match t with
      | VStr next => let? hops := follow types next (g :: rest) in Ok (option_map (cons (Hop cur f kind next)) hops)
      | VList _ | VDict _ => Err TypeError
      | _ => let? bfs := bitfields types in let? _ := dget "" bfs in Ok None
      end
  end.
Proof. reflexivity. Qed.

Lemma follow_linked raw parts : forall cur hops, follow (VDict (build raw)) cur parts = Ok (Some hops) ->
  linked (read_dump raw) cur hops /\ map h_field hops = parts.
Proof.
  pose proof (catalog_sound (read_dump raw)) as [Ss Sp _ Se]. unfold build. set (c := catalog_of (read_dump raw)) in *.
  induction parts as [|f parts IH]; intros cur hops; [done|].
  assert (forall A (k : result A), (let? r := bitfield_refusal (VDict (catalog_doc c)) cur f in
    if r : bool then Err (DslError "BITFIELD") else Ok None) <> Ok (Some hops)) as Hrefuse.
  { intros _ _ H. destruct (bitfield_refusal _ cur f) as [[]|]; done. }
  assert (refuse_bitfield (VDict (catalog_doc c)) cur f <> Ok (Some hops)) as Hr by (by eapply (Hrefuse unit (Ok tt))).
  clear Hrefuse. destruct parts as [|g parts].
  - cbn [follow]. destruct (lookup2 cur f _) as [o|] eqn:Hl; [|done]. destruct (truthy_opt o) as [ty|] eqn:Ht; [|done].
    apply truthy_opt_some in Ht as ->. destruct (ctype ty) as [ct|] eqn:Hc; [|done]. intros [= <-].
    destruct (scalar_listed _ _ _ _ _ Hl Hc) as (w & -> & Hw & Hlist). apply Ss in Hlist as (m & Hm & <- & Hrow).
    split; [by eapply linked_scalar|done].
  - rewrite follow_step. unfold ptr_edges, embedded_edges. rewrite (edges_of c "__ptr_targets__" (table_val names_val (c_ptrs c)))
      by (by rewrite get_catalog). rewrite (edges_of c "__embedded__" (table_val names_val (c_embedded c))) by (by rewrite get_catalog).
    destruct (lookup2 cur f (VDict (table_val names_val (c_ptrs c)))) as [tgt|] eqn:Ht; [|done].
    destruct (lookup2 cur f (VDict (table_val names_val (c_embedded c)))) as [mem|] eqn:Hm; [|done].
    destruct (truthy_opt tgt) as [t|] eqn:Htt, (truthy_opt mem) as [e|] eqn:Hmm; [done| | |done].
    + apply truthy_opt_some in Htt as ->. apply table_row in Ht as (next & -> & Hlist).
      destruct (follow (VDict (catalog_doc c)) next (g :: parts)) as [[hs|]|] eqn:Hf; [|done|done]. intros [= <-].
      apply IH in Hf as [Hf Hn]. apply Sp in Hlist as (m & Hin & <- & Hrow). split; [by eapply linked_ptr|].
      cbn [map h_field]. by rewrite Hn.
    + apply truthy_opt_some in Hmm as ->. apply table_row in Hm as (next & -> & Hlist).
      destruct (follow (VDict (catalog_doc c)) next (g :: parts)) as [[hs|]|] eqn:Hf; [|done|done]. intros [= <-].
      apply IH in Hf as [Hf Hn]. apply Se in Hlist as (m & Hin & <- & Hrow). split; [by eapply linked_embedded|].
      cbn [map h_field]. by rewrite Hn.
Qed.

(** ** Values *)

(** Parameter [n] of the hook is a pointer to a struct. *)
Definition struct_param (sigs : option string) (hook : string) (n : Z) (st : string) : Prop :=
  exists ps p, hook_params sigs hook = Some ps /\ (n, p) ∈ numbered_params ps /\ q_kind p = "blob" /\ q_struct p = Some st.

Lemma scalar_param_in name n ps i : scalar_param name n ps = Some i ->
  exists p, (i, p) ∈ ps /\ q_name p = name /\ mem_str (q_kind p) ["scalar"; "string"] = true.
Proof.
  induction ps as [|[j p] ps IH]; cbn [scalar_param]; [done|]. destruct (_ && _) eqn:E.
  - intros [= <-]. apply andb_true_iff in E as [[_ E1]%andb_true_iff E2]. apply String.eqb_eq in E1.
    exists p. split; [left|done].
  - intros (q & Hq & H)%IH. exists q. split; [by right|done].
Qed.

Lemma struct_field_in raw name n ps v : struct_field (VDict (build raw)) name n ps = Ok (Some v) ->
  exists i p st ty, (i, p) ∈ ps /\ q_kind p = "blob" /\ q_struct p = Some st /\ v = Field st i name ty /\
    lookup2 st name (VDict (build raw)) = Ok (Some ty).
Proof.
  induction ps as [|[j p] ps IH]; cbn [struct_field]; [done|].
  assert (struct_field (VDict (build raw)) name n ps = Ok (Some v) -> exists i q st ty, (i, q) ∈ (j, p) :: ps /\
    q_kind q = "blob" /\ q_struct q = Some st /\ v = Field st i name ty /\
    lookup2 st name (VDict (build raw)) = Ok (Some ty)) as Hrest.
  { intros (i & q & st & ty & Hin & H)%IH. exists i, q, st, ty. split; [by right|done]. }
  destruct (chosen n j && String.eqb (q_kind p) "blob") eqn:Hk; [|done].
  destruct (q_struct p) as [st|] eqn:Hst; [|done]. apply andb_true_iff in Hk as [_ Hk]. apply String.eqb_eq in Hk.
  unfold lookup2 in *. destruct (dget st (VDict (build raw))) as [o|] eqn:Ho; [|done].
  destruct (contained name (default (VDict []) o)) as [[]|]; [|done|done]. cbn [negb].
  destruct o as [d|]; cbn [from_option id]; [|done]. destruct d; try done.
  destruct (item name d) as [ty|] eqn:Hi; [|done]. intros H. injection H as <-.
  exists j, p, st, ty. split; [left|]. split_and!; [done..|]. rewrite Ho. cbn [dget]. unfold item in Hi.
  destruct (get name d); [|done]. by injection Hi as ->.
Qed.

Lemma resolve_name_sound sigs raw hook n name v : resolve_name sigs (VDict (build raw)) hook n name = Ok v -> readable v ->
  match v with
  | Scalar i => exists ps p, hook_params sigs hook = Some ps /\ (i, p) ∈ numbered_params ps /\
      mem_str (q_kind p) ["scalar"; "string"] = true
  | Chain _ _ => False
  | Field st i f ty => struct_param sigs hook i st /\
      exists m w, ty = VStr w /\ member_in (read_dump raw) st m /\ m_name m = f /\ scalar_row (read_dump raw) m w
  end.
Proof.
  unfold resolve_name. destruct (hook_params sigs hook) as [ps|] eqn:Hps; [|done].
  destruct (scalar_param name n (numbered_params ps)) as [i|] eqn:Hs.
  { intros H _. injection H as <-. apply scalar_param_in in Hs as (p & Hin & _ & Hk). by exists ps, p. }
  destruct (struct_field _ name n _) as [[u|]|] eqn:Hf; [| |done].
  - intros H Hread. injection H as <-.
    apply struct_field_in in Hf as (i & p & st & ty & Hin & Hk & Hst & -> & Hl). destruct Hread as [ct Hct].
    destruct (scalar_listed _ _ _ _ _ Hl Hct) as (w & -> & _ & Hlist).
    apply (sound_scalars _ _ (catalog_sound (read_dump raw))) in Hlist as (m & Hm & <- & Hrow).
    split; [by exists ps, p|by exists m, w].
  - destruct (refuse_bitfields _ _ _ _); done.
Qed.

Lemma resolve_path_sound sigs raw hook n names v : resolve_path sigs (VDict (build raw)) hook n names = Ok v ->
  exists i hops st, v = Chain i hops /\ struct_param sigs hook i st /\ linked (read_dump raw) st hops /\
    map h_field hops = names.
Proof.
  unfold resolve_path. destruct (hook_params sigs hook) as [ps|] eqn:Hps; [|done].
  assert (forall starts i hops, first_chain (VDict (build raw)) starts names = Ok (Some (i, hops)) ->
    exists st, (i, st) ∈ starts /\ follow (VDict (build raw)) st names = Ok (Some hops)) as Hfc.
  { induction starts as [|[j st] starts IH]; intros i hops; cbn [first_chain]; [done|].
    destruct (follow _ st names) as [[hs|]|] eqn:Hf; [| |done].
    - intros H. injection H as <- <-. exists st. split; [left|done].
    - intros (st' & Hin & H)%IH. exists st'. split; [by right|done]. }
  specialize (Hfc (omap (start_of n) (numbered_params ps))).
  destruct (omap (start_of n) (numbered_params ps)) as [|s starts] eqn:Hst; [done|].
  destruct (first_chain _ _ names) as [[[i hops]|]|]; [|done|done]. intros H. injection H as <-.
  destruct (Hfc i hops eq_refl) as (st & Hin & Hf). rewrite <- Hst in Hin.
  apply list_elem_of_omap in Hin as ([j p] & Hin & Hs). unfold start_of in Hs. cbn [fst snd] in Hs.
  destruct (q_struct p) as [st'|] eqn:Hq; [|done]. destruct (String.eqb_spec (q_kind p) "blob") as [Hk|]; [|done].
  destruct (chosen n j); [|done]. injection Hs as <- <-. apply follow_linked in Hf as [Hl Hn].
  exists j, hops, st'. split_and!; [done|by exists ps, p|done|done].
Qed.

Lemma match_arg_bounds l n t : match_arg l = Some (n, t) -> 0 <= n <= 4.
Proof.
  unfold match_arg. destruct (literal _ _) as [[|c t']|]; [done| |done].
  destruct ((48 <=? ord c) && (ord c <=? 52)) eqn:E; [|done]. intros [= <- _]. lia.
Qed.

(** C26: a generated program reads what the build's types say.  With the catalog
    made from a dump of the types, a value named through parameters and fields is
    an argument, or a field or a path from a parameter that is a pointer to a
    struct: a path goes, name by name, along members that are pointers to, or hold,
    the next struct, and ends in a member read at exactly its own width; no member
    on it is a bitfield. *)
Theorem catalogued_reads_sound sigs raw hook tok v :
  resolve_value sigs (VDict (build raw)) hook tok = Ok v -> readable v -> match_field (str_list tok) = None ->
  let ts := read_dump raw in
  match v with
  | Scalar n => (0 <= n <= 4 /\ match_arg (str_list tok) = Some (n, [])) \/
      exists ps p, hook_params sigs hook = Some ps /\ (n, p) ∈ numbered_params ps /\
        mem_str (q_kind p) ["scalar"; "string"] = true
  | Chain n hops => exists st names, struct_param sigs hook n st /\ linked ts st hops /\ map h_field hops = names /\
      exists argidx, match_dotted (str_list tok) = Some (argidx, names)
  | Field st n f ty => struct_param sigs hook n st /\
      exists m w, ty = VStr w /\ member_in ts st m /\ m_name m = f /\ scalar_row ts m w
  end.
Proof.
  intros H Hread Hf. cbv zeta. unfold resolve_value in H. rewrite Hf in H.
  assert (match match_dotted (str_list tok) with
    | Some (n, [name]) => resolve_name sigs (VDict (build raw)) hook n name
    | Some (n, parts) => resolve_path sigs (VDict (build raw)) hook n parts
    | None => Err (DslError "bad value")
    end = Ok v \/ exists n, match_arg (str_list tok) = Some (n, []) /\ v = Scalar n) as [Hd|(n & Ha & ->)].
  { destruct (match_arg (str_list tok)) as [[n [|c t]]|] eqn:Ha; [right|by left..].
    injection H as <-. by exists n. }
  - destruct (match_dotted (str_list tok)) as [[n' names]|] eqn:Hm; [|done].
    destruct names as [|name [|name' names]].
    2: { apply resolve_name_sound in Hd; [|done]. destruct v; [by right|done|done]. }
    all: apply resolve_path_sound in Hd as (i & hops & st & -> & Hp & Hl & Hn); exists st, (map h_field hops).
    all: rewrite Hn; split_and!; [done|done|done|by eexists].
  - left. split; [|done]. by apply match_arg_bounds in Ha.
Qed.
