(* ===== verification/TraceIndex.v ===== *)
(** * One index of signatures, two readers

    The index [mk_probe] builds from the debug information is read by the probe
    generator ([load_index]) and by the trace language ([hook_params]). *)

From S2P Require Import Prelude PyVal Decimal Text Assoc Journal Probe Trace.

(** A parameter of the index as the trace language sees it. *)
Definition as_trace (p : param) : tparam :=
  TParam (or_else (pa_name p) "") (pa_kind p) (struct_ptr (str_list (pa_detail p))).

Lemma trace_param_token tok : trace_param tok = option_map as_trace (parse_token tok).
Proof.
  unfold trace_param, parse_token, as_trace. destruct (first_colon tok) as [[a rest]|]; [|done].
  destruct (first_colon rest) as [[b c]|]; [|done]. cbn [option_map pa_name pa_kind pa_detail].
  rewrite str_list_str. f_equal. f_equal. by destruct a.
Qed.

Definition row_spec (ps : list param) : string := String.concat "|" (map encode_param ps).

Lemma spec_params ps : Forall storable ps ->
  omap trace_param (split_char "|" (str_list (row_spec ps)) []) = map as_trace (map stored ps).
Proof.
  intros H. rewrite <- (parse_params ps H). unfold row_spec. generalize (split_char "|" (str_list (String.concat "|" (map encode_param ps))) []).
  intros l. induction l as [|t l IH]; [done|]. cbn. rewrite trace_param_token.
  destruct (parse_token t) as [q|]; cbn; rewrite IH; done.
Qed.

Lemma row_spec_nonempty p ps : row_spec (p :: ps) <> "".
Proof.
  intros H. assert (str_list (row_spec (p :: ps)) = []) as Hl by (by rewrite H). revert Hl. unfold row_spec. cbn [map].
  destruct (map encode_param ps) as [|q qs].
  - cbn [String.concat]. rewrite encode_param_list. by destruct (str_list _).
  - change (String.concat "|" (encode_param p :: q :: qs))
      with (String.append (encode_param p) (String.append "|" (String.concat "|" (q :: qs)))).
    rewrite str_list_append, encode_param_list. by destruct (str_list (replace_char _ _ _)).
Qed.

(** One row of the cache. *)
Lemma sig_row cache name ps : readable name ps ->
  sig_line cache (str_list (index_row name ps)) = aset name (row_spec ps) cache.
Proof.
  intros (Hn & Hh & Hps). unfold sig_line, tab_fields. rewrite index_row_list.
  assert (exists c t, str_list name ++ chr 9 :: str_list (py_str (len ps)) ++
    chr 9 :: str_list (String.concat "|" (map encode_param ps)) = c :: t /\ (ord c =? 35) = false) as (c & t & E & Hc).
  { destruct name as [|c s]; [by eexists _, _|]. cbn [str_list app]. do 2 eexists. split; [done|].
    cbn [starts_with] in Hh. destruct (Z.eqb_spec (ord c) 35) as [E|]; [|done].
    rewrite <- (chr_ord c), E in Hh. done. }
  rewrite E, Hc, <- E.
  rewrite split_char_sep by (by apply clean_without_tab). cbn [app].
  rewrite split_char_sep by (eapply Forall_impl; [apply py_str_digits, len_nonneg|];
    intros ch Hch ->; by apply digit_clean in Hch as [? _]). cbn [app].
  rewrite split_char_word by (by apply clean_without_tab, encoded_clean). cbn [app map].
  by rewrite !list_str_list.
Qed.

Lemma sig_rows fn kvs : NoDup (map fst kvs) ->
  Forall (fun kv : string * (Z * Z * list param) => readable kv.1 kv.2.2) kvs -> forall cache,
  aget fn (fold_left sig_line (map (fun kv => str_list (index_row kv.1 kv.2.2)) kvs) cache) =
  match aget fn kvs with Some (_, ps) => Some (row_spec ps) | None => aget fn cache end.
Proof.
  induction kvs as [|[k [sc ps]] kvs IH]; intros Hnd Hr cache; [done|].
  cbn [map fst snd] in *. apply NoDup_cons in Hnd as [Hk Hnd]. apply Forall_cons in Hr as [Hr0 Hr].
  cbn [fold_left fst snd] in *. rewrite sig_row by done. rewrite IH by done. cbn [aget].
  case_decide as E; [subst k|].
  - assert (aget fn kvs = None) as -> by (by apply aget_none). apply aget_aset_eq.
  - by rewrite aget_aset_ne.
Qed.

Lemma find_row_absent want kvs : want ∉ map fst kvs ->
  Forall (fun kv : string * (Z * Z * list param) => readable kv.1 kv.2.2) kvs ->
  find_row want (map (fun kv => str_list (index_row kv.1 kv.2.2)) kvs) = None.
Proof.
  induction kvs as [|[k [sc ps]] kvs IH]; [done|]. cbn [map fst snd]. intros Hw Hr.
  apply not_elem_of_cons in Hw as [Hne Hw]. apply Forall_cons in Hr as [Hr0 Hr]. cbn [fst snd] in Hr0.
  rewrite find_row_other by (done || by intros ->). by apply IH.
Qed.

(** One index of signatures serves the probe generator and the trace language.
    In the text written for the debug information of a build, whose names and
    details hold no tab and no line break, both find the same parameters of a
    function that has some, in order, with the kinds recorded and the names and
    details as stored; the trace language takes the struct a detail points to
    from the detail stored.  A function without parameters has no signature in the
    trace language, and one that is not in the index has none in either. *)
Theorem signatures_serve_both bid seen fn : clean bid -> all_readable seen ->
  let text := index_text bid seen in
  match seen !! fn with
  | Some (_, ps) =>
      load_index text fn = Some (map stored ps) /\
      hook_params (Some text) fn = match ps with [] => None | _ => Some (map as_trace (map stored ps)) end
  | None => load_index text fn = None /\ hook_params (Some text) fn = None
  end.
Proof.
  intros Hb Hr. cbv zeta. unfold hook_params, sig_cache.
  assert (aget fn (fold_left sig_line (file_lines (str_list (index_text bid seen)) []) []) =
    match aget fn (written seen) with Some (_, ps) => Some (row_spec ps) | None => None end) as ->.
  { destruct (index_file_lines bid seen Hb Hr) as (l1 & l2 & l3 & Hc & ->).
    rewrite !Forall_cons in Hc. destruct Hc as ([t1 ->] & [t2 ->] & [t3 ->] & _).
    cbn [app fold_left sig_line]. change (ord "#" =? 35) with true. cbv iota.
    rewrite sig_rows; [|apply written_nodup|by apply written_readable]. done. }
  destruct (seen !! fn) as [[sc ps]|] eqn:Hfn.
  - split; [by eapply index_roundtrip|].
    assert (aget fn (written seen) = Some (sc, ps)) as ->.
    { apply in_aget; [apply written_nodup|by apply written_in]. }
    destruct ps as [|p ps]; [done|]. pose proof (row_spec_nonempty p ps) as Hne.
    rewrite <- spec_params by (by apply Hr in Hfn as (_ & _ & ?)).
    destruct (row_spec (p :: ps)); done.
  - assert (fn ∉ map fst (written seen)) as Hout.
    { rewrite written_perm. intros ([k v] & -> & Hin)%list_elem_of_fmap. apply elem_of_map_to_list in Hin.
      discriminate (eq_trans (eq_sym Hfn) Hin). }
    assert (aget fn (written seen) = None) as -> by by apply aget_none. split; [|done]. unfold load_index.
    destruct (index_file_lines bid seen Hb Hr) as (l1 & l2 & l3 & Hc & ->).
    rewrite !Forall_cons in Hc. destruct Hc as ([t1 ->] & [t2 ->] & [t3 ->] & _).
    cbn [app find_row]. change (ord "#" =? 35) with true. cbv iota.
    apply find_row_absent; [done|by apply written_readable].
Qed.

Lemma signatures_serve_both_witness :
  hook_params (Some (index_text "00ff" {["rst_why" := ((1, 1), [demo_param])]})) "rst_why" =
    Some [TParam "uf" "blob" (Some "a__b")].
Proof.
  destruct (signatures_serve_both "00ff" {["rst_why" := ((1, 1), [demo_param])]} "rst_why") as [_ H].
  - repeat constructor; discriminate.
  - intros name sc' ps' [<- [= <- <-]]%lookup_singleton_Some.
    split; [repeat constructor; discriminate|]. split; [reflexivity|].
    constructor; [|constructor]. constructor; repeat constructor; discriminate.
  - rewrite H. reflexivity.
Defined.
