(* ===== verification/TraceDemo.v ===== *)
(** * A build and its expressions

    The index and the dump of a small build, the programs generated against them,
    and an expression that reads outside the arguments of the context. *)

From S2P Require Import Prelude PyVal Text Assoc TypeCat Trace TraceSem TraceSound TraceDecl TraceRead.

Definition row (fields : list string) : string := cat [String.concat tab fields; newline].

Definition demo_sigs : string :=
  cat ["# hook	arity	parameters"; newline;
       row ["on_conn"; "2"; "c:blob:struct conn *|flags:scalar:u32"];
       row ["six"; "6"; "a:scalar:int|b:scalar:int|c:scalar:int|d:scalar:int|e:scalar:int|f:scalar:int"]].
Definition demo_types : val := VDict (build demo_dump).
Definition demo_sha1 (_ : bytes) : string := "0123456789".

Definition demo_expr : string := "fentry/on_conn /args.next.port == 443 && args.flags != 0/ { args.stats.hits }".

Definition demo_chain : list hop := [Hop "conn" "next" HPtr "conn"; Hop "conn" "port" HScalar "__u32"].

Definition demo_plan : plan :=
  Plan (Some (false, [(Chain 0 demo_chain, "==", "443"); (Scalar 1, "!=", "0")]))
       (Reading (Chain 0 [Hop "conn" "stats" HEmbedded "stats"; Hop "stats" "hits" HScalar "__u64"])).

Lemma demo_planned : plan_of (Some demo_sigs) demo_types demo_expr = Ok demo_plan.
Proof. vm_compute. reflexivity. Qed.

Definition demo_code (e : string) : result (string * string * string * string) :=
  codegen (Some demo_sigs) demo_types demo_sha1 e.

Definition demo_program : string * string * string * string :=
  match demo_code demo_expr with Ok p => p | Err _ => ("", "", "", "") end.

Lemma demo_generates : demo_code demo_expr = Ok demo_program.
Proof. vm_compute. reflexivity. Qed.

Lemma demo_generates_parts : demo_code demo_expr =
  Ok (demo_program.1.1.1, demo_program.1.1.2, demo_program.1.2, demo_program.2).
Proof. rewrite demo_generates. by destruct demo_program as [[[??]?]?]. Qed.

(** The memory of a call: [next] of the first argument at 16 points to 64, whose
    port is 443, and the hits are 9. *)
Definition demo_ctx : list Z := [16; 1; 1; 1; 1].
Definition demo_off (st f : string) : Z :=
  default 0 (aget f [("port", 0); ("next", 8); ("stats", 16); ("hits", 0)]).
Definition demo_mem (a size : Z) : option Z :=
  match a, size with 24, 8 => Some 64 | 64, 4 => Some 443 | 32, 8 => Some 9 | _, _ => None end.

Lemma demo_plan_plain : plain_plan demo_plan.
Proof. unfold plain_plan. cbn [pl_pred demo_plan]. by rewrite !Forall_cons. Qed.

Lemma demo_meaning : plan_meaning (word_at demo_ctx) demo_mem demo_off demo_plan = 9.
Proof. vm_compute. reflexivity. Qed.

(** The expression reads two arguments. *)
Lemma demo_args n : n ∈ plan_args demo_plan \/ 0 <= n < len (default [] (hook_params (Some demo_sigs) demo_program.2)) ->
  0 <= n < 5.
Proof.
  replace (len (default [] (hook_params (Some demo_sigs) demo_program.2))) with 2 by (vm_compute; reflexivity).
  intros [Hn|Hn]; [|lia].
  change (n ∈ [0; 1; 0]) in Hn. repeat (apply elem_of_cons in Hn as [->|Hn]; [lia|]). by apply elem_of_nil in Hn.
Qed.

Lemma generated_program_means_witness : exists blocks r,
  (forall n, n ∈ [0; 1; 0] -> n ∈ program_args (concat blocks) r) /\
  run demo_ctx demo_mem demo_off (concat blocks) r = Some 9.
Proof.
  destruct (generated_program_means _ _ _ _ _ _ _ _ demo_generates_parts) as (p & decls & blocks & r & Hp & _ & _ & Hn & Honly & Hm).
  exists blocks, r. pose proof (Ok_inj _ _ (eq_trans (eq_sym Hp) demo_planned)) as ->.
  split; [exact Hn|]. rewrite <- demo_meaning.
  exact (Hm demo_plan_plain (fun n H => demo_args n (Honly n H)) demo_ctx demo_mem demo_off eq_refl).
Defined.

Lemma generated_program_declared_witness : exists (fs : fields) decls, NoDup (map fst decls) /\
  (forall st, st ∈ map fst decls <-> st ∈ keys fs) /\
  exists blocks ret, demo_program.1.1.1 =
    program_text demo_expr demo_program.1.2 demo_program.2 demo_program.1.1.2 (map snd decls) (map block_text blocks) ret.
Proof.
  destruct (generated_program_declared (Some demo_sigs) demo_types demo_sha1 demo_expr) as [_ H].
  destruct (H _ _ _ _ demo_generates_parts) as (fs & decls & blocks & ret & Ht & Hn & Hk & _).
  exists fs, decls. split; [exact Hn|]. split; [exact Hk|]. exists blocks, ret. exact Ht.
Defined.

Lemma demo_resolves :
  resolve_value (Some demo_sigs) demo_types "on_conn" "args.next.port" = Ok (Chain 0 demo_chain).
Proof. vm_compute. reflexivity. Qed.

Lemma catalogued_reads_sound_witness : exists st, linked (read_dump demo_dump) st demo_chain.
Proof.
  destruct (catalogued_reads_sound _ _ _ _ _ demo_resolves eq_refl eq_refl) as (st & names & _ & H & _).
  exists st. exact H.
Defined.

(** ** What the context does not hold

    The context of a program has five arguments; a sixth parameter named in an
    expression is read after them. *)
Lemma sixth_argument_outside mem off ctx : length ctx = 5%nat ->
  run ctx mem off [] (RValue None (EArg 5)) = None.
Proof. intros H. do 5 (destruct ctx as [|? ctx]; [done|]). by destruct ctx. Qed.

Lemma sixth_argument :
  demo_code "fentry/six { args.f }" =
    Ok (program_text "fentry/six { args.f }" "fentry" "six" "tt_six_args_f_012345" [] []
          "    return c->arg[5];                 /* value; host samples it */",
        "tt_six_args_f_012345", "fentry", "six") /\
  context_definition "fentry" = "struct ls_ctx_generic { __u64 arg[5]; };".
Proof. split; [vm_compute; reflexivity|reflexivity]. Qed.

(** A program that only reads an argument declares no struct, so its object holds
    no relocation: the read that adds one is made for a count or a shield only. *)
Lemma value_without_relocation :
  demo_code "fentry/on_conn { arg1 }" =
    Ok (program_text "fentry/on_conn { arg1 }" "fentry" "on_conn" "tt_on_conn_arg1_012345" [] []
          "    return c->arg[1];                 /* value; host samples it */",
        "tt_on_conn_arg1_012345", "fentry", "on_conn").
Proof. vm_compute. reflexivity. Qed.

(** A constant with a leading zero is another number in C. *)
Lemma octal_predicate : c_literal "010" = 8 /\ integer_value "010" = 10.
Proof. done. Qed.
