(* ===== verification/Hist.v ===== *)
(** * The histogram of values (substrate/tmmtrace.py, [hist_stdin])

    The integers of a text counted in buckets by powers of two, and the rows
    printed for them. *)

From S2P Require Import Prelude PyVal Text Assoc.

(** ** [hist_stdin] *)

Fixpoint drop_dashes (l : list ascii) : list ascii :=
  match l with
  | c :: t => if ord c =? 45 then drop_dashes t else l
  | [] => []
  end.

(** [x.lstrip("-").isdigit()]. *)
Definition is_number (x : string) : bool :=
  match drop_dashes (str_list x) with [] => false | l => forallb is_digit l end.

Definition hist_values (text : string) : result (list Z) :=
  mapM_r (fun x => match py_int x with Some z => Ok z | None => Err (ValueError "invalid literal for int()") end)
    (List.filter is_number (str_split text)).

Definition bit_length (v : Z) : Z := if v =? 0 then 0 else Z.log2 (Z.abs v) + 1.
Definition bucket (v : Z) : Z := if 0 <? v then bit_length v - 1 else -1.

Definition count_value (buckets : list (Z * Z)) (v : Z) : list (Z * Z) :=
  let b := bucket v in aset b (default 0 (aget b buckets) + 1) buckets.
Definition count_buckets (vals : list Z) : list (Z * Z) := fold_left count_value vals [].

(** [min] and [max] of a list that is not empty. *)
Definition minimum (l : list Z) : Z := match l with [] => 0 | a :: t => fold_left Z.min t a end.
Definition maximum (l : list Z) : Z := match l with [] => 0 | a :: t => fold_left Z.max t a end.

Definition hist_rows (buckets : list (Z * Z)) : list (Z * Z) :=
  let lo := minimum (keys buckets) in
  map (fun i => (lo + i, default 0 (aget (lo + i) buckets))) (range (maximum (keys buckets) + 1 - lo)).

(** [int(40 * n / hi)]: the float is the quotient rounded, and below the next
    integer for counts under 2 ^ 47. *)
Definition bar (n hi : Z) : Z := if hi =? 0 then 0 else 40 * n / hi.

Definition pad_left (n : nat) (s : string) : string :=
  list_str (replicate (n - String.length s) (chr 32) ++ str_list s).
Definition pad_right (n : nat) (s : string) : string :=
  list_str (str_list s ++ replicate (n - String.length s) (chr 32)).

Definition row_range (b : Z) : string :=
  if b <? 0 then "(<=0)" else cat ["["; py_str (Z.shiftl 1 b); ", "; py_str (Z.shiftl 1 (b + 1)); ")"].
Definition row_text (hi : Z) (row : Z * Z) : string :=
  cat ["  "; pad_right 14 (row_range row.1); " "; pad_left 6 (py_str row.2); " |";
       list_str (replicate (Z.to_nat (bar row.2 hi)) (chr 64)); newline].

Definition hist_stdin (text : string) : result string :=
  let? vals := hist_values text in
  match vals with
  | [] => Ok (cat ["(no values)"; newline])
  | _ =>
      let buckets := count_buckets vals in
      Ok (cat (cat ["count "; py_str (len vals); "  min "; py_str (minimum vals); "  max "; py_str (maximum vals); newline]
               :: map (row_text (maximum (map snd buckets))) (hist_rows buckets)))
  end.

(** ** Least and greatest *)

Lemma fold_min_spec l : forall a, fold_left Z.min l a ∈ a :: l /\ forall x, x ∈ a :: l -> fold_left Z.min l a <= x.
Proof.
  induction l as [|b l IH]; intros a; cbn [fold_left].
  - split; [left|]. by intros x ->%list_elem_of_singleton.
  - destruct (IH (Z.min a b)) as [Hin Hle]. split.
    + apply elem_of_cons in Hin as [->|Hin]; [|by do 2 right].
      destruct (Z.min_spec a b) as [[_ ->]|[_ ->]]; [left|right; left].
    + intros x Hx. pose proof (Hle _ (list_elem_of_here _ _)) as Hm.
      apply elem_of_cons in Hx as [->|[->|Hx]%elem_of_cons]; [lia..|]. by apply Hle; right.
Qed.

Lemma fold_max_spec l : forall a, fold_left Z.max l a ∈ a :: l /\ forall x, x ∈ a :: l -> x <= fold_left Z.max l a.
Proof.
  induction l as [|b l IH]; intros a; cbn [fold_left].
  - split; [left|]. by intros x ->%list_elem_of_singleton.
  - destruct (IH (Z.max a b)) as [Hin Hle]. split.
    + apply elem_of_cons in Hin as [->|Hin]; [|by do 2 right].
      destruct (Z.max_spec a b) as [[_ ->]|[_ ->]]; [right; left|left].
    + intros x Hx. pose proof (Hle _ (list_elem_of_here _ _)) as Hm.
      apply elem_of_cons in Hx as [->|[->|Hx]%elem_of_cons]; [lia..|]. by apply Hle; right.
Qed.

Lemma minimum_spec l : l <> [] -> minimum l ∈ l /\ forall x, x ∈ l -> minimum l <= x.
Proof. destruct l as [|a l]; [done|]. intros _. apply fold_min_spec. Qed.
Lemma maximum_spec l : l <> [] -> maximum l ∈ l /\ forall x, x ∈ l -> x <= maximum l.
Proof. destruct l as [|a l]; [done|]. intros _. apply fold_max_spec. Qed.

(** ** Buckets *)

(** The values of a row. *)
Definition in_row (b v : Z) : Prop := if b <? 0 then v <= 0 else 2 ^ b <= v < 2 ^ (b + 1).
#[export] Instance in_row_dec b v : Decision (in_row b v).
Proof. unfold in_row. destruct (b <? 0); apply _. Defined.

Lemma bucket_low v : -1 <= bucket v.
Proof. unfold bucket, bit_length. pose proof (Z.log2_nonneg (Z.abs v)). destruct (Z.ltb_spec 0 v), (Z.eqb_spec v 0); lia. Qed.

Lemma bucket_row b v : -1 <= b -> bucket v = b <-> in_row b v.
Proof.
  intros Hb. unfold bucket, in_row, bit_length. destruct (Z.ltb_spec 0 v) as [Hv|Hv], (Z.ltb_spec b 0) as [Hb0|Hb0].
  - destruct (Z.eqb_spec v 0); [lia|]. pose proof (Z.log2_nonneg (Z.abs v)). lia.
  - destruct (Z.eqb_spec v 0); [lia|]. rewrite Z.abs_eq by lia. split.
    + intros <-. replace (Z.log2 v + 1 - 1) with (Z.log2 v) by lia. by apply Z.log2_spec.
    + intros H. rewrite (Z.log2_unique v b) by (unfold Z.succ; lia). lia.
  - lia.
  - split; [lia|]. pose proof (Z.pow_pos_nonneg 2 b). lia.
Qed.

Definition tally (b : Z) (vals : list Z) : Z := len (filter (fun v => bucket v = b) vals).

Lemma tally_cons b v vals : tally b (v :: vals) = (if decide (bucket v = b) then 1 else 0) + tally b vals.
Proof.
  unfold tally. destruct (decide (bucket v = b)) as [H|H].
  - rewrite filter_cons_True by done. unfold len. cbn [length]. lia.
  - by rewrite filter_cons_False.
Qed.

Lemma counted vals : forall d b, default 0 (aget b (fold_left count_value vals d)) = default 0 (aget b d) + tally b vals.
Proof.
  induction vals as [|v vals IH]; intros d b; [change (tally b []) with 0; cbn [fold_left]; lia|]. cbn [fold_left]. rewrite IH, tally_cons.
  unfold count_value. rewrite aget_aset. destruct (decide (b = bucket v)) as [->|Hb].
  - rewrite decide_True by done. cbn [from_option id]. lia.
  - rewrite decide_False by (by intros <-). lia.
Qed.

Lemma counted_keys vals : forall d b, b ∈ keys (fold_left count_value vals d) <-> b ∈ keys d \/ b ∈ map bucket vals.
Proof.
  induction vals as [|v vals IH]; intros d b; cbn [fold_left map].
  - split; [by left|]. intros [H|H]; [done|by apply not_elem_of_nil in H].
  - rewrite IH, elem_of_cons. unfold count_value. rewrite elem_keys_aset. naive_solver.
Qed.

Lemma counted_nodup vals : forall d, NoDup (keys d) -> NoDup (keys (fold_left count_value vals d)).
Proof. induction vals as [|v vals IH]; intros d Hd; [done|]. cbn [fold_left]. apply IH. by apply nodup_aset. Qed.

Lemma buckets_get vals b : default 0 (aget b (count_buckets vals)) = tally b vals.
Proof. unfold count_buckets. by rewrite counted. Qed.

Lemma buckets_keys vals b : b ∈ keys (count_buckets vals) <-> exists v, v ∈ vals /\ bucket v = b.
Proof.
  unfold count_buckets. rewrite counted_keys, list_elem_of_fmap. split.
  - intros [H|(v & -> & H)]; [by apply not_elem_of_nil in H|by exists v].
  - intros (v & H & <-). right. by exists v.
Qed.

Lemma tally_nonneg b vals : 0 <= tally b vals.
Proof. apply len_nonneg. Qed.

Lemma tally_none b vals : (forall v, v ∈ vals -> bucket v <> b) -> tally b vals = 0.
Proof.
  induction vals as [|v vals IH]; intros H; [done|]. rewrite tally_cons, decide_False by (by apply H; left).
  apply IH. intros w Hw. by apply H; right.
Qed.

Lemma tally_some b v vals : v ∈ vals -> bucket v = b -> 1 <= tally b vals.
Proof.
  induction 1 as [v vals|v w vals Hv IH]; intros Hb; rewrite tally_cons; pose proof (tally_nonneg b vals).
  - rewrite decide_True by done. lia.
  - specialize (IH Hb). case_decide; lia.
Qed.

Definition total (rows : list (Z * Z)) : Z := foldr (fun r n => r.2 + n) 0 rows.

(** The counts of the buckets from [lo] on. *)
Lemma total_tallies lo n vals :
  (forall v, v ∈ vals -> lo <= bucket v < lo + Z.of_nat n) ->
  total (map (fun i => (lo + i, tally (lo + i) vals)) (map Z.of_nat (seq 0 n))) = len vals.
Proof.
  induction vals as [|v vals IH]; intros H.
  - clear H. unfold total. induction (map Z.of_nat (seq 0 n)) as [|i l IHl]; [done|]. cbn [map foldr snd]. by rewrite IHl.
  - assert (forall l : list Z, NoDup l -> total (map (fun i => (lo + i, tally (lo + i) (v :: vals))) l) =
      (if decide (bucket v - lo ∈ l) then 1 else 0) + total (map (fun i => (lo + i, tally (lo + i) vals)) l)) as Hsplit.
    { induction l as [|i l IHl]; [done|]. intros [Hi Hl]%NoDup_cons. specialize (IHl Hl). unfold total in *.
      cbn [map foldr snd]. rewrite IHl, tally_cons. destruct (decide (bucket v = lo + i)) as [E|E].
      - rewrite (decide_False (P := bucket v - lo ∈ l)), decide_True; [lia|..].
        + replace (bucket v - lo) with i by lia. left.
        + intros Hin. apply Hi. by replace i with (bucket v - lo) by lia.
      - destruct (decide (bucket v - lo ∈ l)) as [Hin|Hin].
        + rewrite decide_True by (by right). lia.
        + rewrite decide_False; [lia|]. intros [Heq|?]%elem_of_cons; [lia|done]. }
    rewrite Hsplit, decide_True, IH; [unfold len; cbn [length]; lia|..].
    + intros w Hw. by apply H; right.
    + specialize (H v ltac:(left)). apply list_elem_of_fmap. exists (Z.to_nat (bucket v - lo)).
      split; [lia|]. apply elem_of_seq. lia.
    + apply NoDup_fmap; [intros ?? E; lia|apply NoDup_seq].
Qed.

(** ** Rows *)

Lemma some_in {A} (l : list A) : l <> [] -> exists x, x ∈ l.
Proof. destruct l as [|x l]; [done|]. exists x. left. Qed.

Lemma bucket_mono v w : v <= w -> bucket v <= bucket w.
Proof.
  intros H. unfold bucket, bit_length. destruct (Z.ltb_spec 0 v), (Z.ltb_spec 0 w), (Z.eqb_spec v 0), (Z.eqb_spec w 0);
    try lia.
  - rewrite !Z.abs_eq by lia. pose proof (Z.log2_le_mono v w H). lia.
  - pose proof (Z.log2_nonneg (Z.abs w)). lia.
  - pose proof (Z.log2_nonneg (Z.abs w)). lia.
Qed.

Section rows.
Variable vals : list Z.
Hypothesis Hvals : vals <> [].
Let buckets := count_buckets vals.

Lemma key_of v : v ∈ vals -> bucket v ∈ keys buckets.
Proof. intros Hv. apply buckets_keys. by exists v. Qed.

Lemma keys_some : keys buckets <> [].
Proof. destruct (some_in vals Hvals) as [v Hv]. intros E. pose proof (key_of v Hv) as H. rewrite E in H. by apply not_elem_of_nil in H. Qed.

Lemma lowest_key : minimum (keys buckets) = bucket (minimum vals).
Proof.
  destruct (minimum_spec _ keys_some) as [Hin Hle], (minimum_spec _ Hvals) as [Hv Hm]. apply Z.le_antisymm.
  - by apply Hle, key_of.
  - apply buckets_keys in Hin as (v & Hin & <-). apply bucket_mono. by apply Hm.
Qed.

Lemma highest_key : maximum (keys buckets) = bucket (maximum vals).
Proof.
  destruct (maximum_spec _ keys_some) as [Hin Hle], (maximum_spec _ Hvals) as [Hv Hm]. apply Z.le_antisymm.
  - apply buckets_keys in Hin as (v & Hin & <-). apply bucket_mono. by apply Hm.
  - by apply Hle, key_of.
Qed.

Lemma rows_of_buckets : hist_rows buckets =
  map (fun i => (bucket (minimum vals) + i, tally (bucket (minimum vals) + i) vals))
    (range (bucket (maximum vals) + 1 - bucket (minimum vals))).
Proof.
  unfold hist_rows. rewrite lowest_key, highest_key. apply map_ext. intros i. unfold buckets. by rewrite buckets_get.
Qed.

Lemma bucket_range v : v ∈ vals -> bucket (minimum vals) <= bucket v <= bucket (maximum vals).
Proof. intros Hv. split; apply bucket_mono; [by apply minimum_spec|by apply maximum_spec]. Qed.

(** The greatest count. *)
Lemma counts_tallies n : n ∈ map snd buckets <-> exists v, v ∈ vals /\ n = tally (bucket v) vals.
Proof.
  assert (NoDup (keys buckets)) as Hnd by (by apply counted_nodup, NoDup_nil). split.
  - intros ([b m] & -> & Hin)%list_elem_of_fmap. cbn [snd]. pose proof (in_aget b m _ Hnd Hin) as Hg.
    assert (b ∈ keys buckets) as Hk by (apply list_elem_of_fmap; by exists (b, m)).
    apply buckets_keys in Hk as (v & Hv & <-). exists v. split; [done|].
    unfold buckets in Hg. by rewrite <- buckets_get, Hg.
  - intros (v & Hv & ->). rewrite <- buckets_get. pose proof (key_of v Hv) as Hk.
    destruct (aget (bucket v) buckets) as [m|] eqn:Hg; [|by apply aget_none in Hg].
    unfold buckets in Hg. rewrite Hg. cbn [from_option id]. apply list_elem_of_fmap. exists (bucket v, m).
    split; [done|]. by apply aget_in.
Qed.

Lemma top_spec : (exists v, v ∈ vals /\ maximum (map snd buckets) = tally (bucket v) vals) /\
  forall v, v ∈ vals -> tally (bucket v) vals <= maximum (map snd buckets).
Proof.
  assert (map snd buckets <> []) as Hs by (intros E%map_eq_nil; apply keys_some; unfold keys; by rewrite E).
  destruct (maximum_spec _ Hs) as [Hin Hle]. split; [by apply counts_tallies|].
  intros v Hv. apply Hle, counts_tallies. by exists v.
Qed.

Lemma top_pos : 1 <= maximum (map snd buckets).
Proof. destruct top_spec as [(v & Hv & ->) _]. by apply (tally_some _ v). Qed.

Lemma tally_top b : tally b vals <= maximum (map snd buckets).
Proof.
  destruct (decide (Exists (fun v => bucket v = b) vals)) as [H|H].
  - apply Exists_exists in H as (v & Hv & <-). by apply top_spec.
  - rewrite tally_none; [pose proof top_pos; lia|]. intros v Hv E. apply H, Exists_exists. by exists v.
Qed.
End rows.

Lemma tally_in_row b vals : -1 <= b -> tally b vals = len (filter (in_row b) vals).
Proof.
  intros Hb. unfold tally. f_equal. apply list_filter_iff. intros v. by apply bucket_row.
Qed.

(** The histogram counts every value once.  For a text whose numbers are
    integers, and that has some, there is a row for each power of two from the
    bucket of the least value to that of the greatest, in order; each row counts
    the values of its range, the values up to 0 together in the first; the counts
    add up to the number of values; the bars are of 0 to 40 characters and that of
    the greatest count is of 40. *)
Theorem hist_exact text vals : hist_values text = Ok vals -> vals <> [] ->
  let rows := hist_rows (count_buckets vals) in
  let top := maximum (map snd (count_buckets vals)) in
  hist_stdin text = Ok (cat (cat ["count "; py_str (len vals); "  min "; py_str (minimum vals);
    "  max "; py_str (maximum vals); newline] :: map (row_text top) rows)) /\
  map fst rows = map (Z.add (bucket (minimum vals))) (range (bucket (maximum vals) + 1 - bucket (minimum vals))) /\
  (forall b n, (b, n) ∈ rows -> -1 <= b /\ n = len (filter (in_row b) vals) /\ 0 <= bar n top <= 40) /\
  total rows = len vals /\
  exists b, (b, top) ∈ rows /\ bar top top = 40.
Proof.
  intros Ht Hv. cbv zeta. pose proof (top_pos vals Hv) as Hp. set (top := maximum _) in *.
  pose proof (bucket_low (minimum vals)) as Hlow. split_and!.
  - unfold hist_stdin. rewrite Ht. by destruct vals.
  - rewrite rows_of_buckets, map_map by done. reflexivity.
  - intros b n. rewrite rows_of_buckets by done. intros (i & [= -> ->] & Hi)%list_elem_of_fmap.
    apply list_elem_of_fmap in Hi as (j & -> & _). pose proof (tally_top vals Hv (bucket (minimum vals) + Z.of_nat j)) as Hle.
    split_and!; [lia|apply tally_in_row; lia|..]; unfold bar; destruct (Z.eqb_spec top 0) as [E|E]; try lia;
      pose proof (tally_nonneg (bucket (minimum vals) + Z.of_nat j) vals); fold top in Hle.
    + apply Z.div_pos; lia.
    + apply Z.div_le_upper_bound; lia.
  - rewrite rows_of_buckets by done. apply total_tallies. intros v Hin. pose proof (bucket_range vals Hv v Hin). lia.
  - destruct (top_spec vals Hv) as [(v & Hin & E) _]. exists (bucket v). split.
    + rewrite rows_of_buckets by done. apply list_elem_of_fmap. exists (bucket v - bucket (minimum vals)).
      replace (bucket (minimum vals) + (bucket v - bucket (minimum vals))) with (bucket v) by lia.
      split; [unfold top; by rewrite E|]. pose proof (bucket_range vals Hv v Hin). apply list_elem_of_fmap.
      exists (Z.to_nat (bucket v - bucket (minimum vals))). split; [lia|]. apply elem_of_seq. lia.
    + unfold bar. destruct (Z.eqb_spec top 0); [lia|]. apply Z.div_mul. lia.
Qed.

Lemma hist_exact_witness : exists rows, total rows = 4 /\ (1, 2) ∈ rows.
Proof.
  assert (hist_values "3 -1 x 2 9" = Ok [3; -1; 2; 9]) as Hv by (vm_compute; reflexivity).
  destruct (hist_exact _ _ Hv ltac:(discriminate)) as (_ & _ & _ & H & _).
  exists (hist_rows (count_buckets [3; -1; 2; 9])). split; [exact H|]. vm_compute. do 2 right. left.
Defined.

(** A number with two signs is taken for a number and is not one. *)
Lemma two_signs : hist_stdin "1 --5" = Err (ValueError "invalid literal for int()").
Proof. vm_compute. reflexivity. Qed.
