(* ===== verification/TpDump.v ===== *)
(** * The segment of the tracepoint (substrate/loader-client/ls_tp_dump.py)

    The reader of a copy of the shared-memory segment: its geometry checks, the
    walk of each ring, and the decoding of the records it shows.  The printed
    layout and the local time of a record are not modelled. *)

From S2P Require Import Prelude PyVal Text.

Definition SEG_MAGIC : Z := 0x4C53534547303031.
Definition SEG_HDR : Z := 32.
Definition RING_HDR : Z := 56.
Definition REC_HDR : Z := 32.
Definition RING_BUSY : Z := Z.shiftl 1 31.
Definition RING_DISCARD : Z := Z.shiftl 1 30.
Definition RING_LENMASK : Z := Z.land (Z.lnot (Z.lor RING_BUSY RING_DISCARD)) 0xFFFFFFFF.

Definition SCHEMA_HTTP : Z := 2.
Definition SEG_VERSION : Z := 2.
Definition HTTP_FIELDS : list string :=
  ["parse_err"; "err"; "reject_reason"; "passthru"; "version"; "method";
   "header_count"; "status_code"; "invalid_flags"; "body_pos"; "hdr_bytes"].
Definition VERSION : list (Z * string) := [(0, "UNKNOWN"); (1, "HTTP/0.9"); (2, "HTTP/1.1"); (3, "HTTP/1.0")].
Definition INVALID : list (Z * string) := [(1, "method"); (2, "scheme"); (4, "path"); (8, "status"); (16, "authority")].

(** [struct.unpack_from] of unsigned fields, at an offset that is not negative. *)
Definition unpack_ints (sizes : list nat) (d : bytes) (off : Z) : result (list Z) :=
  if off + Z.of_nat (calcsize sizes) <=? len d then Ok (map le_int (chunks sizes (zdrop off d))) else Err StructError.

(** ** [decode_http] *)

Definition decode_http (vals : list Z) : dict :=
  let d := zip HTTP_FIELDS (map VInt vals) in
  let d := set "version_name" (VStr (match assoc (iget "version" d) VERSION with
             | Some s => s | None => cat ["?"; py_str (iget "version" d)] end)) d in
  set "invalid_names"
    (VStr (match String.concat "," (map snd (List.filter (fun bn : Z * string =>
             negb (Z.land (iget "invalid_flags" d) bn.1 =? 0)) INVALID)) with
           | EmptyString => "-" | s => s end)) d.

Definition http_class (d : dict) : string :=
  if negb (mem_Z (iget "parse_err" d) [3; 5; 16]) then "normal"
  else if negb (iget "passthru" d =? 0) then "waived" else "refused".

(** ** [main] *)

Record tprec := TpRec { t_seq : Z; t_hook : Z; t_schema : Z; t_tmm : Z; t_len : Z; t_payload : Z; t_ts : Z }.

(** The records of one ring whose data starts at [data], from offset [off]. *)
Fixpoint walk_ring (fuel : nat) (d : bytes) (data prod rdsz off : Z) : result (list tprec) :=
  match fuel with
  | O => Err OutOfFuel
  | S fuel =>
      if negb ((off <? prod) && (off <? rdsz)) then Ok [] else
      let? hdrs := unpack_ints [4]%nat d (data + off) in
      match hdrs with
      | [hdr] =>
          if negb (Z.land hdr RING_DISCARD =? 0)
          then walk_ring fuel d data prod rdsz (off + (8 + Z.land hdr RING_LENMASK)) else
          if negb (Z.land hdr RING_BUSY =? 0) then Ok [] else
          let body := Z.land hdr RING_LENMASK in
          if body =? 0 then Ok [] else
          let? fields := unpack_ints [4; 4; 8; 4; 4; 8]%nat d (data + off + 8) in
          match fields with
          | [hook; schema; seq; tmm; ln; ts] =>
              let payload := data + off + 8 + REC_HDR in
              let? recs := walk_ring fuel d data prod rdsz (Z.land (off + (8 + REC_HDR + ln + 7)) (Z.lnot 7)) in
              Ok (TpRec seq hook schema tmm ln payload ts :: recs)
          | _ => Err StructError
          end
      | _ => Err StructError
      end
  end.

(** What is decoded of a record that is shown. *)
Definition detail (d : bytes) (r : tprec) : result (option dict) :=
  if (t_schema r =? SCHEMA_HTTP) && (t_len r =? 44) then
    let? vals := unpack_ints (replicate 11 4%nat) d (t_payload r) in Ok (Some (decode_http vals))
  else Ok None.

Record ring_out := RingOut {
  o_ring : Z; o_prod : Z; o_cons : Z; o_drops : Z; o_stream : bool; o_recs : list tprec;
  o_shown : list (option dict) }.

(** Ring [i] of a segment: nothing when it was never written. *)
Definition read_ring (d : bytes) (stride : Z) (quiet : bool) (limit i : Z) : result (option ring_out * Z) :=
  let base := SEG_HDR + i * stride in
  let? fields := unpack_ints [8; 4; 4; 4; 4; 8; 8; 8; 8]%nat d base in
  match fields with
  | [_; _; pol; rdsz; _; prod; consumed; dr; _] =>
      if (prod =? 0) && (dr =? 0) then Ok (None, dr) else
      let? recs := walk_ring (S (Z.to_nat rdsz)) d (base + RING_HDR) prod rdsz 0 in
      let? shown := if quiet then Ok []
                    else mapM_r (detail d) (if limit =? 0 then recs else pyslice 0 limit recs) in
      Ok (Some (RingOut i prod consumed dr (pol =? 0) recs shown), dr)
  | _ => Err StructError
  end.

(** The rings shown, the records and the drops. *)
Fixpoint read_rings (d : bytes) (stride : Z) (quiet : bool) (limit : Z) (rings : list Z)
  : result (list ring_out * Z * Z) :=
  match rings with
  | [] => Ok ([], 0, 0)
  | i :: rest =>
      let? (o, dr) := read_ring d stride quiet limit i in
      let? (os, total, drops) := read_rings d stride quiet limit rest in
      Ok (match o with Some o => (o :: os, len (o_recs o) + total, dr + drops) | None => (os, total, dr + drops) end)
  end.

Definition dump (d : bytes) (quiet : bool) (limit : Z) : result (list ring_out * Z * Z) :=
  raise_if (len d <? SEG_HDR) (SystemExit "too small to be a segment") ;;
  let? fields := unpack_ints [8; 4; 4; 4; 4; 4]%nat d 0 in
  match fields with
  | [magic; ver; n_rings; stride; dsz; claimed] =>
      raise_if ((magic =? SEG_MAGIC) && negb (ver =? 0) && negb (ver =? SEG_VERSION))
        (SystemExit "segment format version") ;;
      raise_if (negb (magic =? SEG_MAGIC)) (SystemExit "not a tracepoint segment") ;;
      raise_if (negb (Z.land dsz (dsz - 1) =? 0)) (SystemExit "data_size is not a power of two") ;;
      raise_if (negb (stride =? RING_HDR + dsz)) (SystemExit "layout mismatch") ;;
      raise_if (len d <? SEG_HDR + n_rings * stride) (SystemExit "truncated") ;;
      read_rings d stride quiet limit (range n_rings)
  | _ => Err StructError
  end.

(** ** What the tracepoint reader reads

    The image the producer leaves in a ring (substrate/ls_ring.h): records and
    padding, each after a header word and rounded to eight bytes.  A segment made
    of such rings is read back; a walk always ends. *)

(** ** The image of a ring *)

Inductive slot :=
| Record_ (hook schema seq tmm ts : Z) (payload : bytes)
| Padding (filler : bytes).

Definition round8 (n : Z) : Z := (n + 7) / 8 * 8.
Definition zeros (n : Z) : bytes := replicate (Z.to_nat n) 0.

Definition slot_bytes (s : slot) : bytes :=
  match s with
  | Record_ hook schema seq tmm ts p =>
      le_bytes 4 (REC_HDR + len p) ++ le_bytes 4 0 ++
      le_bytes 4 hook ++ le_bytes 4 schema ++ le_bytes 8 seq ++ le_bytes 4 tmm ++ le_bytes 4 (len p) ++ le_bytes 8 ts ++
      p ++ zeros (round8 (len p) - len p)
  | Padding f => le_bytes 4 (Z.lor (len f) RING_DISCARD) ++ le_bytes 4 0 ++ f
  end.

Definition u32 (z : Z) : Prop := 0 <= z < 2 ^ 32.
Definition u64 (z : Z) : Prop := 0 <= z < 2 ^ 64.

Definition slot_ok (s : slot) : Prop :=
  match s with
  | Record_ hook schema seq tmm ts p =>
      u32 hook /\ u32 schema /\ u64 seq /\ u32 tmm /\ u64 ts /\ REC_HDR + len p < 2 ^ 30
  | Padding f => len f mod 8 = 0 /\ len f < 2 ^ 30
  end.

Definition data_of (ss : list slot) : bytes := concat (map slot_bytes ss).

(** The records of the slots, the first slot at [pos] of the file. *)
Fixpoint records_at (pos : Z) (ss : list slot) : list tprec :=
  match ss with
  | [] => []
  | s :: t =>
      match s with
      | Record_ hook schema seq tmm ts p => [TpRec seq hook schema tmm (len p) (pos + 8 + REC_HDR) ts]
      | Padding _ => []
      end ++ records_at (pos + len (slot_bytes s)) t
  end.

(** ** Words *)

Lemma land_discard x : 0 <= x < 2 ^ 30 -> Z.land x RING_DISCARD = 0.
Proof.
  intros H. unfold RING_DISCARD. rewrite Z.shiftl_1_l. apply Z.bits_inj'. intros n Hn.
  rewrite Z.land_spec, Z.bits_0, Z.pow2_bits_eqb by lia. destruct (Z.eqb_spec 30 n) as [<-|]; [|by rewrite andb_false_r].
  rewrite andb_true_r. apply Z.bits_above_log2; [lia|]. destruct (Z.eq_dec x 0) as [->|]; [done|]. apply Z.log2_lt_pow2; lia.
Qed.

Lemma lenmask_ones : RING_LENMASK = Z.ones 30.
Proof. reflexivity. Qed.

Lemma land_lenmask x : 0 <= x < 2 ^ 30 -> Z.land x RING_LENMASK = x.
Proof. intros H. rewrite lenmask_ones, Z.land_ones by lia. by apply Z.mod_small. Qed.

Lemma land_busy x : 0 <= x < 2 ^ 30 -> Z.land x RING_BUSY = 0.
Proof.
  intros H. unfold RING_BUSY. rewrite Z.shiftl_1_l. apply Z.bits_inj'. intros n Hn.
  rewrite Z.land_spec, Z.bits_0, Z.pow2_bits_eqb by lia. destruct (Z.eqb_spec 31 n) as [<-|]; [|by rewrite andb_false_r].
  rewrite andb_true_r. apply Z.bits_above_log2; [lia|]. destruct (Z.eq_dec x 0) as [->|]; [done|]. apply Z.log2_lt_pow2; lia.
Qed.

Lemma lor_discard x : 0 <= x < 2 ^ 30 -> Z.lor x RING_DISCARD = x + 2 ^ 30.
Proof.
  intros H. assert (RING_DISCARD = 2 ^ 30) as E by reflexivity. rewrite <- E.
  pose proof (Z.add_lor_land x RING_DISCARD) as Ha. rewrite land_discard in Ha by done. lia.
Qed.

Lemma discard_words x : 0 <= x < 2 ^ 30 ->
  (Z.land (x + 2 ^ 30) RING_DISCARD =? 0) = false /\ Z.land (x + 2 ^ 30) RING_LENMASK = x.
Proof.
  intros H. split.
  - rewrite <- lor_discard, Z.land_lor_distr_l, land_discard, Z.land_diag by done. reflexivity.
  - rewrite lenmask_ones, Z.land_ones, <- (Z.mul_1_l (2 ^ 30)), Z.mod_add by lia. by apply Z.mod_small.
Qed.

Lemma land_align z : Z.land z (Z.lnot 7) = z / 8 * 8.
Proof.
  change 7 with (Z.ones 3). rewrite <- Z.ldiff_land, Z.ldiff_ones_r by lia.
  rewrite Z.shiftr_div_pow2, Z.shiftl_mul_pow2 by lia. reflexivity.
Qed.

(** ** Fields *)

Lemma unpack_fields sizes zs pre post : length sizes = length zs ->
  Forall2 (fun n z => 0 <= z < 256 ^ Z.of_nat n) sizes zs ->
  unpack_ints sizes (pre ++ concat (zip_with le_bytes sizes zs) ++ post) (len pre) = Ok zs.
Proof.
  intros Hl Hz. unfold unpack_ints. rewrite zdrop_len.
  assert (len (concat (zip_with le_bytes sizes zs)) = Z.of_nat (calcsize sizes)) as Hc.
  { clear Hz. unfold len. f_equal. revert zs Hl. induction sizes as [|n sizes IH]; intros [|z zs]; try done. intros [= Hl].
    cbn [zip_with concat calcsize foldr]. rewrite length_app, length_le_bytes, (IH zs Hl). done. }
  rewrite !len_app, Hc. pose proof (len_nonneg post).
  destruct (Z.leb_spec (len pre + Z.of_nat (calcsize sizes)) (len pre + (Z.of_nat (calcsize sizes) + len post))); [|lia].
  f_equal. clear - Hz. induction Hz as [|n z sizes zs Hb Hz IH]; [done|].
  cbn [zip_with concat chunks map]. rewrite <- app_assoc.
  rewrite take_app_length', drop_app_length' by by rewrite length_le_bytes.
  by rewrite le_int_bytes_small, IH.
Qed.

(** ** The walk of a ring *)

Lemma round8_ge n : n <= round8 n.
Proof. unfold round8. Z.div_mod_to_equations. lia. Qed.

Lemma zeros_len n : 0 <= n -> len (zeros n) = n.
Proof. intros H. unfold len, zeros. rewrite length_replicate. lia. Qed.

Lemma len_le_bytes n z : len (le_bytes n z) = Z.of_nat n.
Proof. unfold len. by rewrite length_le_bytes. Qed.

Lemma slot_len s : len (slot_bytes s) =
  match s with Record_ _ _ _ _ _ p => 8 + REC_HDR + round8 (len p) | Padding f => 8 + len f end.
Proof.
  destruct s as [hook schema seq tmm ts p|f]; cbn [slot_bytes]; rewrite !len_app, !len_le_bytes; [|lia].
  rewrite zeros_len by (pose proof (round8_ge (len p)); lia). unfold REC_HDR. lia.
Qed.

Lemma slot_pos s : 8 <= len (slot_bytes s).
Proof.
  rewrite slot_len. destruct s as [??????|f]; [|pose proof (len_nonneg f); lia].
  pose proof (round8_ge (len payload)). pose proof (len_nonneg payload). unfold REC_HDR. lia.
Qed.

(** The next offset is a multiple of eight. *)
Lemma slot_aligned s : slot_ok s -> len (slot_bytes s) mod 8 = 0.
Proof.
  rewrite slot_len. destruct s as [??????|f]; cbn [slot_ok]; [|intros [H _]; Z.div_mod_to_equations; lia].
  intros _. unfold round8, REC_HDR. Z.div_mod_to_equations. lia.
Qed.

Lemma next_offset off (p : bytes) : off mod 8 = 0 ->
  Z.land (off + (8 + REC_HDR + len p + 7)) (Z.lnot 7) = off + (8 + REC_HDR + round8 (len p)).
Proof. intros H. rewrite land_align. unfold round8, REC_HDR. Z.div_mod_to_equations. lia. Qed.

Lemma unpack_word z pre post : u32 z -> unpack_ints [4]%nat (pre ++ le_bytes 4 z ++ post) (len pre) = Ok [z].
Proof.
  intros H. pose proof (unpack_fields [4]%nat [z] pre post eq_refl) as E. cbn [zip_with concat app] in E.
  rewrite app_nil_r in E. apply E. repeat constructor; apply H.
Qed.

Lemma walk_slot fuel s pre post data prod rdsz off : slot_ok s -> len pre = data + off -> off mod 8 = 0 ->
  off < prod -> off < rdsz ->
  walk_ring (S fuel) (pre ++ slot_bytes s ++ post) data prod rdsz off =
  let? recs := walk_ring fuel (pre ++ slot_bytes s ++ post) data prod rdsz (off + len (slot_bytes s)) in
  Ok (match s with
      | Record_ hook schema seq tmm ts p => [TpRec seq hook schema tmm (len p) (data + off + 8 + REC_HDR) ts]
      | Padding _ => [] end ++ recs).
Proof.
  intros Hs Hpre Ho Hp Hr. cbn [walk_ring]. rewrite !(proj2 (Z.ltb_lt _ _)) by done. cbn [andb negb].
  rewrite slot_len. destruct s as [hook schema seq tmm ts p|f]; cbn [slot_ok slot_bytes] in *.
  - destruct Hs as (Hh & Hsc & Hsq & Ht & Hts & Hb). pose proof (len_nonneg p).
    rewrite <- Hpre, <- !app_assoc. rewrite unpack_word by (unfold u32, REC_HDR in *; lia).
    rewrite land_discard, land_busy, land_lenmask by (unfold REC_HDR in *; lia).
    change (0 =? 0) with true. cbn [negb]. destruct (Z.eqb_spec (REC_HDR + len p) 0) as [E|_]; [unfold REC_HDR in *; lia|].
    match goal with |- context [unpack_ints ?sz ?d ?o] =>
      assert (unpack_ints sz d o = Ok [hook; schema; seq; tmm; len p; ts]) as -> end.
    { pose proof (unpack_fields [4; 4; 8; 4; 4; 8]%nat [hook; schema; seq; tmm; len p; ts]
        (pre ++ le_bytes 4 (REC_HDR + len p) ++ le_bytes 4 0) (p ++ zeros (round8 (len p) - len p) ++ post) eq_refl) as E.
      cbn [zip_with concat] in E. rewrite app_nil_r, <- !app_assoc in E. rewrite !len_app in E.
      change (len (le_bytes 4 (REC_HDR + len p)) + len (le_bytes 4 0)) with 8 in E. apply E.
      unfold u32, u64, REC_HDR in *. repeat constructor; lia. }
    rewrite next_offset by done. by destruct (walk_ring _ _ _ _ _ _).
  - destruct Hs as [Hm Hf]. pose proof (len_nonneg f). rewrite <- Hpre, <- !app_assoc.
    rewrite lor_discard by lia. rewrite unpack_word by (unfold u32; lia).
    destruct (discard_words (len f)) as [-> ->]; [lia|]. cbn [negb]. by destruct (walk_ring _ _ _ _ _ _).
Qed.

(** A walk over the slots of a ring gives their records. *)
Lemma walk_slots ss : forall fuel pre post data prod rdsz off, Forall slot_ok ss ->
  len pre = data + off -> off mod 8 = 0 -> prod = off + len (data_of ss) -> prod <= rdsz -> (length ss < fuel)%nat ->
  walk_ring fuel (pre ++ data_of ss ++ post) data prod rdsz off = Ok (records_at (data + off) ss).
Proof.
  induction ss as [|s ss IH]; intros fuel pre post data prod rdsz off Hss Hpre Ho Hprod Hr Hf;
    (destruct fuel as [|fuel]; [cbn in Hf; lia|]).
  - cbn [walk_ring]. assert (prod = off) as -> by (change (len (data_of [])) with 0 in Hprod; lia).
    by rewrite Z.ltb_irrefl.
  - apply Forall_cons in Hss as [Hs Hss]. unfold data_of in *. cbn [map concat] in *. rewrite len_app in Hprod.
    pose proof (slot_pos s). pose proof (len_nonneg (concat (map slot_bytes ss))). rewrite <- app_assoc.
    rewrite walk_slot by (done || lia). rewrite app_assoc.
    rewrite IH; [| |rewrite len_app; lia| |lia|lia|cbn in Hf; lia]; [|done|].
    + cbn [records_at]. by rewrite Z.add_assoc.
    + pose proof (slot_aligned s Hs). Z.div_mod_to_equations. lia.
Qed.

(** A walk ends within the bytes of its ring. *)
Lemma le_int_nonneg l : is_bytes l -> 0 <= le_int l.
Proof. intros H. pose proof (le_int_bound l H). lia. Qed.

Lemma unpack_ints_nonneg sizes d off zs : is_bytes d -> unpack_ints sizes d off = Ok zs -> Forall (Z.le 0) zs.
Proof.
  intros Hd. unfold unpack_ints. destruct (_ <=? _); [|done]. intros [= <-]. apply Forall_map.
  assert (forall b, is_bytes b -> Forall (fun x => 0 <= le_int x) (chunks sizes b)) as Hc; [|by apply Hc; rewrite zdrop_drop; apply is_bytes_drop].
  induction sizes as [|n sizes IH]; intros b Hb; cbn [chunks]; [constructor|].
  constructor; [by apply le_int_nonneg, is_bytes_take|]. by apply IH, is_bytes_drop.
Qed.

Lemma walk_total d data prod rdsz fuel : forall off, is_bytes d -> (Z.to_nat (rdsz - off) < fuel)%nat ->
  walk_ring fuel d data prod rdsz off <> Err OutOfFuel.
Proof.
  induction fuel as [|fuel IH]; intros off Hd Hf; [lia|]. cbn [walk_ring].
  destruct (off <? prod); [|done]. destruct (Z.ltb_spec off rdsz) as [Hr|]; [|done]. cbn [andb negb].
  destruct (unpack_ints [4]%nat d (data + off)) as [[|hdr [|]]|e] eqn:Hh; try done.
  - destruct (negb _).
    + apply IH; [done|]. rewrite lenmask_ones, Z.land_ones by lia. pose proof (Z.mod_pos_bound hdr (2 ^ 30)). lia.
    + destruct (negb _); [done|]. destruct (_ =? 0); [done|].
      destruct (unpack_ints [4; 4; 8; 4; 4; 8]%nat d (data + off + 8)) as [fs|e] eqn:Hfs; [|].
      * apply unpack_ints_nonneg in Hfs; [|done].
        destruct fs as [|hook [|schema [|seq [|tmm [|ln [|ts [|]]]]]]]; try done.
        rewrite !Forall_cons in Hfs. destruct Hfs as (_ & _ & _ & _ & Hln & _).
        specialize (IH (Z.land (off + (8 + REC_HDR + ln + 7)) (Z.lnot 7)) Hd). rewrite land_align in *. unfold REC_HDR in *.
        destruct (walk_ring _ _ _ _ _ _) as [|e]; [done|]. intros [= ->]. apply IH; [|done].
        Z.div_mod_to_equations. lia.
      * intros [= ->]. unfold unpack_ints in Hfs. by destruct (_ <=? _).
  - intros [= ->]. unfold unpack_ints in Hh. by destruct (_ <=? _).
Qed.

(** ** A segment *)

Record ring := Ring {
  g_magic : Z; g_policy : Z; g_consumed : Z; g_drops : Z; g_lost : Z; g_slots : list slot; g_rest : bytes }.

Definition produced (r : ring) : Z := len (data_of (g_slots r)).

Definition ring_bytes (dsz : Z) (r : ring) : bytes :=
  concat (zip_with le_bytes [8; 4; 4; 4; 4; 8; 8; 8; 8]%nat
    [g_magic r; 1; g_policy r; dsz; 0; produced r; g_consumed r; g_drops r; g_lost r]) ++
  data_of (g_slots r) ++ g_rest r.

Definition segment (dsz claimed : Z) (rs : list ring) : bytes :=
  concat (zip_with le_bytes [8; 4; 4; 4; 4; 4]%nat
    [SEG_MAGIC; SEG_VERSION; len rs; RING_HDR + dsz; dsz; claimed]) ++ le_bytes 4 0 ++
  concat (map (ring_bytes dsz) rs).

Record ring_ok (dsz : Z) (r : ring) : Prop := {
  rk_words : u64 (g_magic r) /\ u32 (g_policy r) /\ u64 (g_consumed r) /\ u64 (g_drops r) /\ u64 (g_lost r);
  rk_slots : Forall slot_ok (g_slots r);
  rk_size : produced r + len (g_rest r) = dsz }.

(** What is shown of a record. *)
Definition slot_shown (s : slot) : list (option dict) :=
  match s with
  | Record_ hook schema seq tmm ts p =>
      [if (schema =? SCHEMA_HTTP) && (len p =? 44)
       then Some (decode_http (map le_int (chunks (replicate 11 4%nat) p))) else None]
  | Padding _ => []
  end.

Definition ring_shown (quiet : bool) (limit : Z) (r : ring) : list (option dict) :=
  let all := concat (map slot_shown (g_slots r)) in
  if quiet then [] else if limit =? 0 then all else pyslice 0 limit all.

Definition ring_read (dsz : Z) (quiet : bool) (limit i : Z) (r : ring) : ring_out :=
  RingOut i (produced r) (g_consumed r) (g_drops r) (g_policy r =? 0)
    (records_at (SEG_HDR + i * (RING_HDR + dsz) + RING_HDR) (g_slots r)) (ring_shown quiet limit r).

Definition never_written (r : ring) : bool := (produced r =? 0) && (g_drops r =? 0).

(** The rings that were written, in order. *)
Fixpoint rings_read (dsz : Z) (quiet : bool) (limit i : Z) (rs : list ring) : list ring_out :=
  match rs with
  | [] => []
  | r :: t => (if never_written r then [] else [ring_read dsz quiet limit i r]) ++ rings_read dsz quiet limit (i + 1) t
  end.

Definition is_record (s : slot) : bool := match s with Record_ _ _ _ _ _ _ => true | Padding _ => false end.
Definition records_of (r : ring) : Z := len (List.filter is_record (g_slots r)).
Definition sum (f : ring -> Z) (rs : list ring) : Z := foldr (fun r n => f r + n) 0 rs.

Lemma records_at_len ss : forall pos, len (records_at pos ss) = len (List.filter is_record ss).
Proof.
  induction ss as [|s ss IH]; intros pos; [done|]. cbn [records_at List.filter]. rewrite len_app, IH.
  destruct s; cbn [is_record]; [|done]. unfold len. cbn [length app]. lia.
Qed.

(** ** What is shown *)

Lemma mapM_app {A B} (f : A -> result B) l1 l2 b1 b2 : mapM_r f l1 = Ok b1 -> mapM_r f l2 = Ok b2 ->
  mapM_r f (l1 ++ l2) = Ok (b1 ++ b2).
Proof.
  revert b1. induction l1 as [|a l1 IH]; intros b1; cbn [mapM_r app]; [by intros <-%Ok_inj|].
  destruct (f a) as [b|]; [|done]. destruct (mapM_r f l1) as [bs|]; [|done]. intros <-%Ok_inj H2.
  by rewrite (IH bs).
Qed.

Lemma mapM_take {A B} (f : A -> result B) n : forall l bs, mapM_r f l = Ok bs ->
  mapM_r f (take n l) = Ok (take n bs) /\ length bs = length l.
Proof.
  induction n as [|n IH]; intros [|a l] bs; cbn [mapM_r take]; try by intros <-%Ok_inj.
  - destruct (f a) as [b|]; [|done]. destruct (mapM_r f l) as [bs'|] eqn:Hl; [|done]. intros <-%Ok_inj. split; [done|].
    cbn [length]. f_equal. revert bs' Hl. induction l as [|x l IHl]; intros bs'; cbn [mapM_r]; [by intros <-%Ok_inj|].
    destruct (f x); [|done]. destruct (mapM_r f l); [|done]. intros <-%Ok_inj. cbn [length]. f_equal. by apply IHl.
  - destruct (f a) as [b|]; [|done]. destruct (mapM_r f l) as [bs'|] eqn:Hl; [|done]. intros <-%Ok_inj.
    destruct (IH l bs' Hl) as [-> Hlen]. split; [done|]. cbn [length]. by rewrite Hlen.
Qed.

Lemma pyslice_take {A} n (l : list A) : pyslice 0 n l = take (Z.to_nat (norm_index (len l) n)) l.
Proof. unfold pyslice. by rewrite slice_take_drop, Z.sub_0_r. Qed.

Lemma mapM_pyslice {A B} (f : A -> result B) n l bs : mapM_r f l = Ok bs ->
  mapM_r f (pyslice 0 n l) = Ok (pyslice 0 n bs).
Proof.
  intros H. rewrite !pyslice_take. destruct (mapM_take f (Z.to_nat (norm_index (len l) n)) l bs H) as [-> Hl].
  unfold len. by rewrite Hl.
Qed.

Lemma chunks_app sizes : forall b c, (calcsize sizes <= length b)%nat -> chunks sizes (b ++ c) = chunks sizes b.
Proof.
  induction sizes as [|n sizes IH]; intros b c H; [done|]. cbn [chunks calcsize foldr] in *. fold (calcsize sizes) in H.
  rewrite take_app_le, drop_app_le by lia. rewrite IH; [done|]. rewrite length_drop. lia.
Qed.

Lemma detail_slot s pre post pos : len pre = pos ->
  mapM_r (detail (pre ++ slot_bytes s ++ post)) (records_at pos [s]) = Ok (slot_shown s).
Proof.
  intros Hpos. destruct s as [hook schema seq tmm ts p|f]; [|done]. cbn [records_at app mapM_r slot_shown].
  unfold detail. cbn [t_schema t_len t_payload]. destruct (Z.eqb_spec schema SCHEMA_HTTP) as [Hs|]; [|done].
  destruct (Z.eqb_spec (len p) 44) as [Hp|]; [|done]. cbn [andb].
  assert (unpack_ints (replicate 11 4%nat) (pre ++ slot_bytes (Record_ hook schema seq tmm ts p) ++ post)
    (pos + 8 + REC_HDR) = Ok (map le_int (chunks (replicate 11 4%nat) p))) as ->; [|done].
  cbn [slot_bytes]. rewrite <- !app_assoc.
  set (front := pre ++ le_bytes 4 (REC_HDR + len p) ++ le_bytes 4 0 ++ le_bytes 4 hook ++ le_bytes 4 schema ++
    le_bytes 8 seq ++ le_bytes 4 tmm ++ le_bytes 4 (len p) ++ le_bytes 8 ts).
  replace (pre ++ _) with (front ++ p ++ zeros (round8 (len p) - len p) ++ post) by (unfold front; by rewrite <- !app_assoc).
  assert (len front = pos + 8 + REC_HDR) as <-.
  { unfold front. rewrite !len_app, !len_le_bytes. unfold REC_HDR. lia. }
  unfold unpack_ints. rewrite zdrop_len, !len_app. change (Z.of_nat (calcsize (replicate 11 4%nat))) with 44.
  pose proof (len_nonneg (zeros (round8 (len p) - len p))). pose proof (len_nonneg post).
  rewrite (proj2 (Z.leb_le _ _)) by lia. rewrite chunks_app; [done|].
  change (calcsize (replicate 11 4%nat)) with 44%nat. unfold len in Hp. lia.
Qed.

Lemma detail_slots ss : forall pre post pos, len pre = pos ->
  mapM_r (detail (pre ++ data_of ss ++ post)) (records_at pos ss) = Ok (concat (map slot_shown ss)).
Proof.
  induction ss as [|s ss IH]; intros pre post pos Hpos; [done|]. unfold data_of in *. cbn [records_at map concat].
  pose proof (detail_slot s pre (concat (map slot_bytes ss) ++ post) pos Hpos) as Hs.
  cbn [records_at] in Hs. rewrite app_nil_r in Hs. rewrite <- app_assoc. apply mapM_app; [exact Hs|].
  rewrite app_assoc. apply IH. by rewrite len_app, Hpos.
Qed.

(** ** Rings *)

Lemma slots_length ss : Z.of_nat (length ss) <= len (data_of ss).
Proof.
  induction ss as [|s ss IH]; [done|]. unfold data_of in *. cbn [map concat length]. rewrite len_app.
  pose proof (slot_pos s). lia.
Qed.

Lemma ring_header_len zs : length zs = 9%nat ->
  len (concat (zip_with le_bytes [8; 4; 4; 4; 4; 8; 8; 8; 8]%nat zs)) = RING_HDR.
Proof.
  intros H. destruct zs as [|a [|b [|c [|d [|e [|f [|g [|h [|i [|]]]]]]]]]]; try done.
Qed.

Lemma read_ring_ok dsz quiet limit r pre post i : ring_ok dsz r -> dsz < 2 ^ 32 ->
  len pre = SEG_HDR + i * (RING_HDR + dsz) ->
  read_ring (pre ++ ring_bytes dsz r ++ post) (RING_HDR + dsz) quiet limit i =
  Ok (if never_written r then None else Some (ring_read dsz quiet limit i r), g_drops r).
Proof.
  intros [(Hm & Hp & Hc & Hd & Hl) Hs Hz] Hdsz Hpre. unfold read_ring, ring_bytes.
  pose proof (len_nonneg (g_rest r)). pose proof (len_nonneg (data_of (g_slots r))). unfold produced in Hz.
  set (zs := [g_magic r; 1; g_policy r; dsz; 0; produced r; g_consumed r; g_drops r; g_lost r]).
  set (hdr := concat (zip_with le_bytes _ zs)). rewrite <- Hpre, <- !app_assoc. unfold hdr at 1.
  rewrite unpack_fields; [|done|]; cycle 1.
  { unfold zs, u32, u64, produced in *. repeat constructor; try lia. }
  unfold zs at 1. cbv iota. unfold never_written. destruct ((produced r =? 0) && (g_drops r =? 0)); [done|].
  assert (len (pre ++ hdr) = len pre + RING_HDR + 0) as Hlen.
  { unfold hdr. rewrite len_app, ring_header_len by done. lia. }
  replace (pre ++ hdr ++ data_of (g_slots r) ++ g_rest r ++ post)
    with ((pre ++ hdr) ++ data_of (g_slots r) ++ (g_rest r ++ post)) by by rewrite <- !app_assoc.
  rewrite (walk_slots (g_slots r)); [|done|exact Hlen|done|unfold produced; lia|unfold produced; lia|].
  2: { pose proof (slots_length (g_slots r)). lia. }
  assert (len (pre ++ hdr) = SEG_HDR + i * (RING_HDR + dsz) + RING_HDR) as Hpos by lia.
  pose proof (detail_slots (g_slots r) (pre ++ hdr) (g_rest r ++ post) _ Hpos) as Hdet.
  replace (len pre + RING_HDR + 0) with (SEG_HDR + i * (RING_HDR + dsz) + RING_HDR) by lia.
  unfold ring_read, ring_shown. destruct quiet; [done|]. destruct (limit =? 0); [by rewrite Hdet|].
  by rewrite (mapM_pyslice _ _ _ _ Hdet).
Qed.

Lemma ring_bytes_len dsz r : ring_ok dsz r -> len (ring_bytes dsz r) = RING_HDR + dsz.
Proof.
  intros [_ _ Hz]. unfold ring_bytes. rewrite !len_app, ring_header_len by done. unfold produced in Hz. lia.
Qed.

Lemma read_rings_ok dsz quiet limit rs : forall pre post k, Forall (ring_ok dsz) rs -> dsz < 2 ^ 32 ->
  len pre = SEG_HDR + Z.of_nat k * (RING_HDR + dsz) ->
  read_rings (pre ++ concat (map (ring_bytes dsz) rs) ++ post) (RING_HDR + dsz) quiet limit
    (map Z.of_nat (seq k (length rs))) =
  Ok (rings_read dsz quiet limit (Z.of_nat k) rs, sum records_of rs, sum g_drops rs).
Proof.
  induction rs as [|r rs IH]; intros pre post k Hrs Hdsz Hpre; [done|]. apply Forall_cons in Hrs as [Hr Hrs].
  cbn [map concat length seq read_rings]. rewrite <- app_assoc, read_ring_ok by done. rewrite app_assoc.
  rewrite (IH (pre ++ ring_bytes dsz r) post (S k)); [|done|done|]; cycle 1.
  { rewrite len_app, ring_bytes_len by done. lia. }
  cbn [rings_read]. replace (Z.of_nat (S k)) with (Z.of_nat k + 1) by lia.
  unfold sum. cbn [foldr]. fold (sum records_of rs). fold (sum g_drops rs).
  destruct (never_written r) eqn:Hn.
  - unfold never_written in Hn. apply andb_true_iff in Hn as [Hp%Z.eqb_eq _]. unfold produced in Hp.
    pose proof (slots_length (g_slots r)). assert (records_of r = 0) as ->; [|done].
    unfold records_of. destruct (g_slots r); [done|cbn [length] in *; lia].
  - cbn [ring_read o_recs app]. unfold records_of at 1. by rewrite records_at_len.
Qed.

(** ** The whole segment *)

Lemma unpack_ints_err sizes d off e : unpack_ints sizes d off = Err e -> e = StructError.
Proof. unfold unpack_ints. destruct (_ <=? _); [done|]. by intros [= <-]. Qed.

Lemma shown_err d rs e : mapM_r (detail d) rs = Err e -> e = StructError.
Proof.
  induction rs as [|r rs IH]; cbn [mapM_r]; [done|]. destruct (detail d r) as [b|e'] eqn:Hd.
  - destruct (mapM_r (detail d) rs); [done|]. intros [= ->]. by apply IH.
  - intros [= ->]. unfold detail in Hd. destruct (_ && _); [|done].
    destruct (unpack_ints _ d _) as [|e'] eqn:Hu; [done|]. injection Hd as ->. by eapply unpack_ints_err.
Qed.

Lemma read_rings_total d stride quiet limit is_ : is_bytes d ->
  read_rings d stride quiet limit is_ <> Err OutOfFuel.
Proof.
  intros Hd. induction is_ as [|i is_ IH]; cbn [read_rings]; [done|].
  destruct (read_ring d stride quiet limit i) as [[o dr]|e] eqn:Hr.
  - destruct (read_rings _ _ _ _ is_) as [[[os t] ds]|e]; [done|exact IH].
  - intros [= ->]. unfold read_ring in Hr. destruct (unpack_ints _ d _) as [fs|e] eqn:Hu;
      [|injection Hr as ->; by apply unpack_ints_err in Hu].
    destruct fs as [|m [|v [|pol [|rdsz [|p [|prod [|consumed [|dr [|lost [|]]]]]]]]]]; try discriminate Hr.
    destruct (_ && _); [discriminate Hr|].
    destruct (walk_ring _ d _ prod rdsz 0) as [recs|e] eqn:Hw; [|injection Hr as ->; eapply walk_total; [exact Hd| |exact Hw]; lia].
    destruct quiet; [discriminate Hr|]. destruct (mapM_r (detail d) _) as [sh|e] eqn:Hs; [discriminate Hr|].
    injection Hr as ->. by apply shown_err in Hs.
Qed.

Lemma dump_total d quiet limit : is_bytes d -> dump d quiet limit <> Err OutOfFuel.
Proof.
  intros Hd. unfold dump. destruct (len d <? SEG_HDR); [done|].
  destruct (unpack_ints _ d 0) as [fs|e] eqn:Hu; [|intros [= ->]; by apply unpack_ints_err in Hu].
  destruct fs as [|magic [|ver [|n [|stride [|dsz [|claimed [|]]]]]]]; try discriminate.
  destruct (_ && _); [done|]. destruct (negb _); [done|]. destruct (negb _); [done|]. destruct (negb _); [done|].
  destruct (_ <? _); [done|]. by apply read_rings_total.
Qed.

Lemma pow2_land k : 0 <= k -> Z.land (2 ^ k) (2 ^ k - 1) = 0.
Proof.
  intros H. rewrite Z.sub_1_r, <- Z.ones_equiv, Z.land_ones by done. apply Z.mod_same. by apply Z.pow_nonzero.
Qed.

Lemma segment_len dsz claimed rs : Forall (ring_ok dsz) rs ->
  len (segment dsz claimed rs) = SEG_HDR + len rs * (RING_HDR + dsz).
Proof.
  intros H. unfold segment. cbn [zip_with concat]. rewrite !len_app, !len_le_bytes.
  assert (len (concat (map (ring_bytes dsz) rs)) = len rs * (RING_HDR + dsz)) as ->; [|unfold SEG_HDR; change (len (@nil Z)) with 0; lia].
  induction H as [|r rs Hr Hrs IH]; [done|]. cbn [map concat]. rewrite len_app, ring_bytes_len, IH, len_cons by done. lia.
Qed.

(** The tracepoint reader reads what the producer wrote.  On every input it
    ends.  In a segment whose rings hold records and padding, each after its header
    word and rounded to eight bytes, it finds in every ring that was written the
    records in order, each with its numbers and the place of its payload, counts
    records and drops, and decodes the payloads of the records shown that have the
    HTTP schema and its size; padding is never shown. *)
Theorem segment_read dsz k claimed rs quiet limit :
  dsz = 2 ^ k -> 0 <= k -> RING_HDR + dsz < 2 ^ 32 -> u32 (len rs) -> u32 claimed -> Forall (ring_ok dsz) rs ->
  dump (segment dsz claimed rs) quiet limit =
    Ok (rings_read dsz quiet limit 0 rs, sum records_of rs, sum g_drops rs) /\
  forall d, is_bytes d -> dump d quiet limit <> Err OutOfFuel.
Proof.
  intros Hdsz Hk Hsz Hn Hc Hrs. split; [|intros d; apply dump_total]. unfold dump.
  pose proof (segment_len dsz claimed rs Hrs) as Hlen. pose proof (len_nonneg rs). pose proof (Z.pow_pos_nonneg 2 k).
  rewrite Hlen. rewrite (proj2 (Z.ltb_ge _ _)) by (unfold RING_HDR in *; nia).
  set (zs := [SEG_MAGIC; SEG_VERSION; len rs; RING_HDR + dsz; dsz; claimed]).
  assert (unpack_ints [8; 4; 4; 4; 4; 4]%nat (segment dsz claimed rs) 0 = Ok zs) as ->.
  { apply (unpack_fields [8; 4; 4; 4; 4; 4]%nat zs [] _ eq_refl). unfold zs, u32, RING_HDR, SEG_MAGIC, SEG_VERSION in *.
    repeat constructor; lia. }
  unfold zs. cbv iota. change (SEG_MAGIC =? SEG_MAGIC) with true. change (SEG_VERSION =? SEG_VERSION) with true.
  rewrite andb_false_r. cbn [negb]. rewrite Z.eqb_refl, Z.ltb_irrefl. cbn [negb].
  rewrite Hdsz at 1 2. rewrite pow2_land by done. cbn [negb Z.eqb].
  unfold range. replace (Z.to_nat (len rs)) with (length rs) by (unfold len; lia).
  pose proof (read_rings_ok dsz quiet limit rs
    (concat (zip_with le_bytes [8; 4; 4; 4; 4; 4]%nat zs) ++ le_bytes 4 0) [] 0 Hrs) as H'.
  rewrite app_nil_r, <- app_assoc in H'. apply H'; [unfold RING_HDR in *; lia|]. unfold zs. cbn [zip_with concat].
  by rewrite !len_app, !len_le_bytes.
Qed.

(** ** A small segment *)

Definition demo_ring : ring := Ring 7 0 0 3 1 [Padding (replicate 8 0); Record_ 1 9 41 5 1000 [1; 2; 3]] (replicate 192 0).

Lemma demo_ring_ok : ring_ok 256 demo_ring.
Proof.
  constructor; [| |by vm_compute].
  - unfold u64, u32. cbn [g_magic g_policy g_consumed g_drops g_lost demo_ring]. lia.
  - cbn [g_slots demo_ring]. rewrite !Forall_cons. split_and!; [by split|unfold slot_ok, u32, u64, REC_HDR, len; cbn [length]; lia|done].
Qed.

Lemma segment_read_witness :
  dump (segment 256 1 [demo_ring]) false 0 =
    Ok ([RingOut 0 64 0 3 true [TpRec 41 1 9 5 3 144 1000] [None]], 1, 3).
Proof.
  assert (u32 (len [demo_ring]) /\ u32 1) as [Hn H1] by (unfold u32, len; cbn [length]; lia).
  pose proof (proj1 (segment_read 256 8 1 [demo_ring] false 0 eq_refl ltac:(lia)
    ltac:(unfold RING_HDR; lia) Hn H1 (proj2 (Forall_singleton _ _) demo_ring_ok))) as ->.
  vm_compute. reflexivity.
Defined.

(** A ring that has wrapped.  A record of 88 bytes, padding of 40, and then, at the
    start again, one of 40: what follows it is the middle of the first record. *)
Definition wrapped_ring : bytes :=
  concat (zip_with le_bytes [8; 4; 4; 4; 4; 8; 8; 8; 8]%nat [0; 1; 0; 128; 0; 168; 128; 0; 0]) ++
  slot_bytes (Record_ 1 9 2 5 1000 []) ++
  (* the rest of the first record: bytes of its payload *)
  (le_bytes 4 32 ++ le_bytes 4 0 ++ le_bytes 4 66 ++ le_bytes 4 66 ++ le_bytes 8 999 ++ le_bytes 4 66 ++
   le_bytes 4 0 ++ le_bytes 8 66 ++ le_bytes 8 0) ++
  slot_bytes (Padding (replicate 32 0)).

(** The reader walks from the start of the data whatever the positions, and takes
    payload bytes of an overwritten record for a record nobody wrote. *)
Lemma wrapped_ring_read :
  read_ring (segment 128 1 [] ++ wrapped_ring) (RING_HDR + 128) true 0 0 =
  Ok (Some (RingOut 0 168 128 0 true [TpRec 2 1 9 5 0 128 1000; TpRec 999 66 66 66 0 168 66] []), 0).
Proof. vm_compute. reflexivity. Qed.
