(* ===== verification/Inline.v ===== *)
(** * Inlined copies (substrate/mk_inline_status.py)

    The functions a build inlines, read from the text of the debug information,
    and the hook map annotated with them.  The text is ASCII; printing is not
    modelled. *)

From S2P Require Import Prelude PyVal Text Assoc.

(** ** The patterns *)

Definition is_hex_char (c : ascii) : bool := is_digit c || ((97 <=? ord c) && (ord c <=? 102)).

(** The last position at which the pattern matches. *)
Fixpoint search_last {A} (try : list ascii -> option A) (l : list ascii) : option A :=
  match l with
  | [] => try []
  | _ :: t => match search_last try t with Some a => Some a | None => try l end
  end.

Definition match_tag (l : list ascii) : option string :=
  match literal (str_list "(") l with
  | Some t =>
      match literal (str_list "DW_TAG_") t with
      | Some r =>
          match run1 is_word r with
          | Some (w, r) => match literal (str_list ")") r with Some _ => Some (list_str (str_list "DW_TAG_" ++ w)) | None => None end
          | None => None
          end
      | None => None
      end
  | None => None
  end.

(** [DIE]: the offset and the tag. *)
Definition match_die (l : list ascii) : option (string * string) :=
  match literal (str_list "<") (lstrip l) with
  | Some t =>
      match run1 is_digit t with
      | Some (_, t) =>
          match literal (str_list "><") t with
          | Some t =>
              match run1 is_hex_char t with
              | Some (off, t) =>
                  match literal (str_list ">:") t with
                  | Some t => match search_last match_tag t with Some tag => Some (list_str off, tag) | None => None end
                  | None => None
                  end
              | None => None
              end
          | None => None
          end
      | None => None
      end
  | None => None
  end.

Definition is_name_char (c : ascii) : bool := is_word c || (ord c =? 46).

(** A name at the end of the line, after a colon or not. *)
Definition name_here (l : list ascii) : option string :=
  let l := lstrip (match l with c :: t => if ord c =? 58 then t else l | [] => l end) in
  match l with
  | c :: _ =>
      if is_alpha_ c then
        let '(n, t) := run_of is_name_char l in
        match lstrip t with [] => Some (list_str n) | _ => None end
      else None
  | [] => None
  end.

(** [NAME]. *)
Definition match_name (l : list ascii) : option string :=
  search (fun l =>
    match literal (str_list "DW_AT_name") l with
    | Some t => match literal (str_list ":") (lstrip t) with Some t => search name_here t | None => None end
    | None => None
    end) l.

(** [ORIGIN]. *)
Definition match_origin (l : list ascii) : option string :=
  search (fun l =>
    match literal (str_list "DW_AT_abstract_origin:") l with
    | Some t =>
        match literal (str_list "<0x") (lstrip t) with
        | Some t =>
            match run1 is_hex_char t with
            | Some (o, t) => match literal (str_list ">") t with Some _ => Some (list_str o) | None => None end
            | None => None
            end
        | None => None
        end
    | None => None
    end) l.

(** [LOWPC]. *)
Definition has_low_pc (l : list ascii) : bool :=
  match search (literal (str_list "DW_AT_low_pc")) l with Some _ => true | None => false end.

(** ** [scan] *)

Record scan_state := Scan {
  sc_cur : option (string * string); sc_subprog : list (string * (option string * bool));
  sc_inlined : list (string * Z) }.

(** One more of a [Counter]. *)
Definition count_more (k : string) (n : Z) (c : list (string * Z)) : list (string * Z) :=
  aset k (default 0 (aget k c) + n) c.

Definition scan_line (s : scan_state) (line : list ascii) : scan_state :=
  match match_die line with
  | Some (off, tag) =>
      Scan (Some (off, tag))
        (if String.eqb tag "DW_TAG_subprogram" then
           match aget off (sc_subprog s) with Some _ => sc_subprog s | None => aset off (None, false) (sc_subprog s) end
         else sc_subprog s)
        (sc_inlined s)
  | None =>
      match sc_cur s with
      | None => s
      | Some (off, tag) =>
          if String.eqb tag "DW_TAG_subprogram" then
            let e := default (None, false) (aget off (sc_subprog s)) in
            let name := match e.1 with Some n => Some n | None => match_name line end in
            Scan (sc_cur s) (aset off (name, e.2 || has_low_pc line) (sc_subprog s)) (sc_inlined s)
          else if String.eqb tag "DW_TAG_inlined_subroutine" then
            match match_origin line with
            | Some o => Scan (sc_cur s) (sc_subprog s) (count_more o 1 (sc_inlined s))
            | None => s
            end
          else s
      end
  end.

(** The names with an out-of-line copy. *)
Definition outline_of (subprog : list (string * (option string * bool))) : list string :=
  omap (fun kv => match kv.2 with (Some n, true) => Some n | _ => None end) subprog.

Definition add_origin (subprog : list (string * (option string * bool))) (c : list (string * Z)) (oc : string * Z)
  : list (string * Z) :=
  match aget oc.1 subprog with Some (Some n, _) => count_more n oc.2 c | _ => c end.

Definition scan_from (s : scan_state) : list string * list (string * Z) :=
  (outline_of (sc_subprog s), fold_left (add_origin (sc_subprog s)) (sc_inlined s) []).

Definition scan (text : string) : list string * list (string * Z) :=
  scan_from (fold_left scan_line (file_lines (str_list text) []) (Scan None [] [])).

(** ** [main] *)

(** The inlined copies of a value used as a name. *)
Definition sites_of (copies : list (string * Z)) (n : val) : Z :=
  match n with VStr s => default 0 (aget s copies) | _ => 0 end.

Definition hashable (v : val) : bool := match v with VList _ | VDict _ => false | _ => true end.

Definition annotate (copies : list (string * Z)) (h : val) : result val :=
  match h with
  | VDict d =>
      let n := default (VStr "") (get "name" d) in
      raise_if (negb (hashable n)) TypeError ;;
      let sites := sites_of copies n in
      Ok (VDict (set "inline_sites" (VInt sites)
           (set "inline_status" (VStr (if sites =? 0 then "out-of-line" else "partial")) d)))
  | _ => Err AttributeError
  end.

(** Iterating over what the map has for its hooks. *)
Definition hook_list (o : option val) : result (list val) :=
  match o with
  | None => Ok []
  | Some (VList l) => Ok l
  | Some (VStr EmptyString) | Some (VDict []) => Ok []
  | Some (VStr _) | Some (VDict _) => Err AttributeError
  | Some _ => Err TypeError
  end.

Definition more_sites (a b : string * Z) : Prop := b.2 <= a.2.
#[export] Instance more_sites_dec a b : Decision (more_sites a b).
Proof. unfold more_sites. apply _. Defined.

Definition inlined_only (outline : list string) (mapped : list val) (copies : list (string * Z)) : list (string * Z) :=
  merge_sort more_sites
    (List.filter (fun nc : string * Z => negb (mem_str nc.1 outline) && negb (existsb (val_eqb (VStr nc.1)) mapped)) copies).

Definition inline_main (doc : val) (text binary : string) : result val :=
  match doc with
  | VDict d =>
      let '(outline, copies) := scan text in
      raise_if (match outline with [] => true | _ => false end) (SystemExit "no out-of-line subprograms found") ;;
      let? hooks := hook_list (get "hook_points" d) in
      let? hooks := mapM_r (annotate copies) hooks in
      let mapped := map (fun h => match h with VDict d => getv "name" d | _ => VNone end) hooks in
      let d := match get "hook_points" d with Some (VList _) => set "hook_points" (VList hooks) d | _ => d end in
      Ok (VDict (set "inline_status_source" (VStr binary)
        (set "inlined_only"
          (VList (map (fun nc : string * Z => VDict [("name", VStr nc.1); ("inline_sites", VInt nc.2)])
            (inlined_only outline mapped copies))) d)))
  | _ => Err AttributeError
  end.

(** ** What the annotation says

    The streaming scan of the debug information against the entries of its text:
    each attribute line belongs to the entry whose header comes before it. *)

(** ** The entries of the text *)

(** The attribute lines, each with the offset and the tag of its entry. *)
Fixpoint attributes (cur : option (string * string)) (lines : list (list ascii)) : list (string * string * list ascii) :=
  match lines with
  | [] => []
  | l :: t =>
      match match_die l with
      | Some d => attributes (Some d) t
      | None => match cur with Some d => [(d, l)] | None => [] end ++ attributes cur t
      end
  end.

Definition attributes_of (text : string) : list (string * string * list ascii) :=
  attributes None (file_lines (str_list text) []).

Definition subprogram_line (off : string) (a : string * string * list ascii) : bool :=
  String.eqb a.1.1 off && String.eqb a.1.2 "DW_TAG_subprogram".

(** The name of the function at an offset: its first. *)
Definition name_at (attrs : list (string * string * list ascii)) (off : string) : option string :=
  List.hd_error (omap (fun a => if subprogram_line off a then match_name a.2 else None) attrs).

(** Whether it has code of its own. *)
Definition out_of_line (attrs : list (string * string * list ascii)) (off : string) : bool :=
  existsb (fun a => subprogram_line off a && has_low_pc a.2) attrs.

(** The functions the inlined copies are of, by offset. *)
Definition origins (attrs : list (string * string * list ascii)) : list string :=
  omap (fun a => if String.eqb a.1.2 "DW_TAG_inlined_subroutine" then match_origin a.2 else None) attrs.

(** The inlined copies of the functions of a name. *)
Definition is_of (attrs : list (string * string * list ascii)) (n off : string) : bool :=
  bool_decide (name_at attrs off = Some n).
Definition copies_of (attrs : list (string * string * list ascii)) (n : string) : Z :=
  len (List.filter (is_of attrs n) (origins attrs)).
Definition has_own_code (attrs : list (string * string * list ascii)) (n : string) : Prop :=
  exists off, name_at attrs off = Some n /\ out_of_line attrs off = true.

(** ** Counters *)

Definition weight (f : string -> bool) (c : list (string * Z)) : Z :=
  foldr (fun kv n => (if f kv.1 then kv.2 else 0) + n) 0 c.

Lemma weight_more f k n c : weight f (count_more k n c) = weight f c + (if f k then n else 0).
Proof.
  unfold count_more, weight. induction c as [|[k' m] c IH]; cbn [aget aset foldr fst snd].
  - cbn [from_option id]. destruct (f k); lia.
  - case_decide as E; cbn [foldr fst snd from_option id]; [subst k'; destruct (f k); lia|]. rewrite IH. lia.
Qed.

Definition positive (c : list (string * Z)) : Prop := NoDup (keys c) /\ forall k n, aget k c = Some n -> 1 <= n.

Lemma positive_more k n c : positive c -> 1 <= n -> positive (count_more k n c).
Proof.
  intros [Hd Hp] Hn. split; [by apply nodup_aset|]. intros k' m. unfold count_more. rewrite aget_aset.
  case_decide; [|apply Hp]. intros [= <-]. destruct (aget k c) as [m|] eqn:Hk; cbn [from_option id]; [|lia].
  apply Hp in Hk. lia.
Qed.

Lemma get_more k k' n c : default 0 (aget k (count_more k' n c)) = default 0 (aget k c) + (if decide (k = k') then n else 0).
Proof. unfold count_more. rewrite aget_aset. case_decide as E; [subst; cbn [from_option id]; lia|lia]. Qed.

(** ** The scan *)

Definition name_in (sub : list (string * (option string * bool))) (off : string) : option string :=
  match aget off sub with Some (n, _) => n | None => None end.
Definition code_in (sub : list (string * (option string * bool))) (off : string) : bool :=
  match aget off sub with Some (_, b) => b | None => false end.

Definition or_name (a b : option string) : option string := match a with Some n => Some n | None => b end.

(** What an entry's line does to the table of functions. *)
Lemma scan_line_attribute off tag sub inl line : match_die line = None ->
  let s' := scan_line (Scan (Some (off, tag)) sub inl) line in
  let a := (off, tag, line) in
  sc_cur s' = Some (off, tag) /\
  (forall o, name_in (sc_subprog s') o = or_name (name_in sub o) (if subprogram_line o a then match_name line else None)) /\
  (forall o, code_in (sc_subprog s') o = code_in sub o || (subprogram_line o a && has_low_pc line)) /\
  sc_inlined s' = match (if String.eqb tag "DW_TAG_inlined_subroutine" then match_origin line else None) with
                  | Some o => count_more o 1 inl | None => inl end.
Proof.
  intros Hd. cbv zeta. unfold scan_line. rewrite Hd. cbn [sc_cur]. unfold subprogram_line. cbn [fst snd].
  destruct (String.eqb_spec tag "DW_TAG_subprogram") as [->|Ht].
  - cbn [sc_cur sc_subprog sc_inlined]. change (String.eqb "DW_TAG_subprogram" "DW_TAG_inlined_subroutine") with false.
    split_and!; [done| | |done].
    all: intros o; unfold name_in, code_in; rewrite aget_aset, andb_true_r;
      destruct (String.eqb_spec off o) as [<-|Ho]; [rewrite decide_True by done|rewrite decide_False by (by intros ->)].
    + destruct (aget off sub) as [[[n|] b]|]; done.
    + by destruct (aget o sub) as [[[n|] b]|].
    + destruct (aget off sub) as [[n b]|]; done.
    + by rewrite orb_false_r.
  - destruct (String.eqb_spec tag "DW_TAG_inlined_subroutine") as [->|Hi]; [destruct (match_origin line)|];
      cbn [sc_cur sc_subprog sc_inlined]; (split_and!; [done| | |done]); intros o; rewrite andb_false_r;
      first [by rewrite orb_false_r|by destruct (name_in sub o)].
Qed.

Lemma scan_line_head off tag s line : match_die line = Some (off, tag) ->
  let s' := scan_line s line in
  sc_cur s' = Some (off, tag) /\ (forall o, name_in (sc_subprog s') o = name_in (sc_subprog s) o) /\
  (forall o, code_in (sc_subprog s') o = code_in (sc_subprog s) o) /\ sc_inlined s' = sc_inlined s.
Proof.
  intros Hd. cbv zeta. unfold scan_line. rewrite Hd. cbn [sc_cur sc_subprog sc_inlined].
  split_and!; [done| | |done]; intros o; destruct (String.eqb tag "DW_TAG_subprogram"); try done;
    destruct (aget off (sc_subprog s)) eqn:Ho; try done; unfold name_in, code_in; rewrite aget_aset;
    (case_decide as E; [subst o; by rewrite Ho|done]).
Qed.

Lemma scan_line_none s line : match_die line = None -> sc_cur s = None -> scan_line s line = s.
Proof. intros Hd Hc. unfold scan_line. by rewrite Hd, Hc. Qed.

Lemma name_at_cons a attrs o : name_at (a :: attrs) o =
  or_name (if subprogram_line o a then match_name a.2 else None) (name_at attrs o).
Proof. unfold name_at. cbn. by destruct (if subprogram_line o a then _ else _). Qed.

Lemma or_name_assoc a b c : or_name (or_name a b) c = or_name a (or_name b c).
Proof. by destruct a. Qed.

Lemma origins_cons a attrs : origins (a :: attrs) =
  match (if String.eqb a.1.2 "DW_TAG_inlined_subroutine" then match_origin a.2 else None) with
  | Some o => o :: origins attrs | None => origins attrs end.
Proof. unfold origins. cbn. by destruct (if String.eqb a.1.2 _ then _ else _). Qed.

(** The scan of lines, in whatever state. *)
Lemma scan_lines lines : forall s,
  let s' := fold_left scan_line lines s in
  let attrs := attributes (sc_cur s) lines in
  (forall o, name_in (sc_subprog s') o = or_name (name_in (sc_subprog s) o) (name_at attrs o)) /\
  (forall o, code_in (sc_subprog s') o = code_in (sc_subprog s) o || out_of_line attrs o) /\
  (forall f, weight f (sc_inlined s') = weight f (sc_inlined s) + len (List.filter f (origins attrs))) /\
  (positive (sc_inlined s) -> positive (sc_inlined s')).
Proof.
  induction lines as [|l lines IH]; intros s; cbv zeta; cbn [fold_left attributes].
  - split_and!; [|intros o; cbn; by rewrite orb_false_r|intros f; by rewrite Z.add_0_r|done].
    intros o. by destruct (name_in _ o).
  - destruct (IH (scan_line s l)) as (Hn & Hc & Hw & Hp). destruct (match_die l) as [[off tag]|] eqn:Hd.
    + destruct (scan_line_head off tag s l Hd) as (Hcur & Hn0 & Hc0 & Hi0). rewrite Hcur, Hi0 in *.
      split_and!; [intros o; by rewrite Hn, Hn0|intros o; by rewrite Hc, Hc0|done|done].
    + destruct (sc_cur s) as [[off tag]|] eqn:Hcur; cycle 1.
      { rewrite scan_line_none in * by done. rewrite Hcur in *. done. }
      destruct s as [cur sub inl]. cbn [sc_cur sc_subprog sc_inlined] in *. subst cur.
      destruct (scan_line_attribute off tag sub inl l Hd) as (Hcur & Hn0 & Hc0 & Hi0).
      rewrite Hcur in Hn, Hc, Hw. cbn [app]. split_and!.
      * intros o. by rewrite Hn, Hn0, name_at_cons, or_name_assoc.
      * intros o. rewrite Hc, Hc0. unfold out_of_line. cbn [existsb]. by rewrite orb_assoc.
      * intros f. rewrite Hw, Hi0, origins_cons. cbn [fst snd].
        destruct (if String.eqb tag _ then match_origin l else None) as [o|]; [|done].
        rewrite weight_more. cbn [List.filter]. destruct (f o); [rewrite len_cons|]; lia.
      * intros Hpos. apply Hp. rewrite Hi0. destruct (if String.eqb tag _ then _ else _); [|done].
        by apply positive_more.
Qed.

Lemma scan_nodup lines : forall s, NoDup (keys (sc_subprog s)) -> NoDup (keys (sc_subprog (fold_left scan_line lines s))).
Proof.
  induction lines as [|l lines IH]; intros s Hs; [done|]. cbn [fold_left]. apply IH. unfold scan_line.
  destruct (match_die l) as [[off tag]|]; cbn [sc_subprog].
  - destruct (String.eqb tag _); [|done]. destruct (aget off _); [done|by apply nodup_aset].
  - destruct (sc_cur s) as [[off tag]|]; [|done]. destruct (String.eqb tag _); [by apply nodup_aset|].
    destruct (String.eqb tag _); [|done]. by destruct (match_origin l).
Qed.

(** Names by their copies. *)
Lemma names_counted sub inl n : forall c,
  default 0 (aget n (fold_left (add_origin sub) inl c)) =
  default 0 (aget n c) + weight (fun o => bool_decide (name_in sub o = Some n)) inl.
Proof.
  induction inl as [|[o k] inl IH]; intros c; cbn [fold_left weight foldr fst snd]; [lia|].
  fold (weight (fun o => bool_decide (name_in sub o = Some n)) inl). rewrite IH.
  replace (add_origin sub c (o, k)) with (match name_in sub o with Some m => count_more m k c | None => c end)
    by (unfold add_origin, name_in; cbn [fst snd]; by destruct (aget o sub) as [[[m|] b]|]).
  destruct (name_in sub o) as [m|]; [|rewrite bool_decide_false by done; lia].
  rewrite get_more. case_decide as E; [subst m; rewrite bool_decide_true by done; lia|].
  rewrite bool_decide_false by (by intros [= ->]). lia.
Qed.

Lemma names_positive sub inl : Forall (fun oc : string * Z => 1 <= oc.2) inl -> forall c, positive c ->
  positive (fold_left (add_origin sub) inl c).
Proof.
  induction 1 as [|[o k] inl Hk Hinl IH]; intros c Hc; [done|]. cbn [fold_left]. apply IH. unfold add_origin. cbn [fst snd] in *.
  destruct (aget o sub) as [[[m|] b]|]; [by apply positive_more|done..].
Qed.

Lemma weight_ext f g c : (forall o, f o = g o) -> weight f c = weight g c.
Proof. intros H. unfold weight. induction c as [|[o k] c IH]; [done|]. cbn [foldr fst snd]. by rewrite H, IH. Qed.

Lemma copies_nonneg attrs n : 0 <= copies_of attrs n.
Proof. apply len_nonneg. Qed.

(** The scan of a text: each function's copies, and the functions of their own. *)
Lemma scan_text text : let attrs := attributes_of text in
  (forall n, default 0 (aget n (scan text).2) = copies_of attrs n) /\
  (forall n c, (n, c) ∈ (scan text).2 <-> c = copies_of attrs n /\ 0 < c) /\
  (forall n, n ∈ (scan text).1 <-> has_own_code attrs n).
Proof.
  cbv zeta. unfold scan, attributes_of. set (lines := file_lines (str_list text) []).
  destruct (scan_lines lines (Scan None [] [])) as (Hn & Hc & Hw & Hp). cbn [sc_cur sc_subprog sc_inlined] in *.
  set (s := fold_left scan_line lines (Scan None [] [])) in *. set (attrs := attributes None lines) in *.
  assert (positive (sc_inlined s)) as Hpos by (apply Hp; split; [apply NoDup_nil_2|done]).
  assert (forall n, default 0 (aget n (scan_from s).2) = copies_of attrs n) as Hcount.
  { intros n. cbn [scan_from snd]. rewrite names_counted. cbn [aget from_option id].
    rewrite (weight_ext _ (is_of attrs n)) by (intros o; unfold is_of; by rewrite Hn). rewrite Hw. cbn [weight foldr]. done. }
  assert (positive (scan_from s).2) as [Hd Hge].
  { cbn [scan_from snd]. apply names_positive; [|split; [apply NoDup_nil_2|done]]. destruct Hpos as [Hd Hge].
    apply Forall_forall. intros [o k] Hin. by eapply (Hge o), in_aget. }
  split_and!; [done| |].
  - intros n c. split.
    + intros Hin. apply in_aget in Hin; [|done]. rewrite <- Hcount, Hin. cbn [from_option id]. apply Hge in Hin. lia.
    + intros [-> Hpos']. rewrite <- Hcount in *. destruct (aget n (scan_from s).2) as [c|] eqn:Hg; cbn [from_option id] in *; [|lia].
      by apply aget_in.
  - intros n. cbn [scan_from fst]. unfold outline_of, has_own_code. rewrite list_elem_of_omap.
    pose proof (scan_nodup lines (Scan None [] []) (NoDup_nil_2)) as Hs. fold s in Hs. split.
    + intros ([off [[m|] []]] & Hin & Hm); try done. injection Hm as ->. exists off. apply in_aget in Hin; [|done].
      specialize (Hn off). specialize (Hc off). unfold name_in, code_in in Hn, Hc. rewrite Hin in Hn, Hc. done.
    + intros (off & Hname & Hcode). specialize (Hn off). specialize (Hc off). unfold name_in, code_in in Hn, Hc.
      rewrite Hname in Hn. rewrite Hcode in Hc. destruct (aget off (sc_subprog s)) as [[m b]|] eqn:Hg; [|done].
      cbn [aget or_name orb] in *. subst m b. exists (off, (Some n, true)). split; [by apply aget_in|done].
Qed.

(** ** The map *)

Definition hook_name (h : val) : val := match h with VDict x => getv "name" x | _ => VNone end.

(** A hook before and after. *)
Definition annotated (attrs : list (string * string * list ascii)) (h h' : val) : Prop :=
  exists x y, h = VDict x /\ h' = VDict y /\
    (forall n, get "name" x = Some (VStr n) ->
       get "inline_sites" y = Some (VInt (copies_of attrs n)) /\
       get "inline_status" y = Some (VStr (if copies_of attrs n =? 0 then "out-of-line" else "partial"))) /\
    (forall k, k <> "inline_sites" -> k <> "inline_status" -> get k y = get k x).

Lemma annotate_ok text h h' : annotate (scan text).2 h = Ok h' ->
  annotated (attributes_of text) h h' /\ hook_name h' = hook_name h.
Proof.
  destruct (scan_text text) as (Hcount & _ & _). unfold annotate. destruct h as [| | | | | | |x]; try done.
  destruct (negb _); [done|]. intros <-%Ok_inj. split.
  - exists x. eexists. split_and!; [done|done| |].
    + intros n Hn. rewrite Hn. cbn [from_option id sites_of]. rewrite Hcount, !get_set. done.
    + intros k H1 H2. rewrite !get_set. by rewrite !(proj2 (String.eqb_neq _ _)).
  - cbn [hook_name]. unfold getv. by rewrite !get_set.
Qed.

Lemma annotate_all text hs : forall hs', mapM_r (annotate (scan text).2) hs = Ok hs' ->
  Forall2 (annotated (attributes_of text)) hs hs' /\ map hook_name hs' = map hook_name hs.
Proof.
  induction hs as [|h hs IH]; intros hs'; cbn [mapM_r]; [by intros <-%Ok_inj|].
  destruct (annotate _ h) as [h'|] eqn:Hh; [|done]. destruct (mapM_r _ hs) as [t|]; [|done]. intros <-%Ok_inj.
  destruct (IH t eq_refl) as [Hf Hm]. destruct (annotate_ok text h h' Hh) as [Ha Hn].
  split; [by constructor|]. cbn [map]. by rewrite Hn, Hm.
Qed.

Lemma existsb_name n l : existsb (val_eqb (VStr n)) l = true <-> VStr n ∈ l.
Proof.
  rewrite existsb_exists. split.
  - intros (v & Hin & Hv). destruct v; try discriminate Hv. cbn in Hv. apply String.eqb_eq in Hv as ->. by apply list_elem_of_In.
  - intros Hin. exists (VStr n). split; [by apply list_elem_of_In|]. cbn. apply String.eqb_refl.
Qed.

Definition row_doc (nc : string * Z) : val := VDict [("name", VStr nc.1); ("inline_sites", VInt nc.2)].

#[export] Instance more_sites_total : Total more_sites.
Proof. intros a b. unfold more_sites. lia. Qed.

(** A hook is marked partial exactly when the build inlined it somewhere.  In a
    map the annotation succeeds on, every hook keeps what it had; the sites written
    for one with a name are the inlined entries of the text whose origin is a
    function of that name, and it is marked partial when there are some and
    out-of-line when there are none.  The functions listed besides, most copies
    first, are exactly those that were inlined, have no code of their own and are
    not in the map. *)
Theorem inline_status_exact d hs text binary doc : get "hook_points" d = Some (VList hs) ->
  inline_main (VDict d) text binary = Ok doc ->
  let attrs := attributes_of text in
  exists e hs' rows, doc = VDict e /\
    get "hook_points" e = Some (VList hs') /\ Forall2 (annotated attrs) hs hs' /\
    get "inlined_only" e = Some (VList (map row_doc rows)) /\ Sorted more_sites rows /\
    forall n c, (n, c) ∈ rows <->
      c = copies_of attrs n /\ 0 < c /\ ~ has_own_code attrs n /\ VStr n ∉ map hook_name hs.
Proof.
  intros Hh. unfold inline_main. rewrite Hh. cbv zeta. destruct (scan_text text) as (_ & Hrows & Hout).
  pose proof (annotate_all text hs) as Hall. destruct (scan text) as [outline copies]. cbn [fst snd] in *.
  destruct (match outline with [] => true | _ => false end); [done|]. cbn [hook_list].
  destruct (mapM_r (annotate copies) hs) as [hs'|] eqn:Hm; [|done]. intros <-%Ok_inj.
  destruct (Hall hs' eq_refl) as [Hf Hn]. change (map (fun h => match h with VDict d0 => _ | _ => _ end) hs') with (map hook_name hs').
  rewrite Hn. eexists _, hs', _. split; [reflexivity|]. rewrite !get_set. split; [done|]. split; [done|]. split; [reflexivity|].
  split; [apply (Sorted_merge_sort more_sites)|]. intros n c. unfold inlined_only.
  rewrite merge_sort_Permutation, list_elem_of_In, filter_In, <- list_elem_of_In, Hrows. cbn [fst snd].
  rewrite andb_true_iff, !negb_true_iff, <- !not_true_iff_false, mem_str_elem, Hout, existsb_name. tauto.
Qed.

(** ** A small build *)

Definition demo_info : string :=
  cat (map (fun l => cat [l; newline])
    [" <1><2d>: Abbrev Number: 2 (DW_TAG_subprogram)";
     "    <2e>   DW_AT_name        : (indirect string, offset: 0x1a): parse";
     "    <32>   DW_AT_low_pc      : 0x1130";
     " <1><40>: Abbrev Number: 2 (DW_TAG_subprogram)";
     "    <41>   DW_AT_name        : helper";
     " <2><50>: Abbrev Number: 3 (DW_TAG_inlined_subroutine)";
     "    <51>   DW_AT_abstract_origin: <0x2d>";
     " <2><60>: Abbrev Number: 3 (DW_TAG_inlined_subroutine)";
     "    <61>   DW_AT_abstract_origin: <0x40>"]).

Definition demo_map : dict := [("hook_points", VList [VDict [("name", VStr "parse")]; VDict [("name", VStr "other")]])].

Definition demo_annotated : val :=
  VDict [("hook_points", VList
            [VDict [("name", VStr "parse"); ("inline_status", VStr "partial"); ("inline_sites", VInt 1)];
             VDict [("name", VStr "other"); ("inline_status", VStr "out-of-line"); ("inline_sites", VInt 0)]]);
         ("inlined_only", VList [row_doc ("helper", 1)]); ("inline_status_source", VStr "tmm")].

Lemma demo_annotates : inline_main (VDict demo_map) demo_info "tmm" = Ok demo_annotated.
Proof. vm_compute. reflexivity. Qed.

Lemma inline_status_exact_witness : exists e hs', demo_annotated = VDict e /\
  get "hook_points" e = Some (VList hs') /\ Forall2 (annotated (attributes_of demo_info))
    [VDict [("name", VStr "parse")]; VDict [("name", VStr "other")]] hs'.
Proof.
  destruct (inline_status_exact demo_map _ demo_info "tmm" demo_annotated eq_refl demo_annotates) as (e & hs' & rows & H1 & H2 & H3 & _).
  by exists e, hs'.
Defined.

(** A map that is a list is not read, though the code provides for it. *)
Lemma list_map_refused hs text binary : inline_main (VList hs) text binary = Err AttributeError.
Proof. reflexivity. Qed.
