(* ===== verification/Template.v ===== *)
(** * The tutorial program (substrate/template_io.py)

    Its configuration document, and the decoding of its records.  The document is
    one the loader accepts, and a record reads back. *)

From S2P Require Import Prelude PyVal Text Decoders ExportSpec Target Loader LoaderConfig TpDump.

Definition FIELDS : list string :=
  ["magic"; "abi"; "instance"; "revision"; "monotonic_ns"; "seen";
   "observed"; "threshold"; "result"; "kind"; "flags"; "version";
   "header_count"; "matched"; "verdict"].
Definition EVENT : list nat := [4; 4]%nat ++ replicate 7 8%nat ++ replicate 6 4%nat.

(** [unsigned]. *)
Definition unsigned_arg (value : string) : result Z :=
  match py_int0 value with
  | None => Err (ValueError "invalid literal for int()")
  | Some n => raise_if (negb ((0 <=? n) && (n <? 2 ^ 64))) (SystemExit "expected an unsigned 64-bit integer") ;; Ok n
  end.

(** [policy]: the document printed. *)
Definition policy (identity : val) (threshold reset_token enabled : Z) (safe_return : bool) : result val :=
  match identity with
  | VDict d =>
      let? r := item "revision" d in
      match r with
      | VInt revision =>
          raise_if (negb ((0 <=? revision) && (revision <? 2 ^ 64 - 1)))
            (ValueError "invalid or exhausted configuration revision") ;;
          let flags := Z.lor enabled (if safe_return then 2 else 0) in
          let? session := item "session" d in let? instance := item "instance" d in
          let? sha := item "program_sha256" d in
          let? a := pack_le 8 threshold in let? b := pack_le 8 0 in let? c := pack_le 8 reset_token in
          let? e := pack_le 4 flags in let? f := pack_le 4 0 in
          Ok (VDict [("abi", VInt 1); ("schema", VInt 2); ("session", session); ("instance", instance);
                     ("program_sha256", sha); ("expected_revision", VInt revision); ("revision", VInt (revision + 1));
                     ("rows", VList [VStr (hex (a ++ b ++ c ++ e ++ f))])])
      | _ => Err (ValueError "invalid or exhausted configuration revision")
      end
  | _ => Err TypeError
  end.

(** [decode], for one record read: nothing for a record that is not the program's. *)
Definition decode_record (record : val) : result (option val) :=
  match record with
  | VDict d =>
      if negb (val_eqb (getv "hook" d) (VStr "prog")) then Ok None else
      let? data := item "data" d in
      match data with
      | VStr s =>
          let? payload := fromhex s in
          raise_if (negb (len payload =? 88)) (ValueError "unexpected tutorial event size") ;;
          let? n := item "len" d in
          raise_if (negb (val_eqb n (VInt 88))) (ValueError "unexpected tutorial event size") ;;
          let? vals := unpack_ints EVENT payload 0 in
          let values := zip FIELDS (map VInt vals) in
          raise_if (negb (iget "magic" values =? 0x544D4D31) || negb (iget "abi" values =? 1))
            (ValueError "unexpected tutorial event format") ;;
          Ok (Some (VDict [("transport", VDict (remove "data" d)); ("tutorial", VDict values)]))
      | _ => Err TypeError
      end
  | _ => Err AttributeError
  end.

(** ** The document is accepted *)

Lemma hex_list_digits b : is_bytes b ->
  length (hex_list b) = (2 * length b)%nat /\
  Forall (fun c => exists v, 0 <= v < 16 /\ c = hexdigit v) (hex_list b).
Proof.
  induction 1 as [|x b Hx Hb IH]; [done|]. cbn [hex_list length]. destruct IH as [Hl Hd]. unfold is_byte in Hx.
  split; [lia|]. constructor; [|constructor; [|exact Hd]]; eexists; (split; [|reflexivity]); Z.div_mod_to_equations; lia.
Qed.

Lemma hexadecimal_hex b n : is_bytes b -> len b = n -> hexadecimal (VStr (hex b)) n = Ok b.
Proof.
  intros Hb Hn. destruct (hex_list_digits b Hb) as [Hl Hd]. unfold hexadecimal, strlen, hex. rewrite str_list_str.
  replace (len (hex_list b) =? n * 2) with true; [|symmetry; apply Z.eqb_eq; unfold len in *; lia]. cbn [negb orb].
  assert (existsb (fun c => match hexval c with Some _ => false | None => true end) (hex_list b) = false) as ->.
  { apply not_true_iff_false. rewrite existsb_exists. intros (c & Hin & Hc). rewrite Forall_forall in Hd.
    apply list_elem_of_In in Hin. destruct (Hd c Hin) as (v & Hv & ->). by rewrite hexval_digit in Hc. }
  exact (fromhex_hex b Hb).
Qed.

Lemma be_int_bound s n b : hexadecimal s n = Ok b -> 0 <= be_int b < 256 ^ n.
Proof.
  intros H. apply hexadecimal_ok in H as (t & _ & Hf & Hl). apply is_bytes_fromhex in Hf.
  assert (len (reverse b) = n) as Hr by (rewrite <- Hl; unfold len; by rewrite length_reverse).
  unfold be_int. rewrite <- Hr. apply le_int_bound. by apply Forall_reverse.
Qed.

Definition policy_row (threshold reset_token flags : Z) : bytes :=
  le_bytes 8 threshold ++ le_bytes 8 0 ++ le_bytes 8 reset_token ++ le_bytes 4 flags ++ le_bytes 4 0.

Lemma pack_le_bytes n z b : pack_le n z = Ok b -> b = le_bytes n z.
Proof. unfold pack_le. case_match; [|done]. by intros <-%Ok_inj. Qed.

(** The document of a policy is one the loader accepts and sends, when the identity
    it is made from names a session, an instance and a program; the one row it
    carries is the threshold, the token and the flags. *)
Theorem policy_accepted d threshold reset_token enabled safe_return doc session instance sha :
  policy (VDict d) threshold reset_token enabled safe_return = Ok doc ->
  hexadecimal (getv "session" d) 8 = Ok session -> be_int session <> 0 ->
  hexadecimal (getv "instance" d) 8 = Ok instance -> Z.testbit (be_int instance) 63 = true ->
  hexadecimal (getv "program_sha256" d) 32 = Ok sha ->
  exists body, config_body doc = Ok body /\
    zdrop 80 body = policy_row threshold reset_token (Z.lor enabled (if safe_return then 2 else 0)).
Proof.
  unfold policy, item. intros H Hs Hs0 Hi Hi63 Hh.
  destruct (get "revision" d) as [[| |revision| | | | |]|]; try done.
  destruct (negb ((0 <=? revision) && _)) eqn:Hr; [done|]. apply negb_false_iff in Hr.
  unfold getv in *. destruct (get "session" d) as [vs|]; [|done]. destruct (get "instance" d) as [vi|]; [|done].
  destruct (get "program_sha256" d) as [vh|]; [|done]. cbn [from_option id] in *.
  destruct (pack_le 8 threshold) as [a|] eqn:Ha; [|done]. destruct (pack_le 8 0) as [b|] eqn:Hb; [|done].
  destruct (pack_le 8 reset_token) as [c|] eqn:Hc; [|done]. destruct (pack_le 4 (Z.lor _ _)) as [e|] eqn:He; [|done].
  destruct (pack_le 4 0) as [f|] eqn:Hf; [|done]. apply Ok_inj in H as <-.
  apply pack_le_bytes in Ha as ->, Hb as ->, Hc as ->, He as ->, Hf as ->.
  fold (policy_row threshold reset_token (Z.lor enabled (if safe_return then 2 else 0))).
  set (row := policy_row _ _ _). assert (is_bytes row /\ len row = 32) as [Hrow Hlen].
  { unfold row, policy_row. rewrite !is_bytes_app, !len_app, !len_le_bytes. split_and!; apply is_bytes_le_bytes || done. }
  unfold config_body. cbn [map fst].
  match goal with |- context [negb (bool_decide ?P)] => assert (bool_decide P = true) as -> by (vm_compute; reflexivity) end.
  unfold config_integer, item, getv. cbn [negb get String.eqb Ascii.eqb Bool.eqb from_option id].
  apply andb_true_iff in Hr as [Hr0%Z.leb_le Hr1%Z.ltb_lt].
  replace (0 <=? revision) with true by lia. replace (revision <=? 18446744073709551615) with true by lia.
  replace (1 <=? revision + 1) with true by lia. replace (revision + 1 <=? 18446744073709551615) with true by lia.
  cbn [andb negb Z.leb Z.compare Pos.compare Pos.compare_cont].
  replace (revision + 1 <=? revision) with false by lia. rewrite Hs, Hi, Hh, Hi63. replace (be_int session =? 0) with false by lia. cbn [negb orb].
  change (16 <? len [VStr (hex row)]) with false. cbn [mapM_r]. rewrite hexadecimal_hex by done.
  apply be_int_bound in Hs, Hi. rewrite !pack_le_small by (change (len [VStr (hex row)]) with 1; cbn; lia).
  eexists. split; [reflexivity|]. cbn [concat]. rewrite app_nil_r, zdrop_drop, !app_assoc, drop_app_length'; [done|].
  rewrite !length_app, !length_le_bytes. apply hexadecimal_ok in Hh as (t & _ & _ & Hl).
  rewrite pack_s_exact by (unfold len in Hl; lia). unfold len in Hl. cbn. lia.
Qed.

(** ** A record reads back *)

Definition event_bytes (vals : list Z) : bytes := concat (zip_with le_bytes EVENT vals).

(** A record the program writes, fifteen numbers of their widths with its magic and
    version first, is decoded to exactly those numbers under their names. *)
Theorem event_reads_back d vals : length vals = 15%nat ->
  Forall2 (fun n z => 0 <= z < 256 ^ Z.of_nat n) EVENT vals ->
  take 2 vals = [0x544D4D31; 1] ->
  get "hook" d = Some (VStr "prog") -> get "len" d = Some (VInt 88) ->
  get "data" d = Some (VStr (hex (event_bytes vals))) ->
  decode_record (VDict d) =
    Ok (Some (VDict [("transport", VDict (remove "data" d)); ("tutorial", VDict (zip FIELDS (map VInt vals)))])).
Proof.
  intros Hl Hb Hm Hh Hn Hd. unfold decode_record, item, getv. rewrite Hh, Hn, Hd. cbn [from_option id].
  change (val_eqb (VStr "prog") (VStr "prog")) with true. change (val_eqb (VInt 88) (VInt 88)) with true. cbn [negb].
  assert (is_bytes (event_bytes vals) /\ len (event_bytes vals) = 88) as [Hby Hlen].
  { unfold event_bytes, EVENT. destruct vals as [|a0 [|a1 [|a2 [|a3 [|a4 [|a5 [|a6 [|a7 [|a8 [|a9 [|a10 [|a11 [|a12 [|a13 [|a14 [|]]]]]]]]]]]]]]]]; try done.
    cbn [app replicate zip_with concat]. rewrite !is_bytes_app, !len_app, !len_le_bytes.
    split_and!; try apply is_bytes_le_bytes; try done; constructor. }
  rewrite fromhex_hex, Hlen by done. change (88 =? 88) with true. cbn [negb].
  pose proof (unpack_fields EVENT vals [] []) as Hu. rewrite app_nil_r in Hu. cbn [app] in Hu.
  change (len (@nil Z)) with 0 in Hu. unfold event_bytes. rewrite Hu by (by rewrite ?Hl).
  destruct vals as [|m [|abi vals]]; try done. cbn [take] in Hm. injection Hm as -> ->. reflexivity.
Qed.
