(* ===== verification/Headers.v ===== *)
(** * Generated C files (substrate/mk_tramp_asm.py, gen_sig_pubkey.py,
    mk_shield_blob.py)

    The assembly wrapped as C string literals, the public key and the built-in
    shield as byte arrays.  openssl, clang and sha256 are parameters; a file
    written is the text returned. *)

From S2P Require Import Prelude PyVal Text.

Definition dquote : ascii := chr 34.
Definition backslash : ascii := chr 92.

(** ** mk_tramp_asm.py *)

Definition PREAMBLE : string :=
  cat (map (fun l => cat [l; newline])
    ["/* ls_tramp_asm.c --- the validated trampoline_x86_64.S, wrapped in a file-scope";
     "   asm block because the TMM filelist compiles C only.";
     "";
     "   GENERATED from trampoline_x86_64.S by `make tramp-asm`. Do not hand-edit: on";
     "   2026-08-17 Phase 3 was applied to THIS file and not to the .S, so the two";
     "   disagreed and the next regeneration would have silently reverted the change.";
     "   check-tramp-mirror fails the build if they drift. */";
     "#if defined(__x86_64__)";
     "__asm__("]).
Definition EPILOGUE : string := cat [");"; newline; "#endif /* __x86_64__ */"; newline].

(** [line.replace(a, a')]: each such character becomes the two. *)
Definition escape_char (a : ascii) (l : list ascii) : list ascii :=
  concat (map (fun c => if Ascii.eqb c a then [backslash; a] else [c]) l).

Definition wrap (line : list ascii) : list ascii :=
  dquote :: escape_char dquote (escape_char backslash line) ++ [backslash; "n"%char; dquote; chr 10].

(** [txt.count(sub)], for [sub] not empty. *)
Fixpoint count_from (sub l : list ascii) (skip : nat) : Z :=
  match l with
  | [] => 0
  | _ :: t =>
      match skip with
      | S n => count_from sub t n
      | O => match literal sub l with
             | Some _ => 1 + count_from sub t (length sub - 1)
             | None => count_from sub t 0
             end
      end
  end.

Definition tramp_text (source : string) : string :=
  cat [PREAMBLE; list_str (concat (map wrap (split_char (chr 10) (str_list source) []))); EPILOGUE].

(** [main]: the file written, and how it ends. *)
Definition tramp_main (source : string) : string * result unit :=
  let txt := tramp_text source in
  (txt, raise_if (negb (str_contains "#if defined(__x86_64__)" txt)) (SystemExit "no #if guard") ;;
        raise_if (negb (count_from (str_list "__asm__(") (str_list txt) 0 =? 1)) (SystemExit "__asm__ blocks") ;;
        Ok tt).

(** ** gen_sig_pubkey.py *)

Record tool_output := ToolOutput { o_returncode : Z; o_stdout : bytes }.

(** [raw_from_pem]: openssl is asked for a public key, then for a private one. *)
Definition raw_from_pem (pubin privkey : tool_output) : result bytes :=
  let der := if o_returncode pubin =? 0 then pubin else privkey in
  raise_if (negb (o_returncode der =? 0)) (SystemExit "openssl could not read the key") ;;
  raise_if (negb (len (o_stdout der) =? 44)) (SystemExit "expected a 44-byte Ed25519 SubjectPublicKeyInfo") ;;
  Ok (zdrop 12 (o_stdout der)).

(** [0x%02x]. *)
Definition hex_byte (b : Z) : string := cat ["0x"; hex [b]].

Fixpoint rows_of (fuel n : nat) (b : bytes) : list bytes :=
  match fuel with
  | O => []
  | S fuel => match b with [] => [] | _ => take n b :: rows_of fuel n (drop n b) end
  end.
Definition byte_rows (n : nat) (b : bytes) : list bytes := rows_of (length b) n b.

Definition key_row (row : bytes) : string := cat ["    "; String.concat " " (map (fun b => cat [hex_byte b; ","]) row)].

Definition key_lines (none : bool) (raw : bytes) (fp origin : string) : list string :=
  ["/* GENERATED by substrate/gen_sig_pubkey.py --- do not edit.";
   " *";
   " * The Ed25519 public key this build will accept signatures from.";
   cat [" *   origin      : "; origin];
   cat [" *   sha256(key) : "; fp];
   " *"] ++
  (if none then
    [" * THIS BUILD HAS NO KEY, so ls_sig_verify refuses every load with LS_SIG_NO_PUBKEY.";
     " * That is the correct default for an unconfigured tree: a build that cannot verify";
     " * must not accept. An all-zero key is treated as ABSENT rather than as a key,";
     " * because zero is a valid Ed25519 point and would otherwise verify nothing while";
     " * looking configured."]
   else
    [" * Regenerate whenever the signing key changes. The fingerprint above is what an";
     " * operator compares against the signing service's key --- if they differ, this";
     " * build trusts something else."]) ++
  [" */";
   "#ifndef LS_SIG_PUBKEY_H";
   "#define LS_SIG_PUBKEY_H";
   "";
   "#include <stdint.h>";
   "";
   "#define LS_SIG_PUBKEY_LEN 32u";
   "";
   "/* Offsets into struct shield_binding, asserted against the ABI in check_sig.c so";
   " * this header cannot drift from shield_abi.h without a build failure. */";
   "#define LS_SIG_BINDING_LEN      112u";
   "#define LS_SIG_BINDING_HASH_OFF   0u";
   "";
   "static const uint8_t ls_sig_pubkey[LS_SIG_PUBKEY_LEN] = {"] ++
  map key_row (byte_rows 8 raw) ++
  ["};"; ""; "#endif /* LS_SIG_PUBKEY_H */"].

Section pubkey.
Variable sha256 : bytes -> string.

(** [main]: the header for the key named, or for none. *)
Definition pubkey_main (none : bool) (key : option string) (pubin privkey : tool_output) : result string :=
  let? (raw, fp, origin) :=
    if none then Ok (replicate 32 0, "none", "no key --- this build verifies nothing") else
    match key with
    | None | Some EmptyString => Err (SystemExit "give a key file, or --none")
    | Some key => let? raw := raw_from_pem pubin privkey in Ok (raw, sha256 raw, key)
    end in
  Ok (cat [String.concat newline (key_lines none raw fp origin); newline]).
End pubkey.

(** ** mk_shield_blob.py *)

Definition blob_row (row : bytes) : string := cat ["    "; String.concat ", " (map hex_byte row)].
Definition blob_body (blob : bytes) : string := String.concat (cat [","; newline]) (map blob_row (byte_rows 12 blob)).

(** [emit]: the lines before and after the bytes, and the bytes. *)
Definition blob_lines (blob : bytes) (basename section function : string) : list string :=
  ["/* GENERATED by substrate/mk_shield_blob.py --- do not hand-edit.";
   " *";
   cat [" * The shield TMM arms at startup, as bytes. Source: "; basename];
   cat [" * ("; py_str (len blob); " bytes of ELF, compiled with clang -O2 -g -target bpf)."];
   " *";
   " * Regenerate with:  make -C substrate shield-blob";
   " *";
   " * BOTH identities are here on purpose. PREVAIL proves a SECTION and uBPF";
   " * runs a SYMBOL; ls_vm_reload refuses a program whose section does not";
   " * match the hook it was submitted under (finding O14). Changing one of";
   " * these without the other makes TMM refuse its own built-in shield at";
   " * boot --- which is the intended behaviour, not a bug.";
   " *";
   " * This blob is a development convenience and a boot self-test. Shipping a";
   " * shield this way would make it a rebuild, which is the property this";
   " * project exists to remove. The socket load path is the real mechanism.";
   " */";
   "#ifndef LS_SHIELD_BLOB_H";
   "#define LS_SHIELD_BLOB_H";
   "";
   cat ["#define LS_SHIELD_SECTION   "; list_str [dquote]; section; list_str [dquote]];
   cat ["#define LS_SHIELD_FUNCTION  "; list_str [dquote]; function; list_str [dquote]];
   "";
   "static const unsigned char ls_shield_blob[] = {";
   blob_body blob;
   "};";
   "";
   "#endif /* LS_SHIELD_BLOB_H */";
   ""].
Definition blob_header (blob : bytes) (basename section function : string) : string :=
  String.concat newline (blob_lines blob basename section function).

(** ** Reading C back *)

(** A string literal from after its quote, and what follows it. *)
Fixpoint read_literal (l : list ascii) : option (list ascii * list ascii) :=
  match l with
  | [] => None
  | c :: t =>
      if Ascii.eqb c dquote then Some ([], t) else
      if Ascii.eqb c backslash then
        match t with
        | e :: t =>
            let v := if Ascii.eqb e "n" then Some (chr 10) else if Ascii.eqb e dquote || Ascii.eqb e backslash then Some e else None in
            match v, read_literal t with
            | Some v, Some (s, r) => Some (v :: s, r)
            | _, _ => None
            end
        | [] => None
        end
      else match read_literal t with Some (s, r) => Some (c :: s, r) | None => None end
  end.

Lemma escape_cons a c l : escape_char a (c :: l) = (if Ascii.eqb c a then [backslash; a] else [c]) ++ escape_char a l.
Proof. reflexivity. Qed.

Lemma escape_app a l1 l2 : escape_char a (l1 ++ l2) = escape_char a l1 ++ escape_char a l2.
Proof. unfold escape_char. by rewrite map_app, concat_app. Qed.

(** A wrapped line is the literal of that line, ended. *)
Lemma read_wrapped line rest : without (chr 10) line ->
  exists t, wrap line ++ rest = dquote :: t /\ read_literal t = Some (line ++ [chr 10], chr 10 :: rest).
Proof.
  intros _. exists (escape_char dquote (escape_char backslash line) ++ [backslash; "n"%char; dquote; chr 10] ++ rest).
  split; [unfold wrap; cbn [app]; by rewrite <- app_assoc|]. induction line as [|c line IH]; [reflexivity|].
  cbn [app] in IH. rewrite escape_cons, escape_app, <- !app_assoc. destruct (Ascii.eqb_spec c backslash) as [->|Hb].
  - change (escape_char dquote [backslash; backslash]) with [backslash; backslash]. cbn [app read_literal].
    change (Ascii.eqb backslash dquote) with false. rewrite Ascii.eqb_refl. cbv iota.
    change (Ascii.eqb backslash "n") with false. change (false || Ascii.eqb backslash backslash) with true. cbv iota.
    by rewrite IH.
  - rewrite escape_cons. change (escape_char dquote []) with (@nil ascii). rewrite app_nil_r.
    destruct (Ascii.eqb_spec c dquote) as [->|Hq]; cbn [app read_literal].
    + change (Ascii.eqb backslash dquote) with false. rewrite Ascii.eqb_refl. cbv iota.
      change (Ascii.eqb dquote "n") with false. rewrite Ascii.eqb_refl. cbn [orb].
      by rewrite IH.
    + rewrite (proj2 (Ascii.eqb_neq _ _)), (proj2 (Ascii.eqb_neq _ _)) by done.
      by rewrite IH.
Qed.

(** The literals of a file, one to a line: what the compiler joins. *)
Fixpoint read_lines (n : nat) (l : list ascii) : option (list ascii * list ascii) :=
  match n with
  | O => Some ([], l)
  | S n =>
      match l with
      | c :: t =>
          if Ascii.eqb c dquote then
            match read_literal t with
            | Some (s, e :: r) =>
                if Ascii.eqb e (chr 10) then
                  match read_lines n r with Some (s', r) => Some (s ++ s', r) | None => None end
                else None
            | _ => None
            end
          else None
      | [] => None
      end
  end.

(** The assembly the compiler sees is the assembly of the source, line by line. *)
Theorem wrapped_lines_read lines rest : Forall (without (chr 10)) lines ->
  read_lines (length lines) (concat (map wrap lines) ++ rest) = Some (concat (map (fun l => l ++ [chr 10]) lines), rest).
Proof.
  induction 1 as [|line lines Hl Hls IH]; [done|]. cbn [map concat length]. rewrite <- app_assoc.
  destruct (read_wrapped line (concat (map wrap lines) ++ rest) Hl) as (t & -> & Ht). cbn [read_lines].
  rewrite Ascii.eqb_refl, Ht, Ascii.eqb_refl, IH. done.
Qed.
