(* ===== verification/Json.v ===== *)
(** * JSON texts

    The writer [json.dumps] with compact separators and insertion order, and a
    reader for the JSON of this library: the values of [PyVal] have no floats,
    so a number with a fraction or an exponent is refused, and escaped surrogates
    are kept apart.  What was written is read back. *)

From S2P Require Import Prelude PyVal Decimal Text Journal.

(** ** Writer *)

(** [json.dumps(v, separators=(",", ":"))]; bytes do not occur in such values. *)
Fixpoint compact (v : val) : string :=
  match v with
  | VNone => "null"
  | VBool b => if b then "true" else "false"
  | VInt z => py_str z
  | VStr s => json_str (encode s)
  | VText l => json_str l
  | VBytes b => json_str b
  | VList l => cat ["["; String.concat "," (map compact l); "]"]
  | VDict d =>
      cat ["{"; String.concat "," (map (fun kv => cat [json_str (encode kv.1); ":"; compact kv.2]) d); "}"]
  end.

Definition dumps (v : val) : bytes := encode (compact v).

(** ** Reader *)

Definition is_json_space (c : ascii) : bool := mem_Z (ord c) [32; 9; 10; 13].

Fixpoint skip_space (l : list ascii) : list ascii :=
  match l with c :: t => if is_json_space c then skip_space t else l | [] => [] end.

Definition unescape (c : ascii) : option Z :=
  assoc (ord c) [(34, 34); (92, 92); (47, 47); (98, 8); (102, 12); (110, 10); (114, 13); (116, 9)].

(** The code points of a string after its opening quote, and what follows. *)
Fixpoint string_body (l : list ascii) : option (list Z * list ascii) :=
  let put (x : Z) r := match r with Some (xs, t) => Some (x :: xs, t) | None => None end in
  match l with
  | [] => None
  | c :: t =>
      if ord c =? 34 then Some ([], t)
      else if ord c =? 92 then
        match t with
        | e :: t1 =>
            if ord e =? 117 then
              match t1 with
              | a :: b :: x :: y :: t2 =>
                  match hexval a, hexval b, hexval x, hexval y with
                  | Some a, Some b, Some x, Some y =>
                      put (((a * 16 + b) * 16 + x) * 16 + y) (string_body t2)
                  | _, _, _, _ => None
                  end
              | _ => None
              end
            else match unescape e with Some x => put x (string_body t1) | None => None end
        | [] => None
        end
      else if ord c <? 32 then None
      else put (ord c) (string_body t)
  end.

Definition text_value (cps : list Z) : val :=
  if forallb (fun c => c <? 128) cps then VStr (decode_ascii cps) else VText cps.

(** An integer: a sign, and either a zero or digits that do not begin with one. *)
Definition json_nat (l : list ascii) : option (Z * list ascii) :=
  match l with
  | c :: t => if ord c =? 48 then Some (0, t) else digits1 l
  | [] => None
  end.

Definition json_integer (l : list ascii) : option (val * list ascii) :=
  let out (neg : bool) (r : option (Z * list ascii)) :=
    match r with
    | Some (n, t) => match t with
                     | c :: _ => if mem_Z (ord c) [46; 69; 101] then None else Some (VInt (if neg then - n else n), t)
                     | [] => Some (VInt (if neg then - n else n), t)
                     end
    | None => None
    end in
  match l with
  | c :: t => if ord c =? 45 then out true (json_nat t) else out false (json_nat l)
  | [] => None
  end.

Definition word_value (l : list ascii) : option (val * list ascii) :=
  match literal (str_list "null") l with Some t => Some (VNone, t) | None =>
  match literal (str_list "true") l with Some t => Some (VBool true, t) | None =>
  match literal (str_list "false") l with Some t => Some (VBool false, t) | None => json_integer l
  end end end.

(** A value; the elements of a list and the members of an object, after a value
    or a key was announced. *)
Fixpoint value (fuel : nat) (l : list ascii) : option (val * list ascii) :=
  match fuel with
  | O => None
  | S fuel =>
      match skip_space l with
      | c :: t =>
          if ord c =? 34 then
            match string_body t with Some (cps, t) => Some (text_value cps, t) | None => None end
          else if ord c =? 91 then
            match skip_space t with
            | d :: t' => if ord d =? 93 then Some (VList [], t')
                         else match elements fuel t with Some (vs, t) => Some (VList vs, t) | None => None end
            | [] => None
            end
          else if ord c =? 123 then
            match skip_space t with
            | d :: t' => if ord d =? 125 then Some (VDict [], t')
                         else match members fuel t with Some (d, t) => Some (VDict (update d []), t) | None => None end
            | [] => None
            end
          else word_value (c :: t)
      | [] => None
      end
  end
with elements (fuel : nat) (l : list ascii) : option (list val * list ascii) :=
  match fuel with
  | O => None
  | S fuel =>
      match value fuel l with
      | Some (v, t) =>
          match skip_space t with
          | c :: t => if ord c =? 93 then Some ([v], t)
                      else if ord c =? 44 then
                        match elements fuel t with Some (vs, t) => Some (v :: vs, t) | None => None end
                      else None
          | [] => None
          end
      | None => None
      end
  end
with members (fuel : nat) (l : list ascii) : option (dict * list ascii) :=
  match fuel with
  | O => None
  | S fuel =>
      match skip_space l with
      | q :: t =>
          if negb (ord q =? 34) then None else
          match string_body t with
          | Some (k, t) =>
              match skip_space t with
              | c :: t =>
                  if negb (ord c =? 58) then None else
                  match value fuel t with
                  | Some (v, t) =>
                      match skip_space t with
                      | c :: t =>
                          if ord c =? 125 then Some ([(decode_ascii k, v)], t)
                          else if ord c =? 44 then
                            match members fuel t with
                            | Some (d, t) => Some ((decode_ascii k, v) :: d, t)
                            | None => None
                            end
                          else None
                      | [] => None
                      end
                  | None => None
                  end
              | [] => None
              end
          | None => None
          end
      | [] => None
      end
  end.

(** [json.loads] of a document. *)
Definition loads (b : bytes) : result val :=
  match value (S (length b)) (map chr b) with
  | Some (v, t) => match skip_space t with
                   | [] => Ok v
                   | _ => Err (ValueError "Extra data")
                   end
  | None => Err (ValueError "Expecting value")
  end.

(** ** What was written is read back *)

Definition ascii_text (s : string) : bool := forallb (fun c => ord c <? 128) (str_list s).

(** Values of known text whose dicts have each key once: what JSON carries. *)
Fixpoint plain (v : val) : bool :=
  match v with
  | VNone | VBool _ | VInt _ => true
  | VStr s => ascii_text s
  | VText _ | VBytes _ => false
  | VList l => forallb plain l
  | VDict d => forallb (fun kv => ascii_text kv.1 && plain kv.2) d && bool_decide (NoDup (map fst d))
  end.

Section val_induction.
Variable P : val -> Prop.
Hypothesis Hnone : P VNone.
Hypothesis Hbool : forall b, P (VBool b).
Hypothesis Hint : forall z, P (VInt z).
Hypothesis Hstr : forall s, P (VStr s).
Hypothesis Htext : forall l, P (VText l).
Hypothesis Hbytes : forall b, P (VBytes b).
Hypothesis Hlist : forall l, Forall P l -> P (VList l).
Hypothesis Hdict : forall d : dict, Forall (fun kv => P kv.2) d -> P (VDict d).

Fixpoint val_nested_ind (v : val) : P v :=
  match v with
  | VNone => Hnone
  | VBool b => Hbool b
  | VInt z => Hint z
  | VStr s => Hstr s
  | VText l => Htext l
  | VBytes b => Hbytes b
  | VList l => Hlist l ((fix go l := match l return Forall P l with
      | [] => List.Forall_nil _
      | x :: t => List.Forall_cons _ _ _ (val_nested_ind x) (go t)
      end) l)
  | VDict d => Hdict d ((fix go d := match d return Forall (fun kv : string * val => P kv.2) d with
      | [] => List.Forall_nil _
      | x :: t => List.Forall_cons _ _ _ (val_nested_ind x.2) (go t)
      end) d)
  end.
End val_induction.

Lemma string_body_char c l : 0 <= c < 128 ->
  string_body (json_char c ++ l) = match string_body l with Some (xs, t) => Some (c :: xs, t) | None => None end.
Proof.
  intros Hc. assert (c ∈ seqZ 0 128) as Hin by (apply elem_of_seqZ; lia).
  revert Hin. generalize c. apply Forall_forall. repeat (apply Forall_cons; split; [reflexivity|]). apply Forall_nil. done.
Qed.

Lemma string_body_text s rest : ascii_text s = true ->
  string_body (flat_map json_char (encode s) ++ chr 34 :: rest) = Some (encode s, rest).
Proof.
  unfold ascii_text, encode. induction (str_list s) as [|c l IH]; intros H; [reflexivity|].
  cbn [forallb] in H. bool_prop. cbn [map flat_map]. rewrite <- app_assoc, string_body_char, IH; [done|done|].
  pose proof (ord_bound c). lia.
Qed.

Lemma decode_encode s : decode_ascii (encode s) = s.
Proof.
  unfold decode_ascii, encode. rewrite map_map. rewrite <- (list_str_list s) at 2. f_equal.
  induction (str_list s) as [|c l IH]; [done|]. cbn [map]. by rewrite chr_ord, IH.
Qed.

Lemma text_value_encode s : ascii_text s = true -> text_value (encode s) = VStr s.
Proof.
  intros H. unfold text_value. rewrite decode_encode.
  assert (forallb (fun c => c <? 128) (encode s) = true) as ->; [|done].
  unfold encode, ascii_text in *. induction (str_list s) as [|c l IH]; [done|]. cbn [map forallb] in *.
  bool_prop. rewrite IH by done. lia.
Qed.

Lemma str_list_json_str l : str_list (json_str l) = chr 34 :: flat_map json_char l ++ [chr 34].
Proof. unfold json_str. by rewrite str_list_str. Qed.

(** What may follow a value. *)
Definition ends (rest : list ascii) : Prop :=
  match rest with c :: _ => ord c = 44 \/ ord c = 93 \/ ord c = 125 \/ is_json_space c = true | [] => True end.

Lemma ends_digit rest : ends rest ->
  match rest with c :: _ => is_digit c = false /\ mem_Z (ord c) [46; 69; 101] = false | [] => True end.
Proof. destruct rest as [|c t]; [done|]. unfold ends, is_digit, is_json_space, mem_Z. cbn [existsb]. lia. Qed.

Lemma run_of_digits ds rest : is_digits ds -> ends rest -> run_of is_digit (ds ++ rest) = (ds, rest).
Proof.
  intros H He. induction H as [|c ds Hc _ IH]; cbn [run_of app].
  - apply ends_digit in He. destruct rest as [|c t]; [done|]. cbn [run_of]. by destruct He as [-> _].
  - by rewrite Hc, IH.
Qed.

Lemma digits_from_value ds : is_digits ds -> forall acc,
  digits_from ds acc = Some (foldl (fun a c => a * 10 + (ord c - 48)) acc ds).
Proof.
  induction 1 as [|c ds Hc _ IH]; intros acc; [done|]. cbn [digits_from foldl]. rewrite Hc, IH. do 2 f_equal. lia.
Qed.

Lemma dec_value_pretty (n : N) : dec_value (str_list (pretty n)) = Z.of_N n.
Proof.
  destruct (pretty_head n) as (c & t & Hl & Hc & Hd). pose proof (pretty_digits n) as Hds.
  rewrite Hl in *. unfold digits in Hd. rewrite Hc in Hd. inversion Hds; subst.
  rewrite digits_from_value in Hd by done. injection Hd as <-. unfold dec_value. reflexivity.
Qed.

(** A positive number does not begin with a zero. *)
Lemma pretty_go_nonzero x : forall s, (0 < x)%N -> exists c t,
  str_list (pretty_N_go x s) = c :: t /\ ord c <> 48.
Proof.
  induction (N.lt_wf_0 x) as [x _ IH]. intros s Hx. rewrite pretty_N_go_step by done.
  destruct (N.eq_0_gt_0_cases (x `div` 10)) as [E|E].
  - rewrite E, pretty_N_go_0. cbn [str_list]. do 2 eexists. split; [done|].
    apply N.div_small_iff in E; [|done]. rewrite N.mod_small, ord_pretty_char by done. lia.
  - apply IH; [by apply N.div_lt|done].
Qed.

Lemma json_nat_pretty (n : N) rest : ends rest ->
  json_nat (str_list (pretty n) ++ rest) = Some (Z.of_N n, rest).
Proof.
  intros He. destruct (decide (n = 0%N)) as [->|Hn]; [reflexivity|].
  assert (exists c t, str_list (pretty n) = c :: t /\ ord c <> 48) as (c & t & Hl & Hc).
  { unfold pretty, pretty_N. rewrite decide_False by done. apply pretty_go_nonzero. lia. }
  assert (json_nat (str_list (pretty n) ++ rest) = digits1 (str_list (pretty n) ++ rest)) as ->.
  { rewrite Hl. cbn [app json_nat]. by destruct (Z.eqb_spec (ord c) 48). }
  unfold digits1, run1. rewrite run_of_digits by (done || apply pretty_digits).
  rewrite <- dec_value_pretty. by rewrite Hl.
Qed.

Lemma json_integer_py_str z rest : ends rest ->
  json_integer (str_list (py_str z) ++ rest) = Some (VInt z, rest).
Proof.
  intros He. pose proof (ends_digit _ He) as Hd. unfold json_integer.
  destruct (Z_lt_le_dec z 0) as [Hz|Hz].
  - destruct z as [|p|p]; [lia..|].
    change (str_list (py_str (Zneg p))) with (chr 45 :: str_list (pretty (Npos p))). cbn [app].
    change (ord (chr 45) =? 45) with true. cbv iota. rewrite json_nat_pretty by done.
    destruct rest as [|c t]; [done|]. destruct Hd as [_ ->]. done.
  - assert (py_str z = pretty (Z.to_N z)) as ->.
    { unfold py_str. rewrite <- (Z2N.id z) at 1 by done. by destruct (Z.to_N z). }
    pose proof (json_nat_pretty (Z.to_N z) rest He) as Hn.
    destruct (pretty_head (Z.to_N z)) as (c & t & Hl & Hc & _). rewrite Hl in *. cbn [app] in *.
    assert ((ord c =? 45) = false) as -> by (unfold is_digit in Hc; lia). rewrite Hn, Z2N.id by done.
    destruct rest as [|d r]; [done|]. destruct Hd as [_ ->]. done.
Qed.

Abbreviation txt v := (str_list (compact v)).

(** A number's text begins with a sign or a digit. *)
Lemma py_str_head z : exists c t, str_list (py_str z) = c :: t /\ (is_digit c = true \/ ord c = 45).
Proof.
  destruct (Z_lt_le_dec z 0) as [Hz|Hz].
  - destruct z as [|p|p]; [lia..|]. exists (chr 45), (str_list (pretty (Npos p))). by split; [|right].
  - assert (py_str z = pretty (Z.to_N z)) as ->.
    { unfold py_str. rewrite <- (Z2N.id z) at 1 by done. by destruct (Z.to_N z). }
    destruct (pretty_head (Z.to_N z)) as (c & t & -> & Hc & _). eauto.
Qed.

(** The first character of a value: no space, no closing bracket. *)
Lemma txt_head v : exists c t, txt v = c :: t /\ is_json_space c = false /\ ord c <> 93 /\ ord c <> 125.
Proof.
  destruct v as [|[]|z|s|l|b|l|d]; cbn [compact]; rewrite ?str_list_json_str, ?str_list_cat;
    try (do 2 eexists; split; [reflexivity|done]).
  destruct (py_str_head z) as (c & t & H & Hc). exists c, t. split; [exact H|].
  unfold is_digit, is_json_space, mem_Z in *. cbn [existsb]. lia.
Qed.

Lemma skip_space_txt v rest : skip_space (txt v ++ rest) = txt v ++ rest.
Proof. destruct (txt_head v) as (c & t & -> & H & _). cbn [app skip_space]. by rewrite H. Qed.

Lemma value_int fuel z rest : ends rest -> value (S fuel) (str_list (py_str z) ++ rest) = Some (VInt z, rest).
Proof.
  intros He. pose proof (json_integer_py_str z rest He) as Hj. cbn [value].
  pose proof (skip_space_txt (VInt z) rest) as Hs. cbn [compact] in Hs. rewrite Hs. clear Hs.
  destruct (py_str_head z) as (c & t & Hl & Hc). rewrite Hl in *. cbn [app] in *.
  assert (forall p q, literal (p :: q) (c :: t ++ rest) = if Ascii.eqb p c then literal q (t ++ rest) else None) as Hlit by done.
  assert (forall p, is_digit p = false -> ord p <> 45 -> Ascii.eqb p c = false) as Hne.
  { intros p Hp Hq. apply Ascii.eqb_neq. intros ->. destruct Hc; congruence. }
  assert ((ord c =? 34) = false /\ (ord c =? 91) = false /\ (ord c =? 123) = false) as (-> & -> & ->)
    by (unfold is_digit in Hc; lia).
  unfold word_value. cbn [str_list]. rewrite !Hlit, !Hne by done. exact Hj.
Qed.

Lemma update_nodup d : forall pre, NoDup (map fst (pre ++ d)) -> update d pre = pre ++ d.
Proof.
  unfold update. induction d as [|[k v] d IH]; intros pre H; [by rewrite app_nil_r|]. cbn [fold_left fst snd].
  assert (PyVal.set k v pre = pre ++ [(k, v)]) as ->.
  { rewrite map_app in H. apply NoDup_app in H as (_ & Hn & _). clear IH.
    induction pre as [|[k' v'] pre IH]; [done|]. cbn [PyVal.set app].
    destruct (String.eqb_spec k k') as [->|_]; [exfalso; apply (Hn k'); set_solver|].
    f_equal. apply IH. intros x Hx. apply Hn. set_solver. }
  rewrite IH; by rewrite <- app_assoc.
Qed.

(** ** Layouts

    A writer may put space around the elements of a list, the keys and the values:
    the texts of a value, whatever the spacing. *)

Definition space (l : list ascii) : Prop := Forall (fun c => is_json_space c = true) l.

Definition leaf (v : val) : bool :=
  match v with VNone | VBool _ | VInt _ => true | VStr s => ascii_text s | _ => false end.

Inductive layout : val -> list ascii -> Prop :=
| lay_scalar v : leaf v = true -> layout v (txt v)
| lay_nil s : space s -> layout (VList []) ("["%char :: s ++ ["]"%char])
| lay_list l b : lay_elements l b -> layout (VList l) ("["%char :: b ++ ["]"%char])
| lay_empty s : space s -> layout (VDict []) ("{"%char :: s ++ ["}"%char])
| lay_dict d b : NoDup (map fst d) -> lay_members d b -> layout (VDict d) ("{"%char :: b ++ ["}"%char])
with lay_elements : list val -> list ascii -> Prop :=
| lay_one v s1 b s2 : space s1 -> layout v b -> space s2 -> lay_elements [v] (s1 ++ b ++ s2)
| lay_more v s1 b s2 l bs : space s1 -> layout v b -> space s2 -> lay_elements l bs ->
    lay_elements (v :: l) (s1 ++ b ++ s2 ++ ","%char :: bs)
with lay_members : dict -> list ascii -> Prop :=
| lay_pair k v s1 s2 s3 b s4 : ascii_text k = true -> space s1 -> space s2 -> space s3 -> layout v b -> space s4 ->
    lay_members [(k, v)] (s1 ++ str_list (json_str (encode k)) ++ s2 ++ ":"%char :: s3 ++ b ++ s4)
| lay_pairs k v s1 s2 s3 b s4 d bs : ascii_text k = true -> space s1 -> space s2 -> space s3 -> layout v b ->
    space s4 -> lay_members d bs ->
    lay_members ((k, v) :: d) (s1 ++ str_list (json_str (encode k)) ++ s2 ++ ":"%char :: s3 ++ b ++ s4 ++ ","%char :: bs).

Scheme layout_mut := Induction for layout Sort Prop
  with lay_elements_mut := Induction for lay_elements Sort Prop
  with lay_members_mut := Induction for lay_members Sort Prop.

Lemma skip_space_over s l : space s -> skip_space (s ++ l) = skip_space l.
Proof. induction 1 as [|c s Hc _ IH]; [done|]. cbn [app skip_space]. by rewrite Hc. Qed.

Lemma value_over fuel s l : space s -> value fuel (s ++ l) = value fuel l.
Proof. intros H. destruct fuel; [done|]. cbn [value]. by rewrite skip_space_over. Qed.

Lemma value_scalar fuel v rest : leaf v = true -> ends rest -> value (S fuel) (txt v ++ rest) = Some (v, rest).
Proof.
  intros Hp He. destruct v as [|[]|z|s|l|b|l|d]; try done; [by apply value_int|].
  cbn [compact leaf] in *. rewrite str_list_json_str. cbn [app value skip_space].
  change (is_json_space (chr 34)) with false. cbv iota. change (ord (chr 34) =? 34) with true. cbv iota.
  rewrite <- app_assoc. cbn [app]. by rewrite string_body_text, text_value_encode.
Qed.

(** A layout begins with neither space nor a closing bracket. *)
Lemma layout_head v b : layout v b -> exists c t, b = c :: t /\ is_json_space c = false /\ ord c <> 93 /\ ord c <> 125.
Proof. destruct 1; [apply txt_head|..]; by do 2 eexists. Qed.

Lemma elements_head l b : lay_elements l b ->
  exists (c : ascii) (t : list ascii), (ord c <> 93)%Z /\ (forall more : list ascii, skip_space (b ++ more) = c :: (t ++ more)).
Proof.
  destruct 1 as [v s1 b s2 H1 Hb H2|v s1 b s2 l bs H1 Hb H2 Hl];
    apply layout_head in Hb as (c & t & -> & Hc & H93 & _).
  - exists c, (t ++ s2). split; [exact H93|]. intros more.
    rewrite <- !app_assoc, (skip_space_over s1 _ H1). cbn [app skip_space]. by rewrite Hc.
  - exists c, (t ++ s2 ++ ","%char :: bs). split; [exact H93|]. intros more.
    rewrite <- !app_assoc, (skip_space_over s1 _ H1). cbn [app skip_space]. by rewrite Hc.
Qed.

Lemma members_head d b : lay_members d b ->
  exists t : list ascii, forall more : list ascii, skip_space (b ++ more) = chr 34 :: (t ++ more).
Proof.
  destruct 1 as [k v s1 s2 s3 b s4 Hk H1|k v s1 s2 s3 b s4 d bs Hk H1]; rewrite str_list_json_str.
  - exists ((flat_map json_char (encode k) ++ [chr 34]) ++ s2 ++ ":"%char :: s3 ++ b ++ s4). intros more.
    rewrite <- !app_assoc, (skip_space_over s1 _ H1). cbn [app skip_space]. by rewrite <- ?app_assoc.
  - exists ((flat_map json_char (encode k) ++ [chr 34]) ++ s2 ++ ":"%char :: s3 ++ b ++ s4 ++ ","%char :: bs). intros more.
    rewrite <- !app_assoc, (skip_space_over s1 _ H1). cbn [app skip_space]. by rewrite <- ?app_assoc.
Qed.

(** The key of a member, read. *)
Lemma members_step fuel k s1 s2 more : ascii_text k = true -> space s1 -> space s2 ->
  members (S fuel) (s1 ++ str_list (json_str (encode k)) ++ s2 ++ ":"%char :: more) =
  match value fuel more with
  | Some (v, t) => match skip_space t with
      | c :: t => if ord c =? 125 then Some ([(k, v)], t) else if ord c =? 44 then
          match members fuel t with Some (d, t) => Some ((k, v) :: d, t) | None => None end else None
      | [] => None end
  | None => None end.
Proof.
  intros Hk H1 H2. cbn [members]. rewrite (skip_space_over s1 _ H1), str_list_json_str. cbn [app skip_space].
  change (is_json_space (chr 34)) with false. cbv iota. change (negb (ord (chr 34) =? 34)) with false. cbv iota.
  rewrite <- app_assoc. cbn [app]. rewrite string_body_text by done. rewrite (skip_space_over s2 _ H2). cbn [skip_space].
  change (is_json_space ":") with false. cbv iota. change (negb (ord ":" =? 58)) with false. cbv iota.
  by rewrite decode_encode.
Qed.

Lemma space_ends s l : space s -> ends l -> ends (s ++ l).
Proof. intros H He. destruct H as [|c s Hc _]; [done|]. cbn [app ends]. auto. Qed.

(** An opening bracket, read. *)
Lemma value_list fuel t : value (S fuel) ("["%char :: t) =
  match skip_space t with
  | d :: t' => if ord d =? 93 then Some (VList [], t')
               else match elements fuel t with Some (vs, t) => Some (VList vs, t) | None => None end
  | [] => None
  end.
Proof. reflexivity. Qed.

Lemma value_dict fuel t : value (S fuel) ("{"%char :: t) =
  match skip_space t with
  | d :: t' => if ord d =? 125 then Some (VDict [], t')
               else match members fuel t with Some (d, t) => Some (VDict (update d []), t) | None => None end
  | [] => None
  end.
Proof. reflexivity. Qed.

Lemma layout_reads v b : layout v b -> forall fuel rest, (length b < fuel)%nat -> ends rest ->
  value fuel (b ++ rest) = Some (v, rest).
Proof.
  revert v b. apply (layout_mut
    (fun v b _ => forall fuel rest, (length b < fuel)%nat -> ends rest -> value fuel (b ++ rest) = Some (v, rest))
    (fun l b _ => forall fuel rest, (length b < fuel)%nat ->
       elements (S fuel) (b ++ "]"%char :: rest) = Some (l, rest))
    (fun d b _ => forall fuel rest, (length b < fuel)%nat ->
       members (S fuel) (b ++ "}"%char :: rest) = Some (d, rest))).
  - intros v Hv fuel rest Hf He. destruct fuel; [lia|]. by apply value_scalar.
  - intros s Hs [|fuel] rest Hf He; [lia|]. rewrite <- app_comm_cons, <- app_assoc, value_list.
    by rewrite (skip_space_over s _ Hs).
  - intros l b Hb IH fuel rest Hf He. destruct fuel as [|[|fuel]]; cbn [length] in Hf; rewrite length_app in Hf;
      cbn [length] in Hf; [lia..|]. destruct (elements_head _ _ Hb) as (c & t & H93 & Hs).
    rewrite <- app_comm_cons, <- app_assoc, value_list. cbn [app]. rewrite Hs.
    destruct (Z.eqb_spec (ord c) 93); [done|]. by rewrite IH by lia.
  - intros s Hs [|fuel] rest Hf He; [lia|]. rewrite <- app_comm_cons, <- app_assoc, value_dict.
    by rewrite (skip_space_over s _ Hs).
  - intros d b Hd Hb IH fuel rest Hf He. destruct fuel as [|[|fuel]]; cbn [length] in Hf; rewrite length_app in Hf;
      cbn [length] in Hf; [lia..|]. destruct (members_head _ _ Hb) as (t & Hs).
    rewrite <- app_comm_cons, <- app_assoc, value_dict. cbn [app]. rewrite Hs.
    change (ord (chr 34) =? 125) with false. cbv iota. rewrite IH by lia. do 3 f_equal. by apply update_nodup.
  - intros v s1 b s2 H1 Hb IH H2 fuel rest Hf. rewrite !length_app in Hf. cbn [elements].
    rewrite <- !app_assoc, (value_over _ s1 _ H1), IH; [|lia|by apply space_ends; [|right; left]].
    by rewrite (skip_space_over s2 _ H2).
  - intros v s1 b s2 l bs H1 Hb IH H2 Hl IHl fuel rest Hf. rewrite !length_app in Hf. cbn [length] in Hf.
    destruct fuel as [|fuel]; [lia|]. remember (S fuel) as f eqn:Hfuel. cbn [elements].
    rewrite <- !app_assoc, (value_over _ s1 _ H1), IH; [|lia|by apply space_ends; [|left]].
    rewrite (skip_space_over s2 _ H2). cbn [app skip_space]. change (is_json_space ",") with false. cbv iota.
    change (ord "," =? 93) with false. change (ord "," =? 44) with true. cbv iota. subst f. by rewrite IHl by lia.
  - intros k v s1 s2 s3 b s4 Hk H1 H2 H3 Hb IH H4 fuel rest Hf. rewrite !length_app in Hf. cbn [length] in Hf.
    rewrite !length_app in Hf. rewrite <- !app_assoc, <- app_comm_cons, <- !app_assoc.
    rewrite members_step by done. rewrite (value_over _ s3 _ H3), IH; [|lia|by apply space_ends; [|right; right; left]].
    by rewrite (skip_space_over s4 _ H4).
  - intros k v s1 s2 s3 b s4 d bs Hk H1 H2 H3 Hb IH H4 Hd IHd fuel rest Hf. rewrite !length_app in Hf. cbn [length] in Hf.
    rewrite !length_app in Hf. cbn [length] in Hf. rewrite <- !app_assoc, <- app_comm_cons, <- !app_assoc.
    rewrite members_step by done. rewrite (value_over _ s3 _ H3), IH; [|lia|by apply space_ends; [|left]].
    rewrite (skip_space_over s4 _ H4). cbn [app skip_space]. change (is_json_space ",") with false. cbv iota.
    change (ord "," =? 125) with false. change (ord "," =? 44) with true. cbv iota.
    destruct fuel as [|fuel]; [lia|]. by rewrite IHd by lia.
Qed.

(** ** Writers *)

Lemma concat_cons2 sep (x y : string) l :
  str_list (String.concat sep (x :: y :: l)) = str_list x ++ str_list sep ++ str_list (String.concat sep (y :: l)).
Proof.
  change (String.concat sep (x :: y :: l)) with (String.append x (String.append sep (String.concat sep (y :: l)))).
  by rewrite !str_list_append.
Qed.

Lemma forallb_impl {A} (p : A -> bool) (Q : A -> Prop) l :
  forallb p l = true -> Forall (fun x => p x = true -> Q x) l -> Forall Q l.
Proof.
  intros Hp H. induction H as [|x l Hx _ IH]; [done|]. cbn [forallb] in Hp. bool_prop. constructor; auto.
Qed.

(** Elements and members written one after the other with one separator: a comma and
    the space [gap]; [open] and [close] are the space inside the brackets. *)
Lemma elements_layout (w : val -> string) (gap open close : list ascii) sep l :
  str_list sep = ","%char :: gap -> space gap -> space open -> space close ->
  Forall (fun v => layout v (str_list (w v))) l -> l <> [] ->
  lay_elements l (open ++ str_list (String.concat sep (map w l)) ++ close).
Proof.
  intros Hsep Hg Ho Hc H Hne. revert open Ho. induction H as [|v l Hv Hl IH]; intros open Ho; [done|]. destruct l as [|w' l].
  - by apply (lay_one v open _ close).
  - cbn [map]. rewrite concat_cons2, Hsep, <- !app_assoc. cbn [app].
    apply (lay_more v open _ [] (w' :: l)); [done..|by apply Forall_nil|]. by apply IH.
Qed.

Lemma members_layout (w : val -> string) (col gap open close : list ascii) sep colon (d : dict) :
  str_list sep = ","%char :: gap -> str_list colon = ":"%char :: col -> space col -> space gap -> space open ->
  space close ->
  Forall (fun kv => ascii_text kv.1 = true /\ layout kv.2 (str_list (w kv.2))) d -> d <> [] ->
  lay_members d (open ++ str_list (String.concat sep
    (map (fun kv : string * val => cat [json_str (encode kv.1); colon; w kv.2]) d)) ++ close).
Proof.
  intros Hsep Hcol Hsp Hg Ho Hc H Hne. revert open Ho.
  assert (forall kv : string * val, str_list (cat [json_str (encode kv.1); colon; w kv.2]) =
    str_list (json_str (encode kv.1)) ++ [] ++ ":"%char :: col ++ str_list (w kv.2)) as Hm.
  { intros kv. rewrite str_list_cat. cbn [map concat]. by rewrite Hcol, app_nil_r. }
  induction H as [|[k v] l [Hk Hv] Hl IH]; intros open Ho; [done|]. destruct l as [|w' l].
  - cbn [map String.concat]. rewrite Hm, <- !app_assoc, <- app_comm_cons, <- app_assoc.
    by apply (lay_pair k v open [] col _ close); [..|apply Forall_nil| | |].
  - cbn [map]. rewrite concat_cons2, Hm, Hsep, <- !app_assoc, <- !app_comm_cons, <- !app_assoc. cbn [fst snd].
    change ("," :: gap ++ ?r)%char with ([] ++ ","%char :: gap ++ r).
    apply (lay_pairs k v open [] col _ [] (w' :: l)); try done; [by apply Forall_nil..|]. by apply IH.
Qed.

Lemma compact_layout v : plain v = true -> layout v (txt v).
Proof.
  induction v as [|b|z|s|l|b|l IH|d IH] using val_nested_ind; intros Hp; try (by apply lay_scalar); try done.
  - cbn [compact plain] in *. rewrite str_list_cat. cbn [map concat str_list]. rewrite app_nil_r. cbn [app].
    destruct l as [|v l]; [by apply (lay_nil []), Forall_nil|]. apply lay_list.
    replace (str_list _) with ([] ++ str_list (String.concat "," (map compact (v :: l))) ++ []) by by rewrite app_nil_r.
    apply (elements_layout compact []); try done; [by apply Forall_nil..|]. by apply (forallb_impl plain).
  - cbn [compact plain] in *. bool_prop. rewrite str_list_cat. cbn [map concat str_list]. rewrite app_nil_r. cbn [app].
    destruct d as [|kv d]; [by apply (lay_empty []), Forall_nil|].
    match goal with H : bool_decide _ = true |- _ => apply bool_decide_eq_true in H end. apply lay_dict; [done|].
    rewrite <- (app_nil_r (str_list _)), <- (app_nil_l (str_list _ ++ [])).
    apply (members_layout compact [] []); try done; [by apply Forall_nil..|].
    apply (forallb_impl (fun kv => ascii_text kv.1 && plain kv.2)); [done|].
    eapply Forall_impl; [exact IH|]. intros [k v] Hv [Hk Hpv]%andb_true_iff. by split; [|apply Hv].
Qed.

(** Any text that lays a value out reads as that value. *)
Lemma loads_layout v s s1 b s2 : layout v b -> space s1 -> space s2 -> str_list s = s1 ++ b ++ s2 ->
  loads (encode s) = Ok v.
Proof.
  intros Hl H1 H2 Hs. unfold loads.
  assert (map chr (encode s) = str_list s) as Hm.
  { unfold encode. rewrite map_map. erewrite map_ext; [apply map_id|]. intros c. apply chr_ord. }
  assert (length (encode s) = length (str_list s)) as -> by apply length_map.
  rewrite Hm, Hs, (value_over _ s1 _ H1), (layout_reads v b Hl).
  - by rewrite <- (app_nil_r s2), (skip_space_over s2 _ H2).
  - rewrite !length_app. lia.
  - rewrite <- (app_nil_r s2). by apply space_ends.
Qed.

(** A plain value's text reads as that value. *)
Lemma loads_dumps v : plain v = true -> loads (dumps v) = Ok v.
Proof.
  intros Hp. apply (loads_layout v (compact v) [] (txt v) []); [by apply compact_layout|by apply Forall_nil..|].
  by rewrite app_nil_r.
Qed.

(** [json.dumps(v)]: a space after each separator. *)
Fixpoint spaced (v : val) : string :=
  match v with
  | VList l => cat ["["; String.concat ", " (map spaced l); "]"]
  | VDict d =>
      cat ["{"; String.concat ", " (map (fun kv => cat [json_str (encode kv.1); ": "; spaced kv.2]) d); "}"]
  | _ => compact v
  end.

(** [json.dumps(v, indent=2)]: each element and member on a line of its own. *)
Definition line_at (n : nat) : string := cat [newline; list_str (replicate (2 * n) " "%char)].

Fixpoint indented (n : nat) (v : val) : string :=
  match v with
  | VList [] => "[]"
  | VDict [] => "{}"
  | VList l =>
      cat ["["; line_at (S n); String.concat (cat [","; line_at (S n)]) (map (indented (S n)) l); line_at n; "]"]
  | VDict d =>
      cat ["{"; line_at (S n);
           String.concat (cat [","; line_at (S n)])
             (map (fun kv => cat [json_str (encode kv.1); ": "; indented (S n) kv.2]) d); line_at n; "}"]
  | _ => compact v
  end.

Lemma spaced_layout v : plain v = true -> layout v (str_list (spaced v)).
Proof.
  assert (space [" "%char]) as Hsp by (by repeat constructor).
  induction v as [|b|z|s|l|b|l IH|d IH] using val_nested_ind; intros Hp; try (by apply lay_scalar); try done.
  - cbn [spaced plain] in *. rewrite str_list_cat. cbn [map concat str_list]. rewrite app_nil_r. cbn [app].
    destruct l as [|v l]; [by apply (lay_nil []), Forall_nil|]. apply lay_list.
    replace (str_list _) with ([] ++ str_list (String.concat ", " (map spaced (v :: l))) ++ []) by by rewrite app_nil_r.
    apply (elements_layout spaced [" "%char]); try done; [by apply Forall_nil..|]. by apply (forallb_impl plain).
  - cbn [spaced plain] in *. bool_prop. rewrite str_list_cat. cbn [map concat str_list]. rewrite app_nil_r. cbn [app].
    destruct d as [|kv d]; [by apply (lay_empty []), Forall_nil|].
    match goal with H : bool_decide _ = true |- _ => apply bool_decide_eq_true in H end. apply lay_dict; [done|].
    rewrite <- (app_nil_r (str_list _)), <- (app_nil_l (str_list _ ++ [])).
    apply (members_layout spaced [" "%char] [" "%char]); try done; [by apply Forall_nil..|].
    apply (forallb_impl (fun kv => ascii_text kv.1 && plain kv.2)); [done|].
    eapply Forall_impl; [exact IH|]. intros [k v] Hv [Hk Hpv]%andb_true_iff. by split; [|apply Hv].
Qed.

Lemma line_at_space n : space (str_list (line_at n)).
Proof.
  unfold line_at. rewrite str_list_cat. cbn [map concat str_list]. rewrite app_nil_r, str_list_str.
  apply Forall_cons. split; [done|]. by apply Forall_replicate.
Qed.

Lemma indented_layout v : forall n, plain v = true -> layout v (str_list (indented n v)).
Proof.
  assert (forall n, str_list (cat [","; line_at n]) = ","%char :: str_list (line_at n)) as Hc.
  { intros n. rewrite str_list_cat. cbn [map concat str_list app]. by rewrite app_nil_r. }
  induction v as [|b|z|s|l|b|l IH|d IH] using val_nested_ind; intros n Hp; try (by apply lay_scalar); try done.
  - destruct l as [|v l]; [by apply (lay_nil []), Forall_nil|]. cbn [plain] in Hp.
    change (indented n (VList (v :: l))) with (cat ["["; line_at (S n);
      String.concat (cat [","; line_at (S n)]) (map (indented (S n)) (v :: l)); line_at n; "]"]).
    rewrite str_list_cat. cbn [map concat]. change (str_list "[") with ["["%char]. rewrite app_nil_r. cbn [app].
    rewrite !app_assoc. apply lay_list. rewrite <- app_assoc.
    apply (elements_layout (indented (S n)) (str_list (line_at (S n)))); try apply line_at_space; try done.
    apply (forallb_impl plain); [done|]. eapply Forall_impl; [exact IH|]. auto.
  - destruct d as [|kv d]; [by apply (lay_empty []), Forall_nil|]. cbn [plain] in Hp. bool_prop.
    change (indented n (VDict (kv :: d))) with (cat ["{"; line_at (S n); String.concat (cat [","; line_at (S n)])
      (map (fun kv => cat [json_str (encode kv.1); ": "; indented (S n) kv.2]) (kv :: d)); line_at n; "}"]).
    rewrite str_list_cat. cbn [map concat]. change (str_list "{") with ["{"%char]. rewrite app_nil_r. cbn [app].
    rewrite !app_assoc. apply lay_dict.
    { match goal with H : bool_decide _ = true |- _ => by apply bool_decide_eq_true in H end. }
    rewrite <- app_assoc.
    apply (members_layout (indented (S n)) [" "%char] (str_list (line_at (S n))) _ _ _ ": " (kv :: d)); try apply line_at_space; try done; [by repeat constructor|].
    apply (forallb_impl (fun kv => ascii_text kv.1 && plain kv.2)); [done|].
    eapply Forall_impl; [exact IH|]. intros [k v] Hv [Hk Hpv]%andb_true_iff. by split; [|apply Hv].
Qed.
