(* ===== verification/Origin.v ===== *)
(** * The synthetic origin (env/ai-traffic/backend.py)

    The fixture's MCP, A2A and inference server as a machine that many handler
    threads share: a request is received and logged, dispatched under the lock,
    and answered, each in a step of its own, so that the steps of different
    connections interleave.  A stream sends one event a step.  Parameters: the
    digest, the JSON reader and the texts of exceptions; the random identifiers
    and the two clocks are given with each step. *)

From S2P Require Import Prelude PyVal Text Hex Authority Json.

(** ** Requests *)

Record request := Request {
  command : string; path : string; q_headers : list (string * string);
  rfile : bytes; peer_ip : string }.

(** [self.headers.get(name)]: the first such header, whatever its case. *)
Definition header (q : request) (name : string) : option string :=
  option_map snd (List.find (fun kv => String.eqb (lower kv.1) (lower name)) (q_headers q)).

Definition header_or (q : request) (name : string) : string := default "" (header q name).

Definition run_of_request (q : request) : string := header_or q "X-Run-Id".

(** [urlsplit]: the path and the query of a target, after its scheme and its host
    if it has them (not modelled: a host in brackets, control characters in front). *)
Definition before (stop : list Z) (l : list ascii) : list ascii * list ascii :=
  run_of (fun c => negb (mem_Z (ord c) stop)) l.

Definition is_letter (c : ascii) : bool := is_alpha_ c && negb (ord c =? 95).
Definition scheme_char (c : ascii) : bool := is_letter c || is_digit c || mem_Z (ord c) [43; 45; 46].

Definition after_scheme (l : list ascii) : list ascii :=
  match before [58] l with
  | (c :: s, _ :: rest) => if is_letter c && forallb scheme_char s then rest else l
  | _ => l
  end.

Definition after_host (l : list ascii) : list ascii :=
  match l with
  | a :: b :: t => if (ord a =? 47) && (ord b =? 47) then (before [47; 63; 35] t).2 else l
  | _ => l
  end.

Definition urlsplit (s : string) : string * string :=
  let '(p, rest) := before [63; 35] (after_host (after_scheme (str_list s))) in
  (list_str p, match rest with
               | c :: t => if ord c =? 63 then list_str (before [35] t).1 else ""
               | [] => ""
               end).

(** [unquote] after [+] became a space, on ASCII. *)
Fixpoint unquote (l : list ascii) : list ascii :=
  match l with
  | c :: t =>
      if ord c =? 37 then
        match t with
        | a :: b :: t' =>
            match hexval a, hexval b with
            | Some x, Some y => chr (16 * x + y) :: unquote t'
            | _, _ => c :: unquote t
            end
        | _ => c :: unquote t
        end
      else (if ord c =? 43 then " "%char else c) :: unquote t
  | [] => []
  end.

(** [parse_qs(query).get("run", [""])[0]]; a field without a value is left out. *)
Fixpoint first_run (fields : list (list ascii)) : string :=
  match fields with
  | f :: t =>
      match before [61] f with
      | (k, _ :: ((_ :: _) as v)) =>
          if String.eqb (list_str (unquote k)) "run" then list_str (unquote v) else first_run t
      | _ => first_run t
      end
  | [] => ""
  end.

Definition query_run (query : string) : string := first_run (split_char "&" (str_list query) []).

(** ** State *)

Definition EVENTS_MAX : Z := 20000.

(** What a handler thread still has to do for its request. *)
Inductive work :=
| Dispatch (data : dict)
| Respond (status : Z) (value : option val) (headers : list (string * string))
| Refuse (e : exn)
| Stream (values : list string) (index : Z) (sent : bytes) (after : option (string * string * dict))
| Complete (run task_id : string) (task : dict).

Record conn := Conn { c_request : request; c_work : work }.

Record origin := Origin {
  EVENTS : list dict;
  SESSIONS : gmap string string;
  TASKS : gmap (string * string) dict;
  ATTEMPTS : gmap (string * string) Z;
  conns : gmap nat conn }.

Definition no_origin : origin := Origin [] ∅ ∅ ∅ ∅.

Definition with_events (o : origin) e := Origin e (SESSIONS o) (TASKS o) (ATTEMPTS o) (conns o).
Definition with_sessions (o : origin) s := Origin (EVENTS o) s (TASKS o) (ATTEMPTS o) (conns o).
Definition with_tasks (o : origin) t := Origin (EVENTS o) (SESSIONS o) t (ATTEMPTS o) (conns o).
Definition with_attempts (o : origin) a := Origin (EVENTS o) (SESSIONS o) (TASKS o) a (conns o).
Definition with_conns (o : origin) c := Origin (EVENTS o) (SESSIONS o) (TASKS o) (ATTEMPTS o) c.

(** [deque(maxlen=20000).append]. *)
Definition push (row : dict) (rows : list dict) : list dict :=
  zdrop (len rows + 1 - EVENTS_MAX) (rows ++ [row]).

(** What a step writes to its connection. *)
Inductive output :=
| Reply (status : Z) (headers : list (string * string)) (body : bytes)
| Head (status : Z) (headers : list (string * string))
| Chunk (b : bytes)
| LastChunk
| Aborted (e : exn).

Section backend.
Variable sha256 : bytes -> string.
Variable json_loads : bytes -> result val.
Variable str_exc : exn -> string.

(** ** [Handler.event], [reply], [rpc] *)

Definition row (q : request) (clock : Z * Z) (name : string) (fields : dict) : dict :=
  update fields
    [("witness", VStr "backend"); ("event", VStr name); ("time_ns", VInt clock.1);
     ("monotonic_ns", VInt clock.2); ("run_id", VStr (run_of_request q));
     ("request_id", VStr (header_or q "X-Request-Id"));
     ("operation_id", VStr (header_or q "X-Operation-Id")); ("path", VStr (path q));
     ("peer_ip", VStr (peer_ip q))].

Definition event (o : origin) (q : request) (clock : Z * Z) (name : string) (fields : dict) : origin :=
  with_events o (push (row q clock name fields) (EVENTS o)).

Definition body_of (value : option val) : bytes :=
  match value with None => [] | Some v => dumps v end.

Definition reply (o : origin) (q : request) (clock : Z * Z) (status : Z) (value : option val)
    (headers : list (string * string)) : origin * output :=
  let body := body_of value in
  let out := Reply status
    ([("Content-Type", "application/json"); ("Content-Length", py_str (len body));
      ("X-Request-Id", header_or q "X-Request-Id"); ("Connection", "close")] ++ headers) body in
  (if String.eqb (command q) "POST"
   then event o q clock "response_complete"
          [("status", VInt status); ("response_bytes", VInt (len body));
           ("response_sha256", VStr (sha256 body))]
   else o, out).

(** The error is a non-empty dict or absent. *)
Definition rpc_error (data : dict) (code : Z) (message : string) (status : Z) : work :=
  Respond status (Some (VDict
    [("jsonrpc", VStr "2.0"); ("id", getv "id" data);
     ("error", VDict [("code", VInt code); ("message", VStr message)])])) [].

Definition rpc_result (data : dict) (result : val) (headers : list (string * string)) : work :=
  Respond 200 (Some (VDict [("jsonrpc", VStr "2.0"); ("id", getv "id" data); ("result", result)])) headers.

(** ** [Handler.mcp] *)

Definition initialized : val := VDict
  [("protocolVersion", VStr "2025-03-26");
   ("capabilities", VDict [("tools", VDict []); ("resources", VDict [])]);
   ("serverInfo", VDict [("name", VStr "traffic-jig"); ("version", VStr "1")])].

Definition echo_tool : val := VDict
  [("tools", VList [VDict
    [("name", VStr "echo"); ("description", VStr "Synthetic echo");
     ("inputSchema", VDict [("type", VStr "object");
        ("properties", VDict [("text", VDict [("type", VStr "string")])])])]])].

Definition is_text (v : val) (s : string) : bool := val_eqb v (VStr s).

(** [params.get(k, {})] of a value that may have no [get]. *)
Definition get_or (k : string) (d v : val) : result val :=
  match v with VDict m => Ok (default d (get k m)) | _ => Err AttributeError end.

Definition tool_result (data : dict) : result work :=
  let? params := item "params" data in
  let? name := subscript "name" params in
  let failed := negb (is_text name "echo") in
  let? text := if failed then Ok (VStr "unknown tool")
               else let? arguments := get_or "arguments" (VDict []) params in
                    get_or "text" (VStr "") arguments in
  Ok (rpc_result data (VDict
    [("content", VList [VDict [("type", VStr "text"); ("text", text)]]);
     ("isError", VBool failed)]) []).

Definition mcp (o : origin) (q : request) (data : dict) (uuid : string) : origin * result work :=
  let method := getv "method" data in
  let run := run_of_request q in
  if is_text method "initialize" then
    let session := cat ["fixture-"; uuid] in
    (with_sessions o (<[session := run]> (SESSIONS o)),
     Ok (rpc_result data initialized [("Mcp-Session-Id", session)]))
  else
    let valid := match header q "Mcp-Session-Id" with
                 | Some s => match SESSIONS o !! s with Some r => String.eqb r run | None => false end
                 | None => false
                 end in
    (o,
     if negb valid then Ok (rpc_error data (-32001) "invalid session" 404)
     else if is_text method "notifications/initialized" then Ok (Respond 202 None [])
     else if is_text method "tools/list" then Ok (rpc_result data echo_tool [])
     else if is_text method "tools/call" then tool_result data
     else if is_text method "resources/read" then
       let? params := item "params" data in
       let? uri := subscript "uri" params in
       Ok (rpc_result data (VDict [("contents", VList [VDict
         [("uri", uri); ("mimeType", VStr "text/plain"); ("text", VStr "synthetic context")]])]) [])
     else Ok (rpc_error data (-32601) "method not found" 200)).

(** ** [Handler.a2a] *)

Definition status_of (state : string) : val := VDict [("state", VStr state)].

Definition new_task (task_id context : string) : dict :=
  [("id", VStr task_id); ("contextId", VStr context); ("status", status_of "working")].

(** [{**task, "status": {"state": s}}]. *)
Definition with_status (task : dict) (s : string) : dict := set "status" (status_of s) task.

(** [TASKS.get((run, v))]: an unhashable identifier raises. *)
Definition find_task (o : origin) (run : string) (v : val) : result (option (string * dict)) :=
  match v with
  | VStr s => Ok (match TASKS o !! (run, s) with Some t => Some (s, t) | None => None end)
  | VList _ | VDict _ => Err TypeError
  | _ => Ok None
  end.

Definition stream_values (id : val) (task_id context : string) (task : dict) : list string :=
  let message r := compact (VDict [("jsonrpc", VStr "2.0"); ("id", id); ("result", r)]) in
  [message (VDict [("task", VDict task)]);
   message (VDict [("artifactUpdate", VDict
     [("taskId", VStr task_id); ("contextId", VStr context);
      ("artifact", VDict [("artifactId", VStr "output");
         ("parts", VList [VDict [("text", VStr "synthetic answer")]])])])]);
   message (VDict [("statusUpdate", VDict
     [("taskId", VStr task_id); ("contextId", VStr context);
      ("status", status_of "completed"); ("final", VBool true)])])].

Definition a2a (o : origin) (q : request) (data : dict) (uuid1 uuid2 : string) : origin * result work :=
  let method := getv "method" data in
  let params := default (VDict []) (get "params" data) in
  let run := run_of_request q in
  let streaming := is_text method "SendStreamingMessage" in
  if is_text method "SendMessage" || streaming then
    let task_id := cat ["task-"; uuid1] in
    let context := cat ["ctx-"; uuid2] in
    let task := new_task task_id context in
    let o := with_tasks o (<[(run, task_id) := task]> (TASKS o)) in
    (o, if streaming then
          let? id := item "id" data in
          Ok (Stream (stream_values id task_id context task) 0 [] (Some (run, task_id, task)))
        else Ok (rpc_result data (VDict [("task", VDict task)]) []))
  else if is_text method "GetTask" || is_text method "CancelTask" then
    match (let? id := attr_get "id" params in find_task o run id) with
    | Err e => (o, Err e)
    | Ok None => (o, Ok (rpc_error data (-32001) "task not found" 200))
    | Ok (Some (id, task)) =>
        if is_text method "CancelTask" then
          let task := with_status task "canceled" in
          (with_tasks o (<[(run, id) := task]> (TASKS o)), Ok (rpc_result data (VDict task) []))
        else (o, Ok (rpc_result data (VDict task) []))
    end
  else (o, Ok (rpc_error data (-32601) "method not found" 200)).

(** ** [Handler.inference] *)

Definition common (object : string) (choice : dict) : dict :=
  [("id", VStr "chatcmpl-fixture"); ("model", VStr "fixture-model"); ("object", VStr object);
   ("choices", VList [VDict choice])].

Definition chunk_of (delta : dict) (finish : val) : string := compact (VDict
  (common "chat.completion.chunk" [("index", VInt 0); ("delta", VDict delta); ("finish_reason", finish)])).

Definition completion_chunks : list string :=
  [chunk_of [("content", VStr "synthetic ")] VNone; chunk_of [("content", VStr "answer")] VNone;
   chunk_of [] (VStr "stop"); "[DONE]"].

Definition completion : val := VDict
  (common "chat.completion"
     [("index", VInt 0); ("message", VDict [("role", VStr "assistant"); ("content", VStr "synthetic answer")]);
      ("finish_reason", VStr "stop")] ++
   [("usage", VDict [("prompt_tokens", VInt 4); ("completion_tokens", VInt 2); ("total_tokens", VInt 6)])]).

Definition overload : val := VDict [("error", VDict
  [("type", VStr "fixture_overload"); ("message", VStr "retry this synthetic attempt")])].

Definition inference (o : origin) (q : request) (data : dict) : origin * result work :=
  let key := (run_of_request q, header_or q "X-Operation-Id") in
  let attempt := default 0 (ATTEMPTS o !! key) + 1 in
  (with_attempts o (<[key := attempt]> (ATTEMPTS o)),
   Ok (if truthy (getv "fixture_fail_once" data) && (attempt =? 1)
       then Respond 503 (Some overload) [("Retry-After", "0")]
       else if truthy (getv "stream" data) then Stream completion_chunks 0 [] None
       else Respond 200 (Some completion) [])).

(** ** [do_GET] and [do_POST] *)

Definition do_GET (o : origin) (q : request) : work :=
  let '(p, query) := urlsplit (path q) in
  if String.eqb p "/health" then
    Respond 200 (Some (VDict [("fixture", VStr "ai-traffic"); ("ok", VBool true)])) []
  else if String.eqb p "/_fixture/events" then
    let run := query_run query in
    Respond 200 (Some (VDict [("events", VList (map VDict
      (List.filter (fun e => is_text (getv "run_id" e) run) (EVENTS o))))])) []
  else Respond 404 (Some (VDict [("error", VStr "unknown fixture path")])) [].

(** The exceptions [do_POST] answers with 400. *)
Definition is_answered (e : exn) : bool :=
  match e with ValueError _ | UnicodeError | KeyError _ | TypeError => true | _ => false end.

(** The first half of [do_POST]: the body, or the answer that refuses it. *)
Definition read_body (q : request) : result (bytes * dict) + work :=
  match py_int (default "-1" (header q "Content-Length")) with
  | None => inl (Err (ValueError "invalid literal for int()"))
  | Some length =>
      if negb ((0 <=? length) && (length <=? 65536)) then
        inr (Respond 413 (Some (VDict [("error", VStr "fixture requires Content-Length <= 65536")])) [])
      else
        let raw := ztake length (rfile q) in
        inl (match json_loads raw with
             | Ok (VDict data) => Ok (raw, data)
             | Ok _ => Err (ValueError "expected JSON object")
             | Err e => Err e
             end)
  end.

(** The second half: the handler of the path. *)
Definition dispatch (o : origin) (q : request) (data : dict) (uuid1 uuid2 : string) : origin * result work :=
  if String.eqb (path q) "/mcp" then mcp o q data uuid1
  else if String.eqb (path q) "/a2a" then a2a o q data uuid1 uuid2
  else if String.eqb (path q) "/v1/chat/completions" then inference o q data
  else (o, Ok (Respond 404 (Some (VDict [("error", VStr "unknown fixture path")])) [])).

(** ** Steps of the threads *)

Definition busy (o : origin) (c : nat) (q : request) (w : work) : origin :=
  with_conns o (<[c := Conn q w]> (conns o)).
Definition done_with (o : origin) (c : nat) : origin := with_conns o (delete c (conns o)).

(** An exception in [do_POST]: an answer, or the end of the thread. *)
Definition raised (o : origin) (c : nat) (q : request) (e : exn) : origin * list output :=
  if is_answered e then (busy o c q (Refuse e), []) else (done_with o c, [Aborted e]).

(** A request reaches a thread that serves none. *)
Definition receive (o : origin) (c : nat) (q : request) (clock : Z * Z) : origin * list output :=
  if String.eqb (command q) "GET" then (busy o c q (do_GET o q), [])
  else if String.eqb (command q) "POST" then
    match read_body q with
    | inr w => (busy o c q w, [])
    | inl (Err e) => raised o c q e
    | inl (Ok (raw, data)) =>
        (busy (event o q clock "request_received"
                 [("method", default (VStr "chat.completions") (get "method" data));
                  ("request_bytes", VInt (len raw)); ("request_sha256", VStr (sha256 raw))])
              c q (Dispatch data), [])
    end
  else (o, []).

(** The peer resets the connection while the thread reads the body; a thread that
    does not read one goes on as if nothing had happened. *)
Definition awaits_body (q : request) : bool :=
  String.eqb (command q) "POST" &&
  match py_int (default "-1" (header q "Content-Length")) with
  | Some length => (0 <? length) && (length <=? 65536)
  | None => false
  end.

Definition reset (o : origin) (c : nat) (q : request) (clock : Z * Z) : origin * list output :=
  if awaits_body q then (event o q clock "peer_disconnected" [], []) else receive o c q clock.

Definition event_frame (text : string) : bytes := encode "data: " ++ encode text ++ [10; 10].

Definition CRLF : bytes := [13; 10].

(** [("%x\r\n" % len(body)).encode() + body + b"\r\n"]. *)
Definition chunk (body : bytes) : bytes := encode (hex_int (len body)) ++ CRLF ++ body ++ CRLF.

Definition stream_head (q : request) : output :=
  Head 200 [("Content-Type", "text/event-stream"); ("Cache-Control", "no-cache");
            ("Transfer-Encoding", "chunked"); ("X-Request-Id", header_or q "X-Request-Id")].

(** A thread goes on with its request. *)
Definition proceed (o : origin) (c : nat) (clock : Z * Z) (uuid1 uuid2 : string) : origin * list output :=
  match conns o !! c with
  | None => (o, [])
  | Some (Conn q w) =>
      match w with
      | Dispatch data =>
          match dispatch o q data uuid1 uuid2 with
          | (o, Ok w) => (busy o c q w, [])
          | (o, Err e) => raised o c q e
          end
      | Respond status value headers =>
          let '(o, out) := reply o q clock status value headers in (done_with o c, [out])
      | Refuse e =>
          let '(o, out) := reply o q clock 400 (Some (VDict [("error", VStr (str_exc e))])) [] in
          (done_with o c, [out])
      | Stream (text :: values) index sent after =>
          let body := event_frame text in
          (busy (event o q clock "stream_event_sent" [("index", VInt index); ("bytes", VInt (len body))])
             c q (Stream values (index + 1) (sent ++ body) after),
           (if index =? 0 then [stream_head q] else []) ++ [Chunk (chunk body)])
      | Stream [] _ sent after =>
          let o := event o q clock "response_complete"
            [("status", VInt 200); ("response_bytes", VInt (len sent)); ("response_sha256", VStr (sha256 sent))] in
          (match after with
           | Some (run, task_id, task) => busy o c q (Complete run task_id task)
           | None => done_with o c
           end, [LastChunk])
      | Complete run task_id task =>
          (done_with (with_tasks o (<[(run, task_id) := with_status task "completed"]> (TASKS o))) c, [])
      end
  end.

(** The peer is gone when the thread writes: noticed inside the [try] of [do_POST]. *)
Definition broken (o : origin) (c : nat) (clock : Z * Z) : origin * list output :=
  match conns o !! c with
  | Some (Conn q (Respond _ _ _)) | Some (Conn q (Stream _ _ _ _)) =>
      if String.eqb (command q) "POST"
      then (done_with (event o q clock "peer_disconnected" []) c, [])
      else (done_with o c, [Aborted (OSError "broken pipe")])
  | Some (Conn _ (Refuse _)) => (done_with o c, [Aborted (OSError "broken pipe")])
  | _ => (o, [])
  end.

Inductive label :=
| Receive (c : nat) (q : request) (clock : Z * Z)
| Reset (c : nat) (q : request) (clock : Z * Z)
| Proceed (c : nat) (clock : Z * Z) (uuid1 uuid2 : string)
| Broken (c : nat) (clock : Z * Z).

(** One step of one thread; a thread takes one request at a time. *)
Definition step (o : origin) (l : label) : origin * list output :=
  match l with
  | Receive c q clock => match conns o !! c with
                         | None => receive o c q clock
                         | Some _ => (o, [])
                         end
  | Reset c q clock => match conns o !! c with
                       | None => reset o c q clock
                       | Some _ => (o, [])
                       end
  | Proceed c clock uuid1 uuid2 => proceed o c clock uuid1 uuid2
  | Broken c clock => broken o c clock
  end.

(** A schedule of steps: the state and what every step wrote. *)
Fixpoint run (o : origin) (ls : list label) : origin * list (label * output) :=
  match ls with
  | [] => (o, [])
  | l :: ls => let '(o, outs) := step o l in
               let '(o, rest) := run o ls in (o, map (pair l) outs ++ rest)
  end.
End backend.
