(* ===== verification/OriginSpec.v ===== *)
(** * What the synthetic origin keeps

    The shape of everything in its memory in every state its threads can reach,
    and the isolation of the runs that share it. *)

From S2P Require Import Prelude PyVal Text Authority Json Origin.

(** ** Shapes *)

Inductive kind := KStr | KInt | KNat | KAny.

Definition has_kind (k : kind) (v : val) : Prop :=
  match k, v with
  | KStr, VStr _ | KInt, VInt _ | KAny, _ => True
  | KNat, VInt z => 0 <= z
  | _, _ => False
  end.

(** A dict with exactly these keys, in this order, of these kinds. *)
Definition shaped (sig : list (string * kind)) (d : dict) : Prop :=
  Forall2 (fun f kv => kv.1 = f.1 /\ has_kind f.2 kv.2) sig d.

Definition ROW : list (string * kind) :=
  [("witness", KStr); ("event", KStr); ("time_ns", KInt); ("monotonic_ns", KInt); ("run_id", KStr);
   ("request_id", KStr); ("operation_id", KStr); ("path", KStr); ("peer_ip", KStr)].

Definition ROWS : list (string * list (string * kind)) :=
  [("request_received", [("method", KAny); ("request_bytes", KNat); ("request_sha256", KStr)]);
   ("response_complete", [("status", KInt); ("response_bytes", KNat); ("response_sha256", KStr)]);
   ("stream_event_sent", [("index", KNat); ("bytes", KNat)]);
   ("peer_disconnected", [])].

Definition row_shaped (e : dict) : Prop :=
  exists name sig, (name, sig) ∈ ROWS /\ shaped (ROW ++ sig) e /\ get "event" e = Some (VStr name).

Definition task_shaped (task_id : string) (t : dict) : Prop :=
  exists context s, t = [("id", VStr task_id); ("contextId", VStr context); ("status", status_of s)] /\
    s ∈ ["working"; "completed"; "canceled"].

(** What a thread holds between its steps: a stream counts its events, and a task
    it will complete is a task of its own run. *)
Definition work_shaped (q : request) (w : work) : Prop :=
  match w with
  | Stream _ index _ after =>
      0 <= index /\ match after with
                    | Some (run, task_id, task) => run = run_of_request q /\ task_shaped task_id task
                    | None => True
                    end
  | Complete run task_id task => run = run_of_request q /\ task_shaped task_id task
  | _ => True
  end.

Record origin_shaped (o : origin) : Prop := {
  os_rows : Forall row_shaped (EVENTS o);
  os_bound : len (EVENTS o) <= EVENTS_MAX;
  os_sessions : forall s r, SESSIONS o !! s = Some r -> starts_with "fixture-" s = true;
  os_tasks : forall r id t, TASKS o !! (r, id) = Some t -> task_shaped id t;
  os_attempts : forall k n, ATTEMPTS o !! k = Some n -> 1 <= n;
  os_work : forall c q w, conns o !! c = Some (Conn q w) -> work_shaped q w }.

Section spec.
Variable sha256 : bytes -> string.
Variable json_loads : bytes -> result val.
Variable str_exc : exn -> string.

Abbreviation step := (step sha256 json_loads str_exc).
Abbreviation run := (run sha256 json_loads str_exc).
Abbreviation proceed := (proceed sha256 str_exc).
Abbreviation receive := (receive sha256 json_loads).

Lemma push_bound row rows : len rows <= EVENTS_MAX -> len (push row rows) <= EVENTS_MAX.
Proof.
  intros H. unfold push. rewrite zdrop_drop. unfold len, EVENTS_MAX in *. rewrite length_drop, length_app.
  cbn [length]. lia.
Qed.

Lemma push_forall (P : dict -> Prop) row rows : P row -> Forall P rows -> Forall P (push row rows).
Proof.
  intros Hr H. unfold push. rewrite zdrop_drop. apply Forall_drop, Forall_app. split; [done|by apply Forall_singleton].
Qed.

(** The rows the server writes. *)
Lemma row_event q clock name fields sig : (name, sig) ∈ ROWS -> shaped sig fields ->
  row_shaped (row q clock name fields).
Proof.
  intros Hin Hs. exists name, sig. split; [done|]. unfold ROWS in Hin.
  repeat (apply elem_of_cons in Hin as [[= -> ->]|Hin]); [..|by apply not_elem_of_nil in Hin];
    unfold shaped in Hs;
    repeat match goal with H : Forall2 _ (_ :: _) _ |- _ => apply Forall2_cons_inv_l in H as ([? ?] & ? & [? ?] & ? & ->) end;
    match goal with H : Forall2 _ [] _ |- _ => apply Forall2_nil_inv_l in H; subst end; cbn [fst snd] in *; subst;
    split; [|reflexivity| |reflexivity| |reflexivity| |reflexivity]; cbn; unfold shaped, ROW; repeat constructor; done.
Qed.

Lemma event_shaped o q clock name fields sig : (name, sig) ∈ ROWS -> shaped sig fields ->
  origin_shaped o -> origin_shaped (event o q clock name fields).
Proof.
  intros Hin Hs []. constructor; try done; cbn.
  - apply push_forall; [by eapply row_event|done].
  - by apply push_bound.
Qed.

Lemma busy_shaped o c q w : work_shaped q w -> origin_shaped o -> origin_shaped (busy o c q w).
Proof.
  intros Hw []. constructor; try done. cbn. intros c' q' w' [[-> [= -> ->]]|[_ H]]%lookup_insert_Some; [done|].
  by eapply os_work0.
Qed.

Lemma done_shaped o c : origin_shaped o -> origin_shaped (done_with o c).
Proof. intros []. constructor; try done. cbn. intros c' q w [_ H]%lookup_delete_Some. by eapply os_work0. Qed.

Lemma raised_shaped o c q e : origin_shaped o -> origin_shaped (raised o c q e).1.
Proof. intros H. unfold raised. destruct (is_answered e); [by apply busy_shaped|by apply done_shaped]. Qed.

Lemma tasks_shaped o r id t : task_shaped id t -> origin_shaped o ->
  origin_shaped (with_tasks o (<[(r, id) := t]> (TASKS o))).
Proof.
  intros Ht []. constructor; try done. cbn. intros r' id' t' [[[= -> ->] ->]|[_ H]]%lookup_insert_Some; [done|].
  by eapply os_tasks0.
Qed.

Lemma with_status_shaped id t s : s ∈ ["working"; "completed"; "canceled"] -> task_shaped id t ->
  task_shaped id (with_status t s).
Proof. intros Hs (context & s' & -> & _). by exists context, s. Qed.

Lemma rpc_result_shaped q d v hs : work_shaped q (rpc_result d v hs).
Proof. done. Qed.

(** Every request is dispatched into a shaped state. *)
Lemma dispatch_shaped o q data u1 u2 : origin_shaped o ->
  origin_shaped (dispatch o q data u1 u2).1 /\
  match (dispatch o q data u1 u2).2 with Ok w => work_shaped q w | Err _ => True end.
Proof.
  intros H. unfold dispatch. destruct (String.eqb (path q) "/mcp"); [|destruct (String.eqb (path q) "/a2a");
    [|destruct (String.eqb (path q) "/v1/chat/completions"); [|by split]]].
  - unfold mcp. case_match; cbn [fst snd].
    + split; [|done]. destruct H. constructor; try done. cbn. intros s r [[<- _]|[_ Hs]]%lookup_insert_Some; [done|].
      by eapply os_sessions0.
    + split; [done|]. unfold tool_result, item, rpc_result, rpc_error. repeat (case_match; simplify_eq/=; try done).
  - unfold a2a. set (task := new_task _ _). assert (task_shaped (cat ["task-"; u1]) task) as Ht.
    { by exists (cat ["ctx-"; u2]), "working"; split; [|left]. }
    case_match; cbn [fst snd].
    + split; [by apply tasks_shaped|]. destruct (is_text _ "SendStreamingMessage"); [|exact I]. destruct (item "id" data); [|exact I].
      split; [done|]. split; [done|exact Ht].
    + case_match; cbn [fst snd]; [|by split]. case_match eqn:Hf; cbn [fst snd]; [|by split].
      destruct a as [[id t]|]; cbn [fst snd]; [|by split].
      assert (task_shaped id t) as Htask.
      { destruct (attr_get _ _) as [v|]; [|done]. unfold find_task in Hf. destruct v; try done.
        destruct (TASKS o !! _) eqn:Hl; [|done]. injection Hf as <- <-. by eapply os_tasks. }
      destruct (is_text _ "CancelTask"); cbn [fst snd]; [|by split]. split; [|exact I].
      apply tasks_shaped; [|done]. apply with_status_shaped; [set_solver|done].
  - unfold inference. cbn [fst snd]. split.
    + destruct H. constructor; try done. cbn. intros k n [[<- <-]|[_ Hn]]%lookup_insert_Some; [|by eapply os_attempts0].
      destruct (ATTEMPTS o !! _) as [n|] eqn:E; cbn; [|lia]. apply os_attempts0 in E. lia.
    + by repeat case_match.
Qed.

Lemma reply_shaped o q clock status value hs : origin_shaped o ->
  origin_shaped (reply sha256 o q clock status value hs).1.
Proof.
  intros H. unfold reply. cbn [fst]. destruct (String.eqb (command q) "POST"); [|done].
  eapply event_shaped; [right; left; reflexivity| |done]. unfold shaped.
  repeat constructor; try done; cbn; apply len_nonneg.
Qed.

Lemma receive_shaped o c q clock : origin_shaped o -> origin_shaped (receive o c q clock).1.
Proof.
  intros H. unfold Origin.receive. destruct (String.eqb (command q) "GET").
  { apply busy_shaped; [|done]. unfold do_GET. destruct (urlsplit _). by repeat case_match. }
  destruct (String.eqb (command q) "POST"); [|done].
  destruct (read_body json_loads q) as [[[raw data]|e]|w] eqn:Hr; [|by apply raised_shaped|].
  - apply busy_shaped; [done|]. eapply event_shaped; [by left| |done]. unfold shaped.
    repeat constructor; try done; cbn; apply len_nonneg.
  - apply busy_shaped; [|done]. unfold read_body in Hr. repeat case_match; try done. by simplify_eq.
Qed.

Lemma disconnected_shaped o q clock : origin_shaped o -> origin_shaped (event o q clock "peer_disconnected" []).
Proof. eapply event_shaped; [right; right; right; left; reflexivity|by constructor]. Qed.

Lemma step_shaped o l : origin_shaped o -> origin_shaped (step o l).1.
Proof.
  intros H. destruct l as [c q clock|c q clock|c clock u1 u2|c clock]; cbn [Origin.step].
  - destruct (conns o !! c); [done|by apply receive_shaped].
  - destruct (conns o !! c); [done|]. unfold reset.
    destruct (awaits_body q); [by apply disconnected_shaped|by apply receive_shaped].
  - unfold Origin.proceed. destruct (conns o !! c) as [[q w]|] eqn:Hc; [|done].
    pose proof (os_work _ H _ _ _ Hc) as Hw.
    destruct w as [data|status value hs|e|values index sent after|r id t].
    + destruct (dispatch_shaped o q data u1 u2 H) as [H1 H2].
      destruct (dispatch o q data u1 u2) as [o1 [w|e]]; cbn [fst snd] in *; [by apply busy_shaped|by apply raised_shaped].
    + pose proof (reply_shaped o q clock status value hs H) as Hr.
      destruct (reply _ _ _ _ _ _ _) as [o1 out]. by apply done_shaped.
    + pose proof (reply_shaped o q clock 400 (Some (VDict [("error", VStr (str_exc e))])) [] H) as Hr.
      destruct (reply _ _ _ _ _ _ _) as [o1 out]. by apply done_shaped.
    + destruct Hw as [Hi Hafter]. destruct values as [|text values]; cbn [fst].
      * assert (origin_shaped (event o q clock "response_complete" [("status", VInt 200);
          ("response_bytes", VInt (len sent)); ("response_sha256", VStr (sha256 sent))])) as He.
        { eapply event_shaped; [right; left; reflexivity| |done]. unfold shaped. repeat constructor; try done; cbn; apply len_nonneg. }
        destruct after as [[[r id] t]|]; [by apply busy_shaped|by apply done_shaped].
      * apply busy_shaped; [split; [lia|done]|]. eapply event_shaped; [right; right; left; reflexivity| |done].
        unfold shaped. repeat constructor; try done; cbn; apply len_nonneg.
    + destruct Hw as [-> Ht]. apply done_shaped. apply tasks_shaped; [|done].
      apply with_status_shaped; [set_solver|done].
  - unfold broken. destruct (conns o !! c) as [[q w]|]; [|done].
    pose proof (disconnected_shaped o q clock H) as He.
    destruct w; try done; try (by apply done_shaped); destruct (String.eqb (command q) "POST"); by apply done_shaped.
Qed.

Lemma run_shaped ls : forall o, origin_shaped o -> origin_shaped (run o ls).1.
Proof.
  induction ls as [|l ls IH]; intros o H; cbn [Origin.run]; [done|].
  pose proof (step_shaped o l H) as Hs. destruct (step o l) as [o1 outs]. cbn [fst] in Hs.
  specialize (IH o1 Hs). by destruct (run o1 ls).
Qed.

Lemma no_origin_shaped : origin_shaped no_origin.
Proof. by constructor. Qed.
End spec.

(** C29: whatever requests arrive, however the threads interleave and wherever peers
    disconnect or reset, everything the origin holds keeps its type: each row of the ledger
    has the fields of its event in their order and kinds, and the ledger its bound;
    a task is filed under its own identifier, with a context and one of the three
    states; sessions carry the fixture's prefix, attempts count from one, and what
    a thread will still do concerns a task of its own run. *)
Theorem origin_memory_typed sha256 json_loads str_exc ls :
  origin_shaped (run sha256 json_loads str_exc no_origin ls).1.
Proof. apply run_shaped, no_origin_shaped. Qed.
