(* ===== verification/OriginRuns.v ===== *)
(** * The runs that share the origin

    Fixture runs use one origin at the same time.  Two states agree on a run when
    they hold the same tasks, attempts, sessions and unfinished requests of that
    run; a step of another run stays within an agreement, and a step of the run
    itself answers the same from states that agree. *)

From S2P Require Import Prelude PyVal Text Authority Json Origin OriginSpec.

Definition label_conn (l : label) : nat :=
  match l with Receive c _ _ | Reset c _ _ | Proceed c _ _ _ | Broken c _ => c end.

(** The identifiers a step may name a session with. *)
Definition drawn (l : label) : list string :=
  match l with Proceed _ _ u1 _ => [u1] | _ => [] end.

Definition reads_ledger (l : label) : bool :=
  match l with
  | Receive _ q _ | Reset _ q _ => String.eqb (command q) "GET" && String.eqb (urlsplit (path q)).1 "/_fixture/events"
  | _ => false
  end.

Section runs.
Variable sha256 : bytes -> string.
Variable json_loads : bytes -> result val.
Variable str_exc : exn -> string.
(** Each connection is used by one run. *)
Variable owner : nat -> string.

Abbreviation step := (step sha256 json_loads str_exc).
Abbreviation run := (run sha256 json_loads str_exc).

Definition owned (l : label) : Prop :=
  match l with Receive c q _ | Reset c q _ => run_of_request q = owner c | _ => True end.

Record agree (r : string) (o1 o2 : origin) : Prop := {
  ag_tasks : forall id, TASKS o1 !! (r, id) = TASKS o2 !! (r, id);
  ag_attempts : forall op, ATTEMPTS o1 !! (r, op) = ATTEMPTS o2 !! (r, op);
  ag_sessions : forall s, SESSIONS o1 !! s = Some r <-> SESSIONS o2 !! s = Some r;
  ag_conns : forall c, owner c = r -> conns o1 !! c = conns o2 !! c }.

#[export] Instance agree_equivalence r : Equivalence (agree r).
Proof.
  split.
  - by constructor.
  - intros o1 o2 []. by constructor; intros; symmetry; auto.
  - intros o1 o2 o3 [T1 A1 S1 C1] [T2 A2 S2 C2]. constructor; intros.
    + by rewrite T1.
    + by rewrite A1.
    + by rewrite S1.
    + by rewrite C1, C2.
Qed.

#[export] Instance busy_proper r c q w : Proper (agree r ==> agree r) (fun o => busy o c q w).
Proof.
  intros o1 o2 []. constructor; try done. intros c' Hc. cbn. destruct (decide (c' = c)) as [->|Hn];
    [by rewrite !lookup_insert_eq|]. rewrite !lookup_insert_ne by done. auto.
Qed.

#[export] Instance done_proper r c : Proper (agree r ==> agree r) (fun o => done_with o c).
Proof.
  intros o1 o2 []. constructor; try done. intros c' Hc. cbn. destruct (decide (c' = c)) as [->|Hn];
    [by rewrite !lookup_delete_eq|]. rewrite !lookup_delete_ne by done. auto.
Qed.

(** The ledger is no part of an agreement. *)
Lemma agree_event r o q clock name fields : agree r (event o q clock name fields) o.
Proof. by constructor. Qed.

Lemma agree_tasks r o1 o2 r' id t : agree r o1 o2 ->
  agree r (with_tasks o1 (<[(r', id) := t]> (TASKS o1))) (with_tasks o2 (<[(r', id) := t]> (TASKS o2))).
Proof.
  intros []. constructor; try done. intros id'. cbn. destruct (decide ((r, id') = (r', id))) as [->|Hn];
    [by rewrite !lookup_insert_eq|]. rewrite !lookup_insert_ne by done. auto.
Qed.

Lemma agree_attempts r o1 o2 r' op n : agree r o1 o2 ->
  agree r (with_attempts o1 (<[(r', op) := n]> (ATTEMPTS o1))) (with_attempts o2 (<[(r', op) := n]> (ATTEMPTS o2))).
Proof.
  intros []. constructor; try done. intros op'. cbn. destruct (decide ((r, op') = (r', op))) as [->|Hn];
    [by rewrite !lookup_insert_eq|]. rewrite !lookup_insert_ne by done. auto.
Qed.

Lemma agree_sessions r o1 o2 r' s : agree r o1 o2 ->
  agree r (with_sessions o1 (<[s := r']> (SESSIONS o1))) (with_sessions o2 (<[s := r']> (SESSIONS o2))).
Proof.
  intros []. constructor; try done. intros s'. cbn. destruct (decide (s' = s)) as [->|Hn];
    [by rewrite !lookup_insert_eq|]. rewrite !lookup_insert_ne by done. auto.
Qed.

(** ** A step of the run itself *)

Definition same (r : string) {A} (x y : origin * A) : Prop := x.2 = y.2 /\ agree r x.1 y.1.

Lemma mcp_agree r o1 o2 q data u : run_of_request q = r -> agree r o1 o2 ->
  same r (mcp o1 q data u) (mcp o2 q data u).
Proof.
  intros <- H. unfold mcp, same. destruct (is_text _ "initialize"); cbn [fst snd].
  - split; [done|by apply agree_sessions].
  - split; [|done].
    assert (forall o, match header q "Mcp-Session-Id" with
      | Some s => match SESSIONS o !! s with Some r => String.eqb r (run_of_request q) | None => false end
      | None => false end = true <->
      exists s, header q "Mcp-Session-Id" = Some s /\ SESSIONS o !! s = Some (run_of_request q)) as Hv.
    { intros o. destruct (header q "Mcp-Session-Id") as [s|]; [|naive_solver].
      destruct (SESSIONS o !! s) as [r|] eqn:E; [|naive_solver]. rewrite String.eqb_eq. naive_solver. }
    match goal with |- context [negb ?b1] => match goal with |- _ = ?rhs => match rhs with context [negb ?b2] =>
      assert (b1 = b2) as -> end end end; [|done].
    apply eq_true_iff_eq. rewrite !Hv. by setoid_rewrite (ag_sessions _ _ _ H).
Qed.

Lemma find_task_agree r o1 o2 v : agree r o1 o2 -> find_task o1 r v = find_task o2 r v.
Proof. intros H. unfold find_task. destruct v; try done. by rewrite (ag_tasks _ _ _ H). Qed.

Lemma a2a_agree r o1 o2 q data u1 u2 : run_of_request q = r -> agree r o1 o2 ->
  same r (a2a o1 q data u1 u2) (a2a o2 q data u1 u2).
Proof.
  intros Hr H. unfold a2a, same. rewrite !Hr.
  destruct (is_text _ "SendMessage" || _); cbn [fst snd].
  { split; [done|by apply agree_tasks]. }
  destruct (is_text _ "GetTask" || _); [|done].
  assert ((let? id := attr_get "id" (default (VDict []) (get "params" data)) in find_task o1 r id) =
          (let? id := attr_get "id" (default (VDict []) (get "params" data)) in find_task o2 r id)) as ->.
  { destruct (attr_get _ _); [|done]. by apply find_task_agree. }
  destruct (let? id := _ in find_task o2 r id) as [[[id t]|]|e]; cbn [fst snd]; try done.
  destruct (is_text _ "CancelTask"); cbn [fst snd]; [|done]. split; [done|by apply agree_tasks].
Qed.

Lemma inference_agree r o1 o2 q data : run_of_request q = r -> agree r o1 o2 ->
  same r (inference o1 q data) (inference o2 q data).
Proof.
  intros Hr H. unfold inference, same. cbn [fst snd]. rewrite Hr, (ag_attempts _ _ _ H).
  split; [done|by apply agree_attempts].
Qed.

Lemma dispatch_agree r o1 o2 q data u1 u2 : run_of_request q = r -> agree r o1 o2 ->
  same r (dispatch o1 q data u1 u2) (dispatch o2 q data u1 u2).
Proof.
  intros Hr H. unfold dispatch. destruct (String.eqb (path q) "/mcp"); [by apply mcp_agree|].
  destruct (String.eqb (path q) "/a2a"); [by apply a2a_agree|].
  destruct (String.eqb (path q) "/v1/chat/completions"); [by apply inference_agree|by split].
Qed.

(** What [do_POST] does with an exception, and a reply, on states that agree. *)
Lemma raised_agree r o1 o2 c q e : agree r o1 o2 -> same r (raised o1 c q e) (raised o2 c q e).
Proof.
  intros H. unfold raised, same. destruct (is_answered e); cbn [fst snd]; (split; [done|]);
    [by apply busy_proper|by apply done_proper].
Qed.

Lemma agree_events r o1 o2 q1 q2 k1 k2 n1 n2 f1 f2 : agree r o1 o2 ->
  agree r (event o1 q1 k1 n1 f1) (event o2 q2 k2 n2 f2).
Proof. intros H. by rewrite !agree_event. Qed.

Lemma reply_agree r o1 o2 q clock status value hs : agree r o1 o2 ->
  same r (reply sha256 o1 q clock status value hs) (reply sha256 o2 q clock status value hs).
Proof.
  intros H. unfold reply, same. cbn [fst snd]. split; [done|].
  destruct (String.eqb (command q) "POST"); [by apply agree_events|done].
Qed.

Lemma receive_agree r o1 o2 c q clock : agree r o1 o2 ->
  String.eqb (command q) "GET" && String.eqb (urlsplit (path q)).1 "/_fixture/events" = false ->
  same r (receive sha256 json_loads o1 c q clock) (receive sha256 json_loads o2 c q clock).
Proof.
  intros H Hread. unfold Origin.receive. destruct (String.eqb (command q) "GET") eqn:Hg.
  { assert (do_GET o1 q = do_GET o2 q) as ->; [|split; [done|by apply busy_proper]].
    cbn [andb] in Hread. unfold do_GET.
    destruct (urlsplit (path q)) as [p query]. cbn [fst] in Hread. by rewrite Hread. }
  destruct (String.eqb (command q) "POST"); [|by split].
  destruct (read_body json_loads q) as [[[raw data]|e]|w]; [|by apply raised_agree|].
  - split; [done|]. cbn [fst]. by apply busy_proper, agree_events.
  - split; [done|]. by apply busy_proper.
Qed.

Lemma own_step r o1 o2 l : agree r o1 o2 -> owner (label_conn l) = r -> owned l -> reads_ledger l = false ->
  (forall c q w, conns o1 !! c = Some (Conn q w) -> run_of_request q = owner c) ->
  same r (step o1 l) (step o2 l).
Proof.
  intros H Hl Hown Hread Hq. destruct l as [c q clock|c q clock|c clock u1 u2|c clock];
    cbn [Origin.step label_conn owned reads_ledger] in *.
  - rewrite <- (ag_conns _ _ _ H c Hl). destruct (conns o1 !! c); [by split|by apply receive_agree].
  - rewrite <- (ag_conns _ _ _ H c Hl). destruct (conns o1 !! c); [by split|]. unfold reset.
    destruct (awaits_body q); [split; [done|by apply agree_events]|by apply receive_agree].
  - unfold Origin.proceed. rewrite <- (ag_conns _ _ _ H c Hl). destruct (conns o1 !! c) as [[q w]|] eqn:Hc; [|by split].
    pose proof (Hq _ _ _ Hc) as Hr. rewrite Hl in Hr. destruct w as [data|status value hs|e|values index sent after|r' id t].
    + destruct (dispatch_agree r o1 o2 q data u1 u2 Hr H) as [Hout Ho].
      destruct (dispatch o1 q data u1 u2) as [p1 x1], (dispatch o2 q data u1 u2) as [p2 x2]. cbn [fst snd] in *. subst x2.
      destruct x1; [split; [done|by apply busy_proper]|by apply raised_agree].
    + destruct (reply_agree r o1 o2 q clock status value hs H) as [Hout Ho].
      destruct (reply _ o1 _ _ _ _ _) as [p1 x1], (reply _ o2 _ _ _ _ _) as [p2 x2]. cbn [fst snd] in *. subst x2.
      split; [done|by apply done_proper].
    + destruct (reply_agree r o1 o2 q clock 400 (Some (VDict [("error", VStr (str_exc e))])) [] H) as [Hout Ho].
      destruct (reply _ o1 _ _ _ _ _) as [p1 x1], (reply _ o2 _ _ _ _ _) as [p2 x2]. cbn [fst snd] in *. subst x2.
      split; [done|by apply done_proper].
    + destruct values as [|text values]; (split; [done|]); cbn [fst]; [|by apply busy_proper, agree_events].
      destruct after as [[[r' id] t]|]; [by apply busy_proper, agree_events|by apply done_proper, agree_events].
    + split; [done|]. cbn [fst]. by apply done_proper, agree_tasks.
  - unfold broken. rewrite <- (ag_conns _ _ _ H c Hl). destruct (conns o1 !! c) as [[q w]|]; [|by split].
    destruct w; try (by split); try (split; [done|by apply done_proper]);
      destruct (String.eqb (command q) "POST"); (split; [done|]); cbn [fst];
      first [by apply done_proper, agree_events|by apply done_proper].
Qed.

(** ** A step of another run *)

Lemma other_busy r o o1 c q w : owner c <> r -> agree r o o1 -> agree r o (busy o1 c q w).
Proof.
  intros Hc H. rewrite H. constructor; try done. intros c' Hc'. cbn. rewrite lookup_insert_ne; [done|]. by intros ->.
Qed.

Lemma other_done r o o1 c : owner c <> r -> agree r o o1 -> agree r o (done_with o1 c).
Proof.
  intros Hc H. rewrite H. constructor; try done. intros c' Hc'. cbn. rewrite lookup_delete_ne; [done|]. by intros ->.
Qed.

Lemma other_tasks r o r' id t : r' <> r -> agree r o (with_tasks o (<[(r', id) := t]> (TASKS o))).
Proof. intros Hr. constructor; try done. intros id'. cbn. rewrite lookup_insert_ne; [done|]. congruence. Qed.

Lemma other_event r o q clock name fields : agree r o (event o q clock name fields).
Proof. by constructor. Qed.

Lemma other_dispatch r o q data u1 u2 : run_of_request q <> r -> SESSIONS o !! cat ["fixture-"; u1] = None ->
  agree r o (dispatch o q data u1 u2).1.
Proof.
  intros Hr Hfresh. unfold dispatch. destruct (String.eqb (path q) "/mcp"); [|destruct (String.eqb (path q) "/a2a");
    [|destruct (String.eqb (path q) "/v1/chat/completions"); [|done]]].
  - unfold mcp. destruct (is_text _ "initialize"); [|done]. cbn [fst]. constructor; try done. intros s. cbn.
    destruct (decide (s = cat ["fixture-"; u1])) as [->|Hn]; [|by rewrite lookup_insert_ne].
    rewrite lookup_insert_eq, Hfresh. naive_solver.
  - unfold a2a. destruct (is_text _ "SendMessage" || _); cbn [fst snd]; [by apply other_tasks|].
    destruct (is_text _ "GetTask" || _); [|done]. destruct (let? id := _ in find_task o _ id) as [[[id t]|]|e]; try done.
    destruct (is_text _ "CancelTask"); [|done]. by apply other_tasks.
  - unfold inference. cbn [fst]. constructor; try done. intros op. cbn. rewrite lookup_insert_ne; [done|]. congruence.
Qed.

Lemma other_raised r o o1 c q e : owner c <> r -> agree r o o1 -> agree r o (raised o1 c q e).1.
Proof. intros. unfold raised. destruct (is_answered e); [by apply other_busy|by apply other_done]. Qed.

Lemma other_reply r o q clock status value hs : agree r o (reply sha256 o q clock status value hs).1.
Proof. unfold reply. cbn [fst]. destruct (String.eqb _ _); [apply other_event|done]. Qed.

Lemma other_receive r o c q clock : owner c <> r -> agree r o (receive sha256 json_loads o c q clock).1.
Proof.
  intros Hl. unfold Origin.receive. destruct (String.eqb (command q) "GET"); [by apply other_busy|].
  destruct (String.eqb (command q) "POST"); [|done].
  destruct (read_body json_loads q) as [[[raw data]|e]|w]; [|by apply other_raised|by apply other_busy].
  apply other_busy; [done|apply other_event].
Qed.

Lemma other_step r o l : owner (label_conn l) <> r ->
  (forall c q w, conns o !! c = Some (Conn q w) -> run_of_request q = owner c /\ work_shaped q w) ->
  (forall u, u ∈ drawn l -> SESSIONS o !! cat ["fixture-"; u] = None) ->
  agree r o (step o l).1.
Proof.
  intros Hl Hq Hfresh. destruct l as [c q clock|c q clock|c clock u1 u2|c clock]; cbn [Origin.step label_conn drawn] in *.
  - destruct (conns o !! c); [done|by apply other_receive].
  - destruct (conns o !! c); [done|]. unfold reset. destruct (awaits_body q); [apply other_event|by apply other_receive].
  - unfold Origin.proceed. destruct (conns o !! c) as [[q w]|] eqn:Hc; [|done].
    destruct (Hq _ _ _ Hc) as [Hr Hw].
    assert (run_of_request q <> r) as Hne by congruence. destruct w as [data|status value hs|e|values index sent after|r' id t].
    + pose proof (other_dispatch r o q data u1 u2 Hne (Hfresh u1 ltac:(by left))) as H.
      destruct (dispatch o q data u1 u2) as [o1 [w|e]]; [by apply other_busy|by apply other_raised].
    + pose proof (other_reply r o q clock status value hs) as H. destruct (reply _ _ _ _ _ _ _) as [o1 out]. by apply other_done.
    + pose proof (other_reply r o q clock 400 (Some (VDict [("error", VStr (str_exc e))])) []) as H.
      destruct (reply _ _ _ _ _ _ _) as [o1 out]. by apply other_done.
    + destruct values as [|text values]; [|apply other_busy; [done|apply other_event]].
      destruct after as [[[r' id] t]|]; [apply other_busy|apply other_done]; done || apply other_event.
    + destruct Hw as [-> _]. apply other_done; [done|]. by apply other_tasks.
  - unfold broken. destruct (conns o !! c) as [[q w]|]; [|done].
    destruct w; try done; try (by apply other_done); destruct (String.eqb (command q) "POST");
      apply other_done; done || apply other_event.
Qed.

(** ** What every reachable state keeps about its threads and sessions *)

Definition kept (o : origin) : Prop :=
  forall c q w, conns o !! c = Some (Conn q w) -> run_of_request q = owner c.

Lemma kept_busy o c q w : run_of_request q = owner c -> kept o -> kept (busy o c q w).
Proof.
  intros Hq H c' q' w'. unfold busy. cbn. intros [[<- [= <- <-]]|[_ Hc]]%lookup_insert_Some; [done|by eapply H].
Qed.

Lemma kept_done o c : kept o -> kept (done_with o c).
Proof. intros H c' q' w'. cbn. intros [_ Hc]%lookup_delete_Some. by eapply H. Qed.

Lemma kept_raised o c q e : run_of_request q = owner c -> kept o -> kept (raised o c q e).1.
Proof. intros. unfold raised. destruct (is_answered e); [by apply kept_busy|by apply kept_done]. Qed.

Lemma dispatch_conns o q data u1 u2 : conns (dispatch o q data u1 u2).1 = conns o /\
  (SESSIONS (dispatch o q data u1 u2).1 = SESSIONS o \/
   SESSIONS (dispatch o q data u1 u2).1 = <[cat ["fixture-"; u1] := run_of_request q]> (SESSIONS o)).
Proof.
  unfold dispatch. destruct (String.eqb (path q) "/mcp"); [|destruct (String.eqb (path q) "/a2a");
    [|destruct (String.eqb (path q) "/v1/chat/completions"); [|by split; [|left]]]].
  - unfold mcp. destruct (is_text _ "initialize"); (split; [done|]); [by right|by left].
  - unfold a2a. destruct (is_text _ "SendMessage" || _); [by split; [|left]|].
    destruct (is_text _ "GetTask" || _); [|by split; [|left]].
    destruct (let? id := _ in find_task o _ id) as [[[id t]|]|e]; try (by split; [|left]).
    destruct (is_text _ "CancelTask"); by split; [|left].
  - by split; [|left].
Qed.

Lemma reply_kept o q clock status value hs : kept o -> kept (reply sha256 o q clock status value hs).1.
Proof. intros H. unfold reply. cbn [fst]. by destruct (String.eqb _ _). Qed.

Lemma receive_kept o c q clock : run_of_request q = owner c -> kept o -> kept (receive sha256 json_loads o c q clock).1.
Proof.
  intros Hl H. unfold Origin.receive. destruct (String.eqb (command q) "GET"); [by apply kept_busy|].
  destruct (String.eqb (command q) "POST"); [|done].
  destruct (read_body json_loads q) as [[[raw data]|e]|w]; [by apply kept_busy|by apply kept_raised|by apply kept_busy].
Qed.

Lemma step_kept o l : owned l -> kept o -> kept (step o l).1.
Proof.
  intros Hl H. destruct l as [c q clock|c q clock|c clock u1 u2|c clock]; cbn [Origin.step owned] in *.
  - destruct (conns o !! c); [done|by apply receive_kept].
  - destruct (conns o !! c); [done|]. unfold reset. destruct (awaits_body q); [done|by apply receive_kept].
  - unfold Origin.proceed. destruct (conns o !! c) as [[q w]|] eqn:Hc; [|done]. pose proof (H _ _ _ Hc) as Hr.
    destruct w as [data|status value hs|e|values index sent after|r' id t].
    + destruct (dispatch_conns o q data u1 u2) as [Hd _].
      destruct (dispatch o q data u1 u2) as [o1 [w|e]]; cbn [fst] in *;
        assert (kept o1) by (unfold kept; rewrite Hd; exact H); [by apply kept_busy|by apply kept_raised].
    + pose proof (reply_kept o q clock status value hs H). destruct (reply _ _ _ _ _ _ _) as [o1 out]. by apply kept_done.
    + pose proof (reply_kept o q clock 400 (Some (VDict [("error", VStr (str_exc e))])) [] H).
      destruct (reply _ _ _ _ _ _ _) as [o1 out]. by apply kept_done.
    + destruct values as [|text values]; [destruct after as [[[r' id] t]|]|]; by first [apply kept_busy|apply kept_done].
    + by apply kept_done.
  - unfold broken. destruct (conns o !! c) as [[q w]|]; [|done].
    destruct w; try done; try (by apply kept_done); destruct (String.eqb (command q) "POST"); by apply kept_done.
Qed.

(** Sessions are named with the identifiers drawn. *)
Definition named (used : list string) (o : origin) : Prop :=
  forall s r, SESSIONS o !! s = Some r -> exists u, u ∈ used /\ s = cat ["fixture-"; u].

Lemma raised_sessions o c q e : SESSIONS (raised o c q e).1 = SESSIONS o.
Proof. unfold raised. by destruct (is_answered e). Qed.

Lemma reply_sessions o q clock status value hs : SESSIONS (reply sha256 o q clock status value hs).1 = SESSIONS o.
Proof. unfold reply. cbn [fst]. by destruct (String.eqb _ _). Qed.

Lemma receive_sessions o c q clock : SESSIONS (receive sha256 json_loads o c q clock).1 = SESSIONS o.
Proof.
  unfold Origin.receive. destruct (String.eqb (command q) "GET"); [done|].
  destruct (String.eqb (command q) "POST"); [|done].
  destruct (read_body json_loads q) as [[[raw data]|e]|w]; [done|apply raised_sessions|done].
Qed.

Lemma step_sessions o l : SESSIONS (step o l).1 = SESSIONS o \/
  exists u r, u ∈ drawn l /\ SESSIONS (step o l).1 = <[cat ["fixture-"; u] := r]> (SESSIONS o).
Proof.
  destruct l as [c q clock|c q clock|c clock u1 u2|c clock]; cbn [Origin.step].
  - left. destruct (conns o !! c); [done|apply receive_sessions].
  - left. destruct (conns o !! c); [done|]. unfold reset. destruct (awaits_body q); [done|apply receive_sessions].
  - unfold Origin.proceed. destruct (conns o !! c) as [[q w]|]; [|by left].
    destruct w as [data|status value hs|e|values index sent after|r' id t].
    + destruct (dispatch_conns o q data u1 u2) as [_ Hd].
      destruct (dispatch o q data u1 u2) as [o1 [w|e]]; cbn [fst] in *; rewrite ?raised_sessions; cbn [busy with_conns SESSIONS];
        (destruct Hd as [->| ->]; [by left|right; exists u1; eexists; split; [by left|done]]).
    + left. pose proof (reply_sessions o q clock status value hs) as Hr. by destruct (reply _ _ _ _ _ _ _) as [o1 out].
    + left. pose proof (reply_sessions o q clock 400 (Some (VDict [("error", VStr (str_exc e))])) []) as Hr.
      by destruct (reply _ _ _ _ _ _ _) as [o1 out].
    + left. destruct values as [|text values]; [destruct after as [[[r' id] t]|]|]; done.
    + by left.
  - left. unfold broken. destruct (conns o !! c) as [[q w]|]; [|done].
    destruct w; try done; by destruct (String.eqb (command q) "POST").
Qed.

Lemma step_named used o l : named used o -> named (used ++ drawn l) (step o l).1.
Proof.
  intros H s r Hs. destruct (step_sessions o l) as [E|(u & r' & Hu & E)]; rewrite E in Hs.
  - destruct (H s r Hs) as (u & Hu & ->). exists u. split; [set_solver|done].
  - apply lookup_insert_Some in Hs as [[<- _]|[_ Hs]]; [exists u; split; [set_solver|done]|].
    destruct (H s r Hs) as (u' & Hu' & ->). exists u'. split; [set_solver|done].
Qed.

Lemma fixture_inj a b : cat ["fixture-"; a] = cat ["fixture-"; b] -> a = b.
Proof.
  intros H. apply (f_equal str_list) in H. rewrite !str_list_cat in H. cbn [map concat] in H.
  rewrite !app_nil_r in H. apply app_inv_head in H. rewrite <- (list_str_list a), <- (list_str_list b). by f_equal.
Qed.

Definition of_run (r : string) (l : label) : bool := String.eqb (owner (label_conn l)) r.

Lemma run_isolated r ls : forall used o1 o2,
  origin_shaped o1 -> kept o1 -> named used o1 -> NoDup (used ++ flat_map drawn ls) -> agree r o1 o2 ->
  Forall owned ls -> Forall (fun l => of_run r l = true -> reads_ledger l = false) ls ->
  List.filter (fun lo => of_run r lo.1) (run o1 ls).2 = (run o2 (List.filter (of_run r) ls)).2 /\
  agree r (run o1 ls).1 (run o2 (List.filter (of_run r) ls)).1.
Proof.
  induction ls as [|l ls IH]; intros used o1 o2 Hsh Hk Hn Hnd Hag Hown Hread; [by split|].
  inversion_clear Hown as [|? ? Hl Hls]. inversion_clear Hread as [|? ? Hr Hrs].
  cbn [Origin.run flat_map] in *.
  assert (NoDup ((used ++ drawn l) ++ flat_map drawn ls)) as Hnd' by by rewrite <- app_assoc.
  pose proof (step_shaped sha256 json_loads str_exc o1 l Hsh) as Hsh'.
  pose proof (step_kept o1 l Hl Hk) as Hk'. pose proof (step_named used o1 l Hn) as Hn'.
  unfold of_run in Hr. fold (of_run r l) in Hr. cbn [List.filter]. destruct (of_run r l) eqn:E.
  - assert (owner (label_conn l) = r) as Ho by by apply String.eqb_eq.
    destruct (own_step r o1 o2 l Hag Ho Hl (Hr eq_refl) Hk) as [Hout Hag'].
    cbn [Origin.run]. destruct (step o1 l) as [p1 x1], (step o2 l) as [p2 x2]. cbn [fst snd] in *. subst x2.
    destruct (IH _ p1 p2 Hsh' Hk' Hn' Hnd' Hag' Hls Hrs) as [Hf Ha].
    destruct (run p1 ls) as [p1' y1], (run p2 (List.filter (of_run r) ls)) as [p2' y2]. cbn [fst snd] in *.
    split; [|done]. rewrite List.filter_app, Hf. f_equal.
    induction x1 as [|x x1 IHx]; [done|]. cbn [map List.filter fst]. by rewrite E, IHx.
  - assert (owner (label_conn l) <> r) as Ho by by apply String.eqb_neq.
    assert (agree r o1 (step o1 l).1) as Hot.
    { apply other_step; [done| |].
      - intros c q w Hc. split; [by eapply Hk|exact (os_work _ Hsh _ _ _ Hc)].
      - intros u Hu. destruct (SESSIONS o1 !! cat ["fixture-"; u]) as [r'|] eqn:Es; [|done].
        destruct (Hn _ _ Es) as (u' & Hu' & Eu). apply fixture_inj in Eu. subst u'.
        apply NoDup_app in Hnd as (_ & Hd & _). exfalso. apply (Hd u Hu'). set_solver. }
    destruct (step o1 l) as [p1 x1]. cbn [fst] in *.
    assert (agree r p1 o2) as Hag' by by rewrite <- Hot.
    destruct (IH _ p1 o2 Hsh' Hk' Hn' Hnd' Hag' Hls Hrs) as [Hf Ha].
    destruct (run p1 ls) as [p1' y1]. cbn [fst snd] in *. split; [|done]. rewrite List.filter_app, Hf.
    assert (List.filter (fun lo => of_run r lo.1) (map (pair l) x1) = []) as ->; [|done].
    induction x1 as [|x x1 IHx]; [done|]. cbn [map List.filter fst]. by rewrite E.
Qed.
End runs.

(** C30: runs that share the origin do not see each other.  Take any schedule of
    requests, answers and disconnections in which each connection serves one run,
    identifiers are not drawn twice, and the run in question does not ask for the
    ledger (its size is shared).  Then everything the origin writes to that run's
    connections, and every task, attempt and session of the run at the end, is what
    it would have been had that run been alone. *)
Theorem runs_isolated sha256 json_loads str_exc owner r ls :
  Forall (owned owner) ls -> NoDup (flat_map drawn ls) ->
  Forall (fun l => of_run owner r l = true -> reads_ledger l = false) ls ->
  let go := run sha256 json_loads str_exc no_origin in
  let alone := List.filter (of_run owner r) ls in
  List.filter (fun lo => of_run owner r lo.1) (go ls).2 = (go alone).2 /\
  agree owner r (go ls).1 (go alone).1.
Proof.
  intros Hown Hnd Hread. apply run_isolated with (used := []); [apply no_origin_shaped| | |done|done|done|done].
  - by intros c q w.
  - by intros s r'.
Qed.

(** ** Two runs *)

Module OriginExample.
Definition owner (c : nat) : string := if Nat.even c then "run-a" else "run-b".
Definition ask (c : nat) (path : string) (v : val) : request :=
  Request "POST" path
    [("X-Run-Id", owner c); ("Content-Length", py_str (len (dumps v)))] (dumps v) "10.0.0.1".
Definition clock : Z * Z := (1, 2).
Definition initialize : val := VDict [("jsonrpc", VStr "2.0"); ("id", VInt 1); ("method", VStr "initialize")].
Definition stream : val := VDict [("id", VInt 7); ("method", VStr "SendStreamingMessage"); ("params", VDict [])].
Definition get_task (s : string) : val :=
  VDict [("id", VInt 8); ("method", VStr "GetTask"); ("params", VDict [("id", VStr s)])].
(** Run b starts a streamed task between the steps of run a, which asks for it. *)
Definition labels : list label :=
  [Receive 0 (ask 0 "/mcp" initialize) clock; Receive 1 (ask 1 "/a2a" stream) clock;
   Proceed 1 clock "t1" "c1"; Proceed 0 clock "u0" ""; Proceed 1 clock "p1" ""; Proceed 0 clock "p2" "";
   Receive 2 (ask 2 "/a2a" (get_task "task-t1")) clock; Proceed 1 clock "p3" ""; Proceed 2 clock "p4" "";
   Broken 1 clock; Proceed 2 clock "p5" ""].
Definition sha256 (b : bytes) : string := hex b.
Definition str_exc (e : exn) : string := "".
Definition go := run sha256 loads str_exc no_origin.
End OriginExample.

(** Run a is told that there is no such task, as it would be alone. *)
Lemma runs_isolated_witness :
  length (OriginExample.go (List.filter (of_run OriginExample.owner "run-a") OriginExample.labels)).2 = 2%nat /\
  List.filter (fun lo => of_run OriginExample.owner "run-a" lo.1) (OriginExample.go OriginExample.labels).2 =
    (OriginExample.go (List.filter (of_run OriginExample.owner "run-a") OriginExample.labels)).2.
Proof.
  split; [vm_compute; reflexivity|].
  apply (runs_isolated OriginExample.sha256 loads OriginExample.str_exc OriginExample.owner "run-a" OriginExample.labels).
  - repeat (apply List.Forall_cons; [vm_compute; exact I || reflexivity|]). apply List.Forall_nil.
  - apply (bool_decide_unpack _). vm_compute. exact I.
  - repeat (apply List.Forall_cons; [vm_compute; reflexivity|]). apply List.Forall_nil.
Defined.

(** A task that its client cancels between the events of its stream is completed
    again when the stream ends: the last write to the task does not look at it. *)
Example canceled_task_completes :
  let cancel := VDict [("id", VInt 9); ("method", VStr "CancelTask"); ("params", VDict [("id", VStr "task-t1")])] in
  let o := OriginExample.go
    ([Receive 1 (OriginExample.ask 1 "/a2a" OriginExample.stream) OriginExample.clock;
      Proceed 1 OriginExample.clock "t1" "c1"; Proceed 1 OriginExample.clock "p1" "";
      Receive 3 (OriginExample.ask 3 "/a2a" cancel) OriginExample.clock; Proceed 3 OriginExample.clock "p2" "";
      Proceed 3 OriginExample.clock "p3" ""]) in
  let finish := [Proceed 1 OriginExample.clock "p4" ""; Proceed 1 OriginExample.clock "p5" "";
                 Proceed 1 OriginExample.clock "p6" ""; Proceed 1 OriginExample.clock "p7" ""] in
  let o' := run OriginExample.sha256 loads OriginExample.str_exc o.1 finish in
  option_map (getv "status") (TASKS o.1 !! ("run-b", "task-t1")) = Some (status_of "canceled") /\
  option_map (getv "status") (TASKS o'.1 !! ("run-b", "task-t1")) = Some (status_of "completed").
Proof. by vm_compute. Qed.
