(* ===== verification/Image.v ===== *)
(** * The image metadata gate (env/scripts/check-image-metadata.py)

    [has_btf] reads the section names of an ELF file; [audit] looks at every file
    of every layer of an image for bulk catalogs and ELF type information.  The
    tar archives are given as data: what a layer holds, member by member. *)

From S2P Require Import Prelude PyVal Text Authority Target.

Definition CATALOGS : list string :=
  ["hook-index.tsv"; "signatures.tsv"; "hook-map.json"; "types.json"; "tmm.btf"].

Definition ELF_MAGIC : bytes := [0x7f; 0x45; 0x4c; 0x46].
Definition BTF_NAMES : list bytes := [encode ".BTF"; encode ".BTF.ext"].

Definition invalid {A} (msg : string) : result A := Err (ValueError msg).

(** The loop over the section headers: the names at their offsets in [names]. *)
Fixpoint btf_named (blob names : bytes) (off size : Z) (idx : list Z) : result bool :=
  match idx with
  | [] => Ok false
  | i :: idx =>
      let? start := unpack_le 4 blob (off + i * size) in
      let end_ := py_find [0] names start in
      raise_if (end_ <? 0) (ValueError "unterminated ELF section name") ;;
      if existsb (bytes_eqb (slice start end_ names)) BTF_NAMES then Ok true
      else btf_named blob names off size idx
  end.

Definition has_btf (blob : bytes) : result bool :=
  if negb (bytes_eqb (ztake 4 blob) ELF_MAGIC) then Ok false else
  if (len blob <? 64) || negb (nth 4 blob 0 =? 2) || negb (nth 5 blob 0 =? 1)
  then invalid "ELF format outside ELF64 little-endian audit support" else
  let? off := unpack_le 8 blob 40 in
  let? size := unpack_le 2 blob 58 in
  let? count := unpack_le 2 blob 60 in
  let? strings := unpack_le 2 blob 62 in
  if (off =? 0) && (count =? 0) then Ok false else
  if negb (size =? 64) || (count =? 0) || (count <=? strings) || (len blob <? off + count * size)
  then invalid "invalid/extended ELF section table" else
  let? name_off := unpack_le 8 blob (off + strings * size + 24) in
  let? name_size := unpack_le 8 blob (off + strings * size + 32) in
  raise_if (len blob <? name_off + name_size) (ValueError "truncated ELF section names") ;;
  btf_named blob (slice name_off (name_off + name_size) blob) off size (range count).

(** ** The layers of an image *)

Record member := Member { m_name : string; m_isfile : bool; m_content : bytes }.

(** The manifest, and what [extractfile] and the inner archive give for a layer. *)
Record image := Image { i_manifest : result val; i_layer : string -> result (list member) }.

(** [PurePosixPath(p).name]: the last part that is not empty or a dot. *)
Definition posix_name (p : string) : string :=
  let parts := List.filter (fun w => negb (String.eqb w "" || String.eqb w "."))
                 (map list_str (split_char "/" (str_list p) [])) in
  List.last parts "".

Definition is_catalog (path : string) : bool :=
  let name := posix_name path in
  mem_str name CATALOGS || existsb (fun n => starts_with (cat [n; "."]) name) CATALOGS.

(** What one member adds: its findings, and whether it is a file and an ELF file. *)
Definition audit_member (layer : string) (m : member) : result (list string * Z * Z) :=
  let where_ := cat [layer; ":"; m_name m] in
  let named := if is_catalog (m_name m) then [where_] else [] in
  if negb (m_isfile m) then Ok (named, 0, 0) else
  let prefix := ztake 4 (m_content m) in
  if negb (bytes_eqb prefix ELF_MAGIC) then Ok (named, 1, 0) else
  match has_btf (prefix ++ zdrop 4 (m_content m)) with
  | Ok true => Ok (named ++ [cat [where_; " (ELF BTF)"]], 1, 1)
  | Ok false => Ok (named, 1, 1)
  | Err (ValueError msg) => Ok (named ++ [cat [where_; " ("; msg; ")"]], 1, 1)
  | Err e => Err e
  end.

Fixpoint audit_members (layer : string) (ms : list member) : result (list string * Z * Z) :=
  match ms with
  | [] => Ok ([], 0, 0)
  | m :: ms =>
      let? (bad, files, elfs) := audit_member layer m in
      let? (bad', files', elfs') := audit_members layer ms in
      Ok (bad ++ bad', files + files', elfs + elfs')
  end.

Fixpoint audit_layers (img : image) (layers : list string) : result (list string * Z * Z) :=
  match layers with
  | [] => Ok ([], 0, 0)
  | layer :: layers =>
      let? ms := i_layer img layer in
      let? (bad, files, elfs) := audit_members layer ms in
      let? (bad', files', elfs') := audit_layers img layers in
      Ok (bad ++ bad', files + files', elfs + elfs')
  end.

(** The names of layers; one that is not text ends in an exception nobody catches. *)
Fixpoint layer_names (vs : list val) : result (list string) :=
  match vs with
  | [] => Ok []
  | VStr s :: vs => let? rest := layer_names vs in Ok (s :: rest)
  | _ :: _ => Err TypeError
  end.

Fixpoint named_layers (items : list val) : result (list string) :=
  match items with
  | [] => Ok []
  | v :: items =>
      let? l := subscript "Layers" v in
      let? vs := py_iter l in
      let? names := layer_names vs in
      let? rest := named_layers items in
      Ok (names ++ rest)
  end.

(** [sorted({...})]. *)
Definition sorted_set (l : list string) : list string := merge_sort String.le (remove_dups l).

Definition manifest_layers (img : image) : result (list string) :=
  let? manifest := i_manifest img in
  let? items := py_iter manifest in
  let? names := named_layers items in
  Ok (sorted_set names).

(** [audit]: the numbers of layers, files and ELF files it prints. *)
Definition audit (img : image) : result (Z * Z * Z) :=
  let? layers := manifest_layers img in
  match layers with
  | [] => invalid "image contains no layers"
  | _ =>
      let? (bad, files, elfs) := audit_layers img layers in
      match bad with
      | [] => Ok (len layers, files, elfs)
      | _ => Err (ValueError (String.concat newline ("forbidden or unaudited metadata:" :: bad)))
      end
  end.

(** The exceptions [__main__] turns into a message; either way the exit is not 0. *)
Definition image_main (img : image) : result (Z * Z * Z) :=
  match audit img with
  | Err (OSError m) => Err (SystemExit (cat ["FAIL metadata layer audit: "; m]))
  | Err (ValueError m) => Err (SystemExit (cat ["FAIL metadata layer audit: "; m]))
  | Err (KeyError k) => Err (SystemExit (cat ["FAIL metadata layer audit: '"; k; "'"]))
  | r => r
  end.

(** ** What a passed image audit means

    The names of an ELF file's sections, read off the file without the loop of
    [has_btf], and the audit against them. *)

(** ** Section names *)

(** Section [i] has the name [nm]: the bytes up to the first zero from its offset
    in the table of names. *)
Inductive section_named (blob : bytes) (i : Z) (nm : bytes) : Prop :=
| section_name_at off count strings start name_off name_size pre post :
    unpack_le 8 blob 40 = Ok off ->
    unpack_le 2 blob 60 = Ok count ->
    unpack_le 2 blob 62 = Ok strings ->
    0 <= i < count ->
    unpack_le 4 blob (off + i * 64) = Ok start ->
    unpack_le 8 blob (off + strings * 64 + 24) = Ok name_off ->
    unpack_le 8 blob (off + strings * 64 + 32) = Ok name_size ->
    slice name_off (name_off + name_size) blob = pre ++ nm ++ 0 :: post ->
    len pre = start ->
    0 ∉ nm ->
    section_named blob i nm.

Lemma find_zero l : forall i, ((find_from [0] l i = (-1) /\ 0 ∉ l) \/
  exists nm post, l = nm ++ 0 :: post /\ (0 ∉ nm) /\ find_from [0] l i = i + len nm).
Proof.
  induction l as [|x l IH]; intros i.
  - left. split; [done|]. apply not_elem_of_nil.
  - cbn [find_from is_prefix]. destruct (Z.eqb_spec 0 x) as [<-|Hx]; cbn [andb].
    + right. exists [], l. split_and!; [done|apply not_elem_of_nil|]. change (len (@nil Z)) with 0. lia.
    + destruct (IH (i + 1)) as [[-> Hn]|(nm & post & -> & Hn & ->)].
      * left. split; [done|]. by rewrite not_elem_of_cons.
      * right. exists (x :: nm), post. split_and!; [done|by rewrite not_elem_of_cons|]. rewrite len_cons. lia.
Qed.

(** The name the loop cuts out is the name at that offset, and the only one. *)
Lemma name_found names start : 0 <= start -> 0 <= py_find [0] names start ->
  exists pre post, names = pre ++ slice start (py_find [0] names start) names ++ 0 :: post /\
    len pre = start /\ 0 ∉ slice start (py_find [0] names start) names.
Proof.
  intros Hs. unfold py_find. destruct (Z.ltb_spec (len names) start) as [|Hle]; [lia|].
  destruct (find_zero (zdrop start names) start) as [[-> _]|(nm & post & Hl & Hn & ->)]; [lia|]. intros _.
  set (pre := ztake start names).
  assert (names = pre ++ nm ++ 0 :: post) as Hnames.
  { rewrite <- Hl. unfold pre. rewrite ztake_take, zdrop_drop. by rewrite take_drop. }
  assert (len pre = start) as Hp.
  { unfold pre. rewrite ztake_take. unfold len in *. rewrite length_take. lia. }
  clearbody pre. clear Hl. subst names start. rewrite slice_mid. by exists pre, post.
Qed.

Lemma name_unique pre nm post : 0 ∉ nm -> py_find [0] (pre ++ nm ++ 0 :: post) (len pre) = len pre + len nm.
Proof.
  intros Hn. unfold py_find. destruct (Z.ltb_spec (len (pre ++ nm ++ 0 :: post)) (len pre)) as [H|_].
  { rewrite len_app in H. pose proof (len_nonneg (nm ++ 0 :: post)). lia. }
  rewrite zdrop_len. destruct (find_zero (nm ++ 0 :: post) (len pre)) as [[_ H]|(nm' & post' & E & Hn' & ->)].
  { exfalso. apply H. set_solver. }
  do 2 f_equal. revert nm' E Hn'. induction nm as [|x nm IH]; intros [|y nm'] E Hn'; [done| | |].
  - injection E as <- _. set_solver.
  - injection E as -> _. set_solver.
  - injection E as -> E. rewrite (IH ltac:(set_solver) nm' E); [done|set_solver].
Qed.

Definition is_elf (blob : bytes) : Prop := ztake 4 blob = ELF_MAGIC.
Definition btf_name (nm : bytes) : Prop := nm = encode ".BTF" \/ nm = encode ".BTF.ext".

Lemma btf_name_spec nm : existsb (bytes_eqb nm) BTF_NAMES = true <-> btf_name nm.
Proof.
  unfold btf_name, BTF_NAMES. cbn [existsb]. rewrite orb_false_r, orb_true_iff, !bytes_eqb_eq. done.
Qed.

Lemma btf_named_spec blob names off idx b : btf_named blob names off 64 idx = Ok b -> is_bytes blob ->
  if b then exists i start pre nm post, i ∈ idx /\ unpack_le 4 blob (off + i * 64) = Ok start /\
      names = pre ++ nm ++ 0 :: post /\ len pre = start /\ (0 ∉ nm) /\ btf_name nm
  else forall i start pre nm post, i ∈ idx -> unpack_le 4 blob (off + i * 64) = Ok start ->
      names = pre ++ nm ++ 0 :: post -> len pre = start -> 0 ∉ nm -> ~ btf_name nm.
Proof.
  intros H Hb. induction idx as [|i idx IH]; cbn [btf_named] in H.
  { injection H as <-. intros i ? ? ? ? Hi. by apply not_elem_of_nil in Hi. }
  destruct (unpack_le 4 blob (off + i * 64)) as [start|] eqn:Hs; [|done].
  pose proof (unpack_le_nonneg _ _ _ _ Hb Hs) as Hs0.
  destruct (py_find [0] names start <? 0) eqn:Hf; [done|]. apply Z.ltb_ge in Hf.
  destruct (name_found names start Hs0 Hf) as (pre & post & Hn & Hp & H0).
  destruct (existsb _ _) eqn:E.
  - injection H as <-. apply btf_name_spec in E. exists i, start, pre, (slice start (py_find [0] names start) names), post.
    split_and!; [by left|done|done|done|done|done].
  - specialize (IH H). destruct b.
    + destruct IH as (j & st & p & nm & q & Hj & IH). exists j, st, p, nm, q. split; [by right|done].
    + intros j st p nm q [->|Hj]%elem_of_cons Hst Hnm Hpl Hw; [|by eapply IH].
      rewrite Hs in Hst. injection Hst as <-. rewrite Hnm in E. rewrite <- Hpl in E.
      rewrite name_unique, slice_mid in E by done. intros Hbtf. apply btf_name_spec in Hbtf. congruence.
Qed.

(** [has_btf] on every file it answers for. *)
Lemma has_btf_spec blob b : is_bytes blob -> is_elf blob -> has_btf blob = Ok b ->
  if b then exists i nm, section_named blob i nm /\ btf_name nm
  else forall i nm, section_named blob i nm -> ~ btf_name nm.
Proof.
  unfold is_elf, has_btf. intros Hb -> H. rewrite bytes_eqb_refl in H. cbn [negb] in H.
  destruct (_ || _); [done|]. destruct (unpack_le 8 blob 40) as [off|] eqn:Ho; [|done].
  destruct (unpack_le 2 blob 58) as [size|] eqn:Hsz; [|done]. destruct (unpack_le 2 blob 60) as [count|] eqn:Hc; [|done].
  destruct (unpack_le 2 blob 62) as [strings|] eqn:Hst; [|done].
  destruct ((off =? 0) && (count =? 0)) eqn:E0.
  { injection H as <-. intros i nm []. ok_agree. lia. }
  destruct (_ || _ || _ || _) eqn:E1; [done|]. bool_prop. assert (size = 64) as -> by lia.
  destruct (unpack_le 8 blob (off + strings * 64 + 24)) as [noff|] eqn:Hno; [|done].
  destruct (unpack_le 8 blob (off + strings * 64 + 32)) as [nsz|] eqn:Hns; [|done].
  destruct (_ <? _); [done|]. pose proof (btf_named_spec _ _ _ _ _ H Hb) as Hspec.
  assert (forall i, i ∈ range count <-> 0 <= i < count) as Hrange.
  { intros i. unfold range. rewrite list_elem_of_fmap. setoid_rewrite elem_of_seq. split; [intros (n & -> & ?); lia|].
    intros Hi. exists (Z.to_nat i). lia. }
  destruct b.
  - destruct Hspec as (i & start & pre & nm & post & Hi & Hhead & Hn & Hp & Hw & Hbtf).
    exists i, nm. split; [|done]. apply Hrange in Hi. by econstructor.
  - intros i nm []. ok_agree. eapply Hspec; try done. by apply Hrange.
Qed.

(** ** The audit *)

Definition clean_member (m : member) : Prop :=
  is_catalog (m_name m) = false /\
  (m_isfile m = true -> is_elf (m_content m) -> has_btf (m_content m) = Ok false).

Definition file_count (ms : list member) : Z := len (filter (fun m => m_isfile m = true) ms).
Definition elf_count (ms : list member) : Z :=
  len (filter (fun m => m_isfile m = true /\ is_elf (m_content m)) ms).

Lemma ztake_zdrop {A} n (l : list A) : ztake n l ++ zdrop n l = l.
Proof. rewrite ztake_take, zdrop_drop. apply take_drop. Qed.

Lemma audit_member_spec layer m bad f e : audit_member layer m = Ok (bad, f, e) ->
  (bad = [] <-> clean_member m) /\ f = file_count [m] /\ e = elf_count [m].
Proof.
  unfold audit_member, clean_member, file_count, elf_count, is_elf. cbv zeta.
  destruct (m_isfile m) eqn:Hf; cbn [negb].
  - rewrite (filter_cons_True (fun m => m_isfile m = true)) by done.
    destruct (bytes_eqb (ztake 4 (m_content m)) ELF_MAGIC) eqn:He; cbn [negb].
    + apply bytes_eqb_eq in He. rewrite filter_cons_True by done.
      rewrite ztake_zdrop.
      destruct (has_btf (m_content m)) as [[]|[]]; try done; intros [= <- <- <-];
        (split; [|done]); destruct (is_catalog (m_name m)); split; try done; intros [? H]; try done; by specialize (H eq_refl He).
    + assert (ztake 4 (m_content m) <> ELF_MAGIC) as Hne by (intros E; by rewrite E, bytes_eqb_refl in He).
      rewrite (filter_cons_False _ m) by naive_solver. intros [= <- <- <-].
      split; [|done]. destruct (is_catalog (m_name m)); split; try done; by intros [? ?].
  - rewrite !filter_cons_False by first [congruence | intros [? _]; congruence]. intros [= <- <- <-].
    split; [|done]. destruct (is_catalog (m_name m)); split; try done; by intros [? ?].
Qed.

Lemma count_cons (P : member -> Prop) `{forall m, Decision (P m)} m ms :
  len (filter P (m :: ms)) = len (filter P [m]) + len (filter P ms).
Proof. change (m :: ms) with ([m] ++ ms). by rewrite filter_app, len_app. Qed.

Lemma audit_members_spec layer ms : forall bad f e, audit_members layer ms = Ok (bad, f, e) ->
  (bad = [] <-> Forall clean_member ms) /\ f = file_count ms /\ e = elf_count ms.
Proof.
  induction ms as [|m ms IH]; intros bad f e; cbn [audit_members]; [by intros [= <- <- <-]|].
  destruct (audit_member layer m) as [[[b1 f1] e1]|] eqn:Hm; [|done].
  destruct (audit_members layer ms) as [[[b2 f2] e2]|]; [|done]. intros [= <- <- <-].
  destruct (audit_member_spec _ _ _ _ _ Hm) as (Hb & -> & ->). destruct (IH _ _ _ eq_refl) as (Hbs & -> & ->).
  split; [|split; symmetry; apply count_cons]. rewrite Forall_cons, <- Hb, <- Hbs.
  split; [by intros [? ?]%app_nil|by intros [-> ->]].
Qed.

Lemma audit_members_clean layer ms : Forall clean_member ms ->
  audit_members layer ms = Ok ([], file_count ms, elf_count ms).
Proof.
  intros H. assert (exists r, audit_members layer ms = Ok r) as ([[bad f] e] & Hr).
  { induction H as [|m ms [Hn Hc] _ (r & IH)]; cbn [audit_members]; [by eexists|]. rewrite IH.
    assert (exists r', audit_member layer m = Ok r') as ([[b f] e] & ->).
    { unfold audit_member. rewrite ztake_zdrop. destruct (m_isfile m); cbn [negb]; [|by eexists].
      destruct (bytes_eqb _ _) eqn:E; cbn [negb]; [|by eexists]. apply bytes_eqb_eq in E.
      rewrite Hc by done. by eexists. }
    destruct r as [[b' f'] e']. by eexists. }
  destruct (audit_members_spec _ _ _ _ _ Hr) as (Hb & -> & ->). by apply Hb in H as ->.
Qed.

Definition total (count : list member -> Z) (contents : list (list member)) : Z :=
  foldr (fun ms n => count ms + n) 0 contents.

(** A layer of the manifest and what it holds. *)
Definition holds (img : image) (layers : list string) (contents : list (list member)) : Prop :=
  Forall2 (fun l ms => i_layer img l = Ok ms) layers contents.

Lemma audit_layers_spec img layers : forall bad f e, audit_layers img layers = Ok (bad, f, e) ->
  exists contents, holds img layers contents /\ (bad = [] <-> Forall (Forall clean_member) contents) /\
    f = total file_count contents /\ e = total elf_count contents.
Proof.
  induction layers as [|l layers IH]; intros bad f e; cbn [audit_layers].
  { intros [= <- <- <-]. exists []. split_and!; try done; by constructor. }
  destruct (i_layer img l) as [ms|] eqn:Hl; [|done].
  destruct (audit_members l ms) as [[[b1 f1] e1]|] eqn:Hm; [|done].
  destruct (audit_layers img layers) as [[[b2 f2] e2]|]; [|done]. intros [= <- <- <-].
  destruct (audit_members_spec _ _ _ _ _ Hm) as (Hb & -> & ->).
  destruct (IH _ _ _ eq_refl) as (contents & Hh & Hbs & -> & ->). exists (ms :: contents).
  split_and!; [by constructor| |done|done]. rewrite Forall_cons, <- Hb, <- Hbs.
  split; [by intros [? ?]%app_nil|by intros [-> ->]].
Qed.

Lemma audit_layers_clean img layers contents : holds img layers contents -> Forall (Forall clean_member) contents ->
  audit_layers img layers = Ok ([], total file_count contents, total elf_count contents).
Proof.
  intros H. induction H as [|l ms layers contents Hl _ IH]; intros Hc; cbn [audit_layers]; [done|].
  inversion_clear Hc. rewrite Hl, audit_members_clean, IH by done. done.
Qed.

(** The manifest names layers, all of them can be read, and every file of every
    one of them is clean. *)
Definition passes (img : image) (n files elfs : Z) : Prop :=
  exists layers contents, manifest_layers img = Ok layers /\ layers <> [] /\ holds img layers contents /\
    Forall (Forall clean_member) contents /\
    n = len layers /\ files = total file_count contents /\ elfs = total elf_count contents.

Lemma image_main_ok img r : image_main img = Ok r <-> audit img = Ok r.
Proof. unfold image_main. destruct (audit img) as [|[]]; split; done. Qed.

Lemma audit_passes img n files elfs : audit img = Ok (n, files, elfs) <-> passes img n files elfs.
Proof.
  unfold audit, passes. split.
  - destruct (manifest_layers img) as [layers|] eqn:Hm; [|done]. destruct layers as [|l layers]; [done|].
    destruct (audit_layers img (l :: layers)) as [[[bad f] e]|] eqn:Ha; [|done].
    destruct (audit_layers_spec _ _ _ _ _ Ha) as (contents & Hh & Hb & -> & ->).
    destruct bad; [|done]. intros [= <- <- <-]. exists (l :: layers), contents. split_and!; try done. by apply Hb.
  - intros (layers & contents & -> & Hne & Hh & Hc & -> & -> & ->).
    destruct layers as [|l layers]; [done|]. by rewrite (audit_layers_clean _ _ _ Hh Hc).
Qed.

Lemma passes_members img n files elfs layers l ms : passes img n files elfs ->
  manifest_layers img = Ok layers -> l ∈ layers -> i_layer img l = Ok ms -> Forall clean_member ms.
Proof.
  intros (layers' & contents & Hm & _ & Hh & Hc & _) Hm' Hl Hms. ok_agree.
  apply list_elem_of_lookup in Hl as (k & Hk). destruct (Forall2_lookup_l _ _ _ _ _ Hh Hk) as (ms' & Hk' & Hms').
  ok_agree. by eapply Forall_lookup_1.
Qed.

Lemma sorted_set_elem x l : x ∈ sorted_set l <-> x ∈ l.
Proof. unfold sorted_set. rewrite merge_sort_Permutation. apply elem_of_remove_dups. Qed.

(** An image of two layers: a program with a section [.text], and a removed file. *)
Definition demo_elf : bytes :=
  [127; 69; 76; 70; 2; 1; 1; 0; 0; 0; 0; 0; 0; 0; 0; 0; 2; 0; 62; 0; 1; 0; 0; 0; 0; 0; 0; 0; 0; 0;
     0; 0; 0; 0; 0; 0; 0; 0; 0; 0; 64; 0; 0; 0; 0; 0; 0; 0; 0; 0; 0; 0; 64; 0; 0; 0; 0; 0; 64; 0; 2;
     0; 1; 0; 0; 0; 0; 0; 3; 0; 0; 0; 0; 0; 0; 0; 0; 0; 0; 0; 0; 0; 0; 0; 0; 0; 0; 0; 0; 0; 0; 0; 0;
     0; 0; 0; 0; 0; 0; 0; 0; 0; 0; 0; 0; 0; 0; 0; 0; 0; 0; 0; 1; 0; 0; 0; 0; 0; 0; 0; 0; 0; 0; 0; 0;
     0; 0; 0; 1; 0; 0; 0; 3; 0; 0; 0; 0; 0; 0; 0; 0; 0; 0; 0; 0; 0; 0; 0; 0; 0; 0; 0; 192; 0; 0; 0;
     0; 0; 0; 0; 7; 0; 0; 0; 0; 0; 0; 0; 0; 0; 0; 0; 0; 0; 0; 0; 1; 0; 0; 0; 0; 0; 0; 0; 0; 0; 0; 0;
     0; 0; 0; 0; 0; 46; 116; 101; 120; 116; 0].

Definition demo_image : image := Image
  (Ok (VList [VDict [("Config", VStr "c.json"); ("Layers", VList [VStr "b/layer.tar"; VStr "a/layer.tar"])]]))
  (fun l => if String.eqb l "a/layer.tar" then Ok [Member "usr/bin/" false []; Member "usr/bin/tmm" true demo_elf]
            else if String.eqb l "b/layer.tar" then Ok [Member "etc/.wh.motd" true []]
            else Err (KeyError l)).

(** C31: the image gate passes exactly the images that carry none of the forbidden
    metadata, in any layer.  It passes if and only if the manifest names layers, each
    can be read, no member of any of them has a catalog's name (or one derived from
    it), and every regular file that is ELF was read to its last section; and such
    a file then has no section called [.BTF] or [.BTF.ext].  What a later layer
    hides is not forgiven: an image with all the layers of another, and more,
    passes only if that one does. *)
Theorem image_gate_exact img
    (Hbytes : forall l ms m, i_layer img l = Ok ms -> m ∈ ms -> is_bytes (m_content m)) :
  (forall n files elfs, image_main img = Ok (n, files, elfs) <-> passes img n files elfs) /\
  (forall r layers l ms m, image_main img = Ok r -> manifest_layers img = Ok layers -> l ∈ layers ->
     i_layer img l = Ok ms -> m ∈ ms ->
     (posix_name (m_name m) ∉ CATALOGS) /\
     (m_isfile m = true -> is_elf (m_content m) ->
      forall i nm, section_named (m_content m) i nm -> ~ btf_name nm)) /\
  (forall base layers0 layers r, manifest_layers base = Ok layers0 -> layers0 <> [] ->
     manifest_layers img = Ok layers -> layers0 ⊆ layers ->
     (forall l, l ∈ layers0 -> i_layer base l = i_layer img l) ->
     image_main img = Ok r -> is_ok (image_main base) = true).
Proof.
  split; [intros; rewrite image_main_ok; apply audit_passes|]. split.
  - intros [[n f] e] layers l ms m H Hm Hl Hms Hin. apply image_main_ok, audit_passes in H.
    pose proof (passes_members _ _ _ _ _ _ _ H Hm Hl Hms) as Hc. rewrite Forall_forall in Hc.
    destruct (Hc m Hin) as [Hcat Helf]. split.
    + unfold is_catalog in Hcat. apply orb_false_iff in Hcat as [Hn _]. by rewrite <- mem_str_elem, Hn.
    + intros Hf He. by apply (has_btf_spec _ false); [eapply Hbytes| |apply Helf].
  - intros base layers0 layers [[n f] e] Hb Hne Hm Hsub Hsame H. apply image_main_ok, audit_passes in H.
    assert (exists contents, holds base layers0 contents /\ Forall (Forall clean_member) contents) as (contents & Hh & Hc).
    { clear Hb Hne. induction layers0 as [|l layers0 IH]; [by exists []; split; constructor|].
      destruct IH as (contents & Hh & Hc); [set_solver|set_solver|].
      pose proof H as (layers' & cs & Hm' & _ & Hhs & _). ok_agree.
      assert (l ∈ layers) as Hl by (apply Hsub; left). pose proof Hl as (k & Hk)%list_elem_of_lookup.
      destruct (Forall2_lookup_l _ _ _ _ _ Hhs Hk) as (ms & _ & Hms). exists (ms :: contents). split.
      - constructor; [|done]. rewrite Hsame by left. done.
      - constructor; [|done]. by eapply passes_members. }
    assert (audit base = Ok (len layers0, total file_count contents, total elf_count contents)) as Hok.
    { apply audit_passes. by exists layers0, contents. }
    apply image_main_ok in Hok. by rewrite Hok.
Qed.

Lemma image_gate_exact_witness :
  image_main demo_image = Ok (2, 2, 1) /\ passes demo_image 2 2 1 /\
  forall i nm, section_named demo_elf i nm -> ~ btf_name nm.
Proof.
  assert (forall l ms m, i_layer demo_image l = Ok ms -> m ∈ ms -> is_bytes (m_content m)) as Hb.
  { assert (is_bytes demo_elf) as He by (repeat constructor; lia). intros l ms m. cbn.
    destruct (String.eqb l "a/layer.tar"); [|destruct (String.eqb l "b/layer.tar"); [|done]]; intros [= <-] Hm;
      repeat (apply elem_of_cons in Hm as [-> |Hm]); try (by apply not_elem_of_nil in Hm); by try exact He; constructor. }
  destruct (image_gate_exact demo_image Hb) as (H1 & H2 & _).
  assert (image_main demo_image = Ok (2, 2, 1)) as Hrun by (vm_compute; reflexivity).
  split; [exact Hrun|]. split; [by apply H1|].
  apply (H2 _ ["a/layer.tar"; "b/layer.tar"] "a/layer.tar" [Member "usr/bin/" false []; Member "usr/bin/tmm" true demo_elf]
    (Member "usr/bin/tmm" true demo_elf) Hrun); try reflexivity; try (by left); by right; left.
Defined.
