(* ===== verification/Deliver.v ===== *)
(** * Delivery of a program to a running pod (env/scripts/bnk-deliver-program.py)

    The program travels inside a generated script: [script] is what that script
    does in the pod up to the bytes it puts on the socket.  The literals of the
    generated source ([base64], [repr]) stand for the values they carry.
    Parameters: the files that can be read, the paths that exist ([os.path.exists]),
    the environment, and what kubectl prints. *)

From S2P Require Import Prelude PyVal Text Authority Target Sign Loader LoaderSpec LoaderWire.

Definition OFF_BUILD_MIN : nat := 112.
Definition OFF_BUILD_MAX : nat := 116.

(** ** The script in the pod *)

Record delivery := Delivery {
  d_prog : bytes; d_sig : bytes; d_slot : Z; d_mode : Z; d_hook : list Z; d_min : Z; d_max : Z }.

Definition script (d : delivery) : result bytes :=
  let b := replicate 192 0 in
  let? b := pack_into32 OFF_OP OP_LOAD b in
  let? b := pack_into32 OFF_EPOCH (d_slot d) b in
  let? b := pack_into32 OFF_MODE (d_mode d) b in
  let? b := pack_into32 OFF_PROGLEN (len (d_prog d)) b in
  let? b := match d_sig d with
            | _ :: _ =>
                raise_if (negb (len (d_sig d) =? BINDING_LEN + SIG_LEN)) (SystemExit "signed blob") ;;
                Ok (splice OFF_SIG (zdrop BINDING_LEN (d_sig d)) (splice OFF_BINDING (ztake BINDING_LEN (d_sig d)) b))
            | [] =>
                let b := splice OFF_CTX_ABI [CTX_ABI_VERSION] b in
                let? b := pack_into32 OFF_BUILD_MIN (d_min d) b in
                let? b := pack_into32 OFF_BUILD_MAX (d_max d) b in
                match utf8_encode (d_hook d) with
                | Some [] => Ok b
                | Some hook => Ok (splice OFF_HOOK hook b)
                | None => Err UnicodeError
                end
            end in
  Ok (b ++ d_prog d).

(** ** [elf_fentry_section] *)

(** [decode("ascii", "replace")]. *)
Definition ascii_replace (b : bytes) : list Z := map (fun c => if c <? 128 then c else 0xFFFD) b.

Fixpoint fentry_name (blob : bytes) (stroff shoff shentsize : Z) (idx : list Z) : result (list Z) :=
  match idx with
  | [] => Ok []
  | i :: rest =>
      let? nameoff := unpack_le 4 blob (shoff + i * shentsize) in
      let end_ := py_find [0] blob (stroff + nameoff) in
      raise_if (end_ <? 0) (ValueError "subsection not found") ;;
      let name := ascii_replace (slice (stroff + nameoff) end_ blob) in
      if is_prefix (encode "fentry/") name then Ok (drop 7 name)
      else fentry_name blob stroff shoff shentsize rest
  end.

Definition elf_fentry_section (blob : bytes) : result (list Z) :=
  if (len blob <? 64) || negb (bytes_eqb (ztake 4 blob) [0x7f; 0x45; 0x4c; 0x46]) || negb (nth 4 blob 0 =? 2)
  then Ok [] else
  let? shoff := unpack_le 8 blob 0x28 in
  let? shentsize := unpack_le 2 blob 0x3A in
  let? shnum := unpack_le 2 blob 0x3C in
  let? shstrndx := unpack_le 2 blob 0x3E in
  if (shnum =? 0) || (shnum <=? shstrndx) then Ok [] else
  let? stroff := unpack_le 8 blob (shoff + shstrndx * shentsize + 0x18) in
  fentry_name blob stroff shoff shentsize (range shnum).

(** ** [pods] and [main] *)

(** The names in the first column of the rows whose third is [Running]. *)
Definition running_pods (stdout : string) : list string :=
  omap (fun l => match str_split (list_str l) with
                 | name :: _ :: state :: _ => if String.eqb state "Running" then Some name else None
                 | _ => None
                 end) (splitlines stdout).

Section deliver.
Variable read : files.
Variable exists_ : string -> bool.
Variable env : string -> option string.
Variable kubectl : string.

Definition env_int (name : string) : result Z :=
  match py_int0 (default "0" (env name)) with
  | Some z => Ok z
  | None => Err (ValueError "invalid literal for int()")
  end.

Definition open_file (path : string) : result bytes :=
  match read path with Some b => Ok b | None => Err (OSError "open") end.

(** The signature: named, looked for beside the object, or left out.  One that
    exists and cannot be read is an error; one that was named and does not exist is
    left out. *)
Definition read_sig (path : string) : result bytes :=
  let named := default "" (env "LS_SIG") in
  if String.eqb named "none" then Ok [] else
  let base := if ends_with ".o" path then list_str (take (length (str_list path) - 2) (str_list path)) else path in
  let sigp := match named with
              | EmptyString => List.find exists_ [cat [base; ".sig"]; cat [path; ".sig"]]
              | _ => Some named
              end in
  match sigp with
  | Some p => if exists_ p then open_file p else Ok []
  | None => Ok []
  end.

Definition targets : list string :=
  match env "POD" with
  | Some (String _ _ as p) => [p]
  | _ => running_pods kubectl
  end.

(** [main]: for every pod, what its script sends, or how it fails. *)
Definition deliver_main (argv : list string) : result (list (string * result bytes)) :=
  match argv with
  | path :: slot :: mode :: rest =>
      let? slot := to_int slot in
      let? mode := to_int mode in
      let? bmin := env_int "LS_BUILD_MIN" in
      let? bmax := env_int "LS_BUILD_MAX" in
      let? sig := read_sig path in
      let? prog := open_file path in
      let? hook := match rest with
                   | String _ _ as h :: _ => Ok (encode h)
                   | _ => elf_fentry_section prog
                   end in
      raise_if (match hook with [] => true | _ => false end) (SystemExit "no fentry/ section") ;;
      raise_if (match targets with [] => true | _ => false end) (SystemExit "no Running f5-tmm pods") ;;
      let? _ := match sig with
                | [] => Ok 0
                | _ => let? _ := unpack_le 4 sig 96 in unpack_le 4 sig 100
                end in
      let d := Delivery prog sig slot mode hook bmin bmax in
      Ok (map (fun p => (p, script d)) targets)
  | _ => Err (SystemExit "usage")
  end.
End deliver.

(** ** A delivered program is a loaded one

    What the generated script sends, against the message of the loader command. *)

Lemma splice_covered (x : Z) v b : length v = 112%nat -> (128 <= length b)%nat ->
  splice OFF_BINDING v (splice OFF_CTX_ABI [x] b) = splice OFF_BINDING v b.
Proof.
  intros Hv Hb. unfold splice, OFF_BINDING, OFF_CTX_ABI. rewrite Hv. cbn [length].
  assert (length (take 121 b) = 121%nat) as Ht by (rewrite length_take; lia).
  rewrite take_app_le, take_take by lia. f_equal. f_equal.
  rewrite drop_app_ge by lia. rewrite Ht. cbn [Nat.add Nat.sub]. cbn [app].
  change (drop 7 (x :: drop 122 b)) with (drop 6 (drop 122 b)). by rewrite drop_drop.
Qed.

(** The signed script and the signed message are the same bytes. *)
Lemma script_signed d : d_sig d <> [] ->
  (len (d_sig d) = 176 -> script d =
    msg (Message OP_LOAD (d_slot d) (d_mode d) [] (d_prog d) None
           (Some (ztake BINDING_LEN (d_sig d), zdrop BINDING_LEN (d_sig d))))) /\
  (forall b, script d = Ok b -> len (d_sig d) = 176).
Proof.
  intros Hne. unfold script, msg. cbv zeta. cbn [m_op m_slot m_mode m_prog m_epoch m_signed default].
  destruct (pack_into32 OFF_OP _ _) as [b1|] eqn:H1; [|done].
  destruct (pack_into32 OFF_EPOCH _ _) as [b2|] eqn:H2; [|done].
  destruct (pack_into32 OFF_MODE _ _) as [b3|] eqn:H3; [|done].
  destruct (pack_into32 OFF_PROGLEN _ _) as [b4|] eqn:H4; [|done].
  destruct (d_sig d) as [|c s] eqn:Es; [done|]. rewrite <- Es in *. split.
  - intros Hl. assert (len (ztake BINDING_LEN (d_sig d)) = 112 /\ len (zdrop BINDING_LEN (d_sig d)) = 64) as [L1 L2].
    { rewrite ztake_take, zdrop_drop. unfold len, BINDING_LEN in *. rewrite length_take, length_drop. lia. }
    rewrite Hl, L1, L2. change (176 =? BINDING_LEN + SIG_LEN) with true. change (112 =? BINDING_LEN) with true.
    change (64 =? SIG_LEN) with true. cbn [negb orb]. rewrite splice_covered; [done|unfold len in L1; lia|].
    destruct (header_ok _ _ _ _ _ _ _ _ H1 H2 H3 H4) as (h & Lh & -> & _).
    rewrite length_app, length_replicate. lia.
  - intros b. destruct (Z.eqb_spec (len (d_sig d)) (BINDING_LEN + SIG_LEN)) as [->|]; [done|by cbn].
Qed.

(** The binding an unsigned script sends: hook, build range and context version. *)
Definition ranged_binding (hook : bytes) (bmin bmax : Z) : bytes :=
  replicate 32 0 ++ hook ++ replicate (64 - length hook) 0 ++ le_bytes 4 bmin ++ le_bytes 4 bmax ++
  [0; CTX_ABI_VERSION] ++ replicate 6 0.

Lemma script_unsigned d hook : d_sig d = [] -> utf8_encode (d_hook d) = Some hook -> len hook <= 64 ->
  forall b, script d = Ok b ->
  read_msg b = (OP_LOAD, d_slot d, d_mode d, len (d_prog d), ranged_binding hook (d_min d) (d_max d),
                replicate 64 0, d_prog d).
Proof.
  intros Hs Hh Hl b. unfold script. rewrite Hs, Hh. cbv zeta.
  destruct (pack_into32 OFF_OP _ _) as [b1|] eqn:H1; [|done].
  destruct (pack_into32 OFF_EPOCH _ _) as [b2|] eqn:H2; [|done].
  destruct (pack_into32 OFF_MODE _ _) as [b3|] eqn:H3; [|done].
  destruct (pack_into32 OFF_PROGLEN _ _) as [b4|] eqn:H4; [|done].
  destruct (header_ok _ _ _ _ _ _ _ _ H1 H2 H3 H4) as (h & Lh & -> & <- & <- & <- & <-).
  assert (length h = 16%nat) as Lh' by (unfold len in Lh; lia).
  assert (splice OFF_CTX_ABI [CTX_ABI_VERSION] (h ++ replicate 176 0) =
    (h ++ replicate 96 0) ++ replicate 8 0 ++ [0; CTX_ABI_VERSION] ++ replicate 70 0) as ->.
  { rewrite (splice_at _ (h ++ replicate 105 0) [0] _ (replicate 70 0)); [|..|done].
    - by rewrite <- !app_assoc.
    - by rewrite <- !app_assoc.
    - rewrite length_app, length_replicate. unfold OFF_CTX_ABI. lia. }
  unfold pack_into32. destruct (pack_le 4 (d_min d)) as [vmin|] eqn:Hmin; [|done].
  destruct (pack_le 4 (d_max d)) as [vmax|] eqn:Hmax; [|done].
  assert (vmin = le_bytes 4 (d_min d) /\ vmax = le_bytes 4 (d_max d)) as [-> ->].
  { unfold pack_le in Hmin, Hmax. repeat case_match; try done. by simplify_eq. }
  rewrite (splice_at OFF_BUILD_MIN (h ++ replicate 96 0) (replicate 4 0) (le_bytes 4 (d_min d))
    (replicate 4 0 ++ [0; CTX_ABI_VERSION] ++ replicate 70 0)); [|by rewrite <- !app_assoc|..];
    [|rewrite length_app, length_replicate; unfold OFF_BUILD_MIN; lia|done].
  rewrite (splice_at OFF_BUILD_MAX ((h ++ replicate 96 0) ++ le_bytes 4 (d_min d)) (replicate 4 0) (le_bytes 4 (d_max d))
    ([0; CTX_ABI_VERSION] ++ replicate 70 0)); [|by rewrite <- !app_assoc|..];
    [|rewrite !length_app, length_replicate, length_le_bytes; unfold OFF_BUILD_MAX; lia|done].
  set (tail := le_bytes 4 (d_min d) ++ le_bytes 4 (d_max d) ++ [0; CTX_ABI_VERSION] ++ replicate 70 0).
  assert (forall hk, (length hk <= 64)%nat -> splice OFF_HOOK hk ((h ++ replicate 96 0) ++ tail) =
    h ++ ranged_binding hk (d_min d) (d_max d) ++ replicate 64 0) as Hhook.
  { intros hk Hk. rewrite (splice_at OFF_HOOK (h ++ replicate 32 0) (replicate (length hk) 0) hk (replicate (64 - length hk) 0 ++ tail)).
    - unfold ranged_binding, tail. by rewrite <- !app_assoc.
    - rewrite <- !app_assoc. f_equal. rewrite (app_assoc (replicate (length hk) 0)), <- replicate_add.
      replace (length hk + (64 - length hk))%nat with 64%nat by lia. by rewrite (app_assoc (replicate 32 0)), <- replicate_add.
    - rewrite length_app, length_replicate. unfold OFF_HOOK. lia.
    - by rewrite length_replicate. }
  assert (length hook <= 64)%nat as Hl' by (unfold len in Hl; lia). specialize (Hhook hook Hl').
  assert (forall bd, len bd = 112 -> read_msg ((h ++ bd ++ replicate 64 0) ++ d_prog d) =
    (le_int (slice 0 4 h), le_int (slice 4 8 h), le_int (slice 8 12 h), le_int (slice 12 16 h), bd, replicate 64 0, d_prog d)) as Hread.
  { intros bd Lb. unfold read_msg. rewrite <- !app_assoc.
    assert (forall a c r, 0 <= a <= c -> c <= 16 -> slice a c (h ++ r) = slice a c h) as Hs'.
    { intros a c r Ha Hc. rewrite !slice_take_drop, drop_app_le by lia. apply take_app_le. rewrite length_drop. lia. }
    rewrite !Hs' by lia. assert (len (replicate 64 0) = 64) as L64 by reflexivity. slice_fields. do 2 f_equal.
    rewrite zdrop_drop. change (Z.to_nat 192) with 192%nat.
    rewrite !app_assoc, drop_app_length'; [done|]. rewrite !length_app, length_replicate. unfold len in *. lia. }
  assert (len (ranged_binding hook (d_min d) (d_max d)) = 112) as Lr.
  { unfold ranged_binding, len. rewrite !length_app, !length_replicate, !length_le_bytes. cbn [length]. lia. }
  specialize (Hread _ Lr). rewrite <- Hhook in Hread.
  assert (((h ++ replicate 96 0) ++ le_bytes 4 (d_min d)) ++ le_bytes 4 (d_max d) ++ [0; CTX_ABI_VERSION] ++ replicate 70 0 =
    (h ++ replicate 96 0) ++ tail) as -> by (unfold tail; by rewrite <- !app_assoc).
  destruct hook as [|c hk]; intros <-%Ok_inj; rewrite <- Hread; [|done].
  unfold splice. cbn [length app]. by rewrite Nat.add_0_r, take_drop.
Qed.

Lemma read_program_some read path prog : read_program read path = Ok prog -> read path = Some prog.
Proof. unfold read_program. repeat case_match; try done. by intros <-%Ok_inj. Qed.

Lemma unpack_in_range n (b : bytes) off : 0 <= off -> off + Z.of_nat n <= len b -> off <= SSIZE_MAX ->
  exists z, unpack_le n b off = Ok z.
Proof.
  intros H0 H1 H2. unfold unpack_le. destruct (Z.ltb_spec SSIZE_MAX off); [lia|].
  destruct (Z.leb_spec (off + Z.of_nat n) (len b)); [by eexists|lia].
Qed.

(** With every file readable, the delivery finds the signature the loader finds. *)
Lemma read_sig_signed read exists_ env path signed :
  (forall f, exists_ f = true <-> is_Some (read f)) -> env "LS_SIG" = None ->
  read_signature read path None = Ok signed ->
  exists blob, read_sig read exists_ env path = Ok blob /\ len blob = 176 /\
    signed = (ztake BINDING_LEN blob, zdrop BINDING_LEN blob).
Proof.
  intros Hfiles Henv Hsig. unfold read_signature in Hsig. unfold read_sig, open_file. rewrite Henv.
  cbn [default String.eqb List.find]. cbn [first_readable] in Hsig.
  set (c1 := cat [_; ".sig"]) in *. set (c2 := cat [path; ".sig"]) in *. clearbody c1 c2.
  assert (forall f, exists_ f = match read f with Some _ => true | None => false end) as Hex.
  { intros f. pose proof (Hfiles f) as H. destruct (exists_ f), (read f); try done; exfalso.
    - by destruct (proj1 H eq_refl).
    - by discriminate (proj2 H (mk_is_Some _ _ eq_refl)). }
  assert (forall blob, (raise_if (negb (len blob =? BINDING_LEN + SIG_LEN)) (SystemExit "wrong size of a signed blob") ;;
      Ok (ztake BINDING_LEN blob, zdrop BINDING_LEN blob)) = Ok signed ->
    len blob = 176 /\ signed = (ztake BINDING_LEN blob, zdrop BINDING_LEN blob)) as Hblob.
  { intros blob. destruct (Z.eqb_spec (len blob) (BINDING_LEN + SIG_LEN)) as [E|]; [|done].
    intros H. split; [exact E|]. by apply Ok_inj in H. }
  rewrite !Hex. destruct (read c1) as [b1|] eqn:H1.
  - rewrite Hex, H1. exists b1. by destruct (Hblob _ Hsig).
  - destruct (read c2) as [b2|] eqn:H2; [|done]. rewrite Hex, H2. exists b2. by destruct (Hblob _ Hsig).
Qed.

(** C32: delivering a signed program is loading it.  With the signature beside the
    object, a hook named and pods to send to, the script in every pod sends exactly
    the bytes that the loader command's [load] of the same object, slot and mode
    puts on the wire, given that a file that exists can be read; and whatever arguments and environment it is run with, every
    message it sends for a signed program carries the 112 bytes that were signed and
    the 64 of the signature as they are in the file. *)
Theorem delivery_is_load read exists_ env kubectl read_text json_loads json_indent path slot mode hook rest p b
    (Henv : env "LS_SIG" = None) (Hfiles : forall f, exists_ f = true <-> is_Some (read f))
    (Hp : plan_of read read_text json_loads json_indent "load" [slot; path; mode] = Ok p)
    (Hb : msg (p_message p) = Ok b)
    (Hmin : is_ok (env_int env "LS_BUILD_MIN") = true) (Hmax : is_ok (env_int env "LS_BUILD_MAX") = true)
    (Hhook : hook <> "") (Hpods : targets env kubectl <> []) :
  deliver_main read exists_ env kubectl (path :: slot :: mode :: hook :: rest) =
    Ok (map (fun pod => (pod, Ok b)) (targets env kubectl)) /\
  forall env' argv sends pod m sig, deliver_main read exists_ env' kubectl argv = Ok sends -> (pod, Ok m) ∈ sends ->
    read_sig read exists_ env' (List.hd "" argv) = Ok sig -> sig <> [] ->
    slice 16 128 m ++ slice 128 192 m = sig.
Proof.
  split.
  - change (plan_of read read_text json_loads json_indent "load" [slot; path; mode]) with (load_plan read slot path None mode) in Hp.
    unfold load_plan in Hp. unfold deliver_main.
    destruct (to_int slot) as [s|]; [|done]. destruct (to_int mode) as [md|]; [|done].
    destruct (read_program read path) as [prog|] eqn:Hprog; [|done].
    destruct (read_signature read path None) as [signed|] eqn:Hsig; [|done]. apply Ok_inj in Hp. subst p. cbn [plain p_message] in Hb.
    destruct (env_int env "LS_BUILD_MIN") as [bmin|]; [|done]. destruct (env_int env "LS_BUILD_MAX") as [bmax|]; [|done].
    unfold open_file at 1. rewrite (read_program_some _ _ _ Hprog). destruct hook as [|c hk]; [done|].
    assert (exists x l, encode (String c hk) = x :: l) as (x & l & ->) by (by eexists _, _).
    destruct (targets env kubectl) as [|t ts]; [done|].
    apply (read_sig_signed read exists_ env path _ Hfiles Henv) in Hsig as (blob & Hs & Hl & ->). rewrite Hs.
    destruct blob as [|y ys]; [done|]. set (blob := y :: ys) in *.
    destruct (unpack_in_range 4 blob 96) as [? ->]; [lia|lia|unfold SSIZE_MAX; lia|].
    destruct (unpack_in_range 4 blob 100) as [? ->]; [lia|lia|unfold SSIZE_MAX; lia|].
    f_equal. apply List.map_ext. intros pod. f_equal. rewrite <- Hb.
    by apply script_signed.
  - intros env' argv sends pod m sig H Hin Hsig Hne. destruct argv as [|path' [|slot' [|mode' rest']]]; try done.
    cbn [List.hd] in *. unfold deliver_main in H.
    destruct (to_int slot'); [|done]. destruct (to_int mode'); [|done].
    destruct (env_int env' "LS_BUILD_MIN"); [|done]. destruct (env_int env' "LS_BUILD_MAX"); [|done].
    rewrite Hsig in H. destruct (open_file read path') as [prog|]; [|done]. destruct (match rest' with [] => _ | _ => _ end) as [hk|]; [|done].
    destruct (match hk with [] => true | _ => false end); [done|].
    destruct (match targets env' kubectl with [] => true | _ => false end); [done|].
    destruct (match sig with [] => Ok 0 | _ => _ end) as [|]; [|done]. apply Ok_inj in H. subst sends.
    apply list_elem_of_fmap in Hin as (pod' & [= -> Hm] & _). symmetry in Hm. set (d := Delivery _ _ _ _ _ _ _) in Hm.
    assert (d_sig d <> []) as Hd by done. destruct (script_signed d Hd) as [Heq Hlen].
    pose proof (Hlen _ Hm) as Hl. rewrite (Heq Hl) in Hm. apply msg_ok in Hm as [_ Hr]. cbn [m_signed] in Hr.
    unfold read_msg in Hr. injection Hr as _ _ _ _ -> -> _. rewrite ztake_take, zdrop_drop. apply take_drop.
Qed.

Definition demo_pods : string := cat ["f5-tmm-1   5/5   Running   0   3d"; newline; "f5-tmm-2   1/5   Pending   0   1m"; newline].

Definition demo_exists (path : string) : bool := String.eqb path "p.o" || String.eqb path "p.sig".
Definition demo_disk (path : string) : option bytes :=
  if String.eqb path "p.o" then Some demo_elf_prog else if String.eqb path "p.sig" then Some demo_out else None.

Lemma delivery_is_load_witness : exists b,
  msg (Message OP_LOAD 5 1 [] demo_elf_prog None (Some (ztake 112 demo_out, zdrop 112 demo_out))) = Ok b /\
  deliver_main demo_disk demo_exists (fun _ => None) demo_pods ["p.o"; "5"; "1"; "rst_why"] = Ok [("f5-tmm-1", Ok b)].
Proof.
  set (m := Message OP_LOAD 5 1 [] demo_elf_prog None (Some (ztake 112 demo_out, zdrop 112 demo_out))).
  assert (exists b, msg m = Ok b) as (b & Hb) by (vm_compute; by eexists).
  exists b. split; [exact Hb|].
  assert (forall f, demo_exists f = true <-> is_Some (demo_disk f)) as Hfiles.
  { intros f. unfold demo_exists, demo_disk. destruct (String.eqb f "p.o"); [by split|].
    by destruct (String.eqb f "p.sig"); split. }
  destruct (delivery_is_load demo_disk demo_exists (fun _ => None) demo_pods (fun _ _ => Ok "") (fun _ _ => Ok VNone) (fun _ => "")
    "p.o" "5" "1" "rst_why" [] (plain m) b) as [H _]; [reflexivity|exact Hfiles|vm_compute; reflexivity|exact Hb|reflexivity|reflexivity|done|vm_compute; discriminate|].
  rewrite H. reflexivity.
Defined.

(** An unsigned hook longer than its 64 bytes runs into the build range after it:
    the range declared is not the range sent. *)
Definition long_hook : bytes := replicate 70 97.

Lemma long_hook_overwrites : exists b,
  script (Delivery [1] [] 5 1 long_hook 0 0) = Ok b /\ le_int (slice 112 116 b) = 0x61616161.
Proof. vm_compute. by eexists. Qed.
