(* ===== verification/Explore.v ===== *)
(** * The hook explorer (env/scripts/bnk-explore-hooks.py)

    What can be armed in a running build, and the live probe.  [kubectl] and the
    pod behind it are an oracle: what a command prints, or the exception it ends
    in, may depend on everything run before. *)

From S2P Require Import Prelude PyVal Decimal Text Assoc Hex Format Target Loader LoaderSpec HookMap HookIndex Deliver.

(** ** The index *)

Record prow := Prow { x_at : string; x_how : string; x_pad : string; x_disp : string }.

Abbreviation symtab := (list (string * list prow)).

Definition symbol_rows (syms : symtab) (name : string) : list prow := default [] (aget name syms).

Definition add_line (ix : list (string * string) * symtab) (line : list ascii) : list (string * string) * symtab :=
  let '(meta, syms) := ix in
  match line with
  | [] => ix
  | c :: t =>
      if ord c =? 35 then
        match tab_fields t with
        | k :: v :: _ => if String.eqb k "name" then ix else (aset k v meta, syms)
        | _ => ix
        end
      else
        match tab_fields line with
        | name :: at_ :: how :: rest =>
            (meta, aset name (symbol_rows syms name ++
               [Prow at_ how (default "-" (rest !! 0%nat)) (default "0" (rest !! 1%nat))]) syms)
        | _ => ix
        end
  end.

(** [load_index] of what [cat] of the index printed. *)
Definition load_index (returncode : Z) (stdout : string) : result (list (string * string) * symtab) :=
  raise_if (negb (returncode =? 0) || String.eqb stdout "") (SystemExit "could not read the index") ;;
  Ok (fold_left add_line (splitlines stdout) ([], [])).

(** ** [verdict] *)

Definition verdict (entries : list prow) : string * string :=
  match entries with
  | [] => ("NOT ARMABLE",
           "not in the index --- it does not exist in this build, or the optimiser inlined or folded it away, or it lives in a separately built component that never saw the padding flag")
  | _ :: _ :: _ =>
      ("AMBIGUOUS",
       cat [py_str (len entries); " entries under this name --- a file-scope static repeated across translation units, an .isra/.constprop clone, or an assembler label. Arming refuses rather than picking one"])
  | [e] =>
      if String.eqb (x_how e) "pad" then
        ("ARMABLE", cat ["padded at offset "; x_pad e; " --- five reserved nops become a call, and no instruction is displaced"])
      else
        ("NEEDS DISPLACEMENT",
         cat ["no compiler pad. Its first "; x_disp e; " bytes are position-independent, so it COULD be armed by copying them and jumping --- but that path is designed and not built, so arming refuses today"])
  end.

Definition armable (syms : symtab) (name : string) : bool :=
  String.eqb (verdict (symbol_rows syms name)).1 "ARMABLE".

(** ** [cmd_stats], [cmd_search], [cmd_explain], [cmd_suggest]: the lines printed *)

Record stats := Stats { st_total : Z; st_names : Z; st_dup : symtab; st_pad : Z }.

Definition stats_of (syms : symtab) : stats :=
  Stats (foldr (fun kv n => len kv.2 + n) 0 syms) (len syms)
    (List.filter (fun kv => 1 <? len kv.2) syms)
    (foldr (fun kv n => len (List.filter (fun e => String.eqb (x_how e) "pad") kv.2) + n) 0 syms).

Definition cmd_stats (meta : list (string * string)) (syms : symtab) : list string :=
  let s := stats_of syms in
  [cat ["  build id            "; default "?" (aget "build_id" meta)];
   cat ["  index entries       "; commas (st_total s)];
   cat ["  distinct names      "; commas (st_names s)];
   cat ["  ambiguous names     "; commas (len (st_dup s)); "  (covering ";
        commas (foldr (fun kv n => len kv.2 + n) 0 (st_dup s)); " entries)"];
   cat ["  armable via pad     "; commas (st_pad s)];
   cat ["  need displacement   "; commas (st_total s - st_pad s); "  (designed, not built)"]] ++
  match st_dup s with
  | [] => []
  | _ => [cat ["  worst ambiguity     "; String.concat ", "
            (map (fun kv => cat [kv.1; " x"; py_str (len kv.2)])
               (take 3 (sort_by (fun kv => - len kv.2) (st_dup s))))]]
  end.

Definition search_hits (syms : symtab) (pattern : string) : list string :=
  sorted_names (List.filter (str_contains pattern) (keys syms)).

Definition search_row (syms : symtab) (n : string) : string :=
  let es := symbol_rows syms n in
  cat ["    "; ljust 46 (cut 46 n); " "; ljust 19 (verdict es).1; " ";
       match es with [e] => x_at e | _ => "" end].

Definition cmd_explain (syms : symtab) (name : string) : list string :=
  let es := symbol_rows syms name in
  let '(v, why) := verdict es in
  [cat ["  "; name]; cat ["    verdict : "; v]; cat ["    because : "; why]] ++
  (if String.eqb v "ARMABLE" then
     [cat ["    arm at  : "; match es with e :: _ => x_at e | [] => "" end];
      cat ["    command : ls-load.py arm <slot> "; name]; "";
      "    Armable is NOT the same as reachable. Whether it fires depends on whether";
      cat ["    this traffic executes it --- `probe "; name; "` answers that."]]
   else []).

Fixpoint lstrip_underscores (l : list ascii) : list ascii :=
  match l with c :: t => if ord c =? 95 then lstrip_underscores t else l | [] => [] end.

(** The group a name is listed under. *)
Definition group_of (n : string) : string :=
  let stem := lstrip_underscores (str_list n) in
  if existsb (fun c => ord c =? 95) stem
  then list_str (List.hd [] (split_char "_" stem []))
  else match take 6 stem with [] => "?" | p => list_str p end.

Definition suggested (syms : symtab) : list string :=
  omap (fun kv => match kv.2 with
                  | [e] => if String.eqb (x_how e) "pad" then Some kv.1 else None
                  | _ => None
                  end) syms.

Definition groups (syms : symtab) : list (string * list string) :=
  fold_left (fun g n => aset (group_of n) (default [] (aget (group_of n) g) ++ [n]) g) (suggested syms) [].

Definition suggest_limit : nat := 20.

Definition cmd_suggest (syms : symtab) (prefix : string) : list string :=
  match prefix with
  | String _ _ =>
      let names := sorted_names (default [] (aget prefix (groups syms))) in
      cat ["  "; py_str (len names); " armable, unambiguous name(s) with prefix "; py_repr prefix] ::
      map (fun n => cat ["    "; ljust 50 (cut 50 n); " ";
                         match symbol_rows syms n with e :: _ => x_at e | [] => "" end]) (take suggest_limit names) ++
      (if (suggest_limit <? length names)%nat
       then [cat ["    ... and "; py_str (len names - 20); " more"]] else [])
  | EmptyString =>
      "  armable and unambiguous, by name prefix --- largest groups:" ::
      map (fun g => cat ["    "; ljust 12 g.1; " "; rjust 5 (py_str (len g.2)); "   e.g. ";
                         String.concat ", " (take 2 (sorted_names g.2))])
        (take 18 (sort_by (fun g => - len g.2) (groups syms))) ++
      [""; "  Re-run with a prefix to list it, e.g.:  bnk-explore-hooks.py suggest http"]
  end.

(** ** [cmd_probe] *)

(** One command run in a pod by the loader there. *)
Inductive op :=
| Load (slot : Z) (file mode : string)
| Arm (slot : Z) (name : string)
| Status (slot : Z)
| Disarm (name : string).

#[export] Instance op_eq_dec : EqDecision op.
Proof. solve_decision. Defined.

Definition history := (list (string * op)).

Section probe.
(** What the last command of a history printed, or the exception that ended it or
    that reached the explorer before it looked at what was printed. *)
Variable answer : history -> result string.
(** The wait for the operator: a key, the end of input, or an interruption. *)
Variable wait : history -> result unit.

Definition sh (h : history) (p : string) (o : op) : history * result string :=
  let h := h ++ [(p, o)] in (h, answer h).

Definition SLOTS : list Z := [10; 11].

(** What a probed slot is loaded with: a program that watches, in mode 1, which
    is to observe only. *)
Definition watch (slot : Z) : op := Load slot "/usr/share/ls/rst_watch.bpf.o" "1".

(** The inner loop: one name in one slot, over the pods; what is armed so far goes on
    with the exception when there is one. *)
Fixpoint arm_pods (h : history) (armed : list (string * string)) (n : string) (slot : Z) (ps : list string)
    : history * list (string * string) * result unit :=
  match ps with
  | [] => (h, armed, Ok tt)
  | p :: ps =>
      match sh h p (watch slot) with
      | (h, Err e) => (h, armed, Err e)
      | (h, Ok _) =>
          match sh h p (Arm slot n) with
          | (h, Err e) => (h, armed, Err e)
          | (h, Ok out) =>
              arm_pods h (if str_contains "ARMED LIVE" (str_strip out) then armed ++ [(p, n)] else armed) n slot ps
          end
      end
  end.

Fixpoint arm_names (h : history) (armed : list (string * string)) (todo : list (string * Z)) (ps : list string)
    : history * list (string * string) * result unit :=
  match todo with
  | [] => (h, armed, Ok tt)
  | (n, slot) :: todo =>
      match arm_pods h armed n slot ps with
      | (h, armed, Err e) => (h, armed, Err e)
      | (h, armed, Ok _) => arm_names h armed todo ps
      end
  end.

(** [tot += int(tok.split("=")[1])] over the tokens of a status. *)
Fixpoint fired_in (toks : list string) (tot : Z) : result Z :=
  match toks with
  | [] => Ok tot
  | tok :: toks =>
      if starts_with "fired=" tok then
        match py_int (nth 1 (map list_str (split_char "=" (str_list tok) [])) "") with
        | Some k => fired_in toks (tot + k)
        | None => Err (ValueError "invalid literal for int()")
        end
      else fired_in toks tot
  end.

Fixpoint count_pods (h : history) (tot : Z) (slot : Z) (ps : list string) : history * result Z :=
  match ps with
  | [] => (h, Ok tot)
  | p :: ps =>
      match sh h p (Status slot) with
      | (h, Err e) => (h, Err e)
      | (h, Ok out) => match fired_in (str_split out) tot with
                       | Ok tot => count_pods h tot slot ps
                       | Err e => (h, Err e)
                       end
      end
  end.

Fixpoint count_names (h : history) (todo : list (string * Z)) (ps : list string)
    : history * result (list (string * Z)) :=
  match todo with
  | [] => (h, Ok [])
  | (n, slot) :: todo =>
      match count_pods h 0 slot ps with
      | (h, Err e) => (h, Err e)
      | (h, Ok tot) => match count_names h todo ps with
                       | (h, Ok rows) => (h, Ok ((n, tot) :: rows))
                       | (h, Err e) => (h, Err e)
                       end
      end
  end.

(** The [finally] block. *)
Fixpoint disarm (h : history) (armed : list (string * string)) : history * result unit :=
  match armed with
  | [] => (h, Ok tt)
  | (p, n) :: armed =>
      match sh h p (Disarm n) with
      | (h, Err e) => (h, Err e)
      | (h, Ok _) => disarm h armed
      end
  end.

(** The [try] block, with what it armed. *)
Definition probe_body (todo : list (string * Z)) (ps : list string)
    : history * list (string * string) * result (list (string * Z)) :=
  match arm_names [] [] todo ps with
  | (h, armed, Err e) => (h, armed, Err e)
  | (h, armed, Ok _) =>
      match armed with
      | [] => (h, armed, Ok [])
      | _ => match wait h with
             | Err e => (h, armed, Err e)
             | Ok _ => let '(h, r) := count_names h todo ps in (h, armed, r)
             end
      end
  end.

(** The names that will be probed, each with its slot. *)
Definition todo_of (syms : symtab) (names : list string) : list (string * Z) :=
  combine (take (length SLOTS) (List.filter (armable syms) names)) SLOTS.

(** [cmd_probe]: everything that was run, and the counts or what it ended in; an
    exception of the [finally] block takes the place of an earlier one. *)
Definition cmd_probe (syms : symtab) (ps : list string) (names : list string)
    : history * result (list (string * Z)) :=
  match ps with
  | [] => ([], Err (SystemExit "*** no Running pods"))
  | _ =>
      match todo_of syms names with
      | [] => ([], Ok [])
      | todo =>
          let '(h, armed, r) := probe_body todo ps in
          match disarm h armed with
          | (h, Ok _) => (h, r)
          | (h, Err e) => (h, Err e)
          end
      end
  end.

(** ** [main] *)

Definition pods (stdout : string) : list string := running_pods stdout.

Definition pod (env : option string) (stdout : string) : result string :=
  match env with
  | Some (String _ _ as p) => Ok p
  | _ => match pods stdout with
         | p :: _ => Ok p
         | [] => Err (SystemExit "*** no Running f5-tmm pod. Nothing to explore.")
         end
  end.

Inductive outcome :=
| Lines (l : list string)
| Probed (h : history) (r : result (list (string * Z)))
| Usage.

Definition search_lines (syms : symtab) (pattern : string) : list string :=
  let hits := search_hits syms pattern in
  match hits with
  | [] => [cat ["  no name contains "; py_repr pattern]]
  | _ => cat ["  "; py_str (len hits); " name(s) contain "; py_repr pattern;
              if 25 <? len hits then "  (showing 25)" else ""] ::
         map (search_row syms) (take 25 hits)
  end.

(** The command line, given what [kubectl get pods] and [cat] of the index print. *)
Definition explore_main (env : option string) (pods_text : string) (returncode : Z) (index : string)
    (argv : list string) : result (string * outcome) :=
  match argv with
  | [] => Ok ("", Usage)
  | cmd :: rest =>
      let? p := pod env pods_text in
      let? (meta, syms) := load_index returncode index in
      let head := cat ["  pod "; p; ", build "; cut 12 (default "?" (aget "build_id" meta))] in
      Ok (head,
        if String.eqb cmd "stats" then Lines (cmd_stats meta syms) else
        match rest with
        | x :: _ =>
            if String.eqb cmd "search" then Lines (search_lines syms x)
            else if String.eqb cmd "explain" then Lines (cmd_explain syms x)
            else if String.eqb cmd "suggest" then Lines (cmd_suggest syms x)
            else if String.eqb cmd "probe" then
              let '(h, r) := cmd_probe syms (pods pods_text) rest in Probed h r
            else Usage
        | [] => if String.eqb cmd "suggest" then Lines (cmd_suggest syms "") else Usage
        end)
  end.
End probe.

(** ** The probe is contained

    The explorer as a third reader of the index, and the live probe against any
    behaviour of the cluster. *)

(** ** A reader of the index *)

Definition prow_of (e : entry) : prow :=
  Prow (cat ["0x"; hex_int (arm_at e)]) (arm_method e) (pad_text e) (py_str (copy_bytes (e_info e))).

Definition loaded (text : string) : list (string * string) * symtab :=
  match load_index 0 text with Ok ix => ix | Err _ => ([], []) end.

Lemma aget_default_aset name k (rows : list prow) syms :
  symbol_rows (aset k rows syms) name = if decide (name = k) then rows else symbol_rows syms name.
Proof. unfold symbol_rows. rewrite aget_aset. by case_decide. Qed.

Lemma add_line_header ix k v rest : Forall field (String "#" k :: v :: rest) ->
  add_line ix (str_list (tabbed (String "#" k :: v :: rest))) =
  if String.eqb k "name" then ix else (aset k v ix.1, ix.2).
Proof.
  intros H. destruct (header_line k v rest H) as (t & -> & Ht). destruct ix as [meta syms]. unfold add_line.
  change (ord "#" =? 35) with true. cbv iota. by rewrite Ht.
Qed.

Lemma add_line_entry e ix : writable e ->
  add_line ix (str_list (tabbed (entry_fields e))) =
    (ix.1, aset (e_name e) (symbol_rows ix.2 (e_name e) ++ [prow_of e]) ix.2).
Proof.
  intros He. destruct (entry_line e He) as [(c & t & Hl & Hc) Hf]. destruct ix as [meta syms]. unfold add_line.
  rewrite Hl in *. by rewrite Hc, Hf.
Qed.

Lemma add_entries es : Forall writable es -> forall ix name,
  let r := fold_left add_line (map (fun fs => str_list (tabbed fs)) (map entry_fields es)) ix in
  r.1 = ix.1 /\ symbol_rows r.2 name = symbol_rows ix.2 name ++ map prow_of (named name es).
Proof.
  induction 1 as [|e es He _ IH]; intros ix name; [by rewrite app_nil_r|]. cbn [map fold_left]. cbv zeta.
  rewrite add_line_entry by done. destruct (IH (ix.1, aset (e_name e) (symbol_rows ix.2 (e_name e) ++ [prow_of e]) ix.2) name)
    as [-> ->]. split; [done|]. cbn [fst snd]. rewrite aget_default_aset. unfold named. cbn [List.filter].
  destruct (String.eqb_spec (e_name e) name) as [<-|Hn].
  - rewrite decide_True by done. by rewrite <- app_assoc.
  - by rewrite decide_False by congruence.
Qed.

Lemma index_text_nonempty bid tmos es : hook_index_text (Some bid) tmos es <> "".
Proof.
  intros H. apply (f_equal str_list) in H. revert H. unfold hook_index_text, index_lines. rewrite str_list_cat. done.
Qed.

Lemma explorer_reads bid tmos es name : field bid -> field tmos -> Forall writable es ->
  let ix := loaded (hook_index_text (Some bid) tmos es) in
  aget "build_id" ix.1 = Some bid /\ symbol_rows ix.2 name = map prow_of (named name es).
Proof.
  intros Hb Ht Hes. cbv zeta. destruct (index_text_lines bid tmos es Hb Ht Hes) as [Hl _].
  pose proof (index_fields_ok bid tmos es Hb Ht Hes) as Hf. apply Forall_app in Hf as [Hf _].
  unfold header_fields in Hf. rewrite !Forall_cons in Hf. destruct Hf as (H1 & H2 & H3 & H4 & H5 & _).
  unfold loaded, load_index. change (negb (0 =? 0)) with false. cbn [orb].
  destruct (String.eqb_spec (hook_index_text (Some bid) tmos es) "") as [E|_]; [by apply index_text_nonempty in E|].
  rewrite Hl, map_app, fold_left_app.
  destruct (add_entries es Hes (fold_left add_line (map (fun fs => str_list (tabbed fs)) (header_fields bid tmos)) ([], [])) name)
    as [-> ->].
  unfold header_fields. cbn [map fold_left]. rewrite !add_line_header by (rewrite ?Forall_cons; done).
  by cbn.
Qed.

#[export] Instance explorer_reader : IndexReader prow := {|
  id_of text := aget "build_id" (loaded text).1;
  rows_of text name := symbol_rows (loaded text).2 name;
  written := prow_of;
  reads := explorer_reads |}.

Lemma armable_iff syms name : armable syms name = true <->
  exists r, symbol_rows syms name = [r] /\ x_how r = "pad".
Proof.
  unfold armable, verdict. destruct (symbol_rows syms name) as [|r [|r' t]].
  - split; [done|by intros (? & ? & _)].
  - destruct (String.eqb_spec (x_how r) "pad") as [E|E]; split; try done.
    + intros _. by exists r.
    + intros (r' & [= <-] & ?). done.
  - split; [done|by intros (? & ? & _)].
Qed.

(** A name is armable exactly when the map has one entry of it, with a pad. *)
Lemma armable_mapped bid tmos es name : field bid -> field tmos -> Forall writable es ->
  armable (loaded (hook_index_text (Some bid) tmos es)).2 name = true <->
  exists e, named name es = [e] /\ is_Some (e_pad e).
Proof.
  intros Hb Ht Hes. rewrite armable_iff.
  change (symbol_rows (loaded (hook_index_text (Some bid) tmos es)).2 name)
    with (rows_of (row := prow) (hook_index_text (Some bid) tmos es) name). split.
  - intros (r & Hr & Hp). apply (unique_row (row := prow)) in Hr as (e & He & ->); try done. exists e. split; [done|].
    cbn [written explorer_reader prow_of x_how] in Hp. unfold arm_method in Hp. by destruct (e_pad e).
  - intros (e & He & p & Hp). exists (prow_of e). split.
    + apply (unique_row (row := prow)); try done. by exists e.
    + cbn [written explorer_reader x_how prow_of]. unfold arm_method. by rewrite Hp.
Qed.

(** ** The probe *)

Section probe.
Variable answer : history -> result string.
Variable wait : history -> result unit.

Definition live (r : result string) : bool :=
  match r with Ok out => str_contains "ARMED LIVE" (str_strip out) | Err _ => false end.

(** What was armed, by the answers the cluster gave, in a history run after [pre]. *)
Fixpoint armed_in (pre h : history) : list (string * string) :=
  match h with
  | [] => []
  | (p, o) :: t =>
      match o with
      | Arm _ n => if live (answer (pre ++ [(p, o)])) then [(p, n)] else []
      | _ => []
      end ++ armed_in (pre ++ [(p, o)]) t
  end.

Definition disarmed (h : history) : list (string * string) :=
  omap (fun po => match po.2 with Disarm n => Some (po.1, n) | _ => None end) h.

Lemma armed_in_app t1 : forall pre t2, armed_in pre (t1 ++ t2) = armed_in pre t1 ++ armed_in (pre ++ t1) t2.
Proof.
  induction t1 as [|[p o] t1 IH]; intros pre t2; cbn [app armed_in]; [by rewrite app_nil_r|].
  rewrite IH, <- !app_assoc. done.
Qed.

(** The calls a part of the probe makes after the history it is given. *)
Definition calls (ps : list string) (ok : op -> Prop) (t : history) : Prop :=
  Forall (fun po => po.1 ∈ ps /\ ok po.2) t.

Definition arming (todo : list (string * Z)) (o : op) : Prop :=
  exists n slot, (n, slot) ∈ todo /\ (o = watch slot \/ o = Arm slot n).

Lemma calls_app ps ok t1 t2 : calls ps ok t1 -> calls ps ok t2 -> calls ps ok (t1 ++ t2).
Proof. intros. by apply Forall_app. Qed.

Lemma calls_impl ps ps' (ok ok' : op -> Prop) t : ps ⊆ ps' -> (forall o, ok o -> ok' o) -> calls ps ok t -> calls ps' ok' t.
Proof.
  intros Hp Ho H. eapply Forall_impl; [exact H|]. intros [p o] [H1 H2]. split; [by apply Hp|by apply Ho].
Qed.

Lemma arm_pods_calls n slot ps : forall h armed h' armed' r, arm_pods answer h armed n slot ps = (h', armed', r) ->
  exists t, h' = h ++ t /\ armed' = armed ++ armed_in h t /\ calls ps (arming [(n, slot)]) t.
Proof.
  assert (forall o, o = watch slot \/ o = Arm slot n -> arming [(n, slot)] o) as Hok
    by (intros o Ho; exists n, slot; split; [by left|done]).
  induction ps as [|p ps IH]; intros h armed h' armed' r; cbn [arm_pods].
  { intros [= <- <- <-]. exists []. rewrite !app_nil_r. by split_and!; [..|constructor]. }
  unfold sh. set (h1 := h ++ [(p, watch slot)]). set (h2 := h1 ++ [(p, Arm slot n)]).
  assert (calls (p :: ps) (arming [(n, slot)]) [(p, watch slot)]) as C1.
  { constructor; [|constructor]. split; [by left|]. apply Hok. by left. }
  assert (calls (p :: ps) (arming [(n, slot)]) [(p, watch slot); (p, Arm slot n)]) as C2.
  { constructor; [|constructor; [|constructor]]; (split; [by left|]); apply Hok; [by left|by right]. }
  destruct (answer h1) as [out1|e1].
  2:{ intros [= <- <- <-]. exists [(p, watch slot)]. split; [done|]. cbn [armed_in app]. by rewrite app_nil_r. }
  destruct (answer h2) as [out2|e2] eqn:E2.
  2:{ intros [= <- <- <-]. exists [(p, watch slot); (p, Arm slot n)].
      unfold h2, h1 in *. rewrite <- app_assoc. split; [done|]. split; [|done]. cbn [armed_in app].
      rewrite E2. cbn [live app]. by rewrite app_nil_r. }
  intros H. apply IH in H as (t & -> & -> & Ht). exists ((p, watch slot) :: (p, Arm slot n) :: t).
  unfold h2, h1 in *. rewrite <- !app_assoc. split; [done|]. split.
  - cbn [armed_in app]. rewrite E2. cbn [live]. rewrite <- !app_assoc.
    destruct (str_contains _ _); cbn [app]; by rewrite <- ?app_assoc.
  - apply (calls_app _ _ [(p, watch slot); (p, Arm slot n)]); [done|].
    eapply calls_impl; [| |exact Ht]; [set_solver|done].
Qed.

Lemma arm_names_calls todo ps : forall h armed h' armed' r, arm_names answer h armed todo ps = (h', armed', r) ->
  exists t, h' = h ++ t /\ armed' = armed ++ armed_in h t /\ calls ps (arming todo) t.
Proof.
  induction todo as [|[n slot] todo IH]; intros h armed h' armed' r; cbn [arm_names].
  { intros [= <- <- <-]. exists []. rewrite !app_nil_r. by split_and!; [..|constructor]. }
  destruct (arm_pods answer h armed n slot ps) as [[h1 armed1] r1] eqn:E.
  apply arm_pods_calls in E as (t1 & -> & -> & C1).
  assert (calls ps (arming ((n, slot) :: todo)) t1) as C1'.
  { eapply calls_impl; [done| |exact C1]. intros o (n' & s' & Hin & Ho). exists n', s'. split; [set_solver|done]. }
  destruct r1 as [[]|e].
  - intros H. apply IH in H as (t2 & -> & -> & C2). exists (t1 ++ t2).
    rewrite <- !app_assoc, armed_in_app. split_and!; [done|done|]. apply calls_app; [done|].
    eapply calls_impl; [done| |exact C2]. intros o (n' & s' & Hin & Ho). exists n', s'. split; [set_solver|done].
  - intros [= <- <- <-]. by exists t1.
Qed.

Definition counting (todo : list (string * Z)) (o : op) : Prop := exists slot, slot ∈ map snd todo /\ o = Status slot.

Lemma count_pods_calls slot ps : forall h tot h' r, count_pods answer h tot slot ps = (h', r) ->
  exists t, h' = h ++ t /\ calls ps (fun o => o = Status slot) t.
Proof.
  induction ps as [|p ps IH]; intros h tot h' r; cbn [count_pods].
  { intros [= <- <-]. exists []. rewrite app_nil_r. by split; [|constructor]. }
  unfold sh. assert (calls (p :: ps) (fun o => o = Status slot) [(p, Status slot)]) as C1.
  { constructor; [|constructor]. by split; [left|]. }
  destruct (answer _) as [out|e]; [|intros [= <- <-]; by exists [(p, Status slot)]].
  destruct (fired_in _ tot) as [tot'|e]; [|intros [= <- <-]; by exists [(p, Status slot)]].
  intros H. apply IH in H as (t & -> & Ht). exists ((p, Status slot) :: t). rewrite <- app_assoc. split; [done|].
  apply (calls_app _ _ [(p, Status slot)]); [done|]. eapply calls_impl; [| |exact Ht]; [set_solver|done].
Qed.

Lemma count_names_calls todo ps : forall h h' r, count_names answer h todo ps = (h', r) ->
  exists t, h' = h ++ t /\ calls ps (counting todo) t.
Proof.
  induction todo as [|[n slot] todo IH]; intros h h' r; cbn [count_names].
  { intros [= <- <-]. exists []. rewrite app_nil_r. by split; [|constructor]. }
  destruct (count_pods answer h 0 slot ps) as [h1 r1] eqn:E. apply count_pods_calls in E as (t1 & -> & C1).
  assert (calls ps (counting ((n, slot) :: todo)) t1) as C1'.
  { eapply calls_impl; [done| |exact C1]. intros o ->. exists slot. split; [by left|done]. }
  destruct r1 as [tot|e]; [|intros [= <- <-]; by exists t1].
  destruct (count_names answer (h ++ t1) todo ps) as [h2 r2] eqn:E2. apply IH in E2 as (t2 & -> & C2).
  assert (calls ps (counting ((n, slot) :: todo)) t2) as C2'.
  { eapply calls_impl; [done| |exact C2]. intros o (s & Hs & ->). exists s. split; [by right|done]. }
  intros H. assert (h' = (h ++ t1) ++ t2) as -> by (destruct r2; by simplify_eq).
  exists (t1 ++ t2). rewrite <- app_assoc. split; [done|by apply calls_app].
Qed.

(** The [finally] block disarms in order, all of it unless a disarm itself fails. *)
Lemma disarm_calls armed : forall h h' r, disarm answer h armed = (h', r) ->
  exists done, h' = h ++ map (fun pn => (pn.1, Disarm pn.2)) done /\ done `prefix_of` armed /\
    match r with Ok _ => done = armed | Err e => answer h' = Err e end.
Proof.
  induction armed as [|[p n] armed IH]; intros h h' r; cbn [disarm].
  { intros [= <- <-]. exists []. by rewrite app_nil_r. }
  unfold sh. destruct (answer _) as [out|e] eqn:E.
  - intros H. apply IH in H as (done & -> & Hp & Hr). exists ((p, n) :: done). rewrite <- app_assoc in *.
    split; [done|]. split; [by apply prefix_cons|]. destruct r; [by rewrite Hr|done].
  - intros [= <- <-]. exists [(p, n)]. split; [done|]. split; [|done]. by apply prefix_cons, prefix_nil.
Qed.

Lemma disarmed_app t1 t2 : disarmed (t1 ++ t2) = disarmed t1 ++ disarmed t2.
Proof. unfold disarmed. apply omap_app. Qed.

Lemma disarmed_map done : disarmed (map (fun pn => (pn.1, Disarm pn.2)) done) = done.
Proof. unfold disarmed. induction done as [|[p n] done IH]; [done|]. cbn. by rewrite <- IH at 2. Qed.

Lemma armed_map pre done : armed_in pre (map (fun pn => (pn.1, Disarm pn.2)) done) = [].
Proof. revert pre. induction done as [|[p n] done IH]; intros pre; [done|]. cbn [map armed_in app fst snd]. apply IH. Qed.

Lemma calls_none ps ok t pre : calls ps ok t -> (forall o, ok o -> exists s, o = Status s) ->
  armed_in pre t = [] /\ disarmed t = [].
Proof.
  intros H Hok. revert pre. induction H as [|[p o] t [_ Ho] _ IH]; intros pre; [done|]. cbn [fst snd] in Ho.
  destruct (Hok o Ho) as (s & ->). cbn. apply (IH (pre ++ [(p, Status s)])).
Qed.

Lemma arming_disarmed ps todo t : calls ps (arming todo) t -> disarmed t = [].
Proof.
  induction 1 as [|[p o] t [_ Ho] _ IH]; [done|]. destruct Ho as (n & s & _ & [E|E]); cbn [snd] in E; subst o; exact IH.
Qed.

Lemma probe_body_calls todo ps h armed r : probe_body answer wait todo ps = (h, armed, r) ->
  armed = armed_in [] h /\ disarmed h = [] /\ calls ps (fun o => arming todo o \/ counting todo o) h.
Proof.
  unfold probe_body. destruct (arm_names answer [] [] todo ps) as [[h1 armed1] r1] eqn:E.
  apply arm_names_calls in E as (t & -> & -> & C). cbn [app] in *.
  pose proof (arming_disarmed _ _ _ C) as Hd.
  assert (calls ps (fun o => arming todo o \/ counting todo o) t) as C'.
  { eapply calls_impl; [done| |exact C]. by left. }
  destruct r1 as [u|e]; [|by intros [= <- <- <-]].
  destruct (armed_in [] t) as [|a l] eqn:Ea; [by intros [= <- <- <-]|].
  destruct (wait t) as [|e]; [|by intros [= <- <- <-]].
  destruct (count_names answer t todo ps) as [h2 r2] eqn:E2. apply count_names_calls in E2 as (t2 & -> & C2).
  intros [= <- <- <-].
  destruct (calls_none ps (counting todo) t2 ([] ++ t) C2) as [Ha2 Hd2]; [by intros o (s & _ & ->); exists s|].
  rewrite armed_in_app, Ha2, app_nil_r, disarmed_app, Hd, Hd2. split_and!; [done|done|]. apply calls_app; [done|].
  eapply calls_impl; [done| |exact C2]. by right.
Qed.

Definition contained (syms : symtab) (ps names : list string) (h : history) (po : string * op) : Prop :=
  po.1 ∈ ps /\
  match po.2 with
  | Load slot file mode => slot ∈ SLOTS /\ po.2 = watch slot
  | Status slot => slot ∈ SLOTS
  | Arm slot n => slot ∈ SLOTS /\ n ∈ names /\ armable syms n = true
  | Disarm n => (po.1, n) ∈ armed_in [] h
  end.

Lemma todo_in syms names n slot : (n, slot) ∈ todo_of syms names -> slot ∈ SLOTS /\ n ∈ names /\ armable syms n = true.
Proof.
  unfold todo_of. intros H%list_elem_of_In.
  pose proof (in_combine_l _ _ _ _ H) as Hn. pose proof (in_combine_r _ _ _ _ H) as Hs.
  apply list_elem_of_In in Hn, Hs. split; [done|]. apply elem_of_take in Hn as (i & Hi & _).
  apply list_elem_of_lookup_2, list_elem_of_In, filter_In in Hi as [Hi Ha]. by apply list_elem_of_In in Hi.
Qed.

Lemma cmd_probe_contained syms ps names h r : cmd_probe answer wait syms ps names = (h, r) ->
  Forall (contained syms ps names h) h /\
  (disarmed h = armed_in [] h \/ exists e, r = Err e /\ answer h = Err e /\ disarmed h `prefix_of` armed_in [] h).
Proof.
  unfold cmd_probe. destruct ps as [|p0 ps]; [intros [= <- <-]; split; [constructor|by left]|].
  destruct (todo_of syms names) as [|tn tl] eqn:Et; [intros [= <- <-]; split; [constructor|by left]|].
  rewrite <- Et. clear Et tn tl. destruct (probe_body answer wait _ _) as [[h1 armed] r1] eqn:Hb.
  apply probe_body_calls in Hb as (-> & Hd & C).
  destruct (disarm answer h1 (armed_in [] h1)) as [h2 r2] eqn:Hf.
  apply disarm_calls in Hf as (done & -> & Hpre & Hr2).
  assert (armed_in [] (h1 ++ map (fun pn => (pn.1, Disarm pn.2)) done) = armed_in [] h1) as Ha
    by (rewrite armed_in_app, armed_map; apply app_nil_r).
  assert (disarmed (h1 ++ map (fun pn => (pn.1, Disarm pn.2)) done) = done) as Hdd
    by (by rewrite disarmed_app, Hd, disarmed_map).
  assert (Forall (contained syms (p0 :: ps) names (h1 ++ map (fun pn => (pn.1, Disarm pn.2)) done))
    (h1 ++ map (fun pn => (pn.1, Disarm pn.2)) done)) as HC.
  { apply Forall_app. split.
    - eapply Forall_impl; [exact C|]. intros [p o]. cbn [fst snd].
      intros [Hp [(n & s & Hin & Ho)|(s & Hs & ->)]]; (split; [done|]); cbn [snd].
      + apply todo_in in Hin as (H1 & H2 & H3). by destruct Ho as [-> | ->].
      + apply list_elem_of_fmap in Hs as ([n s'] & -> & Hin). by apply todo_in in Hin as (H1 & _).
    - apply Forall_map, Forall_forall. intros [p n] Hin. unfold contained. rewrite Ha.
      assert ((p, n) ∈ armed_in [] h1) as Hin' by (destruct Hpre as (k & ->); set_solver). cbn. split; [|done].
      clear -Hin' C. revert Hin'. generalize (@nil (string * op)). induction C as [|[q o] t [Hq _] _ IH]; intros pre; cbn [armed_in].
      { by intros ?%not_elem_of_nil. }
      intros [H|H]%elem_of_app; [|by eapply IH]. destruct o; try (by apply not_elem_of_nil in H).
      destruct (live _); [|by apply not_elem_of_nil in H]. by apply list_elem_of_singleton in H as [= -> ->]. }
  destruct r2 as [u|e]; intros [= <- <-]; (split; [exact HC|]); rewrite Ha, Hdd.
  - by left.
  - right. by exists e.
Qed.
End probe.

(** C33: a live probe is contained.  Whatever the cluster answers and wherever it
    fails or is interrupted, the explorer, working from an index written out of a
    map, touches only the pods it was given and only its own two slots, which it
    loads with the watching program in mode 1; it arms only names it was asked for
    of which the map has exactly one entry, with a pad; and for every arm command
    whose answer it saw and which says that the hook is live, and for no other, it
    runs a disarm command, in the order they were armed, unless a disarm command
    itself ended in an exception, which is then what the probe ends in.  The answer
    of a disarm is not looked at, and an arm command that ended in an exception is
    not disarmed: [interrupted_arm_left] and [disarm_unseen]. *)
Theorem probe_is_contained bid tmos es answer wait ps names :
  field bid -> field tmos -> Forall writable es ->
  let syms := (loaded (hook_index_text (Some bid) tmos es)).2 in
  let '(h, r) := cmd_probe answer wait syms ps names in
  Forall (contained answer syms ps names h) h /\
  (forall p slot n, (p, Arm slot n) ∈ h -> exists e, named n es = [e] /\ is_Some (e_pad e)) /\
  (disarmed h = armed_in answer [] h \/
   exists e, r = Err e /\ answer h = Err e /\ disarmed h `prefix_of` armed_in answer [] h).
Proof.
  intros Hb Ht Hes syms. destruct (cmd_probe answer wait syms ps names) as [h r] eqn:E.
  apply cmd_probe_contained in E as [HC Hd]. split_and!; [done| |done].
  intros p slot n Hin. rewrite Forall_forall in HC. destruct (HC _ Hin) as (_ & _ & _ & Ha). cbn [snd] in Ha.
  by apply armable_mapped in Ha.
Qed.

Definition demo_entries : list entry :=
  [Entry "http_parse" 0x401000 (Some 4) (Info 0 None); Entry "tcp_push" 0x402000 None (Info 7 None)].

(** One pod arms, the other is interrupted. *)
Definition demo_answer (h : history) : result string :=
  match last h with
  | Some ("tmm-1", Arm _ _)%string => Ok "ARMED LIVE http_parse at slot 10"
  | Some ("tmm-2", Arm _ _)%string => Err (RuntimeError "interrupted")
  | _ => Ok "ok"
  end.

Lemma probe_is_contained_witness :
  let syms := (loaded (hook_index_text (Some "c3b8") "21.0" demo_entries)).2 in
  let hr := cmd_probe demo_answer (fun _ => Ok tt) syms ["tmm-1"; "tmm-2"] ["tcp_push"; "http_parse"] in
  hr.1 = [("tmm-1", watch 10); ("tmm-1", Arm 10 "http_parse"); ("tmm-2", watch 10); ("tmm-2", Arm 10 "http_parse");
          ("tmm-1", Disarm "http_parse")] /\
  hr.2 = Err (RuntimeError "interrupted") /\
  Forall (contained demo_answer syms ["tmm-1"; "tmm-2"] ["tcp_push"; "http_parse"] hr.1) hr.1.
Proof.
  cbv zeta.
  assert (Forall writable demo_entries) as Hes.
  { constructor; [|constructor; [|constructor]]; constructor; cbn; try lia; (split; [by apply literal_field|done]) || auto.
    all: unfold arm_at; cbn; lia. }
  pose proof (probe_is_contained "c3b8" "21.0" demo_entries demo_answer (fun _ => Ok tt)
    ["tmm-1"; "tmm-2"] ["tcp_push"; "http_parse"]
    (literal_field "c3b8" eq_refl) (literal_field "21.0" eq_refl) Hes) as H.
  cbv zeta in H. destruct (cmd_probe _ _ _ _ _) as [h r] eqn:E. destruct H as [H _]. cbn [fst snd].
  assert ((h, r) = ([("tmm-1"%string, watch 10); ("tmm-1"%string, Arm 10 "http_parse"); ("tmm-2"%string, watch 10);
    ("tmm-2"%string, Arm 10 "http_parse"); ("tmm-1"%string, Disarm "http_parse")], Err (RuntimeError "interrupted"))) as Hr.
  { rewrite <- E. vm_compute. reflexivity. }
  injection Hr as -> ->. by split_and!.
Defined.

(** ** What the probe leaves

    The arm that is interrupted on the second pod may have patched it: no disarm
    is sent there. *)
Lemma interrupted_arm_left :
  let syms := (loaded (hook_index_text (Some "c3b8") "21.0" demo_entries)).2 in
  let hr := cmd_probe demo_answer (fun _ => Ok tt) syms ["tmm-1"; "tmm-2"] ["http_parse"] in
  ("tmm-2", Arm 10 "http_parse") ∈ hr.1 /\ ("tmm-2", Disarm "http_parse") ∉ hr.1.
Proof. split; apply (bool_decide_unpack _); vm_compute; exact I. Qed.

(** Every hook arms, and no disarm takes effect. *)
Definition stuck_answer (h : history) : result string :=
  match last h with
  | Some (_, Arm _ _) => Ok "ARMED LIVE"
  | Some (_, Disarm _) => Ok "DISARM REFUSED"
  | _ => Ok "ok"
  end.

Lemma disarm_unseen :
  let syms := (loaded (hook_index_text (Some "c3b8") "21.0" demo_entries)).2 in
  (cmd_probe stuck_answer (fun _ => Ok tt) syms ["tmm-1"] ["http_parse"]).2 = Ok [("http_parse", 0)].
Proof. vm_compute. reflexivity. Qed.
