(* ===== verification/Icap.v ===== *)
(** * The inspection fixture (env/ai-traffic/icap_gate.py)

    The ICAP inspector of one case: it reads a whole previewed response from a
    stream, and only then issues the verdict of its mode; and the checks made of
    what each side observed.  A stream is the bytes that arrive before its end.
    Parameters: the digest, and the monotonic clock at each event. *)

From S2P Require Import Prelude PyVal Decimal Text Assoc Hex Authority Target.

Definition PREVIEW_BYTES : Z := 4096.
Definition TIMEOUT_MS : Z := 3000.
Definition DENIAL : bytes := encode "inspection denied" ++ [10].
Definition CRLF : bytes := [13; 10].

(** ** [asyncio.StreamReader] *)

(** [readuntil(sep)]: what was read and what is left. *)
Definition read_until (sep b : bytes) : result (bytes * bytes) :=
  let i := py_find sep b 0 in
  if i <? 0 then (if STREAM_LIMIT <? len b + 1 - len sep then Err LimitOverrunError else Err EOFError)
  else if STREAM_LIMIT <? i then Err LimitOverrunError
  else Ok (ztake (i + len sep) b, zdrop (i + len sep) b).

(** [readexactly(n)]. *)
Definition read_exactly (n : Z) (b : bytes) : result (bytes * bytes) :=
  if len b <? n then Err EOFError else Ok (ztake n b, zdrop n b).

(** ** [bytes] *)

Definition btext (b : bytes) : string := decode_ascii b.
Definition blower (b : bytes) : bytes := encode (lower (btext b)).
Definition bstrip (b : bytes) : bytes := encode (list_str (strip (str_list (btext b)))).

(** [b.split(sep)] of one byte, and [b.split(sep, 1)]. *)
Fixpoint bsplit_from (c : Z) (b word : bytes) : list bytes :=
  match b with
  | [] => [word]
  | x :: t => if x =? c then word :: bsplit_from c t [] else bsplit_from c t (word ++ [x])
  end.
Definition bsplit (c : Z) (b : bytes) : list bytes := bsplit_from c b [].
Fixpoint bsplit1 (c : Z) (b : bytes) : bytes * option bytes :=
  match b with
  | [] => ([], None)
  | x :: t => if x =? c then ([], Some t) else let '(h, r) := bsplit1 c t in (x :: h, r)
  end.

(** [b.split(b"\r\n")]. *)
Fixpoint bsplit_crlf (b word : bytes) : list bytes :=
  match b with
  | [] => [word]
  | x :: t =>
      match t with
      | y :: t' => if (x =? 13) && (y =? 10) then word :: bsplit_crlf t' []
                   else bsplit_crlf t (word ++ [x])
      | [] => [word ++ [x]]
      end
  end.

Definition contains (sub b : bytes) : bool := 0 <=? py_find sub b 0.

(** ** [http_response] *)

Definition http_response (status : string) (body : bytes) : bytes :=
  encode (cat ["HTTP/1.1 "; status; list_str (map chr CRLF); "Connection: close"; list_str (map chr CRLF);
               "Content-Length: "; py_str (len body); list_str (map chr CRLF); list_str (map chr CRLF)]) ++ body.

(** ** [Case.inspect] *)

Record case := Case { mode : string; canary : bytes; c_body : bytes }.

Definition new_case (mode run_id : string) : case :=
  let canary := encode (cat ["DLP_CANARY_"; run_id]) in
  Case mode canary (encode "prefix" ++ [10] ++ canary ++ [10] ++ encode "suffix" ++ [10]).

(** [dict(line.split(b":", 1) for line in ...)], then keys lowered and values stripped. *)
Fixpoint header_pairs (lines : list bytes) (d : list (bytes * bytes)) : result (list (bytes * bytes)) :=
  match lines with
  | [] => Ok d
  | line :: lines => match bsplit1 58 line with
                     | (k, Some v) => header_pairs lines (aset k v d)
                     | (_, None) => Err (ValueError "dictionary update sequence element has length 1; 2 is required")
                     end
  end.

Definition header_fields (headers : bytes) : result (list (bytes * bytes)) :=
  let? d := header_pairs (pyslice 1 (-2) (bsplit_crlf headers [])) [] in
  Ok (fold_left (fun m kv => aset (blower kv.1) (bstrip kv.2) m) d []).

Definition bitem (k : string) (d : list (bytes * bytes)) : result bytes :=
  match aget (encode k) d with Some v => Ok v | None => Err (KeyError k) end.

Definition to_int (b : bytes) : result Z :=
  match py_int (btext b) with Some z => Ok z | None => Err (ValueError "invalid literal for int()") end.

(** [dict(item.strip().split(b"=") for item in ...)]. *)
Fixpoint offset_pairs (items : list bytes) (d : list (bytes * bytes)) : result (list (bytes * bytes)) :=
  match items with
  | [] => Ok d
  | item :: items => match bsplit 61 (bstrip item) with
                     | [k; v] => offset_pairs items (aset k v d)
                     | _ => Err (ValueError "dictionary update sequence element length")
                     end
  end.

Definition assert {A} (b : bool) (k : result A) : result A := if b then k else Err AssertionError.

(** [int(line.split(b";", 1)[0], 16)]. *)
Definition chunk_size (line : bytes) : option Z := py_int16 (btext (bsplit1 59 line).1).

(** The loop over the chunks of the preview: the body, and the bytes left. *)
Fixpoint read_chunks (fuel : nat) (b body : bytes) : result (bytes * bytes) :=
  match fuel with
  | O => Err OutOfFuel
  | S fuel =>
      let? (line, b) := read_until CRLF b in
      match chunk_size line with
      | None => Err (ValueError "invalid literal for int()")
      | Some length =>
          assert ((0 <=? length) && (length <=? PREVIEW_BYTES - len body)) (
          if length =? 0 then
            let? (tail, b) := read_exactly 2 b in
            assert (bytes_eqb tail CRLF) (
            assert (contains (encode "ieof") (blower line)) (Ok (body, b)))
          else
            let? (data, b) := read_exactly length b in
            let? (tail, b) := read_exactly 2 b in
            assert (bytes_eqb tail CRLF) (read_chunks fuel b (body ++ data)))
      end
  end.

Definition OPTIONS_REPLY : bytes :=
  encode "ICAP/1.0 200 OK" ++ CRLF ++ encode "ISTag: " ++ [34] ++ encode "eob-dlp-1" ++ [34] ++ CRLF ++
  encode "Methods: RESPMOD" ++ CRLF ++ encode "Preview: 4096" ++ CRLF ++ encode "Allow: 204" ++ CRLF ++
  encode "Encapsulated: null-body=0" ++ CRLF ++ CRLF.

Definition istag : bytes := encode "ISTag: " ++ [34] ++ encode "eob-dlp-1" ++ [34].

Definition ALLOWED : bytes := encode "ICAP/1.0 204 No Content" ++ CRLF ++ istag ++ CRLF ++ CRLF.

(** The body of the denial as one chunk and the last one. *)
Definition one_chunk (body : bytes) : bytes :=
  encode (hex_int (len body)) ++ CRLF ++ body ++ CRLF ++ [48] ++ CRLF ++ CRLF.

Definition DENIED : bytes :=
  let http := http_response "403 Forbidden" DENIAL in
  let offset := py_find CRLF2 http 0 + 4 in
  encode "ICAP/1.0 200 OK" ++ CRLF ++ istag ++ CRLF ++
  encode "Encapsulated: res-hdr=0, res-body=" ++ encode (py_str offset) ++ CRLF ++ CRLF ++
  ztake offset http ++ one_chunk DENIAL.

Section inspect.
Variable sha256 : bytes -> string.
Variable clock : nat -> Z.

(** [Case.event], on the events so far. *)
Definition event (events : list dict) (kind : string) (fields : dict) : list dict :=
  events ++ [update fields [("kind", VStr kind); ("monotonic_ns", VInt (clock (length events)))]].

(** The header section, the encapsulated headers and the body of a request. *)
Definition read_request (headers b : bytes) : result (list (bytes * bytes) * bytes * bytes) :=
  assert (is_prefix (encode "RESPMOD ") headers) (
  let? fields := header_fields headers in
  let? value := bitem "encapsulated" fields in
  let? offsets := offset_pairs (bsplit 44 value) [] in
  let? at_ := bitem "res-body" offsets in
  let? offset := to_int at_ in
  assert ((0 <=? offset) && (offset <=? PREVIEW_BYTES)) (
  let? (encapsulated, b) := read_exactly offset b in
  Ok (fields, encapsulated, b))).

(** The verdict of the mode: nothing when the case is to time out. *)
Definition verdict (c : case) (fields : list (bytes * bytes)) : result (option bytes) :=
  if String.eqb (mode c) "timeout" then Ok None
  else if String.eqb (mode c) "allow" then
    let? p := bitem "preview" fields in
    let? n := to_int p in
    assert (n =? PREVIEW_BYTES) (Ok (Some ALLOWED))
  else Ok (Some DENIED).

(** [inspect]: the events, what is written, and how it ends. *)
Definition inspect (c : case) (events : list dict) (b : bytes) : list dict * bytes * result unit :=
  match read_until CRLF2 b with
  | Err e => (events, [], Err e)
  | Ok (headers, b) =>
      let events := event events "icap_headers" [("headers_hex", VStr (hex headers))] in
      if is_prefix (encode "OPTIONS ") headers then (events, OPTIONS_REPLY, Ok tt) else
      match read_request headers b with
      | Err e => (events, [], Err e)
      | Ok (fields, encapsulated, b) =>
          let events := event events "encapsulated_headers" [("headers_hex", VStr (hex encapsulated))] in
          match read_chunks (S (length b)) b [] with
          | Err e => (events, [], Err e)
          | Ok (body, _) =>
              if negb (bytes_eqb body (c_body c)) then (events, [], Err AssertionError) else
              let events := event events "inspection_pending"
                [("bytes", VInt (len body)); ("sha256", VStr (sha256 body))] in
              match verdict c fields with
              | Err e => (events, [], Err e)
              | Ok None => (events, [], Ok tt)
              | Ok (Some response) =>
                  (event events "verdict_write" [("verdict", VStr (mode c))], response, Ok tt)
              end
          end
      end
  end.

(** [inspector]: the exceptions it records as errors of the case; the time limit of
    eight seconds is not modelled. *)
Definition inspector (c : case) (events : list dict) (b : bytes) : list dict * bytes * list exn * result unit :=
  let '(events, out, r) := inspect c events b in
  match r with
  | Err (ValueError _ as e) | Err (AssertionError as e) | Err (OSError _ as e) => (events, out, [e], Ok tt)
  | _ => (events, out, [], r)
  end.

(** ** [Case.origin] and [Case.receive] *)

Definition origin (c : case) (events : list dict) (b : bytes) : list dict * list bytes * result unit :=
  match read_until CRLF2 b with
  | Err e => (events, [], Err e)
  | Ok (request, _) =>
      let events := event events "origin_request" [("request_hex", VStr (hex request))] in
      let http := http_response "200 OK" (c_body c) in
      let parts := [encode "prefix" ++ [10]; canary c; [10] ++ encode "suffix" ++ [10]] in
      (fold_left (fun evs part => event evs "origin_body" [("length", VInt (len part))]) parts events,
       (ztake (py_find CRLF2 http 0) http ++ CRLF2) :: parts, Ok tt)
  end.

(** The loop of [receive].  The reads of the client: data, the end as an empty read,
    or an error of the socket, by its [repr]. *)
Fixpoint read_reply (reads : list (result bytes)) (events : list dict) (response : bytes)
    : list dict * bytes * result unit :=
  match reads with
  | [] => (events, response, Ok tt)
  | Err (OSError m) :: _ => (event events "client_error" [("error", VStr m)], response, Ok tt)
  | Err e :: _ => (events, response, Err e)
  | Ok data :: reads =>
      let events := event events "client_read" [("data_hex", VStr (hex data))] in
      match data with
      | [] => (events, response, Ok tt)
      | _ => let response := response ++ data in
             if 65536 <? len response then (events, response, Err AssertionError)
             else read_reply reads events response
      end
  end.

(** A connection that is refused ends the case before its [try]. *)
Definition receive (connect : result unit) (reads : list (result bytes)) (events : list dict)
    : list dict * bytes * result unit :=
  let events := event events "client_start" [] in
  match connect with
  | Err e => (events, [], Err e)
  | Ok _ => read_reply reads events []
  end.
End inspect.

(** ** [Case.verify] *)

Definition is_kind (kind : string) (e : dict) : bool := val_eqb (getv "kind" e) (VStr kind).

Fixpoint first_time (kind : string) (events : list dict) : result Z :=
  match events with
  | [] => Err StopIteration
  | e :: t => if is_kind kind e then Ok (iget "monotonic_ns" e) else first_time kind t
  end.

(** What the client had read when the verdict was written. *)
Fixpoint early_reads (verdict_ns : Z) (events : list dict) : result bytes :=
  match events with
  | [] => Ok []
  | e :: t =>
      if is_kind "client_read" e && (iget "monotonic_ns" e <? verdict_ns) then
        let? data := fromhex (sget "data_hex" e) in
        let? rest := early_reads verdict_ns t in
        Ok (data ++ rest)
      else early_reads verdict_ns t
  end.

(** [b.partition(sep)[2]]. *)
Definition after_sep (sep b : bytes) : bytes :=
  let i := py_find sep b 0 in if i <? 0 then [] else zdrop (i + len sep) b.

Definition is_nil {A} (l : list A) : bool := match l with [] => true | _ => false end.

(** [elapsed >= TIMEOUT_MS / 1000 - 0.25] on the difference in nanoseconds. *)
Definition waited (events : list dict) : bool :=
  TIMEOUT_MS * 1000000 - 250000000 <=?
    iget "monotonic_ns" (List.last events []) - iget "monotonic_ns" (List.hd [] events).

Definition verify (c : case) (errors : list exn) (events : list dict) (response : bytes) : result unit :=
  assert (is_nil errors) (
  assert (length (List.filter (is_kind "inspection_pending") events) =? 1)%nat (
  if String.eqb (mode c) "allow" then
    let? verdict_ns := first_time "verdict_write" events in
    let? early := early_reads verdict_ns events in
    assert (is_nil (after_sep CRLF2 early)) (
    assert (bytes_eqb response (http_response "200 OK" (c_body c))) (Ok tt))
  else if String.eqb (mode c) "deny" then
    assert (negb (contains (canary c) response)) (
    assert (bytes_eqb response (http_response "403 Forbidden" DENIAL)) (Ok tt))
  else
    assert (is_nil response) (assert (waited events) (Ok tt)))).

(** ** A verdict follows a whole preview

    The grammar of a previewed body, the reader of chunks against it, and when the
    inspector answers. *)

(** ** The stream reader *)

Lemma read_until_ok sep b h rest : read_until sep b = Ok (h, rest) ->
  b = h ++ rest /\ exists l, h = l ++ sep.
Proof.
  unfold read_until. destruct (Z.ltb_spec (py_find sep b 0) 0) as [|Hi]; [by case_match|]. case_match; [done|].
  intros [= <- <-]. split; [by rewrite ztake_take, zdrop_drop, take_drop|].
  destruct (py_find_spec sep b _ eq_refl Hi) as (a & t & Hb & Ha). exists a. rewrite <- Ha, ztake_take.
  rewrite Hb at 1. rewrite app_assoc. rewrite <- len_app. unfold len. rewrite Nat2Z.id. apply take_app_length.
Qed.

(** The first carriage return of a line without others is found. *)
Lemma find_crlf l rest : forall i, 13 ∉ l -> find_from CRLF (l ++ CRLF ++ rest) i = i + len l.
Proof.
  induction l as [|x l IH]; intros i Hn; cbn [app].
  - unfold CRLF at 2. cbn [app find_from is_prefix CRLF]. rewrite !Z.eqb_refl. cbn [andb]. change (len (@nil Z)) with 0. lia.
  - cbn [find_from]. assert (is_prefix CRLF (x :: l ++ CRLF ++ rest) = false) as ->.
    { cbn [is_prefix CRLF]. destruct (Z.eqb_spec 13 x) as [<-|]; [set_solver|done]. }
    rewrite IH by set_solver. rewrite len_cons. lia.
Qed.

Lemma py_find_0 p l : py_find p l 0 = find_from p l 0.
Proof.
  unfold py_find. pose proof (len_nonneg l). destruct (Z.ltb_spec (len l) 0); [lia|]. by rewrite zdrop_drop.
Qed.

Lemma read_line l rest : 13 ∉ l -> len l <= STREAM_LIMIT ->
  read_until CRLF (l ++ CRLF ++ rest) = Ok (l ++ CRLF, rest).
Proof.
  intros Hn Hl. pose proof (len_nonneg l). unfold read_until. rewrite py_find_0, find_crlf, Z.add_0_l by done.
  destruct (Z.ltb_spec (len l) 0); [lia|]. destruct (Z.ltb_spec STREAM_LIMIT (len l)); [lia|].
  rewrite <- len_app, app_assoc, ztake_take, zdrop_drop. unfold len. rewrite Nat2Z.id.
  by rewrite take_app_length, drop_app_length.
Qed.

Lemma read_exactly_ok n b h rest : read_exactly n b = Ok (h, rest) -> 0 <= n -> b = h ++ rest /\ len h = n.
Proof.
  unfold read_exactly. destruct (Z.ltb_spec (len b) n); [done|]. intros [= <- <-] Hn.
  rewrite ztake_take, zdrop_drop, take_drop. split; [done|]. unfold len in *. rewrite length_take. lia.
Qed.

Lemma read_exactly_app h rest : read_exactly (len h) (h ++ rest) = Ok (h, rest).
Proof.
  unfold read_exactly. rewrite len_app. pose proof (len_nonneg rest). destruct (Z.ltb_spec (len h + len rest) (len h)); [lia|].
  rewrite ztake_take, zdrop_drop. unfold len. rewrite Nat2Z.id. by rewrite take_app_length, drop_app_length.
Qed.

(** ** The grammar of a preview *)

(** [b] begins with a chunked body of at most [room] bytes whose last chunk declares
    the end of the message ([ieof]); [rest] follows it. *)
Inductive chunked : Z -> bytes -> bytes -> bytes -> Prop :=
| last_chunk room l rest :
    chunk_size (l ++ CRLF) = Some 0 -> contains (encode "ieof") (blower (l ++ CRLF)) = true ->
    chunked room (l ++ CRLF ++ CRLF ++ rest) [] rest
| next_chunk room l data b body rest :
    chunk_size (l ++ CRLF) = Some (len data) -> 0 < len data <= room ->
    chunked (room - len data) b body rest ->
    chunked room (l ++ CRLF ++ data ++ CRLF ++ b) (data ++ body) rest.

Lemma assert_ok {A} b (k : result A) r : assert b k = Ok r -> b = true /\ k = Ok r.
Proof. by destruct b. Qed.

Lemma read_chunks_sound fuel : forall b body out rest, read_chunks fuel b body = Ok (out, rest) ->
  exists more, out = body ++ more /\ chunked (PREVIEW_BYTES - len body) b more rest.
Proof.
  induction fuel as [|fuel IH]; intros b body out rest; cbn [read_chunks]; [done|].
  destruct (read_until CRLF b) as [[line b1]|] eqn:Hl; [|done]. apply read_until_ok in Hl as (-> & l & ->).
  destruct (chunk_size (l ++ CRLF)) as [n|] eqn:Hn; [|done].
  intros [Hr%andb_true_iff H]%assert_ok. destruct Hr as [Hr1%Z.leb_le Hr2%Z.leb_le].
  destruct (Z.eqb_spec n 0) as [->|Hn0].
  - destruct (read_exactly 2 b1) as [[tail b2]|] eqn:Ht; [|done]. apply read_exactly_ok in Ht as [-> _]; [|lia].
    apply assert_ok in H as [->%bytes_eqb_eq H]. apply assert_ok in H as [He H]. injection H as <- <-.
    exists []. rewrite app_nil_r. split; [done|]. rewrite <- app_assoc. by constructor.
  - destruct (read_exactly n b1) as [[data b2]|] eqn:Hd; [|done]. apply read_exactly_ok in Hd as [-> Hdl]; [|lia].
    destruct (read_exactly 2 b2) as [[tail b3]|] eqn:Ht; [|done]. apply read_exactly_ok in Ht as [-> _]; [|lia].
    apply assert_ok in H as [->%bytes_eqb_eq H]. apply IH in H as (more & -> & Hc).
    exists (data ++ more). rewrite <- !app_assoc. split; [done|]. constructor; [by rewrite Hdl|lia|].
    rewrite len_app in Hc. by replace (PREVIEW_BYTES - len body - len data) with (PREVIEW_BYTES - (len body + len data)) by lia.
Qed.

(** ** Every division into chunks is read *)

(** The chunks of a preview as a peer writes them. *)
Definition chunk_text (data : bytes) : bytes := encode (hex_int (len data)) ++ CRLF ++ data ++ CRLF.
Definition preview_text (ds : list bytes) : bytes :=
  concat (map chunk_text ds) ++ encode "0; ieof" ++ CRLF ++ CRLF.

Lemma hex_int_bytes z : 0 <= z -> (13 ∉ encode (hex_int z)) /\ (59 ∉ encode (hex_int z)).
Proof.
  intros Hz. destruct (hex_int_digits z Hz) as (ds & _ & Hr & _ & He). unfold encode. rewrite He.
  assert (forall d, 0 <= d < 16 -> ord (hexdigit d) <> 13 /\ ord (hexdigit d) <> 59) as Hd.
  { intros d Hd. unfold hexdigit. destruct (Z.ltb_spec d 10); rewrite ord_chr by lia; lia. }
  split; intros (c & Hc & (d & -> & Hin)%list_elem_of_fmap)%list_elem_of_fmap; rewrite Forall_forall in Hr;
    specialize (Hr d Hin); apply Hd in Hr; destruct Hr; congruence.
Qed.

Lemma bsplit1_none c b : c ∉ b -> bsplit1 c b = (b, None).
Proof.
  induction b as [|x b IH]; intros Hn; cbn [bsplit1]; [done|]. destruct (Z.eqb_spec x c) as [->|]; [set_solver|].
  rewrite IH by set_solver. done.
Qed.

Lemma decode_encode_app s b : decode_ascii (encode s ++ b) = cat [s; decode_ascii b].
Proof.
  rewrite <- (list_str_list (cat [s; decode_ascii b])), str_list_cat. cbn [map concat]. rewrite app_nil_r.
  unfold decode_ascii, encode. rewrite map_app, str_list_str. do 2 f_equal. rewrite map_map.
  erewrite map_ext; [apply map_id|]. intros c. apply chr_ord.
Qed.

(** The size of a chunk reads back. *)
Lemma chunk_size_hex z : 0 <= z -> chunk_size (encode (hex_int z) ++ CRLF) = Some z.
Proof.
  intros Hz. destruct (hex_int_bytes z Hz) as [_ H59]. unfold chunk_size. rewrite bsplit1_none by (unfold CRLF; set_solver).
  unfold btext. cbn [fst]. rewrite decode_encode_app. rewrite <- (py_int16_hex z Hz). unfold py_int16.
  assert (strip (str_list (cat [hex_int z; decode_ascii CRLF])) = strip (str_list (hex_int z))) as ->; [|done].
  rewrite str_list_cat. cbn [map concat]. rewrite app_nil_r.
  destruct (hex_int_digits z Hz) as (ds & Hne & Hr & _ & He).
  assert (Forall (fun c => is_space c = false) (str_list (hex_int z))) as Hs.
  { rewrite He. apply Forall_map. eapply Forall_impl; [exact Hr|]. intros d Hd. by apply hexdigit_not_space. }
  assert (str_list (hex_int z) <> []) as Hne' by (rewrite He; by destruct ds).
  rewrite (strip_no_space (str_list (hex_int z))) by done. unfold strip. generalize dependent (str_list (hex_int z)).
  intros l _ Hs Hne'. assert (strip_front (l ++ str_list (decode_ascii CRLF)) = l ++ str_list (decode_ascii CRLF)) as ->.
  { destruct l as [|c l]; [done|]. cbn [app strip_front]. inversion_clear Hs. by destruct (is_space c). }
  rewrite reverse_app. change (reverse (str_list (decode_ascii CRLF))) with [chr 10; chr 13]. cbn [app strip_front].
  change (is_space (chr 10)) with true. change (is_space (chr 13)) with true. cbv iota.
  assert (strip_front (reverse l) = reverse l) as ->; [|by rewrite reverse_involutive].
  apply Forall_reverse in Hs. destruct (reverse l) as [|c t]; [done|]. cbn [strip_front]. inversion_clear Hs. by destruct (is_space c).
Qed.

Lemma hex_int_short z : 0 <= z <= PREVIEW_BYTES -> len (encode (hex_int z)) <= STREAM_LIMIT.
Proof.
  intros Hz. unfold encode, hex_int, STREAM_LIMIT, len. rewrite str_list_str, length_map.
  assert (forall fuel z acc, (length (hex_digits fuel z acc) <= fuel + length acc)%nat) as H.
  { induction fuel as [|fuel IH]; intros z' acc; cbn [hex_digits]; [lia|]. case_match; cbn [length]; [lia|].
    etrans; [apply IH|]. cbn [length]. lia. }
  specialize (H (S (Z.to_nat (Z.log2 z))) z []). cbn [length] in H.
  assert (Z.log2 z <= Z.log2 PREVIEW_BYTES) by (apply Z.log2_le_mono; lia). change (Z.log2 PREVIEW_BYTES) with 12 in *. lia.
Qed.

Lemma read_chunks_complete ds : forall body rest fuel,
  Forall (fun d => d <> []) ds -> len body + len (concat ds) <= PREVIEW_BYTES -> (length ds < fuel)%nat ->
  read_chunks fuel (preview_text ds ++ rest) body = Ok (body ++ concat ds, rest).
Proof.
  unfold preview_text. induction ds as [|d ds IH]; intros body rest fuel Hne Hlen Hf; (destruct fuel as [|fuel]; [cbn in Hf; lia|]).
  - cbn [map concat app]. rewrite <- !app_assoc. cbn [read_chunks].
    rewrite read_line; [|by vm_compute; set_solver|by vm_compute]. cbn [concat] in Hlen. change (len (@nil Z)) with 0 in Hlen.
    change (chunk_size (encode "0; ieof" ++ CRLF)) with (Some 0). cbv iota. cbn [concat app].
    assert ((0 <=? 0) && (0 <=? PREVIEW_BYTES - len body) = true) as -> by lia. cbn [assert].
    change (0 =? 0) with true. cbv iota. change 2 with (len CRLF) at 1. rewrite read_exactly_app, bytes_eqb_refl. cbn [assert].
    by rewrite app_nil_r.
  - inversion_clear Hne as [|? ? Hd Hds]. cbn [map concat] in *. rewrite len_app in Hlen.
    assert (0 < len d) as Hd0 by (destruct d; [done|rewrite len_cons; pose proof (len_nonneg d); lia]).
    pose proof (len_nonneg body). pose proof (len_nonneg (concat ds)).
    unfold chunk_text at 1. rewrite <- !app_assoc. cbn [read_chunks].
    rewrite read_line; [|apply hex_int_bytes; lia|apply hex_int_short; lia]. rewrite chunk_size_hex by lia.
    assert ((0 <=? len d) && (len d <=? PREVIEW_BYTES - len body) = true) as -> by lia. cbn [assert].
    destruct (Z.eqb_spec (len d) 0); [lia|]. rewrite read_exactly_app. change 2 with (len CRLF) at 1.
    rewrite read_exactly_app, bytes_eqb_refl. cbn [assert].
    specialize (IH (body ++ d) rest fuel Hds). rewrite len_app in IH. rewrite <- !app_assoc in IH.
    rewrite IH; [done|lia|cbn in Hf; lia].
Qed.

(** ** The verdict *)

(** The headers declare [n] bytes of encapsulated headers before the body. *)
Definition declares (headers : bytes) (fields : list (bytes * bytes)) (n : Z) : Prop :=
  is_prefix (encode "RESPMOD ") headers = true /\ header_fields headers = Ok fields /\ 0 <= n <= PREVIEW_BYTES /\
  exists value offsets at_, bitem "encapsulated" fields = Ok value /\ offset_pairs (bsplit 44 value) [] = Ok offsets /\
    bitem "res-body" offsets = Ok at_ /\ to_int at_ = Ok n.

Lemma read_request_iff headers b fields enc rest :
  read_request headers b = Ok (fields, enc, rest) <-> declares headers fields (len enc) /\ b = enc ++ rest.
Proof.
  unfold read_request, declares. split.
  - intros [Hp H]%assert_ok. destruct (header_fields headers) as [f|] eqn:Hf; [|done]. cbn in H.
    destruct (bitem "encapsulated" f) as [v|] eqn:Hv; [|done]. cbn in H.
    destruct (offset_pairs (bsplit 44 v) []) as [o|] eqn:Ho; [|done]. cbn in H.
    destruct (bitem "res-body" o) as [a|] eqn:Ha; [|done]. cbn in H.
    destruct (to_int a) as [n|] eqn:Hn; [|done]. apply assert_ok in H as [Hr%andb_true_iff H].
    destruct Hr as [Hr1%Z.leb_le Hr2%Z.leb_le]. destruct (read_exactly n b) as [[e b']|] eqn:He; [|done].
    apply read_exactly_ok in He as [-> <-]; [|done]. injection H as <- <- <-. split; [|done].
    do 3 (split; [done|]). by exists v, o, a.
  - intros [(Hp & Hf & Hn & v & o & a & Hv & Ho & Ha & Hi) ->]. rewrite Hp, Hf. cbn [assert]. rewrite Hv, Ho, Ha, Hi.
    assert ((0 <=? len enc) && (len enc <=? PREVIEW_BYTES) = true) as -> by lia. cbn [assert].
    by rewrite read_exactly_app.
Qed.

Section inspection.
Variable sha256 : bytes -> string.
Variable clock : nat -> Z.

(** The observations of an inspection that reached its verdict. *)
Definition inspected (c : case) (events : list dict) (headers enc : bytes) : list dict :=
  let e1 := event clock events "icap_headers" [("headers_hex", VStr (hex headers))] in
  let e2 := event clock e1 "encapsulated_headers" [("headers_hex", VStr (hex enc))] in
  let e3 := event clock e2 "inspection_pending"
    [("bytes", VInt (len (c_body c))); ("sha256", VStr (sha256 (c_body c)))] in
  event clock e3 "verdict_write" [("verdict", VStr (mode c))].

Lemma not_options headers : is_prefix (encode "RESPMOD ") headers = true -> is_prefix (encode "OPTIONS ") headers = false.
Proof.
  destruct headers as [|x headers]; [done|]. change (encode "RESPMOD ") with (82 :: encode "ESPMOD ").
  change (encode "OPTIONS ") with (79 :: encode "PTIONS "). cbn [is_prefix]. by intros [<-%Z.eqb_eq _]%andb_true_iff.
Qed.

Lemma chunks_fuel ds rest : (length ds < S (length (preview_text ds ++ rest)))%nat.
Proof.
  assert (length ds <= length (concat (map chunk_text ds)))%nat as H.
  { induction ds as [|d ds IH]; [done|]. cbn [map concat length]. unfold chunk_text at 1. rewrite !length_app.
    change (length CRLF) with 2%nat. lia. }
  unfold preview_text. rewrite !length_app. lia.
Qed.

(** C34: the inspector gives a verdict only on a whole message.  When it writes
    anything but the options it offers, what it read was the request's headers, the
    encapsulated headers of the length these declare, and a chunked preview of the
    case's body that fits the preview and declares the end of the message; it writes
    the verdict of its mode, and records the request, the body and the verdict in this
    order.  Conversely, however the peer divides the body into chunks, such a request
    is given that verdict. *)
Theorem verdict_after_whole_preview c events b :
  (forall evs out r, inspect sha256 clock c events b = (evs, out, r) -> out <> [] ->
     (out = OPTIONS_REPLY /\ exists headers rest, b = headers ++ rest /\ is_prefix (encode "OPTIONS ") headers = true) \/
     exists headers fields enc text rest,
       b = headers ++ enc ++ text /\ declares headers fields (len enc) /\
       chunked PREVIEW_BYTES text (c_body c) rest /\ verdict c fields = Ok (Some out) /\
       evs = inspected c events headers enc /\ r = Ok tt) /\
  (forall headers fields enc ds rest out,
     read_until CRLF2 b = Ok (headers, enc ++ preview_text ds ++ rest) -> declares headers fields (len enc) ->
     Forall (fun d => d <> []) ds -> concat ds = c_body c -> len (c_body c) <= PREVIEW_BYTES ->
     verdict c fields = Ok (Some out) ->
     inspect sha256 clock c events b = (inspected c events headers enc, out, Ok tt)).
Proof.
  unfold inspect. split.
  - intros evs out r. destruct (read_until CRLF2 b) as [[headers b1]|] eqn:Hh; [|by intros [= <- <- <-]].
    apply read_until_ok in Hh as [-> _]. destruct (is_prefix (encode "OPTIONS ") headers) eqn:Hopt.
    { intros [= <- <- <-] _. left. split; [done|]. by exists headers, b1. }
    destruct (read_request headers b1) as [[[fields enc] b2]|] eqn:Hr; [|by intros [= <- <- <-]].
    apply read_request_iff in Hr as [Hd ->].
    destruct (read_chunks (S (length b2)) b2 []) as [[body rest]|] eqn:Hc; [|by intros [= <- <- <-]].
    apply read_chunks_sound in Hc as (more & -> & Hc). cbn [app] in *.
    destruct (bytes_eqb more (c_body c)) eqn:Hb; [|by intros [= <- <- <-]]. apply bytes_eqb_eq in Hb as ->. cbn [negb].
    destruct (verdict c fields) as [[response|]|] eqn:Hv; [|by intros [= <- <- <-]..].
    intros [= <- <- <-] _. right. change (len (@nil Z)) with 0 in Hc. rewrite Z.sub_0_r in Hc.
    by exists headers, fields, enc, b2, rest.
  - intros headers fields enc ds rest out -> Hd Hne Hds Hlen Hv. rewrite not_options by apply Hd.
    assert (read_request headers (enc ++ preview_text ds ++ rest) = Ok (fields, enc, preview_text ds ++ rest)) as ->
      by (by apply read_request_iff).
    rewrite read_chunks_complete; [|done|by rewrite Hds|apply chunks_fuel]. cbn [app].
    by rewrite Hds, bytes_eqb_refl, Hv.
Qed.
End inspection.

(** ** What a passed case shows *)

(** Everything the client's reads recorded. *)
Fixpoint client_data (events : list dict) : result bytes :=
  match events with
  | [] => Ok []
  | e :: t =>
      if is_kind "client_read" e then
        let? data := fromhex (sget "data_hex" e) in
        let? rest := client_data t in
        Ok (data ++ rest)
      else client_data t
  end.

Definition earlier (a b : dict) : Prop := iget "monotonic_ns" a <= iget "monotonic_ns" b.

Lemma no_reads_after v events : Forall (fun e => v <= iget "monotonic_ns" e) events -> early_reads v events = Ok [].
Proof.
  induction 1 as [|e t He Ht IH]; cbn [early_reads]; [done|]. destruct (Z.ltb_spec (iget "monotonic_ns" e) v); [lia|].
  by rewrite andb_false_r.
Qed.

Lemma early_is_prefix v events early all : StronglySorted earlier events ->
  early_reads v events = Ok early -> client_data events = Ok all -> exists later, all = early ++ later.
Proof.
  revert early all. induction events as [|e t IH]; intros early all Hs; cbn [early_reads client_data].
  { intros [= <-] [= <-]. by exists []. }
  apply StronglySorted_inv in Hs as [Hs Ht].
  destruct (is_kind "client_read" e); cbn [andb]; [|by apply IH].
  destruct (Z.ltb_spec (iget "monotonic_ns" e) v) as [Hlt|Hle].
  - destruct (fromhex (sget "data_hex" e)) as [data|]; [|done]. cbn.
    destruct (early_reads v t) as [e1|] eqn:He; [|done]. destruct (client_data t) as [a1|] eqn:Ha; [|done].
    intros [= <-] [= <-]. destruct (IH e1 a1 Hs eq_refl eq_refl) as [later ->]. exists later. by rewrite app_assoc.
  - rewrite no_reads_after; [intros [= <-] _; by exists all|].
    eapply Forall_impl; [exact Ht|]. unfold earlier. intros x Hx. lia.
Qed.

Lemma find_from_le p a x : forall i, i <= find_from p (a ++ p ++ x) i <= i + len a.
Proof.
  induction a as [|y a IH]; intros i; cbn [app].
  - assert (is_prefix p (p ++ x) = true) as Hp by (clear; induction p as [|y p IH]; [done|]; cbn; by rewrite Z.eqb_refl).
    change (len (@nil Z)) with 0. destruct (p ++ x); cbn [find_from]; rewrite Hp; lia.
  - cbn [find_from]. rewrite len_cons. pose proof (len_nonneg a). case_match; [lia|]. specialize (IH (i + 1)). lia.
Qed.

Lemma after_sep_nonempty a x : x <> [] -> after_sep CRLF2 (a ++ CRLF2 ++ x) <> [].
Proof.
  intros Hx. unfold after_sep. rewrite py_find_0. pose proof (find_from_le CRLF2 a x 0) as Hi.
  destruct (Z.ltb_spec (find_from CRLF2 (a ++ CRLF2 ++ x) 0) 0); [lia|].
  intros E%(f_equal len). revert E. unfold len in *. rewrite zdrop_drop, length_drop, !length_app.
  change (length CRLF2) with 4%nat. destruct x as [|y x]; [done|]. cbn [length]. lia.
Qed.

Lemma encode_cat_crlf2 l :
  encode (cat (l ++ [list_str (map chr CRLF); list_str (map chr CRLF)])) = encode (cat l) ++ CRLF2.
Proof. unfold encode. by rewrite !str_list_cat, map_app, concat_app, map_app. Qed.

Lemma http_response_head status body : exists l, http_response status body = (l ++ CRLF2) ++ body.
Proof.
  eexists. unfold http_response. f_equal. set (n := py_str (len body)). set (e := list_str (map chr CRLF)).
  exact (encode_cat_crlf2 ["HTTP/1.1 "; status; e; "Connection: close"; e; "Content-Length: "; n]).
Qed.

(** A passed case that allows: the response arrived whole, and what the client had
    read before the verdict stops short of the body. *)
Lemma allowed_body_is_late c errors events response :
  mode c = "allow" -> StronglySorted earlier events -> client_data events = Ok response ->
  verify c errors events response = Ok tt ->
  exists head v early late, response = head ++ c_body c /\ first_time "verdict_write" events = Ok v /\
    early_reads v events = Ok early /\ response = early ++ late /\ len (c_body c) <= len late.
Proof.
  intros Hm Hs Hc. unfold verify. rewrite Hm. intros [_ H]%assert_ok. apply assert_ok in H as [_ H].
  rewrite String.eqb_refl in H. destruct (first_time "verdict_write" events) as [v|] eqn:Hv; [|done]. cbv iota in H.
  destruct (early_reads v events) as [early|] eqn:He; [|done]. cbv iota in H. apply assert_ok in H as [Hn H].
  apply assert_ok in H as [->%bytes_eqb_eq _]. destruct (early_is_prefix v events early _ Hs He Hc) as [late Hl].
  destruct (http_response_head "200 OK" (c_body c)) as [l Hr]. exists (l ++ CRLF2), v, early, late.
  do 4 (split; [done|]). rewrite Hr in Hl. apply app_eq_app in Hl as [k [[Hk ->]|[-> Hb]]].
  - rewrite len_app. pose proof (len_nonneg k). lia.
  - rewrite Hb, len_app. destruct k as [|x k]; [change (len (@nil Z)) with 0; lia|]. exfalso. revert Hn. rewrite <- app_assoc.
    intros Hn. apply (after_sep_nonempty l (x :: k)); [done|]. by destruct (after_sep CRLF2 (l ++ CRLF2 ++ x :: k)).
Qed.

(** ** A case *)

Module IcapExample.
Definition c : case := new_case "deny" "r1".
Definition line (s : string) : bytes := encode s ++ CRLF.
Definition headers : bytes :=
  line "RESPMOD icap://10.203.72.11:1344/dlp ICAP/1.0" ++ line "Host: 10.203.72.11" ++
  line "Preview: 4096" ++ line "Encapsulated: res-hdr=0, res-body=19" ++ CRLF.
Definition enc : bytes := line "HTTP/1.1 200 OK" ++ CRLF.
Definition parts : list bytes := [encode "prefix" ++ [10]; canary c; [10] ++ encode "suffix" ++ [10]].
Definition input : bytes := headers ++ enc ++ preview_text parts ++ encode "left".
Definition fields : list (bytes * bytes) :=
  match header_fields headers with Ok f => f | Err _ => [] end.
Definition digest (b : bytes) : string := hex b.
Definition clock (n : nat) : Z := Z.of_nat n.
End IcapExample.

Lemma verdict_after_whole_preview_witness :
  inspect IcapExample.digest IcapExample.clock IcapExample.c [] IcapExample.input =
    (inspected IcapExample.digest IcapExample.clock IcapExample.c [] IcapExample.headers IcapExample.enc, DENIED, Ok tt).
Proof.
  apply (verdict_after_whole_preview IcapExample.digest IcapExample.clock IcapExample.c [] IcapExample.input)
    with (fields := IcapExample.fields) (ds := IcapExample.parts) (rest := encode "left").
  - vm_compute. reflexivity.
  - split; [vm_compute; reflexivity|]. split; [vm_compute; reflexivity|]. split; [vm_compute; split; discriminate|].
    eexists _, _, _. split; [vm_compute; reflexivity|]. split; [vm_compute; reflexivity|].
    split; vm_compute; reflexivity.
  - repeat (apply List.Forall_cons; [vm_compute; discriminate|]). apply List.Forall_nil.
  - vm_compute. reflexivity.
  - vm_compute. discriminate.
  - vm_compute. reflexivity.
Defined.
