(* ===== verification/Pipeline.v ===== *)
(** * From the journal to activities (the mains of activity_combine.py and
    activity_export.py)

    The loop that follows a journal, feeds the combiner a page at a time and ends
    the pending groups whatever happened; and the exporter's one page.  A source of
    pages answers a cursor; it may answer differently at each poll.  The JSON text of
    a saved page is a parameter. *)

From S2P Require Import Prelude PyVal Decimal Text Decoders Export ExportSpec Combine CombineSpec Journal JournalSpec JournalReplay.

(** ** [feed] with the state an exception leaves behind *)

Section pipeline.
(** The digest that names an activity. *)
Variable digest : key -> string.

Fixpoint fed_rows (c : combiner) (rows : list row) : combiner * result (list dict) :=
  match rows with
  | [] => (c, Ok [])
  | r :: rows =>
      match feed_row digest c r with
      | Err e => (c, Err e)
      | Ok (c, out) => match fed_rows c rows with
                       | (c, Ok out') => (c, Ok (out ++ out'))
                       | (c, Err e) => (c, Err e)
                       end
      end
  end.

Definition fed (c : combiner) (page : dict) : combiner * result (list dict) :=
  if has "error" page then (c, Err (ValueError "page error")) else
  match project_page (VDict page) with
  | Err e => (c, Err e)
  | Ok out => match get "events" out with
              | Some (VList rows) => fed_rows c (map row_of_val rows)
              | _ => (c, Err (KeyError "events"))
              end
  end.

(** ** [main] of activity_combine.py *)

Definition source := option string -> result dict.

(** [replay] of a local journal, which must answer 200. *)
Definition journal_source (d : db) : source := fun cursor =>
  let? (status, page) := replay d cursor 128 in
  raise_if (negb (status =? 200)) (ValueError "replay refused") ;;
  Ok page.

(** The loop over the polls: the combiner, what was printed, and how it ended; the
    end of the list is the interruption of a consumer that follows. *)
Fixpoint consume (follow : bool) (polls : list source) (c : combiner) (cursor : option string)
    : combiner * list dict * result unit :=
  match polls with
  | [] => (c, [], Err KeyboardInterrupt)
  | poll :: polls =>
      match poll cursor with
      | Err e => (c, [], Err e)
      | Ok page =>
          if has "error" page then (c, [], Err (ValueError "page error")) else
          match fed c page with
          | (c, Err e) => (c, [], Err e)
          | (c, Ok out) =>
              match item "next_cursor" page, item "events" page with
              | Ok (VStr next), Ok events =>
                  if negb (truthy events) && negb follow then (c, out, Ok tt) else
                  let '(c, out', r) := consume follow polls c (Some next) in (c, out ++ out', r)
              | _, _ => (c, out, Err TypeError)
              end
          end
      end
  end.

(** The events printed, the flush of the [finally] block last. *)
Definition combine_main (follow : bool) (polls : list source) (after : option string)
    : list dict * result unit :=
  let '(c, out, r) := consume follow polls (new_combiner 128 128) after in
  (out ++ (flush digest c "end_of_input").2, r).
End pipeline.

(** ** [main] of activity_export.py *)

(** The document read: a replay with its status, or a page from the socket or a file. *)
Definition read_replay (d : db) (after : option string) (limit : Z) : result (Z * val) :=
  let? (status, page) := replay d after limit in Ok (status, VDict page).

Definition is_reported (e : exn) : bool :=
  match e with OSError _ | ValueError _ | KeyError _ | TypeError | UnicodeError => true | _ => false end.

(** The exit status and the document printed; [saved] when the page is a file. *)
Definition export_main (saved : bool) (after : option string) (limit : Z) (read : result (Z * val))
    : result (Z * option dict) :=
  raise_if (negb ((1 <=? limit) && (limit <=? 128))) (SystemExit "limit must be 1..128") ;;
  raise_if (saved && truthy_str after) (SystemExit "--after applies to a socket or journal, not a saved page") ;;
  match (let? (status, document) := read in let? out := project_page document in Ok (status, out)) with
  | Ok (status, out) => Ok (if (status =? 200) && negb (has "error" out) then 0 else 1, Some out)
  | Err e => if is_reported e then Ok (1, None) else Err e
  end.

(** ** One journal, end to end

    What the collector stores is read back by the combiner's loop page by page, and
    gives what one pass over the retained events gives. *)

(** ** What the collector stores *)

(** An event of a type that is text. *)
Definition typed (body : val) : Prop := exists d k, body = VDict d /\ getv "type" d = VStr k.

Record readable (identity : string) (retain : Z) (d : db) : Prop := {
  rd_wf : wf retain d;
  rd_id : state d !! "journal_id" = Some (VStr identity);
  rd_typed : Forall (fun r => typed (e_body r)) (events d) }.

Section stored.
Variable sha256 : string -> string.
Variable full : db -> bool.

Lemma insert_event_typed retain d k fp body d' id : typed body ->
  Forall (fun r => typed (e_body r)) (events d) ->
  insert_event full retain d k fp body = Ok (d', id) -> Forall (fun r => typed (e_body r)) (events d').
Proof.
  intros Hb Hd [_ [[-> _]|(_ & _ & ->)]]%insert_event_ok; [done|].
  apply Forall_app. split; [by apply Forall_drop|]. by apply Forall_singleton.
Qed.

Lemma record_body_typed raw body body' k : getv "type" body = VStr k -> record_body raw body = Ok body' ->
  getv "type" body' = VStr k.
Proof.
  unfold record_body. intros Hk. destruct (item "data" raw) as [data|]; [|done].
  destruct (match data with VStr s => fromhex s | _ => Err TypeError end) as [payload|]; [|done].
  cbv iota. destruct (512 <? len payload); [done|]. destruct (item "schema" raw) as [schema|]; [|done].
  intros <-%Ok_inj. case_match; [|done]. unfold decoded_body, getv in *.
  destruct (method_decode payload) as [r|[]]; rewrite ?get_set; done.
Qed.

(** A prepared frame: a typed body, and a progress key of its own. *)
Lemma prepare_typed source frame kind raw p : prepare sha256 source frame kind raw = Ok p ->
  (exists k, getv "type" (p_body p) = VStr k) /\ p_progress p <> "journal_id".
Proof.
  unfold prepare. destruct (item "ring" raw) as [ring|]; [|done]. destruct (ring_text ring) as [rt|]; [|done].
  cbv zeta iota. match goal with |- context [match ?x with Ok _ => _ | Err _ => _ end = Ok p] => destruct x as [[[[b q] raw'] key]|] end; [|done].
  destruct (String.eqb kind "record").
  - destruct (record_body raw' _) as [body|] eqn:Hb; [|done]. intros <-%Ok_inj. cbn [p_body p_progress].
    split; [|by destruct (String.eqb kind "ring_health")]. exists kind. by eapply record_body_typed in Hb.
  - intros <-%Ok_inj. cbn [p_body p_progress]. split; [by exists kind|]. by destruct (String.eqb kind "ring_health").
Qed.

Lemma frame_transaction_typed retain d p d' : (exists k, getv "type" (p_body p) = VStr k) ->
  Forall (fun r => typed (e_body r)) (events d) -> frame_transaction full retain d p = Ok d' ->
  Forall (fun r => typed (e_body r)) (events d').
Proof.
  intros [k Hk] Hd. unfold frame_transaction. cbv zeta.
  assert (forall body, typed (VDict body) ->
    (let? (d0, _) := insert_event full retain d (p_key p) (p_fingerprint p) (VDict body)
     in db_put full d0 (p_progress p) (progress_val p)) = Ok d' ->
    Forall (fun r => typed (e_body r)) (events d')) as Hstore.
  { intros body Hb. destruct (insert_event _ _ _ _ _ _) as [[d1 id]|] eqn:Hi; [|done].
    intros (-> & _)%db_put_ok. by eapply insert_event_typed. }
  assert (forall v, typed (VDict (if p_health p then set "dropped_since_checkpoint" v
    (set "type" (VStr (if p_position p =? 0 then "ring_health" else "observation_gap")) (p_body p))
    else p_body p))) as Hh.
  { intros v. destruct (p_health p); [|by exists (p_body p), k]. do 2 eexists. split; [done|].
    unfold getv. by rewrite !get_set. }
  destruct (checkpoint d (p_progress p)) as [[q fp]|].
  - destruct (p_position p <? q); [done|]. destruct (p_position p =? q).
    + destruct (negb _); [done|]. by intros <-%Ok_inj.
    + destruct (negb _ && negb _); [done|]. apply Hstore, Hh.
  - apply Hstore, Hh.
Qed.

(** A new source: the progress is dropped, the source and its epoch are kept, and the
    boundary is an event. *)
Lemma source_transaction_cases retain d raw source epoch d' :
  source_transaction full retain d raw source epoch = Ok d' -> d' = d \/
  exists d1 id body, typed body /\ events d1 = events d /\ state d1 !! "journal_id" = state d !! "journal_id" /\
    insert_event full retain d1 (String.append "source:" epoch) source body = Ok (d', id).
Proof.
  unfold source_transaction.
  assert (forall d',
    (let? d := db_put full (delete_progress d) "source_id" (VStr source) in
     let? d := db_put full d "source_epoch" (VStr epoch) in
     let? (d, _) := insert_event full retain d (String.append "source:" epoch) source
        (VDict [("type", VStr "source_boundary"); ("source_id", VStr epoch); ("source", raw);
                ("history", VStr "unknown_before_first_collection")]) in
     Ok d) = Ok d' -> exists d1 id body, typed body /\ events d1 = events d /\
      state d1 !! "journal_id" = state d !! "journal_id" /\
      insert_event full retain d1 (String.append "source:" epoch) source body = Ok (d', id)) as Hnew.
  { intros d2. destruct (db_put full (delete_progress d) _ _) as [d3|] eqn:H1; [|done].
    destruct (db_put full d3 _ _) as [d4|] eqn:H2; [|done].
    destruct (insert_event full retain d4 _ _ _) as [[d5 id]|] eqn:H3; [|done]. intros [= <-].
    apply db_put_ok in H1 as (E1 & _ & S1). apply db_put_ok in H2 as (E2 & _ & S2).
    do 3 eexists. split_and!; [|by rewrite E2, E1| |exact H3]; [by do 2 eexists|].
    rewrite S2, S1, !lookup_insert_ne by done. unfold delete_progress. cbn [state].
    destruct (state d !! "journal_id") as [v|] eqn:Ej.
    - by apply map_lookup_filter_Some.
    - apply map_lookup_filter_None. by left. }
  destruct (db_get d "source_id") as [[| | |s| | | |]|]; try (intros H; right; by apply Hnew).
  destruct (String.eqb s source); [intros <-%Ok_inj; by left|intros H; right; by apply Hnew].
Qed.

(** [accept] keeps a journal readable. *)
Lemma accept_readable identity epoch j frame : 1 <= j_retain j -> readable identity (j_retain j) (j_db j) ->
  let j' := (accept sha256 full epoch j frame).1 in
  j_retain j' = j_retain j /\ readable identity (j_retain j) (j_db j').
Proof.
  intros Hr [Hwf Hid Ht]. destruct (accept sha256 full epoch j frame) as [j' r] eqn:H. cbn [fst].
  apply accept_cases in H as [(e & -> & ->)|(-> & Hret & H)]; [done|]. split; [done|].
  destruct H as [(_ & Hs & _)|(source & k & p & _ & _ & _ & Hp & Hf & _)].
  - split; [by eapply source_transaction_wf|..].
    + apply source_transaction_cases in Hs as [->|(d1 & id & body & _ & _ & Hs & [-> _]%insert_event_ok)]; [done|by rewrite Hs].
    + apply source_transaction_cases in Hs as [->|(d1 & id & body & Hb & He & _ & Hi)]; [done|].
      eapply insert_event_typed; [done| |exact Hi]. by rewrite He.
  - apply prepare_typed in Hp as [Hb Hk]. split; [by eapply frame_transaction_wf| |by eapply frame_transaction_typed].
    apply frame_transaction_ok in Hf as [[_ ->]|(_ & -> & _)]; [done|]. by rewrite lookup_insert_ne.
Qed.

Lemma collect_readable identity epochs lines : forall n j acks, 1 <= j_retain j ->
  readable identity (j_retain j) (j_db j) ->
  readable identity (j_retain j) (j_db (collect_loop sha256 full epochs n j lines acks).1.1).
Proof.
  induction lines as [|l lines IH]; intros n j acks Hr Hj; cbn [collect_loop]; [done|].
  destruct (l_bytes l); [done|]. destruct (_ || _); [done|].
  destruct (l_json l) as [[| | | | | | |f]|]; try done.
  pose proof (accept_readable identity (epochs n) j f Hr Hj) as [Hret Hj1].
  destruct (accept sha256 full (epochs n) j f) as [j1 [[]|]]; cbn [fst] in *; [|done].
  destruct (item "token" f) as [[| | |t| | | |]|]; try done. rewrite <- Hret. apply IH; by rewrite Hret.
Qed.
End stored.

(** ** What the exporter makes of it *)

Lemma project_typed event k : getv "type" event = VStr k -> exists out, project_event event = Ok out.
Proof.
  intros Hk. destruct (String.eqb_spec k "record") as [->|Hne].
  - destruct (project_record event Hk) as (t & a & o & ev & H & _). by eexists.
  - unfold project_event. rewrite Hk. cbn [val_eqb]. destruct (String.eqb_spec k "record"); [done|].
    cbn [negb]. by eexists.
Qed.

Section pass.
Variable digest : key -> string.
Variable identity : string.
Hypothesis Hcolon : no_colon identity.

(** The row the combiner reads for a stored event. *)
Definition activity_row (r : event_row) : row :=
  Row (cursor_text identity (e_id r))
    match e_body r with
    | VDict d => match project_event d with Ok e => e | Err _ => [] end
    | _ => []
    end.

Definition page_of_rows (b : dict) (rows : list event_row) (next : Z) : dict :=
  b ++ [("events", VList (map (event_doc identity) rows)); ("next_cursor", VStr (cursor_text identity next))].

(** ** Cursors *)

Lemma last_colon_none l : Forall (fun c => c <> ":"%char) l -> last_colon l = None.
Proof.
  induction 1 as [|c l Hc _ IH]; [done|]. cbn [last_colon]. rewrite IH. by destruct (Ascii.eqb_spec c ":").
Qed.

Lemma last_colon_app a b : Forall (fun c => c <> ":"%char) b -> last_colon (a ++ ":"%char :: b) = Some (a, b).
Proof.
  intros Hb. induction a as [|c a IH]; cbn [app last_colon]; [by rewrite last_colon_none|by rewrite IH].
Qed.

Lemma digits_no_colon n : 0 <= n -> Forall (fun c => c <> ":"%char) (str_list (py_str n)).
Proof.
  intros Hn. destruct n as [|p|]; [by repeat constructor| |lia]. pose proof (pretty_digits (N.pos p)) as H.
  eapply Forall_impl; [exact H|]. by intros c Hc ->.
Qed.

Lemma parse_cursor_text n : 0 <= n -> parse_cursor (cursor_text identity n) = Ok (identity, n).
Proof.
  intros Hn. unfold parse_cursor. rewrite cursor_text_list, last_colon_app by by apply digits_no_colon.
  by rewrite !list_str_list, py_int_str.
Qed.

(** ** One row after the other *)

Lemma finish_cursor c k reason c' d : finish digest c k reason = Ok (c', d) -> cursor c' = cursor c.
Proof. unfold finish. destruct (pget k (pending c)); [|done]. by intros [= <- _]. Qed.

Lemma join_cursor c k g r c' out : join_group digest c k g r = Ok (c', out) -> cursor c' = cursor c.
Proof.
  unfold join_group. cbv zeta. destruct (mem_Z _ _).
  - destruct (finish digest _ _ _) as [[c1 d]|] eqn:Hf; [|done]. intros [= <- _]. by apply finish_cursor in Hf.
  - destruct (_ <=? _); [|by intros [= <- _]].
    destruct (finish digest _ _ _) as [[c1 d]|] eqn:Hf; [|done]. intros [= <- _]. by apply finish_cursor in Hf.
Qed.

Lemma feed_exchange_cursor c r c' out : feed_exchange digest c r = Ok (c', out) -> cursor c' = cursor c.
Proof.
  unfold feed_exchange. cbv zeta. destruct (_ =? _); destruct (pget (row_key r) (pending c)) as [g|].
  - destruct (finish digest _ _ _) as [[c1 d]|] eqn:Hf; [|done]. intros [= <- _]. by apply finish_cursor in Hf.
  - match goal with |- context [match ?x with Ok _ => _ | Err _ => _ end = _] => destruct x as [[c1 o1]|] eqn:Hc; [|done] end.
    destruct (join_group digest _ _ _ _) as [[c2 o2]|] eqn:Hj; [|done]. intros [= <- _].
    apply join_cursor in Hj. rewrite Hj. cbn [cursor with_pending]. destruct (_ <=? _); [|by injection Hc as <- _].
    destruct (pending c) as [|[k0 g0] t]; [done|].
    destruct (finish digest c k0 _) as [[c3 d3]|] eqn:Hf; [|done]. injection Hc as <- _. by apply finish_cursor in Hf.
  - apply join_cursor.
  - by intros [= <- _].
Qed.

Lemma feed_valid_cursor c r c' out : feed_valid digest c r = Ok (c', out) -> cursor c' = cursor c.
Proof.
  unfold feed_valid. cbv zeta. match goal with |- (if ?b then _ else _) = _ -> _ => destruct b end; [by intros [= <- _]|].
  destruct (_ || negb (int_at _ _ =? 0)); cbn [flush]; cbv iota beta; destruct (_ && _); cbn [flush]; cbv iota beta;
    (destruct (_ || _); [by intros [= <- _]|]);
    (destruct (feed_exchange digest _ r) as [[c1 o1]|] eqn:Hf; [|done]); intros [= <- _];
    by apply feed_exchange_cursor in Hf.
Qed.

(** The combiner has read up to position [n] of the journal, or nothing yet. *)
Definition at_ (n : Z) (c : combiner) : Prop := cursor c = None \/ cursor c = Some (cursor_text identity n).

Lemma feed_row_next c n r : inv c -> 0 <= n -> at_ n c -> r_cursor r = cursor_text identity (n + 1) ->
  exists c' out, feed_row digest c r = Ok (c', out) /\ inv c' /\ at_ (n + 1) c'.
Proof.
  intros Hi Hn Ha Hr. set (c1 := with_cursor c (cursor_text identity (n + 1))).
  assert (advance digest c (r_cursor r) = Ok (c1, [])) as Hadv.
  { unfold advance. rewrite Hr, parse_cursor_text by lia. destruct Ha as [->| ->]; [done|].
    destruct (cursor_text identity n) as [|a t] eqn:E; [done|]. rewrite <- E, parse_cursor_text by done.
    rewrite String.eqb_refl. replace (n + 1 <=? n) with false by lia. cbn [negb orb].
    by rewrite Z.eqb_refl. }
  assert (inv c1) as Hi1 by exact (inv_with_cursor c _ Hi).
  assert (at_ (n + 1) c1) as Ha1 by by right.
  unfold feed_row. rewrite Hadv. cbv zeta. destruct (_ || _).
  { destruct (negb (mem_str _ _)); cbn [flush]; do 2 eexists; (split; [reflexivity|]); split; try done.
    exact (inv_flush digest c1 "diagnostic_or_unqualified_record" Hi1). }
  destruct (negb (frame_valid r)).
  { cbn [flush]. do 2 eexists. split; [reflexivity|]. split; [|done].
    exact (inv_flush digest c1 "invalid_frame_binding" Hi1). }
  destruct (feed_valid_inv digest c1 r Hi1) as (c2 & out2 & Hv & Hi2). rewrite Hv.
  do 2 eexists. split; [reflexivity|]. split; [done|]. unfold at_. apply feed_valid_cursor in Hv. by rewrite Hv.
Qed.

Lemma feed_rows_next rows : forall c n, inv c -> 0 <= n -> at_ n c -> ids_from (n + 1) rows ->
  exists c' out, feed_rows digest c (map activity_row rows) = Ok (c', out) /\
    fed_rows digest c (map activity_row rows) = (c', Ok out) /\ inv c' /\ at_ (n + len rows) c'.
Proof.
  induction rows as [|r rows IH]; intros c n Hi Hn Ha Hids.
  { exists c, []. change (len (@nil event_row)) with 0. rewrite Z.add_0_r. done. }
  cbn [map feed_rows fed_rows].
  destruct (feed_row_next c n (activity_row r) Hi Hn Ha) as (c1 & o1 & Hf & Hi1 & Ha1).
  { cbn [activity_row r_cursor]. f_equal. rewrite (Hids 0%nat r eq_refl). lia. }
  rewrite Hf. destruct (IH c1 (n + 1) Hi1 ltac:(lia) Ha1) as (c2 & o2 & Hr & Hr' & Hi2 & Ha2).
  { intros i x Hx. rewrite (Hids (S i) x Hx). lia. }
  rewrite Hr, Hr'. exists c2, (o1 ++ o2). rewrite len_cons.
  replace (n + (1 + len rows)) with (n + 1 + len rows) by lia. done.
Qed.

Lemma feed_rows_app a : forall c b c1 o1 c2 o2, feed_rows digest c a = Ok (c1, o1) ->
  feed_rows digest c1 b = Ok (c2, o2) -> feed_rows digest c (a ++ b) = Ok (c2, o1 ++ o2).
Proof.
  induction a as [|r a IH]; intros c b c1 o1 c2 o2; cbn [feed_rows app]; [by intros [= <- <-]|].
  destruct (feed_row digest c r) as [[c' o]|]; [|done].
  destruct (feed_rows digest c' a) as [[c'' o']|] eqn:Ha; [|done]. intros [= <- <-] Hb.
  rewrite (IH _ _ _ _ _ _ Ha Hb). by rewrite app_assoc.
Qed.

(** ** One page after the other *)

Lemma page_rows_docs rows : Forall (fun r => typed (e_body r)) rows ->
  exists vals, Export.page_rows (map (event_doc identity) rows) = Some vals /\
    exists out, mapM_r project_row vals = Ok out /\ map row_of_val out = map activity_row rows.
Proof.
  induction 1 as [|r rows (d & k & Hb & Hk) _ (vals & Hv & out & Ho & Hm)]; [by exists []; split; [|exists []]|].
  destruct (project_typed d k Hk) as [e He].
  exists ((VStr (cursor_text identity (e_id r)), d) :: vals). split.
  { cbn [map Export.page_rows]. rewrite Hv. unfold event_doc. by rewrite Hb. }
  exists (VDict [("cursor", VStr (cursor_text identity (e_id r))); ("event", VDict e)] :: out). split.
  { cbn [mapM_r]. unfold project_row at 1. cbn [fst snd]. by rewrite He, Ho. }
  cbn [map]. rewrite Hm. f_equal. unfold activity_row. by rewrite Hb, He.
Qed.

Lemma fed_page c page rows s : has "error" page = false ->
  get "events" page = Some (VList (map (event_doc identity) rows)) -> get "next_cursor" page = Some (VStr s) ->
  len rows <= 128 -> Forall (fun r => typed (e_body r)) rows ->
  fed digest c page = fed_rows digest c (map activity_row rows).
Proof.
  intros Hh He Hn Hl Ht. destruct (page_rows_docs rows Ht) as (vals & Hv & out & Ho & Hm).
  unfold fed, project_page. rewrite Hh, He, Hn, Hv, Ho. unfold len in *. rewrite length_map.
  destruct (Z.ltb_spec 128 (Z.of_nat (length rows))); [lia|]. rewrite get_set_eq. by rewrite Hm.
Qed.

(** A poll that answers with the rows after a position. *)
Lemma consume_page (poll : source) polls c cur page rows next n :
  poll cur = Ok page -> has "error" page = false ->
  get "events" page = Some (VList (map (event_doc identity) rows)) -> get "next_cursor" page = Some (VStr next) ->
  len rows <= 128 -> Forall (fun r => typed (e_body r)) rows -> ids_from (n + 1) rows -> 0 <= n ->
  inv c -> at_ n c ->
  exists c' out, feed_rows digest c (map activity_row rows) = Ok (c', out) /\ inv c' /\ at_ (n + len rows) c' /\
    consume digest false (poll :: polls) c cur =
      match rows with
      | [] => (c', out, Ok tt)
      | _ => let '(c2, o2, r2) := consume digest false polls c' (Some next) in (c2, out ++ o2, r2)
      end.
Proof.
  intros Hp Hh He Hn Hl Ht Hids Hn0 Hi Ha.
  destruct (feed_rows_next rows c n Hi Hn0 Ha Hids) as (c' & out & Hf & Hf' & Hi' & Ha').
  exists c', out. do 3 (split; [done|]). cbn [consume]. rewrite Hp, Hh.
  rewrite (fed_page c page rows next) by done. rewrite Hf'. unfold item. rewrite Hn, He. by destruct rows.
Qed.

Section journal.
Variable retain : Z.
Variable d : db.
Hypothesis Hd : readable identity retain d.

Lemma rows_typed after limit : Forall (fun r => typed (e_body r)) (page_of d after limit).
Proof. rewrite (JournalReplay.page_rows retain d (rd_wf _ _ _ Hd)). apply Forall_take, Forall_drop, Hd. Qed.

Lemma consume_after polls : forall c after, inv c -> at_ after c ->
  oldest_id d - 1 <= after <= newest_id d -> newest_id d - after < Z.of_nat polls ->
  exists c' out,
    feed_rows digest c (map activity_row (drop (Z.to_nat (after + 1 - oldest_id d)) (events d))) = Ok (c', out) /\
    consume digest false (replicate polls (journal_source d)) c (Some (cursor_text identity after)) = (c', out, Ok tt).
Proof.
  pose proof (rd_wf _ _ _ Hd) as Hwf. pose proof (rd_id _ _ _ Hd) as Hj.
  induction polls as [|polls IH]; intros c after Hi Ha Hb Hf; [lia|].
  destruct (oldest_newest retain d Hwf) as (Hn & Ho & _).
  pose proof (page_length retain d Hwf after 128 ltac:(lia) ltac:(lia)) as Hlen.
  pose proof (JournalReplay.page_rows retain d Hwf after 128) as Hp. set (k := Z.to_nat (after + 1 - oldest_id d)) in *.
  set (rows := page_of d after 128) in *. cbn [replicate].
  destruct (consume_page (journal_source d) (replicate polls (journal_source d)) c (Some (cursor_text identity after))
    (boundary_of d identity ++ [("events", VList (map (event_doc identity) rows));
       ("next_cursor", VStr (cursor_text identity (after + len rows)))]) rows
    (cursor_text identity (after + len rows)) after) as (c1 & o1 & Hf1 & Hi1 & Ha1 & ->); try done; try lia.
  { unfold journal_source. rewrite (replay_at retain d Hwf identity Hj Hcolon) by lia.
    replace (after <? oldest_id d - 1) with false by lia. by replace (newest_id d <? after) with false by lia. }
  { apply rows_typed. }
  { apply (page_ids retain d Hwf). lia. }
  destruct rows as [|r l] eqn:Er.
  - exists c1, o1. split; [|done]. rewrite drop_ge; [done|]. unfold len in *. cbn [length] in Hlen. lia.
  - rewrite len_cons in *. pose proof (len_nonneg l).
    destruct (IH c1 (after + (1 + len l)) Hi1 Ha1 ltac:(lia) ltac:(lia)) as (c2 & o2 & Hf2 & ->).
    exists c2, (o1 ++ o2). split; [|done]. rewrite <- (take_drop (Z.to_nat 128) (drop k (events d))), <- Hp, map_app.
    eapply feed_rows_app; [exact Hf1|]. rewrite drop_drop. rewrite <- Hf2. do 2 f_equal.
    destruct (Z.le_gt_cases 128 (newest_id d - after)); [f_equal; lia|].
    rewrite !drop_ge; [done|unfold len in *; lia..].
Qed.

(** From the beginning: no cursor is like the cursor before the oldest row. *)
Lemma consume_all : exists c' out,
  feed_rows digest (new_combiner 128 128) (map activity_row (events d)) = Ok (c', out) /\
  consume digest false (replicate (S (S (length (events d)))) (journal_source d)) (new_combiner 128 128) None
    = (c', out, Ok tt).
Proof.
  pose proof (rd_wf _ _ _ Hd) as Hwf. pose proof (rd_id _ _ _ Hd) as Hj.
  destruct (oldest_newest retain d Hwf) as (Hn & Ho & _).
  destruct (consume_after (S (S (length (events d)))) (new_combiner 128 128) (oldest_id d - 1)) as (c & out & Hf & Hc).
  { by apply inv_new. }
  { by left. }
  { unfold len in *; lia. }
  { unfold len in *; lia. }
  replace (Z.to_nat (oldest_id d - 1 + 1 - oldest_id d)) with 0%nat in Hf by lia. rewrite drop_0 in Hf.
  exists c, out. split; [done|]. rewrite <- Hc. change (replicate (S (S (length (events d)))) (journal_source d))
    with (journal_source d :: replicate (S (length (events d))) (journal_source d)).
  set (rows := page_of d (oldest_id d - 1) 128).
  set (rest := [("events", VList (map (event_doc identity) rows));
       ("next_cursor", VStr (cursor_text identity (oldest_id d - 1 + len rows)))]).
  assert (journal_source d None = Ok ((boundary_of d identity ++
    [("start", VStr "oldest_retained; earlier history not requested")]) ++ rest)) as H1.
  { unfold journal_source, replay. cbn [negb andb Z.leb]. rewrite Hj. cbn. unfold page_doc.
    by rewrite (page_last retain d Hwf) by lia. }
  assert (journal_source d (Some (cursor_text identity (oldest_id d - 1))) = Ok (boundary_of d identity ++ rest)) as H2.
  { unfold journal_source. rewrite (replay_at retain d Hwf identity Hj Hcolon) by lia.
    replace (oldest_id d - 1 <? oldest_id d - 1) with false by lia.
    by replace (newest_id d <? oldest_id d - 1) with false by (unfold len in *; lia). }
  cbn [consume]. rewrite H1, H2.
  change (has "error" ((boundary_of d identity ++ _) ++ rest)) with false.
  change (has "error" (boundary_of d identity ++ rest)) with false. cbv iota.
  assert (len rows <= 128) as Hl.
  { unfold rows. rewrite (page_length retain d Hwf) by (unfold len in *; lia). lia. }
  rewrite !(fed_page _ _ rows (cursor_text identity (oldest_id d - 1 + len rows))) by (done || apply rows_typed).
  done.
Qed.
End journal.
End pass.

(** C13: the collector, the exporter and the combiner fit together.  Whatever the
    reader sends to a new journal, and wherever the collection stops, following that
    journal from its beginning never fails: no page is refused, no event is one the
    exporter cannot project, no cursor goes back; the loop ends within two polls more
    than there are events, and what it prints is what one pass over all the retained
    events gives, the groups still open flushed at the end.  Where the pages are cut
    does not show. *)
Theorem collected_is_combined sha256 full digest retain max_pages identity epochs lines j :
  open_journal (Db [] 0 ∅) retain max_pages identity = Ok j -> no_colon identity ->
  let d := j_db (collect_loop sha256 full epochs 0 j lines []).1.1 in
  exists c out,
    feed_rows digest (new_combiner 128 128) (map (activity_row identity) (events d)) = Ok (c, out) /\
    combine_main digest false (replicate (S (S (length (events d)))) (journal_source d)) None =
      (out ++ (flush digest c "end_of_input").2, Ok tt).
Proof.
  intros Hopen Hcolon. unfold open_journal in Hopen. destruct ((retain <? 2) || (max_pages <? 32)) eqn:Hr; [done|].
  apply orb_false_iff in Hr as [Hr%Z.ltb_ge _]. apply Ok_inj in Hopen.
  assert (j = Journal (Db [] 0 (<["journal_id" := VStr identity]> ∅)) retain None VNone) as -> by (by rewrite <- Hopen).
  intros d. assert (readable identity retain d) as Hd.
  { apply (collect_readable sha256 full identity epochs lines 0 (Journal _ retain None VNone) []); cbn [j_retain j_db]; [lia|].
    split; cbn [state events]; [|by rewrite lookup_insert_eq|constructor].
    constructor; cbn; [by intros [|i] r Hi|done|constructor|unfold len; cbn; lia]. }
  destruct (consume_all digest identity Hcolon retain d Hd) as (c & out & Hf & Hc).
  exists c, out. split; [done|]. unfold combine_main. by rewrite Hc.
Qed.

Lemma collected_is_combined_witness :
  let j := Journal (Db [] 0 {["journal_id" := VStr "j"]}) 2 None VNone in
  let d := j_db (collect_loop demo_sha (fun _ => false) (fun _ => "e1") 0 j demo_lines []).1.1 in
  length (events d) = 2%nat /\ exists c out,
    feed_rows (fun _ => "id") (new_combiner 128 128) (map (activity_row "j") (events d)) = Ok (c, out) /\
    combine_main (fun _ => "id") false (replicate (S (S (length (events d)))) (journal_source d)) None =
      (out ++ (flush (fun _ => "id") c "end_of_input").2, Ok tt).
Proof.
  intros j d. split; [vm_compute; reflexivity|].
  apply (collected_is_combined demo_sha (fun _ => false) (fun _ => "id") 2 32 "j" (fun _ => "e1") demo_lines j).
  - reflexivity.
  - repeat (apply List.Forall_cons; [discriminate|]). apply List.Forall_nil.
Defined.

(** The exporter on a page of a journal: the projected rows and exit 0, the refusal
    and exit 1, and never an exception. *)
Lemma export_page retain identity d after limit : no_colon identity -> readable identity retain d ->
  1 <= limit <= 128 -> 0 <= after ->
  exists status out, export_main false (Some (cursor_text identity after)) limit
      (read_replay d (Some (cursor_text identity after)) limit) = Ok (status, Some out) /\
    if (after <? oldest_id d - 1) || (newest_id d <? after) then status = 1 /\ has "error" out = true
    else status = 0 /\ exists rows, get "events" out = Some (VList rows) /\
      map row_of_val rows = map (activity_row identity) (page_of d after limit).
Proof.
  intros Hcolon [Hwf Hj Ht] Hl Ha. unfold export_main, read_replay. rewrite (replay_at retain d Hwf identity Hj Hcolon) by lia.
  replace ((1 <=? limit) && (limit <=? 128)) with true by lia. cbn [negb andb].
  destruct (Z.ltb_spec after (oldest_id d - 1)); cbn [orb]; [by do 2 eexists|].
  destruct (Z.ltb_spec (newest_id d) after); cbn [orb]; [by do 2 eexists|].
  set (rows := page_of d after limit). set (page := boundary_of d identity ++ _).
  destruct (page_rows_docs identity rows) as (vals & Hv & out & Ho & Hm).
  { unfold rows. rewrite (JournalReplay.page_rows retain d Hwf). by apply Forall_take, Forall_drop. }
  assert (project_page (VDict page) = Ok (set "events" (VList out) (set "format" (VStr "agent_activity/v1") page))) as ->.
  { unfold project_page. change (has "error" page) with false.
    change (get "events" page) with (Some (VList (map (event_doc identity) rows))). cbv iota.
    assert (len (map (event_doc identity) rows) <= 128) as Hlen.
    { unfold len. rewrite length_map. pose proof (page_length retain d Hwf after limit) as Hp. fold rows in Hp.
      unfold len in Hp. lia. }
    destruct (Z.ltb_spec 128 (len (map (event_doc identity) rows))); [lia|].
    change (get "next_cursor" page) with (Some (VStr (cursor_text identity (after + len rows)))). cbv iota.
    by rewrite Hv, Ho. }
  do 2 eexists. split; [reflexivity|]. rewrite !has_set. cbn [orb String.eqb]. split; [done|].
  exists out. split; [apply get_set_eq|done].
Qed.
