(* ===== verification/MetaExport.v ===== *)
(** * The metadata export (env/ai-traffic/metadata_export.py)

    The values of a saved live receipt, decoded again from the ring payloads it
    holds, as a document and as a markdown page.  Parameters: the digest, the JSON
    reader and the text of a list or an object. *)

From S2P Require Import Prelude PyVal Text Decoders Export Journal Authority.

Section export.
Variable sha256 : bytes -> string.
Variable json_loads : bytes -> result val.

(** [json.loads] of a value that must be text. *)
Definition loads_text (v : val) : result val :=
  match v with
  | VStr s => json_loads (encode s)
  | VText l => match utf8_encode l with Some b => json_loads b | None => Err UnicodeError end
  | _ => Err TypeError
  end.

(** [bytes.fromhex] of a value that must be text. *)
Definition hex_value (v : val) : result bytes :=
  match v with VStr s => fromhex s | VText _ => Err (ValueError "non-hexadecimal number") | _ => Err TypeError end.

Definition mismatch {A} (msg : string) : result A := Err (ValueError msg).

(** One captured payload, checked against the program and what its record says. *)
Definition read_item (program it : val) : result dict :=
  let? data := subscript "data" it in
  let? payload := hex_value data in
  let? hook := subscript "hook" it in
  let wrong := mismatch "unexpected transport record" in
  if negb (val_eqb hook (VStr "prog")) then wrong else
  let? s := subscript "slot" it in
  let? slot := subscript "slot" program in
  if negb (val_eqb s slot) then wrong else
  let? n := subscript "len" it in
  if negb (val_eqb n (VInt (len payload))) then wrong else
  method_decode payload.

Fixpoint read_batches (program : val) (batches : list val) : result (list dict) :=
  match batches with
  | [] => Ok []
  | batch :: batches =>
      let? transport := subscript "transport" batch in
      let? items := py_iter transport in
      let? rs := mapM_r (read_item program) items in
      let? rest := read_batches program batches in
      Ok (rs ++ rest)
  end.

(** [[event for case in cases for event in case["events"]]]. *)
Fixpoint case_events (cases : list val) : result (list val) :=
  match cases with
  | [] => Ok []
  | c :: cases =>
      let? events := subscript "events" c in
      let? vs := py_iter events in
      let? rest := case_events cases in
      Ok (vs ++ rest)
  end.

(** The text of a value: code points, or nothing when it is not UTF-8. *)
Definition text_of (b : bytes) : val :=
  match utf8_decode b with
  | Some cps => if forallb (fun c => c <? 128) cps then VStr (decode_ascii cps) else VText cps
  | None => VNone
  end.

Definition value_of (record : dict) : result (option dict) :=
  if mem_str (sget "status_name" record) ["complete"; "truncated"] then
    let? b := fromhex (sget "value_hex" record) in
    Ok (Some [("text", text_of b); ("hex", getv "value_hex" record);
              ("original_bytes", getv "original_length" record); ("copied_bytes", getv "copied_length" record)])
  else Ok None.

Definition observation (record : dict) : result val :=
  let? value := value_of record in
  Ok (VDict
    [("field", match value with Some _ => VStr "root_object.method" | None => VNone end);
     ("value", match value with Some v => VDict v | None => VNone end);
     ("record", VDict record)]).

Fixpoint without_records (cases : list val) : result (list val) :=
  match cases with
  | [] => Ok []
  | c :: cases =>
      let? events := subscript "events" c in
      if truthy events then without_records cases else
      let? name := subscript "case" c in
      let? filter := subscript "filter" c in
      let? rest := without_records cases in
      Ok (VDict [("case", name); ("configured_filter", filter)] :: rest)
  end.

(** [export]: the receipt's file name and bytes. *)
Definition export (name : string) (raw : bytes) : result dict :=
  let? receipt := json_loads raw in
  let? files := subscript "files" receipt in
  let? text := subscript "result.json" files in
  let? test := loads_text text in
  let? passed := subscript "passed" receipt in
  let? both := if truthy passed then let? p := subscript "passed" test in Ok (truthy p) else Ok false in
  if negb both then mismatch "this export requires a passed live receipt" else
  let? build := subscript "program_build" receipt in
  let? programs := subscript "programs" build in
  let? program := subscript "method" programs in
  let? batches := subscript "batches" test in
  let? batches := py_iter batches in
  let? records := read_batches program batches in
  let? events := subscript "events" test in
  if negb (val_eqb (VList (map VDict records)) events)
  then mismatch "ring payloads differ from the saved decoded records" else
  let? comparisons := subscript "comparisons" test in
  let? cases := py_iter comparisons in
  let? compared := case_events cases in
  if negb (val_eqb (VList compared) (VList (map VDict records)))
  then mismatch "fixture comparison records differ from the captured records" else
  let? observations := mapM_r observation records in
  let? runtime := subscript "runtime" build in
  let? section := subscript "section" program in
  let? program_sha := subscript "sha256" program in
  let? missing := without_records cases in
  Ok [("schema", VStr "application_metadata_export/v1"); ("evidence_tier", VStr "MEASURED");
      ("value_witness", VStr "SELF: probe output from authored live fixture requests");
      ("source_receipt", VStr name); ("source_sha256", VStr (sha256 raw)); ("runtime", runtime);
      ("hook", section); ("program_sha256", program_sha);
      ("representation", VStr "json_string_escaped_bytes"); ("observations", VList observations);
      ("fixture_cases_without_records", VList missing)].
End export.

(** ** The page *)

(** A line: its code points. *)
Abbreviation line := (list Z).
Definition EM_DASH : line := [0x2014].
Definition MIDDLE_DOT : line := [0xb7].

(** [l.replace(c, by)] of one character. *)
Definition replace_char (c : Z) (by_ : line) (l : line) : line :=
  List.flat_map (fun x => if x =? c then by_ else [x]) l.

(** [json.dumps(text, ensure_ascii=True)] with pipes and backquotes escaped. *)
Definition shown_text (text : val) : option line :=
  match text with
  | VStr s => Some (encode s)
  | VText l => Some l
  | _ => None
  end.
Definition json_cell (cps : line) : line :=
  replace_char 96 (encode "\u0060") (replace_char 124 (encode "\u007c") (encode (json_str cps))).

Section markdown.
Variable repr : val -> line.

(** A value in a format string. *)
Definition fmt (v : val) : line :=
  match v with
  | VNone => encode "None"
  | VBool b => encode (if b then "True" else "False")
  | VInt z => encode (py_str z)
  | VStr s => encode s
  | VText l => l
  | _ => repr v
  end.

Definition code (l : line) : line := 96 :: l ++ [96].

(** The displayed value and its original size. *)
Definition shown (value : val) : result (line * line) :=
  match value with
  | VNone => Ok (EM_DASH, encode "unknown")
  | _ =>
      let? text := subscript "text" value in
      let? cell := match text with
                   | VNone => let? h := subscript "hex" value in
                              match h with
                              | VStr h => Ok (encode "hex: " ++ encode h)
                              | _ => Err TypeError
                              end
                   | _ => match shown_text text with Some cps => Ok (json_cell cps) | None => Err TypeError end
                   end in
      let? original := subscript "original_bytes" value in
      Ok (code cell, fmt original)
  end.

Definition row (observation : val) : result line :=
  let? record := subscript "record" observation in
  let? value := subscript "value" observation in
  let? (cell, original) := shown value in
  let? sequence := subscript "sequence" record in
  let? status := subscript "status_name" record in
  let? copied := subscript "copied_length" record in
  let? result := subscript "getter_result" record in
  let bar := encode " | " in
  Ok (encode "| " ++ fmt sequence ++ bar ++ cell ++ bar ++ fmt status ++ bar ++ original ++ bar ++
      fmt copied ++ bar ++ fmt result ++ encode " |").

Definition missing_line (c : val) : result line :=
  let? name := subscript "case" c in
  let? filter := subscript "configured_filter" c in
  Ok (encode "- " ++ code (fmt name) ++ encode " (configured filter: " ++ code (fmt filter) ++
      encode "): no getter record.").

Definition head_lines : list line :=
  [encode "# Extracted application metadata"; [];
   encode "**MEASURED " ++ EM_DASH ++ encode " saved live TMM run.** These are actual probe";
   encode "values from authored fixture requests. They are not production agent data.";
   encode "Values below are decoded from the captured ring payloads. The exporter";
   encode "checks them against the saved records before displaying them."; [];
   encode "## Values"; [];
   encode "Field: `root_object.method`. Values use JSON notation. Escapes in the";
   encode "application's string are preserved; the exporter does not expand them."; [];
   encode "| Sequence | Extracted value (JSON notation) | Status | Original bytes | Copied bytes | Getter result |";
   encode "|---|---|---|---|---|---|"].

Definition between_lines : list line :=
  [[]; encode "An empty string with complete status is a captured value. An error or";
   encode "budget-exhausted record has no extracted value; it does not establish absence.";
   encode "The truncated record contains only the displayed prefix."; [];
   encode "## Inputs without a field observation"; [];
   encode "These labels come from the isolated fixture, not from probe field extraction."; []].

Definition source_lines (d : dict) : result (list line) :=
  let? receipt := item "source_receipt" d in
  let? sha := item "source_sha256" d in
  let? runtime := item "runtime" d in
  let? build := subscript "build_id" runtime in
  let? hook := item "hook" d in
  let? program := item "program_sha256" d in
  Ok [[]; encode "These cases have no extracted field value; no missing value is filled in."; [];
      encode "## Source and record context"; [];
      encode "- Receipt: `evidence/cache/" ++ fmt receipt ++ encode "`.";
      encode "- Receipt SHA-256: " ++ code (fmt sha) ++ encode ".";
      encode "- TMM build ID: " ++ code (fmt build) ++ encode ".";
      encode "- Hook: " ++ code (fmt hook) ++ encode ".";
      encode "- Program SHA-256: " ++ code (fmt program) ++ encode ".";
      encode "- Value witness: SELF. See the evidence index for the separate kernel witnesses."; [];
      encode "The JSON export also retains each complete probe record: instance, config";
      encode "revision, run token, monotonic timestamp, sequence, return code, read counts";
      encode "and output-health fields. No object addresses are exported."; [];
      encode "## Reproduce the export"; [];
      encode "From the repository root:"; [];
      encode "```sh";
      encode "python3 env/ai-traffic/metadata_export.py";
      encode "python3 env/ai-traffic/metadata_export.py --format markdown";
      encode "```"; [];
      encode "Both commands read the saved receipt. They do not load a probe or send traffic.";
      encode "The first command emits JSON, including exact hexadecimal value bytes."; [];
      encode "[Field scope and limits](METADATA.md#7-field-result--measured-on-the-pinned-build)";
      MIDDLE_DOT ++ encode " [Evidence index](../../SOURCES.md#root-object-method-extraction-2026-09-28)"].

(** [markdown]: the lines, each ended by a newline. *)
Definition markdown (d : dict) : result (list line) :=
  let? observations := item "observations" d in
  let? observations := py_iter observations in
  let? rows := mapM_r row observations in
  let? missing := item "fixture_cases_without_records" d in
  let? missing := py_iter missing in
  let? missing := mapM_r missing_line missing in
  let? sources := source_lines d in
  Ok (head_lines ++ rows ++ between_lines ++ missing ++ sources).
End markdown.
