(* ===== verification/MetaExportSpec.v ===== *)
(** * The metadata page shows what was captured

    A value from the traffic cannot break the table it is shown in, and a reader of
    JSON gets it back from its cell. *)

From S2P Require Import Prelude PyVal Decimal Text Decoders DecodersSpec Export ExportSpec ExportText Journal Authority Json MetaExport.

(** ** Reading a cell *)

(** The UTF-16 units of a JSON string, joined. *)
Fixpoint join_units (l : list Z) : list Z :=
  match l with
  | [] => []
  | u :: t =>
      match t with
      | v :: t' =>
          if ((0xd800 <=? u) && (u <=? 0xdbff)) && ((0xdc00 <=? v) && (v <=? 0xdfff))
          then 0x10000 + (u - 0xd800) * 1024 + (v - 0xdc00) :: join_units t'
          else u :: join_units t
      | [] => [u]
      end
  end.

Definition units (c : Z) : list Z :=
  if c <? 0x10000 then [c] else [0xd800 + (c - 0x10000) / 1024; 0xdc00 + (c - 0x10000) mod 1024].

(** A JSON string literal: its code points. *)
Definition read_literal (l : list Z) : option (list Z) :=
  match l with
  | 34 :: t => match string_body (map chr t) with Some (us, []) => Some (join_units us) | _ => None end
  | _ => None
  end.

Lemma join_units_scalar c l : scalar c -> join_units (units c ++ l) = c :: join_units l.
Proof.
  intros [Hc Hs]. unfold units. destruct (Z.ltb_spec c 0x10000).
  - cbn [app join_units]. destruct l as [|v l]; [done|].
    assert ((0xd800 <=? c) && (c <=? 0xdbff) = false) as -> by lia. done.
  - cbn [app join_units]. assert (0 <= (c - 0x10000) / 1024 < 1024) by (Z.div_mod_to_equations; lia).
    assert (0 <= (c - 0x10000) mod 1024 < 1024) by (Z.div_mod_to_equations; lia).
    replace (_ && _) with true by lia. f_equal. Z.div_mod_to_equations. lia.
Qed.

Lemma join_units_scalars l : Forall scalar l -> join_units (flat_map units l) = l.
Proof. induction 1 as [|c l Hc _ IH]; [done|]. cbn [flat_map]. by rewrite join_units_scalar, IH. Qed.

(** ** What a string literal is made of *)

(** The characters of a cell: printable, neither a bar nor a backquote. *)
Definition cell_char (c : Z) : bool := (32 <=? c) && (c <? 127) && negb (c =? 124) && negb (c =? 96).

(** One code point in a cell: as [json.dumps] writes it, or escaped. *)
Definition cell_of (c : Z) : list ascii :=
  if c =? 124 then str_list "\u007c" else if c =? 96 then str_list "\u0060" else json_char c.

Lemma hex4_value z : 0 <= z < 65536 ->
  (((z / 4096 mod 16) * 16 + z / 256 mod 16) * 16 + z / 16 mod 16) * 16 + z mod 16 = z.
Proof. intros Hz. Z.div_mod_to_equations. lia. Qed.

Lemma string_body_hex4 z l : 0 <= z < 65536 ->
  string_body (chr 92 :: chr 117 :: hex4 z ++ l) =
    match string_body l with Some (xs, t) => Some (z :: xs, t) | None => None end.
Proof.
  intros Hz. cbn [hex4 app string_body]. change (ord (chr 92) =? 34) with false. change (ord (chr 92) =? 92) with true.
  change (ord (chr 117) =? 117) with true. cbv iota.
  rewrite !hexval_digit by (Z.div_mod_to_equations; lia). by rewrite hex4_value.
Qed.

(** Every code point of a cell reads back as its units. *)
Lemma string_body_cell c l : scalar c ->
  string_body (cell_of c ++ l) = match string_body l with Some (xs, t) => Some (units c ++ xs, t) | None => None end.
Proof.
  intros [Hc Hs]. unfold cell_of. destruct (Z.eqb_spec c 124) as [->|H1].
  { change (str_list "\u007c" ++ l) with (chr 92 :: chr 117 :: hex4 124 ++ l). by rewrite string_body_hex4. }
  destruct (Z.eqb_spec c 96) as [->|H2].
  { change (str_list "\u0060" ++ l) with (chr 92 :: chr 117 :: hex4 96 ++ l). by rewrite string_body_hex4. }
  unfold units. destruct (Z.ltb_spec c 128).
  { rewrite string_body_char by lia. destruct (Z.ltb_spec c 0x10000); [|lia]. by destruct (string_body l) as [[xs t]|]. }
  unfold json_char. repeat match goal with |- context [c =? ?n] => destruct (Z.eqb_spec c n); [lia|] end.
  replace ((32 <=? c) && (c <? 127)) with false by lia. destruct (Z.ltb_spec c 0x10000).
  - cbn [app]. rewrite string_body_hex4 by lia. by destruct (string_body l) as [[xs t]|].
  - cbv zeta. rewrite <- app_assoc. cbn [app].
    rewrite !string_body_hex4 by (Z.div_mod_to_equations; lia). by destruct (string_body l) as [[xs t]|].
Qed.

Lemma string_body_cells cps : Forall scalar cps ->
  string_body (flat_map cell_of cps ++ [chr 34]) = Some (flat_map units cps, []).
Proof.
  induction 1 as [|c l Hc _ IH]; [done|]. cbn [flat_map]. rewrite <- app_assoc, string_body_cell by done. by rewrite IH.
Qed.

Lemma hexdigit_cell d : 0 <= d < 16 -> cell_char (ord (hexdigit d)) = true.
Proof.
  intros Hd. assert (d ∈ seqZ 0 16) as Hin by (apply elem_of_seqZ; lia). revert Hin. generalize d.
  apply Forall_forall. by repeat (apply Forall_cons; split; [by vm_compute|]).
Qed.

Lemma hex4_cell z : Forall (fun x => cell_char (ord x) = true) (hex4 z).
Proof. repeat (apply Forall_cons; split; [apply hexdigit_cell; Z.div_mod_to_equations; lia|]). apply Forall_nil_2. Qed.

Lemma json_char_cell c : c <> 124 -> c <> 96 -> Forall (fun x => cell_char (ord x) = true) (json_char c).
Proof.
  intros H1 H2. unfold json_char.
  repeat match goal with |- context [c =? ?n] =>
    destruct (Z.eqb_spec c n); [by repeat (apply Forall_cons; split; [by vm_compute|])|] end.
  destruct ((32 <=? c) && (c <? 127)) eqn:Hp.
  { apply Forall_singleton. bool_prop. rewrite ord_chr by lia. unfold cell_char.
    apply Z.eqb_neq in H1, H2. rewrite H1, H2. lia. }
  destruct (c <? 0x10000).
  - do 2 (apply Forall_cons; split; [by vm_compute|]). apply hex4_cell.
  - cbv zeta. apply Forall_app. split; do 2 (apply Forall_cons; split; [by vm_compute|]); apply hex4_cell.
Qed.

Lemma cell_of_cell c : Forall (fun x => cell_char (ord x) = true) (cell_of c).
Proof.
  unfold cell_of. destruct (Z.eqb_spec c 124); [by repeat (apply Forall_cons; split; [by vm_compute|])|].
  destruct (Z.eqb_spec c 96); [by repeat (apply Forall_cons; split; [by vm_compute|])|]. by apply json_char_cell.
Qed.

Lemma replace_char_none c b l : c ∉ l -> replace_char c b l = l.
Proof.
  induction l as [|x l IH]; intros Hn; [done|]. unfold replace_char in *. cbn [flat_map].
  destruct (Z.eqb_spec x c) as [->|]; [set_solver|]. rewrite IH by set_solver. done.
Qed.

Lemma replace_char_app c b l k : replace_char c b (l ++ k) = replace_char c b l ++ replace_char c b k.
Proof. unfold replace_char. apply flat_map_app. Qed.

Lemma cell_chars_none c (l : list ascii) : cell_char c = false ->
  Forall (fun x => cell_char (ord x) = true) l -> c ∉ map ord l.
Proof. intros Hc Hl (x & -> & Hx)%list_elem_of_fmap. rewrite Forall_forall in Hl. rewrite (Hl x Hx) in Hc. done. Qed.

Lemma replaced_char c : replace_char 96 (encode "\u0060") (replace_char 124 (encode "\u007c") (map ord (json_char c))) =
  map ord (cell_of c).
Proof.
  unfold cell_of. destruct (Z.eqb_spec c 124) as [->|H1]; [by vm_compute|].
  destruct (Z.eqb_spec c 96) as [->|H2]; [by vm_compute|].
  rewrite (replace_char_none 124), (replace_char_none 96); [done|..]; by apply cell_chars_none, json_char_cell.
Qed.

Lemma json_cell_text cps : json_cell cps = 34 :: map ord (flat_map cell_of cps) ++ [34].
Proof.
  unfold json_cell, encode at 3. rewrite str_list_json_str. cbn [map]. rewrite map_app. cbn [map].
  change (ord (chr 34)) with 34. rewrite (app_comm_cons _ [34] 34), !replace_char_app.
  change (replace_char 96 (encode "\u0060") (replace_char 124 (encode "\u007c") [34])) with [34]. rewrite app_comm_cons.
  f_equal. induction cps as [|c cps IH]; [done|]. cbn [flat_map]. rewrite !map_app.
  change (34 :: map ord (json_char c) ++ map ord (flat_map json_char cps))
    with ([34] ++ map ord (json_char c) ++ map ord (flat_map json_char cps)).
  change (34 :: map ord (flat_map json_char cps)) with ([34] ++ map ord (flat_map json_char cps)) in IH.
  rewrite !replace_char_app in *. rewrite replaced_char.
  change (replace_char 96 (encode "\u0060") (replace_char 124 (encode "\u007c") [34])) with [34] in *.
  injection IH as IH. by rewrite IH.
Qed.

(** A cell is one line without a bar or a backquote, and a reader of JSON gets the text
    back. *)
Lemma json_cell_exact cps : Forall scalar cps ->
  Forall (fun x => cell_char x = true) (json_cell cps) /\ read_literal (json_cell cps) = Some cps.
Proof.
  intros Hs. rewrite json_cell_text. split.
  - apply Forall_cons. split; [done|]. apply Forall_app. split; [|by apply Forall_singleton]. apply Forall_map.
    clear Hs. induction cps as [|c cps IH]; [apply Forall_nil_2|]. cbn [flat_map]. apply Forall_app. split; [apply cell_of_cell|done].
  - cbn [read_literal]. rewrite map_app, map_map. assert (map (fun x => chr (ord x)) (flat_map cell_of cps) = flat_map cell_of cps) as ->.
    { erewrite map_ext; [apply map_id|]. intros x. apply chr_ord. }
    cbn [map]. rewrite string_body_cells by done. by rewrite join_units_scalars.
Qed.

(** ** The row of a record *)

(** The fields of a line between its bars. *)
Fixpoint cells (l : line) : list line :=
  match l with
  | [] => [[]]
  | c :: t => if c =? 124 then [] :: cells t
              else match cells t with w :: ws => (c :: w) :: ws | [] => [[c]] end
  end.

Lemma cells_app w l : 124 ∉ w -> cells (w ++ 124 :: l) = w :: cells l.
Proof.
  induction w as [|c w IH]; intros Hn; [done|]. cbn [app cells]. destruct (Z.eqb_spec c 124) as [->|]; [set_solver|].
  rewrite IH by set_solver. done.
Qed.

Definition padded (w : line) : line := 32 :: w ++ [32].

(** A line with these fields. *)
Lemma cells_row ws : Forall (fun w => 124 ∉ w) ws ->
  cells (124 :: concat (map (fun w => padded w ++ [124]) ws)) = [] :: map padded ws ++ [[]].
Proof.
  intros H. cbn [cells]. change (124 =? 124) with true. cbv iota. f_equal.
  induction H as [|w ws Hw _ IH]; [done|]. cbn [map concat app]. rewrite <- app_assoc. cbn [app].
  rewrite cells_app, IH; [done|]. unfold padded. set_solver.
Qed.

Lemma int_line z : (124 ∉ encode (py_str z)) /\ (10 ∉ encode (py_str z)).
Proof.
  assert (Forall (fun c => ord c <> 124 /\ ord c <> 10) (str_list (py_str z))) as H.
  { assert (forall l, is_digits l -> Forall (fun c => ord c <> 124 /\ ord c <> 10) l) as Hd.
    { intros l Hl. eapply Forall_impl; [exact Hl|]. intros c Hc. unfold is_digit in Hc. lia. }
    destruct z as [|p|p]; [by repeat constructor|by apply Hd, (pretty_digits (N.pos p))|].
    apply Forall_cons. split; [by vm_compute|]. by apply Hd, (pretty_digits (N.pos p)). }
  unfold encode. rewrite Forall_forall in H. split; intros (c & Hc & Hin)%list_elem_of_fmap; apply H in Hin; lia.
Qed.

(** The record's own fields. *)
Lemma method_fields p e : method_decode p = Ok e -> exists name seq original copied getter,
  assoc (iget "status" e) METHOD_STATUSES = Some name /\ get "status_name" e = Some (VStr name) /\
  get "sequence" e = Some (VInt seq) /\ get "original_length" e = Some (VInt original) /\
  get "copied_length" e = Some (VInt copied) /\ get "getter_result" e = Some (VInt getter) /\
  get "value_hex" e = Some (VStr (hex (ztake copied (take 64 (drop 80 p))))).
Proof.
  intros H. pose proof (method_keeps p e H) as [_ Hk]. pose proof (method_value p e H) as (_ & Hv & _).
  rewrite Forall_forall in Hk. rewrite (value_at _ VALUE_FORMAT) in Hv by (by left).
  assert (get "status" e = get "status" (record_of (value_names "getter_result") VALUE_FORMAT p)) as Hst
    by (apply Hk; apply (bool_decide_unpack _); vm_compute; exact Logic.I).
  assert (exists name, assoc (iget "status" e) METHOD_STATUSES = Some name /\ get "status_name" e = Some (VStr name)) as (name & Hn1 & Hn2).
  { unfold iget at 1. rewrite Hst. clear Hk Hv Hst. unfold method_decode in H. cbv zeta in H.
    fold (iget "status" (record_of (value_names "getter_result") VALUE_FORMAT p)).
    set (st := iget "status" (record_of (value_names "getter_result") VALUE_FORMAT p)) in *.
    repeat (match type of H with (if ?b then _ else _) = _ => destruct b eqn:?; [done|] end).
    apply Ok_inj in H as <-. bool_prop. unfold in_table in *. destruct (assoc st METHOD_STATUSES) as [name|] eqn:E; [|done].
    exists name. split; [done|]. rewrite !get_set. cbn [String.eqb Ascii.eqb Bool.eqb]. unfold name_of. by rewrite E. }
  set (r := record_of (value_names "getter_result") VALUE_FORMAT p) in *.
  exists name, (iget "sequence" r), (iget "original_length" r), (iget "copied_length" r), (iget "getter_result" r).
  do 2 (split; [done|]). do 4 (split; [rewrite Hk by (apply (bool_decide_unpack _); vm_compute; exact Logic.I); reflexivity|]). done.
Qed.

(** The bytes a payload carries as its value. *)
Definition captured_value (p : bytes) (copied : Z) : bytes := ztake copied (take 64 (drop 80 p)).

(** The row that shows a captured payload. *)
Definition shows (p : bytes) (row : line) : Prop :=
  exists e name seq original copied getter cell size,
    method_decode p = Ok e /\ get "status_name" e = Some (VStr name) /\ get "sequence" e = Some (VInt seq) /\
    get "original_length" e = Some (VInt original) /\ get "copied_length" e = Some (VInt copied) /\
    get "getter_result" e = Some (VInt getter) /\
    cells row = [] :: map padded [encode (py_str seq); cell; encode name; size; encode (py_str copied);
                                  encode (py_str getter)] ++ [[]] /\
    (10 ∉ row) /\
    if mem_str name ["complete"; "truncated"] then
      size = encode (py_str original) /\
      match utf8_decode (captured_value p copied) with
      | Some cps => exists c, cell = code c /\ read_literal c = Some cps
      | None => cell = code (encode "hex: " ++ encode (hex (captured_value p copied)))
      end
    else cell = EM_DASH /\ size = encode "unknown".

(** What [utf8_decode] gives is Unicode scalars. *)
Lemma utf8_scalars n : forall b cps, (length b <= n)%nat -> is_bytes b -> utf8_decode b = Some cps -> Forall scalar cps.
Proof.
  induction n as [|n IH]; intros b cps Hl Hb.
  { destruct b; [by intros [= <-]|cbn in Hl; lia]. }
  destruct b as [|a t1]; [by intros [= <-]|]. apply Forall_cons in Hb as [Ha Ht1]. cbn [utf8_decode length] in *.
  assert (forall c t, (length t <= n)%nat -> is_bytes t -> scalar c -> option_map (cons c) (utf8_decode t) = Some cps ->
    Forall scalar cps) as Hgo.
  { intros c t Hlt Hbt Hc. destruct (utf8_decode t) as [l|] eqn:E; [|done]. intros [= <-].
    apply Forall_cons. split; [done|]. by apply (IH t l). }
  unfold is_byte in *. destruct (Z.ltb_spec a 0x80); [apply Hgo; [lia|done|unfold scalar; lia]|].
  destruct t1 as [|b1 t2]; [done|]. apply Forall_cons in Ht1 as [_ Ht2]. cbn [length] in Hl. unfold cont.
  destruct ((0xc2 <=? a) && (a <=? 0xdf)) eqn:E2.
  { destruct ((0x80 <=? b1) && (b1 <=? 0xbf)) eqn:C1; [|done]. bool_prop. apply Hgo; [lia|done|unfold scalar; lia]. }
  destruct t2 as [|b2 t3]; [done|]. apply Forall_cons in Ht2 as [_ Ht3]. cbn [length] in Hl.
  destruct ((0xe0 <=? a) && (a <=? 0xef)) eqn:E3.
  { cbv zeta. match goal with |- (if ?b then _ else _) = _ -> _ => destruct b eqn:C end; [|done].
    apply Hgo; [lia|done|]. unfold scalar. bool_prop. lia. }
  destruct t3 as [|b3 t4]; [done|]. apply Forall_cons in Ht3 as [_ Ht4]. cbn [length] in Hl.
  destruct ((0xf0 <=? a) && (a <=? 0xf4)) eqn:E4; [|done].
  cbv zeta. match goal with |- (if ?b then _ else _) = _ -> _ => destruct b eqn:C end; [|done].
  apply Hgo; [lia|done|]. unfold scalar. bool_prop. lia.
Qed.

(** A field of the table: no bar, no newline. *)
Definition field (w : line) : Prop := (124 ∉ w) /\ (10 ∉ w).

Lemma row_lines ws : Forall field ws ->
  cells (124 :: concat (map (fun w => padded w ++ [124]) ws)) = [] :: map padded ws ++ [[]] /\
  (10 ∉ 124 :: concat (map (fun w => padded w ++ [124]) ws)).
Proof.
  intros H. split; [apply cells_row; eapply Forall_impl; [exact H|]; by intros w []|].
  apply not_elem_of_cons. split; [done|]. induction H as [|w ws [_ Hw] _ IH]; [apply not_elem_of_nil|].
  cbn [map concat]. unfold padded. set_solver.
Qed.

Lemma row_form a b c d e f :
  encode "| " ++ a ++ encode " | " ++ b ++ encode " | " ++ c ++ encode " | " ++ d ++ encode " | " ++
    e ++ encode " | " ++ f ++ encode " |" =
  124 :: concat (map (fun w => padded w ++ [124]) [a; b; c; d; e; f]).
Proof. unfold padded. cbn [map concat app]. repeat (rewrite <- ?app_assoc; cbn [app]). reflexivity. Qed.

Lemma int_field z : field (encode (py_str z)).
Proof. apply int_line. Qed.

Lemma assoc_Forall {A} (P : A -> Prop) z (l : list (Z * A)) a :
  Forall (fun kv => P kv.2) l -> assoc z l = Some a -> P a.
Proof. induction 1 as [|[k v] l Hv _ IH]; cbn [assoc]; [done|]. destruct (z =? k); [by intros [= <-]|done]. Qed.

Lemma status_field z name : assoc z METHOD_STATUSES = Some name -> field (encode name).
Proof.
  apply (assoc_Forall (fun s => field (encode s))).
  repeat (apply Forall_cons; split; [split; (vm_compute; set_solver)|]). apply Forall_nil_2.
Qed.

Lemma code_field l : field l -> field (code l).
Proof. unfold field, code. intros []. split; set_solver. Qed.

Lemma cell_field cps : Forall scalar cps -> field (json_cell cps).
Proof.
  intros [H _]%json_cell_exact. rewrite Forall_forall in H. split; intros Hin%H; done.
Qed.

Lemma hex_field b : is_bytes b -> field (encode "hex: " ++ encode (hex b)).
Proof.
  intros Hb. assert (field (encode (hex b))) as [H1 H2].
  { unfold hex, encode. rewrite str_list_str. induction Hb as [|x b Hx _ [IH1 IH2]]; [split; apply not_elem_of_nil|].
    cbn [hex_list map]. pose proof (hexdigit_cell (x / 16)) as Ha. pose proof (hexdigit_cell (x mod 16)) as Hc.
    unfold is_byte in Hx. specialize (Ha ltac:(Z.div_mod_to_equations; lia)). specialize (Hc ltac:(Z.div_mod_to_equations; lia)).
    unfold cell_char in *. bool_prop. split; rewrite !not_elem_of_cons; repeat split; try done; lia. }
  change (encode "hex: ") with [104; 101; 120; 58; 32]. split; set_solver.
Qed.

Lemma encode_decode l : Forall (fun c => 0 <= c < 128) l -> encode (decode_ascii l) = l.
Proof.
  intros H. unfold encode, decode_ascii. rewrite str_list_str, map_map. induction H as [|c l Hc _ IH]; [done|].
  cbn [map]. rewrite ord_chr by lia. by rewrite IH.
Qed.

Lemma shown_text_of b cps : is_bytes b -> utf8_decode b = Some cps ->
  shown_text (text_of b) = Some cps /\ text_of b <> VNone /\ Forall scalar cps.
Proof.
  intros Hb H. pose proof (utf8_scalars (length b) b cps ltac:(lia) Hb H) as Hs. unfold text_of. rewrite H.
  destruct (forallb (fun c => c <? 128) cps) eqn:Ha; [|done]. split; [|done]. cbn [shown_text]. f_equal. apply encode_decode.
  rewrite Forall_forall in *. intros c Hc. pose proof (Hs c Hc) as [Hr _].
  rewrite List.forallb_forall in Ha. rewrite list_elem_of_In in Hc. apply Ha in Hc. lia.
Qed.

Lemma is_bytes_captured p n : is_bytes p -> is_bytes (captured_value p n).
Proof. intros H. unfold captured_value. rewrite ztake_take. by apply Forall_take, Forall_take, Forall_drop. Qed.

Lemma unknown_field : field EM_DASH /\ field (encode "unknown").
Proof. split; split; vm_compute; set_solver. Qed.

Lemma row_shows repr p e obs row : is_bytes p -> method_decode p = Ok e -> observation e = Ok obs ->
  MetaExport.row repr obs = Ok row -> shows p row.
Proof.
  intros Hp He Ho Hrow. destruct (method_fields p e He) as (name & seq & original & copied & getter & Hst & Hn & Hs & Hor & Hco & Hg & Hv).
  pose proof (is_bytes_captured p copied Hp) as Hb. fold (captured_value p copied) in Hv. set (v := captured_value p copied) in *.
  assert (exists cell size, row = 124 :: concat (map (fun w => padded w ++ [124])
      [encode (py_str seq); cell; encode name; size; encode (py_str copied); encode (py_str getter)]) /\
    field cell /\ field size /\
    if mem_str name ["complete"; "truncated"] then
      size = encode (py_str original) /\
      match utf8_decode v with
      | Some cps => exists c, cell = code c /\ read_literal c = Some cps
      | None => cell = code (encode "hex: " ++ encode (hex v))
      end
    else cell = EM_DASH /\ size = encode "unknown") as (cell & size & -> & Hc & Hz & Hshow).
  { unfold observation, value_of, sget in Ho. rewrite Hn, Hv in Ho. unfold getv in Ho. rewrite Hv, Hor, Hco in Ho. cbn [default] in Ho.
    destruct (mem_str name ["complete"; "truncated"]).
    - rewrite (fromhex_hex v Hb) in Ho. apply Ok_inj in Ho as <-. unfold MetaExport.row, shown in Hrow.
      cbn [subscript item get String.eqb Ascii.eqb Bool.eqb] in Hrow. unfold item in Hrow.
      rewrite Hs, Hn, Hco, Hg in Hrow. cbn [fmt] in Hrow. destruct (utf8_decode v) as [cps|] eqn:Hu.
      + destruct (shown_text_of v cps Hb Hu) as (Ht & Hne & Hsc). destruct (json_cell_exact cps Hsc) as [_ Hread].
        rewrite Ht in Hrow. destruct (text_of v) eqn:Etx; try done; apply Ok_inj in Hrow as <-;
          (eexists _, _; split; [apply row_form|]; split; [apply code_field; by apply cell_field|]; split; [apply int_field|];
           split; [done|]; by eexists).
      + assert (text_of v = VNone) as E by (unfold text_of; by rewrite Hu). rewrite E in Hrow. apply Ok_inj in Hrow as <-.
        eexists _, _. split; [apply row_form|]. split; [apply code_field; by apply hex_field|]. split; [apply int_field|]. done.
    - apply Ok_inj in Ho as <-. unfold MetaExport.row, shown in Hrow.
      cbn [subscript item get String.eqb Ascii.eqb Bool.eqb] in Hrow. unfold item in Hrow. rewrite Hs, Hn, Hco, Hg in Hrow.
      apply Ok_inj in Hrow as <-. eexists _, _. split; [apply row_form|]. destruct unknown_field. done. }
  destruct (row_lines [encode (py_str seq); cell; encode name; size; encode (py_str copied); encode (py_str getter)]) as [Hcells Hnl].
  { repeat (apply Forall_cons; split; [done || apply int_field || by eapply status_field|]). apply Forall_nil_2. }
  by exists e, name, seq, original, copied, getter, cell, size.
Qed.

(** ** The page of a receipt *)

(** The payloads a receipt holds, in order. *)
Definition batch_payloads (batch : val) : result (list bytes) :=
  let? transport := subscript "transport" batch in
  let? items := py_iter transport in
  mapM_r (fun it => let? data := subscript "data" it in hex_value data) items.

Definition captured (json_loads : bytes -> result val) (raw : bytes) : result (list bytes) :=
  let? receipt := json_loads raw in
  let? files := subscript "files" receipt in
  let? text := subscript "result.json" files in
  let? test := loads_text json_loads text in
  let? batches := subscript "batches" test in
  let? batches := py_iter batches in
  let? payloads := mapM_r batch_payloads batches in
  Ok (concat payloads).

Definition decodes (p : bytes) (e : dict) : Prop := is_bytes p /\ method_decode p = Ok e.

Lemma is_bytes_hex_value v b : hex_value v = Ok b -> is_bytes b.
Proof. destruct v; try done. apply is_bytes_fromhex. Qed.

Lemma read_item_payload program it e : read_item program it = Ok e ->
  exists p, (let? data := subscript "data" it in hex_value data) = Ok p /\ decodes p e.
Proof.
  unfold read_item. destruct (subscript "data" it) as [data|]; [|done]. destruct (hex_value data) as [p|] eqn:Hp; [|done].
  destruct (subscript "hook" it); [|done]. cbv zeta. destruct (negb _); [done|]. destruct (subscript "slot" it); [|done].
  destruct (subscript "slot" program); [|done]. destruct (negb _); [done|]. destruct (subscript "len" it); [|done].
  destruct (negb _); [done|]. intros He. exists p. split; [done|]. split; [by eapply is_bytes_hex_value|done].
Qed.

Lemma read_items_payloads program items : forall records, mapM_r (read_item program) items = Ok records ->
  exists ps, mapM_r (fun it => let? data := subscript "data" it in hex_value data) items = Ok ps /\ Forall2 decodes ps records.
Proof.
  induction items as [|it items IH]; intros records; cbn [mapM_r]; [intros <-%Ok_inj; by exists []|].
  destruct (read_item program it) as [e|] eqn:He; [|done]. apply read_item_payload in He as (p & Hp & Hd).
  destruct (mapM_r (read_item program) items) as [es|]; [|done]. intros <-%Ok_inj.
  destruct (IH es eq_refl) as (ps & Hps & Hf). exists (p :: ps). rewrite Hp, Hps. split; [done|by constructor].
Qed.

Lemma read_batches_payloads program batches : forall records, read_batches program batches = Ok records ->
  exists pss, mapM_r batch_payloads batches = Ok pss /\ Forall2 decodes (concat pss) records.
Proof.
  induction batches as [|b batches IH]; intros records; cbn [read_batches mapM_r]; [intros <-%Ok_inj; by exists []|].
  unfold batch_payloads at 1. destruct (subscript "transport" b) as [tr|]; [|done]. destruct (py_iter tr) as [items|]; [|done].
  destruct (mapM_r (read_item program) items) as [rs|] eqn:Hi; [|done]. apply read_items_payloads in Hi as (ps & Hps & Hf).
  destruct (read_batches program batches) as [rest|]; [|done]. intros <-%Ok_inj.
  destruct (IH rest eq_refl) as (pss & Hpss & Hfs). exists (ps :: pss). rewrite Hps, Hpss. split; [done|].
  cbn [concat]. by apply Forall2_app.
Qed.

(** What an export shows of its receipt. *)
Lemma export_captured sha256 json_loads name raw d : export sha256 json_loads name raw = Ok d ->
  exists payloads records observations,
    captured json_loads raw = Ok payloads /\ Forall2 decodes payloads records /\
    mapM_r observation records = Ok observations /\ get "observations" d = Some (VList observations).
Proof.
  unfold export, captured. destruct (json_loads raw) as [receipt|]; [|done]. destruct (subscript "files" receipt) as [files|]; [|done].
  destruct (subscript "result.json" files) as [text|]; [|done]. destruct (loads_text json_loads text) as [test|]; [|done].
  destruct (subscript "passed" receipt) as [passed|]; [|done].
  match goal with |- context [match ?x with Ok both => _ | Err _ => _ end = Ok d] => destruct x as [[]|]; [|done..] end. cbn [negb].
  destruct (subscript "program_build" receipt) as [build|]; [|done]. destruct (subscript "programs" build) as [programs|]; [|done].
  destruct (subscript "method" programs) as [program|]; [|done]. destruct (subscript "batches" test) as [bs|]; [|done].
  destruct (py_iter bs) as [batches|]; [|done]. destruct (read_batches program batches) as [records|] eqn:Hr; [|done].
  apply read_batches_payloads in Hr as (pss & Hpss & Hf). rewrite Hpss.
  destruct (subscript "events" test) as [events|]; [|done]. destruct (negb (val_eqb _ events)); [done|].
  destruct (subscript "comparisons" test) as [comparisons|]; [|done]. destruct (py_iter comparisons) as [cases|]; [|done].
  destruct (case_events cases) as [compared|]; [|done]. destruct (negb (val_eqb _ _)); [done|].
  destruct (mapM_r observation records) as [observations|] eqn:Ho; [|done].
  destruct (subscript "runtime" build) as [runtime|]; [|done]. destruct (subscript "section" program) as [section|]; [|done].
  destruct (subscript "sha256" program) as [psha|]; [|done]. destruct (without_records cases) as [missing|]; [|done].
  intros <-%Ok_inj. by exists (concat pss), records, observations.
Qed.

Lemma rows_show repr payloads records : Forall2 decodes payloads records -> forall observations rows,
  mapM_r observation records = Ok observations -> mapM_r (MetaExport.row repr) observations = Ok rows ->
  Forall2 shows payloads rows.
Proof.
  induction 1 as [|p e payloads records [Hp He] _ IH]; intros observations rows; cbn [mapM_r].
  { intros <-%Ok_inj. cbn [mapM_r]. intros <-%Ok_inj. constructor. }
  destruct (observation e) as [obs|] eqn:Ho; [|done]. destruct (mapM_r observation records) as [rest|]; [|done].
  intros <-%Ok_inj. cbn [mapM_r]. destruct (MetaExport.row repr obs) as [r|] eqn:Hr; [|done].
  destruct (mapM_r (MetaExport.row repr) rest) as [rs|] eqn:Hrs; [|done]. intros <-%Ok_inj.
  constructor; [by eapply row_shows|by eapply IH].
Qed.

(** The metadata page shows exactly what was captured.  When a receipt is exported
    and its page is written, the table has one row for every payload of the receipt, in
    order; whatever bytes the traffic put into a payload, its row is one line of six
    fields: the record's sequence, the value, the status, the original and copied
    lengths and the getter's result.  A value is there only for a complete or truncated
    record, and a reader of JSON gets exactly its text back from the cell, or its
    hexadecimal bytes when they are not text; every other record shows a dash. *)
Theorem metadata_page_exact sha256 json_loads repr name raw d lines :
  export sha256 json_loads name raw = Ok d -> markdown repr d = Ok lines ->
  exists payloads rows missing sources,
    captured json_loads raw = Ok payloads /\ Forall2 shows payloads rows /\
    lines = head_lines ++ rows ++ between_lines ++ missing ++ sources.
Proof.
  intros He Hm. apply export_captured in He as (payloads & records & observations & Hc & Hf & Ho & Hg).
  unfold markdown, item in Hm. rewrite Hg in Hm. cbn [py_iter] in Hm.
  destruct (mapM_r (MetaExport.row repr) observations) as [rows|] eqn:Hr; [|done].
  destruct (get "fixture_cases_without_records" d) as [ms|]; [|done]. destruct (py_iter ms) as [cases|]; [|done].
  destruct (mapM_r (missing_line repr) cases) as [missing|]; [|done]. destruct (source_lines repr d) as [sources|]; [|done].
  apply Ok_inj in Hm as <-. exists payloads, rows, missing, sources. split; [done|]. split; [|done]. by eapply rows_show.
Qed.

(** A receipt with one complete record, whose value holds a bar, a backquote and a
    newline, and one that could not be read. *)
Module MetaExample.
Definition payload (status : Z) (value : bytes) : bytes :=
  le_bytes 4 0x4A4D4554 ++ le_bytes 4 1 ++ replicate 48 0 ++ le_bytes 4 status ++ le_bytes 4 0 ++
  le_bytes 4 (len value) ++ le_bytes 4 (len value) ++ le_bytes 8 0 ++ value ++ replicate (64 - length value) 0.
Definition payloads : list bytes := [payload 1 [97; 124; 98; 96; 10]; payload 3 []].
Definition it (p : bytes) : val := VDict
  [("data", VStr (hex p)); ("hook", VStr "prog"); ("slot", VInt 11); ("len", VInt (len p))].
Definition records : list val :=
  List.flat_map (fun p => match method_decode p with Ok e => [VDict e] | Err _ => [] end) payloads.
Definition test : val := VDict
  [("passed", VBool true); ("batches", VList [VDict [("transport", VList (map it payloads))]]);
   ("events", VList records);
   ("comparisons", VList [VDict [("case", VStr "one"); ("filter", VStr "method"); ("events", VList records)];
                          VDict [("case", VStr "none"); ("filter", VStr "off"); ("events", VList [])]])].
Definition receipt : val := VDict
  [("passed", VBool true); ("files", VDict [("result.json", VStr "test")]);
   ("program_build", VDict
      [("runtime", VDict [("build_id", VStr "b1")]);
       ("programs", VDict [("method", VDict [("slot", VInt 11); ("section", VStr "fentry/f"); ("sha256", VStr "s1")])])])].
Definition json_loads (b : bytes) : result val :=
  if bytes_eqb b (encode "receipt") then Ok receipt else if bytes_eqb b (encode "test") then Ok test
  else Err (ValueError "json").
Definition repr (v : val) : line := [].
Definition document : dict :=
  match export hex json_loads "r.json" (encode "receipt") with Ok d => d | Err _ => [] end.
Definition page : list line := match markdown repr document with Ok ls => ls | Err _ => [] end.
End MetaExample.

Lemma metadata_page_exact_witness :
  exists payloads rows missing sources,
    captured MetaExample.json_loads (encode "receipt") = Ok payloads /\ Forall2 shows payloads rows /\
    MetaExample.page = head_lines ++ rows ++ between_lines ++ missing ++ sources.
Proof.
  apply (metadata_page_exact hex MetaExample.json_loads MetaExample.repr "r.json" (encode "receipt") MetaExample.document);
    vm_compute; reflexivity.
Defined.

Example metadata_page_row :
  (nth 14 MetaExample.page []) = encode "| 0 | `" ++ [34] ++ encode "a\u007cb\u0060\n" ++ [34] ++ encode "` | complete | 5 | 5 | 0 |".
Proof. vm_compute. reflexivity. Qed.
