(* ===== verification/HookDoc.v ===== *)
(** * The document of a hook map (substrate/mk_hook_map.py)

    What [main] writes around the map of [HookMap]: the JSON document, the index, the
    counts printed beside them, and the walk of a disassembly by its own labels.  The
    percentage of the coverage line is not modelled; the coverage itself is. *)

From S2P Require Import Prelude PyVal Text Hex Format Target Admit HookMap Json.

(** ** [_objdump_text] without addresses *)

(** A line that names a function. *)
Definition label_line (l : list ascii) : option Z :=
  match hex1 l with
  | Some (a, sp :: lt :: t) =>
      if (ord sp =? 32) && (ord lt =? 60) then
        match run1 (fun c => negb (ord c =? 62)) t with
        | Some (_, gt :: colon :: _) =>
            if (ord gt =? 62) && (ord colon =? 58) then Some (hex_value a) else None
        | _ => None
        end
      else None
  | _ => None
  end.

Fixpoint walk_labels (lines : list (list ascii)) (cur : option Z) (insns : list insn) : list (Z * list insn) :=
  match lines with
  | [] => closed cur insns
  | l :: t =>
      match label_line l with
      | Some a => closed cur insns ++ walk_labels t (Some a) []
      | None =>
          match cur, insn_line l with
          | Some _, Some (_, i) => walk_labels t cur (insns ++ [i])
          | _, _ => walk_labels t cur insns
          end
      end
  end.

(** [_objdump_text] and [relocatability]: the walk chosen by the addresses given. *)
Definition objdump_text (text : string) (func_addrs : option (gset Z)) (need : Z) : list (Z * list insn) :=
  match func_addrs with
  | None => walk_labels (splitlines text) None []
  | Some want => walk_text want need (splitlines text) None [] 0
  end.

Definition relocatability_of (objdump : output) (need : Z) (func_addrs : option (gset Z)) : result (gmap Z info) :=
  let? out := run objdump in
  Ok (fold_left (fun m ai => <[ai.1 := info_of need ai.2]> m) (objdump_text out func_addrs need) ∅).

(** ** The document *)

Definition why_text (i : info) : val := match why i with Some w => VStr w | None => VNone end.
Definition hex0x (z : Z) : val := VStr (cat ["0x"; hex_int z]).

(** The dict of one hook, in the order its keys are set. *)
Definition entry_doc (e : entry) : val :=
  let i := e_info e in
  VDict ([("name", VStr (e_name e)); ("symbol", VStr (e_name e)); ("entry", hex0x (e_entry e));
          ("attach_mode", VStr "observe"); ("path_class", VStr "unclassified");
          ("enumerated_outcomes", VList [VStr "LS_FALLTHROUGH"; VStr "LS_SAFE_RETURN"]);
          ("arm_method", VStr (arm_method e)); ("relocatable", VBool (relocatable i));
          ("displace_bytes", VInt (copy_bytes i))] ++
         match e_pad e with
         | Some p => [("pad_offset", VInt p); ("arm_at", hex0x (arm_at e)); ("patchable_pad_bytes", VInt 5)]
         | None => [("arm_at", hex0x (arm_at e))]
         end ++
         (if relocatable i then [] else [("not_relocatable_why", why_text i)])).

Definition COMMENT : string := cat [
  "PHASE A+: addresses, pad status, and OFFLINE RELOCATABILITY. ";
  "arm_method is 'pad' (overwrite the compiler's 5 nops --- nothing ";
  "is displaced) or 'displace' (no pad: copy displace_bytes of ";
  "leading instructions to the trampoline verbatim, then write the ";
  "jump over them). The second route only appears for entries whose ";
  "leading instructions are POSITION-INDEPENDENT, so the runtime ";
  "copies bytes and never decodes an instruction --- measured at ";
  "94.8% of TMM's function entries, which is why no disassembler is ";
  "needed in the data plane. Entries that are neither padded nor ";
  "copyable are OMITTED: fail closed. ";
  "pad_offset is 4 (endbr64 + 5 nops, indirect-call targets) or 0 ";
  "(5 nops, direct-call-only: file-scope statics and .isra/.constprop ";
  "clones, which -fcf-protection gives no landing pad). ls_arm.c ";
  "honours BOTH as of 2026-08-15 -- it previously refused pad_offset==0, ";
  "and those 4,611 entries are not a random slice: they are ";
  "disproportionately the internal, file-local logic worth probing. ";
  "arg_btf (the typed argument layout a program is verified against) ";
  "is NOT emitted --- that needs DWARF parameter classification. ";
  "Enough to arm a function by name; not enough to write a program ";
  "against one."].

(** [x or "unknown"]. *)
Definition version_text (tmos_version : option string) : string :=
  match tmos_version with Some EmptyString | None => "unknown" | Some v => v end.

Definition map_doc (bid : option string) (tmos_version : option string) (es : list entry) : val :=
  VDict [("_comment", VStr COMMENT); ("tmos_version", VStr (version_text tmos_version));
         ("build_id", match bid with Some b => VStr b | None => VNone end); ("ctx_abi_version", VInt 1);
         ("generated_by", VStr "substrate/mk_hook_map.py (phase A: addresses + pad status)");
         ("hook_points", VList (map entry_doc es))].

Definition map_text (doc : val) : string := cat [indented 0 doc; newline].

(** ** The counts *)

Record counts := Counts { outside : Z; unpadded : Z; callfirst : Z; displaceable_count : Z }.

(** What the loop of [main] adds for one function. *)
Definition count_fn (taddr tsize : Z) (text : bytes) (reloc : gmap Z info) (c : counts) (fn : Z * string) : counts :=
  let addr := fn.1 in
  if negb (in_range taddr tsize addr) then Counts (outside c + 1) (unpadded c) (callfirst c) (displaceable_count c) else
  let head := slice (addr - taddr) (addr - taddr + 9) text in
  match pad_of head with
  | Some _ => c
  | None =>
      let r := default (Info 0 (Some "not present in the .text disassembly")) (reloc !! addr) in
      Counts (outside c) (unpadded c + 1)
        (callfirst c + b2z (bytes_eqb (ztake 4 head) ENDBR64 && bool_decide (head !! 4%nat = Some 0xe8)))
        (displaceable_count c + b2z (relocatable r))
  end.

Definition count_funcs (taddr tsize : Z) (text : bytes) (reloc : gmap Z info) (funcs : list (Z * string)) : counts :=
  fold_left (count_fn taddr tsize text reloc) funcs (Counts 0 0 0 0).

Definition with_pad (p : Z) (es : list entry) : Z :=
  len (List.filter (fun e => bool_decide (e_pad e = Some p)) es).

(** The lines printed after the map, the index line apart. *)
Definition summary (bid : option string) (es : list entry) (c : counts) : list string :=
  let e4 := with_pad 4 es in let e0 := with_pad 0 es in
  [cat ["  build id      : "; default "None" bid];
   cat ["  ARMABLE TOTAL : "; commas (len es)];
   cat ["  padded        : "; commas (e4 + e0); "   <- armable via the compiler's nops"];
   cat ["    pad after endbr64 : "; commas e4];
   cat ["    pad at entry      : "; commas e0; "   (no endbr64: direct-call-only, clones)"];
   cat ["  supported pad shapes: "; commas (e4 + e0); "  --- ls_arm accepts both +4 and +0;"];
   "    indexed eligibility is not a live attachment/coverage test.";
   cat ["  no pad        : "; commas (unpadded c); "   <- other builds (OpenSSL etc.), inlined, folded"];
   cat ["    of those, DISPLACEABLE : "; commas (displaceable_count c); "  <- offline classification,"];
   "      not supported by the deployed pad-only ARM path. This is the population";
   "      pad-based arming can never reach --- OpenSSL included.";
   cat ["  padded but NOT relocatable : "; commas (len (List.filter (fun e => negb (relocatable (e_info e))) es));
        "  (armable via the pad anyway;"];
   "      recorded so a future displacement path refuses them)";
   cat ["    of which start with a call: "; py_str (callfirst c); "  (not armed --- a file has no armed state)"];
   cat ["  outside .text : "; commas (outside c)]].

(** ** [main] *)

(** The options [main] reads beside the two files. *)
Record options := Options { o_out : string; o_version : option string; o_index : option string }.

Record written := Written { w_stdout : string; w_files : list (string * string); w_stderr : list string }.

Definition map_cli (o : options) (id_binary id_debug sections nm objdump : output) (binary : bytes) : result written :=
  let? (bid, es) := map_main id_binary id_debug sections nm objdump binary in
  let? (taddr, toff, tsize) := text_section sections in
  let text := slice toff (toff + tsize) binary in
  let? funcs := functions nm in
  let in_text : gset Z := list_to_set (map fst (List.filter (fun f => in_range taddr tsize f.1) funcs)) in
  let? reloc := relocatability objdump in_text in
  let out := map_text (map_doc bid (o_version o) es) in
  let index := match o_index o with
               | Some EmptyString | None => []
               | Some p => [(p, hook_index_text bid (version_text (o_version o)) es)]
               end in
  Ok (Written (if String.eqb (o_out o) "-" then out else "")
        ((if String.eqb (o_out o) "-" then [] else [(o_out o, out)]) ++ index)
        (map (fun pt : string * string => cat ["  index         : "; pt.1; "  ("; py_str (len es); " symbols)"]) index ++
         summary bid es (count_funcs taddr tsize text reloc funcs))).

(** ** The counts add up, and the two walks agree

    The numbers printed beside a hook map, and the walk of a disassembly by its labels
    against the walk by the addresses of the debug information. *)

(** ** The counts *)

Lemma with_pad_app p a b : with_pad p (a ++ b) = with_pad p a + with_pad p b.
Proof. unfold with_pad. by rewrite List.filter_app, len_app. Qed.
Lemma with_pad_one p e : with_pad p [e] = b2z (bool_decide (e_pad e = Some p)).
Proof. unfold with_pad. cbn [List.filter]. by case_bool_decide. Qed.
Lemma with_pad_nil p : with_pad p [] = 0.
Proof. done. Qed.

Section counts.
Context (taddr tsize : Z) (text : bytes) (reloc : gmap Z info).

Let entries (funcs : list (Z * string)) : list entry := omap (entry_of taddr tsize text reloc) funcs.

(** Every function is counted once: outside the text, padded, or without a pad; and
    what the map has without a pad is what was counted displaceable. *)
Lemma counts_add_up funcs :
  let c := count_funcs taddr tsize text reloc funcs in let es := entries funcs in
  len funcs = outside c + (with_pad 4 es + with_pad 0 es) + unpadded c /\
  len es = with_pad 4 es + with_pad 0 es + displaceable_count c /\
  0 <= displaceable_count c <= unpadded c /\ 0 <= callfirst c <= unpadded c.
Proof.
  cbv zeta. induction funcs as [|[addr name] funcs IH] using rev_ind; [done|].
  unfold count_funcs, entries in *. rewrite fold_left_app, omap_app. cbn [fold_left omap list_omap].
  set (c := fold_left _ funcs _) in *. set (es := omap _ funcs) in *. unfold count_fn, entry_of. cbn [fst].
  rewrite !with_pad_app, !len_app. change (len [(addr, name)]) with 1.
  destruct (in_range taddr tsize addr); cbn [negb]; [|rewrite !with_pad_nil; change (len (@nil entry)) with 0; cbn [outside unpadded callfirst displaceable_count]; lia].
  set (head := slice _ _ text). destruct (pad_of head) as [p|] eqn:Hp.
  - rewrite !with_pad_one. cbn [e_pad]. change (len [_]) with 1.
    assert (p = 4 \/ p = 0) as [->| ->] by (unfold pad_of in Hp; repeat case_match; simplify_eq; auto);
      [change (bool_decide (Some 4 = Some 4)) with true; change (bool_decide (Some 4 = Some 0)) with false
      |change (bool_decide (Some 0 = Some 0)) with true; change (bool_decide (Some 0 = Some 4)) with false];
      cbn [b2z]; lia.
  - set (r := default _ _). cbn [outside unpadded callfirst displaceable_count].
    assert (forall b, 0 <= b2z b <= 1) as Hb by by intros [].
    pose proof (Hb (bytes_eqb (ztake 4 head) ENDBR64 && bool_decide (head !! 4%nat = Some 0xe8))).
    destruct (relocatable r); cbn [b2z]; [rewrite !with_pad_one|rewrite !with_pad_nil].
    + cbn [e_pad]. change (bool_decide (None = Some _)) with false. cbn [b2z]. change (len [_]) with 1. lia.
    + change (len (@nil entry)) with 0. lia.
Qed.
End counts.

(** A function that starts with a call is counted among those without a pad; the line
    that shows the number stands under the padded ones. *)
Example call_first_has_no_pad :
  let c := count_funcs 0 32 [0xf3; 0x0f; 0x1e; 0xfa; 0xe8; 1; 2; 3; 4; 5; 6; 7] ∅ [(0, "galois_create_mult_tables")] in
  (callfirst c, unpadded c, omap (entry_of 0 32 [0xf3; 0x0f; 0x1e; 0xfa; 0xe8; 1; 2; 3; 4; 5; 6; 7] ∅)
     [(0, "galois_create_mult_tables")]) = (1, 1, []).
Proof. vm_compute. reflexivity. Qed.

(** ** The two walks *)

(** A label line is no instruction, and an instruction no label. *)
Lemma label_no_insn l a : label_line l = Some a -> insn_line l = None.
Proof.
  unfold label_line, insn_line, hex1, blanks1. destruct l as [|c t]; [done|]. cbn [hex_run].
  destruct (is_hex_lower c) eqn:Hc; [|done]. intros _. destruct (is_blank c) eqn:Hb; [|done].
  unfold is_hex_lower, is_blank, is_space, is_digit in *. exfalso. lia.
Qed.

(** A disassembly whose labels are complete: under each label the first instruction is
    at its address, and no other instruction is at an address wanted. *)
Fixpoint labelled (want : gset Z) (lines : list (list ascii)) (fresh : option Z) : Prop :=
  match lines with
  | [] => fresh = None
  | l :: t =>
      match label_line l with
      | Some a => fresh = None /\ a ∈ want /\ labelled want t (Some a)
      | None =>
          match insn_line l with
          | Some (addr, _) =>
              match fresh with Some a => addr = a | None => addr ∉ want end /\ labelled want t None
          | None => labelled want t fresh
          end
      end
  end.

Definition bytes_of (insns : list insn) : Z := foldr (fun i n => nbytes i + n) 0 insns.

Lemma bytes_of_app a b : bytes_of (a ++ b) = bytes_of a + bytes_of b.
Proof. unfold bytes_of. induction a as [|i a IH]; cbn; [lia|]. rewrite IH. lia. Qed.

(** The decision is made on the bytes it needs. *)
Lemma copy_span_enough need insns more : forall total, total < need -> need <= total + bytes_of insns ->
  copy_span need total (insns ++ more) = copy_span need total insns.
Proof.
  induction insns as [|i insns IH]; intros total Ht Hb; cbn [app copy_span bytes_of foldr] in *; [lia|].
  destruct (_ || _); [done|]. destruct (posdep _); [done|]. destruct (str_contains _ _); [done|].
  destruct (Z.leb_spec need (total + nbytes i)); [done|]. apply IH; [done|]. fold (bytes_of insns) in Hb. lia.
Qed.

Lemma info_of_enough need insns more : 0 < need -> need <= bytes_of insns -> info_of need (insns ++ more) = info_of need insns.
Proof. intros Hn Hb. unfold info_of. by rewrite copy_span_enough. Qed.

Definition same_info (need : Z) (x y : Z * list insn) : Prop := x.1 = y.1 /\ info_of need x.2 = info_of need y.2.

(** What the walk by addresses holds of what the walk by labels holds. *)
Definition held (need : Z) (got : Z) (ti li : list insn) : Prop :=
  got = bytes_of ti /\ exists more, li = ti ++ more /\ (more = [] \/ need <= got).

Lemma held_info need got ti li : 0 < need -> held need got ti li -> info_of need ti = info_of need li.
Proof.
  intros Hn [-> (more & -> & [->|Hb])]; [by rewrite app_nil_r|]. by rewrite info_of_enough.
Qed.

Lemma walks_agree want need lines : 0 < need -> forall fresh cur ti li got,
  labelled want lines fresh ->
  match fresh with
  | Some a => a ∈ want /\ li = []
  | None => match cur with Some _ => held need got ti li | None => ti = [] /\ li = [] end
  end ->
  match fresh with
  | None => Forall2 (same_info need) (walk_text want need lines cur ti got) (walk_labels lines cur li)
  | Some a => exists rest, walk_text want need lines cur ti got = closed cur ti ++ rest /\
                Forall2 (same_info need) rest (walk_labels lines (Some a) [])
  end.
Proof.
  intros Hneed. assert (forall a got ti li, held need got ti li -> Forall2 (same_info need) [(a, ti)] [(a, li)]) as Hone.
  { intros a got ti li H. constructor; [|constructor]. split; [done|]. by eapply held_info. }
  induction lines as [|l lines IH]; intros fresh cur ti li got Hl Hs; cbn [labelled walk_text walk_labels] in *.
  { subst fresh. destruct cur as [a|]; cbn [closed]; [by eapply Hone|constructor]. }
  destruct (label_line l) as [b|] eqn:Hlab.
  - destruct Hl as (-> & Hb & Hl). rewrite (label_no_insn l b Hlab).
    destruct (IH (Some b) cur ti [] got Hl (conj Hb eq_refl)) as (rest & -> & Hr).
    apply Forall2_app; [|done]. destruct cur as [a|]; cbn [closed]; [by eapply Hone|constructor].
  - destruct (insn_line l) as [[addr i]|] eqn:Hi.
    + destruct Hl as [Hf Hl]. destruct fresh as [a|].
      * subst addr. destruct Hs as [Ha ->]. rewrite decide_True by done. eexists. split; [done|]. cbn [app].
        apply (IH None (Some a) [i] [i] (nbytes i) Hl). split; [cbn; lia|]. exists []. auto.
      * rewrite decide_False by done. destruct cur as [a|]; [|by apply (IH None None)].
        destruct Hs as [Hg (more & -> & Hm)]. destruct (Z.leb_spec need got) as [Hle|Hgt].
        -- apply (IH None (Some a)); [done|]. split; [done|]. exists (more ++ [i]). rewrite app_assoc. auto.
        -- destruct Hm as [->|]; [|lia]. rewrite app_nil_r. apply (IH None (Some a)); [done|].
           split; [rewrite bytes_of_app; cbn; lia|]. exists []. rewrite app_nil_r. auto.
    + destruct fresh as [a|].
      * exact (IH (Some a) cur ti li got Hl Hs).
      * pose proof (IH None cur ti li got Hl Hs). by destruct cur.
Qed.

Lemma fold_same need l l' : Forall2 (same_info need) l l' -> forall m : gmap Z info,
  fold_left (fun m ai => <[ai.1 := info_of need ai.2]> m) l m = fold_left (fun m ai => <[ai.1 := info_of need ai.2]> m) l' m.
Proof. induction 1 as [|x y l l' [H1 H2] _ IH]; intros m; [done|]. cbn. by rewrite H1, H2, IH. Qed.

(** On a disassembly whose labels are complete, walking by labels and walking by the
    addresses of the debug information classify every function alike. *)
Theorem same_relocatability objdump out want need : 0 < need -> run objdump = Ok out ->
  labelled want (splitlines out) None ->
  relocatability_of objdump need (Some want) = relocatability_of objdump need None.
Proof.
  intros Hn Hrun Hl. unfold relocatability_of, objdump_text. rewrite Hrun. f_equal. apply (fold_same need).
  by apply (walks_agree want need _ Hn None None [] [] 0 Hl).
Qed.

(** [HookMap]'s map uses the walk by addresses. *)
Lemma relocatability_by_address objdump want : relocatability objdump want = relocatability_of objdump 5 (Some want).
Proof. reflexivity. Qed.

(** On a stripped binary the walk by labels sees next to nothing: the disassembly of
    [HookMap] has no label, and no function of it is classified. *)
Example stripped_has_no_labels : relocatability_of demo_objdump 5 None = Ok ∅ /\
  (let? m := relocatability demo_objdump {[0x1010]} in Ok (relocatable <$> m !! 0x1010)) = Ok (Some true).
Proof. split; vm_compute; reflexivity. Qed.
