(* ===== verification/HookList.v ===== *)
(** * The listing of hooks (list of substrate/tmmtrace.py)

    The catalog of a build, filtered by a shell pattern and by what the hook map says
    of each hook.  Names are ASCII, as the symbols of the build are; what is printed is
    UTF-8. *)

From S2P Require Import Prelude PyVal Decimal Text Assoc Hex Format Target Admit HookMap Inline Json HookDoc.

(** ** [fnmatch.fnmatch] on a POSIX system

    A pattern is read once.  A class is a list of ranges; a range whose ends are
    swapped holds nothing and is dropped. *)

Inductive piece :=
| Star
| AnyChar
| Lit (c : ascii)
| Class (neg : bool) (items : list (ascii * ascii)).

#[export] Instance piece_eq_dec : EqDecision piece.
Proof. solve_decision. Defined.

Fixpoint up_to (p : ascii -> bool) (l : list ascii) : option (list ascii * list ascii) :=
  match l with
  | [] => None
  | c :: t => if p c then Some ([], t) else match up_to p t with Some (a, b) => Some (c :: a, b) | None => None end
  end.

(** The text of a class after its bracket: whether it is negated, its body, the rest. *)
Definition class_text (l : list ascii) : option (bool * list ascii * list ascii) :=
  let '(neg, l) := match l with c :: t => if ord c =? 33 then (true, t) else (false, l) | [] => (false, l) end in
  let '(first, l) := match l with c :: t => if ord c =? 93 then ([c], t) else ([], l) | [] => ([], l) end in
  match up_to (fun c => ord c =? 93) l with
  | Some (body, rest) => Some (neg, first ++ body, rest)
  | None => None
  end.

Fixpoint ranges (l : list ascii) : list (ascii * ascii) :=
  match l with
  | a :: t =>
      match t with
      | m :: b :: t' => if ord m =? 45 then (a, b) :: ranges t' else (a, a) :: ranges t
      | _ => (a, a) :: ranges t
      end
  | [] => []
  end.

Definition proper_range (r : ascii * ascii) : bool := ord r.1 <=? ord r.2.

(** When dropped ranges bring an exclamation mark to the front, it negates. *)
Definition class_of (neg : bool) (body : list ascii) : piece :=
  let items := List.filter proper_range (ranges body) in
  match neg, items with
  | false, (a, b) :: rest =>
      if ord a =? 33 then Class true (if Ascii.eqb a b then rest else ("-"%char, "-"%char) :: (b, b) :: rest)
      else Class false items
  | _, _ => Class neg items
  end.

Fixpoint pieces (fuel : nat) (l : list ascii) : list piece :=
  match fuel with
  | O => []
  | S fuel =>
      match l with
      | [] => []
      | c :: t =>
          if ord c =? 42 then Star :: pieces fuel t
          else if ord c =? 63 then AnyChar :: pieces fuel t
          else if ord c =? 91 then
            match class_text t with
            | Some (neg, body, rest) => class_of neg body :: pieces fuel rest
            | None => Lit c :: pieces fuel t
            end
          else Lit c :: pieces fuel t
      end
  end.

Definition in_ranges (c : ascii) (items : list (ascii * ascii)) : bool :=
  existsb (fun r : ascii * ascii => (ord r.1 <=? ord c) && (ord c <=? ord r.2)) items.

Definition accepts (p : piece) (c : ascii) : bool :=
  match p with
  | Star => false
  | AnyChar => true
  | Lit d => Ascii.eqb c d
  | Class neg items => xorb neg (in_ranges c items)
  end.

Fixpoint glob_match (ps : list piece) : list ascii -> bool :=
  match ps with
  | [] => fun l => match l with [] => true | _ => false end
  | Star :: ps =>
      fix star (l : list ascii) : bool :=
        glob_match ps l || match l with [] => false | _ :: t => star t end
  | p :: ps => fun l => match l with c :: t => accepts p c && glob_match ps t | [] => false end
  end.

Definition fnmatch (name pattern : string) : bool :=
  glob_match (pieces (S (String.length pattern)) (str_list pattern)) (str_list name).

(** ** [_is_noise] *)

Definition NOISE : list string := [".isra."; ".part."; ".constprop."; ".cold"; ".lto_priv"].
Definition is_noise (n : string) : bool :=
  existsb (fun s => str_contains s n) NOISE || existsb (fun p => starts_with p n) ["TCL_"; "_ZN"; "_ZL"]
  || str_contains "_setentry_" n || starts_with "__" n.

(** ** [list_hooks] *)

Definition truthy_opt (s : option string) : bool := match s with Some EmptyString | None => false | Some _ => true end.

Definition hook_dict (h : val) : result dict := match h with VDict d => Ok d | _ => Err AttributeError end.

(** A name, as [fnmatch] takes it. *)
Definition name_of_hook (d : dict) : result string :=
  match default (VStr "") (get "name" d) with VStr s => Ok s | _ => Err TypeError end.

(** The options of one listing. *)
Record query := Query { q_glob : string; q_mode : option string; q_path : option string; q_armable : bool; q_no_noise : bool }.

Definition differs (field : string) (want : option string) (d : dict) : bool :=
  match want with
  | Some w => truthy_opt want && negb (val_eqb (getv field d) (VStr w))
  | None => false
  end.

Definition keep (q : query) (h : val) : result bool :=
  let? d := hook_dict h in
  let? n := name_of_hook d in
  Ok (fnmatch n (q_glob q) && negb (differs "attach_mode" (q_mode q) d) && negb (differs "path_class" (q_path q) d)
      && negb (q_armable q && negb (truthy (default (VBool false) (get "relocatable" d))))
      && negb (q_no_noise q && is_noise n)).

Fixpoint kept_hooks (q : query) (hp : list val) : result (list (string * dict)) :=
  match hp with
  | [] => Ok []
  | h :: hp =>
      let? k := keep q h in
      let? d := hook_dict h in
      let? n := name_of_hook d in
      let? rest := kept_hooks q hp in
      Ok (if k then (n, d) :: rest else rest)
  end.

(** [sorted] by name, which is stable. *)
Fixpoint insert_named (x : string * dict) (l : list (string * dict)) : list (string * dict) :=
  match l with
  | [] => [x]
  | y :: t => if bool_decide (String.le x.1 y.1) then x :: l else y :: insert_named x t
  end.
Definition by_name (l : list (string * dict)) : list (string * dict) := foldr insert_named [] l.

Section listing.
(** [str] of a value that is not a text, a number or [None]. *)
Variable str_of_value : val -> string.

Definition py_str_of (v : val) : string :=
  match v with
  | VStr s => s
  | VNone => "None"
  | VBool b => if b then "True" else "False"
  | VInt z => py_str z
  | _ => str_of_value v
  end.

(** The note on an option that cannot narrow the listing. *)
Definition idle_note (fld flag : string) (req : option string) (hp : list val) : result (list string) :=
  if truthy_opt req then
    let? vals := mapM_r (fun h => let? d := hook_dict h in Ok (py_str_of (getv fld d))) hp in
    match vals with
    | v :: t =>
        Ok (if forallb (String.eqb v) t then
              [cat ["#   note: every hook here has "; fld; "="; v; " --- the map generator does not classify ";
                    fld; " yet, so --"; flag; " cannot narrow the set"]]
            else [])
    | [] => Ok []
    end
  else Ok [].

(** ["%d"]. *)
Definition number_text (v : val) : result string :=
  match v with VInt z => Ok (py_str z) | VBool b => Ok (py_str (b2z b)) | _ => Err TypeError end.

Definition is_partial (d : dict) : bool := val_eqb (getv "inline_status" d) (VStr "partial").

Definition hook_line (nd : string * dict) : result string :=
  if is_partial nd.2 then
    let? n := number_text (default (VInt 0) (get "inline_sites" nd.2)) in
    Ok (cat [nd.1; "   [PARTIAL: "; n; " inlined site(s) a shield here would MISS]"])
  else Ok nd.1.

Definition filter_text (q : query) : string :=
  String.concat " · " (List.filter (fun f => negb (String.eqb f ""))
    [if truthy_opt (q_mode q) then cat ["mode="; default "" (q_mode q)] else "";
     if truthy_opt (q_path q) then cat ["path="; default "" (q_path q)] else "";
     if q_armable q then "armable" else ""; if q_no_noise q then "de-noised" else ""]).

Definition count_line (q : query) (hits total : Z) : string :=
  let filt := filter_text q in
  cat ["# "; py_str hits; " hook(s) match "; py_repr (q_glob q);
       if String.eqb filt "" then "" else cat [" · "; filt]; "   (of "; py_str total; " in the build)"].

Definition inline_note (npart : Z) (hp : list val) : list string :=
  if negb (npart =? 0) then
    [cat ["#   *** "; py_str npart; " PARTIALLY INLINED --- arming those does NOT cover every call site;";
          " the counter still climbs. See engine-hard-problems.md 3.1"]]
  else if existsb (fun h => match h with VDict d => has "inline_status" d | _ => false end) hp then []
  else [cat ["#   (no inline_status in this map --- run substrate/mk_inline_status.py against";
             " the SHIPPED binary; without it a partially-inlined hook looks complete)"]].

(** What is printed, and what goes to stderr, of the map the file holds. *)
Definition list_hooks (read : result val) (q : query) : result (list string * list string) :=
  match read with
  | Err _ => Err (SystemExit "hook map not found")
  | Ok doc =>
      let? d := hook_dict doc in
      let? hp := hook_list (get "hook_points" d) in
      let? note_mode := idle_note "attach_mode" "mode" (q_mode q) hp in
      let? note_path := idle_note "path_class" "path" (q_path q) hp in
      let? found := kept_hooks q hp in
      let kept := by_name found in
      let? out := mapM_r hook_line kept in
      let npart := len (List.filter (fun nd => is_partial nd.2) kept) in
      Ok (out, note_mode ++ note_path ++ [count_line q (len kept) (len hp)] ++ inline_note npart hp)
  end.
End listing.

(** ** The options of the command *)

Fixpoint list_options (args : list string) (q : query) : result query :=
  match args with
  | [] => Ok q
  | a :: rest =>
      if String.eqb a "--mode" then
        match rest with
        | v :: rest => list_options rest (Query (q_glob q) (Some v) (q_path q) (q_armable q) (q_no_noise q))
        | [] => Err StopIteration
        end
      else if String.eqb a "--path" then
        match rest with
        | v :: rest => list_options rest (Query (q_glob q) (q_mode q) (Some v) (q_armable q) (q_no_noise q))
        | [] => Err StopIteration
        end
      else if String.eqb a "--armable" then list_options rest (Query (q_glob q) (q_mode q) (q_path q) true (q_no_noise q))
      else if String.eqb a "--no-noise" then list_options rest (Query (q_glob q) (q_mode q) (q_path q) (q_armable q) true)
      else if starts_with "-" a then list_options rest q
      else list_options rest (Query a (q_mode q) (q_path q) (q_armable q) (q_no_noise q))
  end.

Definition all_hooks : query := Query "*" None None false false.

(** ** The listing tells what the build has

    The shell patterns as languages, and the listing of a map that went from the
    generator through the inline annotation, by way of its two files. *)

(** ** Patterns *)

(** The texts a pattern denotes. *)
Inductive globs : list piece -> list ascii -> Prop :=
| globs_nil : globs [] []
| globs_star ps a b : globs ps b -> globs (Star :: ps) (a ++ b)
| globs_one p ps c l : p <> Star -> accepts p c = true -> globs ps l -> globs (p :: ps) (c :: l).

Lemma star_step ps l : glob_match (Star :: ps) l =
  glob_match ps l || match l with [] => false | _ :: t => glob_match (Star :: ps) t end.
Proof. by destruct l. Qed.

Lemma star_match ps l : glob_match (Star :: ps) l = true <-> exists a b, l = a ++ b /\ glob_match ps b = true.
Proof.
  induction l as [|c l IH]; rewrite star_step, orb_true_iff.
  - split; [intros [H|H]; [by exists [], []|done]|].
    intros (a & b & Hl & H). symmetry in Hl. apply app_eq_nil in Hl as [-> ->]. by left.
  - rewrite IH. split.
    + intros [H|(a & b & -> & H)]; [by exists [], (c :: l)|by exists (c :: a), b].
    + intros ([|c' a] & b & Hl & H); [left; by rewrite Hl|]. injection Hl as <- ->. right. by exists a, b.
Qed.

Lemma one_match p ps l : p <> Star ->
  glob_match (p :: ps) l = match l with c :: t => accepts p c && glob_match ps t | [] => false end.
Proof. intros Hp. by destruct p. Qed.

(** The matcher decides the language of the pattern. *)
Lemma glob_match_iff ps : forall l, glob_match ps l = true <-> globs ps l.
Proof.
  induction ps as [|p ps IH]; intros l.
  - split; [by destruct l; [constructor|]|]. by inversion 1.
  - destruct (decide (p = Star)) as [->|Hp].
    + rewrite star_match. split.
      * intros (a & b & -> & H). apply globs_star. by apply IH.
      * inversion 1 as [|ps' a b Hb|]; subst; [|done]. exists a, b. split; [done|]. by apply IH.
    + rewrite one_match by done. split.
      * destruct l as [|c t]; [done|]. intros [Hc Ht]%andb_true_iff. apply globs_one; [done..|]. by apply IH.
      * inversion 1; subst; [done|]. by rewrite andb_true_iff, IH.
Qed.

(** The whole pattern is read: more fuel reads the same pieces. *)
Lemma up_to_length p l : forall a b, up_to p l = Some (a, b) -> (length b < length l)%nat.
Proof.
  induction l as [|c l IH]; intros a b; cbn [up_to]; [done|]. destruct (p c); [intros [= <- <-]; cbn; lia|].
  destruct (up_to p l) as [[x y]|]; [|done]. intros [= <- <-]. specialize (IH x y eq_refl). cbn. lia.
Qed.

Lemma class_text_length l neg body rest : class_text l = Some (neg, body, rest) -> (length rest < length l)%nat.
Proof.
  unfold class_text. set (p := match l with [] => _ | c :: t => _ end).
  assert (length p.2 <= length l)%nat as Hp by (subst p; destruct l as [|c t]; [done|case_match; cbn; lia]).
  destruct p as [n l1]. cbn [snd] in Hp. set (q := match l1 with [] => _ | c :: t => _ end).
  assert (length q.2 <= length l1)%nat as Hq by (subst q; destruct l1 as [|c t]; [done|case_match; cbn; lia]).
  destruct q as [f l2]. cbn [snd] in Hq. destruct (up_to _ l2) as [[b r]|] eqn:Hu; [|done].
  intros [= _ _ <-]. apply up_to_length in Hu. lia.
Qed.

Lemma pieces_fuel n m l : (length l < n)%nat -> (length l < m)%nat -> pieces n l = pieces m l.
Proof.
  revert m l. induction n as [|n IH]; intros [|m] l Hn Hm; try lia. destruct l as [|c t]; [done|]. cbn [length] in *.
  cbn [pieces]. rewrite (IH m t) by lia. destruct (class_text t) as [[[neg body] rest]|] eqn:Hc; [|done].
  apply class_text_length in Hc. by rewrite (IH m rest) by lia.
Qed.

(** A pattern without special characters names one hook. *)
Definition ordinary (c : ascii) : Prop := ord c <> 42 /\ ord c <> 63 /\ ord c <> 91.

Lemma ordinary_pieces l : Forall ordinary l -> forall n, (length l < n)%nat -> pieces n l = map Lit l.
Proof.
  induction 1 as [|c l (H1 & H2 & H3) _ IH]; intros [|n] Hn; cbn [length] in *; try lia; [done|]. cbn [pieces map].
  rewrite !(proj2 (Z.eqb_neq _ _)) by done. by rewrite IH by lia.
Qed.

Lemma literal_match p : forall l, glob_match (map Lit p) l = true <-> l = p.
Proof.
  induction p as [|c p IH]; intros [|d l]; try done; cbn [map]; rewrite one_match by done; try done.
  rewrite andb_true_iff, IH. cbn [accepts]. rewrite Ascii.eqb_eq. split; [by intros [-> ->]|by intros [= -> ->]].
Qed.

Lemma string_length s : String.length s = length (str_list s).
Proof. induction s as [|c s IH]; cbn; [done|by rewrite IH]. Qed.

Lemma fnmatch_name n g : Forall ordinary (str_list g) -> fnmatch n g = true <-> n = g.
Proof.
  intros Hg. unfold fnmatch. rewrite ordinary_pieces by (done || rewrite string_length; lia). rewrite literal_match.
  split; [|by intros ->]. intros H. by rewrite <- (list_str_list n), H, list_str_list.
Qed.

Lemma fnmatch_any n : fnmatch n "*" = true.
Proof. apply star_match. exists (str_list n), []. by rewrite app_nil_r. Qed.

(** ** Sorting *)

Definition name_le (x y : string * dict) : Prop := String.le x.1 y.1.

Lemma insert_named_perm x l : insert_named x l ≡ₚ x :: l.
Proof.
  induction l as [|y l IH]; [done|]. cbn [insert_named]. case_bool_decide; [done|]. rewrite IH. apply Permutation_swap.
Qed.

Lemma by_name_perm l : by_name l ≡ₚ l.
Proof. induction l as [|x l IH]; [done|]. cbn. by rewrite insert_named_perm, IH. Qed.

Lemma insert_named_head R x l : HdRel name_le R l -> name_le R x -> HdRel name_le R (insert_named x l).
Proof. intros H Hx. destruct l as [|y l]; [by constructor|]. cbn [insert_named]. inversion H; subst. case_bool_decide; by constructor. Qed.

Lemma by_name_sorted l : Sorted name_le (by_name l).
Proof.
  induction l as [|x l IH]; [constructor|]. change (by_name (x :: l)) with (insert_named x (by_name l)).
  induction IH as [|y t Ht IHt Hy]; [by repeat constructor|]. cbn [insert_named]. case_bool_decide as Hc.
  - constructor; [by constructor|by constructor].
  - constructor; [done|]. apply insert_named_head; [done|]. unfold name_le. destruct (total String.le y.1 x.1); [done|]. done.
Qed.

(** ** The map, annotated *)

Definition entry_dict (e : entry) : dict := match entry_doc e with VDict d => d | _ => [] end.

(** The copies of a hook's function the build inlined elsewhere. *)
Definition sites (dwarf : string) (e : entry) : Z := copies_of (attributes_of dwarf) (e_name e).

Definition annotated_dict (dwarf : string) (e : entry) : dict :=
  set "inline_sites" (VInt (sites dwarf e))
    (set "inline_status" (VStr (if sites dwarf e =? 0 then "out-of-line" else "partial")) (entry_dict e)).

Lemma annotate_entries dwarf es :
  mapM_r (annotate (scan dwarf).2) (map entry_doc es) = Ok (map (fun e => VDict (annotated_dict dwarf e)) es).
Proof.
  destruct (scan_text dwarf) as (Hcount & _ & _). induction es as [|e es IH]; [done|]. cbn [map mapM_r].
  assert (annotate (scan dwarf).2 (entry_doc e) = Ok (VDict (annotated_dict dwarf e))) as ->; [|by rewrite IH].
  unfold annotate, annotated_dict, sites. change (entry_doc e) with (VDict (entry_dict e)). cbv iota.
  change (get "name" (entry_dict e)) with (Some (VStr (e_name e))). cbn [from_option id hashable negb sites_of].
  by rewrite Hcount.
Qed.

(** What the options ask of a hook of a generated map.  [--armable] asks for the
    field [relocatable]: leading instructions that can be copied, which is not how
    the map arms a hook ([armable_option_backwards]). *)
Definition wanted (want : option string) (has : string) : bool :=
  negb (truthy_opt want) || bool_decide (want = Some has).

Definition selected (q : query) (e : entry) : bool :=
  fnmatch (e_name e) (q_glob q) && wanted (q_mode q) "observe" && wanted (q_path q) "unclassified"
  && negb (q_armable q && negb (relocatable (e_info e))) && negb (q_no_noise q && is_noise (e_name e)).

Lemma get_annotated dwarf e k v : k <> "inline_sites" -> k <> "inline_status" -> get k (entry_dict e) = Some v ->
  get k (annotated_dict dwarf e) = Some v.
Proof. intros H1 H2 Hv. unfold annotated_dict. by rewrite !get_set, !(proj2 (String.eqb_neq _ _)). Qed.

Lemma differs_wanted field w d v : get field d = Some (VStr v) -> negb (differs field w d) = wanted w v.
Proof.
  intros Hv. unfold differs, wanted, getv. rewrite Hv. destruct w as [w|]; [|done]. cbn [from_option id].
  destruct (truthy_opt (Some w)); [|done]. cbn [andb negb orb]. rewrite negb_involutive. cbn [val_eqb].
  destruct (String.eqb_spec v w); case_bool_decide; congruence.
Qed.

Lemma keep_entry q dwarf e : keep q (VDict (annotated_dict dwarf e)) = Ok (selected q e).
Proof.
  unfold keep, name_of_hook. cbn [hook_dict]. cbv iota.
  rewrite (get_annotated dwarf e "name" (VStr (e_name e))) by done. cbn [from_option id]. unfold selected.
  rewrite !(differs_wanted "attach_mode" _ _ "observe"), !(differs_wanted "path_class" _ _ "unclassified")
    by by apply get_annotated.
  rewrite (get_annotated dwarf e "relocatable" (VBool (relocatable (e_info e)))) by done. done.
Qed.

Definition hook_of (dwarf : string) (e : entry) : string * dict := (e_name e, annotated_dict dwarf e).

Lemma kept_entries q dwarf es :
  kept_hooks q (map (fun e => VDict (annotated_dict dwarf e)) es) = Ok (map (hook_of dwarf) (List.filter (selected q) es)).
Proof.
  induction es as [|e es IH]; [done|]. cbn [map kept_hooks List.filter]. rewrite keep_entry. cbn [hook_dict].
  unfold name_of_hook. rewrite (get_annotated dwarf e "name" (VStr (e_name e))) by done. cbn [from_option id]. rewrite IH.
  by destruct (selected q e).
Qed.

(** A line of the listing, of a name and the copies inlined elsewhere. *)
Definition shown (nz : string * Z) : string :=
  if nz.2 =? 0 then nz.1 else cat [nz.1; "   [PARTIAL: "; py_str nz.2; " inlined site(s) a shield here would MISS]"].

Lemma hook_line_shown dwarf e : hook_line (hook_of dwarf e) = Ok (shown (e_name e, sites dwarf e)).
Proof.
  unfold hook_line, is_partial, shown, getv. cbn [hook_of fst snd]. unfold annotated_dict. rewrite !get_set. cbn [String.eqb].
  destruct (Z.eqb_spec (sites dwarf e) 0); done.
Qed.

Lemma mapM_r_map {A B} (f : A -> result B) (g : A -> B) l : Forall (fun x => f x = Ok (g x)) l -> mapM_r f l = Ok (map g l).
Proof. induction 1 as [|x l Hx _ IH]; [done|]. cbn [mapM_r map]. by rewrite Hx, IH. Qed.

(** The notes on idle options never fail on such a map. *)
Lemma idle_note_ok str fld flag req dwarf es : is_ok (idle_note str fld flag req (map (fun e => VDict (annotated_dict dwarf e)) es)) = true.
Proof.
  unfold idle_note. destruct (truthy_opt req); [|done].
  rewrite (mapM_r_map _ (fun h => match h with VDict d => py_str_of str (getv fld d) | _ => "" end)).
  - by destruct (map _ (map _ es)).
  - apply Forall_forall. intros h (e & -> & _)%list_elem_of_fmap. done.
Qed.

Lemma inline_main_entries bid version es dwarf path doc : inline_main (map_doc bid version es) dwarf path = Ok doc ->
  exists d, doc = VDict d /\ get "hook_points" d = Some (VList (map (fun e => VDict (annotated_dict dwarf e)) es)).
Proof.
  assert (exists d, map_doc bid version es = VDict d /\ get "hook_points" d = Some (VList (map entry_doc es))) as (d & -> & Hd)
    by (eexists; split; reflexivity).
  pose proof (annotate_entries dwarf es) as Ha. unfold inline_main. destruct (scan dwarf) as [outline copies].
  cbn [fst snd] in Ha. destruct (match outline with [] => true | _ => false end); [done|].
  rewrite Hd. cbn [hook_list]. rewrite Ha. intros <-%Ok_inj. eexists. split; [done|]. by rewrite !get_set.
Qed.

Lemma sorted_map {A B} (R : B -> B -> Prop) (f : A -> B) l :
  Sorted (fun x y => R (f x) (f y)) l -> Sorted R (map f l).
Proof. induction 1 as [|x l Hl IH Hx]; cbn; constructor; [done|]. by destruct Hx; cbn; constructor. Qed.

(** C38: the listing tells what the build has.  Take any map of a build, written to its
    file, read by the inline annotation, written again and read by [list].  The listing
    never fails; its lines are the hooks that the options select, each once, sorted by
    name, where [--armable] selects those with the field [relocatable] and not those
    the map arms; and a hook is marked partial exactly when the debug information shows
    inlined copies of functions that bear the very name of its symbol, with their number.
    A clone such as [foo.isra.0] is therefore not marked for the copies of [foo], and
    functions that share a name share the number: [clone_unmarked], [statics_share]. *)
Theorem hook_listing_exact str_of_value bid version es dwarf path q doc :
  plain (map_doc bid version es) = true ->
  (let? read := loads (encode (map_text (map_doc bid version es))) in inline_main read dwarf path) = Ok doc ->
  plain doc = true ->
  exists listed notes, list_hooks str_of_value (loads (encode (spaced doc))) q = Ok (map shown listed, notes) /\
    Sorted (fun x y => String.le x.1 y.1) listed /\
    listed ≡ₚ map (fun e => (e_name e, copies_of (attributes_of dwarf) (e_name e))) (List.filter (selected q) es).
Proof.
  intros Hp Hread Hd.
  assert (loads (encode (map_text (map_doc bid version es))) = Ok (map_doc bid version es)) as Hmap.
  { apply (loads_layout _ _ [] (str_list (indented 0 (map_doc bid version es))) [chr 10]);
      [by apply indented_layout|by apply Forall_nil|by repeat constructor|].
    unfold map_text. by rewrite str_list_cat. }
  rewrite Hmap in Hread.
  assert (loads (encode (spaced doc)) = Ok doc) as ->.
  { apply (loads_layout _ _ [] (str_list (spaced doc)) []); [by apply spaced_layout|by apply Forall_nil..|by rewrite app_nil_r]. }
  destruct (inline_main_entries _ _ _ _ _ _ Hread) as (d & -> & Hh).
  unfold list_hooks. cbn [hook_dict]. rewrite Hh. cbn [hook_list].
  pose proof (idle_note_ok str_of_value "attach_mode" "mode" (q_mode q) dwarf es) as Hm.
  pose proof (idle_note_ok str_of_value "path_class" "path" (q_path q) dwarf es) as Hn.
  destruct (idle_note _ "attach_mode" _ _ _) as [m|]; [|done]. destruct (idle_note _ "path_class" _ _ _) as [n|]; [|done].
  rewrite kept_entries. set (found := map (hook_of dwarf) _).
  exists (map (fun nd => (nd.1, iget "inline_sites" nd.2)) (by_name found)). eexists.
  assert (forall nd, nd ∈ by_name found -> exists e, nd = hook_of dwarf e) as Hof.
  { intros nd Hin. rewrite by_name_perm in Hin. apply list_elem_of_fmap in Hin as (e & -> & _). eauto. }
  rewrite (mapM_r_map hook_line (fun nd => shown (nd.1, iget "inline_sites" nd.2))); [split|].
  - rewrite map_map. reflexivity.
  - split.
    + apply sorted_map, by_name_sorted.
    + rewrite by_name_perm. unfold found. rewrite map_map. erewrite map_ext; [reflexivity|]. intros e.
      unfold hook_of, iget, annotated_dict. cbn [fst snd]. by rewrite get_set_eq.
  - apply Forall_forall. intros nd Hin. destruct (Hof nd Hin) as (e & ->). rewrite hook_line_shown.
    unfold iget, hook_of, annotated_dict. cbn [fst snd]. by rewrite get_set_eq.
Qed.

(** The small build of [HookMap], with a function the compiler also inlined. *)
Definition demo_dwarf : string :=
  cat (map (fun l => cat [l; newline])
    [" <1><2d>: Abbrev Number: 2 (DW_TAG_subprogram)";
     "    <2e>   DW_AT_name        : (indirect string, offset: 0x1a): foo";
     "    <32>   DW_AT_low_pc      : 0x1000";
     " <2><50>: Abbrev Number: 3 (DW_TAG_inlined_subroutine)";
     "    <51>   DW_AT_abstract_origin: <0x2d>"]).

Definition demo_doc : val := map_doc (Some demo_id) None HookMap.demo_map.
Definition demo_listed : val :=
  match inline_main demo_doc demo_dwarf "tmm" with Ok d => d | Err _ => VNone end.

Lemma hook_listing_exact_witness :
  exists listed notes, list_hooks (fun _ => "") (loads (encode (spaced demo_listed))) (Query "*[!o]" None None false false)
      = Ok (map shown listed, notes) /\
    listed ≡ₚ map (fun e => (e_name e, copies_of (attributes_of demo_dwarf) (e_name e)))
      (List.filter (selected (Query "*[!o]" None None false false)) HookMap.demo_map).
Proof.
  destruct (hook_listing_exact (fun _ => "") (Some demo_id) None HookMap.demo_map demo_dwarf "tmm"
    (Query "*[!o]" None None false false) demo_listed ltac:(by vm_compute) ltac:(by vm_compute) ltac:(by vm_compute))
    as (listed & notes & H & _ & Hp). by exists listed, notes.
Defined.

(** The lines printed for that build: all of it, and with [--armable]. *)
Example demo_listing :
  (let? (out, _) := list_hooks (fun _ => "") (Ok demo_listed) all_hooks in Ok out) =
  Ok ["bar"; "baz"; "foo   [PARTIAL: 1 inlined site(s) a shield here would MISS]"].
Proof. vm_compute. reflexivity. Qed.

Example demo_armable :
  (let? (out, _) := list_hooks (fun _ => "") (Ok demo_listed) (Query "*" None None true false) in Ok out) = Ok ["baz"].
Proof. vm_compute. reflexivity. Qed.

(** ** Copies are counted by name

    The symbol of a clone is not the name of its function, and two functions of one
    name are not told apart: the copies of the first mark the hook of the second. *)

Definition listed_names (es : list entry) (dwarf : string) : result (list string) :=
  let? doc := inline_main (map_doc (Some demo_id) None es) dwarf "tmm" in
  let? (out, _) := list_hooks (fun _ => "") (Ok doc) all_hooks in Ok out.

Lemma clone_unmarked :
  listed_names [Entry "foo.isra.0" 0x1000 (Some 4) (Info 8 None)] demo_dwarf = Ok ["foo.isra.0"] /\
  copies_of (attributes_of demo_dwarf) "foo" = 1.
Proof. vm_compute. by split. Qed.

Lemma statics_share :
  listed_names [Entry "foo" 0x1000 (Some 4) (Info 8 None); Entry "foo" 0x2000 (Some 4) (Info 8 None)]
    (cat [demo_dwarf;
          " <1><80>: Abbrev Number: 2 (DW_TAG_subprogram)"; newline;
          "    <81>   DW_AT_name        : foo"; newline;
          "    <82>   DW_AT_low_pc      : 0x2000"; newline]) =
  Ok ["foo   [PARTIAL: 1 inlined site(s) a shield here would MISS]";
      "foo   [PARTIAL: 1 inlined site(s) a shield here would MISS]"].
Proof. vm_compute. reflexivity. Qed.

(** ** What [--armable] selects

    The filter looks at the copy of the leading instructions, not at how a hook is
    armed: every hook without a pad stays, and only padded hooks are dropped. *)

Definition armed_only (q : query) : query := Query (q_glob q) (q_mode q) (q_path q) true (q_no_noise q).
Definition not_armed_only (q : query) : query := Query (q_glob q) (q_mode q) (q_path q) false (q_no_noise q).

Lemma armable_option_backwards id_binary id_debug sections nm objdump binary bid es q e :
  map_main id_binary id_debug sections nm objdump binary = Ok (bid, es) -> e ∈ es ->
  (e_pad e = None -> selected (armed_only q) e = selected (not_armed_only q) e) /\
  (selected (not_armed_only q) e = true -> selected (armed_only q) e = false -> e_pad e <> None).
Proof.
  intros Hm Hin. assert (e_pad e = None -> relocatable (e_info e) = true) as Hr.
  { unfold map_main in Hm. destruct (map_build_id id_binary); [|done]. destruct (map_build_id id_debug); [|done].
    destruct (negb _); [done|]. destruct (text_section sections) as [[[? ?] ?]|]; [|done]. destruct (functions nm); [|done].
    cbv zeta in Hm. destruct (relocatability _ _); [|done]. case_match; [done|]. case_match; [done|].
    injection Hm as <- <-. apply list_elem_of_omap in Hin as ([adr nm0] & _ & He). unfold entry_of in He.
    destruct (in_range _ _ adr); [|done]. cbn [negb] in He. destruct (pad_of _); [by injection He as <-|].
    destruct (relocatable _) eqn:Hw; [|done]. by injection He as <-. }
  assert (e_pad e = None -> selected (armed_only q) e = selected (not_armed_only q) e) as Heq.
  { intros Hn. unfold selected, armed_only, not_armed_only. cbn. by rewrite (Hr Hn). }
  split; [done|]. intros Hy Hno Hn. rewrite Heq in Hno by done. congruence.
Qed.
