(* ===== verification/TraceRun.v ===== *)
(** * The commands of the trace language (substrate/tmmtrace.py)

    [verify], [build] and the dispatch of [main].  clang and PREVAIL are parameters: what
    they answer to a source and a section; so are the files read.  A command leaves the
    files it wrote and the text it printed even when it ends in an exception. *)

From S2P Require Import Prelude PyVal Text Trace Hist Json HookList.

Record proc := Proc { p_rc : Z; p_stdout : string; p_stderr : string }.

(** What a command leaves: files written in order, what it printed, how it ended. *)
Record effect := Effect { f_files : list (string * string); f_out : list string; f_result : result Z }.

Definition printed (s : string) : string := cat [s; newline].
Definition raised (e : exn) : effect := Effect [] [] (Err e).

(** [os.path.join] of a directory and a name. *)
Definition path_join (dir name : string) : string :=
  if String.eqb dir "" then name else if ends_with "/" dir then cat [dir; name] else cat [dir; "/"; name].

(** [a or b]. *)
Definition or_text (a b : string) : string := if String.eqb a "" then b else a.

Section commands.
Variable sigs : option string.
Variable types : val.
Variable sha1 : bytes -> string.
(** clang on a source; PREVAIL on the object of a source and a section. *)
Variable clang : string -> proc.
Variable prevail_exists : bool.
Variable prevail : string -> string -> proc.

Definition verify (expr : string) : effect :=
  match codegen sigs types sha1 expr with
  | Err e => raised e
  | Ok (src, fn, section, hook) =>
      if negb prevail_exists then raised (SystemExit "PREVAIL not found") else
      let cc := clang src in
      if negb (p_rc cc =? 0) then Effect [] [printed src] (Err (SystemExit (cat ["*** clang failed:"; newline; p_stderr cc]))) else
      let sec := cat [section; "/"; hook] in
      let pv := prevail src sec in
      let ok := p_rc pv =? 0 in
      Effect []
        ([printed (cat ["program : "; fn; "   section "; sec]); printed "clang   : ok";
          printed (cat ["PREVAIL : "; if ok then "VERIFIED" else "REFUSED"])] ++
         map (fun l => printed (cat ["          "; l])) (List.firstn 3 (text_lines (str_strip (or_text (p_stdout pv) (p_stderr pv))))))
        (Ok (if ok then 0 else 1))
  end.

(** The sidecar document. *)
Definition meta (expr fn sec hook action : string) (verified : bool) : val :=
  VDict ([("expr", VStr expr); ("fn", VStr fn); ("section", VStr sec); ("hook", VStr hook);
          ("kind", VStr (program_kind action)); ("verified", VBool verified)] ++
         match match_shield action with Some v => [("safe_value", VStr v)] | None => [] end).

Definition build_prog (expr outdir : string) : effect :=
  match codegen sigs types sha1 expr with
  | Err e => raised e
  | Ok (src, fn, section, hook) =>
      let source_file := (path_join outdir (cat [fn; ".bpf.c"]), src) in
      let cc := clang src in
      if negb (p_rc cc =? 0) then Effect [source_file] [] (Err (SystemExit (cat ["*** clang failed:"; newline; p_stderr cc]))) else
      let sec := cat [section; "/"; hook] in
      let pv := prevail src sec in
      if prevail_exists && negb (p_rc pv =? 0) then
        Effect [source_file] [] (Err (SystemExit (cat ["*** PREVAIL REFUSED "; fn; ":"; newline; or_text (p_stdout pv) (p_stderr pv)])))
      else
        match parse expr with
        | Err e => Effect [source_file] [] (Err e)
        | Ok (_, _, _, action) =>
            Effect [source_file; (path_join outdir (cat [fn; ".meta.json"]), spaced (meta expr fn sec hook action prevail_exists))]
              [printed (cat ["built "; path_join outdir (cat [fn; ".bpf.o"]); "  ("; program_kind action; ")  section "; sec;
                             "  verified="; if prevail_exists then "True" else "False"])]
              (Ok 0)
        end
  end.

(** [main]; a missing argument is an [IndexError], which nothing catches. *)
Variable doc : string.
Variable stdin : string.
Variable hook_map : result val.
Variable str_of_value : val -> string.

Definition argument (argv : list string) (i : nat) (k : string -> effect) : effect :=
  match argv !! i with Some a => k a | None => raised IndexError end.

Definition listing (argv : list string) : effect :=
  match list_options (List.skipn 2 argv) all_hooks with
  | Err e => raised e
  | Ok q => match list_hooks str_of_value hook_map q with
            | Err e => raised e
            | Ok (out, _) => Effect [] (map printed out) (Ok 0)
            end
  end.

Definition command (argv : list string) : effect :=
  match argv with
  | _ :: cmd :: _ =>
      if String.eqb cmd "gen" then
        argument argv 2 (fun e => match codegen sigs types sha1 e with
                                  | Ok (src, _, _, _) => Effect [] [src] (Ok 0)
                                  | Err e => raised e
                                  end)
      else if String.eqb cmd "verify" then argument argv 2 verify
      else if String.eqb cmd "build" then argument argv 2 (fun e => build_prog e (default "." (argv !! 3%nat)))
      else if String.eqb cmd "hist" then
        match hist_stdin stdin with Ok t => Effect [] [t] (Ok 0) | Err e => raised e end
      else if String.eqb cmd "list" then listing argv
      else raised (SystemExit doc)
  | _ => raised (SystemExit doc)
  end.

Definition trace_main (argv : list string) : effect :=
  let f := command argv in
  match f_result f with
  | Err (DslError e) =>
      Effect (f_files f) (f_out f)
        (Err (SystemExit (cat ["*** DSL error: "; e; newline; "    in: "; default "" (argv !! 2%nat)])))
  | _ => f
  end.
End commands.

(** ** What a build leaves *)

Section build.
Context (sigs : option string) (types : val) (sha1 : bytes -> string) (clang : string -> proc) (prevail_exists : bool)
  (prevail : string -> string -> proc).

(** A sidecar file is written exactly when the program compiled and no verifier that is
    there refused it; it says whether a verifier accepted the program. *)
Lemma sidecar_means_accepted expr outdir p text :
  (p, text) ∈ List.skipn 1 (f_files (build_prog sigs types sha1 clang prevail_exists prevail expr outdir)) ->
  exists src fn section hook pred action,
    codegen sigs types sha1 expr = Ok (src, fn, section, hook) /\ parse expr = Ok (section, hook, pred, action) /\
    p_rc (clang src) = 0 /\ (prevail_exists = true -> p_rc (prevail src (cat [section; "/"; hook])) = 0) /\
    text = spaced (meta expr fn (cat [section; "/"; hook]) hook action prevail_exists).
Proof.
  unfold build_prog. destruct (codegen _ _ _ expr) as [[[[src fn] section] hook]|] eqn:Hc; [|by intros Hin%list_elem_of_In].
  destruct (Z.eqb_spec (p_rc (clang src)) 0) as [Hrc|]; cbn [negb]; [|by intros Hin%list_elem_of_In].
  destruct (prevail_exists && _) eqn:Hpv; [by intros Hin%list_elem_of_In|].
  destruct (parse expr) as [[[[section' hook'] pred] action]|] eqn:Hp; [|by intros Hin%list_elem_of_In].
  cbn [f_files List.skipn]. rewrite list_elem_of_singleton. intros [= _ ->]. exists src, fn, section, hook, pred, action.
  assert (section' = section /\ hook' = hook) as [-> ->].
  { unfold codegen in Hc. rewrite Hp in Hc. destruct (take_pred _ _ _ _ _) as [[? ?]|]; [|done].
    destruct (take_action _ _ _ _ _ _) as [[? ?]|]; [|done]. destruct (emit_all _) as [?|]; [|done]. by injection Hc. }
  split_and!; try done. intros ->. cbn [andb] in Hpv. apply negb_false_iff, Z.eqb_eq in Hpv. done.
Qed.
End build.
