(* ===== verification/ProbeMain.v ===== *)
(** * The command of the probe generator (main of substrate/mk_probe.py)

    Which debug file is read, and what is printed and written.  The extracted packages
    are data: the files of each debug package in the order they are walked, and the
    shipped binary of each runtime package.  The debug information of a file and the
    text of an index are parameters. *)

From S2P Require Import Prelude PyVal Text Target Loader Probe.

(** ** The debug file, by build id *)

Record package_file := PackageFile { pf_path : string; pf_link : bool; pf_bytes : bytes }.

(** What the packages under a directory hold; [None] when the runtime package has no
    [usr/bin/tmm.default]. *)
Record packages := Packages { debug_debs : list (string * list package_file); runtime_debs : list (string * option bytes) }.

Definition SMALL : Z := 10 * 1024 * 1024.

Definition unreadable (e : exn) : bool := match e with OSError _ | ValueError _ | UnicodeError => true | _ => false end.

Fixpoint candidates (fs : list package_file) : result (list (string * package_file)) :=
  match fs with
  | [] => Ok []
  | f :: fs =>
      if pf_link f || (len (pf_bytes f) <? SMALL) then candidates fs else
      match build_id (pf_bytes f) with
      | Ok b => let? rest := candidates fs in Ok ((b, f) :: rest)
      | Err e => if unreadable e then candidates fs else Err e
      end
  end.

Definition matching (want : string) (cands : list (string * package_file)) : list package_file :=
  map snd (List.filter (fun bf => String.eqb bf.1 want) cands).

Definition found_text (cands : list (string * package_file)) : string :=
  match cands with
  | [] => "none"
  | _ => String.concat ", " (map (fun bf => cat [basename (pf_path bf.2); "="; list_str (List.firstn 12 (str_list bf.1))]) cands)
  end.

(** The file chosen, and the line printed when there was a choice. *)
Definition debug_file (p : packages) : result (package_file * list string) :=
  match debug_debs p with
  | [] => Err (SystemExit "no tmm-debuginfo_*.deb")
  | (deb, files) :: _ =>
      match runtime_debs p with
      | [] => Err (SystemExit "no tmm_*.deb")
      | (_, None) :: _ => Err (SystemExit "no usr/bin/tmm.default")
      | (_, Some shipped) :: _ =>
          let? want := build_id shipped in
          let? cands := candidates files in
          match matching want cands with
          | [] => Err (SystemExit (cat ["*** no debug binary in "; basename deb; " matches the shipped binary's build id "; want;
                                        ". Found: "; found_text cands]))
          | [f] =>
              Ok (f, if 1 <? len cands then
                       [cat ["  debuginfo : "; basename (pf_path f); "  (of "; py_str (len cands); " candidates, selected by build id ";
                             list_str (List.firstn 12 (str_list want)); ")"]]
                     else [])
          | ms => Err (SystemExit (cat ["*** "; py_str (len ms); " debug binaries share build id "; want; "; refusing to guess."]))
          end
      end
  end.

(** ** [main] *)

Record args := Args {
  o_debuginfo : option string; o_debs : option packages; o_function : option string; o_describe : bool;
  o_build_index : option string; o_index : option string; o_no_probe_read : bool; o_out : option string }.

(** What was printed and written. *)
Record report := Report { printed_lines : list string; files_written : list (string * string) }.

Definition given (s : option string) : option string := match s with Some EmptyString => None | o => o end.

Definition parameter_line (i : nat) (p : param) : string :=
  cat ["      arg"; py_str (Z.of_nat i); "  "; ljust 14 (or_else (pa_name p) "(unnamed)"); " "; ljust 10 (pa_kind p); " ";
       pa_detail p; if (5 <=? i)%nat then "   <- BEYOND the 5 registers the generic context carries" else ""].

Definition described (fn : string) (ps : list param) : list string :=
  [cat ["  "; fn; "("]] ++ imap parameter_line ps ++ ["  )"] ++
  (if 5 <? len ps then
     [""; cat ["  5 of "; py_str (len ps); " parameters are reachable. A generated probe cannot see the rest."]]
   else []).

Definition rjust2 (z : Z) : string := list_str (replicate (2 - length (str_list (py_str z))) (chr 32) ++ str_list (py_str z)).

Definition newlines (s : string) : Z := len (List.filter (fun c => ord c =? 10) (str_list s)).

Definition generated (out src : string) (fields : list field) (dropped : list arg) (used : Z) : list string :=
  [""; cat ["  generated "; out; " --- "; py_str (newlines src); " lines, record "; py_str used; "/"; py_str CTX_MAX; " bytes, ";
            py_str (len fields); " field(s) captured"]] ++
  map (fun f => let a := f_arg f in
         cat ["      arg"; py_str (a_index a); " "; ljust 14 (a_name a); " "; ljust 8 (a_kind a); " "; rjust2 (f_bytes f); " bytes"]) fields ++
  match dropped with
  | [] => []
  | _ => "  dropped, and the generated source says why:" ::
         map (fun a => cat ["      arg"; py_str (a_index a); " "; ljust 14 (a_name a); " "; a_kind a]) dropped
  end.

(** What [build_index] prints. *)
Definition indexed (bid out text : string) (seen : seen_map) : list string :=
  [cat ["  build id  : "; bid];
   cat ["  functions : "; py_str (Z.of_nat (size seen)); " with at least one parameter"];
   cat ["  parameters: "; py_str (foldr (fun kv n => len kv.2.2 + n) 0 (map_to_list seen))];
   cat ["  written   : "; out; " ("; py_str (strlen text); " bytes)"]].

Section main.
Variable sha256 : string -> string.
(** The bytes of a file named on the command line; the debug information of some bytes;
    the text of an index. *)
Variable open_bytes : string -> result bytes.
Variable dwarf : bytes -> result (list (cu * die)).
Variable open_text : string -> result string.

(** The parameters of the function asked for: of the index when one is given. *)
Definition parameters (dbg : option (result bytes)) (index : option string) (fn : string) : result (list param) :=
  match index with
  | Some path =>
      let? text := open_text path in
      match load_index text fn with
      | Some ps => Ok ps
      | None => Err (SystemExit "not in the index")
      end
  | None =>
      match dbg with
      | Some opened => let? b := opened in let? dies := dwarf b in signature dies fn
      | None => Err TypeError
      end
  end.

Definition write_probe (fn : string) (ps : list param) (no_probe_read : bool) (out : option string)
    : result (list string * list (string * string)) :=
  let '(fields, dropped, used) := Probe.layout ps no_probe_read in
  match fields with
  | [] => Err (SystemExit "nothing capturable under these constraints")
  | _ =>
      let? src := generate sha256 fn ps fields dropped used no_probe_read in
      let path := default (cat ["probe_"; fn; ".bpf.c"]) (given out) in
      Ok (generated path src fields dropped used, [(path, src)])
  end.

Definition probe_main (a : args) : result report :=
  let? (dbg, chosen) :=
    match o_debs a with
    | Some p => let? (f, lines) := debug_file p in Ok (Some (Ok (pf_bytes f)), lines)
    | None => match given (o_debuginfo a) with
              | Some path => Ok (Some (open_bytes path), [])
              | None => Ok (None, [])
              end
    end in
  raise_if (match dbg, given (o_index a) with None, None => true | _, _ => false end)
    (SystemExit "need --debuginfo, --debs, or a prebuilt --index") ;;
  match given (o_build_index a) with
  | Some out =>
      match dbg with
      | None => Err TypeError
      | Some opened =>
          let? b := opened in
          let? bid := build_id b in
          let? dies := dwarf b in
          let? text := build_index b dies in
          Ok (Report (chosen ++ indexed bid out text (foldl index_die ∅ dies)) [(out, text)])
      end
  | None =>
      match given (o_function a) with
      | None => Err (SystemExit "need --function (or --build-index)")
      | Some fn =>
          let? ps := parameters dbg (given (o_index a)) fn in
          if o_describe a then Ok (Report (chosen ++ described fn ps) []) else
          let? (lines, files) := write_probe fn ps (o_no_probe_read a) (o_out a) in
          Ok (Report (chosen ++ described fn ps ++ lines) files)
      end
  end.
End main.

(** ** The debug file is never guessed *)

Lemma candidates_built fs : forall cands b f, candidates fs = Ok cands -> (b, f) ∈ cands ->
  f ∈ fs /\ pf_link f = false /\ build_id (pf_bytes f) = Ok b.
Proof.
  induction fs as [|g fs IH]; intros cands b f; cbn [candidates]; [by intros <-%Ok_inj Hin; apply elem_of_nil in Hin|].
  destruct (pf_link g || _) eqn:Hs.
  { intros H Hin. destruct (IH cands b f H Hin) as (H1 & H2). split; [by right|done]. }
  apply orb_false_iff in Hs as [Hl _]. destruct (build_id (pf_bytes g)) as [b'|e] eqn:Hb.
  - destruct (candidates fs) as [rest|]; [|done]. intros <-%Ok_inj [[= -> ->]|Hin]%elem_of_cons; [by repeat constructor|].
    destruct (IH rest b f eq_refl Hin) as (H1 & H2). split; [by right|done].
  - destruct (unreadable e); [|done]. intros H Hin. destruct (IH cands b f H Hin) as (H1 & H2). split; [by right|done].
Qed.

Lemma matching_in want cands f : f ∈ matching want cands <-> (want, f) ∈ cands.
Proof.
  unfold matching. rewrite list_elem_of_fmap. split.
  - intros ([b g] & -> & [Hin Hb]%list_elem_of_In%filter_In). cbn in *. apply String.eqb_eq in Hb as ->. by apply list_elem_of_In.
  - intros Hin. exists (want, f). split; [done|]. apply list_elem_of_In, filter_In. split; [by apply list_elem_of_In|apply String.eqb_refl].
Qed.

(** The debug file used is a regular file of the debug package with the build id of the
    binary that ships, and no other candidate has it; when the packages do not agree, or
    several files do, nothing is chosen. *)
Theorem debug_file_by_build_id p f lines : debug_file p = Ok (f, lines) ->
  exists deb files rest name shipped rest' want cands,
    debug_debs p = (deb, files) :: rest /\ runtime_debs p = (name, Some shipped) :: rest' /\
    build_id shipped = Ok want /\ candidates files = Ok cands /\ f ∈ files /\ pf_link f = false /\
    build_id (pf_bytes f) = Ok want /\ forall g, (want, g) ∈ cands -> g = f.
Proof.
  unfold debug_file. destruct (debug_debs p) as [|[deb files] rest]; [done|].
  destruct (runtime_debs p) as [|[name [shipped|]] rest']; [done| |done].
  destruct (build_id shipped) as [want|] eqn:Hw; [|done]. destruct (candidates files) as [cands|] eqn:Hc; [|done].
  destruct (matching want cands) as [|g [|? ?]] eqn:Hm; [done| |done]. intros [= -> _].
  assert (forall g, (want, g) ∈ cands <-> g = f) as Hone by (intros g; by rewrite <- matching_in, Hm, list_elem_of_singleton).
  destruct (candidates_built files cands want f Hc) as (H1 & H2 & H3); [by apply Hone|].
  exists deb, files, rest, name, shipped, rest', want, cands. split_and!; try done. intros g. apply Hone.
Qed.

(** Describing a function writes nothing; the source written is the one [make_probe]
    generates for the parameters shown. *)
Lemma written_is_generated sha256 fn ps npr out lines files :
  write_probe sha256 fn ps npr out = Ok (lines, files) ->
  exists src used, make_probe sha256 fn ps npr = Ok (src, used) /\
    files = [(default (cat ["probe_"; fn; ".bpf.c"]) (given out), src)].
Proof.
  unfold write_probe, make_probe. destruct (Probe.layout ps npr) as [[fields dropped] used]. destruct fields as [|x fields]; [done|].
  destruct (generate _ _ _ _ _ _ _) as [src|]; [|done]. intros [= _ <-]. by exists src, used.
Qed.
