(* ===== verification/LoaderProc.v ===== *)
(** * The running process (env/scripts/ls-load.py)

    The process the loader command looks at: the names of /proc in the order they are
    listed, the link of each one's executable, and what reading its memory gives. *)

From S2P Require Import Prelude PyVal Text Target Loader LoaderSpec.

Record procfs := Proc {
  listdir : list string;
  readlink : string -> option string;            (* [None] is an [OSError] *)
  mem : string -> Z -> Z -> result bytes }.      (* the process, the address, how many *)

(** [d.isdigit()] and the name of the executable: what both scans look for. *)
Definition is_pid (d : string) : bool := negb (String.eqb d "") && forallb is_digit (str_list d).
Definition is_tmm (exe : string) : bool := starts_with "tmm" (basename exe).

Fixpoint tmm_pid_in (fs : procfs) (ds : list string) : option string :=
  match ds with
  | [] => None
  | d :: ds =>
      if negb (is_pid d) then tmm_pid_in fs ds else
      match readlink fs d with
      | None => tmm_pid_in fs ds
      | Some exe => if is_tmm exe then Some d else tmm_pid_in fs ds
      end
  end.
Definition tmm_pid (fs : procfs) : option string := tmm_pid_in fs (listdir fs).

Fixpoint running_binary_in (fs : procfs) (ds : list string) : option string :=
  match ds with
  | [] => None
  | d :: ds =>
      if negb (is_pid d) then running_binary_in fs ds else
      match readlink fs d with
      | None => running_binary_in fs ds
      | Some exe => if is_tmm exe then Some exe else running_binary_in fs ds
      end
  end.
Definition running_binary (fs : procfs) : option string := running_binary_in fs (listdir fs).

(** ** [entry_bytes] *)

Inductive address := AtText (s : string) | AtInt (z : Z).

Definition address_value (a : address) : result Z :=
  match a with
  | AtInt z => Ok z
  | AtText s => match py_int16 s with Some z => Ok z | None => Err (ValueError "invalid literal for int()") end
  end.

(** [open], [seek] and [read]: an address outside the range of a file offset is an
    [OverflowError]. *)
Definition read_memory (fs : procfs) (pid : string) (addr : address) (n : Z) : result bytes :=
  let? z := address_value addr in
  raise_if (negb ((- 2 ^ 63 <=? z) && (z <? 2 ^ 63))) OverflowError ;;
  raise_if (z <? 0) (OSError "Invalid argument") ;;
  mem fs pid z n.

Definition unknown (e : exn) : bool := match e with OSError _ | ValueError _ | UnicodeError => true | _ => false end.

Definition entry_bytes (fs : procfs) (addr : address) (n : Z) : result (option bytes) :=
  match tmm_pid fs with
  | None => Ok None
  | Some pid =>
      match read_memory fs pid addr n with
      | Ok b => Ok (if len b =? n then Some b else None)
      | Err e => if unknown e then Ok None else Err e
      end
  end.

(** ** [resolve_hook], on this process *)

(** The bytes of the executable, read through its path. *)
Definition resolve_running (index : option string) (fs : procfs) (read : string -> result bytes) (spec : string)
    : result string :=
  match running_binary fs with
  | None => resolve_hook index None spec
  | Some exe =>
      if starts_with "0x" spec || starts_with "0X" spec || match index with None => true | Some _ => false end
      then resolve_hook index None spec
      else let? b := read exe in resolve_hook index (Some b) spec
  end.

(** ** [sock], which asks once *)

Definition sock (cached : option string) (env : option string) (pick : bool) (exists_ : string -> bool)
    (listing : string -> list string) : result (string * option string) :=
  match cached with
  | Some s => Ok (s, cached)
  | None => let? s := resolve_sock env pick exists_ listing in Ok (s, Some s)
  end.

(** ** The same process *)

(** The two scans stop at the same process: the binary is the one that process runs. *)
Lemma running_binary_of_pid fs : running_binary fs = match tmm_pid fs with Some d => readlink fs d | None => None end.
Proof.
  unfold running_binary, tmm_pid. induction (listdir fs) as [|d ds IH]; [done|]. cbn [running_binary_in tmm_pid_in].
  destruct (is_pid d); cbn [negb]; [|done]. destruct (readlink fs d) as [exe|] eqn:Hd; [|done].
  destruct (is_tmm exe); [by rewrite Hd|done].
Qed.

(** A scan finds the first process whose executable is named tmm. *)
Lemma tmm_pid_first fs d : tmm_pid fs = Some d <->
  exists before after exe, listdir fs = before ++ d :: after /\ is_pid d = true /\ readlink fs d = Some exe /\ is_tmm exe = true /\
    Forall (fun d' => is_pid d' = false \/ match readlink fs d' with Some exe => is_tmm exe = false | None => True end) before.
Proof.
  unfold tmm_pid. induction (listdir fs) as [|c ds IH]; cbn [tmm_pid_in].
  - split; [done|]. intros ([|] & ? & ? & ? & _); done.
  - assert (forall P : Prop, (is_pid c = false \/ match readlink fs c with Some exe => is_tmm exe = false | None => True end) ->
      (tmm_pid_in fs ds = Some d <-> exists before after exe, c :: ds = before ++ d :: after /\ is_pid d = true /\
         readlink fs d = Some exe /\ is_tmm exe = true /\
         Forall (fun d' => is_pid d' = false \/ match readlink fs d' with Some exe => is_tmm exe = false | None => True end) before)) as Hskip.
    { intros _ Hc. rewrite IH. split.
      - intros (b & a & exe & -> & H). exists (c :: b), a, exe. split; [done|]. repeat split; try apply H. constructor; [done|apply H].
      - intros ([|c' b] & a & exe & Heq & Hp & Hr & Ht & Hb).
        + injection Heq as -> _. destruct Hc as [Hc|Hc]; [congruence|]. rewrite Hr in Hc. congruence.
        + injection Heq as -> ->. inversion Hb; subst. by exists b, a, exe. }
    destruct (is_pid c) eqn:Hp; cbn [negb]; [|apply (Hskip True); by left].
    destruct (readlink fs c) as [exe|] eqn:Hr; [|apply (Hskip True); by right].
    destruct (is_tmm exe) eqn:Ht; [|apply (Hskip True); by right].
    split.
    + intros [= ->]. by exists [], ds, exe.
    + intros ([|c' b] & a & exe' & Heq & _ & _ & _ & Hb); [by injection Heq as -> _|].
      injection Heq as -> _. inversion Hb as [|? ? [Hx|Hx] _]; subst; [congruence|]. rewrite Hr in Hx. congruence.
Qed.

(** The bytes reported are as many as were asked for; anything that could not be read is
    unknown, except an address no file offset can hold. *)
Lemma entry_bytes_whole fs addr n b : entry_bytes fs addr n = Ok (Some b) -> len b = n.
Proof.
  unfold entry_bytes. destruct (tmm_pid fs); [|done]. destruct (read_memory _ _ _ _) as [b'|e]; [|by destruct (unknown e)].
  destruct (Z.eqb_spec (len b') n); [|done]. by intros [= ->].
Qed.

Example entry_bytes_overflows fs pid : tmm_pid fs = Some pid ->
  entry_bytes fs (AtText "0xffffffff81000000") 5 = Err OverflowError.
Proof. intros Hp. unfold entry_bytes. rewrite Hp. reflexivity. Qed.

(** A name that is resolved is resolved against the executable of the process whose
    memory [entry_bytes] reads. *)
Lemma resolved_on_running_process index fs read spec at_ :
  starts_with "0x" spec = false -> starts_with "0X" spec = false -> resolve_running index fs read spec = Ok at_ ->
  exists text pid exe b, index = Some text /\ tmm_pid fs = Some pid /\ readlink fs pid = Some exe /\ read exe = Ok b /\
    resolve_hook index (Some b) spec = Ok at_.
Proof.
  intros H1 H2. unfold resolve_running. rewrite running_binary_of_pid, H1, H2. cbn [orb].
  destruct (tmm_pid fs) as [pid|] eqn:Hp.
  - destruct (readlink fs pid) as [exe|] eqn:Hr.
    + destruct index as [text|].
      * destruct (read exe) as [b|] eqn:Hb; [|done]. intros H. by exists text, pid, exe, b.
      * unfold resolve_hook. by rewrite H1, H2.
    + unfold resolve_hook. rewrite H1, H2. by destruct index.
  - unfold resolve_hook. rewrite H1, H2. by destruct index.
Qed.
