(* ===== verification/Aigw.v ===== *)
(** * The AI gateway observers (env/aigw/aigw_ebpf_suite.py, aigw_timing_suite.py)

    What the two suites compute from the frames their probes put in the ring: the
    records put together again from their chunks, and the stages of each request.
    Starting the gateway, loading the probes and sending traffic are not modelled;
    the JSON reader of a record's text is a parameter. *)

From S2P Require Import Prelude PyVal Text Assoc Format Export Authority Json MetaExport.

(** The data of a drained frame. *)
Definition frame_data (item : val) : result bytes := let? data := subscript "data" item in hex_value data.

(** ** [records] *)

Definition FRAME : list nat := [4; 4; 8; 8; 8; 4; 4; 4; 4; 4; 4; 128]%nat.
Definition FRAME_MAGIC : Z := 0x41474F42.

Record frame := Frame {
  f_seq : Z; f_total : Z; f_chunk : Z; f_chunks : Z; f_flags : Z; f_part : bytes }.

(** A frame of the size and kind expected, or none. *)
Definition parse_frame (data : bytes) : option frame :=
  if negb (length data =? calcsize FRAME)%nat then None else
  match chunks FRAME data with
  | [magic; abi; _; seq_; _; total; chunk; n; copied; flags; _; body] =>
      if negb (le_int magic =? FRAME_MAGIC) || negb (le_int abi =? 1) then None
      else Some (Frame (le_int seq_) (le_int total) (le_int chunk) (le_int n) (le_int flags) (ztake (le_int copied) body))
  | _ => None
  end.

Record parts := Parts { p_total : Z; p_chunks : Z; p_parts : gmap Z bytes; p_flags : Z }.

Definition add_frame (by_seq : gmap Z parts) (f : frame) : gmap Z parts :=
  let row := default (Parts (f_total f) (f_chunks f) ∅ 0) (by_seq !! f_seq f) in
  <[f_seq f := Parts (p_total row) (p_chunks row) (<[f_chunk f := f_part f]> (p_parts row)) (Z.lor (p_flags row) (f_flags f))]>
    by_seq.

(** [sorted] of the items of a dict with integer keys. *)
Definition sorted_items {A} (m : gmap Z A) : list (Z * A) := sort_by fst (map_to_list m).

Record record := Rec { r_sequence : Z; r_total : Z; r_complete : bool; r_flags : Z; r_body : bytes }.

Definition whole (row : parts) : bool := bool_decide (map fst (sorted_items (p_parts row)) = range (p_chunks row)).

Definition record_of (sp : Z * parts) : record :=
  let row := sp.2 in
  Rec sp.1 (p_total row) (whole row && (p_flags row =? 0)) (p_flags row) (concat (map snd (sorted_items (p_parts row)))).

Definition records_of (frames : list frame) : list record :=
  map record_of (sorted_items (fold_left add_frame frames ∅)).

(** A text as Python has it: ASCII as a string of this model. *)
Definition record_doc (r : record) : dict :=
  [("sequence", VInt (r_sequence r)); ("total_len", VInt (r_total r)); ("complete", VBool (r_complete r));
   ("flags", VInt (r_flags r)); ("text", text_value (decode_replace (r_body r)))].

Definition records (frames : list val) : result (list dict) :=
  let? data := mapM_r frame_data frames in Ok (map record_doc (records_of (omap parse_frame data))).

(** ** The checks of the probe run *)

(** [counter]: the number after [name=] in a status line. *)
Fixpoint after_text (pat l : list ascii) : option (list ascii) :=
  match literal pat l with
  | Some rest => Some rest
  | None => match l with [] => None | _ :: t => after_text pat t end
  end.

(** The text up to the next occurrence. *)
Fixpoint before_text (pat l : list ascii) : list ascii :=
  match literal pat l with
  | Some _ => []
  | None => match l with [] => [] | c :: t => c :: before_text pat t end
  end.

Definition counter (text name : string) : result Z :=
  let pat := str_list (cat [name; "="]) in
  match after_text pat (str_list text) with
  | None => Err IndexError
  | Some rest =>
      match split_blank (before_text pat rest) [] with
      | [] => Err IndexError
      | w :: _ => match py_int (list_str w) with Some z => Ok z | None => Err (ValueError "invalid literal for int()") end
      end
  end.

Section ebpf.
Variable json_loads : val -> result val.
Variable MODEL key : string.

(** A phase: each case with its status and the requests the provider saw. *)
Abbreviation phase_rows := (list (string * Z * Z)).

Definition ebpf_checks (baseline observed final : phase_rows) (start after_ : string) (recs : list dict) : result (list val) :=
  let failed {A} : result A := Err AssertionError in
  if negb (bool_decide (baseline = observed) && bool_decide (observed = final)) then failed else
  let? f1 := counter after_ "fired" in
  let? f0 := counter start "fired" in
  let? e1 := counter after_ "errors" in
  let? e0 := counter start "errors" in
  if negb (e1 =? e0) then failed else
  let? safe := counter after_ "safe_returns" in
  if negb (safe =? 0) then failed else
  if negb ((f1 - f0 =? len recs) && (2 <=? len recs)) then failed else
  if negb (forallb (fun r => truthy (getv "complete" r)) recs) then failed else
  let? docs := mapM_r (fun r => json_loads (getv "text" r)) recs in
  let joined := spaced (VList docs) in
  if negb (str_contains MODEL joined && str_contains "no-such-model" joined) then failed else
  if str_contains key joined then failed else Ok docs.
End ebpf.

(** ** [decode] of the timing events *)

Definition EVENT : list nat := [4; 4; 8; 8; 8; 8; 4; 4; 4; 4; 8]%nat.
Definition EVENT_MAGIC : Z := 0x41544D47.

Record event := Ev {
  v_seq : Z; v_ns : Z; v_scb : Z; v_point : Z; v_flags : Z; v_a : Z; v_b : Z; v_admit : Z; v_instance : Z }.

(** The points, by their numbers. *)
Definition ADMIT : Z := 1.
Definition STORE_SEND : Z := 2.
Definition STORE_REPLY : Z := 3.
Definition EVENT_POINT : Z := 4.
Definition REPLY_PARSE : Z := 5.
Definition REPLY_DONE : Z := 6.
Definition PUBLISH : Z := 7.
Definition FORWARDED : Z := 4.

Definition parse_event (data : bytes) : option event :=
  if negb (length data =? calcsize EVENT)%nat then None else
  match map le_int (chunks EVENT data) with
  | [magic; abi; instance; seq_; mono; scb; point; flags; a; b; admitted] =>
      if negb (magic =? EVENT_MAGIC) || negb (abi =? 1) then None
      else Some (Ev seq_ mono scb point flags a b admitted instance)
  | _ => None
  end.

Definition decode_events (data : list bytes) : list event := sort_by v_seq (omap parse_event data).

Definition decode (frames : list val) : result (list event) :=
  let? data := mapM_r frame_data frames in Ok (decode_events data).

(** ** [requests_from] *)

Abbreviation request := (list event).

Definition adel (k : Z) (d : list (Z * request)) : list (Z * request) := List.filter (fun kv => negb (kv.1 =? k)) d.

Definition split_step (st : list (Z * request) * list request) (e : event) : list (Z * request) * list request :=
  let '(by_scb, done_) := st in
  if v_scb e =? 0 then st
  else if v_point e =? ADMIT then
    match aget (v_scb e) by_scb with
    | Some r => (aset (v_scb e) [e] (adel (v_scb e) by_scb), done_ ++ [r])
    | None => (aset (v_scb e) [e] by_scb, done_)
    end
  else match aget (v_scb e) by_scb with
       | Some r => (aset (v_scb e) (r ++ [e]) by_scb, done_)
       | None => st
       end.

Definition requests_from (events : list event) : list request :=
  let '(by_scb, done_) := fold_left split_step events ([], []) in done_ ++ map snd by_scb.

(** ** [stages] *)

Definition first_ns (p : event -> bool) (r : request) : option Z :=
  match List.find p r with Some e => Some (v_ns e) | None => None end.

(** Microseconds between two times, where both are there. *)
Definition us (a b : option Z) : option Z :=
  match a, b with Some a, Some b => Some ((b - a) / 1000) | _, _ => None end.

Definition at_point (p : Z) (e : event) : bool := v_point e =? p.
Definition at_side (p a : Z) (e : event) : bool := (v_point e =? p) && (v_a e =? a).

Record stage_row := Stages {
  s_admission : option Z; s_round_trips : list Z; s_store_total : Z; s_sends : Z; s_replies : Z;
  s_first_byte : option Z; s_body : option Z; s_delivery : option Z; s_total : option Z;
  s_published : bool; s_consistent : bool }.

Definition store_times (p : Z) (r : request) : list Z := map v_ns (List.filter (at_point p) r).

(** [stages]: a request is never empty. *)
Definition stages (r : request) : result stage_row :=
  match r with
  | [] => Err IndexError
  | e0 :: _ =>
      let t0 := Some (v_ns e0) in
      let fwd := first_ns (at_side EVENT_POINT FORWARDED) r in
      let s_parse := first_ns (at_side REPLY_PARSE 1) r in
      let s_done := first_ns (at_side REPLY_DONE 1) r in
      let c_done := first_ns (at_side REPLY_DONE 0) r in
      let sends := store_times STORE_SEND r in
      let replies := store_times STORE_REPLY r in
      let trips := map (fun sr : Z * Z => (sr.2 - sr.1) / 1000) (zip sends replies) in
      Ok (Stages (us t0 fwd) trips (foldr Z.add 0 trips) (len sends) (len replies)
            (us fwd s_parse) (us s_parse s_done) (us s_done c_done) (us t0 c_done)
            (existsb (at_point PUBLISH) r) (forallb (fun e => v_admit e =? v_ns e0) r))
  end.

(** ** The checks of the timing run *)

Definition TOL_US : Z := 20000.
Definition SUM_US : Z := 1000.
(** [(D1 + D2) * 1e6]. *)
Definition REF_US : Z := 350000.

Definition present (o : option Z) : result Z := match o with Some z => Ok z | None => Err TypeError end.

Definition assert (b : bool) : result unit := if b then Ok tt else Err AssertionError.

Definition negative (o : option Z) : bool := match o with Some z => z <? 0 | None => false end.

Definition check_served (s : stage_row) : result unit :=
  let? _ := assert (s_consistent s) in
  let? _ := assert (negb (existsb negative [s_admission s; Some (s_store_total s); Some (s_sends s); Some (s_replies s);
                                            s_first_byte s; s_body s; s_delivery s; s_total s])) in
  let? _ := assert (1 <=? s_replies s) in
  let? _ := assert (s_replies s <=? s_sends s) in
  let? first_byte := present (s_first_byte s) in
  let? _ := assert ((REF_US <=? first_byte) && (first_byte <=? REF_US + TOL_US)) in
  let? body := present (s_body s) in
  let? _ := assert ((0 <=? body) && (body <=? TOL_US)) in
  let? admission := present (s_admission s) in
  let? delivery := present (s_delivery s) in
  let? total := present (s_total s) in
  assert (Z.abs (admission + first_byte + body + delivery - total) <=? SUM_US).

Definition check_refused (s : stage_row) : result unit :=
  assert (match s_admission s with None => true | Some _ => false end && (s_replies s =? 1)).

Definition is_served (s : stage_row) : bool := match s_first_byte s with Some _ => true | None => false end.

(** The assertions over the events, the requests and their stages. *)
Definition timing_checks (events : list event) : result (list stage_row) :=
  let? rows := mapM_r stages (requests_from events) in
  let served := List.filter is_served rows in
  let refused := List.filter (fun s => negb (is_served s)) rows in
  let? _ := assert ((len served =? 5) && (len refused =? 1)) in
  let seqs := map v_seq events in
  let? first := at_index seqs 0 in
  let? _ := assert (bool_decide (seqs = map (fun i => first + i) (range (len seqs)))) in
  let? _ := assert (forallb (fun e => (v_flags e =? 0) || (v_scb e =? 0)) events) in
  let? _ := mapM_r check_served served in
  let? _ := mapM_r check_refused refused in
  Ok rows.
