(* ===== verification/AigwSpec.v ===== *)
(** * Records are put together from their chunks, in whatever order they come

    The records of the probe against what was cut into frames, the split of the timing
    events into requests, and the arithmetic of the stages. *)

From S2P Require Import Prelude PyVal Text Assoc Format Export Authority Json MetaExport Aigw.

(** ** A frame on the wire *)

Record stamp := Stamp { st_instance : Z; st_mono : Z; st_reserved : Z }.

Definition frame_fields (s : stamp) (f : frame) : list bytes :=
  [le_bytes 4 FRAME_MAGIC; le_bytes 4 1; le_bytes 8 (st_instance s); le_bytes 8 (f_seq f); le_bytes 8 (st_mono s);
   le_bytes 4 (f_total f); le_bytes 4 (f_chunk f); le_bytes 4 (f_chunks f); le_bytes 4 (len (f_part f));
   le_bytes 4 (f_flags f); le_bytes 4 (st_reserved s);
   f_part f ++ replicate (128 - length (f_part f)) 0].

Definition wire (s : stamp) (f : frame) : bytes := concat (frame_fields s f).

Definition u32 (z : Z) : Prop := 0 <= z < 2 ^ 32.

Definition frame_fits (f : frame) : Prop :=
  0 <= f_seq f < 2 ^ 64 /\ u32 (f_total f) /\ u32 (f_chunk f) /\ u32 (f_chunks f) /\ u32 (f_flags f) /\
  (length (f_part f) <= 128)%nat.

Lemma le_int_small n z : 0 <= z < 2 ^ (8 * Z.of_nat n) -> le_int (le_bytes n z) = z.
Proof. intros Hz. apply le_int_bytes_small. by rewrite <- pow2_8. Qed.

Lemma parse_wire s f : frame_fits f -> parse_frame (wire s f) = Some f.
Proof.
  intros (Hq & Ht & Hc & Hn & Hf & Hp). unfold u32 in *.
  assert (map length (frame_fields s f) = FRAME) as Hl.
  { unfold frame_fields, FRAME. cbn [map]. rewrite !length_le_bytes, length_app, length_replicate. do 12 f_equal. lia. }
  unfold parse_frame, wire. rewrite <- Hl. replace (length (concat _)) with (calcsize (map length (frame_fields s f))).
  2: { unfold calcsize. rewrite length_concat. generalize (map length (frame_fields s f)). intros l. by induction l as [|x l IH]; cbn; rewrite ?IH. }
  rewrite Nat.eqb_refl. cbn [negb]. rewrite chunks_concat. unfold frame_fields. cbv iota.
  rewrite !le_int_small by (cbn; unfold len; try split; try lia; done).
  change (FRAME_MAGIC =? FRAME_MAGIC) with true. cbn [negb orb Z.eqb Pos.eqb]. destruct f as [q t c n fl p]. cbn [f_seq f_total f_chunk f_chunks f_flags f_part] in *.
  do 2 f_equal. unfold len. by rewrite ztake_take, Nat2Z.id, take_app_length.
Qed.

(** ** One sequence number *)

Abbreviation put_part := (fun (m : gmap Z bytes) (f : frame) => <[f_chunk f := f_part f]> m).

Definition summary (fs : list frame) : option parts :=
  match fs with
  | [] => None
  | f :: _ => Some (Parts (f_total f) (f_chunks f) (fold_left put_part fs ∅) (fold_left (fun z g => Z.lor z (f_flags g)) fs 0))
  end.

Definition of_seq (q : Z) (fs : list frame) : list frame := List.filter (fun f => f_seq f =? q) fs.

Lemma frames_by_seq q fs : fold_left add_frame fs ∅ !! q = summary (of_seq q fs).
Proof.
  induction fs as [|f fs IH] using rev_ind; [done|]. rewrite fold_left_app. cbn [fold_left]. unfold of_seq in *.
  rewrite List.filter_app. cbn [List.filter]. unfold add_frame at 1. destruct (Z.eqb_spec (f_seq f) q) as [->|Hq].
  - rewrite lookup_insert_eq, IH. destruct (List.filter _ fs) as [|g gs]; [done|].
    cbn [summary from_option id app p_total p_chunks p_parts p_flags]. rewrite app_comm_cons, !fold_left_app. done.
  - by rewrite lookup_insert_ne, app_nil_r.
Qed.

(** ** What was sent *)

Record sent := Sent { t_seq : Z; t_total : Z; t_parts : list bytes }.

Definition cut (s : sent) : list frame :=
  imap (fun i p => Frame (t_seq s) (t_total s) (Z.of_nat i) (len (t_parts s)) 0 p) (t_parts s).

#[export] Instance frame_eq_dec : EqDecision frame.
Proof. solve_decision. Defined.

Lemma cut_in s f : f ∈ cut s <-> exists i p, t_parts s !! i = Some p /\
  f = Frame (t_seq s) (t_total s) (Z.of_nat i) (len (t_parts s)) 0 p.
Proof.
  unfold cut. rewrite list_elem_of_lookup. setoid_rewrite list_lookup_imap. split.
  - intros (i & Hi). destruct (t_parts s !! i) as [p|] eqn:Hp; [|done]. injection Hi as <-. eauto.
  - intros (i & p & Hp & ->). exists i. by rewrite Hp.
Qed.

(** The parts of a record that arrived, with their places. *)
Definition arrived (fs : list frame) (s : sent) : list (Z * bytes) :=
  map (fun f => (f_chunk f, f_part f)) (List.filter (fun f => bool_decide (f ∈ fs)) (cut s)).

Definition received (fs : list frame) (s : sent) : record :=
  Rec (t_seq s) (t_total s) (bool_decide (Forall (fun f => f ∈ fs) (cut s))) 0 (concat (map snd (arrived fs s))).

Definition some_arrived (fs : list frame) (s : sent) : bool := existsb (fun f => bool_decide (f ∈ fs)) (cut s).

Lemma sorted_by_lookup {A} (R : A -> A -> Prop) l :
  (forall i j x y, (i < j)%nat -> l !! i = Some x -> l !! j = Some y -> R x y) -> StronglySorted R l.
Proof.
  induction l as [|x l IH]; intros H; constructor.
  - apply IH. intros i j y z Hij Hy Hz. by apply (H (S i) (S j)); [lia| |].
  - apply Forall_lookup. intros j y Hy. by apply (H 0%nat (S j)); [lia| |].
Qed.

Lemma sorted_filter {A} (R : A -> A -> Prop) p l : StronglySorted R l -> StronglySorted R (List.filter p l).
Proof.
  induction 1 as [|x l Hl IH Hx]; cbn [List.filter]; [constructor|]. destruct (p x); [|done]. constructor; [done|].
  apply Forall_forall. intros y [Hy _]%list_elem_of_In%filter_In. by eapply Forall_forall in Hx; [|apply list_elem_of_In].
Qed.

Lemma sorted_map_to {A B} (R : B -> B -> Prop) (f : A -> B) l :
  StronglySorted (fun x y => R (f x) (f y)) l -> StronglySorted R (map f l).
Proof.
  induction 1 as [|x l Hl IH Hx]; cbn [map]; constructor; [done|]. apply Forall_forall.
  intros y (z & -> & Hz)%list_elem_of_fmap. by eapply Forall_forall in Hx.
Qed.

Lemma sorted_lt_nodup {A} (key : A -> Z) l : StronglySorted (fun x y => key x < key y) l -> NoDup (map key l).
Proof.
  induction 1 as [|x l Hl IH Hx]; cbn [map]; constructor; [|done].
  intros (y & Heq & Hy)%list_elem_of_fmap. eapply Forall_forall in Hx; [|done]. lia.
Qed.

Lemma sorted_weaken {A} (R S : A -> A -> Prop) l : (forall x y, R x y -> S x y) -> StronglySorted R l -> StronglySorted S l.
Proof. intros H. induction 1 as [|x l Hl IH Hx]; constructor; [done|]. eapply Forall_impl; [exact Hx|auto]. Qed.

Lemma cut_sorted s : StronglySorted (fun f g => f_chunk f < f_chunk g) (cut s).
Proof.
  apply sorted_by_lookup. intros i j x y Hij. unfold cut. rewrite !list_lookup_imap.
  destruct (t_parts s !! i); [|done]. destruct (t_parts s !! j); [|done]. intros [= <-] [= <-]. cbn. lia.
Qed.

Lemma arrived_sorted fs s : StronglySorted (fun x y : Z * bytes => x.1 < y.1) (arrived fs s).
Proof. apply (sorted_map_to (fun x y : Z * bytes => x.1 < y.1)), sorted_filter, cut_sorted. Qed.

Lemma cut_chunks s : map f_chunk (cut s) = range (len (t_parts s)).
Proof.
  unfold cut, range, len. rewrite Nat2Z.id. apply list_eq. intros i. rewrite !list_lookup_fmap, list_lookup_imap.
  destruct (t_parts s !! i) as [p|] eqn:Hp; cbn.
  - rewrite lookup_seq_lt by (by eapply lookup_lt_Some). done.
  - rewrite lookup_seq_ge; [done|]. by apply lookup_ge_None.
Qed.

Lemma filter_every {A} (p : A -> bool) l : length (List.filter p l) = length l <-> Forall (fun x => p x = true) l.
Proof.
  induction l as [|x l IH]; cbn [List.filter]; [done|]. rewrite Forall_cons.
  pose proof (List.filter_length_le p l). destruct (p x); cbn [length].
  - rewrite <- IH. split; [intros H'; split; [done|lia]|intros [_ H']; lia].
  - split; [lia|by intros [H' _]].
Qed.

(** All of a record arrived exactly when the places seen are all of them. *)
Lemma arrived_whole fs s :
  map fst (arrived fs s) = range (len (t_parts s)) <-> Forall (fun f => f ∈ fs) (cut s).
Proof.
  unfold arrived. rewrite map_map. cbn [fst]. rewrite <- cut_chunks.
  assert (Forall (fun f => f ∈ fs) (cut s) <-> Forall (fun f => bool_decide (f ∈ fs) = true) (cut s)) as ->.
  { rewrite !Forall_forall. by setoid_rewrite bool_decide_eq_true. }
  rewrite <- filter_every. split.
  - intros H. apply (f_equal length) in H. by rewrite !length_map in H.
  - intros H. f_equal. apply filter_every in H. induction H as [|f l Hf _ IH]; cbn [List.filter]; [done|]. by rewrite Hf, IH.
Qed.

Lemma fold_put (P : Z -> option bytes) gs : Forall (fun g => P (f_chunk g) = Some (f_part g)) gs ->
  forall k p, fold_left put_part gs ∅ !! k = Some p <-> P k = Some p /\ exists g, g ∈ gs /\ f_chunk g = k.
Proof.
  intros H. induction gs as [|g gs IH] using rev_ind; intros k p.
  - cbn [fold_left]. rewrite lookup_empty. split; [done|]. by intros (_ & g & Hg%elem_of_nil & _).
  - apply Forall_app in H as [Hgs Hg%Forall_inv]. rewrite fold_left_app. cbn [fold_left].
    destruct (decide (f_chunk g = k)) as [<-|Hk].
    + rewrite lookup_insert_eq, Hg. split; [|by intros [? _]].
      intros Hp. split; [done|]. exists g. split; [|done]. apply elem_of_app. right. by left.
    + rewrite lookup_insert_ne, (IH Hgs) by done. split; (intros [HP Hex]; split; [done|]; revert Hex; clear HP); intros (g' & Hin & Heq).
      * exists g'. split; [|done]. apply elem_of_app. by left.
      * apply elem_of_app in Hin as [Hin|Hin%list_elem_of_singleton]; [by exists g'|by subst].
Qed.

Lemma fold_flags gs z : Forall (fun g => f_flags g = 0) gs -> fold_left (fun z g => Z.lor z (f_flags g)) gs z = z.
Proof. intros H. revert z. induction H as [|g gs Hg _ IH]; intros z; [done|]. cbn [fold_left]. by rewrite Hg, Z.lor_0_r, IH. Qed.

(** ** Every record *)

Lemma nodup_filter {p : sent -> bool} l : NoDup (map t_seq l) -> NoDup (map t_seq (List.filter p l)).
Proof.
  induction l as [|x l IH]; cbn [List.filter map]; [done|]. intros [Hx Hl]%NoDup_cons. destruct (p x); [|auto].
  cbn [map]. constructor; [|auto]. intros (y & Hy & Hin)%list_elem_of_fmap. apply Hx. rewrite Hy.
  apply list_elem_of_In, filter_In in Hin as [Hin _]. apply list_elem_of_fmap_2. by apply list_elem_of_In.
Qed.

Section arrivals.
Context (srcs : list sent) (fs : list frame).
Hypothesis Hnodup : NoDup (map t_seq srcs).
(** Only frames of what was sent arrive. *)
Hypothesis Hfrom : Forall (fun f => exists s, s ∈ srcs /\ f ∈ cut s) fs.

Lemma cut_seq s f : f ∈ cut s -> f_seq f = t_seq s.
Proof. by intros (i & p & _ & ->)%cut_in. Qed.

Lemma sent_unique s s' : s ∈ srcs -> s' ∈ srcs -> t_seq s = t_seq s' -> s = s'.
Proof.
  intros (i & Hi)%list_elem_of_lookup (j & Hj)%list_elem_of_lookup Heq.
  assert (i = j) as <-; [|congruence].
  apply (NoDup_lookup (map t_seq srcs) i j (t_seq s)); [done|by rewrite list_lookup_fmap, Hi|by rewrite list_lookup_fmap, Hj, Heq].
Qed.

(** The frames with a record's number are its frames that arrived. *)
Lemma of_seq_in s f : s ∈ srcs -> f ∈ of_seq (t_seq s) fs <-> f ∈ fs /\ f ∈ cut s.
Proof.
  intros Hs. unfold of_seq. rewrite list_elem_of_In, filter_In, <- list_elem_of_In, Z.eqb_eq.
  split; intros [Hin H]; (split; [done|]); [|by apply cut_seq].
  pose proof Hfrom as Hf. rewrite Forall_forall in Hf. destruct (Hf f Hin) as (s' & Hs' & Hc).
  rewrite (cut_seq s' f Hc) in H. by rewrite <- (sent_unique s' s Hs' Hs H).
Qed.

Lemma of_seq_row s : s ∈ srcs -> some_arrived fs s = true -> exists row,
  fold_left add_frame fs ∅ !! t_seq s = Some row /\ record_of (t_seq s, row) = received fs s.
Proof.
  intros Hs Ha. rewrite frames_by_seq. pose proof (fun f => of_seq_in s f Hs) as Hin.
  set (gs := of_seq (t_seq s) fs) in *. unfold some_arrived in Ha. apply existsb_exists in Ha as (f & Hf & Hfs%bool_decide_eq_true).
  apply list_elem_of_In in Hf. assert (f ∈ gs) as Hg by (by apply Hin).
  assert (Forall (fun g => g ∈ cut s) gs) as Hcut by (apply Forall_forall; intros g Hg'; apply Hin in Hg' as [_ Hg']; exact Hg').
  assert (Forall (fun g => f_flags g = 0) gs) as Hfl.
  { eapply Forall_impl; [exact Hcut|]. by intros g (i & p & _ & ->)%cut_in. }
  assert (Forall (fun g => t_parts s !! Z.to_nat (f_chunk g) = Some (f_part g)) gs) as Hparts.
  { eapply Forall_impl; [exact Hcut|]. intros g (i & p & Hp & ->)%cut_in. cbn. by rewrite Nat2Z.id. }
  pose proof (fold_put (fun k => t_parts s !! Z.to_nat k) gs Hparts) as Hput.
  destruct gs as [|g gs']; [by apply elem_of_nil in Hg|].
  assert (f_total g = t_total s /\ f_chunks g = len (t_parts s)) as [Ht Hn].
  { inversion Hcut as [|? ? (i & p & _ & ->)%cut_in _]; done. }
  eexists. split; [reflexivity|]. unfold record_of, received. cbn [fst snd p_total p_chunks p_parts p_flags].
  rewrite fold_flags, Ht by done.
  assert (sorted_items (fold_left put_part (g :: gs') ∅) = arrived fs s) as Hitems.
  { apply (sort_by_unique fst).
    - apply NoDup_Permutation; [apply NoDup_map_to_list| |].
      + eapply NoDup_fmap_1. apply (sorted_lt_nodup fst), arrived_sorted.
      + intros [k p]. rewrite elem_of_map_to_list, Hput. unfold arrived. rewrite list_elem_of_fmap.
        setoid_rewrite list_elem_of_In. setoid_rewrite filter_In. setoid_rewrite <- list_elem_of_In. split.
        * intros (Hp & h & Hh & <-). exists h. pose proof (proj1 (Hin h) Hh) as [Hhf Hhc].
          assert (f_part h = p) as <-.
          { rewrite Forall_forall in Hparts. specialize (Hparts h Hh). congruence. }
          split; [done|]. split; [done|]. by apply bool_decide_eq_true.
        * intros (h & [= -> ->] & Hhc & Hhf%bool_decide_eq_true). assert (h ∈ g :: gs') as Hh by (by apply Hin).
          rewrite Forall_forall in Hparts. split; [by apply Hparts|by exists h].
    - eapply sorted_weaken; [|apply arrived_sorted]. unfold key_le. lia.
    - apply (sorted_lt_nodup fst), arrived_sorted. }
  rewrite Hitems. unfold whole. cbn [p_parts p_chunks]. rewrite Hitems, Hn. change (0 =? 0) with true. rewrite andb_true_r.
  by rewrite (bool_decide_ext _ _ (arrived_whole fs s)).
Qed.

(** The rows are those of the records of which something arrived. *)
Lemma of_seq_some q row : fold_left add_frame fs ∅ !! q = Some row ->
  exists s, s ∈ srcs /\ t_seq s = q /\ some_arrived fs s = true.
Proof.
  rewrite frames_by_seq. destruct (of_seq q fs) as [|g gs] eqn:Hg; [done|]. intros _.
  assert (g ∈ of_seq q fs) as Hin by (rewrite Hg; left). unfold of_seq in Hin.
  apply list_elem_of_In, filter_In in Hin as [Hin Hq%Z.eqb_eq]. apply list_elem_of_In in Hin.
  pose proof Hfrom as Hf. rewrite Forall_forall in Hf. destruct (Hf g Hin) as (s & Hs & Hc). exists s.
  split; [done|]. split; [by rewrite <- (cut_seq s g Hc)|]. unfold some_arrived. apply existsb_exists. exists g.
  split; [by apply list_elem_of_In|]. by apply bool_decide_eq_true.
Qed.

Lemma records_received :
  records_of fs = map (received fs) (sort_by t_seq (List.filter (some_arrived fs) srcs)).
Proof.
  set (l := sort_by t_seq _).
  assert (forall s, s ∈ l <-> s ∈ srcs /\ some_arrived fs s = true) as Hl.
  { intros s. unfold l. by rewrite sort_by_perm, list_elem_of_In, filter_In, <- list_elem_of_In. }
  assert (StronglySorted (key_le t_seq) l) as Hsort by apply sort_by_sorted.
  assert (NoDup (map t_seq l)) as Hn.
  { unfold l. change (NoDup (t_seq <$> sort_by t_seq (List.filter (some_arrived fs) srcs))). rewrite sort_by_perm.
    exact (@nodup_filter (some_arrived fs) srcs Hnodup). }
  pose (g := fun s => (t_seq s, default (Parts 0 0 ∅ 0) (fold_left add_frame fs ∅ !! t_seq s))).
  assert (sorted_items (fold_left add_frame fs ∅) = map g l) as Hitems.
  { apply (sort_by_unique fst).
    - apply NoDup_Permutation; [apply NoDup_map_to_list| |].
      { apply (NoDup_fmap_1 fst). change (NoDup (map fst (map g l))). rewrite map_map. exact Hn. }
      intros [q row]. rewrite elem_of_map_to_list, list_elem_of_fmap. split.
      + intros Hrow. destruct (of_seq_some q row Hrow) as (s & Hs & <- & Ha). exists s.
        split; [unfold g; by rewrite Hrow|by apply Hl].
      + intros (s & Heq & [Hs Ha]%Hl). destruct (of_seq_row s Hs Ha) as (row' & Hrow & _). unfold g in Heq.
        rewrite Hrow in Heq. by injection Heq as -> ->.
    - apply sorted_map_to. eapply sorted_weaken; [|exact Hsort]. done.
    - rewrite map_map. exact Hn. }
  unfold records_of. rewrite Hitems, map_map. apply map_ext_in. intros s [Hs Ha]%list_elem_of_In%Hl.
  destruct (of_seq_row s Hs Ha) as (row & Hrow & Heq). unfold g. by rewrite Hrow.
Qed.
End arrivals.

Lemma all_arrived fs s : Forall (fun f => f ∈ fs) (cut s) -> map snd (arrived fs s) = t_parts s.
Proof.
  intros H. unfold arrived. rewrite map_map. cbn [snd].
  assert (List.filter (fun f => bool_decide (f ∈ fs)) (cut s) = cut s) as ->.
  { induction H as [|f l Hf _ IH]; cbn [List.filter]; [done|]. by rewrite bool_decide_true, IH. }
  apply list_eq. intros i. unfold cut. rewrite list_lookup_fmap, list_lookup_imap. by destruct (t_parts s !! i).
Qed.

(** ** The text *)

Lemma utf8_front_decode a t cps : utf8_decode (a :: t) = Some cps ->
  exists c n rest, utf8_front (a :: t) = (Some c, S n) /\ utf8_decode (drop n t) = Some rest /\ cps = c :: rest.
Proof.
  cbn [utf8_decode utf8_front]. destruct (Z.ltb_spec a 0x80).
  { destruct (utf8_decode t) as [r|] eqn:Hr; [|done]. intros [= <-]. by exists a, 0%nat, r. }
  destruct t as [|b t]; [done|]. destruct ((0xc2 <=? a) && (a <=? 0xdf)) eqn:H2.
  { destruct (cont b); [|done]. destruct (utf8_decode t) as [r|] eqn:Hr; [|done]. intros [= <-]. by eexists _, 1%nat, r. }
  destruct t as [|c t]; [done|]. destruct ((0xe0 <=? a) && (a <=? 0xef)) eqn:H3.
  { match goal with |- context [if cont b && cont c && ?x && ?y then _ else _] => destruct (cont b && cont c && x && y) eqn:Hc; [|done] end.
    destruct (utf8_decode t) as [r|] eqn:Hr; [|done]. intros [= <-].
    bool_prop. assert (second_ok a b = true) as ->.
    { unfold second_ok, cont in *. destruct (Z.eqb_spec a 0xe0), (Z.eqb_spec a 0xed), (Z.eqb_spec a 0xf0), (Z.eqb_spec a 0xf4); lia. }
    cbn [negb]. match goal with H : cont c = true |- _ => rewrite H end. by eexists _, 2%nat, r. }
  destruct t as [|d t]; [done|]. destruct ((0xf0 <=? a) && (a <=? 0xf4)) eqn:H4; [|done].
  match goal with |- context [if cont b && cont c && cont d && ?x && ?y then _ else _] => destruct (cont b && cont c && cont d && x && y) eqn:Hc; [|done] end.
  destruct (utf8_decode t) as [r|] eqn:Hr; [|done]. intros [= <-].
  bool_prop. assert (second_ok a b = true) as ->.
  { unfold second_ok, cont in *. destruct (Z.eqb_spec a 0xe0), (Z.eqb_spec a 0xed), (Z.eqb_spec a 0xf0), (Z.eqb_spec a 0xf4); lia. }
  cbn [negb]. match goal with H : cont c = true |- _ => rewrite H end. cbn [negb].
  match goal with H : cont d = true |- _ => rewrite H end. by eexists _, 3%nat, r.
Qed.

Lemma utf8_replace_valid fuel : forall l cps, (length l < fuel)%nat -> utf8_decode l = Some cps -> utf8_replace fuel l = cps.
Proof.
  induction fuel as [|fuel IH]; intros l cps Hf Hd; [lia|]. destruct l as [|a t]; [by injection Hd as <-|].
  destruct (utf8_front_decode a t cps Hd) as (c & n & rest & Hfront & Hrest & ->).
  cbn [utf8_replace]. rewrite Hfront. cbn [from_option id drop]. f_equal. apply IH; [|done].
  rewrite length_drop. cbn [length] in Hf. lia.
Qed.

Lemma decode_replace_valid l cps : utf8_decode l = Some cps -> decode_replace l = cps.
Proof. apply utf8_replace_valid. lia. Qed.

(** ** From the ring to the records *)

Definition sent_fits (s : sent) : Prop :=
  0 <= t_seq s < 2 ^ 64 /\ u32 (t_total s) /\ u32 (len (t_parts s)) /\
  Forall (fun p => is_bytes p /\ (length p <= 128)%nat) (t_parts s).

Lemma cut_fits s f : sent_fits s -> f ∈ cut s -> frame_fits f /\ is_bytes (f_part f).
Proof.
  intros (Hq & Ht & Hn & Hp) (i & p & Hi & ->)%cut_in. pose proof (Forall_lookup_1 _ _ _ _ Hp Hi) as [Hb Hl].
  pose proof (lookup_lt_Some _ _ _ Hi). unfold frame_fits, u32, len in *. cbn. split; [|done]. split_and!; lia.
Qed.

Lemma wire_bytes s f : is_bytes (f_part f) -> is_bytes (wire s f).
Proof.
  intros Hp. unfold wire, frame_fields. cbn [concat]. repeat (apply Forall_app; split); try apply is_bytes_le_bytes; try done.
  apply Forall_replicate. unfold is_byte. lia.
Qed.

(** A frame as it was drained. *)
Definition item_of (sf : stamp * frame) : val := VDict [("hook", VStr "prog"); ("data", VStr (hex (wire sf.1 sf.2)))].

Lemma frames_read items : Forall (fun sf => frame_fits sf.2 /\ is_bytes (f_part sf.2)) items ->
  exists data, mapM_r frame_data (map item_of items) = Ok data /\ omap parse_frame data = map snd items.
Proof.
  induction 1 as [|[s f] items [Hf Hb] _ (data & Hd & Hp)]; [by exists []|]. cbn [map mapM_r fst snd].
  unfold frame_data at 1, item_of at 1, subscript, item. cbn [get String.eqb Ascii.eqb Bool.eqb hex_value].
  cbn [fst snd]. rewrite fromhex_hex by (by apply wire_bytes). rewrite Hd. eexists. split; [done|].
  cbn [omap list_omap]. by rewrite parse_wire, <- Hp.
Qed.

(** C37: records are put together from their chunks, in whatever order they come.  Cut any
    records with different numbers into frames, and drain any of these frames, in any
    order, any number of times.  The result has one record for each number of which
    something arrived, by number; it holds what arrived of that record, in its places,
    and is complete exactly when all of it arrived; and a complete record whose text was
    UTF-8 has that text. *)
Theorem records_reassembled srcs items :
  NoDup (map t_seq srcs) -> Forall sent_fits srcs ->
  Forall (fun sf : stamp * frame => exists s, s ∈ srcs /\ sf.2 ∈ cut s) items ->
  let fs := map snd items in
  records (map item_of items) =
    Ok (map (fun s => record_doc (received fs s)) (sort_by t_seq (List.filter (some_arrived fs) srcs))) /\
  forall s cps, s ∈ srcs -> (forall f, f ∈ cut s -> f ∈ fs) -> utf8_decode (concat (t_parts s)) = Some cps ->
    record_doc (received fs s) =
      [("sequence", VInt (t_seq s)); ("total_len", VInt (t_total s)); ("complete", VBool true); ("flags", VInt 0);
       ("text", text_value cps)].
Proof.
  intros Hn Hs Hi fs. split.
  - destruct (frames_read items) as (data & Hd & Hp).
    { eapply Forall_impl; [exact Hi|]. intros sf (s & Hin & Hc). apply (cut_fits s); [|done].
      by eapply Forall_forall in Hs. }
    unfold records. rewrite Hd, Hp. rewrite (records_received srcs); [by rewrite map_map|done|].
    unfold fs. apply Forall_fmap. exact Hi.
  - intros s cps Hin Hall Hu. unfold received, record_doc. cbn [r_sequence r_total r_complete r_flags r_body].
    assert (Forall (fun f => f ∈ fs) (cut s)) as Ha by (by apply Forall_forall).
    rewrite bool_decide_true by done. rewrite (all_arrived fs s Ha). by rewrite (decode_replace_valid _ cps).
Qed.

(** Two records, the second of which loses its middle chunk; frames arrive backwards and
    one of them twice. *)
Definition demo_sent : list sent :=
  [Sent 7 6 [[0x7b; 0x22]; [0xc3; 0xa9]; [0x22; 0x7d]]; Sent 3 5 [[65]; [66]; [67]]].
Definition demo_items : list (stamp * frame) :=
  let f q t i p := (Stamp 9 (100 + i) 0, Frame q t i 3 0 p) in
  [f 7 6 2 [0x22; 0x7d]; f 3 5 2 [67]; f 7 6 1 [0xc3; 0xa9]; f 3 5 0 [65]; f 7 6 2 [0x22; 0x7d]; f 7 6 0 [0x7b; 0x22]].

Lemma records_reassembled_witness :
  records (map item_of demo_items) =
    Ok (map (fun s => record_doc (received (map snd demo_items) s))
          (sort_by t_seq (List.filter (some_arrived (map snd demo_items)) demo_sent))).
Proof.
  apply records_reassembled.
  - by repeat (constructor; [set_solver|]); constructor.
  - repeat constructor; cbn; unfold u32, is_byte, len; cbn; lia.
  - assert (forall f s, s ∈ demo_sent -> bool_decide (f ∈ cut s) = true -> exists s, s ∈ demo_sent /\ f ∈ cut s) as Hc
      by (intros f s Hs Hf; exists s; split; [done|by apply bool_decide_eq_true in Hf]).
    assert (Sent 7 6 [[0x7b; 0x22]; [0xc3; 0xa9]; [0x22; 0x7d]] ∈ demo_sent) as H7 by left.
    assert (Sent 3 5 [[65]; [66]; [67]] ∈ demo_sent) as H3 by (right; left).
    repeat (constructor; [first [apply (Hc _ _ H7); vm_compute; reflexivity|apply (Hc _ _ H3); vm_compute; reflexivity]|]).
    constructor.
Defined.

Example demo_records : records (map item_of demo_items) = Ok
  [[("sequence", VInt 3); ("total_len", VInt 5); ("complete", VBool false); ("flags", VInt 0); ("text", VStr "AC")];
   [("sequence", VInt 7); ("total_len", VInt 6); ("complete", VBool true); ("flags", VInt 0); ("text", VText [123; 34; 233; 34; 125])]].
Proof. vm_compute. reflexivity. Qed.

(** ** Requests *)

Definition scb_of (r : list event) : Z := match r with e :: _ => v_scb e | [] => 0 end.

(** A request: an admission and what follows it on the same object. *)
Definition is_request (r : list event) : Prop := exists e t, r = e :: t /\ v_scb e <> 0 /\ v_point e = ADMIT /\
  Forall (fun e' => v_scb e' = v_scb e /\ v_point e' <> ADMIT) t.

(** The events of one object from its first admission on. *)
Fixpoint from_admit (l : list event) : list event :=
  match l with [] => [] | e :: t => if v_point e =? ADMIT then l else from_admit t end.

Definition kept (k : Z) (events : list event) : list event := from_admit (List.filter (fun e => v_scb e =? k) events).

Definition requests_of (k : Z) (rs : list (list event)) : list event := concat (List.filter (fun r => scb_of r =? k) rs).

Lemma from_admit_app l e : from_admit (l ++ [e]) =
  match from_admit l with [] => if v_point e =? ADMIT then [e] else [] | _ => from_admit l ++ [e] end.
Proof. induction l as [|x l IH]; cbn [from_admit app]; [done|]. destruct (v_point x =? ADMIT); [done|exact IH]. Qed.

Lemma aget_adel k k' (d : list (Z * list event)) : aget k (adel k' d) = if decide (k = k') then None else aget k d.
Proof.
  induction d as [|[k0 r] d IH]; cbn [adel List.filter aget]; [by case_decide|]. cbn [fst].
  fold (adel k' d). destruct (Z.eqb_spec k0 k') as [->|Hne]; cbn [negb aget].
  - rewrite IH. by repeat case_decide.
  - rewrite IH. repeat case_decide; congruence.
Qed.

Lemma keys_adel_aset k r (d : list (Z * list event)) : NoDup (keys d) -> NoDup (keys (aset k r (adel k d))).
Proof.
  intros Hd. apply nodup_aset. unfold keys, adel. induction d as [|[k0 r0] d IH]; cbn [List.filter map fst] in *; [done|].
  apply NoDup_cons in Hd as [Hn Hd]. destruct (negb (k0 =? k)); [|auto]. cbn [map fst]. constructor; [|auto].
  intros (x & Hx & Hin)%list_elem_of_fmap. apply list_elem_of_In, filter_In in Hin as [Hin _].
  apply Hn, list_elem_of_fmap. exists x. split; [done|by apply list_elem_of_In].
Qed.

Definition split_ok (events : list event) (st : list (Z * list event) * list (list event)) : Prop :=
  let '(by_scb, done_) := st in
  NoDup (keys by_scb) /\ Forall is_request done_ /\
  (forall k r, aget k by_scb = Some r -> is_request r /\ scb_of r = k) /\
  (forall k, k <> 0 -> aget k by_scb = None -> requests_of k done_ = []) /\
  forall k, k <> 0 -> requests_of k done_ ++ default [] (aget k by_scb) = kept k events.

Lemma requests_of_app k a b : requests_of k (a ++ b) = requests_of k a ++ requests_of k b.
Proof. unfold requests_of. by rewrite List.filter_app, concat_app. Qed.

Lemma requests_of_one k r : requests_of k [r] = if scb_of r =? k then r else [].
Proof. unfold requests_of. cbn [List.filter]. destruct (scb_of r =? k); cbn [concat]; [by rewrite app_nil_r|done]. Qed.

Lemma kept_snoc k events e : kept k (events ++ [e]) =
  if v_scb e =? k then match kept k events with [] => if v_point e =? ADMIT then [e] else [] | l => l ++ [e] end
  else kept k events.
Proof.
  unfold kept. rewrite List.filter_app. cbn [List.filter]. destruct (v_scb e =? k); [|by rewrite app_nil_r].
  rewrite from_admit_app. by destruct (from_admit _).
Qed.

Lemma split_step_ok events st e : split_ok events st -> split_ok (events ++ [e]) (split_step st e).
Proof.
  destruct st as [by_scb done_]. intros (Hn & Hd & Hr & Hnone & Hk). unfold split_step.
  destruct (Z.eqb_spec (v_scb e) 0) as [H0|H0].
  { split_and!; try done. intros k Hk0. rewrite Hk, kept_snoc by done. destruct (Z.eqb_spec (v_scb e) k); [congruence|done]. }
  assert (v_point e = ADMIT -> is_request [e] /\ scb_of [e] = v_scb e) as Hone.
  { intros Ha. split; [|done]. exists e, []. by repeat constructor. }
  destruct (Z.eqb_spec (v_point e) ADMIT) as [Ha|Ha].
  - destruct (aget (v_scb e) by_scb) as [r|] eqn:Hg.
    + destruct (Hr _ _ Hg) as [Hreq Hscb]. split_and!.
      * by apply keys_adel_aset.
      * apply Forall_app. split; [done|by constructor].
      * intros k r'. rewrite aget_aset. case_decide as Hek; [intros [= <-]; subst; by apply Hone|].
        rewrite aget_adel. rewrite decide_False by done. apply Hr.
      * intros k Hk0. rewrite aget_aset, aget_adel. repeat case_decide; [done..|]. intros Hno.
        rewrite requests_of_app, requests_of_one, Hscb, Hnone by done. destruct (Z.eqb_spec (v_scb e) k); [congruence|done].
      * intros k Hk0. rewrite requests_of_app, requests_of_one, kept_snoc, Hscb, <- (Hk k Hk0), aget_aset, aget_adel.
        destruct (Z.eqb_spec (v_scb e) k) as [<-|Hne].
        -- rewrite decide_True, Hg by done. cbn [from_option id]. destruct (requests_of (v_scb e) done_ ++ r) eqn:Hl; [|done].
           apply app_eq_nil in Hl as [_ ->]. destruct Hreq as (? & ? & ? & _). done.
        -- rewrite decide_False, decide_False by done. by rewrite app_nil_r.
    + split_and!.
      * by apply nodup_aset.
      * done.
      * intros k r'. rewrite aget_aset. case_decide as Hek; [intros [= <-]; subst; by apply Hone|apply Hr].
      * intros k Hk0. rewrite aget_aset. case_decide; [done|by apply Hnone].
      * intros k Hk0. rewrite kept_snoc, <- (Hk k Hk0), aget_aset. destruct (Z.eqb_spec (v_scb e) k) as [<-|Hne].
        -- rewrite decide_True, Hg by done. cbn [from_option id]. rewrite app_nil_r.
           destruct (Z.eqb_spec (v_point e) ADMIT); [|done]. by destruct (requests_of _ done_).
        -- by rewrite decide_False.
  - destruct (aget (v_scb e) by_scb) as [r|] eqn:Hg.
    + destruct (Hr _ _ Hg) as [Hreq Hscb]. split_and!.
      * by apply nodup_aset.
      * done.
      * intros k r'. rewrite aget_aset. case_decide as Hek; [intros [= <-]; subst|apply Hr].
        destruct Hreq as (x & t & -> & Hx0 & Hxa & Ht). cbn [scb_of] in Hscb. split; [|done].
        exists x, (t ++ [e]). split; [done|]. split; [done|]. split; [done|]. apply Forall_app. split; [done|by constructor].
      * intros k Hk0. rewrite aget_aset. case_decide; [done|by apply Hnone].
      * intros k Hk0. rewrite kept_snoc, <- (Hk k Hk0), aget_aset. destruct (Z.eqb_spec (v_scb e) k) as [<-|Hne].
        -- rewrite decide_True, Hg by done. cbn [from_option id]. destruct (requests_of (v_scb e) done_ ++ r) eqn:Hl.
           { apply app_eq_nil in Hl as [_ ->]. destruct Hreq as (? & ? & ? & _). done. }
           by rewrite <- Hl, app_assoc.
        -- by rewrite decide_False.
    + split_and!; try done. intros k Hk0. rewrite kept_snoc, <- (Hk k Hk0).
      destruct (Z.eqb_spec (v_scb e) k) as [<-|Hne]; [|done]. rewrite Hg. cbn [from_option id]. rewrite app_nil_r.
      rewrite Hnone by done. by destruct (Z.eqb_spec (v_point e) ADMIT).
Qed.

Lemma split_events events : split_ok events (fold_left split_step events ([], [])).
Proof.
  induction events as [|e events IH] using rev_ind.
  - split_and!; [constructor|constructor|done|done|done].
  - rewrite fold_left_app. by apply split_step_ok.
Qed.

Lemma requests_of_open k by_scb : NoDup (keys by_scb) -> (forall k r, aget k by_scb = Some r -> is_request r /\ scb_of r = k) ->
  requests_of k (map snd by_scb) = default [] (aget k by_scb).
Proof.
  induction by_scb as [|[k0 r] d IH]; intros Hn Hr; [done|]. cbn [map snd aget].
  assert (aget k0 ((k0, r) :: d) = Some r) as H0 by (cbn [aget]; by rewrite decide_True).
  destruct (Hr _ _ H0) as [_ Hscb]. unfold keys in Hn. cbn [map fst] in Hn. apply NoDup_cons in Hn as [Hk0 Hn].
  change (r :: map snd d) with ([r] ++ map snd d). rewrite requests_of_app, requests_of_one, Hscb, IH; [|done|].
  - destruct (Z.eqb_spec k0 k) as [->|Hne]; [|by rewrite decide_False]. rewrite decide_True by done.
    assert (aget k d = None) as -> by (by apply aget_none). cbn. by rewrite app_nil_r.
  - intros k' r' Hk'. apply Hr. cbn [aget]. rewrite decide_False; [done|]. intros ->.
    apply aget_in in Hk'. apply Hk0, list_elem_of_fmap. by exists (k0, r').
Qed.

(** Splitting loses nothing after an admission and invents nothing: each request is an
    admission and what follows it on its object, and the requests of an object, one after
    the other, are its events from its first admission on. *)
Theorem requests_partition events :
  Forall is_request (requests_from events) /\
  forall k, k <> 0 -> requests_of k (requests_from events) = kept k events.
Proof.
  pose proof (split_events events) as H. unfold requests_from. destruct (fold_left split_step events ([], [])) as [by_scb done_].
  destruct H as (Hn & Hd & Hr & _ & Hk). split.
  - apply Forall_app. split; [done|]. apply Forall_forall. intros r ([k r'] & -> & Hin)%list_elem_of_fmap.
    apply (Hr k). by apply in_aget.
  - intros k Hk0. by rewrite requests_of_app, requests_of_open, Hk.
Qed.

(** ** The sum of the stages

    The stages are consecutive differences, so their sum is the total but for the rounding
    of each: the bound the suite checks holds whatever was measured. *)
Lemma stage_sum r s a f b d t : stages r = Ok s -> s_admission s = Some a -> s_first_byte s = Some f -> s_body s = Some b ->
  s_delivery s = Some d -> s_total s = Some t -> 0 <= t - (a + f + b + d) <= 3.
Proof.
  destruct r as [|e0 r]; [done|]. cbn [stages]. intros <-%Ok_inj. cbn [s_admission s_first_byte s_body s_delivery s_total].
  destruct (first_ns _ _) as [fwd|]; [|done]. destruct (first_ns (at_side REPLY_PARSE 1) _) as [p|]; [|done].
  destruct (first_ns (at_side REPLY_DONE 1) _) as [sd|]; [|done]. destruct (first_ns (at_side REPLY_DONE 0) _) as [cd|]; [|done].
  cbn [us]. intros [= <-] [= <-] [= <-] [= <-] [= <-]. Z.to_euclidean_division_equations. lia.
Qed.

(** The last assertion on a served request cannot fail. *)
Lemma sum_check_never_fails r s a f b d t : stages r = Ok s -> s_admission s = Some a -> s_first_byte s = Some f ->
  s_body s = Some b -> s_delivery s = Some d -> s_total s = Some t ->
  assert (Z.abs (a + f + b + d - t) <=? SUM_US) = Ok tt.
Proof.
  intros Hs Ha Hf Hb Hd Ht. pose proof (stage_sum r s a f b d t Hs Ha Hf Hb Hd Ht).
  unfold assert, SUM_US. destruct (Z.leb_spec (Z.abs (a + f + b + d - t)) 1000); [done|lia].
Qed.
