(* ===== verification/Suite.v ===== *)
(** * The driver of the live suites (Lifecycle of env/ai-traffic/config_suite.py)

    A suite runs commands, exchanges messages over a socket and saves documents.  All of
    these are an oracle: what one of them ends in may depend on everything done before.
    A method keeps what it changed when it raises, as a Python object does. *)

From S2P Require Import Prelude PyVal Text Assoc Format Export Authority.

(** ** Effects *)

Inductive op :=
| Run (argv : list string)
| Exchange (request : bytes)
| Save (path : string) (doc : val)
| Configure
| Sleep.

#[export] Instance op_inhabited : Inhabited op := populate Sleep.

Abbreviation history := (list op).

(** What a finished command leaves. *)
Record reply := Reply { returncode : Z; stdout : string; stderr : string }.

(** What was done, and the attributes of the suite. *)
Record state (X : Type) := St { hist : history; own : X }.
Arguments St {X} _ _.
Arguments hist {X} _.
Arguments own {X} _.

Definition M (X A : Type) : Type := state X -> state X * result A.

Section effects.
Context {X : Type}.

Definition ret {A} (a : A) : M X A := fun s => (s, Ok a).
Definition raise {A} (e : exn) : M X A := fun s => (s, Err e).
Definition bind {A B} (m : M X A) (f : A -> M X B) : M X B :=
  fun s => let '(s, r) := m s in match r with Ok a => f a s | Err e => (s, Err e) end.
Definition lift {A} (r : result A) : M X A := fun s => (s, r).
Definition ask {A} (f : X -> A) : M X A := fun s => (s, Ok (f (own s))).
Definition modify (f : X -> X) : M X unit := fun s => (St (hist s) (f (own s)), Ok tt).
Definition check (b : bool) : M X unit := if b then ret tt else raise AssertionError.
End effects.

Notation "'let!' x := m 'in' k" := (bind m (fun x => k))
  (at level 10, x pattern, m at level 99, k at level 200) : py_scope.
Notation "'do!' m ';;' k" := (bind m (fun _ => k))
  (at level 10, m at level 99, k at level 200) : py_scope.

(** [for x in l]. *)
Fixpoint for_each {X A} (f : A -> M X unit) (l : list A) : M X unit :=
  match l with
  | [] => ret tt
  | x :: l => do! f x ;; for_each f l
  end.

(** [try: m finally: f]: the exception of [f] wins. *)
Definition try_finally {X A} (m : M X A) (f : M X unit) : M X A :=
  fun s =>
    let '(s, r) := m s in
    let '(s, c) := f s in
    (s, match c with Ok _ => r | Err e => Err e end).

(** ** Texts and numbers the methods read *)

Abbreviation counters := (list (string * Z)).

Definition counter (k : string) (c : counters) : result Z :=
  match aget k c with Some z => Ok z | None => Err (KeyError k) end.

(** One word [key=value] of a status line. *)
Definition status_word (w : string) : result (string * Z) :=
  match map list_str (split_char "=" (str_list w) []) with
  | [k; v] => match py_int v with Some z => Ok (k, z) | None => Err (ValueError "invalid literal for int()") end
  | _ => Err (ValueError "dictionary update")
  end.

Definition status_counters (text : string) : result counters :=
  let? rows := mapM_r status_word (List.tl (str_split text)) in
  Ok (fold_left (fun d kv => aset kv.1 kv.2 d) rows []).

(** [struct.pack("<4Q", tag, 0, 0, 0).hex()]. *)
Definition pack_row (tag : Z) : result string :=
  if (0 <=? tag) && (tag <? 2 ^ 64) then Ok (hex (le_bytes 8 tag ++ replicate 24 0)) else Err StructError.

Definition pop (k : string) (d : dict) : result (val * dict) := let? v := item k d in Ok (v, remove k d).

Definition plus_one (v : val) : result val :=
  match v with VInt z => Ok (VInt (z + 1)) | VBool b => Ok (VInt (b2z b + 1)) | _ => Err TypeError end.

Definition as_dict (v : val) : result dict := match v with VDict d => Ok d | _ => Err TypeError end.

(** The document [publish] writes over an identity it read. *)
Definition publication (identity : val) (rows : list val) : result dict :=
  let? d := as_dict identity in
  let? (revision, d) := pop "revision" d in
  let d := set "expected_revision" revision d in
  let? next := plus_one revision in
  let d := set "schema" (VInt 1) (set "revision" next d) in
  let? (_, d) := pop "entries" d in
  Ok (set "rows" (VList rows) d).

Definition DRAIN : list string := ["/work/ls_drain"; "--segment"; "/run/ls-stream/ls_tp_ring"; "--once"].

(** ** [run], [cli] and what is read through them *)

Section driver.
Variable finish : history -> result reply.
Variable response : history -> result bytes.
Variable saved : history -> result unit.
Variable json_loads : string -> result val.

Section commands.
Context {X : Type}.

Definition act {A} (out : history -> result A) (o : op) : M X A :=
  fun s => let h := hist s ++ [o] in (St h (own s), out h).

Definition run (command : list string) (refuse : bool) : M X reply :=
  let! row := act finish (Run command) in
  do! check (if refuse then negb (returncode row =? 0) else returncode row =? 0) ;;
  ret row.

Definition cli (args : list string) (refuse : bool) : M X string :=
  let! row := run (["python3"; "/work/ls-load.py"] ++ args) refuse in
  do! check (refuse || String.eqb (List.hd "" args) "config-status" || starts_with "OK " (stdout row)) ;;
  ret (stdout row).

Definition cli_ (args : list string) : M X unit := do! cli args false ;; ret tt.

Definition stats_of (slot : string) : M X counters :=
  let! text := cli ["status"; slot] false in lift (status_counters text).

Definition identity_of (slot : string) : M X val :=
  let! text := cli ["config-status"; slot] false in lift (json_loads text).

(** The frames of one drain, and what it printed beside them. *)
Definition drained : M X (reply * list val) :=
  let! row := run DRAIN false in
  let! frames := lift (mapM_r json_loads (text_lines (stdout row))) in
  ret (row, frames).

Definition no_drops (row : reply) : bool := str_contains "0 drop(s) seen" (stderr row).
End commands.

(** ** The configuration lifecycle *)

Definition HOOK : string := "http_parse_client_headers".
Definition SLOT : string := "5".
Definition BODY : bytes := encode "configuration-lifecycle" ++ [10].
Definition CRLF2 : bytes := [13; 10; 13; 10].

Record phase := Phase { ph_name : string; ph_before : counters; ph_after : counters; ph_events : list val }.

Record lifecycle := Life { armed : bool; loaded : bool; phases : list phase }.

Definition set_armed (b : bool) : M lifecycle unit := modify (fun x => Life b (loaded x) (phases x)).
Definition set_loaded (b : bool) : M lifecycle unit := modify (fun x => Life (armed x) b (phases x)).

Definition identity : M lifecycle val := identity_of SLOT.

Definition load : M lifecycle val :=
  let! reply := cli ["load"; SLOT; "/work/config-observe.bpf.o"; "1"] false in
  do! check (str_contains "signature=verified" reply) ;;
  do! set_loaded true ;;
  identity.

Definition arm : M lifecycle unit := do! cli ["arm"; SLOT] false ;; set_armed true.
Definition disarm : M lifecycle unit := do! cli ["disarm"; HOOK] false ;; set_armed false.

(** The directory of the result. *)
Variable parent : string.

Definition publish (ident : val) (tag : Z) (label : string) (empty refuse : bool) : M lifecycle unit :=
  let! rows := lift (if empty then Ok [] else let? r := pack_row tag in Ok [VStr r]) in
  let! document := lift (publication ident rows) in
  let path := cat [parent; "/"; label; ".json"] in
  do! act saved (Save path (VDict document)) ;;
  do! cli ["config-publish"; SLOT; path] refuse ;;
  ret tt.

Definition get_request (label : string) (index : Z) : bytes :=
  encode (cat ["GET /"; label; "/"; py_str index; " HTTP/1.1"]) ++ [13; 10] ++ encode "Host: fixture" ++ [13; 10] ++
  encode "Connection: close" ++ CRLF2.

Definition traffic (label : string) (count : Z) : M lifecycle unit :=
  for_each (fun index =>
    let! got := act response (Exchange (get_request label index)) in
    let at_ := py_find CRLF2 got 0 in
    do! (if at_ <? 0 then raise (ValueError "not enough values to unpack") else ret tt) ;;
    check (is_prefix (encode "HTTP/1.1 200 ") (ztake at_ got) && bytes_eqb (zdrop (at_ + 4) got) BODY)) (range count).

Definition stats : M lifecycle counters := stats_of SLOT.

(** [struct.unpack("<QQQII", data)]. *)
Definition ROW : list nat := [8; 8; 8; 4; 4]%nat.
Definition unpack_row (data : bytes) : result (list Z) :=
  if negb (length data =? calcsize ROW)%nat then Err StructError else Ok (map le_int (chunks ROW data)).

Definition text_hex (v : val) : result bytes :=
  match v with VStr s => fromhex s | VText _ => Err (ValueError "non-hexadecimal number found in fromhex() arg") | _ => Err TypeError end.

Definition check_event (expected : list Z) (event : val) : result unit :=
  let? slot := subscript "slot" event in
  let? n := if val_eqb slot (VInt 5) then subscript "len" event else Ok VNone in
  raise_if (negb (val_eqb n (VInt 32))) AssertionError ;;
  let? data := subscript "data" event in
  let? data := text_hex data in
  let? row := unpack_row data in
  raise_if (negb (bool_decide (row = expected))) AssertionError ;; Ok tt.

(** The difference of one counter. *)
Definition grew (k : string) (before after_ : counters) : result Z :=
  let? a := counter k after_ in let? b := counter k before in Ok (a - b).

Definition both_zero (k : string) (before after_ : counters) : result bool :=
  let? a := counter k after_ in let? b := counter k before in Ok ((a =? b) && (b =? 0)).

Definition run_phase (label : string) (expected : list Z) : M lifecycle unit :=
  let! before := stats in
  do! traffic label 8 ;;
  let! after_ := stats in
  let! (row, events) := drained in
  do! modify (fun x => Life (armed x) (loaded x) (phases x ++ [Phase label before after_ events])) ;;
  let! fired := lift (grew "fired" before after_) in
  do! check ((fired =? len events) && (len events =? 8)) ;;
  let! errors := lift (both_zero "errors" before after_) in
  do! check errors ;;
  let! safe := lift (both_zero "safe_returns" before after_) in
  do! check safe ;;
  do! check (no_drops row) ;;
  for_each (fun e => lift (check_event expected e)) events.

(** [int(d[k], 16)]. *)
Definition hex_field (k : string) (v : val) : result Z :=
  let? x := subscript k v in
  match x with
  | VStr s => match py_int16 s with Some z => Ok z | None => Err (ValueError "invalid literal for int()") end
  | _ => Err TypeError
  end.

Definition replaced (current : val) (k v : string) : result val :=
  let? d := as_dict current in Ok (VDict (set k (VStr v) d)).

Definition STALE : list (string * string) :=
  [("session", "0000000000000001"); ("instance", "8000000000000005"); ("program_sha256", cat (replicate 32 "00"))].

(** [current] is read again after an update. *)
Definition exercise : M lifecycle unit :=
  do! cli ["config-status"; SLOT] true ;;
  let! first := load in
  let! revision := lift (subscript "revision" first) in
  do! check (val_eqb revision (VInt 0)) ;;
  do! arm ;;
  do! run_phase "no-input" [0; 0; 0; 0; 0] ;;
  do! publish first 101 "publish-first" false false ;;
  let! current := identity in
  let! token := lift (hex_field "instance" current) in
  do! run_phase "first" [token; 1; 101; 1; 1] ;;
  do! publish first 999 "stale-revision" false true ;;
  do! for_each (fun kv : string * string =>
        let! stale := lift (replaced current kv.1 kv.2) in
        publish stale 999 (cat ["stale-"; kv.1]) false true) STALE ;;
  let! again := identity in
  do! check (val_eqb again current) ;;
  do! publish current 202 "publish-second" false false ;;
  let! current := identity in
  do! run_phase "second" [token; 2; 202; 1; 1] ;;
  do! publish current 0 "withdraw" true false ;;
  let! current := identity in
  do! run_phase "empty" [token; 3; 0; 1; 0] ;;
  do! disarm ;;
  let! replacement := load in
  let! new := lift (subscript "instance" replacement) in
  let! old := lift (subscript "instance" first) in
  do! check (negb (val_eqb new old)) ;;
  let! revision := lift (subscript "revision" replacement) in
  do! check (val_eqb revision (VInt 0)) ;;
  do! publish current 999 "previous-instance" false true ;;
  do! arm ;;
  do! run_phase "reload-no-input" [0; 0; 0; 0; 0] ;;
  do! publish replacement 303 "replacement-policy" false false ;;
  let! token := lift (hex_field "instance" replacement) in
  do! run_phase "replacement" [token; 1; 303; 1; 1] ;;
  do! disarm ;;
  let! before := stats in
  do! traffic "disarmed" 2 ;;
  let! after_ := stats in
  let! a := lift (counter "fired" after_) in
  let! b := lift (counter "fired" before) in
  do! check (a =? b) ;;
  do! cli ["revoke"; SLOT] false ;;
  do! set_loaded false ;;
  do! cli ["config-status"; SLOT] true ;;
  ret tt.

(** What the product answered to its configuration, and the peers the origin saw. *)
Variable acknowledged : history -> result unit.
Variable origin_peers : history -> list string.

Definition at_history {X A} (f : history -> A) : M X A := fun s => (s, Ok (f (hist s))).

(** The [finally] block: what is still held is given back. *)
Definition cleanup : M lifecycle unit :=
  let! a := ask armed in
  do! (if a then disarm else ret tt) ;;
  let! l := ask loaded in
  if l then cli_ ["revoke"; SLOT] else ret tt.

Definition configuration_test : M lifecycle unit :=
  try_finally
    (do! act acknowledged Configure ;;
     do! traffic "baseline" 2 ;;
     do! exercise ;;
     let! peers := at_history origin_peers in
     do! check (len peers =? 52) ;;
     check (forallb (String.eqb "10.203.74.10") peers))
    cleanup.

Definition new_lifecycle : state lifecycle := St [] (Life false false []).
End driver.

(** ** The driver keeps count, and gives back what it holds

    Lemmas on the effects of a suite, and what a configuration run that passed has
    shown: every phase counted exactly its requests, and nothing is left armed. *)

(** ** Running methods *)

Section rules.
Context {X : Type}.

Lemma bind_ok {A B} (m : M X A) (f : A -> M X B) s s' b :
  bind m f s = (s', Ok b) -> exists a s1, m s = (s1, Ok a) /\ f a s1 = (s', Ok b).
Proof. unfold bind. destruct (m s) as [s1 [a|e]] eqn:E; [|done]. eauto. Qed.

Lemma ret_ok {A} (a b : A) (s s' : state X) : ret a s = (s', Ok b) -> s' = s /\ b = a.
Proof. intros [= <- <-]. done. Qed.

Lemma lift_ok {A} (r : result A) (s s' : state X) b : lift r s = (s', Ok b) -> s' = s /\ r = Ok b.
Proof. intros [= <- ->]. done. Qed.

Lemma ask_ok {A} (f : X -> A) (s s' : state X) b : ask f s = (s', Ok b) -> s' = s /\ b = f (own s).
Proof. intros [= <- <-]. done. Qed.

Lemma check_ok b (s s' : state X) u : check b s = (s', Ok u) -> s' = s /\ b = true.
Proof. destruct b; [|done]. intros [= <- _]. done. Qed.

Lemma modify_ok (f : X -> X) (s s' : state X) u :
  modify f s = (s', Ok u) -> hist s' = hist s /\ own s' = f (own s).
Proof. intros [= <- _]. done. Qed.

Lemma raise_not_ok {A} e (s s' : state X) (a : A) : raise e s <> (s', Ok a).
Proof. done. Qed.
End rules.

(** Takes a run that ended well apart. *)
Ltac unbind1 H :=
  lazymatch type of H with
  | bind _ _ _ = (_, Ok _) =>
      let a := fresh "a" in let s := fresh "s" in let Hm := fresh "Hm" in
      apply bind_ok in H as (a & s & Hm & H); cbv beta in H; unbind1 Hm
  | ret _ _ = (_, Ok _) => apply ret_ok in H as [-> ->]
  | lift _ _ = (_, Ok _) => let r := fresh "Hr" in apply lift_ok in H as [-> r]
  | ask _ _ = (_, Ok _) => apply ask_ok in H as [-> ->]
  | check _ _ = (_, Ok _) => let c := fresh "Hc" in apply check_ok in H as [-> c]
  | raise _ _ = (_, Ok _) => exfalso; exact (raise_not_ok _ _ _ _ H)
  | _ => idtac
  end.
Ltac unbind H := repeat (progress unbind1 H).

(** ** What a method may change

    A method stays within a preorder on the attributes, however it ends. *)

Section within.
Context {X : Type} (R : X -> X -> Prop) `{!PreOrder R}.

Definition within {A} (m : M X A) : Prop := forall s, R (own s) (own (m s).1).

Lemma within_bind {A B} (m : M X A) (f : A -> M X B) : within m -> (forall a, within (f a)) -> within (bind m f).
Proof.
  intros Hm Hf s. unfold bind. pose proof (Hm s) as H. destruct (m s) as [s1 [a|e]]; cbn [fst] in *; [|done].
  etransitivity; [exact H|apply Hf].
Qed.

Lemma within_ret {A} (a : A) : within (ret a). Proof. intros s. reflexivity. Qed.
Lemma within_raise {A} e : within (raise (A := A) e). Proof. intros s. reflexivity. Qed.
Lemma within_lift {A} (r : result A) : within (lift r). Proof. intros s. reflexivity. Qed.
Lemma within_ask {A} (f : X -> A) : within (ask f). Proof. intros s. reflexivity. Qed.
Lemma within_act {A} (out : history -> result A) o : within (act out o). Proof. intros s. reflexivity. Qed.
Lemma within_check b : within (check b). Proof. destruct b; intros s; reflexivity. Qed.
Lemma within_modify f : (forall x, R x (f x)) -> within (modify f). Proof. intros H s. apply H. Qed.

Lemma within_for_each {A} (f : A -> M X unit) l : (forall x, within (f x)) -> within (for_each f l).
Proof. intros Hf. induction l as [|x l IH]; cbn [for_each]; [apply within_ret|]. by apply within_bind. Qed.

Lemma within_run finish c r : within (run finish c r).
Proof.
  unfold run. apply within_bind; [apply within_act|]. intros a. apply within_bind; [apply within_check|]. intros _. apply within_ret.
Qed.

Lemma within_cli finish l r : within (cli finish l r).
Proof.
  unfold cli. apply within_bind; [apply within_run|]. intros a. apply within_bind; [apply within_check|]. intros _. apply within_ret.
Qed.

Lemma within_stats_of finish slot : within (stats_of finish slot).
Proof. apply within_bind; [apply within_cli|]. intros a. apply within_lift. Qed.

Lemma within_identity_of finish json_loads slot : within (identity_of finish json_loads slot).
Proof. apply within_bind; [apply within_cli|]. intros a. apply within_lift. Qed.

Lemma within_drained finish json_loads : within (drained finish json_loads).
Proof.
  apply within_bind; [apply within_run|]. intros a. apply within_bind; [apply within_lift|]. intros b. apply within_ret.
Qed.
End within.

Create HintDb within.
#[export] Hint Resolve within_bind within_ret within_raise within_lift within_ask within_act within_check within_for_each
  within_run within_cli within_stats_of within_identity_of within_drained : within.

(** A method that changes nothing. *)
Abbreviation keeps := (within eq).

Ltac keep :=
  lazymatch goal with
  | |- forall _, _ => intros ?; keep
  | |- within _ (bind _ _) => apply within_bind; [try typeclasses eauto|keep|intros ?; cbv beta; keep]
  | |- within _ (for_each _ _) => apply within_for_each; [try typeclasses eauto|intros ?; cbv beta; keep]
  | |- within _ (match ?x with _ => _ end) => destruct x; keep
  | |- within _ _ => try solve [eauto with within typeclass_instances]
  | |- _ => idtac
  end.

Lemma keeps_own {X A} (m : M X A) s s' r : keeps m -> m s = (s', r) -> own s' = own s.
Proof. intros H E. specialize (H s). by rewrite E in H. Qed.

(** ** The configuration lifecycle *)

Section lifecycle.
Variable finish : history -> result reply.
Variable response : history -> result bytes.
Variable saved : history -> result unit.
Variable json_loads : string -> result val.
Variable parent : string.
Variable acknowledged : history -> result unit.
Variable origin_peers : history -> list string.

Lemma keeps_publish i tag label e r : keeps (publish finish saved parent i tag label e r).
Proof. unfold publish. keep. Qed.

Lemma keeps_traffic label n : keeps (traffic response label n).
Proof. unfold traffic. keep. Qed.

Lemma keeps_stats : keeps (stats finish).
Proof. unfold stats. keep. Qed.

Lemma keeps_identity : keeps (identity finish json_loads).
Proof. unfold identity. keep. Qed.

(** What a phase that passed has counted: eight requests, eight records, all as expected. *)
Definition counted (expected : list Z) (p : phase) : Prop :=
  grew "fired" (ph_before p) (ph_after p) = Ok 8 /\ len (ph_events p) = 8 /\
  both_zero "errors" (ph_before p) (ph_after p) = Ok true /\
  both_zero "safe_returns" (ph_before p) (ph_after p) = Ok true /\
  Forall (fun e => check_event expected e = Ok tt) (ph_events p).

Lemma for_each_lift {X A} (f : A -> result unit) l (s s' : state X) u :
  for_each (fun a => lift (f a)) l s = (s', Ok u) -> s' = s /\ Forall (fun a => f a = Ok tt) l.
Proof.
  revert s. induction l as [|a l IH]; intros s H; cbn [for_each] in H; [by unbind H|].
  unbind H. destruct a0. apply IH in H as [-> Hf]. split; [done|]. by constructor.
Qed.

Lemma run_phase_ok label expected s s' u :
  run_phase finish response json_loads label expected s = (s', Ok u) ->
  exists p, own s' = Life (armed (own s)) (loaded (own s)) (phases (own s) ++ [p]) /\ ph_name p = label /\ counted expected p.
Proof.
  unfold run_phase. intros H. unbind H. destruct a2 as [row evs]. unbind H. apply for_each_lift in H as [-> Hall].
  apply modify_ok in Hm3 as [_ Hown]. apply (keeps_own _ _ _ _ keeps_stats) in Hm.
  apply (keeps_own _ _ _ _ (keeps_traffic _ _)) in Hm0. apply (keeps_own _ _ _ _ keeps_stats) in Hm1.
  apply (keeps_own _ _ _ _ (within_drained eq _ _)) in Hm2. eexists. split; [|split].
  - rewrite Hown, Hm2, Hm1, Hm0, Hm. reflexivity.
  - reflexivity.
  - apply andb_prop in Hc as [H1 H2]. apply Z.eqb_eq in H1, H2. subst.
    unfold counted. cbn [ph_before ph_after ph_events]. rewrite H2 in Hr. done.
Qed.

Lemma load_ok s s' v :
  load finish json_loads s = (s', Ok v) -> own s' = Life (armed (own s)) true (phases (own s)).
Proof.
  unfold load. intros H. unbind H. apply (keeps_own _ _ _ _ (within_cli eq _ _ _)) in Hm.
  apply modify_ok in Hm0 as [_ Hl]. apply (keeps_own _ _ _ _ keeps_identity) in H. by rewrite H, Hl, Hm.
Qed.

Lemma arm_ok s s' u : arm finish s = (s', Ok u) -> own s' = Life true (loaded (own s)) (phases (own s)).
Proof.
  unfold arm. intros H. unbind H. apply (keeps_own _ _ _ _ (within_cli eq _ _ _)) in Hm.
  apply modify_ok in H as [_ H]. by rewrite H, Hm.
Qed.

Lemma disarm_ok s s' u : disarm finish s = (s', Ok u) -> own s' = Life false (loaded (own s)) (phases (own s)).
Proof.
  unfold disarm. intros H. unbind H. apply (keeps_own _ _ _ _ (within_cli eq _ _ _)) in Hm.
  apply modify_ok in H as [_ H]. by rewrite H, Hm.
Qed.

Lemma keeps_stale current l : keeps (for_each (fun kv : string * string =>
  bind (lift (replaced current kv.1 kv.2)) (fun stale => publish finish saved parent stale 999 (cat ["stale-"; kv.1]) false true)) l).
Proof. keep. apply keeps_publish. Qed.

(** What each method of a run left in the attributes. *)
Ltac owns :=
  repeat match goal with
  | H : run_phase _ _ _ _ _ _ = _ |- _ =>
      let p := fresh "p" in let Hn := fresh "Hn" in let Hp := fresh "Hp" in
      apply run_phase_ok in H as (p & H & Hn & Hp)
  | H : load _ _ _ = _ |- _ => apply load_ok in H
  | H : arm _ _ = _ |- _ => apply arm_ok in H
  | H : disarm _ _ = _ |- _ => apply disarm_ok in H
  | H : set_loaded _ _ = _ |- _ => apply modify_ok in H as [_ H]
  | H : publish _ _ _ _ _ _ _ _ _ = _ |- _ => apply (keeps_own _ _ _ _ (keeps_publish _ _ _ _ _)) in H
  | H : cli _ _ _ _ = _ |- _ => apply (keeps_own _ _ _ _ (within_cli eq _ _ _)) in H
  | H : identity _ _ _ = _ |- _ => apply (keeps_own _ _ _ _ keeps_identity) in H
  | H : stats _ _ = _ |- _ => apply (keeps_own _ _ _ _ keeps_stats) in H
  | H : traffic _ _ _ _ = _ |- _ => apply (keeps_own _ _ _ _ (keeps_traffic _ _)) in H
  | H : for_each _ STALE _ = _ |- _ => apply (keeps_own _ _ _ _ (keeps_stale _ _)) in H
  | H : act _ _ _ = _ |- _ => apply (keeps_own _ _ _ _ (within_act eq _ _)) in H
  end.

(** The phases in order, with the row each record must hold. *)
Definition expected_phases (first replacement : Z) : list (string * list Z) :=
  [("no-input", [0; 0; 0; 0; 0]); ("first", [first; 1; 101; 1; 1]); ("second", [first; 2; 202; 1; 1]);
   ("empty", [first; 3; 0; 1; 0]); ("reload-no-input", [0; 0; 0; 0; 0]); ("replacement", [replacement; 1; 303; 1; 1])].

Definition as_expected (nr : string * list Z) (p : phase) : Prop := ph_name p = nr.1 /\ counted nr.2 p.

Lemma exercise_ok s s' u :
  exercise finish response saved json_loads parent s = (s', Ok u) ->
  exists first replacement ps, own s' = Life false false (phases (own s) ++ ps) /\
    Forall2 as_expected (expected_phases first replacement) ps.
Proof.
  unfold exercise. intros H. unbind H. owns.
  repeat match goal with E : own ?a = _ |- _ => rewrite E in *; clear E; cbn [armed loaded phases] end.
  eexists _, _, [_; _; _; _; _; _]. split; [by rewrite <- !app_assoc|]. unfold expected_phases.
  repeat (econstructor; [split; eassumption|]). constructor.
Qed.

(** A configuration run that passes has seen every phase as expected, with a published
    row in exactly the records made while it was published, and has given back its hook
    and its program. *)
Theorem configuration_passes s' u :
  configuration_test finish response saved json_loads parent acknowledged origin_peers new_lifecycle = (s', Ok u) ->
  exists first replacement, armed (own s') = false /\ loaded (own s') = false /\
    Forall2 as_expected (expected_phases first replacement) (phases (own s')).
Proof.
  unfold configuration_test, try_finally. destruct (bind _ _ new_lifecycle) as [s [b|e]] eqn:E; intros H.
  2:{ destruct (cleanup finish s) as [s1 [c|e1]]; done. }
  unbind E. apply (keeps_own _ _ _ _ (within_act eq _ _)) in Hm. apply (keeps_own _ _ _ _ (keeps_traffic _ _)) in Hm0.
  apply exercise_ok in Hm1 as (f & r & ps & Ho & Hps). unfold at_history in *. simplify_eq.
  unfold cleanup, bind, ask in H. rewrite Ho in H. cbn in H. rewrite Ho in H. cbn in H. simplify_eq.
  exists f, r. rewrite Ho, Hm0, Hm. done.
Qed.

(** The hook is given back before the program; when that fails, the program is not
    revoked. *)
Lemma failed_disarm_keeps_program s e :
  armed (own s) = true -> finish (hist s ++ [Run ["python3"; "/work/ls-load.py"; "disarm"; HOOK]]) = Err e ->
  cleanup finish s = (St (hist s ++ [Run ["python3"; "/work/ls-load.py"; "disarm"; HOOK]]) (own s), Err e).
Proof.
  intros Ha Hf. unfold cleanup, bind at 1, ask. rewrite Ha. unfold disarm, cli, run, act, bind.
  cbn [app]. by rewrite Hf.
Qed.
End lifecycle.
