(* ===== verification/Lifetime.v ===== *)
(** * The parser lifetime observer (ParserLifetime of env/ai-traffic/lifetime_suite.py)

    Three programs report the birth, the attempts and the end of each parser context.
    The frames of a drain are checked one by one as they are read; [reconcile] then reads
    the whole stream.  The clients, the product and the traffic of [exercise] are not
    modelled; the ledger and the rows of the clients are arguments of [reconcile]. *)

From S2P Require Import Prelude PyVal Text Assoc Export Authority Joins Suite.

Import Correlation.

(** ** The state *)

(** The slot, the kind of record and the hook of a program. *)
Record program := Program { pr_slot : Z; pr_kind : Z; pr_hook : string }.

Definition LIFETIME_PROGRAMS : list (string * program) :=
  [("init", Program 6 1 "http_parse_ctx_init"); ("parse", Program 5 2 "http_parse_client_headers");
   ("fini", Program 7 3 "http_parse_ctx_fini")].

Record life_phase := LifePhase {
  lp_name : string; lp_before : counters; lp_after : counters; lp_events : list event;
  lp_complete : Z; lp_expect_unknown : bool; lp_attempt : option string }.

(** The two sets of the cleanup are lists: they are walked in an order of their own. *)
Record observer := Obs {
  run_token : Z;
  loaded_slots : list Z;
  armed_hooks : list string;
  expect_unknown : bool;
  events : list event;
  active : gset Z;
  batches : list (string * list val);
  life_phases : list life_phase;
  counter_start : list (string * counters);
  cleanup_errors : list exn }.

Definition with_loaded (l : list Z) (o : observer) : observer :=
  Obs (run_token o) l (armed_hooks o) (expect_unknown o) (events o) (active o) (batches o) (life_phases o) (counter_start o) (cleanup_errors o).
Definition with_armed (l : list string) (o : observer) : observer :=
  Obs (run_token o) (loaded_slots o) l (expect_unknown o) (events o) (active o) (batches o) (life_phases o) (counter_start o) (cleanup_errors o).
Definition with_stream (es : list event) (a : gset Z) (o : observer) : observer :=
  Obs (run_token o) (loaded_slots o) (armed_hooks o) (expect_unknown o) es a (batches o) (life_phases o) (counter_start o) (cleanup_errors o).
Definition with_batch (b : string * list val) (o : observer) : observer :=
  Obs (run_token o) (loaded_slots o) (armed_hooks o) (expect_unknown o) (events o) (active o) (batches o ++ [b]) (life_phases o) (counter_start o) (cleanup_errors o).
Definition with_phase (p : life_phase) (o : observer) : observer :=
  Obs (run_token o) (loaded_slots o) (armed_hooks o) (expect_unknown o) (events o) (active o) (batches o) (life_phases o ++ [p]) (counter_start o) (cleanup_errors o).
Definition with_start (c : list (string * counters)) (o : observer) : observer :=
  Obs (run_token o) (loaded_slots o) (armed_hooks o) (expect_unknown o) (events o) (active o) (batches o) (life_phases o) c (cleanup_errors o).
Definition with_errors (l : list exn) (o : observer) : observer :=
  Obs (run_token o) (loaded_slots o) (armed_hooks o) (expect_unknown o) (events o) (active o) (batches o) (life_phases o) (counter_start o) l.

(** [set.add] and [set.remove] of the two lists. *)
Definition put {A} `{EqDecision A} (x : A) (l : list A) : list A := if bool_decide (x ∈ l) then l else l ++ [x].
Definition taken {A} `{EqDecision A} (x : A) (l : list A) : list A := List.filter (fun y => negb (bool_decide (y = x))) l.

(** ** Records of the ring *)

Definition LIFE_FIELDS : list nat := [4; 4; 8; 8; 8; 8; 8; 8; 4; 4]%nat.
Definition LIFE_MAGIC : Z := 0x4C494645.

(** The magic, the version and the record. *)
Definition life_event (data : bytes) : result (Z * Z * event) :=
  if negb (length data =? calcsize LIFE_FIELDS)%nat then Err StructError else
  match map le_int (chunks LIFE_FIELDS data) with
  | [magic; abi; run; seq_; life; att; value; failed; kind; flags] =>
      Ok (magic, abi, Event kind value seq_ life att run failed flags VNone VNone)
  | _ => Err StructError
  end.

(** The slot a record of a kind comes from. *)
Definition SLOT_OF : list (Z * Z) := [(1, 6); (2, 5); (3, 7)].

Definition slot_matches (item_ : val) (k : Z) : result bool :=
  let? s := subscript "slot" item_ in
  match assoc k SLOT_OF with Some z => Ok (val_eqb s (VInt z)) | None => Err (KeyError (py_str k)) end.

Definition ok_flags (allowed : list Z) (z : Z) : bool := existsb (Z.eqb z) allowed.

(** ** A suite that has an observer

    The other suites are subclasses: they add attributes, and replace [drain] and
    [detach], which the inherited methods then call. *)

Class HasObserver (X : Type) := { base : X -> observer; put_base : observer -> X -> X }.
Class ObserverLaws (X : Type) `{HasObserver X} := { base_put o x : base (put_base o x) = o }.

#[export] Instance observer_itself : HasObserver observer := { base := fun o => o; put_base := fun o _ => o }.
#[export] Instance observer_itself_laws : ObserverLaws observer.
Proof. by constructor. Qed.

Definition asks {X} `{HasObserver X} {A} (f : observer -> A) : M X A := ask (fun x => f (base x)).
Definition modifies {X} `{HasObserver X} (f : observer -> observer) : M X unit :=
  modify (fun x => put_base (f (base x)) x).

Section observer.
Context {X : Type} `{HasObserver X}.
Variable finish : history -> result reply.
Variable saved : history -> result unit.
Variable wait : history -> result unit.
Variable json_loads : string -> result val.
(** The directory of the programs, that of the result, and whether the ring is there. *)
Variables program_dir parent : string.
Variable ring_exists : bool.


Definition slot_text (p : program) : string := py_str (pr_slot p).

Definition program_of (programs : list (string * program)) (label : string) : result program :=
  match aget label programs with Some p => Ok p | None => Err (KeyError label) end.

(** ** [drain] *)

(** One item of a drain: the record is kept before it is checked. *)
Definition drain_item (item_ : val) : M X event :=
  let! hook := lift (subscript "hook" item_) in
  let! n := lift (if val_eqb hook (VStr "prog") then subscript "len" item_ else Ok VNone) in
  do! check (val_eqb n (VInt 64)) ;;
  let! data := lift (subscript "data" item_) in
  let! data := lift (text_hex data) in
  let! (magic, abi, e) := lift (life_event data) in
  do! modifies (fun o => with_stream (events o ++ [e]) (active o) o) ;;
  do! check ((magic =? LIFE_MAGIC) && (abi =? 1)) ;;
  let! token := asks run_token in
  do! check ((ev_run e =? token) && (failures e =? 0)) ;;
  let! es := asks events in
  do! check (sequence e =? len es) ;;
  let! here := lift (slot_matches item_ (kind e)) in
  do! check here ;;
  do! check (ok_flags [0; 32; 256] (flags e)) ;;
  let! a := asks active in
  do! (if kind e =? 1 then
         do! check ((flags e =? 0) && negb (bool_decide (lifetime e ∈ a))) ;;
         modifies (fun o => with_stream (events o) ({[lifetime e]} ∪ active o) o)
       else if (kind e =? 3) && negb (lifetime e =? 0) then
         do! check (bool_decide (lifetime e ∈ a)) ;;
         modifies (fun o => with_stream (events o) (active o ∖ {[lifetime e]}) o)
       else ret tt) ;;
  ret e.

Fixpoint drain_items (l : list val) : M X (list event) :=
  match l with
  | [] => ret []
  | i :: l => let! e := drain_item i in let! es := drain_items l in ret (e :: es)
  end.

Definition drain (label : string) : M X (list event) :=
  let! (row, transport) := drained finish json_loads in
  do! modifies (with_batch (label, transport)) ;;
  do! check (no_drops row) ;;
  drain_items transport.

Section programs.
(** The table is shared by the suites of one process, one of which adds a row. *)
Variable PROGRAMS : list (string * program).

Fixpoint stats_from (ps : list (string * program)) : M X (list (string * counters)) :=
  match ps with
  | [] => ret []
  | (label, p) :: ps =>
      let! c := stats_of finish (slot_text p) in
      let! rest := stats_from ps in
      ret ((label, c) :: rest)
  end.

Definition all_stats : M X (list (string * counters)) := stats_from PROGRAMS.

Definition attach (label : string) : M X unit :=
  let! p := lift (program_of PROGRAMS label) in
  do! cli finish ["arm"; slot_text p] false ;;
  modifies (fun o => with_armed (put label (armed_hooks o)) o).

(** [set.remove] raises on an absent label. *)
Definition detach (label : string) : M X unit :=
  let! p := lift (program_of PROGRAMS label) in
  do! cli finish ["disarm"; pr_hook p] false ;;
  let! l := asks armed_hooks in
  if bool_decide (label ∈ l) then modifies (fun o => with_armed (taken label (armed_hooks o)) o)
  else raise (KeyError label).

Definition load_one (lp : string * program) : M X unit :=
  let '(label, p) := lp in
  let! reply := cli finish ["load"; slot_text p; cat [program_dir; "/lifetime-"; label; ".bpf.o"]; "1"] false in
  do! check (str_contains "signature=verified" reply) ;;
  do! modifies (fun o => with_loaded (put (pr_slot p) (loaded_slots o)) o) ;;
  let! ident := identity_of finish json_loads (slot_text p) in
  let! token := asks run_token in
  let! row := lift (pack_row token) in
  let! document := lift (publication ident [VStr row]) in
  let path := cat [parent; "/lifetime-config-"; label; ".json"] in
  do! act saved (Save path (VDict document)) ;;
  cli_ finish ["config-publish"; slot_text p; path].

Definition start : M X unit :=
  do! (if ring_exists then do! run finish DRAIN false ;; ret tt else ret tt) ;;
  do! for_each load_one PROGRAMS ;;
  let! c := all_stats in
  do! modifies (with_start c) ;;
  for_each attach ["init"; "fini"; "parse"].

(** ** [collect] and [settle] *)

Variable drain_ : string -> M X (list event).

Definition is_parse (e : event) : bool := kind e =? 2.

Definition same (k : string) (before after_ : counters) : result bool :=
  let? b := counter k before in let? a := counter k after_ in Ok (a =? b).

(** What is asserted of each parse record of a window. *)
Definition parsed_ok (unknown : bool) (e : event) : bool :=
  ok_flags [0; 17] (value e) && (flags e =? (if unknown then 32 else 0)) &&
  Bool.eqb (negb (lifetime e =? 0)) (negb unknown).

Definition collect (name : string) (before : counters) (complete calls : Z) (attempt_of : option string) : M X (list event) :=
  let! after_ := stats_of finish "5" in
  let! es := drain_ name in
  let parsed := List.filter is_parse es in
  let! unknown := asks expect_unknown in
  do! modifies (with_phase (LifePhase name before after_ es complete unknown attempt_of)) ;;
  let! b := lift (counter "mode" before) in
  let! a := lift (counter "mode" after_) in
  do! check ((b =? a) && (a =? 1)) ;;
  let! gen := lift (same "gen" before after_) in
  do! check gen ;;
  let! fired := lift (grew "fired" before after_) in
  do! check ((fired =? len parsed) && (len parsed =? calls)) ;;
  let! errors := lift (same "errors" before after_) in
  do! check errors ;;
  let! safe := lift (same "safe_returns" before after_) in
  do! check safe ;;
  do! check (len (List.filter (fun e => value e =? 0) parsed) =? complete) ;;
  do! check (forallb (parsed_ok unknown) parsed) ;;
  ret es.

Fixpoint settle_loop (tries : nat) (label : string) (quiet : Z) (seen : bool) : M X unit :=
  match tries with
  | O => raise AssertionError
  | S tries =>
      let! es := drain_ label in
      let seen := seen || existsb (fun e => (kind e =? 3) && (flags e =? 32)) es in
      let quiet := match es with [] => quiet + 1 | _ => 0 end in
      let! a := asks active in
      if bool_decide (a = ∅) && seen && (5 <=? quiet) then ret tt else
      do! act wait Sleep ;;
      settle_loop tries label quiet seen
  end.

Definition settle (label : string) (unknown_end : bool) : M X unit := settle_loop 80 label 0 (negb unknown_end).

(** ** [stop] *)

(** [try: m except BaseException as error: errors.append(error)]. *)
Definition attempt_ (m : M X unit) (errors : list exn) : M X (list exn) :=
  fun s => match m s with
           | (s, Ok _) => (s, Ok errors)
           | (s, Err e) => (s, Ok (errors ++ [e]))
           end.

Fixpoint attempts_in {A} (f : A -> M X unit) (l : list A) (errors : list exn) : M X (list exn) :=
  match l with
  | [] => ret errors
  | x :: l => let! errors := attempt_ (f x) errors in attempts_in f l errors
  end.

Variable detach_ : string -> M X unit.

Definition revoke (slot : Z) : M X unit :=
  do! cli finish ["revoke"; py_str slot] false ;;
  do! modifies (fun o => with_loaded (taken slot (loaded_slots o)) o) ;;
  do! cli finish ["config-status"; py_str slot] true ;;
  ret tt.

Definition stop : M X unit :=
  let! hooks := asks armed_hooks in
  let! errors := attempts_in detach_ hooks [] in
  let! slots := asks loaded_slots in
  let! errors := attempts_in revoke slots errors in
  match errors with
  | [] => ret tt
  | _ => do! modifies (with_errors errors) ;; raise AssertionError
  end.

End programs.
End observer.

(** ** [reconcile] *)

Definition kind_count (k : Z) (es : list event) : Z := len (List.filter (fun e => kind e =? k) es).

(** The counters of the programs against the records. *)
Fixpoint counters_agree (ps : list (string * program)) (first last : list (string * counters)) (es : list event) : result unit :=
  match ps with
  | [] => Ok tt
  | (label, p) :: ps =>
      let? before := match aget label first with Some c => Ok c | None => Err (KeyError label) end in
      let? after_ := match aget label last with Some c => Ok c | None => Err (KeyError label) end in
      let? fired := grew "fired" before after_ in
      raise_if (negb (fired =? kind_count (pr_kind p) es)) AssertionError ;;
      let? errors := same "errors" before after_ in
      raise_if (negb errors) AssertionError ;;
      let? safe := same "safe_returns" before after_ in
      raise_if (negb safe) AssertionError ;;
      let? gen := same "gen" before after_ in
      raise_if (negb gen) AssertionError ;;
      counters_agree ps first last es
  end.

(** What the loop over the records keeps. *)
Record lived := Lived {
  l_born : gset Z; l_ended : gset Z; l_pending : gmap Z bool; l_attempts : gmap Z Z;
  l_reused : list (Z * Z); l_complete : list event; l_unknown : list event }.

Definition pending_of (s : lived) (life : Z) : bool := default false (l_pending s !! life).
Definition tries_of (s : lived) (life : Z) : Z := default 0 (l_attempts s !! life).

Definition reconcile_step (s : lived) (e : event) : result lived :=
  let life := lifetime e in
  if kind e =? 1 then
    raise_if (bool_decide (life ∈ l_born s)) AssertionError ;;
    raise_if (negb (value e =? 0) && negb (bool_decide (value e ∈ l_ended s))) AssertionError ;;
    Ok (Lived ({[life]} ∪ l_born s) (l_ended s) (l_pending s) (l_attempts s)
          (if value e =? 0 then l_reused s else l_reused s ++ [(value e, life)]) (l_complete s) (l_unknown s))
  else if flags e =? 32 then
    raise_if (negb ((life =? 0) && (attempt e =? 0))) AssertionError ;;
    Ok (if kind e =? 2
        then Lived (l_born s) (l_ended s) (l_pending s) (l_attempts s) (l_reused s) (l_complete s) (l_unknown s ++ [e])
        else s)
  else if kind e =? 2 then
    raise_if (negb (bool_decide (life ∈ l_born s) && negb (bool_decide (life ∈ l_ended s)))) AssertionError ;;
    let n := if pending_of s life then tries_of s life else tries_of s life + 1 in
    raise_if (negb (attempt e =? n)) AssertionError ;;
    let p := value e =? 17 in
    Ok (Lived (l_born s) (l_ended s) (<[life := p]> (l_pending s)) (<[life := n]> (l_attempts s))
          (l_reused s) (if p then l_complete s else l_complete s ++ [e]) (l_unknown s))
  else
    raise_if (negb (bool_decide (life ∈ l_born s) && negb (bool_decide (life ∈ l_ended s)))) AssertionError ;;
    raise_if (negb (flags e =? (if pending_of s life then 256 else 0))) AssertionError ;;
    raise_if (negb (attempt e =? tries_of s life)) AssertionError ;;
    Ok (Lived (l_born s) ({[life]} ∪ l_ended s) (l_pending s) (l_attempts s) (l_reused s) (l_complete s) (l_unknown s)).

Fixpoint reconcile_loop (s : lived) (es : list event) : result lived :=
  match es with
  | [] => Ok s
  | e :: es => let? s := reconcile_step s e in reconcile_loop s es
  end.

Definition nobody : lived := Lived ∅ ∅ ∅ ∅ [] [] [].

(** The assertions over the stream. *)
Definition intervals (es : list event) (active_ : gset Z) : result lived :=
  let? s := reconcile_loop nobody es in
  raise_if (negb (bool_decide (l_born s = l_ended s) && bool_decide (active_ = ∅))) AssertionError ;;
  raise_if (match l_reused s with [] => true | _ => false end) AssertionError ;;
  raise_if (negb ((len (l_complete s) =? 48) && (len (l_unknown s) =? 3))) AssertionError ;;
  raise_if (negb (kind_count 2 es =? 58)) AssertionError ;;
  raise_if (negb (len (List.filter (fun e => flags e =? 256) es) =? 1)) AssertionError ;;
  Ok s.

(** The phases of the shared connection: one lifetime. *)
Definition is_shared (p : life_phase) : bool :=
  existsb (fun q => starts_with q (lp_name p)) ["keepalive-"; "fragmented-"; "paced-body"].

Definition shared_lifetimes (ps : list life_phase) : gset Z :=
  list_to_set (flat_map (fun p => map lifetime (List.filter is_parse (lp_events p))) (List.filter is_shared ps)).

Definition shared_agree (ps : list life_phase) : result unit :=
  raise_if (negb (len (List.filter is_shared ps) =? 8)) AssertionError ;;
  raise_if (negb (Z.of_nat (size (shared_lifetimes ps)) =? 1)) AssertionError ;; Ok tt.

(** The attempts of a ledger, by their identifiers: the later of two rows wins. *)
Definition by_attempt (ledger : list dict) : result (list (string * dict)) :=
  let? rows := mapM_r (fun r => let? a := item "attempt" r in
                                match a with VStr s => Ok (s, r) | _ => Err TypeError end) ledger in
  Ok (fold_left (fun d kv => aset kv.1 kv.2 d) rows []).

(** A client's row is the row of its attempt, and both have the digest of the body. *)
Definition client_agrees (rows : list (string * dict)) (row : dict) : result unit :=
  let? res := item "result" row in
  let? a := subscript "attempt" res in
  let? own_ := match a with
               | VStr s => match aget s rows with Some r => Ok r | None => Err (KeyError s) end
               | _ => Err TypeError
               end in
  raise_if (negb (val_eqb res (VDict own_))) AssertionError ;;
  let? mine := item "body_sha256" row in
  let? theirs := subscript "body_sha256" res in
  raise_if (negb (val_eqb mine theirs)) AssertionError ;; Ok tt.

Fixpoint all_r {A} (f : A -> result unit) (l : list A) : result unit :=
  match l with
  | [] => Ok tt
  | x :: l => let? _ := f x in all_r f l
  end.

(** The address in front of the origin's. *)
Definition PEER : string := "10.203.72.10".

Definition peer_of (row : dict) : result string :=
  let? p := item "peer" row in
  match p with
  | VList (VStr s :: _) => Ok s
  | _ => Err TypeError
  end.

Definition ledger_agrees (n : Z) (clients ledger : list dict) (errors : list string) : result unit :=
  raise_if (negb ((len clients =? len ledger) && (len ledger =? n))) AssertionError ;;
  raise_if (match errors with [] => false | _ => true end) AssertionError ;;
  let? rows := by_attempt ledger in
  raise_if (negb (len rows =? len ledger)) AssertionError ;;
  let? _ := all_r (client_agrees rows) clients in
  let? peers := mapM_r peer_of ledger in
  raise_if (negb (negb (bool_decide (peers = [])) && forallb (String.eqb PEER) peers)) AssertionError ;; Ok tt.

(** [sum(r["accepted"] for r in ledger)]. *)
Definition accepted_sum (ledger : list dict) : result Z :=
  let? l := mapM_r (fun r => let? v := item "accepted" r in
                             match v with VBool b => Ok (b2z b) | VInt z => Ok z | _ => Err TypeError end) ledger in
  Ok (foldr Z.add 0 l).

(** The numbers of the summary. *)
Record life_summary := LifeSummary {
  ls_events : Z; ls_closed : Z; ls_known : Z; ls_unknown : Z; ls_responses : Z; ls_accepted : Z; ls_reuse : list (Z * Z) }.

Definition reconcile (o : observer) (counter_end : list (string * counters)) (clients ledger : list dict) (errors : list string)
    : result life_summary :=
  let? _ := counters_agree LIFETIME_PROGRAMS (counter_start o) counter_end (events o) in
  let? s := intervals (events o) (active o) in
  let? _ := shared_agree (life_phases o) in
  let? _ := ledger_agrees 53 clients ledger errors in
  let? accepted := accepted_sum ledger in
  Ok (LifeSummary (len (events o)) (Z.of_nat (size (l_born s))) (len (l_complete s)) (len (l_unknown s)) (len clients)
        accepted (l_reused s)).
