(* ===== verification/LifetimeSpec.v ===== *)
(** * The observed intervals

    What a suite whose drains and reconciliation passed has seen: of each parser context
    one birth, its attempts in order and one end; an address used again only after its
    end.  Such a stream is one the correlation join accepts. *)

From S2P Require Import Prelude PyVal Text Assoc Export ExportSpec Authority Joins Suite Lifetime.

Import Correlation.

(** ** Records read from the ring *)

Lemma text_hex_bytes v b : text_hex v = Ok b -> is_bytes b.
Proof. destruct v; try done. apply is_bytes_fromhex. Qed.

Lemma is_bytes_chunks sizes b : is_bytes b -> Forall is_bytes (chunks sizes b).
Proof.
  revert b. induction sizes as [|n sizes IH]; intros b Hb; cbn [chunks]; [constructor|].
  constructor; [by apply Forall_take|by apply IH, Forall_drop].
Qed.

Lemma le_ints_nonneg sizes b : is_bytes b -> Forall (fun z => 0 <= z) (map le_int (chunks sizes b)).
Proof.
  intros Hb. apply Forall_map. eapply Forall_impl; [by apply is_bytes_chunks|]. intros l Hl. cbn.
  by apply le_int_bound in Hl as [? _].
Qed.

Lemma life_event_fields data magic abi e :
  is_bytes data -> life_event data = Ok (magic, abi, e) -> 0 <= lifetime e /\ path e = VNone /\ nonce e = VNone.
Proof.
  unfold life_event. intros Hb H. destruct (negb _); [done|].
  pose proof (le_ints_nonneg LIFE_FIELDS data Hb) as Hn.
  destruct (map le_int (chunks LIFE_FIELDS data)) as [|z0 [|z1 [|z2 [|z3 [|z4 [|z5 [|z6 [|z7 [|z8 [|z9 [|]]]]]]]]]]]; try done.
  injection H as <- <- <-. cbn. apply Forall_inv_tail, Forall_inv_tail, Forall_inv_tail, Forall_inv_tail, Forall_inv in Hn. done.
Qed.

(** ** What the drains leave

    The record of each kind, as the drains let it through. *)
Definition let_through (e : event) : Prop :=
  0 <= lifetime e /\ (kind e = 1 \/ kind e = 2 \/ kind e = 3).

(** A birth of the null context is never taken back. *)
Definition checked (es : list event) (a : gset Z) : Prop :=
  Forall let_through es /\ (forall e, e ∈ es -> kind e = 1 -> lifetime e = 0 -> 0 ∈ a).

Lemma checked_nil : checked [] ∅.
Proof. split; [constructor|]. by intros e ?%elem_of_nil. Qed.

Lemma checked_snoc es a e a' :
  checked es a -> let_through e -> (0 ∈ a -> 0 ∈ a') -> (kind e = 1 -> lifetime e = 0 -> 0 ∈ a') -> checked (es ++ [e]) a'.
Proof.
  intros [Hf Hz] He Hk Hb. split; [apply Forall_app; split; [done|by constructor]|].
  intros x [Hx| ->%list_elem_of_singleton]%elem_of_app; eauto.
Qed.

(** ** The loop of the reconciliation *)

(** The records of one context. *)
Definition of_life (l : Z) (es : list event) : list event := List.filter (fun e => lifetime e =? l) es.

Lemma of_life_snoc l es e : of_life l (es ++ [e]) = of_life l es ++ (if lifetime e =? l then [e] else []).
Proof. unfold of_life. rewrite List.filter_app. cbn [List.filter]. by destruct (_ =? _). Qed.

(** A run of parse records: an attempt goes on while its records say it is not complete,
    and the attempts are numbered from one. *)
Inductive attempts_run : list event -> Z -> bool -> Prop :=
| run_none : attempts_run [] 0 false
| run_new es n e : attempts_run es n false -> kind e = 2 -> attempt e = n + 1 -> attempts_run (es ++ [e]) (n + 1) (value e =? 17)
| run_on es n e : attempts_run es n true -> kind e = 2 -> attempt e = n -> attempts_run (es ++ [e]) n (value e =? 17).

(** A context that is open, after some attempts. *)
Inductive opened : list event -> Z -> bool -> Prop :=
| opened_by b es n p : kind b = 1 -> attempts_run es n p -> opened (b :: es) n p.

(** A context from its birth to its end; the end says whether an attempt was cut short. *)
Inductive interval_of : list event -> Prop :=
| interval_closed es n p f : opened es n p -> kind f = 3 -> attempt f = n -> flags f = (if p then 256 else 0) -> interval_of (es ++ [f]).

(** The birth of [new] at the address of [old], which had ended. *)
Definition reused_after_end (es : list event) (on : Z * Z) : Prop :=
  exists pre b post, es = pre ++ b :: post /\ kind b = 1 /\ lifetime b = on.2 /\ value b = on.1 /\ interval_of (of_life on.1 pre).

(** What the loop knows after some records; the null context apart, which has no birth. *)
Definition known (es : list event) (s : lived) : Prop :=
  l_ended s ⊆ l_born s /\
  (forall l, l ∉ l_born s -> tries_of s l = 0 /\ pending_of s l = false) /\
  (forall l, l ∉ l_born s -> l <> 0 -> of_life l es = []) /\
  (forall l, l ∈ l_born s -> l <> 0 -> l ∉ l_ended s -> opened (of_life l es) (tries_of s l) (pending_of s l)) /\
  (forall l, l ∈ l_ended s -> l <> 0 -> interval_of (of_life l es)) /\
  (forall e, e ∈ es -> kind e = 1 -> lifetime e ∈ l_born s) /\
  Forall (fun on => on.1 <> 0 -> reused_after_end es on) (l_reused s).

Lemma reused_snoc es e on : reused_after_end es on -> reused_after_end (es ++ [e]) on.
Proof. intros (pre & b & post & -> & H). exists pre, b, (post ++ [e]). by rewrite <- app_assoc. Qed.

Lemma known_nobody : known [] nobody.
Proof.
  split_and!; try done; set_solver.
Qed.

Lemma of_life_other l es e : lifetime e <> l -> of_life l (es ++ [e]) = of_life l es.
Proof. intros H. rewrite of_life_snoc. apply Z.eqb_neq in H. by rewrite H, app_nil_r. Qed.

Lemma of_life_same es e : of_life (lifetime e) (es ++ [e]) = of_life (lifetime e) es ++ [e].
Proof. by rewrite of_life_snoc, Z.eqb_refl. Qed.

Lemma reused_all_snoc es e l :
  Forall (fun on => on.1 <> 0 -> reused_after_end es on) l -> Forall (fun on => on.1 <> 0 -> reused_after_end (es ++ [e]) on) l.
Proof. intros H. eapply Forall_impl; [exact H|]. intros on Ho Hn. by apply reused_snoc, Ho. Qed.

(** A record of the null context says nothing of the others. *)
Lemma known_null es s s' e :
  known es s -> lifetime e = 0 -> kind e <> 1 ->
  l_born s' = l_born s -> l_ended s' = l_ended s -> l_pending s' = l_pending s -> l_attempts s' = l_attempts s ->
  l_reused s' = l_reused s -> known (es ++ [e]) s'.
Proof.
  intros (He & Hu & Hb & Ho & Hd & Hk & Hr) Hl Hn E1 E2 E3 E4 E5.
  unfold known, tries_of, pending_of in *. rewrite E1, E2, E3, E4, E5. split_and!; try done.
  - intros l Hl1 Hl2. rewrite of_life_other by lia. auto.
  - intros l H1 H2 H3. rewrite of_life_other by lia. auto.
  - intros l H1 H2. rewrite of_life_other by lia. auto.
  - intros x [Hx| ->%list_elem_of_singleton]%elem_of_app Hx1; [auto|done].
  - by apply reused_all_snoc.
Qed.

Lemma known_birth es s e :
  known es s -> kind e = 1 -> lifetime e ∉ l_born s -> (value e = 0 \/ value e ∈ l_ended s) ->
  known (es ++ [e]) (Lived ({[lifetime e]} ∪ l_born s) (l_ended s) (l_pending s) (l_attempts s)
    (if value e =? 0 then l_reused s else l_reused s ++ [(value e, lifetime e)]) (l_complete s) (l_unknown s)).
Proof.
  intros (He & Hu & Hb & Ho & Hd & Hk & Hr) Hk1 Hl Hv. unfold known, tries_of, pending_of in *.
  cbn [l_born l_ended l_pending l_attempts l_reused]. split_and!.
  - set_solver.
  - intros l Hlb. apply Hu. set_solver.
  - intros l Hlb Hl0. rewrite of_life_other by set_solver. apply Hb; set_solver.
  - intros l Hlb Hl0 Hne. destruct (decide (l = lifetime e)) as [->|Hne'].
    + rewrite of_life_same, (Hb _ Hl Hl0). destruct (Hu _ Hl) as [-> ->]. apply (opened_by e [] 0 false Hk1). constructor.
    + rewrite of_life_other by done. apply Ho; [set_solver|done..].
  - intros l Hle Hl0. rewrite of_life_other by set_solver. auto.
  - intros x [Hx| ->%list_elem_of_singleton]%elem_of_app Hx1; [|set_solver]. specialize (Hk x Hx Hx1). set_solver.
  - destruct (Z.eqb_spec (value e) 0) as [Hv0|Hv0]; [by apply reused_all_snoc|].
    apply Forall_app. split; [by apply reused_all_snoc|]. repeat constructor. cbn [fst snd]. intros _.
    destruct Hv as [?|Hv]; [done|]. exists es, e, []. split_and!; try done. by apply Hd.
Qed.

Lemma known_parse es s e :
  known es s -> kind e = 2 -> lifetime e ∈ l_born s -> lifetime e ∉ l_ended s ->
  let n := if pending_of s (lifetime e) then tries_of s (lifetime e) else tries_of s (lifetime e) + 1 in
  attempt e = n -> forall c,
  known (es ++ [e]) (Lived (l_born s) (l_ended s) (<[lifetime e := value e =? 17]> (l_pending s))
    (<[lifetime e := n]> (l_attempts s)) (l_reused s) c (l_unknown s)).
Proof.
  intros (He & Hu & Hb & Ho & Hd & Hk & Hr) Hk2 Hl Hle n Ha c. unfold known.
  cbn [l_born l_ended l_pending l_attempts l_reused]. split_and!; try done.
  - intros l Hlb. unfold tries_of, pending_of. cbn [l_pending l_attempts]. rewrite !lookup_insert_ne by set_solver. by apply Hu.
  - intros l Hlb Hl0. rewrite of_life_other by set_solver. auto.
  - intros l Hlb Hl0 Hne. unfold tries_of, pending_of. cbn [l_pending l_attempts].
    destruct (decide (l = lifetime e)) as [->|Hne'].
    + rewrite !lookup_insert_eq. cbn [default from_option id]. rewrite of_life_same. specialize (Ho _ Hl Hl0 Hle).
      inversion Ho as [b es' n' p Hb1 Hrun E1 E2 E3]. subst n' p. rewrite <- app_comm_cons.
      constructor; [done|]. unfold n in *. destruct (pending_of s (lifetime e)); by constructor.
    + rewrite !lookup_insert_ne by done. rewrite of_life_other by done. by apply Ho.
  - intros l Hle' Hl0. rewrite of_life_other by set_solver. auto.
  - intros x [Hx| ->%list_elem_of_singleton]%elem_of_app Hx1; [auto|lia].
  - by apply reused_all_snoc.
Qed.

Lemma known_end es s e :
  known es s -> kind e = 3 -> lifetime e ∈ l_born s -> lifetime e ∉ l_ended s ->
  flags e = (if pending_of s (lifetime e) then 256 else 0) -> attempt e = tries_of s (lifetime e) ->
  known (es ++ [e]) (Lived (l_born s) ({[lifetime e]} ∪ l_ended s) (l_pending s) (l_attempts s)
    (l_reused s) (l_complete s) (l_unknown s)).
Proof.
  intros (He & Hu & Hb & Ho & Hd & Hk & Hr) Hk3 Hl Hle Hf Ha. unfold known, tries_of, pending_of in *.
  cbn [l_born l_ended l_pending l_attempts l_reused]. split_and!; try done.
  - set_solver.
  - intros l Hlb Hl0. rewrite of_life_other by set_solver. auto.
  - intros l Hlb Hl0 Hne. rewrite of_life_other by set_solver. apply Ho; set_solver.
  - intros l Hle' Hl0. destruct (decide (l = lifetime e)) as [->|Hne'].
    + rewrite of_life_same. by apply (interval_closed _ _ _ _ (Ho _ Hl Hl0 Hle)).
    + rewrite of_life_other by done. apply Hd; [set_solver|done].
  - intros x [Hx| ->%list_elem_of_singleton]%elem_of_app Hx1; [auto|lia].
  - by apply reused_all_snoc.
Qed.

(** The next check did not fail. *)
Ltac no_raise E :=
  lazymatch goal with |- (if ?b then Err _ else _) = _ -> _ => destruct b eqn:E; [done|] end.

Lemma known_step es s e s' : known es s -> let_through e -> reconcile_step s e = Ok s' -> known (es ++ [e]) s'.
Proof.
  intros Hk [_ Hkind]. unfold reconcile_step. cbv zeta.
  destruct (Z.eqb_spec (kind e) 1) as [H1|H1].
  - no_raise Hb. apply bool_decide_eq_false in Hb. no_raise Ev. intros [= <-].
    apply known_birth; [done..|]. apply andb_false_iff in Ev as [Ev|Ev]; [left; lia|right].
    by apply negb_false_iff, bool_decide_eq_true in Ev.
  - destruct (Z.eqb_spec (flags e) 32) as [Hf|Hf].
    + no_raise El. intros [= <-]. apply negb_false_iff, andb_prop in El as [El _].
      apply Z.eqb_eq in El. destruct (kind e =? 2); by eapply known_null.
    + destruct (Z.eqb_spec (kind e) 2) as [H2|H2].
      * no_raise El. no_raise Ea. intros [= <-].
        apply negb_false_iff, andb_prop in El as [El1 El2]. apply negb_true_iff, bool_decide_eq_false in El2.
        apply bool_decide_eq_true in El1. apply negb_false_iff, Z.eqb_eq in Ea. by apply known_parse.
      * no_raise El. no_raise Ef. no_raise Ea. intros [= <-].
        apply negb_false_iff, andb_prop in El as [El1 El2]. apply negb_true_iff, bool_decide_eq_false in El2.
        apply bool_decide_eq_true in El1. apply negb_false_iff, Z.eqb_eq in Ea, Ef. apply known_end; [done|lia|done..].
Qed.

Lemma known_loop es0 es s s' :
  known es0 s -> Forall let_through es -> reconcile_loop s es = Ok s' -> known (es0 ++ es) s'.
Proof.
  revert es0 s. induction es as [|e es IH]; intros es0 s Hk Hf H; cbn [reconcile_loop] in H.
  - injection H as <-. by rewrite app_nil_r.
  - destruct (reconcile_step s e) as [s1|] eqn:Es; [|done]. rewrite cons_middle, app_assoc. inversion Hf; subst.
    eapply IH; [by eapply known_step|done|done].
Qed.

(** ** The join accepts the stream *)

(** The shape the join asks of a birth and of an attempt; the drains ask less. *)
Definition well_formed (e : event) : bool :=
  if kind e =? 1 then flags e =? 0
  else if kind e =? 2 then (flags e =? 32) || ((flags e =? 0) && ((value e =? 0) || (value e =? 17)))
  else true.

Definition view (s : lived) : lives := Lives (l_born s) (l_ended s) (l_attempts s) (l_pending s).

Lemma live_step_agrees s e s' :
  let_through e -> (kind e = 1 -> lifetime e <> 0) -> reconcile_step s e = Ok s' ->
  live_step (view s) e = if well_formed e then Some (view s') else None.
Proof.
  intros [Hl Hkind] Hz. unfold reconcile_step, live_step, well_formed, view, attempts_of, is_pending, tries_of, pending_of.
  cbv zeta. cbn [born ended attempts pending]. destruct (Z.eqb_spec (kind e) 1) as [H1|H1].
  - no_raise Hb. no_raise Ev. intros [= <-]. cbn [l_born l_ended l_attempts l_pending].
    assert ((value e =? 0) || bool_decide (value e ∈ l_ended s) = true) as ->.
    { destruct (value e =? 0); [done|]. cbn in *. by apply negb_false_iff. }
    assert ((0 <? lifetime e) = true) as -> by lia. by destruct (flags e =? 0).
  - destruct (Z.eqb_spec (flags e) 32) as [Hf|Hf].
    + no_raise El. intros [= <-]. apply negb_false_iff in El. rewrite ?El. by destruct (kind e =? 2).
    + destruct (Z.eqb_spec (kind e) 2) as [H2|H2].
      * no_raise El. no_raise Ea. intros [= <-]. apply negb_false_iff in El. apply negb_false_iff in Ea.
        rewrite ?Ea. apply andb_prop in El as [-> ->]. cbn [orb negb l_born l_ended l_attempts l_pending].
        destruct (flags e =? 0), ((value e =? 0) || (value e =? 17)); done.
      * no_raise El. no_raise Ef. no_raise Ea. intros [= <-]. apply negb_false_iff in El, Ef, Ea.
        rewrite ?Ea, ?Ef. apply andb_prop in El as [-> ->]. assert (kind e = 3) as -> by lia. done.
Qed.

Lemma live_steps_agree s es s' :
  Forall let_through es -> Forall (fun e => kind e = 1 -> lifetime e <> 0) es -> reconcile_loop s es = Ok s' ->
  live_steps (view s) es = if forallb well_formed es then Some (view s') else None.
Proof.
  intros Hf. revert s. induction Hf as [|e es He Hes IH]; intros s Hz H; cbn [reconcile_loop live_steps forallb] in *.
  - by injection H as <-.
  - destruct (reconcile_step s e) as [s1|] eqn:Es; [|done]. inversion Hz as [|? ? Hz1 Hz2]; subst.
    rewrite (live_step_agrees s e s1); [|done..]. destruct (well_formed e); [|done]. cbn [andb]. by apply IH.
Qed.

Lemma births_not_null es a : checked es a -> a = ∅ -> Forall (fun e => kind e = 1 -> lifetime e <> 0) es.
Proof. intros [_ Hz] ->. apply Forall_forall. intros e He H1 H0. by apply (Hz e) in H0 as ?%elem_of_empty. Qed.

Lemma intervals_ok es a s : intervals es a = Ok s -> reconcile_loop nobody es = Ok s /\ l_born s = l_ended s /\ a = ∅.
Proof.
  unfold intervals. destruct (reconcile_loop nobody es) as [s1|]; [|done].
  destruct (negb _) eqn:E; [done|]. apply negb_false_iff, andb_prop in E as [E1%bool_decide_eq_true E2%bool_decide_eq_true].
  repeat case_match; try done. by intros [= <-].
Qed.

Lemma intervals_exact es a s :
  Forall let_through es -> intervals es a = Ok s ->
  (forall e, e ∈ es -> lifetime e <> 0 -> interval_of (of_life (lifetime e) es)) /\
  Forall (fun on => on.1 <> 0 -> reused_after_end es on) (l_reused s) /\ l_reused s <> [].
Proof.
  intros Hf Hi. pose proof (intervals_ok _ _ _ Hi) as (Hloop & Hbe & _).
  pose proof (known_loop [] es nobody s known_nobody Hf Hloop) as (_ & _ & Hu & _ & Hd & _ & Hr).
  split_and!; [|done|].
  - intros e He Hl. destruct (decide (lifetime e ∈ l_born s)) as [Hb|Hb]; [apply Hd; [by rewrite <- Hbe|done]|].
    exfalso. specialize (Hu _ Hb Hl). cbn [app] in Hu. assert (e ∈ of_life (lifetime e) es) as Hin.
    { apply list_elem_of_In, List.filter_In. rewrite list_elem_of_In in He. by rewrite Z.eqb_refl. }
    rewrite Hu in Hin. by apply elem_of_nil in Hin.
  - unfold intervals in Hi. rewrite Hloop in Hi. destruct (negb _); [done|]. by destruct (l_reused s).
Qed.

(** *** Sequences *)

Definition in_sequence (token : Z) (es : list event) : Prop :=
  map sequence es ≡ₚ range_from 1 (length es) /\ Forall (fun e => ev_run e = token /\ failures e = 0) es.

Lemma range_from_sorted i n : Sorted Z.le (range_from i n).
Proof.
  revert i. induction n as [|n IH]; intros i; cbn [range_from]; constructor; [apply IH|].
  destruct n; cbn; constructor. lia.
Qed.

Lemma range_from_snoc i n : range_from i (S n) = range_from i n ++ [i + Z.of_nat n].
Proof.
  revert i. induction n as [|n IH]; intros i; [cbn; f_equal; lia|].
  change (i :: range_from (i + 1) (S n) = (i :: range_from (i + 1) n) ++ [i + Z.of_nat (S n)]). rewrite IH.
  cbn [app]. do 3 f_equal. lia.
Qed.

Lemma in_sequence_add token es es' e :
  in_sequence token es -> sequence e = len es + 1 -> ev_run e = token -> failures e = 0 -> es' ≡ₚ es ++ [e] -> in_sequence token es'.
Proof.
  intros [Hp Hf] Hs Hr Hl He. split.
  - rewrite He, length_app, map_app. cbn [length map]. rewrite Nat.add_1_r, range_from_snoc, Hp, Hs.
    unfold len. by rewrite Z.add_comm.
  - rewrite He. apply Forall_app. by repeat constructor.
Qed.

#[local] Instance seq_le_total : Total seq_le.
Proof. intros x y. unfold seq_le. lia. Qed.
#[local] Instance seq_le_trans : Transitive seq_le.
Proof. intros x y z. unfold seq_le. lia. Qed.

Lemma stream_in_sequence token es : in_sequence token es -> es <> [] -> 0 < token -> stream_ok es = true.
Proof.
  intros [Hp Hf] Hne Ht. unfold stream_ok. pose proof (merge_sort_Permutation seq_le es) as Hm.
  pose proof (Sorted_merge_sort seq_le es) as Hs.
  destruct (merge_sort seq_le es) as [|e l] eqn:E; [by apply Permutation_nil_l in Hm|].
  rewrite <- Hm in Hf. assert (map sequence (e :: l) = range_from 1 (length (e :: l))) as ->.
  { apply (Sorted_unique Z.le).
    - clear -Hs. induction Hs as [|x t Ht IH Hh]; cbn [map]; constructor; [done|]. by inversion Hh; constructor.
    - apply range_from_sorted.
    - rewrite Hm at 1. by rewrite Hp, Hm. }
  rewrite bool_decide_true by done. inversion Hf as [|? ? [He Hz] Hl]; subst.
  assert (forall P, (forall x, ev_run x = ev_run e /\ failures x = 0 -> P x = true) -> forallb P (e :: l) = true) as Hall.
  { intros P HP. apply forallb_forall. intros x Hx%list_elem_of_In. eapply Forall_forall in Hf; [|exact Hx]. auto. }
  rewrite !Hall; [|intros x [Hx Hx']; lia..]. cbn [andb]. lia.
Qed.

(** ** Sessions

    Whatever calls a suite makes of its methods, with any traffic between them: an
    invariant of the stream that the drains keep is kept. *)

(** A change that leaves the stream as it is. *)
Definition quiet_change (f : observer -> observer) : Prop :=
  forall o, events (f o) = events o /\ active (f o) = active o /\ run_token (f o) = run_token o.

Inductive call :=
| CStart
| CAttach (label : string)
| CDetach (label : string)
| CDrain (label : string)
| CCollect (name : string) (before : counters) (complete calls : Z) (attempt_of : option string)
| CSettle (label : string) (unknown_end : bool)
| CExpect (unknown : bool)
| CTraffic (request : bytes).

Definition expect (b : bool) (o : observer) : observer :=
  Obs (run_token o) (loaded_slots o) (armed_hooks o) b (events o) (active o) (batches o) (life_phases o) (counter_start o) (cleanup_errors o).

Section session.
Context {X : Type} `{ObserverLaws X}.
Variable finish : history -> result reply.
Variable response : history -> result bytes.
Variable saved : history -> result unit.
Variable wait : history -> result unit.
Variable json_loads : string -> result val.
Variables program_dir parent : string.
Variable ring_exists : bool.
Variable PROGRAMS : list (string * program).
Variable start_ : M X unit.
Variable drain_ : string -> M X (list event).
Variable detach_ : string -> M X unit.

Definition perform (c : call) : M X unit :=
  match c with
  | CStart => start_
  | CAttach l => attach finish PROGRAMS l
  | CDetach l => detach_ l
  | CDrain l => do! drain_ l ;; ret tt
  | CCollect n b complete calls a => do! collect finish drain_ n b complete calls a ;; ret tt
  | CSettle l u => settle wait drain_ l u
  | CExpect b => modifies (expect b)
  | CTraffic request => do! act response (Exchange request) ;; ret tt
  end.

Variable I : X -> Prop.
Hypothesis I_quiet : forall f x, quiet_change f -> I x -> I (put_base (f (base x)) x).

Definition RI (x y : X) : Prop := I x -> I y.

#[export] Instance RI_preorder : PreOrder RI.
Proof. split; unfold RI; [intros x; done|intros x y z; auto]. Qed.

(** A method that ends well keeps the invariant. *)
Definition keeps_ok {A} (m : M X A) : Prop := forall s s' a, m s = (s', Ok a) -> I (own s) -> I (own s').

Lemma keeps_ok_within {A} (m : M X A) : within RI m -> keeps_ok m.
Proof. intros Hw s s' a E. specialize (Hw s). by rewrite E in Hw. Qed.

Lemma keeps_ok_bind {A B} (m : M X A) (f : A -> M X B) : keeps_ok m -> (forall a, keeps_ok (f a)) -> keeps_ok (bind m f).
Proof. intros Hm Hf s s' b E Hi. apply bind_ok in E as (a & s1 & E1 & E2). eapply Hf; [exact E2|]. by eapply Hm. Qed.

Lemma within_modifies f : quiet_change f -> within RI (modifies f).
Proof. intros Hq. apply within_modify. intros x Hx. by apply I_quiet. Qed.

Lemma within_attach l : within RI (attach finish PROGRAMS l).
Proof. unfold attach. keep. by apply within_modifies. Qed.

Lemma within_detach l : within RI (detach finish PROGRAMS l).
Proof. unfold detach, asks. keep. by apply within_modifies. Qed.

Lemma within_stats_from ps : within RI (stats_from finish ps).
Proof. induction ps as [|[l p] ps IH]; cbn [stats_from]; keep. Qed.

Lemma within_load_one lp : within RI (load_one finish saved json_loads program_dir parent lp).
Proof. destruct lp as [l p]. unfold load_one, asks, cli_. keep. by apply within_modifies. Qed.

Lemma within_start : within RI (start finish saved json_loads program_dir parent ring_exists PROGRAMS).
Proof.
  unfold start. keep; [by apply within_load_one|apply within_stats_from|by apply within_modifies|by apply within_attach].
Qed.

Lemma within_attempts {A} (f : A -> M X unit) l errors : (forall x, within RI (f x)) -> within RI (attempts_in f l errors).
Proof.
  intros Hf. revert errors. induction l as [|x l IH]; intros errors; cbn [attempts_in]; [apply within_ret; apply _|].
  apply within_bind; [apply _| |intros a; apply IH]. intros s. unfold attempt_. specialize (Hf x s).
  by destruct (f x s) as [s1 [u|e]].
Qed.

Hypothesis start_quiet : within RI start_.
Hypothesis detach_quiet : forall l, within RI (detach_ l).
Hypothesis drain_keeps : forall l, keeps_ok (drain_ l).

Lemma within_stop : within RI (stop finish detach_).
Proof.
  unfold stop, asks. keep; [by apply within_attempts| |by apply within_modifies].
  apply within_attempts. intros slot. unfold revoke. keep. by apply within_modifies.
Qed.

Lemma collect_keeps n b complete calls a : keeps_ok (collect finish drain_ n b complete calls a).
Proof.
  unfold collect, asks. apply keeps_ok_bind; [apply keeps_ok_within; keep|]. intros after_.
  apply keeps_ok_bind; [apply drain_keeps|]. intros es. apply keeps_ok_within. keep. by apply within_modifies.
Qed.

Lemma settle_keeps l u : keeps_ok (settle wait drain_ l u).
Proof.
  unfold settle. generalize (negb u). generalize 0. generalize 80%nat as tries. induction tries as [|n IH]; intros q seen; cbn [settle_loop].
  { apply keeps_ok_within. keep. }
  apply keeps_ok_bind; [apply drain_keeps|]. intros es. unfold asks. apply keeps_ok_bind; [apply keeps_ok_within; keep|].
  intros a. destruct (_ && _); [apply keeps_ok_within; keep|].
  apply keeps_ok_bind; [apply keeps_ok_within; keep|]. intros _. apply IH.
Qed.

Lemma perform_keeps c : keeps_ok (perform c).
Proof.
  destruct c; cbn [perform].
  - by apply keeps_ok_within.
  - apply keeps_ok_within, within_attach.
  - by apply keeps_ok_within.
  - apply keeps_ok_bind; [apply drain_keeps|]. intros ?. apply keeps_ok_within. keep.
  - apply keeps_ok_bind; [apply collect_keeps|]. intros ?. apply keeps_ok_within. keep.
  - apply settle_keeps.
  - apply keeps_ok_within, within_modifies. done.
  - apply keeps_ok_within. keep.
Qed.

Lemma run_keeps cs s s' u : for_each perform cs s = (s', Ok u) -> I (own s) -> I (own s').
Proof.
  revert s. induction cs as [|c cs IH]; intros s E Hi; cbn [for_each] in E.
  - apply ret_ok in E as [-> _]. done.
  - apply bind_ok in E as ([] & s1 & E1 & E2). eapply IH; [exact E2|]. by eapply perform_keeps.
Qed.
End session.

(** ** The lifetime suite *)

Definition new_observer (token : Z) : observer := Obs token [] [] false [] ∅ [] [] [] [].

Definition watched (o : observer) : Prop := checked (events o) (active o) /\ in_sequence (run_token o) (events o).

Lemma watched_new token : watched (new_observer token).
Proof. split; [apply checked_nil|]. by repeat constructor. Qed.

Lemma watched_quiet f o : quiet_change f -> watched o -> watched (put_base (f (base o)) o).
Proof. intros Hq Hw. destruct (Hq o) as (E1 & E2 & E3). unfold watched in *. cbn. by rewrite E1, E2, E3. Qed.

(** The kind of a record whose slot was looked up. *)
Lemma slot_matches_kind i k b : slot_matches i k = Ok b -> k = 1 \/ k = 2 \/ k = 3.
Proof.
  unfold slot_matches. destruct (subscript "slot" i); [|done]. destruct (assoc k SLOT_OF) eqn:E; [|done]. intros _.
  unfold SLOT_OF in E. cbn [assoc] in E. destruct (Z.eqb_spec k 1); [lia|]. destruct (Z.eqb_spec k 2); [lia|].
  destruct (Z.eqb_spec k 3); [lia|done].
Qed.

(** The set of open contexts after a record. *)
Lemma null_stays e (a a' : gset Z) :
  (if kind e =? 1 then a' = {[lifetime e]} ∪ a
   else if (kind e =? 3) && negb (lifetime e =? 0) then a' = a ∖ {[lifetime e]} else a' = a) ->
  (0 ∈ a -> 0 ∈ a') /\ (kind e = 1 -> lifetime e = 0 -> 0 ∈ a').
Proof.
  destruct (Z.eqb_spec (kind e) 1) as [H1|H1]; [intros ->; set_solver|].
  destruct (kind e =? 3); cbn [andb]; [|intros ->; done].
  destruct (Z.eqb_spec (lifetime e) 0); cbn [negb]; intros ->; set_solver.
Qed.

Section watching.
Variable finish : history -> result reply.
Variable response : history -> result bytes.
Variable saved : history -> result unit.
Variable wait : history -> result unit.
Variable json_loads : string -> result val.
Variables program_dir parent : string.
Variable ring_exists : bool.

Lemma drain_item_keeps i : keeps_ok watched (drain_item (X := observer) i).
Proof.
  intros s s' e H [Hc Hs]. unfold drain_item, asks in H. unbind H. destruct a4 as [[magic abi] e0].
  unbind H. unfold modifies in Hm. apply modify_ok in Hm as [_ Ho]. cbn in Ho.
  apply text_hex_bytes in Hr2. apply life_event_fields in Hr3 as (Hl & _); [|done].
  apply slot_matches_kind in Hr4.
  assert (exists a', own s1 = with_stream (events (own s0)) a' (own s0) /\
    (if kind e0 =? 1 then a' = {[lifetime e0]} ∪ active (own s0)
     else if (kind e0 =? 3) && negb (lifetime e0 =? 0) then a' = active (own s0) ∖ {[lifetime e0]}
     else a' = active (own s0))) as (a' & Ho' & Ha).
  { destruct (kind e0 =? 1); [|destruct ((kind e0 =? 3) && negb (lifetime e0 =? 0))]; unbind Hm0; try (apply modify_ok in Hm0 as [_ ->]); eauto.
    eexists. split; [|done]. by destruct (own s0). }
  rewrite Ho in Ha, Ho'. cbn [active with_stream events] in Ha, Ho'. apply null_stays in Ha as [Hz Hb].
  rewrite Ho' . rewrite Ho in Hc2, Hc3. cbn in Hc2, Hc3. unfold watched. cbn [events active run_token with_stream]. split.
  - by apply (checked_snoc _ (active (own s))).
  - apply andb_prop in Hc2 as [Hrun%Z.eqb_eq Hfail%Z.eqb_eq].
    apply (in_sequence_add _ (events (own s)) _ e0); [done| |done..].
    apply Z.eqb_eq in Hc3. unfold len in *. rewrite length_app in Hc3. cbn [length] in Hc3. lia.
Qed.

Lemma drain_keeps l : keeps_ok watched (drain (X := observer) finish json_loads l).
Proof.
  unfold drain. apply keeps_ok_bind; [apply keeps_ok_within; keep|]. intros [row transport].
  apply keeps_ok_bind; [apply keeps_ok_within, (within_modifies _ watched_quiet); done|]. intros _.
  apply keeps_ok_bind; [apply keeps_ok_within; keep|]. intros _.
  induction transport as [|i l' IH]; cbn [drain_items]; [apply keeps_ok_within; keep|].
  apply keeps_ok_bind; [apply drain_item_keeps|]. intros e. apply keeps_ok_bind; [apply IH|]. intros es.
  apply keeps_ok_within. keep.
Qed.

(** A call of the lifetime suite. *)
Definition life_call : call -> M observer unit :=
  perform finish response wait LIFETIME_PROGRAMS
    (start finish saved json_loads program_dir parent ring_exists LIFETIME_PROGRAMS)
    (drain finish json_loads) (detach finish LIFETIME_PROGRAMS).

Lemma life_session_watched token h cs s' u :
  for_each life_call cs (St h (new_observer token)) = (s', Ok u) -> watched (own s').
Proof.
  intros E. apply (run_keeps _ _ _ _ _ _ _ watched watched_quiet) in E; [done|..|apply watched_new].
  - apply within_start, watched_quiet.
  - intros l. apply within_detach, watched_quiet.
  - apply drain_keeps.
Qed.

(** Each context of the stream of a session that reconciled was born once, then parsed
    its attempts in order, then ended; an address was used again only after its end. *)
Theorem session_intervals token h cs s' u es a s :
  for_each life_call cs (St h (new_observer token)) = (s', Ok u) ->
  es = events (own s') -> a = active (own s') -> intervals es a = Ok s ->
  (forall e, e ∈ es -> lifetime e <> 0 -> interval_of (of_life (lifetime e) es)) /\
  Forall (fun on => on.1 <> 0 -> reused_after_end es on) (l_reused s) /\ l_reused s <> [].
Proof.
  intros E -> -> Hi. apply life_session_watched in E as [[Hf _] _]. by eapply intervals_exact.
Qed.
End watching.
