(* ===== verification/Correlate.v ===== *)
(** * The suites of the correlation join (env/ai-traffic/correlation_suite.py, gap_suite.py)

    A fourth program reports candidate values.  [FourStreams] is the suite that checks the
    bounded join over one long window; [Gaps] is a session of the gap suite, whose window
    a detached hook invalidates.  Both replace the drain of the observer.  The clients and
    their requests are not modelled. *)

From S2P Require Import Prelude PyVal Text Assoc Export Authority Joins Suite Lifetime.

Import Correlation Window.

Definition PROGRAMS : list (string * program) := LIFETIME_PROGRAMS ++ [("candidate", Program 8 4 "http_parse_headers")].

(** ** Records of the fourth stream *)

Definition RAW_FIELDS : list nat := [4; 4; 8; 8; 8; 8; 8; 4; 4; 4; 4; 32]%nat.
Definition RAW_MAGIC : Z := 0x43414E44.
Definition PATH_OF : list (Z * string) := [(1, "/mcp"); (2, "/a2a"); (3, "/delegate")].

(** [b.decode("ascii").rstrip("\0")]. *)
Fixpoint rstrip_zero (l : bytes) : bytes :=
  match l with
  | [] => []
  | b :: t => match rstrip_zero t with [] => if b =? 0 then [] else [b] | r => b :: r end
  end.

Definition ascii_nonce (b : bytes) : result string :=
  if forallb (fun c => c <? 128) b then Ok (list_str (map chr (rstrip_zero b))) else Err UnicodeError.

Record raw := Raw { raw_magic : Z; raw_abi : Z; raw_nonce : bytes; raw_event : event }.

(** A record of the stream, its nonce not read yet; it has no kind and no value. *)
Definition raw_record (data : bytes) : result raw :=
  if negb (length data =? calcsize RAW_FIELDS)%nat then Err StructError else
  match chunks RAW_FIELDS data with
  | [magic; abi; run; seq_; life; att; failed; flags; path_code; total; reserved; nonce] =>
      Ok (Raw (le_int magic) (le_int abi) nonce
            (Event 0 0 (le_int seq_) (le_int life) (le_int att) (le_int run) (le_int failed) (le_int flags)
               (name_of (le_int path_code) PATH_OF) VNone))
  | _ => Err StructError
  end.

Definition with_nonce (n : string) (e : event) : event :=
  Event (kind e) (value e) (sequence e) (lifetime e) (attempt e) (ev_run e) (failures e) (flags e) (path e) (VStr n).

(** A record without a terminal value carries none. *)
Definition empty_unless_terminal (n : string) (e : event) : bool :=
  (flags e =? 1) || (String.eqb n "" && match path e with VNone => true | _ => false end).

(** A record of either stream, with its magic and version. *)
Definition read_frame (is_raw : bool) (data : bytes) : result (Z * Z * event * bytes) :=
  if is_raw then let? r := raw_record data in Ok (raw_magic r, raw_abi r, raw_event r, raw_nonce r)
  else let? (magic, abi, e) := life_event data in Ok (magic, abi, e, []).

(** The candidate a raw record is kept as. *)
Definition candidate_of (allowed : list Z) (nonce : bytes) (e : event) : result event :=
  let? n := ascii_nonce nonce in
  raise_if (negb (ok_flags allowed (flags e))) AssertionError ;;
  raise_if (negb (empty_unless_terminal n e)) AssertionError ;;
  Ok (with_nonce n e).

(** ** The suites *)

Record correlation := Corr { c_base : observer; candidates : list event; stream_sequence : Z }.

#[export] Instance corr_observer : HasObserver correlation :=
  { base := c_base; put_base := fun o x => Corr o (candidates x) (stream_sequence x) }.
#[export] Instance corr_observer_laws : ObserverLaws correlation.
Proof. by constructor. Qed.

(** A session owns one closed window of results. *)
Record session := Session {
  g_base : observer; g_candidates : list event; g_sequence : Z; coverage : option window }.

#[export] Instance session_observer : HasObserver session :=
  { base := g_base; put_base := fun o x => Session o (g_candidates x) (g_sequence x) (coverage x) }.
#[export] Instance session_observer_laws : ObserverLaws session.
Proof. by constructor. Qed.

Section suites.
Variable finish : history -> result reply.
Variable saved : history -> result unit.
Variable wait : history -> result unit.
Variable json_loads : string -> result val.
Variables program_dir parent : string.
Variable ring_exists : bool.

(** ** One window over four streams *)

Definition start_four {X} `{HasObserver X} : M X unit :=
  do! start finish saved json_loads program_dir parent ring_exists PROGRAMS ;;
  attach finish PROGRAMS "candidate".

Definition corr_item (item_ : val) : M correlation (list event) :=
  let! hook := lift (subscript "hook" item_) in
  do! check (val_eqb hook (VStr "prog")) ;;
  let! slot := lift (subscript "slot" item_) in
  let is_raw := val_eqb slot (VInt 8) in
  let! data := lift (subscript "data" item_) in
  let! data := lift (text_hex data) in
  let! (magic, abi, e, nonce) := lift (read_frame is_raw data) in
  do! check (magic =? (if is_raw then RAW_MAGIC else LIFE_MAGIC)) ;;
  let! token := asks run_token in
  do! check ((abi =? 1) && (ev_run e =? token)) ;;
  do! modify (fun x => Corr (c_base x) (candidates x) (stream_sequence x + 1)) ;;
  let! n := ask stream_sequence in
  do! check ((sequence e =? n) && (failures e =? 0)) ;;
  if is_raw then
    let! c := lift (candidate_of [0; 1; 4; 8; 64] nonce e) in
    do! modify (fun x => Corr (c_base x) (candidates x ++ [c]) (stream_sequence x)) ;;
    ret []
  else
    let! here := lift (slot_matches item_ (kind e)) in
    do! check here ;;
    do! check (ok_flags [0; 32; 256] (flags e)) ;;
    do! modifies (fun o => with_stream (events o ++ [e]) (active o) o) ;;
    let! a := asks active in
    do! (if kind e =? 1 then
           do! check (negb (bool_decide (lifetime e ∈ a))) ;;
           modifies (fun o => with_stream (events o) ({[lifetime e]} ∪ active o) o)
         else if (kind e =? 3) && negb (lifetime e =? 0) then
           do! (if bool_decide (lifetime e ∈ a) then ret tt else raise (KeyError (py_str (lifetime e)))) ;;
           modifies (fun o => with_stream (events o) (active o ∖ {[lifetime e]}) o)
         else ret tt) ;;
    ret [e].

Fixpoint corr_items (l : list val) : M correlation (list event) :=
  match l with
  | [] => ret []
  | i :: l => let! es := corr_item i in let! rest := corr_items l in ret (es ++ rest)
  end.

Definition corr_drain (label : string) : M correlation (list event) :=
  let! (row, transport) := drained finish json_loads in
  do! modifies (with_batch (label, transport)) ;;
  do! check (no_drops row) ;;
  corr_items transport.

(** ** A session of the gap suite *)

Definition identity_instance (slot : string) : M session val :=
  let! v := identity_of finish json_loads slot in lift (subscript "instance" v).

Fixpoint identities_from (ps : list (string * program)) : M session dict :=
  match ps with
  | [] => ret []
  | (name, p) :: ps =>
      let! i := identity_instance (slot_text p) in
      let! rest := identities_from ps in
      ret ((name, i) :: rest)
  end.

Definition identities : M session dict := identities_from PROGRAMS.

Definition cover (w : option window) (x : session) : session := Session (g_base x) (g_candidates x) (g_sequence x) w.

Definition gap_start : M session unit :=
  do! start_four ;;
  let! ids := identities in
  let! token := asks run_token in
  modify (cover (Some (new_window (VInt token) ids (VBool true)))).

(** A hook detached before the window is closed is a gap in it. *)
Definition gap_detach (label : string) : M session unit :=
  do! modify (fun x => match coverage x with
                       | Some w => if closed w then x else cover (Some (invalidate (cat ["hook_detached:"; label]) w)) x
                       | None => x
                       end) ;;
  detach finish PROGRAMS label.

Definition gap_item (item_ : val) : M session (list event) :=
  let! hook := lift (subscript "hook" item_) in
  do! check (val_eqb hook (VStr "prog")) ;;
  let! slot := lift (subscript "slot" item_) in
  let is_raw := val_eqb slot (VInt 8) in
  let! n := lift (subscript "len" item_) in
  do! check (val_eqb n (VInt (if is_raw then 96 else 64))) ;;
  let! data := lift (subscript "data" item_) in
  let! data := lift (text_hex data) in
  let! (magic, abi, e, nonce) := lift (read_frame is_raw data) in
  do! modify (fun x => Session (g_base x) (g_candidates x) (g_sequence x + 1) (coverage x)) ;;
  do! check (magic =? (if is_raw then RAW_MAGIC else LIFE_MAGIC)) ;;
  let! token := asks run_token in
  do! check ((abi =? 1) && (ev_run e =? token)) ;;
  let! n := ask g_sequence in
  do! check ((sequence e =? n) && (failures e =? 0)) ;;
  if is_raw then
    let! c := lift (candidate_of [0; 1; 4; 8; 64; 256] nonce e) in
    do! modify (fun x => Session (g_base x) (g_candidates x ++ [c]) (g_sequence x) (coverage x)) ;;
    ret []
  else
    let! here := lift (slot_matches item_ (kind e)) in
    do! check here ;;
    do! check (Z.land (flags e) (Z.lnot (4 + 32 + 64 + 128 + 256)) =? 0) ;;
    do! modifies (fun o => with_stream (events o ++ [e]) (active o) o) ;;
    ret [e].

Fixpoint gap_items (l : list val) : M session (list event) :=
  match l with
  | [] => ret []
  | i :: l => let! es := gap_item i in let! rest := gap_items l in ret (es ++ rest)
  end.

Definition gap_drain (label : string) : M session (list event) :=
  let! row := run finish DRAIN false in
  do! check (no_drops row) ;;
  let! transport := lift (mapM_r json_loads (text_lines (stdout row))) in
  do! modifies (with_batch (label, transport)) ;;
  gap_items transport.

Fixpoint quiet_loop (tries : nat) (label : string) (empty : Z) : M session unit :=
  match tries with
  | O => raise AssertionError
  | S tries =>
      let! before := ask g_sequence in
      do! gap_drain label ;;
      let! now := ask g_sequence in
      let empty := if before =? now then empty + 1 else 0 in
      if empty =? 5 then ret tt else
      do! act wait Sleep ;;
      quiet_loop tries label empty
  end.

Definition quiet (label : string) : M session unit := quiet_loop 80 label 0.

(** What each program counted, against what was read. *)
Fixpoint gap_accounting (ps : list (string * program)) (first last : list (string * counters)) (es cs : list event)
    (acc : dict) : result dict :=
  match ps with
  | [] => Ok acc
  | (name, p) :: ps =>
      let? before := match aget name first with Some c => Ok c | None => Err (KeyError name) end in
      let? after_ := match aget name last with Some c => Ok c | None => Err (KeyError name) end in
      let? gen := same "gen" before after_ in
      raise_if (negb gen) AssertionError ;;
      let? errors := same "errors" before after_ in
      raise_if (negb errors) AssertionError ;;
      let? safe := same "safe_returns" before after_ in
      raise_if (negb safe) AssertionError ;;
      let? fired := grew "fired" before after_ in
      raise_if (negb (fired =? (if pr_kind p =? 4 then len cs else kind_count (pr_kind p) es))) AssertionError ;;
      gap_accounting ps first last es cs (set name (VInt fired) acc)
  end.

Definition no_losses : dict := [("drops", VInt 0); ("errors", VInt 0); ("selections", VInt 0)].

(** A row that is attributed says what the row of its attempt says. *)
Definition attributed_agrees (rows : list (string * dict)) (row : dict) : result unit :=
  let? status := item "status" row in
  if val_eqb status (VStr "attributed") then
    let? a := item "authority_attempt" row in
    let? expected := match a with
                     | VStr s => match aget s rows with Some r => Ok r | None => Err (KeyError s) end
                     | _ => Err TypeError
                     end in
    let? x := item "actor" row in
    let? y := item "actor" expected in
    raise_if (negb (val_eqb x y)) AssertionError ;;
    let? x := item "operation" row in
    let? y := item "operation" expected in
    raise_if (negb (val_eqb x y)) AssertionError ;; Ok tt
  else Ok tt.

Definition rows_eqb (a b : list dict) : bool := val_eqb (VList (map VDict a)) (VList (map VDict b)).

(** [match] on the window of the session, which it may invalidate. *)
Definition matching (ledger : list dict) (accounting : dict) : M session (list dict) :=
  let! w := ask coverage in
  match w with
  | None => raise AttributeError
  | Some w =>
      let! es := asks events in
      let! cs := ask g_candidates in
      let '(w, rows) := match_window es cs ledger accounting w in
      do! modify (cover (Some w)) ;;
      lift rows
  end.

(** [finish]: the rows of the join; those of the join without the window
    ([legacy_join]) are made too and kept beside them.  The session's part of the ledger, what its clients
    kept and the authority's errors are arguments. *)
Definition finish_session (ledger clients : list dict) (errors : list string) : M session (list dict) :=
  do! quiet "finish" ;;
  let! counter_end := all_stats finish PROGRAMS in
  let! first := asks counter_start in
  let! es := asks events in
  let! cs := ask g_candidates in
  let! accounting := lift (gap_accounting PROGRAMS first counter_end es cs no_losses) in
  do! check ((len clients =? len ledger) && match errors with [] => true | _ => false end) ;;
  let! rows := lift (by_attempt ledger) in
  do! check (len rows =? len ledger) ;;
  do! lift (all_r (client_agrees rows) clients) ;;
  let! ids := identities in
  do! modify (fun x => match coverage x with Some w => cover (Some (close ids w)) x | None => x end) ;;
  let! matched := matching ledger accounting in
  let! again := matching (rev ledger) accounting in
  do! check (rows_eqb matched again) ;;
  do! lift (all_r (attributed_agrees rows) matched) ;;
  let! _ := lift (Correlation.join es cs ledger accounting) in
  do! stop finish gap_detach ;;
  ret matched.
End suites.

(** ** The reconciliation of the four streams *)

Fixpoint fired_of (ps : list (string * program)) (first last : list (string * counters)) (acc : dict) : result dict :=
  match ps with
  | [] => Ok acc
  | (name, _) :: ps =>
      let? before := match aget name first with Some c => Ok c | None => Err (KeyError name) end in
      let? after_ := match aget name last with Some c => Ok c | None => Err (KeyError name) end in
      let? fired := grew "fired" before after_ in
      let? gen := same "gen" before after_ in
      raise_if (negb gen) AssertionError ;;
      let? errors := same "errors" before after_ in
      raise_if (negb errors) AssertionError ;;
      let? safe := same "safe_returns" before after_ in
      raise_if (negb safe) AssertionError ;;
      fired_of ps first last (set name (VInt fired) acc)
  end.

Definition case_in (cases : list string) (c : dict) : result bool :=
  let? v := item "case" c in Ok (existsb (fun k => val_eqb v (VStr k)) cases).

(** The attempts of the clients of some cases. *)
Fixpoint attempts_in_cases (cases : list string) (clients : list dict) : result (list val) :=
  match clients with
  | [] => Ok []
  | c :: clients =>
      let? here := case_in cases c in
      let? found := if here then let? r := item "result" c in let? a := subscript "attempt" r in Ok [a] else Ok [] in
      let? rest := attempts_in_cases cases clients in
      Ok (found ++ rest)
  end.

Definition val_in (v : val) (l : list val) : bool := existsb (val_eqb v) l.

Fixpoint armed_ledger (unarmed : list val) (ledger : list dict) : result (list dict) :=
  match ledger with
  | [] => Ok []
  | r :: ledger =>
      let? a := item "attempt" r in
      let? rest := armed_ledger unarmed ledger in
      Ok (if val_in a unarmed then rest else r :: rest)
  end.

(** [Counter(values) == expected] for texts that are all expected. *)
Definition tally (values : list val) (expected : list (string * Z)) : bool :=
  (len values =? foldr (fun kn n => kn.2 + n) 0 expected) &&
  forallb (fun kn => len (List.filter (fun v => val_eqb v (VStr kn.1)) values) =? kn.2) expected.

(** Two [Counter]s of pairs. *)
Definition pair_eqb (a b : val * val) : bool := val_eqb a.1 b.1 && val_eqb a.2 b.2.
Definition times (x : val * val) (l : list (val * val)) : Z := len (List.filter (pair_eqb x) l).
Definition same_counts (a b : list (val * val)) : bool := forallb (fun x => times x a =? times x b) (a ++ b).

Definition EXCLUDED : list string :=
  ["before-attach"; "after-disarm"; "late-attach"; "missing-init"; "init-restored-existing-connection"; "new-connection-0"].

Fixpoint expected_values (clients : list dict) : result (list (val * val)) :=
  match clients with
  | [] => Ok []
  | c :: clients =>
      let? out := case_in EXCLUDED c in
      let? found := if out then Ok [] else
                      let? r := item "result" c in let? p := subscript "path" r in let? n := item "nonce" c in Ok [(p, n)] in
      let? rest := expected_values clients in
      Ok (found ++ rest)
  end.

Definition terminal (cs : list event) : list event := List.filter (fun c => flags c =? 1) cs.

(** A row that is not unknown names the actor, and when attributed the operation, of its attempt. *)
Definition matched_agrees (rows : list (string * dict)) (row : dict) : result unit :=
  let? status := item "status" row in
  if val_eqb status (VStr "unknown") then Ok tt else
  let? a := item "authority_attempt" row in
  let? m := match a with
            | VStr s => match aget s rows with Some r => Ok r | None => Err (KeyError s) end
            | _ => Err TypeError
            end in
  let? x := item "actor" row in
  let? y := item "actor" m in
  raise_if (negb (val_eqb x y)) AssertionError ;;
  if val_eqb status (VStr "attributed") then
    let? x := item "operation" row in
    let? y := item "operation" m in
    raise_if (negb (val_eqb x y)) AssertionError ;; Ok tt
  else Ok tt.

(** The last terminal candidate of an interval. *)
Definition raw_of (cs : list event) (e : event) : option event :=
  List.find (fun c => (lifetime c =? lifetime e) && (attempt c =? attempt e)) (rev (terminal cs)).

Definition is_done (e : event) : bool := (kind e =? 2) && (value e =? 0).

Definition phase_agrees (cs : list event) (rows : list (string * dict)) (p : life_phase) : result unit :=
  match lp_attempt p with
  | None => Ok tt
  | Some a =>
      if lp_expect_unknown p then Ok tt else
      match List.filter is_done (lp_events p) with
      | [e] =>
          let r := raw_of cs e in
          if String.eqb (lp_name p) "new-connection-0" then
            raise_if (match r with Some _ => true | None => false end) AssertionError ;; Ok tt
          else
            let? expected := match aget a rows with Some r => Ok r | None => Err (KeyError a) end in
            match r with
            | None => Err AssertionError
            | Some r =>
                let? p := item "path" expected in
                let? n := item "nonce" expected in
                raise_if (negb (val_eqb (path r) p && val_eqb (nonce r) n)) AssertionError ;; Ok tt
            end
      | _ => Err AssertionError
      end
  end.

Definition all_unknown (rows : list dict) : result bool :=
  let? l := mapM_r (item "status") rows in Ok (forallb (fun v => val_eqb v (VStr "unknown")) l).

(** The windows that must not match: output or ledger rows missing or repeated, a loss.
    (The window whose first sequence is a boolean has no counterpart: a sequence is an integer here.) *)
Definition negatives (es cs : list event) (ledger : list dict) (accounting : dict)
    : list (list event * list dict * dict) :=
  [(removelast cs, ledger, accounting); (cs, removelast ledger, accounting);
   (cs, ledger ++ ztake 1 ledger, accounting); (cs, ledger, set "drops" (VInt 1) accounting)].

Definition negative_fails (es : list event) (t : list event * list dict * dict) : result unit :=
  let '(cs, rows, accounting) := t in
  let? failed := join es cs rows accounting in
  let? u := all_unknown failed in
  raise_if (negb (negb (bool_decide (length failed = 0%nat)) && u)) AssertionError ;; Ok tt.

Definition corr_reconcile (x : correlation) (counter_end : list (string * counters)) (clients full_ledger : list dict)
    (errors : list string) : result (list dict) :=
  let o := c_base x in
  let es := events o in
  let cs := candidates x in
  let? _ := reconcile o counter_end clients full_ledger errors in
  let? accounting := fired_of PROGRAMS (counter_start o) counter_end [] in
  raise_if (negb (val_eqb (getv "candidate" accounting) (VInt (len cs)))) AssertionError ;;
  let accounting := update no_losses accounting in
  let? unarmed := attempts_in_cases ["before-attach"; "after-disarm"] clients in
  let? ledger := armed_ledger unarmed full_ledger in
  let? rows := join es cs ledger accounting in
  let? again := join es cs (rev ledger) accounting in
  raise_if (negb (rows_eqb rows again)) AssertionError ;;
  let? statuses := mapM_r (item "status") rows in
  raise_if (negb (tally statuses [("attributed", 42); ("rejected", 1); ("unknown", 8)])) AssertionError ;;
  let reasons := map (getv "reason") (List.filter (fun r => val_eqb (getv "status" r) (VStr "unknown")) rows) in
  raise_if (negb (tally reasons [("missing_parser_initialization", 3); ("ambiguous_candidate", 3);
                                 ("unavailable_candidate", 1); ("no_authentication_evidence", 1)])) AssertionError ;;
  let? attempts_ := by_attempt ledger in
  let? expected := expected_values clients in
  raise_if (negb (same_counts (map (fun c => (path c, nonce c)) (terminal cs)) expected)) AssertionError ;;
  let? _ := all_r (matched_agrees attempts_) rows in
  let? _ := all_r (phase_agrees cs attempts_) (life_phases o) in
  let? _ := all_r (negative_fails es) (negatives es cs ledger accounting) in
  Ok rows.
