(* ===== verification/CorrelateSpec.v ===== *)
(** * The windows the suites hand to the join

    A session of the four streams that reconciled is a window the join takes, up to the
    size of its ledger; a gap session whose hook was detached attributes nothing. *)

From S2P Require Import Prelude PyVal Text Assoc Export Authority Joins JoinsSpec Suite Lifetime LifetimeSpec Correlate.

Import Correlation Window.

(** ** Four streams in one sequence *)

Definition threaded (token : Z) (x : correlation) : Prop :=
  run_token (c_base x) = token /\
  checked (events (c_base x)) (active (c_base x)) /\
  in_sequence (run_token (c_base x)) (events (c_base x) ++ candidates x) /\
  stream_sequence x = len (events (c_base x) ++ candidates x).

Definition new_correlation (token : Z) : correlation := Corr (new_observer token) [] 0.

Lemma threaded_new token : threaded token (new_correlation token).
Proof. split_and!; [done|apply checked_nil|by repeat constructor|done]. Qed.

Lemma threaded_quiet token f x : quiet_change f -> threaded token x -> threaded token (put_base (f (base x)) x).
Proof. intros Hq Hw. destruct (Hq (c_base x)) as (E1 & E2 & E3). unfold threaded in *. cbn. by rewrite E1, E2, E3. Qed.

Lemma candidate_of_same allowed n e c :
  candidate_of allowed n e = Ok c -> sequence c = sequence e /\ ev_run c = ev_run e /\ failures c = failures e.
Proof. unfold candidate_of. destruct (ascii_nonce n); [|done]. repeat case_match; try done. by intros [= <-]. Qed.

Section corr.
Variable finish : history -> result reply.
Variable response : history -> result bytes.
Variable saved : history -> result unit.
Variable wait : history -> result unit.
Variable json_loads : string -> result val.
Variables program_dir parent : string.
Variable ring_exists : bool.

Lemma corr_item_keeps token i : keeps_ok (threaded token) (corr_item i).
Proof.
  intros s s' r H (Ht & Hc & Hs & Hn). unfold corr_item, asks in H. unbind H. destruct a4 as [[[magic abi] e] n].
  unbind H. apply modify_ok in Hm as [_ Ho].
  rewrite Ho in Hc3. cbn in Hc2, Hc3. apply andb_prop in Hc2 as [_ Hrun%Z.eqb_eq]. apply andb_prop in Hc3 as [Hseq Hfail].
  apply Z.eqb_eq in Hseq, Hfail. assert (sequence e = len (events (c_base (own s)) ++ candidates (own s)) + 1) as Hseq' by lia.
  apply text_hex_bytes in Hr2. destruct (val_eqb a1 (VInt 8)).
  - unbind H. apply candidate_of_same in Hr4 as (Es & Er & Ef). apply modify_ok in Hm as [_ Hm]. rewrite Hm, Ho.
    split_and!; cbn [c_base candidates stream_sequence]; [done..| |].
    + apply (in_sequence_add _ (events (c_base (own s)) ++ candidates (own s)) _ a8); [done|congruence..|by rewrite app_assoc].
    + rewrite app_assoc. unfold len in *. rewrite length_app. cbn [length]. lia.
  - cbn [read_frame] in Hr3. destruct (life_event a3) as [[[m v] e1]|] eqn:El; [|done]. injection Hr3 as -> -> -> <-.
    apply life_event_fields in El as (Hl & _); [|done]. unbind H. apply slot_matches_kind in Hr3.
    unfold modifies in Hm. apply modify_ok in Hm as [_ Hm]. rewrite Ho in Hm. cbn in Hm.
    assert (exists a', own s2 = put_base (with_stream (events (base (own s1))) a' (base (own s1))) (own s1) /\
      (if kind e =? 1 then a' = {[lifetime e]} ∪ active (base (own s1))
       else if (kind e =? 3) && negb (lifetime e =? 0) then a' = active (base (own s1)) ∖ {[lifetime e]}
       else a' = active (base (own s1)))) as (a' & Ho' & Ha).
    { destruct (kind e =? 1); [|destruct ((kind e =? 3) && negb (lifetime e =? 0))]; unbind Hm0.
      - apply modify_ok in Hm0 as [_ ->]; eauto.
      - destruct (bool_decide _); unbind Hm1. apply modify_ok in Hm0 as [_ ->]; eauto.
      - eexists. split; [|done]. rewrite Hm. done. }
    rewrite Hm in Ha, Ho'. cbn in Ha, Ho'. apply null_stays in Ha as [Hz Hb]. rewrite Ho'.
    split_and!; cbn [c_base candidates stream_sequence events active run_token with_stream].
    + done.
    + by apply (checked_snoc _ (active (c_base (own s)))).
    + apply (in_sequence_add _ (events (c_base (own s)) ++ candidates (own s)) _ e); [done..|]. solve_Permutation.
    + unfold len in *. rewrite !length_app in *. cbn [length]. lia.
Qed.

Lemma corr_drain_keeps token l : keeps_ok (threaded token) (corr_drain finish json_loads l).
Proof.
  unfold corr_drain. apply keeps_ok_bind; [apply keeps_ok_within; keep|]. intros [row transport].
  apply keeps_ok_bind; [apply keeps_ok_within, (within_modifies _ (threaded_quiet token)); done|]. intros _.
  apply keeps_ok_bind; [apply keeps_ok_within; keep|]. intros _.
  induction transport as [|i l' IH]; cbn [corr_items]; [apply keeps_ok_within; keep|].
  apply keeps_ok_bind; [apply corr_item_keeps|]. intros e. apply keeps_ok_bind; [apply IH|]. intros es.
  apply keeps_ok_within. keep.
Qed.

(** A call of the correlation suite. *)
Definition corr_call : call -> M correlation unit :=
  perform finish response wait PROGRAMS
    (start_four finish saved json_loads program_dir parent ring_exists)
    (corr_drain finish json_loads) (detach finish PROGRAMS).

Lemma corr_session_threaded token h cs s' u :
  for_each corr_call cs (St h (new_correlation token)) = (s', Ok u) -> threaded token (own s').
Proof.
  intros E. apply (run_keeps _ _ _ _ _ _ _ (threaded token) (threaded_quiet token)) in E; [done|..|apply threaded_new].
  - unfold start_four. keep; [apply within_start|apply within_attach]; apply threaded_quiet.
  - intros l. apply within_detach, threaded_quiet.
  - apply corr_drain_keeps.
Qed.

Lemma kind_counts k es : kind_count k es = count_kind k es.
Proof.
  unfold kind_count, count_kind. f_equal. induction es as [|e es IH]; [done|]. cbn [List.filter]. rewrite filter_cons.
  destruct (Z.eqb_spec (kind e) k); [rewrite decide_True by done|rewrite decide_False by done]; by rewrite IH.
Qed.

(** Takes a chain of checks that ended well apart. *)
Ltac steps_ok H :=
  repeat match type of H with
  | (match ?x with _ => _ end) = Ok _ => let E := fresh "E" in destruct x eqn:E; [|done]
  | (if ?x then _ else _) = Ok _ => let E := fresh "E" in destruct x eqn:E; [done|]
  end.

(** The counters of the four programs are the numbers of records. *)
Lemma accounting_agrees first last es cs acc :
  counters_agree LIFETIME_PROGRAMS first last es = Ok tt -> fired_of PROGRAMS first last [] = Ok acc ->
  getv "candidate" acc = VInt (len cs) -> accounting_ok es cs (update no_losses acc) = true.
Proof.
  cbn [counters_agree LIFETIME_PROGRAMS fired_of PROGRAMS app pr_kind].
  intros Hc Hf Ha. steps_ok Hc. steps_ok Hf. injection Hf as <-. cbn in Ha. injection Ha as Ha.
  repeat match goal with E : negb (_ =? _) = false |- _ => apply negb_false_iff, Z.eqb_eq in E; subst end.
  unfold accounting_ok. rewrite <- !kind_counts. cbn. by rewrite !Z.eqb_refl.
Qed.

(** C36: the records of a session that reconciled are a window of the join: it takes them when
    the ledger has a row per completed attempt and the records have the shape it asks. *)
Theorem session_window token h cs s' u s acc ledger first last :
  0 < token -> for_each corr_call cs (St h (new_correlation token)) = (s', Ok u) ->
  let o := c_base (own s') in
  intervals (events o) (active o) = Ok s ->
  counters_agree LIFETIME_PROGRAMS first last (events o) = Ok tt -> fired_of PROGRAMS first last [] = Ok acc ->
  getv "candidate" acc = VInt (len (candidates (own s'))) ->
  window_ok (events o) (candidates (own s')) ledger (update no_losses acc) =
    (len ledger =? len (completed (events o))) && forallb well_formed (events o) /\
  (forall e, e ∈ events o -> lifetime e <> 0 -> interval_of (of_life (lifetime e) (events o))) /\
  Forall (fun on => on.1 <> 0 -> reused_after_end (events o) on) (l_reused s).
Proof.
  intros Ht E o Hi Hc Hf Ha. apply corr_session_threaded in E as (Htok & Hck & Hs & _). fold o in Htok, Hck, Hs.
  destruct (intervals_exact _ _ _ (proj1 Hck) Hi) as (Hint & Hre & Hne).
  destruct (intervals_ok _ _ _ Hi) as (Hloop & Hbe & Hz).
  split; [|done]. unfold window_ok. rewrite (accounting_agrees first last) by done. rewrite Htok in Hs.
  assert (events o <> []) as Hev. { intros Hnil. rewrite Hnil in Hloop. by injection Hloop as <-. }
  rewrite (stream_in_sequence token) by (done || by intros [? _]%app_nil). cbn [andb].
  change (Lives ∅ ∅ ∅ ∅) with (view nobody). rewrite (live_steps_agree nobody (events o) s); [|apply Hck|by eapply births_not_null|done].
  destruct (forallb well_formed (events o)); [|by rewrite andb_false_r]. cbn [born ended view]. by rewrite bool_decide_true.
Qed.
End corr.

(** ** A gap in a session *)

(** The window has a reason to say nothing. *)
Definition broken (w : window) : Prop := exists r, reason w = Some r /\ r <> "".

(** The window is not closed, and a reason it has is one. *)
Definition covering (w : window) : Prop := closed w = false /\ (reason w = None \/ broken w).

Inductive gap_call :=
| GCall (c : call)
| GQuiet (label : string).

Section gap.
Variable finish : history -> result reply.
Variable response : history -> result bytes.
Variable saved : history -> result unit.
Variable wait : history -> result unit.
Variable json_loads : string -> result val.
Variables program_dir parent : string.
Variable ring_exists : bool.

(** What the controller of the suite calls between the start and the end of a session. *)
Definition gap_perform (c : gap_call) : M session unit :=
  match c with
  | GCall c => perform finish response wait PROGRAMS (ret tt) (gap_drain finish json_loads) (gap_detach finish) c
  | GQuiet l => quiet finish wait json_loads l
  end.

(** Attributes the drains do not touch. *)
Definition same_cover (x y : session) : Prop := coverage y = coverage x.

#[local] Instance same_cover_preorder : PreOrder same_cover.
Proof. split; unfold same_cover; congruence. Qed.

Lemma same_cover_drain l : within same_cover (gap_drain finish json_loads l).
Proof.
  unfold gap_drain, modifies. keep; [by apply within_modify|].
  induction a1 as [|i l' IH]; cbn [gap_items]; [apply within_ret; apply _|].
  apply within_bind; [apply _| |intros es; apply within_bind; [apply _|apply IH|intros ?; apply within_ret; apply _]].
  unfold gap_item, asks, modifies. keep; by apply within_modify.
Qed.

Lemma same_cover_quiet l : within same_cover (quiet finish wait json_loads l).
Proof.
  unfold quiet. generalize 0. generalize 80%nat as tries. induction tries as [|n IH]; intros e; cbn [quiet_loop]; keep.
  apply same_cover_drain.
Qed.

(** A property of the window alone, which invalidating the window keeps. *)
Section window_property.
Variable P : window -> Prop.
Hypothesis P_invalidate : forall r w, r <> "" -> P w -> P (invalidate r w).

Definition of_window (x : session) : Prop := exists w, coverage x = Some w /\ P w.

Lemma of_window_quiet f x : quiet_change f -> of_window x -> of_window (put_base (f (base x)) x).
Proof. intros _ H. exact H. Qed.

Lemma of_window_cover {A} (m : M session A) : within same_cover m -> keeps_ok of_window m.
Proof. intros Hw s s' a E. specialize (Hw s). rewrite E in Hw. cbn [fst] in Hw. unfold of_window. by rewrite Hw. Qed.

Lemma detached_nonempty l : cat ["hook_detached:"; l] <> "".
Proof. unfold cat. done. Qed.

Lemma of_window_detach l : within (RI of_window) (gap_detach finish l).
Proof.
  unfold gap_detach. apply within_bind; [apply _| |intros _; apply within_detach, of_window_quiet].
  apply within_modify. intros x (w & Hx & Hp). rewrite Hx. destruct (closed w); [by exists w|].
  eexists. split; [done|]. by apply P_invalidate; [apply detached_nonempty|].
Qed.

Lemma gap_calls_keep cs s s' u :
  for_each gap_perform cs s = (s', Ok u) -> of_window (own s) -> of_window (own s').
Proof.
  revert s. induction cs as [|c cs IH]; intros s E Hi; cbn [for_each] in E; [by apply ret_ok in E as [-> _]|].
  apply bind_ok in E as ([] & s1 & E1 & E2). eapply IH; [exact E2|]. revert E1 Hi.
  destruct c as [c|l]; cbn [gap_perform].
  - apply (perform_keeps _ _ _ _ _ _ _ of_window of_window_quiet).
    + apply within_ret. apply _.
    + apply of_window_detach.
    + intros l. apply of_window_cover, same_cover_drain.
  - apply (of_window_cover (quiet finish wait json_loads l)), same_cover_quiet.
Qed.
End window_property.

Lemma broken_invalidate r w : r <> "" -> broken w -> broken (invalidate r w).
Proof. intros _ (r' & Hr & Hn). exists r'. unfold invalidate. cbn [reason]. by rewrite Hr. Qed.

Lemma covering_invalidate r w : r <> "" -> covering w -> covering (invalidate r w).
Proof.
  intros Hr [Hc Hb]. split; [done|]. right. destruct Hb as [Hb|(r' & Hb & Hn)]; unfold invalidate, broken; cbn [reason];
    rewrite Hb; eauto.
Qed.

Lemma invalidate_breaks r w : r <> "" -> (reason w = None \/ broken w) -> broken (invalidate r w).
Proof. intros Hr Hw. unfold broken, invalidate. cbn [reason]. destruct Hw as [->|(r' & -> & Hn)]; eauto. Qed.

Lemma start_covers s s' u :
  gap_start finish saved json_loads program_dir parent ring_exists s = (s', Ok u) -> of_window covering (own s').
Proof.
  unfold gap_start. intros H. unbind H. apply modify_ok in H as [_ ->]. eexists. split; [done|].
  unfold new_window. cbn zeta. destruct (_ || _); (split; [done|]); [right; by eexists|by left].
Qed.

Lemma detach_breaks l s s' u :
  gap_detach finish l s = (s', Ok u) -> of_window covering (own s) -> of_window broken (own s').
Proof.
  unfold gap_detach. intros H (w & Hw & Hc & Hr). apply bind_ok in H as ([] & s1 & E1 & E2).
  apply modify_ok in E1 as [_ E1]. rewrite Hw, Hc in E1.
  pose proof (within_detach finish PROGRAMS (of_window broken) (of_window_quiet broken) l s1) as Hd. rewrite E2 in Hd. apply Hd.
  rewrite E1. eexists. split; [done|]. apply invalidate_breaks; [apply detached_nonempty|done].
Qed.

(** A row that attributes nothing. *)
Definition silent (row : dict) : Prop :=
  getv "status" row = VStr "unknown" /\ getv "actor" row = VNone /\ getv "operation" row = VNone.

Lemma blank_silent r row : silent (blank r row).
Proof. unfold silent, blank, getv. cbn [foldr]. rewrite !get_remove_ne by done. split_and!; by row_get. Qed.

Lemma mapM_r_len {A B} (f : A -> result B) l l' : mapM_r f l = Ok l' -> length l' = length l.
Proof.
  revert l'. induction l as [|a l IH]; intros l' H; cbn [mapM_r] in H; [by injection H as <-|].
  destruct (f a); [|done]. destruct (mapM_r f l); [|done]. injection H as <-. cbn [length]. f_equal. by apply IH.
Qed.

Lemma join_length es cs ledger acc js : join es cs ledger acc = Ok js -> length js = length (completed es).
Proof.
  unfold join. destruct (negb _); [intros [= <-]; by rewrite length_map|]. destruct (existsb _ _); [done|]. apply mapM_r_len.
Qed.

Lemma match_broken es cs ledger acc w w' rows :
  broken w -> match_window es cs ledger acc w = (w', Ok rows) ->
  broken w' /\ Forall silent rows /\ length rows = length (completed es).
Proof.
  unfold match_window. intros Hb. set (w1 := if existsb _ _ then invalidate "changed_run_token" w else w).
  assert (broken w1) as Hb1 by (unfold w1; case_match; [by apply broken_invalidate|done]).
  set (w2 := if _ || _ then invalidate "tracking_capacity" w1 else w1).
  assert (broken w2) as Hb2 by (unfold w2; case_match; [by apply broken_invalidate|done]).
  intros [= <- H]. split; [done|]. destruct (join es cs ledger acc) as [js|] eqn:Ej; [|done].
  destruct Hb2 as ([|c r] & Hr & Hn); [done|]. rewrite Hr in H. injection H as <-. split.
  - apply Forall_map, Forall_forall. intros x _. apply blank_silent.
  - rewrite length_map. by apply join_length in Ej.
Qed.

(** [matching] on a broken window. *)
Lemma matching_broken ledger acc s s' rows :
  matching ledger acc s = (s', Ok rows) -> of_window broken (own s) ->
  of_window broken (own s') /\ Forall silent rows /\ length rows = length (completed (events (g_base (own s)))) /\
  g_base (own s') = g_base (own s).
Proof.
  unfold matching, asks. intros H (w & Hw & Hb). unbind H. rewrite Hw in H. unbind H.
  destruct (match_window _ _ _ _ _) as [w' r] eqn:Em. unbind H. apply modify_ok in Hm as [_ Ho]. rewrite Hr in Em.
  apply match_broken in Em as (Hb' & Hf & Hl); [|done]. rewrite Ho. cbn. split_and!; try done. by exists w'.
Qed.

(** The end of a session leaves the stream as it is. *)
Definition has_events (es : list event) (x : session) : Prop := events (g_base x) = es.

Lemma has_events_quiet es f x : quiet_change f -> has_events es x -> has_events es (put_base (f (base x)) x).
Proof. intros Hq Hx. destruct (Hq (g_base x)) as [E _]. unfold has_events in *. cbn. by rewrite E. Qed.

Lemma has_events_stop es : within (RI (has_events es)) (stop finish (gap_detach finish)).
Proof.
  apply within_stop; [apply has_events_quiet|]. intros l. unfold gap_detach.
  apply within_bind; [apply _| |intros _; apply within_detach, has_events_quiet].
  apply within_modify. intros x Hx. destruct (coverage x) as [w|]; [|done]. by destruct (closed w).
Qed.

Lemma keeps_identities : keeps (identities finish json_loads).
Proof.
  unfold identities. generalize PROGRAMS. intros ps. induction ps as [|[n p] ps IH]; cbn [identities_from]; [keep|].
  apply within_bind; [apply _|unfold identity_instance; keep|]. intros a. apply within_bind; [apply _|apply IH|]. intros b. keep.
Qed.

Lemma keeps_all_stats : keeps (all_stats (X := session) finish PROGRAMS).
Proof.
  unfold all_stats. generalize PROGRAMS. intros ps. induction ps as [|[n p] ps IH]; cbn [stats_from]; keep.
Qed.

Lemma finish_broken ledger clients errors s s' rows :
  finish_session finish wait json_loads ledger clients errors s = (s', Ok rows) -> of_window broken (own s) ->
  Forall silent rows /\ length rows = length (completed (events (g_base (own s')))).
Proof.
  unfold finish_session, asks. intros H Hb. unbind H.
  pose proof (of_window_cover broken _ (same_cover_quiet "finish") _ _ _ Hm Hb) as Hb0. clear Hm Hb.
  apply (keeps_own _ _ _ _ keeps_all_stats) in Hm0. apply (keeps_own _ _ _ _ keeps_identities) in Hm1.
  apply modify_ok in Hm2 as [_ Hm2]. rewrite <- Hm0, <- Hm1 in Hb0. destruct Hb0 as (w & Hw & Hbw). rewrite Hw in Hm2.
  assert (of_window broken (own s3)) as Hb3.
  { rewrite Hm2. eexists. split; [done|]. destruct Hbw as (r & Hr' & Hn). exists r. split; [|done].
    unfold close, invalidate. destruct (_ || _); cbn [reason]; by rewrite ?Hr'. }
  apply matching_broken in Hm3 as (Hb4 & Hsil & Hlen & Hbase); [|done].
  apply matching_broken in Hm4 as (Hb5 & _ & _ & Hbase5); [|done].
  split; [done|]. rewrite Hlen. pose proof (has_events_stop (events (g_base (own s5))) s5 eq_refl) as Hst.
  rewrite Hm5 in Hst. unfold has_events in Hst. cbn [fst] in Hst. by rewrite Hst, Hbase5, Hbase.
Qed.

(** C35: a gap is never attributed.  Take any session of the gap suite: its start, any calls
    of its methods with any traffic between them, a hook detached while the window is
    open, any more calls, and its end.  Whatever the commands answered and whatever the
    ring held, when the session's own checks pass the rows it reports are one for each
    completed request of the stream, and none says an actor or an operation: all are
    unknown, even if the hook was attached again and every record is in order.  (The
    rows of the old join, which the suite keeps beside them to compare, do not look at
    the window.) *)
Theorem detached_window_unknown before label after_ ledger clients errors s s' rows :
  (do! gap_start finish saved json_loads program_dir parent ring_exists ;;
   do! for_each gap_perform before ;;
   do! gap_detach finish label ;;
   do! for_each gap_perform after_ ;;
   finish_session finish wait json_loads ledger clients errors) s = (s', Ok rows) ->
  Forall silent rows /\ length rows = length (completed (events (g_base (own s')))).
Proof.
  intros H. unbind H. eapply finish_broken; [exact H|]. eapply (gap_calls_keep broken); [apply broken_invalidate|exact Hm2|].
  eapply detach_breaks; [exact Hm1|]. eapply (gap_calls_keep covering); [apply covering_invalidate|exact Hm0|].
  by eapply start_covers.
Qed.

End gap.

(** ** Concrete sessions *)

Definition life_wire (e : event) : bytes :=
  le_bytes 4 LIFE_MAGIC ++ le_bytes 4 1 ++
  concat (map (le_bytes 8) [ev_run e; sequence e; lifetime e; attempt e; value e; failures e]) ++
  le_bytes 4 (kind e) ++ le_bytes 4 (flags e).

Definition raw_wire (e : event) (path_code : Z) (nonce_ : bytes) : bytes :=
  le_bytes 4 RAW_MAGIC ++ le_bytes 4 1 ++
  concat (map (le_bytes 8) [ev_run e; sequence e; lifetime e; attempt e; failures e]) ++
  concat (map (le_bytes 4) [flags e; path_code; 64; 0]) ++ nonce_ ++ replicate (32 - length nonce_) 0.

Definition ring_item (slot n : Z) (data : bytes) : val :=
  VDict [("hook", VStr "prog"); ("slot", VInt slot); ("len", VInt n); ("data", VStr (hex data))].

Definition life_item (e : event) : val := ring_item (default 0 (assoc (kind e) SLOT_OF)) 64 (life_wire e).

Definition record (seq_ life k v att fl : Z) : event := Event k v seq_ life att 7 0 fl VNone VNone.

(** A product that has the given items in its ring at the first drain; each of its
    programs then has counted what is said. *)
Section demo.
Variable items : list val.
Variable counted_ : list (string * Z).

Definition is_drain (o : op) : bool := match o with Run argv => bool_decide (argv = DRAIN) | _ => false end.
Definition is_revoke (slot : string) (o : op) : bool :=
  match o with Run argv => bool_decide (argv = ["python3"; "/work/ls-load.py"; "revoke"; slot]) | _ => false end.
Definition drains (h : history) : Z := len (List.filter is_drain h).

Definition demo_finish (h : history) : result reply :=
  match List.last h Sleep with
  | Run argv =>
      if bool_decide (argv = DRAIN) then
        Ok (Reply 0 (if drains h =? 1 then cat (map (fun i => cat [py_str i; newline]) (range (len items))) else "") "0 drop(s) seen")
      else match argv with
           | [_; _; "status"; slot] =>
               Ok (Reply 0 (cat ["OK mode=1 gen=1 fired="; py_str (if drains h =? 0 then 0 else default 0 (aget slot counted_));
                                 " errors=0 safe_returns=0"]) "")
           | [_; _; "config-status"; slot] =>
               Ok (if existsb (is_revoke slot) h then Reply 1 "" "" else Reply 0 "identity" "")
           | _ => Ok (Reply 0 "OK signature=verified" "")
           end
  | _ => Err AssertionError
  end.

Definition demo_loads (s : string) : result val :=
  if String.eqb s "identity" then Ok (VDict [("instance", VStr "aa"); ("revision", VInt 0); ("entries", VInt 1)])
  else match py_int s with
       | Some i => match items !! Z.to_nat i with Some v => Ok v | None => Err (ValueError "no such item") end
       | None => Err (ValueError "not JSON")
       end.
End demo.

Definition done_ {A} (_ : history) (a : A) : result A := Ok a.

(** *** One request, whose hook was detached and attached again afterwards. *)

Definition demo_nonce : string := "0123456789abcdef0123456789abcdef".

Definition gap_ring : list val :=
  [life_item (record 1 11 1 0 0 0);
   ring_item 8 96 (raw_wire (record 2 11 0 0 1 1) 1 (encode demo_nonce));
   life_item (record 3 11 2 0 1 0); life_item (record 4 11 3 0 1 0)].

Definition gap_row : dict :=
  [("attempt", VStr "t1"); ("path", VStr "/mcp"); ("nonce", VStr demo_nonce); ("actor", VStr "agent-A");
   ("auth_evidence", VStr "proof"); ("accepted", VBool true); ("operation", VStr "op-1"); ("body_sha256", VStr "d0")].
Definition gap_client : dict := [("result", VDict gap_row); ("body_sha256", VStr "d0")].

Definition gap_session (middle : M session unit) : state session * result (list dict) :=
  let finish := demo_finish gap_ring [("6", 1); ("5", 1); ("7", 1); ("8", 1)] in
  let loads := demo_loads gap_ring in
  (do! gap_start finish (fun h => done_ h tt) loads "/p" "/r" false ;;
   do! for_each (gap_perform finish (fun h => done_ h []) (fun h => done_ h tt) loads) [GCall (CDrain "first")] ;;
   do! middle ;;
   do! for_each (gap_perform finish (fun h => done_ h []) (fun h => done_ h tt) loads) [GCall (CAttach "init")] ;;
   finish_session finish (fun h => done_ h tt) loads [gap_row] [gap_client] [])
  (St [] (Session (new_observer 7) [] 0 None)).

Definition rows_of {A} (r : result (list A)) : list A := match r with Ok l => l | Err _ => [] end.

(** Without the detach the same session attributes its request. *)
Example whole_session_attributes :
  map (fun row => (getv "status" row, getv "actor" row)) (rows_of (gap_session (ret tt)).2) =
  [(VStr "attributed", VStr "agent-A")].
Proof. vm_compute. reflexivity. Qed.

Lemma detached_window_unknown_witness :
  let finish := demo_finish gap_ring [("6", 1); ("5", 1); ("7", 1); ("8", 1)] in
  let run := gap_session (gap_detach finish "init") in
  map (fun row => getv "reason" row) (rows_of run.2) = [VStr "hook_detached:init"] /\
  Forall silent (rows_of run.2) /\ length (rows_of run.2) = length (completed (events (g_base (own run.1)))).
Proof.
  intros finish run. split; [vm_compute; reflexivity|].
  apply (detached_window_unknown finish (fun h => done_ h []) (fun h => done_ h tt) (fun h => done_ h tt) (demo_loads gap_ring)
           "/p" "/r" false [GCall (CDrain "first")] "init" [GCall (CAttach "init")] [gap_row] [gap_client] []
           (St [] (Session (new_observer 7) [] 0 None)) run.1 (rows_of run.2)).
  vm_compute. reflexivity.
Defined.

(** *** The stream of a whole run: two contexts at one address after the other, of which
    the second was cut short, and three records of contexts born before the observer. *)

Fixpoint numbered (seq_ : Z) (l : list (Z -> event)) : list event :=
  match l with
  | [] => []
  | f :: l => f seq_ :: numbered (seq_ + 1) l
  end.

Definition long_stream : list event :=
  numbered 1
    ([fun q => record q 11 1 0 0 0] ++
     map (fun i q => record q 11 2 0 (i + 1) 0) (range 47) ++
     [fun q => record q 11 3 0 47 0; fun q => record q 12 1 11 0 0] ++
     map (fun _ q => record q 12 2 17 1 0) (range 6) ++
     [fun q => record q 12 2 0 1 0; fun q => record q 12 2 17 2 0; fun q => record q 12 3 0 2 256] ++
     map (fun _ q => record q 0 2 0 0 32) (range 3)).

Definition long_ring : list val :=
  map life_item long_stream ++
  [ring_item 8 96 (raw_wire (record (len long_stream + 1) 12 0 0 1 1) 1 (encode demo_nonce))].

Definition long_session : state correlation * result unit :=
  let finish := demo_finish long_ring [] in
  for_each (corr_call finish (fun h => done_ h []) (fun h => done_ h tt) (fun h => done_ h tt) (demo_loads long_ring) "/p" "/r" false)
    [CStart; CTraffic []; CDrain "all"] (St [] (new_correlation 7)).

Definition long_counters (n : Z) : list (string * counters) :=
  map (fun lk : string * Z => (lk.1, [("fired", n * lk.2); ("gen", 1); ("errors", 0); ("safe_returns", 0)]))
    [("init", 2); ("parse", 58); ("fini", 2); ("candidate", 1)].

Definition ok_or {A} (d : A) (r : result A) : A := match r with Ok a => a | Err _ => d end.

Lemma session_window_witness :
  let es := events (c_base (own long_session.1)) in
  let acc := ok_or [] (fired_of PROGRAMS (long_counters 0) (long_counters 1) []) in
  let s := ok_or nobody (intervals es (active (c_base (own long_session.1)))) in
  l_reused s = [(11, 12)] /\ forallb well_formed es = true /\
  window_ok es (candidates (own long_session.1)) (replicate 51 []) (update no_losses acc) =
    (len (replicate 51 ([] : dict)) =? len (completed es)) && forallb well_formed es /\
  (forall e, e ∈ es -> lifetime e <> 0 -> interval_of (of_life (lifetime e) es)) /\
  Forall (fun on => on.1 <> 0 -> reused_after_end es on) (l_reused s).
Proof.
  intros es acc s. split; [vm_compute; reflexivity|]. split; [vm_compute; reflexivity|].
  apply (session_window (demo_finish long_ring []) (fun h => done_ h []) (fun h => done_ h tt) (fun h => done_ h tt)
           (demo_loads long_ring) "/p" "/r" false 7 [] [CStart; CTraffic []; CDrain "all"] long_session.1 tt s acc
           (replicate 51 []) (long_counters 0) (long_counters 1)).
  - lia.
  - vm_compute. reflexivity.
  - vm_compute. reflexivity.
  - vm_compute. reflexivity.
  - vm_compute. reflexivity.
  - vm_compute. reflexivity.
Defined.
