(* ===== verification/Client.v ===== *)
(** * The traffic client of the fixture (env/ai-traffic/client.py)

    The client's exchanges, its suite of seventeen of them, and the check of what every
    client kept against the origin's ledger.  The network is an oracle over a world of its
    own; the last part makes [Origin] that world.  The workers of a round run one after
    another, one of the orders of the thread pool. *)

From S2P Require Import Prelude PyVal Decimal Text Assoc Hex Authority Json Origin Suite.

(** ** What an exchange is *)

(** An answer: a body is its lines, each with the time it was read. *)
Record response := Response {
  r_status : Z; r_headers : list (string * string); r_lines : list (bytes * Z);
  r_started : Z; r_wall : Z; r_ended : Z }.

(** [response.getheader(name)]. *)
Definition getheader (r : response) (name : string) : option string :=
  option_map snd (List.find (fun kv => String.eqb (lower kv.1) (lower name)) (r_headers r)).

Record worker (W : Type) := Worker { world : W; w_seq : Z; w_records : list dict }.
Arguments Worker {W} _ _ _.
Arguments world {W} _.
Arguments w_seq {W} _.
Arguments w_records {W} _.

(** ** Subscripts of a parsed answer *)

Inductive key := K (s : string) | I (i : Z).

Definition element (v : val) (i : Z) : result val :=
  match v with
  | VList l => at_index l (if i <? 0 then i + len l else i)
  | VDict _ => Err (KeyError (py_str i))
  | _ => Err TypeError
  end.

Fixpoint getitems (ks : list key) (v : val) : result val :=
  match ks with
  | [] => Ok v
  | K s :: ks => let? v := subscript s v in getitems ks v
  | I i :: ks => let? v := element v i in getitems ks v
  end.

Definition text_at (ks : list key) (v : val) (s : string) : result bool :=
  let? x := getitems ks v in Ok (val_eqb x (VStr s)).

(** [line[6:].strip()]. *)
Definition data_text (line : bytes) : bytes := map ord (strip (map chr (zdrop 6 line))).

Section client.
Variable W : Type.
Variable send : W -> request -> W * result response.
Variable sha256 : bytes -> string.
Variable json_loads : bytes -> result val.
(** The run, the name of the worker, and the random identifier of the message. *)
Variables run worker_name message_id : string.

Abbreviation Cl := (M (worker W)).

Definition exchange (q : request) : Cl response :=
  fun s => let '(w, r) := send (world (own s)) q in (St (hist s) (Worker w (w_seq (own s)) (w_records (own s))), r).

(** The parsed data lines of a stream and the times they arrived at. *)
Fixpoint stream_events (started : Z) (lines : list (bytes * Z)) : result (list val * list Z) :=
  match lines with
  | [] => Ok ([], [])
  | (line, t) :: lines =>
      if is_prefix (encode "data: ") line then
        let text := data_text line in
        let? v := if bytes_eqb text (encode "[DONE]") then Ok (VStr "[DONE]") else json_loads text in
        let? (vs, ts) := stream_events started lines in
        Ok (v :: vs, (t - started) :: ts)
      else stream_events started lines
  end.

Definition request_id (seq_ : Z) : string := cat [run; "-"; worker_name; "-"; py_str seq_].

Definition request_headers (rid operation : string) (session : option string) : list (string * string) :=
  [("Content-Type", "application/json"); ("Accept", "application/json, text/event-stream");
   ("X-Run-Id", run); ("X-Request-Id", rid); ("X-Operation-Id", operation)] ++
  match session with
  | Some (String _ _ as s) => [("Mcp-Session-Id", s); ("MCP-Protocol-Version", "2025-03-26")]
  | _ => []
  end.

(** The options of a request. *)
Record options := Options { o_session : option string; o_stream : bool; o_status : Z; o_operation : option string }.
Definition plain_options : options := Options None false 200 None.
Definition with_session (s : option string) : options := Options s false 200 None.

Definition starts_opt (p : string) (s : option string) : result bool :=
  match s with Some s => Ok (starts_with p s) | None => Err AttributeError end.

Definition opt_eqb (a : option string) (s : string) : bool := match a with Some x => String.eqb x s | None => false end.

Definition or_string (o : option string) (d : string) : string :=
  match o with Some (String _ _ as s) => s | _ => d end.

Definition client_row (rid operation path : string) (r : response) (raw body : bytes) (arrivals : list Z) : dict :=
  [("witness", VStr "client"); ("event", VStr "response_received"); ("run_id", VStr run); ("request_id", VStr rid);
   ("operation_id", VStr operation); ("path", VStr path); ("time_ns", VInt (r_wall r));
   ("elapsed_ns", VInt (r_ended r - r_started r)); ("status", VInt (r_status r));
   ("request_bytes", VInt (len raw)); ("request_sha256", VStr (sha256 raw));
   ("response_bytes", VInt (len body)); ("response_sha256", VStr (sha256 body));
   ("stream_events", VInt (len arrivals)); ("event_arrival_ns", VList (map VInt arrivals))].

(** The value of an answer and the arrivals of its events. *)
Definition answer_of (stream : bool) (r : response) (body : bytes) : result (val * list Z) :=
  if stream then
    let? sse := starts_opt "text/event-stream" (getheader r "Content-Type") in
    raise_if (negb sse) AssertionError ;;
    let? (vs, ts) := stream_events (r_started r) (r_lines r) in
    raise_if (negb (3 <=? len ts)) AssertionError ;;
    raise_if (negb (150000000 <=? List.last ts 0 - List.hd 0 ts)) AssertionError ;;
    Ok (VList vs, ts)
  else
    let? v := match body with [] => Ok VNone | _ => json_loads body end in
    Ok (v, []).

Definition keep_record (row : dict) : Cl unit :=
  modify (fun w => Worker (world w) (w_seq w) (w_records w ++ [row])).

Definition request_ (path : string) (data : option val) (o : options) : Cl (val * option string) :=
  do! modify (fun w => Worker (world w) (w_seq w + 1) (w_records w)) ;;
  let! n := ask w_seq in
  let rid := request_id n in
  let operation := or_string (o_operation o) rid in
  let raw := match data with Some v => dumps v | None => [] end in
  let length_ := match data with Some _ => [("Content-Length", py_str (len raw))] | None => [] end in
  let! r := exchange (Request (match data with None => "GET" | Some _ => "POST" end) path
                        (request_headers rid operation (o_session o) ++ length_) raw "") in
  do! check (r_status r =? o_status o) ;;
  do! check (opt_eqb (getheader r "X-Request-Id") rid) ;;
  let body := concat (map fst (r_lines r)) in
  let! (value, arrivals) := lift (answer_of (o_stream o) r body) in
  do! (match data with
       | Some _ => keep_record (client_row rid operation path r raw body arrivals)
       | None => ret tt
       end) ;;
  ret (value, getheader r "Mcp-Session-Id").

(** Every answer of an RPC has its identifier. *)
Definition same_id (id : Z) (v : val) : result bool := let? x := subscript "id" v in Ok (val_eqb x (VInt id)).

Fixpoint all_ids (id : Z) (l : list val) : result bool :=
  match l with
  | [] => Ok true
  | v :: l => let? b := same_id id v in if b then all_ids id l else Ok false
  end.

Definition rpc_checks (stream : bool) (id : Z) (v : val) : result bool :=
  if stream then let? l := py_iter v in all_ids id l
  else let? a := same_id id v in
       if a then text_at [K "jsonrpc"] v "2.0" else Ok false.

Definition rpc (path method : string) (params : dict) (o : options) : Cl (val * option string) :=
  let! n := ask w_seq in
  let data := VDict [("jsonrpc", VStr "2.0"); ("id", VInt (n + 1)); ("method", VStr method); ("params", VDict params)] in
  let! (v, session) := request_ path (Some data) o in
  let! ok := lift (rpc_checks (o_stream o) (n + 1) v) in
  do! check ok ;;
  ret (v, session).

Definition holds (r : result bool) : Cl unit := let! b := lift r in check b.
Definition is_value (ks : list key) (v x : val) : result bool := let? y := getitems ks v in Ok (val_eqb y x).

(** [not v[...]] and [v[...]] as conditions. *)
Definition truth_at (ks : list key) (v : val) : result bool := let? y := getitems ks v in Ok (truthy y).

(** ** [suite] *)

Definition mcp_part (text : string) : Cl unit :=
  let! (init, sid) := rpc "/mcp" "initialize"
    [("protocolVersion", VStr "2025-03-26"); ("capabilities", VDict []);
     ("clientInfo", VDict [("name", VStr "traffic-jig"); ("version", VStr "1")])] plain_options in
  do! check (match sid with Some (String _ _) => true | _ => false end) ;;
  do! holds (text_at [K "result"; K "serverInfo"; K "name"] init "traffic-jig") ;;
  do! request_ "/mcp" (Some (VDict [("jsonrpc", VStr "2.0"); ("method", VStr "notifications/initialized")]))
        (Options sid false 202 None) ;;
  let! (tools, _) := rpc "/mcp" "tools/list" [] (with_session sid) in
  do! holds (text_at [K "result"; K "tools"; I 0; K "name"] tools "echo") ;;
  let! (tool, _) := rpc "/mcp" "tools/call" [("name", VStr "echo"); ("arguments", VDict [("text", VStr text)])] (with_session sid) in
  do! holds (text_at [K "result"; K "content"; I 0; K "text"] tool text) ;;
  do! holds (let? e := truth_at [K "result"; K "isError"] tool in Ok (negb e)) ;;
  let! (resource, _) := rpc "/mcp" "resources/read" [("uri", VStr "fixture://context")] (with_session sid) in
  do! holds (text_at [K "result"; K "contents"; I 0; K "text"] resource "synthetic context") ;;
  let! (tool, _) := rpc "/mcp" "tools/call" [("name", VStr "missing")] (with_session sid) in
  do! holds (truth_at [K "result"; K "isError"] tool) ;;
  let! (error, _) := rpc "/mcp" "unknown/method" [] (with_session sid) in
  do! holds (is_value [K "error"; K "code"] error (VInt (-32601))) ;;
  let! (error, _) := rpc "/mcp" "tools/list" [] (Options (Some "invalid") false 404 None) in
  holds (is_value [K "error"; K "code"] error (VInt (-32001))).

Definition a2a_part (text : string) : Cl unit :=
  let message := [("message", VDict [("messageId", VStr message_id); ("role", VStr "user");
                                     ("parts", VList [VDict [("text", VStr text)]])])] in
  let! (r, _) := rpc "/a2a" "SendMessage" message plain_options in
  let! task := lift (getitems [K "result"; K "task"] r) in
  do! holds (text_at [K "status"; K "state"] task "working") ;;
  let! id := lift (subscript "id" task) in
  let! (r, _) := rpc "/a2a" "GetTask" [("id", id)] plain_options in
  let! context := lift (subscript "contextId" task) in
  do! holds (is_value [K "result"; K "contextId"] r context) ;;
  let! (r, _) := rpc "/a2a" "CancelTask" [("id", id)] plain_options in
  do! holds (text_at [K "result"; K "status"; K "state"] r "canceled") ;;
  let! (r, _) := rpc "/a2a" "GetTask" [("id", id)] plain_options in
  do! holds (text_at [K "result"; K "status"; K "state"] r "canceled") ;;
  let! (events, _) := rpc "/a2a" "SendStreamingMessage" message (Options None true 200 None) in
  let! l := lift (py_iter events) in
  do! check (len l =? 3) ;;
  do! holds (truth_at [I (-1); K "result"; K "statusUpdate"; K "final"] events) ;;
  do! holds (text_at [I 1; K "result"; K "artifactUpdate"; K "artifact"; K "parts"; I 0; K "text"] events "synthetic answer") ;;
  let! first := lift (getitems [I 0; K "result"; K "task"; K "id"] events) in
  holds (is_value [I (-1); K "result"; K "statusUpdate"; K "taskId"] events first).

(** [e["choices"][0]["delta"].get("content", "")] of every event but the last, joined. *)
Fixpoint joined (l : list val) : result string :=
  match l with
  | [] => Ok ""
  | e :: l =>
      let? d := getitems [K "choices"; I 0; K "delta"] e in
      match d with
      | VDict d =>
          match default (VStr "") (get "content" d) with
          | VStr s => let? rest := joined l in Ok (cat [s; rest])
          | _ => Err TypeError
          end
      | _ => Err AttributeError
      end
  end.

Definition inference_part (text : string) : Cl unit :=
  let chat := [("model", VStr "fixture-model"); ("messages", VList [VDict [("role", VStr "user"); ("content", VStr text)]])] in
  let path := "/v1/chat/completions" in
  let! (r, _) := request_ path (Some (VDict chat)) plain_options in
  do! holds (text_at [K "choices"; I 0; K "message"; K "content"] r "synthetic answer") ;;
  let! (events, _) := request_ path (Some (VDict (chat ++ [("stream", VBool true)]))) (Options None true 200 None) in
  let! l := lift (py_iter events) in
  do! check (len l =? 4) ;;
  do! holds (text_at [I (-1)] events "[DONE]") ;;
  let! s := lift (joined (removelast l)) in
  do! check (String.eqb s "synthetic answer") ;;
  let operation := Some (cat [run; "-"; worker_name; "-retry"]) in
  let once := VDict (chat ++ [("fixture_fail_once", VBool true)]) in
  let! (r, _) := request_ path (Some once) (Options None false 503 operation) in
  do! holds (text_at [K "error"; K "type"] r "fixture_overload") ;;
  let! (r, _) := request_ path (Some once) (Options None false 200 operation) in
  holds (text_at [K "choices"; I 0; K "finish_reason"] r "stop").

Definition suite : Cl (list dict) :=
  let text := cat ["synthetic input worker "; worker_name] in
  do! mcp_part text ;;
  do! a2a_part text ;;
  do! inference_part text ;;
  let! rows := ask w_records in
  do! check (len rows =? 17) ;;
  ret rows.
End client.

(** ** [main] *)

(** [[r for r in ledger["events"] if r["event"] == name]]. *)
Fixpoint rows_with (name : string) (ledger : list dict) : result (list dict) :=
  match ledger with
  | [] => Ok []
  | r :: l => let? v := item "event" r in
              let? rows := rows_with name l in
              Ok (if val_eqb v (VStr name) then r :: rows else rows)
  end.

Definition text_key (k : string) (r : dict) : result string :=
  let? v := item k r in match v with VStr s => Ok s | _ => Err TypeError end.

(** A dict of rows by their request: the later of two rows wins. *)
Definition by_request (rows : list dict) : result (list (string * dict)) :=
  let? kv := mapM_r (fun r => let? k := text_key "request_id" r in Ok (k, r)) rows in
  Ok (fold_left (fun d x => aset x.1 x.2 d) kv []).

Fixpoint same_fields (ks : list string) (a b : dict) : result unit :=
  match ks with
  | [] => Ok tt
  | k :: ks =>
      let? x := item k a in
      let? y := item k b in
      raise_if (negb (val_eqb x y)) AssertionError ;; same_fields ks a b
  end.

Definition START_FIELDS : list string := ["operation_id"; "path"; "request_bytes"; "request_sha256"].
Definition END_FIELDS : list string := ["status"; "response_bytes"; "response_sha256"].

Definition check_record (received finished : list (string * dict)) (row : dict) : result unit :=
  let? k := text_key "request_id" row in
  let? s := match aget k received with Some r => Ok r | None => Err (KeyError k) end in
  let? e := match aget k finished with Some r => Ok r | None => Err (KeyError k) end in
  let? _ := same_fields START_FIELDS row s in
  same_fields END_FIELDS row e.

Fixpoint check_records (received finished : list (string * dict)) (rows : list dict) : result unit :=
  match rows with
  | [] => Ok tt
  | r :: rows => let? _ := check_record received finished r in check_records received finished rows
  end.

(** The checks after the loop, on the last ledger read and its completions. *)
Definition check_ledger (records ledger completed : list dict) : result (list dict) :=
  let? starts := rows_with "request_received" ledger in
  raise_if (negb ((len starts =? len completed) && (len completed =? len records))) AssertionError ;;
  let? received := by_request starts in
  let? finished := by_request completed in
  raise_if (negb ((len received =? len finished) && (len finished =? len records))) AssertionError ;;
  let? _ := check_records received finished records in
  Ok starts.

Section main.
Variable W : Type.
Variable send : W -> request -> W * result response.
Variable sha256 : bytes -> string.
Variable json_loads : bytes -> result val.
Variable run : string.
(** The message identifier a worker draws. *)
Variable uuid : string -> string.

(** The suites of some workers, one after the other: each a client of its own. *)
Fixpoint rounds (w : W) (names : list string) : W * result (list dict) :=
  match names with
  | [] => (w, Ok [])
  | name :: names =>
      match suite W send sha256 json_loads run name (uuid name) (St [] (Worker w 0 [])) with
      | (s, Err e) => (world (own s), Err e)
      | (s, Ok rows) => let '(w, r) := rounds (world (own s)) names in
                        (w, let? l := r in Ok (rows ++ l))
      end
  end.

Definition worker_names (rounds workers : nat) : list string :=
  flat_map (fun t => map (fun i => cat [pretty t; "-"; pretty i]) (seq 0 workers)) (seq 0 rounds).

Definition read_ledger : M (worker W) (list dict) :=
  let! (ledger, _) := request_ W send sha256 json_loads run "ledger"
                        (cat ["/_fixture/events?run="; run]) None plain_options in
  let! events := lift (let? v := getitems [K "events"] ledger in py_iter v) in
  lift (mapM_r as_dict events).

(** At most twenty readings; the last one counts. *)
Fixpoint poll (tries : nat) (expected : Z) (last : list dict * list dict) : M (worker W) (list dict * list dict) :=
  match tries with
  | O => ret last
  | S tries =>
      let! ledger := read_ledger in
      let! completed := lift (rows_with "response_complete" ledger) in
      if expected <=? len completed then ret (ledger, completed)
      else poll tries expected (ledger, completed)
  end.

(** What [main] has at its end: the records, and the ledger's starts and completions. *)
Definition main (w : W) (names : list string) : W * result (list dict * list dict * list dict) :=
  match rounds w names with
  | (w, Err e) => (w, Err e)
  | (w, Ok records) =>
      let '(s, r) := poll 20 (len records) ([], []) (St [] (Worker w 0 [])) in
      (world (own s),
       let? (ledger, completed) := r in
       let? starts := check_ledger records ledger completed in
       Ok (records, starts, completed))
  end.

(** The counts of the PASS row. *)
Definition pass_counts (records : list dict) : Z * Z :=
  (len records, len (List.filter (fun r => truthy (getv "stream_events" r)) records)).
End main.

(** ** The origin as the network

    One connection at a time is served to its end; a tick of the clocks passes between
    steps, and the origin sleeps 200 ms between the events of a stream. *)

Record net := Net { served : origin; ticks : Z }.

(** The data of a chunk. *)
Fixpoint chunk_data (digits : list ascii) (b : bytes) : bytes :=
  match b with
  | 13 :: 10 :: data =>
      match py_int16 (list_str (rev digits)) with Some n => ztake n data | None => [] end
  | x :: b => chunk_data (chr x :: digits) b
  | [] => []
  end.

(** The lines of a body, each kept with its newline. *)
Fixpoint lines_of (line : bytes) (b : bytes) : list bytes :=
  match b with
  | [] => match line with [] => [] | _ => [rev line] end
  | x :: b => if x =? 10 then rev (x :: line) :: lines_of [] b else lines_of (x :: line) b
  end.

Definition with_output (r : response) (t : Z) (out : output) : response :=
  match out with
  | Origin.Reply status hs body =>
      Response status hs (map (fun l => (l, t)) (lines_of [] body)) (r_started r) (r_wall r) t
  | Head status hs => Response status hs [] (r_started r) (r_wall r) t
  | Chunk b => Response (r_status r) (r_headers r)
                 (r_lines r ++ map (fun l => (l, t)) (lines_of [] (chunk_data [] b))) (r_started r) (r_wall r) t
  | _ => r
  end.

Section origin_send.
Variable sha256 : bytes -> string.
Variable json_loads : bytes -> result val.
Variable str_exc : exn -> string.
Variable uuid : Z -> string.

Fixpoint serve (fuel : nat) (n : net) (r : response) : net * result response :=
  match fuel with
  | O => (n, Err (OSError "timed out"))
  | S fuel =>
      match conns (served n) !! 0%nat with
      | None => (n, Ok r)
      | Some _ =>
          let t := ticks n + 200000000 in
          let '(o, outs) := step sha256 json_loads str_exc (served n)
                              (Proceed 0 (t, t) (uuid (2 * t)) (uuid (2 * t + 1))) in
          serve fuel (Net o t) (fold_left (fun r out => with_output r t out) outs r)
      end
  end.

Definition origin_send (n : net) (q : request) : net * result response :=
  let t := ticks n + 1 in
  let '(o, _) := step sha256 json_loads str_exc (served n) (Receive 0 q (t, t)) in
  serve 16 (Net o t) (Response 0 [] [] t t t).
End origin_send.
