(* ===== verification/ClientSpec.v ===== *)
(** * What a run of the traffic client establishes

    The requests of a suite are numbered from one, and a run that [main] ends accounts for
    every one of them, once, on both sides; the suite of a worker passes against [Origin]. *)

From S2P Require Import Prelude PyVal Decimal Text Assoc Hex Authority Json Origin Suite Client.

Section numbered.
Context {W : Type}.
Variables run name : string.

Definition request_ids (n : Z) : list string := map (request_id run name) (seqZ 1 n).

(** Every request so far was recorded. *)
Definition numbered (w : worker W) : Prop :=
  0 <= w_seq w /\ map (item "request_id") (w_records w) = map (fun s => Ok (VStr s)) (request_ids (w_seq w)).

(** A method that ends well leaves [P] if it found it. *)
Definition ends (P : worker W -> Prop) {A} (m : M (worker W) A) : Prop :=
  forall s s' a, m s = (s', Ok a) -> P (own s) -> P (own s').

Lemma ends_bind P {A B} (m : M (worker W) A) (f : A -> M (worker W) B) :
  ends P m -> (forall a, ends P (f a)) -> ends P (bind m f).
Proof. intros Hm Hf s s' b H. apply bind_ok in H as (a & s1 & H1 & H2). intros H. eapply Hf; [exact H2|]. by eapply Hm. Qed.

Lemma ends_ret P {A} (a : A) : ends P (ret a). Proof. by intros s s' b [= <- _]. Qed.
Lemma ends_lift P {A} (r : result A) : ends P (lift r). Proof. by intros s s' b [= <- _]. Qed.
Lemma ends_ask P {A} (f : worker W -> A) : ends P (ask f). Proof. by intros s s' b [= <- _]. Qed.
Lemma ends_check P b : ends P (check b). Proof. intros s s' u H. by apply check_ok in H as [-> _]. Qed.
Variable send : W -> request -> W * result response.
Variable sha256 : bytes -> string.
Variable json_loads : bytes -> result val.

Lemma exchange_keeps q s s' (r : result response) : exchange W send q s = (s', r) ->
  w_seq (own s') = w_seq (own s) /\ w_records (own s') = w_records (own s).
Proof. unfold exchange. destruct (send (world (own s)) q) as [w x]. by intros [= <- _]. Qed.

Lemma request_ids_snoc n : 0 <= n -> request_ids (n + 1) = request_ids n ++ [request_id run name (n + 1)].
Proof.
  intros Hn. unfold request_ids. replace (n + 1) with (n + Z.of_nat 1) at 1 by lia.
  rewrite seqZ_app by lia. rewrite map_app. change (Z.of_nat 1) with 1. by rewrite (Z.add_comm 1 n).
Qed.

(** A request with a body is recorded under the next number. *)
Lemma ends_request path v o : ends numbered (request_ W send sha256 json_loads run name path (Some v) o).
Proof.
  intros s s' a H [H0 Hn]. unfold request_ in H. unbind H.
  destruct a4 as [value arrivals]. unfold keep_record in H. unbind H.
  apply modify_ok in Hm as [_ Hm]. apply exchange_keeps in Hm0 as [Hq Hk]. apply modify_ok in Hm1 as [_ ->].
  rewrite Hm in *. cbn [w_seq w_records] in *.
  unfold numbered. cbn [w_seq w_records]. rewrite Hq, Hk. split; [lia|].
  rewrite map_app, Hn, request_ids_snoc, map_app by done. reflexivity.
Qed.
Ltac ending :=
  lazymatch goal with
  | |- forall _, _ => intros ?; cbv beta; ending
  | |- ends _ (bind _ _) => apply ends_bind; [ending|intros ?; cbv beta; ending]
  | |- ends _ (ret _) => apply ends_ret
  | |- ends _ (lift _) => apply ends_lift
  | |- ends _ (ask _) => apply ends_ask
  | |- ends _ (check _) => apply ends_check
  | |- ends _ (holds _ _) => unfold holds; ending
  | |- ends _ (request_ _ _ _ _ _ _ _ (Some _) _) => apply ends_request
  | |- ends _ (match ?x with _ => _ end) => destruct x; ending
  | |- _ => idtac
  end.

Lemma ends_rpc path method params o : ends numbered (rpc W send sha256 json_loads run name path method params o).
Proof. unfold rpc. ending. Qed.

Variable message_id : string.

Lemma ends_parts text :
  ends numbered (mcp_part W send sha256 json_loads run name text) /\
  ends numbered (a2a_part W send sha256 json_loads run name message_id text) /\
  ends numbered (inference_part W send sha256 json_loads run name text).
Proof.
  split_and!; unfold mcp_part, a2a_part, inference_part; cbv zeta;
    repeat (ending; first [apply ends_rpc|idtac]).
Qed.

Lemma suite_numbered w s rows :
  suite W send sha256 json_loads run name message_id (St [] (Worker w 0 [])) = (s, Ok rows) ->
  map (item "request_id") rows = map (fun s => Ok (VStr s)) (request_ids 17).
Proof.
  unfold suite. intros H. unbind H. destruct (ends_parts (cat ["synthetic input worker "; name])) as (H1 & H2 & H3).
  apply H1 in Hm. apply H2 in Hm0. apply H3 in Hm1. destruct (Hm1 (Hm0 (Hm (conj (Z.le_refl 0) eq_refl)))) as [Hp Hn]. rewrite Hn. apply Z.eqb_eq in Hc. unfold len in Hc.
  apply (f_equal length) in Hn. rewrite !length_map in Hn. unfold request_ids in Hn.
  rewrite length_map, length_seqZ in Hn. by replace (w_seq (own s2)) with 17 by lia.
Qed.
End numbered.

(** *** The ledger *)

Lemma aset_fresh {A} (k : string) (a : A) d : k ∉ keys d -> aset k a d = d ++ [(k, a)].
Proof.
  unfold keys. induction d as [|[k' b] d IH]; cbn [aset map fst app]; [done|]. intros H.
  rewrite decide_False by (intros ->; apply H; left). f_equal. apply IH. intros ?. apply H. by right.
Qed.

(** An index with as many keys as there were rows has them all, once each. *)
Lemma fold_aset_full {A} (kv : list (string * A)) : forall d, NoDup (keys d) ->
  len (fold_left (fun d x => aset x.1 x.2 d) kv d) <= len d + len kv /\
  (len (fold_left (fun d x => aset x.1 x.2 d) kv d) = len d + len kv ->
   fold_left (fun d x => aset x.1 x.2 d) kv d = d ++ kv /\ NoDup (keys (d ++ kv))).
Proof.
  induction kv as [|[k a] kv IH]; intros d Hd; cbn [fold_left fst snd].
  - rewrite app_nil_r. change (len (@nil (string * A))) with 0. split; [lia|done].
  - destruct (IH (aset k a d) (nodup_aset k a d Hd)) as [Hle He]. rewrite len_cons.
    destruct (keys_aset k a d) as [Hk|[Hk Hn]].
    + apply (f_equal length) in Hk. unfold keys in Hk. rewrite !length_map in Hk. unfold len in *. split; lia.
    + assert (len (aset k a d) = len d + 1) as Hl.
      { apply (f_equal length) in Hk. unfold keys in Hk. rewrite length_app, !length_map in Hk. cbn in Hk. unfold len. lia. }
      split; [lia|]. intros Hs. destruct He as [He Hd']; [lia|]. rewrite (aset_fresh k a d Hn) in *.
      rewrite <- app_assoc in He. rewrite <- app_assoc in Hd'. split; [exact He|exact Hd'].

Qed.

Definition ids_of (rows : list dict) : list (result string) := map (text_key "request_id") rows.

Lemma by_request_full rows d : by_request rows = Ok d -> len d = len rows ->
  NoDup (keys d) /\ ids_of rows = map Ok (keys d) /\ map snd d = rows.
Proof.
  unfold by_request. destruct (mapM_r _ rows) as [kv|] eqn:E; [|done]. intros [= <-].
  assert (ids_of rows = map Ok (keys kv) /\ map snd kv = rows) as [Hi Hs].
  { revert kv E. induction rows as [|r rows IH]; cbn [mapM_r]; [by intros ? [= <-]|]. intros kv.
    destruct (text_key "request_id" r) as [k|] eqn:Ek; [|done]. cbn.
    destruct (mapM_r _ rows) as [kv'|]; [|done]. intros [= <-]. destruct (IH kv' eq_refl) as [H1 H2].
    unfold ids_of, keys in *. cbn [map fst snd]. by rewrite Ek, H1, H2. }
  intros Hl. destruct (fold_aset_full kv [] NoDup_nil_2) as [_ H]. cbn [app] in H.
  destruct H as [-> Hd]; [|done]. rewrite Hl, <- Hs. unfold len. by rewrite length_map.
Qed.

(** Two rows agree on some fields. *)
Definition agreeing (ks : list string) (a b : dict) : Prop :=
  Forall (fun k => exists x y, item k a = Ok x /\ item k b = Ok y /\ val_eqb x y = true) ks.

Lemma same_fields_agree ks a b u : same_fields ks a b = Ok u -> agreeing ks a b.
Proof.
  unfold agreeing. induction ks as [|k ks IH]; cbn [same_fields]; [constructor|].
  destruct (item k a) as [x|] eqn:Ea; [|done]. destruct (item k b) as [y|] eqn:Eb; [|done]. cbn.
  destruct (val_eqb x y) eqn:E; [|done]. cbn. intros H. constructor; [eauto|by apply IH].
Qed.

(** A record and its two rows of the ledger. *)
Definition accounted (starts completed : list dict) (row : dict) : Prop :=
  exists k s e, text_key "request_id" row = Ok k /\ s ∈ starts /\ e ∈ completed /\
    text_key "request_id" s = Ok k /\ text_key "request_id" e = Ok k /\
    agreeing START_FIELDS row s /\ agreeing END_FIELDS row e.

Lemma indexed_in rows d k r : by_request rows = Ok d -> len d = len rows -> aget k d = Some r ->
  k ∈ keys d /\ r ∈ rows /\ text_key "request_id" r = Ok k.
Proof.
  intros H Hl Hg%aget_in. destruct (by_request_full _ _ H Hl) as (_ & Hi & <-).
  assert (k ∈ keys d) as Hk by (apply list_elem_of_fmap; by exists (k, r)).
  split_and!; [done|apply list_elem_of_fmap; by exists (k, r)|].
  apply list_elem_of_lookup in Hg as [i Hg]. unfold ids_of, keys in Hi. rewrite !map_map in Hi.
  apply (f_equal (fun l => l !! i)) in Hi. rewrite !list_lookup_fmap, Hg in Hi. by injection Hi.
Qed.

Lemma check_records_ok starts completed received finished rows u :
  by_request starts = Ok received -> len received = len starts ->
  by_request completed = Ok finished -> len finished = len completed ->
  check_records received finished rows = Ok u ->
  Forall (accounted starts completed) rows /\
  Forall (fun r => exists k, text_key "request_id" r = Ok k /\ k ∈ keys received /\ k ∈ keys finished) rows.
Proof.
  intros Hs Hsl He Hel. induction rows as [|r rows IH]; cbn [check_records]; [by split; constructor|].
  unfold check_record at 1. destruct (text_key "request_id" r) as [k|] eqn:Ek; [|done]. cbn -[same_fields].
  destruct (aget k received) as [s|] eqn:Es; [|done]. destruct (aget k finished) as [e|] eqn:Ee; [|done]. cbn -[same_fields].
  destruct (same_fields START_FIELDS r s) as [u1|] eqn:E1; [|done]. cbn -[same_fields].
  destruct (same_fields END_FIELDS r e) as [u2|] eqn:E2; [|done]. cbn -[same_fields]. intros H. destruct (IH H) as [H1 H2].
  destruct (indexed_in _ _ _ _ Hs Hsl Es) as (Hk1 & Hi1 & Ht1). destruct (indexed_in _ _ _ _ He Hel Ee) as (Hk2 & Hi2 & Ht2).
  split; constructor; eauto. exists k, s, e. split_and!; try done; by eapply same_fields_agree.
Qed.

(** Each of the rows once, in some order. *)
Lemma ids_permutation (ids ks : list string) : NoDup ids -> length ids = length ks -> ids ⊆ ks -> ids ≡ₚ ks.
Proof.
  intros Hd Hl Hs. apply submseteq_length_Permutation; [|lia]. by apply NoDup_submseteq.
Qed.

Lemma check_ledger_ok records ledger completed starts ids :
  check_ledger records ledger completed = Ok starts -> ids_of records = map Ok ids -> NoDup ids ->
  (exists ks, ids_of starts = map Ok ks /\ ks ≡ₚ ids) /\ (exists ks, ids_of completed = map Ok ks /\ ks ≡ₚ ids) /\
  Forall (accounted starts completed) records.
Proof.
  unfold check_ledger. destruct (rows_with _ ledger) as [l|] eqn:El; [|done]. cbn.
  destruct (_ =? _) eqn:E1; [|done]. destruct (len completed =? len records) eqn:E2; [|done]. cbn.
  destruct (by_request l) as [d1|] eqn:B1; [|done]. destruct (by_request completed) as [d2|] eqn:B2; [|done]. cbn.
  destruct (len d1 =? len d2) eqn:E3; [|done]. destruct (len d2 =? len records) eqn:E4; [|done]. cbn.
  destruct (check_records d1 d2 records) as [u|] eqn:C; [|done]. intros [= <-] Hids Hd.
  rewrite Z.eqb_eq in *. assert (len d1 = len l) as L1 by lia. assert (len d2 = len completed) as L2 by lia.
  destruct (by_request_full _ _ B1 L1) as (N1 & I1 & S1). destruct (by_request_full _ _ B2 L2) as (N2 & I2 & S2).
  destruct (check_records_ok _ _ _ _ _ _ B1 L1 B2 L2 C) as [Ha Hk].
  assert (length ids = length records) as Hlen.
  { apply (f_equal length) in Hids. unfold ids_of in Hids. by rewrite !length_map in Hids. }
  assert (forall k, k ∈ ids -> k ∈ keys d1 /\ k ∈ keys d2) as Hin.
  { intros k Hk'. apply (list_elem_of_fmap_2 (Ok (A := string))) in Hk'. change (Ok <$> ids) with (map Ok ids) in Hk'.
    rewrite <- Hids in Hk'. apply list_elem_of_fmap in Hk' as (r & Hr & Hin).
    rewrite Forall_forall in Hk. destruct (Hk r Hin) as (k' & Hk' & H1 & H2). rewrite Hk' in Hr. by injection Hr as ->. }
  split_and!; [exists (keys d1)|exists (keys d2)|done]; (split; [done|]); symmetry; apply ids_permutation; try done.
  all: try (intros k Hk'; by apply Hin).
  all: unfold keys, len in *; rewrite length_map; lia.
Qed.

(** *** Every request once *)

Lemma last_dash (a b : list ascii) : forall x y, "-"%char ∉ x -> "-"%char ∉ y ->
  a ++ "-"%char :: x = b ++ "-"%char :: y -> a = b /\ x = y.
Proof.
  revert b. induction a as [|c a IH]; intros [|d b] x y Hx Hy E; injection E.
  - done.
  - intros -> <-. destruct Hx. apply elem_of_app. right. left.
  - intros <- <-. destruct Hy. apply elem_of_app. right. left.
  - intros E' <-. destruct (IH b x y Hx Hy E') as [-> ->]. done.
Qed.

Lemma digits_no_dash n : 0 <= n -> "-"%char ∉ str_list (py_str n).
Proof.
  intros Hn H. pose proof (py_str_digits n Hn) as Hd. unfold is_digits in Hd. rewrite Forall_forall in Hd.
  by apply Hd in H.
Qed.

Lemma request_id_inj run w1 w2 n1 n2 : 0 <= n1 -> 0 <= n2 ->
  request_id run w1 n1 = request_id run w2 n2 -> w1 = w2 /\ n1 = n2.
Proof.
  intros H1 H2 E. unfold request_id in E. apply (f_equal str_list) in E. rewrite !str_list_cat in E. cbn in E.
  rewrite !app_nil_r in E. apply app_inv_head in E. injection E as E.
  apply last_dash in E as [Ew En]; [|by apply digits_no_dash..].
  split; [by rewrite <- (list_str_list w1), Ew, list_str_list|].
  apply (f_equal list_str) in En. rewrite !list_str_list in En. apply (f_equal py_int) in En.
  rewrite !py_int_str in En by done. by injection En.
Qed.

(** The requests of some workers, in order. *)
Definition all_requests (run : string) (names : list string) : list string := flat_map (fun w => request_ids run w 17) names.

Lemma all_requests_nodup run names : NoDup names -> NoDup (all_requests run names).
Proof.
  induction 1 as [|w names Hw _ IH]; cbn [all_requests flat_map]; [constructor|].
  apply NoDup_app. split_and!; [|intros i Hi Hj|done].
  - unfold request_ids. apply NoDup_fmap_2_strong; [|apply NoDup_seqZ].
    intros a b Ha%elem_of_seqZ Hb%elem_of_seqZ E. apply request_id_inj in E; [tauto|lia..].
  - apply list_elem_of_fmap in Hi as (n & -> & Hn%elem_of_seqZ). apply list_elem_of_In, in_flat_map in Hj as (w' & Hw'%list_elem_of_In & Hj%list_elem_of_In).
    apply list_elem_of_fmap in Hj as (m & E & Hm%elem_of_seqZ). apply request_id_inj in E as [-> _]; [done|lia..].
Qed.

Section accounts.
Variable W : Type.
Variable send : W -> request -> W * result response.
Variable sha256 : bytes -> string.
Variable json_loads : bytes -> result val.
Variable run : string.
Variable uuid : string -> string.

Lemma rounds_numbered names : forall w w' records,
  rounds W send sha256 json_loads run uuid w names = (w', Ok records) ->
  map (item "request_id") records = map (fun s => Ok (VStr s)) (all_requests run names).
Proof.
  induction names as [|name names IH]; intros w w' records; cbn [rounds]; [by intros [= _ <-]|].
  destruct (suite _ _ _ _ _ _ _ _) as [s [rows|e]] eqn:E; [|done].
  destruct (rounds _ _ _ _ _ _ _ _) as [w1 [l|e]] eqn:E1; [|done]. cbn. intros [= _ <-].
  unfold all_requests. cbn [flat_map]. rewrite !map_app. f_equal; [by eapply suite_numbered|by eapply IH].
Qed.

(** When [main] passes for workers with different names, it accounts for every request:
    the records are the requests of the suites in order, the starts and the completions of
    the last ledger it read are the same requests, each once, and every record agrees with
    its start on the operation, the path and the digest of the request, and with its
    completion on the status and the digest of the answer. *)
Theorem main_accounts w w' names records starts completed :
  NoDup names ->
  main W send sha256 json_loads run uuid w names = (w', Ok (records, starts, completed)) ->
  ids_of records = map Ok (all_requests run names) /\
  (exists ks, ids_of starts = map Ok ks /\ ks ≡ₚ all_requests run names) /\
  (exists ks, ids_of completed = map Ok ks /\ ks ≡ₚ all_requests run names) /\
  Forall (accounted starts completed) records.
Proof.
  intros Hn. unfold main. destruct (rounds _ _ _ _ _ _ _ _) as [w1 [rs|e]] eqn:E; [|done].
  destruct (poll _ _ _ _ _ _ _ _) as [s [[ledger done_]|e]]; [|done]. cbn -[check_ledger].
  destruct (check_ledger rs ledger done_) as [st|] eqn:C; [|done]. cbn. intros [= _ <- <- <-].
  apply rounds_numbered in E. assert (ids_of rs = map Ok (all_requests run names)) as Hids.
  { unfold ids_of. apply (f_equal (map (fun v => let? v := v in match v with VStr s => Ok s | _ => Err TypeError end))) in E.
    rewrite !map_map in E. exact E. }
  split; [done|]. by eapply check_ledger_ok; [|exact Hids|apply all_requests_nodup].
Qed.
End accounts.

(** ** A worker against the origin *)

Module ClientDemo.
Definition digest (b : bytes) : string := hex [fold_left (fun a x => (7 * a + x) mod 256) b 0].
Definition go : state (worker net) * result (list dict) :=
  suite net (origin_send digest loads (fun _ => "") (fun z => py_str z)) digest loads "run-a" "0-0" "m"
    (St [] (Worker (Net no_origin 0) 0 [])).

(** The records of the suite against the memory of the origin after it. *)
Definition counts_of (r : state (worker net) * result (list dict)) : Z * Z * Z :=
  match r with
  | (s, Ok records) =>
      let ledger := EVENTS (served (world (own s))) in
      match (let? completed := rows_with "response_complete" ledger in check_ledger records ledger completed) with
      | Ok starts => (pass_counts records, len starts)
      | Err _ => (0, 0, 0)
      end
  | _ => (0, 0, 0)
  end.
End ClientDemo.

(** Every exchange of the suite passes its checks against the origin, and the origin's
    ledger accounts for all of them; two of them are streams. *)
Example worker_passes : ClientDemo.counts_of ClientDemo.go = (17, 2, 17).
Proof. vm_compute. reflexivity. Qed.
