(* ===== verification/Observers.v ===== *)
(** * Two more observers (env/ai-traffic/metadata_suite.py, request_scope_suite.py)

    [Metadata] attaches two programs to the protocol handlers and keeps every record they
    write.  [Scope] watches the calls of the parser: it shows that they count what the
    authority saw, and keeps the join closed.  Commands, sockets and files are the oracle of
    [Suite]; the configuration of the product and the servers are not modelled.  The
    sets of a cleanup are lists, walked in the order they were filled. *)

From S2P Require Import Prelude PyVal Text Assoc Format Decoders Export Authority Json Joins JoinsSpec Suite Lifetime.

Module Metadata.

(** The slot, the kind of record, the hook and the port of a program. *)
Record program := Program { slot : Z; kind : Z; hook : string; port : Z }.

Definition PROGRAMS : list (string * program) :=
  [("a2a", Program 5 1 "hud_a2a_handler" 18094); ("aimcp", Program 6 2 "hud_aimcp_handler" 18095)].

(** What the build of the programs wrote: each program's files, and the names of events. *)
Record build := Build { b_programs : list (string * dict); event_names : dict }.

Record metadata := Meta {
  events : list dict;
  loaded_slots : list Z;
  armed_labels : list string;
  identities : list (string * val);
  batches : list (string * list val);
  clients : list dict;
  counter_start : list (string * counters);
  counter_end : list (string * counters);
  summary : list (string * (Z * list (val * Z)));
  cleanup_errors : list exn }.

Definition no_metadata : metadata := Meta [] [] [] [] [] [] [] [] [] [].

Definition add_event (e : dict) (x : metadata) : metadata :=
  Meta (events x ++ [e]) (loaded_slots x) (armed_labels x) (identities x) (batches x) (clients x)
    (counter_start x) (counter_end x) (summary x) (cleanup_errors x).
Definition with_loaded (l : list Z) (x : metadata) : metadata :=
  Meta (events x) l (armed_labels x) (identities x) (batches x) (clients x)
    (counter_start x) (counter_end x) (summary x) (cleanup_errors x).
Definition with_armed (l : list string) (x : metadata) : metadata :=
  Meta (events x) (loaded_slots x) l (identities x) (batches x) (clients x)
    (counter_start x) (counter_end x) (summary x) (cleanup_errors x).
Definition with_identity (label : string) (v : val) (x : metadata) : metadata :=
  Meta (events x) (loaded_slots x) (armed_labels x) (aset label v (identities x)) (batches x) (clients x)
    (counter_start x) (counter_end x) (summary x) (cleanup_errors x).
Definition add_batch (b : string * list val) (x : metadata) : metadata :=
  Meta (events x) (loaded_slots x) (armed_labels x) (identities x) (batches x ++ [b]) (clients x)
    (counter_start x) (counter_end x) (summary x) (cleanup_errors x).
Definition add_client (c : dict) (x : metadata) : metadata :=
  Meta (events x) (loaded_slots x) (armed_labels x) (identities x) (batches x) (clients x ++ [c])
    (counter_start x) (counter_end x) (summary x) (cleanup_errors x).
Definition with_counters (first last : list (string * counters)) (x : metadata) : metadata :=
  Meta (events x) (loaded_slots x) (armed_labels x) (identities x) (batches x) (clients x)
    first last (summary x) (cleanup_errors x).
Definition with_summary (s : list (string * (Z * list (val * Z)))) (x : metadata) : metadata :=
  Meta (events x) (loaded_slots x) (armed_labels x) (identities x) (batches x) (clients x)
    (counter_start x) (counter_end x) s (cleanup_errors x).
Definition with_errors (l : list exn) (x : metadata) : metadata :=
  Meta (events x) (loaded_slots x) (armed_labels x) (identities x) (batches x) (clients x)
    (counter_start x) (counter_end x) (summary x) l.

Section suite.
Variable finish : history -> result reply.
Variable saved : history -> result unit.
Variable wait : history -> result unit.
Variable response : history -> result bytes.
Variable json_loads : string -> result val.
Variable sha256 : bytes -> string.
Variables program_dir parent : string.
(** Whether a collector drains the ring already, and whether the ring is there. *)
Variables continuous ring_exists : bool.
Variable b : build.
Variable run_token : Z.
Variable programs : list (string * program).

Definition slot_text (p : program) : string := py_str (slot p).

(** [counters]. *)
Fixpoint counters_of (ps : list (string * program)) : M metadata (list (string * counters)) :=
  match ps with
  | [] => ret []
  | (label, p) :: ps =>
      let! c := stats_of finish (slot_text p) in
      let! rest := counters_of ps in
      ret ((label, c) :: rest)
  end.

(** ** [start] *)

(** [str(directory / name)] of a relative name. *)
Definition in_dir (v : val) : result string :=
  match v with VStr s => Ok (cat [program_dir; "/"; s]) | _ => Err TypeError end.

(** The command that loads a program: signed when the build has a signature. *)
Definition load_command (label : string) (p : program) : result (list string) :=
  let? program := match aget label (b_programs b) with Some d => Ok d | None => Err (KeyError label) end in
  let? object := in_dir (default (VStr (cat ["metadata-"; label; ".bpf.o"])) (get "object" program)) in
  if truthy (getv "signature" program) then
    let? o := item "object" program in
    let? o := in_dir o in
    let? s := in_dir (getv "signature" program) in
    Ok ["load-signed"; slot_text p; o; s; "1"]
  else Ok ["load"; slot_text p; object; "1"].

Definition load_one (lp : string * program) : M metadata unit :=
  let '(label, p) := lp in
  let! command := lift (load_command label p) in
  let! text := cli finish command false in
  do! check (str_contains "signature=verified" text) ;;
  do! modify (fun x => with_loaded (put (slot p) (loaded_slots x)) x) ;;
  let! identity := identity_of finish json_loads (slot_text p) in
  let! row := lift (pack_row run_token) in
  let! document := lift (publication identity [VStr row]) in
  let path := cat [parent; "/"; label; "-config.json"] in
  do! act saved (Save path (VDict document)) ;;
  do! cli_ finish ["config-publish"; slot_text p; path] ;;
  let! identity := identity_of finish json_loads (slot_text p) in
  modify (with_identity label identity).

Definition arm_one (lp : string * program) : M metadata unit :=
  do! cli_ finish ["arm"; slot_text lp.2] ;;
  modify (fun x => with_armed (put lp.1 (armed_labels x)) x).

Definition start : M metadata unit :=
  do! (if negb continuous && ring_exists then do! run finish DRAIN false ;; ret tt else ret tt) ;;
  do! for_each load_one programs ;;
  let! c := counters_of programs in
  do! modify (fun x => with_counters c (counter_end x) x) ;;
  for_each arm_one programs.

(** ** [drain] *)

Definition SOURCES : list (Z * string) := [(1, "a2a"); (2, "aimcp")].

Definition of_kind (k : Z) (es : list dict) : list dict := List.filter (fun e => iget "kind" e =? k) es.

(** What is asserted of a record against the identity of its source. *)
Definition event_ok (identity : val) (es : list dict) (e : dict) : result unit :=
  let? instance := hex_field "instance" identity in
  raise_if (negb (iget "instance" e =? instance)) AssertionError ;;
  let? revision := subscript "revision" identity in
  raise_if (negb (val_eqb (VInt (iget "revision" e)) revision)) AssertionError ;;
  raise_if (negb ((iget "run" e =? run_token) && (iget "flags" e =? 0))) AssertionError ;;
  raise_if (negb ((iget "output_failures" e =? 0) && negb (iget "monotonic_ns" e =? 0))) AssertionError ;;
  raise_if (negb (iget "sequence" e =? 1 + len (of_kind (iget "kind" e) es))) AssertionError ;;
  Ok tt.

Definition drain_item (item_ : val) : M metadata unit :=
  let! hook := lift (subscript "hook" item_) in
  let! n := lift (if val_eqb hook (VStr "prog") then subscript "len" item_ else Ok VNone) in
  do! check (val_eqb n (VInt 72)) ;;
  let! data := lift (subscript "data" item_) in
  let! data := lift (text_hex data) in
  let! e := lift (metadata_decode (event_names b) data) in
  let! source := lift (match assoc (iget "kind" e) SOURCES with
                       | Some s => Ok s
                       | None => Err (KeyError (py_str (iget "kind" e)))
                       end) in
  let! ids := ask identities in
  let! identity := lift (match aget source ids with Some v => Ok v | None => Err (KeyError source) end) in
  let! at_ := lift (subscript "slot" item_) in
  let! p := lift (match aget source programs with Some p => Ok p | None => Err (KeyError source) end) in
  do! check (val_eqb at_ (VInt (slot p))) ;;
  let! es := ask events in
  do! lift (event_ok identity es e) ;;
  modify (add_event e).

Definition drain (label : string) : M metadata unit :=
  let! (row, transport) := drained finish json_loads in
  do! modify (add_batch (label, transport)) ;;
  do! check (no_drops row) ;;
  for_each drain_item transport.

(** ** [request]: the answer of the origin, whatever is in front of it *)

Definition post (label path mime : string) (body : bytes) : bytes :=
  encode (cat ["POST "; path; " HTTP/1.1"]) ++ [13; 10] ++ encode "Host: metadata" ++ [13; 10] ++
  encode (cat ["Content-Type: "; mime]) ++ [13; 10] ++ encode (cat ["Content-Length: "; py_str (len body)]) ++ [13; 10] ++
  encode "Connection: close" ++ CRLF2 ++ body.

Definition quoted (s : string) : string := let q := list_str [chr 34] in cat [q; s; q].

Definition contains (needle hay : bytes) : bool := 0 <=? py_find needle hay 0.

Definition answer_ok (path : string) (got : bytes) : bool :=
  is_prefix (encode "HTTP/1.1 200 ") got &&
  (if String.eqb path "/stream"
   then contains (encode (quoted "working")) got && contains (encode (quoted "done")) got
   else contains (encode (cat [quoted "observed"; ":true"])) got).

(** The row of the request is kept whatever became of it, once the connection is made. *)
Definition request (label path : string) (body : bytes) (mime : string) (fragmented : bool) : M metadata unit :=
  let! p := lift (match aget label PROGRAMS with Some p => Ok p | None => Err (KeyError label) end) in
  fun s =>
    let '(s, r) := act response (Exchange (post label path mime body)) s in
    let got := match r with Ok got => got | Err _ => [] end in
    let '(s, _) := modify (add_client
      [("filter", VStr label); ("path", VStr path); ("mime", VStr mime); ("fragmented", VBool fragmented);
       ("request_body_sha256", VStr (sha256 body)); ("response_hex", VStr (hex got))]) s in
    (s, let? got := r in if answer_ok path got then Ok tt else Err AssertionError).

(** ** [finish] *)

(** [Counter(e["event_name"] or str(e["code"]) for e in events)]. *)
Definition name_of_event (e : dict) : val :=
  if truthy (getv "event_name" e) then getv "event_name" e else VStr (py_str (iget "code" e)).

Fixpoint bump (v : val) (c : list (val * Z)) : list (val * Z) :=
  match c with
  | [] => [(v, 1)]
  | (w, n) :: c => if val_eqb w v then (w, n + 1) :: c else (w, n) :: bump v c
  end.

Definition tally (es : list dict) : list (val * Z) := fold_left (fun c e => bump (name_of_event e) c) es [].

Fixpoint tally_of (v : val) (c : list (val * Z)) : Z :=
  match c with
  | [] => 0
  | (w, n) :: c => if val_eqb w v then n else tally_of v c
  end.

Definition side (label : string) (c : list (string * counters)) : result counters :=
  match aget label c with Some c => Ok c | None => Err (KeyError label) end.

Definition source_summary (x : metadata) (label : string) (p : program) : result (Z * list (val * Z)) :=
  let? before := side label (counter_start x) in
  let? after_ := side label (counter_end x) in
  let es := of_kind (kind p) (events x) in
  let? fired := grew "fired" before after_ in
  raise_if (negb ((fired =? len es) && (0 <? len es))) AssertionError ;;
  let? errors := same "errors" before after_ in
  raise_if (negb errors) AssertionError ;;
  let? safe := same "safe_returns" before after_ in
  raise_if (negb safe) AssertionError ;;
  let? gen := same "gen" before after_ in
  raise_if (negb gen) AssertionError ;;
  let counts := tally es in
  raise_if (negb ((0 <? tally_of (VStr "HUDEVT_REQUEST") counts) && (0 <? tally_of (VStr "HUDCTL_RESPONSE") counts))) AssertionError ;;
  Ok (len es, counts).

Fixpoint summary_of (x : metadata) (ps : list (string * program)) : result (list (string * (Z * list (val * Z)))) :=
  match ps with
  | [] => Ok []
  | (label, p) :: ps =>
      let? s := source_summary x label p in
      let? rest := summary_of x ps in
      Ok ((label, s) :: rest)
  end.

Definition disarm (label : string) : M metadata unit :=
  let! p := lift (match aget label programs with Some p => Ok p | None => Err (KeyError label) end) in
  do! cli_ finish ["disarm"; hook p] ;;
  modify (fun x => with_armed (taken label (armed_labels x)) x).

Definition revoke (slot_ : Z) : M metadata unit :=
  do! cli_ finish ["revoke"; py_str slot_] ;;
  modify (fun x => with_loaded (taken slot_ (loaded_slots x)) x).

Definition finish_ : M metadata unit :=
  do! for_each (fun _ => do! drain "settle" ;; act wait Sleep) (range 5) ;;
  let! labels := ask armed_labels in
  do! for_each disarm labels ;;
  do! drain "final" ;;
  let! c := counters_of programs in
  do! modify (fun x => with_counters (counter_start x) c x) ;;
  let! x := ask id in
  let! s := lift (summary_of x programs) in
  modify (with_summary s).

(** ** [cleanup] and the test *)

Definition cleanup : M metadata unit :=
  let! labels := ask armed_labels in
  let! errors := attempts_in disarm labels [] in
  let! slots := ask loaded_slots in
  let! errors := attempts_in revoke slots errors in
  do! modify (with_errors errors) ;;
  match errors with [] => ret tt | _ => raise (RuntimeError "cleanup") end.

(** The origin's rows of the requests it read, and how many it failed to serve. *)
Variable configured : history -> result unit.
Variable origin_rows : history -> list dict * Z.

Definition call (method : string) : bytes :=
  Json.dumps (VDict [("jsonrpc", VStr "2.0"); ("id", VInt 1); ("method", VStr method); ("params", VDict [])]).

Definition CASES : list (string * bytes * string * bool) :=
  [("/known", call "SendMessage", "application/json", true);
   ("/unfamiliar", call "future.variant", "application/json", false);
   ("/stream", call "SendStreamingMessage", "application/json", false);
   ("/plain", encode "unfamiliar non-JSON input", "text/plain", false)].

Definition digests (k : string) (rows : list dict) : result (list string) :=
  mapM_r (fun r => let? v := item k r in match v with VStr s => Ok s | _ => Err TypeError end) rows.

(** What follows the records: as many requests as were sent, with the same bodies. *)
Definition origin_agrees : M metadata unit :=
  let! (origin, failed) := at_history origin_rows in
  let! sent := ask clients in
  do! check ((len origin =? len sent) && (len sent =? 8)) ;;
  do! check (failed =? 0) ;;
  let! theirs := lift (digests "body_sha256" origin) in
  let! mine := lift (digests "request_body_sha256" sent) in
  check (bool_decide (sorted_names theirs = sorted_names mine)).

Definition test_body : M metadata unit :=
  do! act configured Configure ;;
  do! start ;;
  do! for_each (fun label =>
        for_each (fun '(path, body, mime, fragmented) =>
          do! request label path body mime fragmented ;; drain (cat [label; path])) CASES)
      (map fst PROGRAMS) ;;
  do! finish_ ;;
  origin_agrees.

Definition metadata_test : M metadata unit := try_finally test_body cleanup.
End suite.

(** ** The stream of each program, and what a cleanup leaves *)

Section facts.
Variable finish : history -> result reply.
Variable saved : history -> result unit.
Variable wait : history -> result unit.
Variable response : history -> result bytes.
Variable json_loads : string -> result val.
Variable sha256 : bytes -> string.
Variables program_dir parent : string.
Variables continuous ring_exists : bool.
Variable b : build.
Variable run_token : Z.
Variable programs : list (string * program).

(** The records of a kind are numbered from one, without a gap, and all of this run; nothing
    is twice in a set. *)
Record good (x : metadata) : Prop := Good {
  good_numbers : forall k, map (iget "sequence") (of_kind k (events x)) = seqZ 1 (len (of_kind k (events x)));
  good_run : Forall (fun e => iget "run" e = run_token /\ iget "flags" e = 0 /\ iget "output_failures" e = 0) (events x);
  good_armed : NoDup (armed_labels x);
  good_loaded : NoDup (loaded_slots x) }.

Definition leads (x y : metadata) : Prop := good x -> good y.
#[export] Instance leads_preorder : PreOrder leads.
Proof. split; unfold leads; [intros x; done|intros x y z; tauto]. Qed.

Lemma good_no_metadata : good no_metadata.
Proof. split; constructor. Qed.

Lemma nodup_put {A} `{EqDecision A} (x : A) l : NoDup l -> NoDup (put x l).
Proof.
  intros H. unfold put. case_bool_decide as E; [done|]. apply NoDup_app. split_and!; [done| |apply NoDup_singleton].
  intros y Hy ->%list_elem_of_singleton. done.
Qed.

Lemma elem_taken {A} `{EqDecision A} (x y : A) l : y ∈ taken x l <-> y ∈ l /\ y <> x.
Proof.
  unfold taken. rewrite !list_elem_of_In, List.filter_In. rewrite negb_true_iff, bool_decide_eq_false. tauto.
Qed.

Lemma nodup_taken {A} `{EqDecision A} (x : A) l : NoDup l -> NoDup (taken x l).
Proof. intros H. apply NoDup_ListNoDup. apply List.NoDup_filter. by apply NoDup_ListNoDup. Qed.

(** A checked record goes on with the count of its kind. *)
Lemma good_event identity x e : event_ok run_token identity (events x) e = Ok tt -> good x -> good (add_event e x).
Proof.
  unfold event_ok. destruct (hex_field "instance" identity) as [i|]; [|done]. cbn -[val_eqb].
  destruct (iget "instance" e =? i); [|done]. destruct (subscript "revision" identity) as [r|]; [|done]. cbn -[val_eqb].
  destruct (val_eqb (VInt (iget "revision" e)) r); [|done]. cbn -[val_eqb].
  destruct ((iget "run" e =? run_token) && (iget "flags" e =? 0)) eqn:E1; [|done]. cbn.
  destruct ((iget "output_failures" e =? 0) && negb (iget "monotonic_ns" e =? 0)) eqn:E2; [|done]. cbn.
  destruct (iget "sequence" e =? 1 + len (of_kind (iget "kind" e) (events x))) eqn:E3; [|done]. intros _ [Hn Hr Ha Hl].
  apply Z.eqb_eq in E3. bool_prop. rewrite Z.eqb_eq in *. split; cbn [events armed_labels loaded_slots add_event]; [|apply Forall_app; eauto|done..].
  intros k. unfold of_kind. rewrite List.filter_app. cbn [List.filter]. destruct (iget "kind" e =? k) eqn:Ek; [|rewrite app_nil_r; apply Hn].
  apply Z.eqb_eq in Ek. subst k. fold (of_kind (iget "kind" e) (events x)).
  rewrite map_app, len_app, Hn. cbn [map]. rewrite E3. change (len [e]) with (Z.of_nat 1).
  rewrite seqZ_app by (try apply len_nonneg; lia). done.
Qed.

Notation "'leading' m" := (within leads m) (at level 10, m at level 9).

Lemma leading_accept identity e :
  leading (let! es := ask events in do! lift (event_ok run_token identity es e) ;; modify (add_event e)).
Proof.
  intros s. unfold bind, ask, lift, modify, leads. destruct (event_ok _ _ _ _) as [[]|] eqn:E; [|done].
  by eapply good_event.
Qed.

Ltac lead :=
  lazymatch goal with
  | |- forall _, _ => intros ?; lead
  | |- within _ (bind (ask events) _) => apply leading_accept
  | |- within _ (bind _ _) => apply within_bind; [apply _|lead|intros ?; cbv beta; lead]
  | |- within _ (for_each _ _) => apply within_for_each; [apply _|intros ?; cbv beta; lead]
  | |- within _ (match ?x with _ => _ end) => destruct x; lead
  | |- within _ (modify _) => apply within_modify; intros ? [? ? ? ?]; split; try done; cbn [armed_labels loaded_slots with_armed with_loaded]; lead
  | |- within _ _ => try solve [eauto with within typeclass_instances]
  | |- NoDup (put _ _) => by apply nodup_put
  | |- NoDup (taken _ _) => by apply nodup_taken
  | |- _ => idtac
  end.

Lemma leading_drain label : leading (drain finish json_loads b run_token programs label).
Proof. unfold drain. lead. unfold drain_item. lead. Qed.

Lemma leading_counters ps : leading (counters_of finish ps).
Proof. induction ps as [|[label p] ps IH]; cbn [counters_of]; lead. Qed.

Lemma leading_disarm label : leading (disarm finish programs label).
Proof. unfold disarm, cli_. lead. Qed.

Lemma leading_revoke z : leading (revoke finish z).
Proof. unfold revoke, cli_. lead. Qed.

Hint Resolve leading_drain leading_counters leading_disarm leading_revoke : within.

Lemma leading_start : leading (start finish saved json_loads program_dir parent continuous ring_exists b run_token programs).
Proof. unfold start. lead; unfold load_one, arm_one, cli_; lead. Qed.

Lemma leading_request label path body mime fragmented : leading (request response sha256 label path body mime fragmented).
Proof.
  unfold request. lead. intros s. unfold act, modify. cbn [fst own]. intros [? ? ? ?]. by split.
Qed.

Lemma leading_finish : leading (finish_ finish wait json_loads b run_token programs).
Proof. unfold finish_. lead. Qed.

Hint Resolve leading_start leading_request leading_finish : within.

Lemma leading_attempts {A} (f : A -> M metadata unit) l errors : (forall x, leading (f x)) -> leading (attempts_in f l errors).
Proof.
  intros Hf. revert errors. induction l as [|x l IH]; intros errors; cbn [attempts_in]; [apply within_ret; apply _|].
  apply within_bind; [apply _| |intros a; apply IH]. intros s. unfold attempt_. specialize (Hf x s).
  by destruct (f x s) as [s1 [[]|e]].
Qed.

Lemma leading_cleanup : leading (cleanup finish programs).
Proof. unfold cleanup. lead; apply leading_attempts; lead. Qed.

(** *** What a cleanup leaves *)

(** A method that takes [x] out of a set, or fails and leaves it. *)
Definition takes {A} `{EqDecision A} (get : metadata -> list A) (x : A) (m : M metadata unit) : Prop :=
  forall s s' r, m s = (s', r) -> get (own s') = match r with Ok _ => taken x (get (own s)) | Err _ => get (own s) end.

(** Each failure is an error, and what is left is what failed. *)
Lemma attempts_take {A} `{EqDecision A} (get : metadata -> list A) f l : (forall x, takes get x (f x)) -> NoDup l ->
  forall errors s s' r, attempts_in f l errors s = (s', r) ->
  exists kept errors', r = Ok errors' /\ length errors' = (length errors + length kept)%nat /\ NoDup kept /\ kept ⊆ l /\
    forall y, y ∈ get (own s') <-> y ∈ get (own s) /\ (y ∈ l -> y ∈ kept).
Proof.
  intros Hf. induction 1 as [|x l Hx Hl IH]; intros errors s s' r; cbn [attempts_in].
  - intros [= <- <-]. exists [], errors. split_and!; [done|cbn; lia|constructor|done|]. intros y. split; [|tauto].
    intros Hy. split; [done|]. by intros ?%not_elem_of_nil.
  - unfold bind, attempt_. destruct (f x s) as [s1 [[]|e]] eqn:E; apply Hf in E; intros H;
      destruct (IH _ _ _ _ H) as (kept & errors' & -> & Hlen & Hd & Hs & Hy); clear IH H.
    + exists kept, errors'. split_and!; [done|done|done|intros z Hz; right; by apply Hs|]. intros y. rewrite Hy, E, elem_taken.
      split.
      * intros [[H1 H2] H3]. split; [done|]. intros [->|?]%elem_of_cons; [done|auto].
      * intros [H1 H2]. split; [split; [done|]|intros H3; apply H2; by right].
        intros ->. apply Hx, Hs, H2. left.
    + exists (x :: kept), errors'. rewrite length_app in Hlen. cbn [length] in *.
      split_and!; [done|lia|constructor; [intros Hk; by apply Hx, Hs|done]|idtac|idtac].
      * intros z [->|Hz]%elem_of_cons; [left|right; by apply Hs].
      * intros y. rewrite Hy, E. split.
        -- intros [H1 H2]. split; [done|]. intros [->|H3]%elem_of_cons; [left|right; auto].
        -- intros [H1 H2]. split; [done|]. intros H3. specialize (H2 (list_elem_of_further _ _ _ H3)). by apply elem_of_cons in H2 as [->|H2].
Qed.

Lemma nodup_same {A} (l k : list A) : NoDup l -> NoDup k -> (forall y, y ∈ l <-> y ∈ k) -> length l = length k.
Proof. intros H1 H2 H. by apply Permutation_length, NoDup_Permutation. Qed.

Lemma disarm_takes label : takes armed_labels label (disarm finish programs label).
Proof.
  unfold disarm. intros s s' r. unfold bind, lift. destruct (aget label programs) as [p|]; [|by intros [= <- <-]].
  destruct (cli_ finish ["disarm"; hook p] s) as [s1 q] eqn:E.
  assert (own s1 = own s) as Hs by (eapply (keeps_own (cli_ finish ["disarm"; hook p])); [unfold cli_; keep|exact E]).
  destruct q as [u|e]; intros [= <- <-]; cbn [own modify]; by rewrite Hs.
Qed.

Lemma revoke_takes z : takes loaded_slots z (revoke finish z).
Proof.
  unfold revoke. intros s s' r. unfold bind.
  destruct (cli_ finish ["revoke"; py_str z] s) as [s1 q] eqn:E.
  assert (own s1 = own s) as Hs by (eapply (keeps_own (cli_ finish ["revoke"; py_str z])); [unfold cli_; keep|exact E]).
  destruct q as [u|e]; intros [= <- <-]; cbn [own modify]; by rewrite Hs.
Qed.

(** A method that leaves some of the attributes alone. *)
Definition same_on {B} (f : metadata -> B) (x y : metadata) : Prop := f y = f x.
#[export] Instance same_on_preorder {B} (f : metadata -> B) : PreOrder (same_on f).
Proof. split; unfold same_on; [intros x; done|intros x y z; congruence]. Qed.

Lemma attempts_same {B A} (g : metadata -> B) (f : A -> M metadata unit) l errors :
  (forall x, within (same_on g) (f x)) -> within (same_on g) (attempts_in f l errors).
Proof.
  intros Hf. revert errors. induction l as [|x l IH]; intros errors; cbn [attempts_in]; [apply within_ret; apply _|].
  apply within_bind; [apply _| |intros a; apply IH]. intros s. unfold attempt_. specialize (Hf x s).
  by destruct (f x s) as [s1 [[]|e]].
Qed.

(** What the records and counters say. *)
Definition evidence (x : metadata) := (events x, counter_start x, counter_end x).

Lemma disarm_same {B} (g : metadata -> B) label : (forall l x, g (with_armed l x) = g x) ->
  within (same_on g) (disarm finish programs label).
Proof. intros H. unfold disarm, cli_. keep. apply within_modify. intros x. apply H. Qed.

Lemma revoke_same {B} (g : metadata -> B) z : (forall l x, g (with_loaded l x) = g x) ->
  within (same_on g) (revoke finish z).
Proof. intros H. unfold revoke, cli_. keep. apply within_modify. intros x. apply H. Qed.

Lemma cleanup_evidence : within (same_on evidence) (cleanup finish programs).
Proof.
  unfold cleanup. keep.
  - apply attempts_same. intros. by apply disarm_same.
  - apply attempts_same. intros. by apply revoke_same.
  - by apply within_modify.
Qed.

(** Trying each member of a set leaves as many as there are new errors. *)
Lemma attempts_left {A} `{EqDecision A} (get : metadata -> list A) f errors s s' r :
  (forall x, takes get x (f x)) -> NoDup (get (own s)) -> NoDup (get (own s')) ->
  attempts_in f (get (own s)) errors s = (s', r) ->
  exists errors', r = Ok errors' /\ length errors' = (length errors + length (get (own s')))%nat.
Proof.
  intros Hf Hd Hd' E. destruct (attempts_take get f _ Hf Hd _ _ _ _ E) as (kept & errors' & -> & Hl & Hk & Hs & Hy).
  exists errors'. split; [done|]. rewrite Hl. f_equal. apply nodup_same; [done..|]. intros y. rewrite Hy. split; [auto|by intros [H1 H2]; auto].
Qed.

Lemma cleanup_steps s s' r : cleanup finish programs s = (s', r) ->
  exists s1 r1 s2 r2, attempts_in (disarm finish programs) (armed_labels (own s)) [] s = (s1, r1) /\
    forall e1, r1 = Ok e1 -> attempts_in (revoke finish) (loaded_slots (own s1)) e1 s1 = (s2, r2) /\
    forall e2, r2 = Ok e2 -> own s' = with_errors e2 (own s2) /\ (r = Ok tt -> e2 = []).
Proof.
  unfold cleanup, bind, ask, modify. intros E.
  destruct (attempts_in _ (armed_labels (own s)) [] s) as [s1 [e1|e]] eqn:E1; [|exists s1, (Err e), s1, (Err e); done].
  destruct (attempts_in _ (loaded_slots (own s1)) e1 s1) as [s2 [e2|e]] eqn:E2;
    [|exists s1, (Ok e1), s2, (Err e); split; [done|intros ? [= <-]; done]].
  exists s1, (Ok e1), s2, (Ok e2). split; [done|]. intros ? [= <-]. split; [done|]. intros ? [= <-].
  destruct e2; injection E as <- <-; done.
Qed.

(** After a cleanup, what is still armed or loaded is as much as it kept errors. *)
Lemma cleanup_accounts s s' r : good (own s) -> cleanup finish programs s = (s', r) ->
  length (cleanup_errors (own s')) = (length (armed_labels (own s')) + length (loaded_slots (own s')))%nat /\
  (r = Ok tt -> cleanup_errors (own s') = []).
Proof.
  intros Hg E. destruct (cleanup_steps _ _ _ E) as (s1 & r1 & s2 & r2 & E1 & H).
  pose proof (leading_attempts _ (armed_labels (own s)) [] leading_disarm s Hg) as Hg1. rewrite E1 in Hg1.
  destruct (attempts_left armed_labels _ _ _ _ _ disarm_takes (good_armed _ Hg) (good_armed _ Hg1) E1) as (e1 & -> & L1).
  destruct (H e1 eq_refl) as [E2 H']. clear H.
  pose proof (leading_attempts _ (loaded_slots (own s1)) e1 leading_revoke s1 Hg1) as Hg2. rewrite E2 in Hg2.
  destruct (attempts_left loaded_slots _ _ _ _ _ revoke_takes (good_loaded _ Hg1) (good_loaded _ Hg2) E2) as (e2 & -> & L2).
  destruct (H' e2 eq_refl) as [-> Hr]. cbn [cleanup_errors armed_labels loaded_slots with_errors].
  pose proof (attempts_same armed_labels _ (loaded_slots (own s1)) e1 (fun x => revoke_same armed_labels x (fun _ _ => eq_refl)) s1) as H2.
  rewrite E2 in H2. unfold same_on in H2. cbn [fst] in *. rewrite H2. split; [|done]. cbn in L1. lia.
Qed.

(** *** A whole test *)

(** The records of a program against its counters before and after. *)
Definition counted (x : metadata) (lp : string * program) : Prop :=
  exists before after_, side lp.1 (counter_start x) = Ok before /\ side lp.1 (counter_end x) = Ok after_ /\
    grew "fired" before after_ = Ok (len (of_kind (kind lp.2) (events x))) /\ 0 < len (of_kind (kind lp.2) (events x)) /\
    same "errors" before after_ = Ok true /\ same "safe_returns" before after_ = Ok true /\ same "gen" before after_ = Ok true.

Lemma same_true k a c : (exists v, same k a c = Ok v /\ v = true) -> same k a c = Ok true.
Proof. by intros (v & H & ->). Qed.

Lemma summary_counted x ps s : summary_of x ps = Ok s -> Forall (counted x) ps.
Proof.
  revert s. induction ps as [|[label p] ps IH]; intros s; cbn [summary_of]; [constructor|].
  destruct (source_summary x label p) as [q|] eqn:E; [|done]. cbn.
  destruct (summary_of x ps) as [rest|]; [|done]. intros _. constructor; [|by eapply IH].
  unfold source_summary in E. unfold counted. cbn [fst snd].
  destruct (side label (counter_start x)) as [before|]; [|done]. destruct (side label (counter_end x)) as [after_|]; [|done].
  cbn -[tally_of tally] in E. destruct (grew "fired" before after_) as [n|] eqn:Eg; [|done]. cbn -[tally_of tally] in E.
  destruct (n =? _) eqn:E1; [|done]. destruct (0 <? _) eqn:E2; [|done]. cbn -[tally_of tally] in E.
  apply Z.eqb_eq in E1 as ->. apply Z.ltb_lt in E2.
  exists before, after_. destruct (same "errors" before after_) as [[]|]; [|done..]. cbn -[tally_of tally] in E.
  destruct (same "safe_returns" before after_) as [[]|]; [|done..]. cbn -[tally_of tally] in E.
  by destruct (same "gen" before after_) as [[]|].
Qed.

Lemma counted_evidence x y : evidence x = evidence y -> Forall (counted x) programs -> Forall (counted y) programs.
Proof.
  unfold evidence. intros [= E1 E2 E3] H. eapply Forall_impl; [exact H|]. intros lp. unfold counted. by rewrite E1, E2, E3.
Qed.

Lemma finish_counted s s' u : finish_ finish wait json_loads b run_token programs s = (s', Ok u) -> Forall (counted (own s')) programs.
Proof.
  unfold finish_. intros H. unbind H. apply modify_ok in H as [_ ->]. apply summary_counted in Hr.
  eapply counted_evidence; [|exact Hr]. done.
Qed.

Variable configured : history -> result unit.
Variable origin_rows : history -> list dict * Z.
Let body := test_body finish saved wait response json_loads sha256 program_dir parent continuous ring_exists b run_token
  programs configured origin_rows.

Lemma keeps_origin : keeps (origin_agrees origin_rows).
Proof. unfold origin_agrees. keep. by intros s. Qed.

Lemma leading_body : leading body.
Proof.
  unfold body, test_body. lead. intros s Hg. pose proof (keeps_origin s) as H. by rewrite <- H.
Qed.

Lemma body_counted s s' u : body s = (s', Ok u) -> Forall (counted (own s')) programs.
Proof.
  unfold body, test_body. intros H. unbind H. apply (keeps_own _ _ _ _ keeps_origin) in H. rewrite H. by eapply finish_counted.
Qed.
End facts.

(** However a test ends: the records of each program it kept are numbered from one without
    a gap and belong to this run; and what is still armed or loaded is as much as the cleanup
    kept errors.  If it passed, nothing is, and each program fired as often as it reported,
    at least once, without an error, a refused program or a reload in between. *)
Theorem metadata_session finish saved wait response json_loads sha256 program_dir parent continuous ring_exists b run_token
    programs configured origin_rows s' r :
  metadata_test finish saved wait response json_loads sha256 program_dir parent continuous ring_exists b run_token
    programs configured origin_rows (St [] no_metadata) = (s', r) ->
  good run_token (own s') /\
  length (cleanup_errors (own s')) = (length (armed_labels (own s')) + length (loaded_slots (own s')))%nat /\
  (r = Ok tt -> armed_labels (own s') = [] /\ loaded_slots (own s') = [] /\ Forall (counted (own s')) programs).
Proof.
  intros E. unfold metadata_test, try_finally in E. destruct (test_body _ _ _ _ _ _ _ _ _ _ _ _ _ _ _ _) as [s1 r1] eqn:E1.
  pose proof (leading_body finish saved wait response json_loads sha256 program_dir parent continuous ring_exists b run_token
    programs configured origin_rows (St [] no_metadata) (good_no_metadata _)) as Hg1. rewrite E1 in Hg1. cbn [fst] in Hg1.
  destruct (cleanup finish programs s1) as [s2 r2] eqn:E2. injection E as <- <-.
  destruct (cleanup_accounts finish json_loads program_dir run_token programs _ _ _ Hg1 E2) as [Hl He].
  split_and!; [|done|].
  - pose proof (leading_cleanup finish json_loads program_dir run_token programs s1 Hg1) as H. by rewrite E2 in H.
  - destruct r2 as [[]|e]; [|done]. cbn. intros ->. rewrite He in Hl by done.
    split_and!; [by destruct (armed_labels _)|destruct (loaded_slots _); [done|cbn in Hl; lia]|].
    apply body_counted in E1. eapply counted_evidence; [|exact E1].
    pose proof (cleanup_evidence finish programs s1) as H. rewrite E2 in H. symmetry. exact H.
Qed.

(** A fixture in which each request makes its program report twice. *)
Module MetadataDemo.
Definition frame (p : program) (n code : Z) : val := VDict
  [("hook", VStr "prog"); ("slot", VInt (slot p)); ("len", VInt 72);
   ("data", VStr (hex (le_bytes 4 0x4D455441 ++ le_bytes 4 1 ++ le_bytes 8 (slot p) ++ le_bytes 8 1 ++ le_bytes 8 77 ++
      le_bytes 8 n ++ le_bytes 8 n ++ le_bytes 8 0 ++ le_bytes 4 (kind p) ++ le_bytes 4 code ++ le_bytes 4 7 ++ le_bytes 4 0)))].
Definition is_drain (o : op) : bool := match o with Run a => bool_decide (a = DRAIN) | _ => false end.
Definition published (slot_ : string) (o : op) : bool :=
  match o with Run ["python3"; _; "config-publish"; s; _] => String.eqb s slot_ | _ => false end.
Definition drains (h : history) : Z := len (List.filter is_drain h).
Definition lines (l : list val) : string := String.concat (list_str [chr 10]) (map Json.compact l).
Definition commands (h : history) : result reply :=
  match List.last h Sleep with
  | Run ["python3"; _; "status"; _] =>
      Ok (Reply 0 (if drains h =? 0 then "OK fired=0 errors=0 safe_returns=0 gen=1" else "OK fired=8 errors=0 safe_returns=0 gen=1") "")
  | Run ["python3"; _; "config-status"; s] =>
      Ok (Reply 0 (Json.compact (VDict [("instance", VStr s); ("revision", VInt (len (List.filter (published s) h))); ("entries", VList [])])) "")
  | Run ("python3" :: _) => Ok (Reply 0 "OK signature=verified" "")
  | _ =>
      let n := drains h in
      let p := if n <=? 4 then Program 5 1 "" 0 else Program 6 2 "" 0 in
      let k := 2 * ((n - 1) mod 4) in
      Ok (Reply 0 (if n <=? 8 then lines [frame p (k + 1) 1; frame p (k + 2) 2] else "") "0 drop(s) seen")
  end.
Definition answer : bytes := encode (cat ["HTTP/1.1 200 OK "; quoted "observed"; ":true "; quoted "working"; quoted "done"]).
Definition digest (b : bytes) : string := py_str (len b).
Definition rows : list dict := map (fun '(_, body, _, _) => [("body_sha256", VStr (digest body))]) (CASES ++ CASES).
Definition build_ : build := Build [("a2a", []); ("aimcp", [("object", VStr "m.o"); ("signature", VStr "m.sig")])]
  [("1", VStr "HUDEVT_REQUEST"); ("2", VStr "HUDCTL_RESPONSE")].
Definition go : state metadata * result unit :=
  metadata_test commands (fun _ => Ok tt) (fun _ => Ok tt) (fun _ => Ok answer) (fun s => Json.loads (encode s)) digest
    "/programs" "/results" false false build_ 77 PROGRAMS (fun _ => Ok tt) (fun _ => (rows, 0)) (St [] no_metadata).
End MetadataDemo.

Example metadata_passes : MetadataDemo.go.2 = Ok tt /\ len (events (own MetadataDemo.go.1)) = 16.
Proof. split; vm_compute; reflexivity. Qed.
End Metadata.

Module Scope.

(** ** Records of parser calls *)

Record event := Event {
  magic : Z; abi : Z; instance : Z; call_seq : Z; context_tag : Z; completions : Z; outcome : Z;
  output_failures : Z; flags : Z; reserved : Z }.

Definition SCOPE_FIELDS : list nat := [4; 4; 8; 8; 8; 8; 8; 8; 4; 4]%nat.

Definition scope_event (data : bytes) : result event :=
  if negb (length data =? calcsize SCOPE_FIELDS)%nat then Err StructError else
  match map le_int (chunks SCOPE_FIELDS data) with
  | [m; a; i; q; t; c; r; o; f; z] => Ok (Event m a i q t c r o f z)
  | _ => Err StructError
  end.

(** The dict of a record. *)
Definition event_dict (e : event) : dict :=
  [("magic", VInt (magic e)); ("abi", VInt (abi e)); ("instance", VInt (instance e)); ("call_seq", VInt (call_seq e));
   ("context_tag", VInt (context_tag e)); ("completions", VInt (completions e)); ("result", VInt (outcome e));
   ("output_failures", VInt (output_failures e)); ("flags", VInt (flags e)); ("reserved", VInt (reserved e))].

(** ** [collect] *)

Record phase := Phase {
  ph_name : string; ph_before : counters; ph_after : counters; ph_events : list event; ph_complete : Z;
  ph_connection : option string; ph_attempt : val }.

Record scope := Sc { current : val; phases : list phase }.

(** The list of the phase is filled after the phase is kept. *)
Fixpoint into_last (e : event) (ps : list phase) : list phase :=
  match ps with
  | [] => []
  | [p] => [Phase (ph_name p) (ph_before p) (ph_after p) (ph_events p ++ [e]) (ph_complete p) (ph_connection p) (ph_attempt p)]
  | p :: ps => p :: into_last e ps
  end.

(** What is asserted of each record of a phase. *)
Definition event_ok (current : val) (e : event) : result unit :=
  raise_if (negb ((magic e =? 0x53434F50) && (abi e =? 1))) AssertionError ;;
  let? i := hex_field "instance" current in
  raise_if (negb (instance e =? i)) AssertionError ;;
  raise_if (negb ((flags e =? 0) && (reserved e =? 0) && (output_failures e =? 0))) AssertionError ;;
  raise_if (negb ((0 <? context_tag e) && (0 <? call_seq e))) AssertionError ;;
  raise_if (negb ((outcome e =? 0) || (outcome e =? 17))) AssertionError ;; Ok tt.

Definition completed (es : list event) : list event := List.filter (fun e => outcome e =? 0) es.

Section suite.
Variable finish : history -> result reply.
Variable wait : history -> result unit.
Variable json_loads : string -> result val.

Definition stats : M scope counters := stats_of finish SLOT.

Fixpoint wait_fired (tries : nat) (minimum : Z) : M scope counters :=
  match tries with
  | O => raise AssertionError
  | S tries =>
      let! value := stats in
      let! fired := lift (counter "fired" value) in
      if minimum <=? fired then do! check (fired =? minimum) ;; ret value
      else do! act wait Sleep ;; wait_fired tries minimum
  end.

Definition read_row (row : val) : M scope event :=
  let! hook := lift (subscript "hook" row) in
  let! slot := lift (if val_eqb hook (VStr "prog") then subscript "slot" row else Ok VNone) in
  let! n := lift (if val_eqb slot (VInt 5) then subscript "len" row else Ok VNone) in
  do! check (val_eqb n (VInt 64)) ;;
  let! data := lift (subscript "data" row) in
  let! data := lift (text_hex data) in
  let! e := lift (scope_event data) in
  do! modify (fun x => Sc (current x) (into_last e (phases x))) ;;
  ret e.

Fixpoint read_rows (l : list val) : M scope (list event) :=
  match l with
  | [] => ret []
  | r :: l => let! e := read_row r in let! es := read_rows l in ret (e :: es)
  end.

Definition collect (name : string) (before : counters) (complete calls : Z) (connection : option string) (attempt : val)
    : M scope (list event) :=
  let! after_ := stats in
  let! (drained_, transport) := drained finish json_loads in
  do! modify (fun x => Sc (current x) (phases x ++ [Phase name before after_ [] complete connection attempt])) ;;
  let! es := read_rows transport in
  do! check (no_drops drained_) ;;
  let! a := lift (counter "mode" after_) in
  let! b := lift (counter "mode" before) in
  do! check ((a =? b) && (b =? 1)) ;;
  let! gen := lift (same "gen" before after_) in
  do! check gen ;;
  let! fired := lift (grew "fired" before after_) in
  do! check ((fired =? len es) && (len es =? calls)) ;;
  let! errors := lift (same "errors" before after_) in
  do! check errors ;;
  let! safe := lift (same "safe_returns" before after_) in
  do! check safe ;;
  do! check (len (completed es) =? complete) ;;
  let! c := ask current in
  do! for_each (fun e => lift (event_ok c e)) es ;;
  ret es.
End suite.

(** ** [reconcile] *)

(** The completions a record carries are those of its address so far. *)
Fixpoint counts_ok (counts : gmap Z Z) (es : list event) : result (gmap Z Z) :=
  match es with
  | [] => Ok counts
  | e :: es =>
      let n := default 0 (counts !! context_tag e) + b2z (outcome e =? 0) in
      let counts := <[context_tag e := n]> counts in
      raise_if (negb (completions e =? n)) AssertionError ;; counts_ok counts es
  end.

(** [len({...}) == 1]. *)
Definition one_value (l : list val) : bool :=
  match l with [] => false | v :: l => forallb (val_eqb v) l end.

Definition connected (ps : list phase) : list (phase * string) :=
  flat_map (fun p => match ph_connection p with Some c => [(p, c)] | None => [] end) ps.

Definition ledger_connection (rows : list (string * dict)) (p : phase) : result val :=
  match ph_attempt p with
  | VStr s => match aget s rows with Some r => item "connection" r | None => Err (KeyError s) end
  | VList _ | VDict _ => Err TypeError
  | _ => Err (KeyError "attempt")
  end.

(** The connections seen at each address, and those of the addresses seen at more than one. *)
Fixpoint tagged (pcs : list (phase * string)) (d : list (Z * list string)) : list (Z * list string) :=
  match pcs with
  | [] => d
  | (p, c) :: pcs =>
      tagged pcs (fold_left (fun d e => aset (context_tag e) (put c (default [] (aget (context_tag e) d))) d) (ph_events p) d)
  end.

Definition address_reuse (ps : list phase) : list (string * list string) :=
  map (fun kv => (py_str kv.1, sorted_names kv.2))
      (List.filter (fun kv : Z * list string => (1 <? len kv.2)) (tagged (connected ps) [])).

Definition attempt_of (row : dict) : result val := let? r := item "result" row in subscript "attempt" r.

(** The ledger without the requests made while nothing was armed: the first and the last. *)
Definition armed_ledger (clients ledger : list dict) : result (list dict) :=
  let? first := match clients with r :: _ => attempt_of r | [] => Err IndexError end in
  let? last_ := match rev clients with r :: _ => attempt_of r | [] => Err IndexError end in
  let? kept := mapM_r (fun r => let? a := item "attempt" r in Ok (r, a)) ledger in
  Ok (map fst (List.filter (fun ra : dict * val => negb (val_eqb ra.2 first) && negb (val_eqb ra.2 last_)) kept)).

Definition accounting : dict :=
  [("requests", VInt 59); ("fired", VInt 66); ("events", VInt 66); ("ledger_attempts", VInt 59); ("drops", VInt 0); ("errors", VInt 0)].

(** A client's row is the row of its attempt, with the digest of the body it sent. *)
Definition scope_client (rows : list (string * dict)) (row : dict) : result unit :=
  let? res := item "result" row in
  let? a := subscript "attempt" res in
  let? observed := match a with
                   | VStr s => match aget s rows with Some r => Ok r | None => Err (KeyError s) end
                   | _ => Err TypeError
                   end in
  raise_if (negb (val_eqb (VDict observed) res)) AssertionError ;;
  let? theirs := item "body_sha256" observed in
  let? mine := item "body_sha256" row in
  raise_if (negb (val_eqb theirs mine)) AssertionError ;; Ok tt.

Record scope_summary := Summary {
  sm_join : list dict; sm_reuse : list (string * list string); sm_accepted : Z; sm_rejected : Z; sm_tags : Z }.

Definition counters_ok (first last : counters) (n : Z) : result unit :=
  let? fired := grew "fired" first last in
  raise_if (negb (fired =? n)) AssertionError ;;
  let? errors := same "errors" first last in
  raise_if (negb errors) AssertionError ;;
  let? safe := same "safe_returns" first last in
  raise_if (negb safe) AssertionError ;; Ok tt.

Definition shared_ok (rows : list (string * dict)) (ps : list phase) : result unit :=
  let shared := ztake 19 (connected ps) in
  raise_if (negb (one_value (map (fun pc => VStr pc.2) shared))) AssertionError ;;
  let? cs := mapM_r (fun pc => ledger_connection rows pc.1) shared in
  raise_if (negb (one_value cs)) AssertionError ;;
  raise_if (negb (one_value (flat_map (fun pc => map (fun e => VInt (context_tag e)) (ph_events pc.1)) shared))) AssertionError ;;
  Ok tt.

Definition is_unknown (r : dict) : bool :=
  val_eqb (getv "status" r) (VStr "unknown") && val_eqb (getv "reason" r) (VStr "unvalidated_request_scope").

Definition reconcile (ps : list phase) (first last : counters) (clients ledger : list dict) (errors : list string)
    : result scope_summary :=
  let es := flat_map ph_events ps in
  raise_if (negb ((len clients =? len ledger) && (len ledger =? 61))) AssertionError ;;
  raise_if (negb ((len es =? 66) && (len (completed es) =? 59))) AssertionError ;;
  let? _ := counters_ok first last (len es) in
  raise_if (match errors with [] => false | _ => true end) AssertionError ;;
  let? peers := mapM_r peer_of ledger in
  raise_if (negb (negb (bool_decide (peers = [])) && forallb (String.eqb PEER) peers)) AssertionError ;;
  let? rows := by_attempt ledger in
  raise_if (negb (len rows =? len ledger)) AssertionError ;;
  let? _ := all_r (scope_client rows) clients in
  raise_if (negb (bool_decide (map call_seq es = seqZ 1 66))) AssertionError ;;
  let? counts := counts_ok ∅ es in
  let? _ := shared_ok rows ps in
  let? armed := armed_ledger clients ledger in
  let joined := Attribution.join (map event_dict (completed es)) armed accounting (VBool false) in
  raise_if (negb (len joined =? 59)) AssertionError ;;
  raise_if (negb (forallb is_unknown joined)) AssertionError ;;
  let? accepted := accepted_sum ledger in
  Ok (Summary joined (address_reuse ps) accepted (len (List.filter (fun r => negb (truthy (getv "accepted" r))) ledger))
        (Z.of_nat (size counts))).

(** ** What reconciling shows, and what it refuses *)

(** The completions of an address among some records. *)
Definition completions_at (tag : Z) (es : list event) : Z :=
  len (List.filter (fun e => context_tag e =? tag) (completed es)).

Lemma completions_snoc tag e es :
  completions_at tag (es ++ [e]) = completions_at tag es + (if context_tag e =? tag then b2z (outcome e =? 0) else 0).
Proof.
  unfold completions_at, completed. rewrite !List.filter_app, len_app. cbn [List.filter].
  destruct (outcome e =? 0); cbn [List.filter]; destruct (context_tag e =? tag); reflexivity.
Qed.

Lemma counts_exact es : forall pre counts counts', counts_ok counts es = Ok counts' ->
  (forall tag, default 0 (counts !! tag) = completions_at tag pre) ->
  forall i e, es !! i = Some e -> completions e = completions_at (context_tag e) (pre ++ take (S i) es).
Proof.
  induction es as [|x es IH]; intros pre counts counts' H Hc i e Hi; [done|]. cbn [counts_ok] in H.
  destruct (completions x =? _) eqn:E; [|done]. cbn [negb] in H. apply Z.eqb_eq in E.
  assert (default 0 (counts !! context_tag x) + b2z (outcome x =? 0) = completions_at (context_tag x) (pre ++ [x])) as Hx.
  { rewrite completions_snoc, Z.eqb_refl, Hc. done. }
  destruct i as [|i]; cbn [lookup] in Hi.
  - injection Hi as <-. rewrite E. exact Hx.
  - cbn [take]. change (pre ++ x :: take (S i) es) with (pre ++ [x] ++ take (S i) es). rewrite app_assoc.
    eapply (IH (pre ++ [x])); [exact H| |exact Hi]. intros tag. rewrite completions_snoc.
    destruct (context_tag x =? tag) eqn:Et.
    + apply Z.eqb_eq in Et. subst tag. rewrite lookup_insert_eq. cbn. by rewrite Hc.
    + apply Z.eqb_neq in Et. rewrite lookup_insert_ne by done. rewrite Hc. lia.
Qed.

(** A join asked without a validated scope names nobody. *)
Lemma closed_join es ledger acc : Forall (fun r => getv "status" r = VStr "unknown" /\ getv "authenticated_actor" r = VNone /\
  getv "operation" r = VNone /\ getv "originator" r = VNone) (Attribution.join es ledger acc (VBool false)).
Proof. unfold Attribution.join. apply Forall_fmap, Forall_true. intros e. by vm_compute. Qed.

(** A reconciled run has counted and named nobody: the calls are numbered from one, each
    carries the completions of its address up to it, every client row is the row the
    authority kept of its attempt, and yet no row of the join has an actor or an operation:
    the same address is not the same object. *)
Theorem scope_stays_closed ps first last clients ledger errors s :
  reconcile ps first last clients ledger errors = Ok s ->
  let es := flat_map ph_events ps in
  map call_seq es = seqZ 1 (len es) /\ grew "fired" first last = Ok (len es) /\
  (forall i e, es !! i = Some e -> completions e = completions_at (context_tag e) (take (S i) es)) /\
  len (sm_join s) = len (completed es) /\
  Forall (fun r => getv "status" r = VStr "unknown" /\ getv "authenticated_actor" r = VNone /\
                   getv "operation" r = VNone /\ getv "originator" r = VNone) (sm_join s).
Proof.
  unfold reconcile. set (es := flat_map ph_events ps). cbv zeta.
  destruct ((len clients =? _) && _); [|done]. destruct ((len es =? 66) && (len (completed es) =? 59)) eqn:E; [|done].
  cbn [negb]. apply andb_true_iff in E as [El Ec]. apply Z.eqb_eq in El, Ec.
  destruct (counters_ok first last (len es)) as [u|] eqn:Ef; [|done]. cbn [negb].
  intros H. repeat (case_match; [try discriminate H|]; try discriminate H); simplify_eq. bool_prop.
  match goal with H : counts_ok ∅ es = _ |- _ => pose proof (counts_exact es [] ∅ _ H (fun _ => eq_refl)) as Hcount end.
  match goal with H : bool_decide (map call_seq es = _) = true |- _ => apply bool_decide_eq_true in H; rewrite H end.
  cbn [sm_join]. split_and!; [by rewrite El| |exact Hcount| |apply closed_join].
  - unfold counters_ok in Ef. destruct (grew "fired" first last) as [n|]; [|done].
    destruct (n =? len es) eqn:E1; [|done]. by apply Z.eqb_eq in E1 as ->.
  - unfold Attribution.join, len. by rewrite !length_map.
Qed.

(** Nineteen requests of one connection, and forty-seven calls of another address. *)
Module ScopeDemo.
Definition attempt (i : Z) : string := cat ["a"; py_str i].
Definition ledger : list dict :=
  map (fun i => [("attempt", VStr (attempt i)); ("body_sha256", VStr (attempt i)); ("peer", VList [VStr PEER; VInt 1]);
                 ("connection", VStr "x"); ("accepted", VBool (i <? 60))]) (range 61).
Definition clients : list dict :=
  map (fun r => [("result", VDict r); ("body_sha256", getv "body_sha256" r)]) ledger.
Definition call (n tag done_ code : Z) : event := Event 0x53434F50 1 7 n tag done_ code 0 0 0.
Definition ps : list phase :=
  map (fun i => Phase "keepalive" [] [] [call (i + 1) 9 (i + 1) 0] 1 (Some "k") (VStr (attempt (i + 1)))) (range 19) ++
  [Phase "rest" [] [] (map (fun i => call (i + 20) 8 (Z.min 40 (i + 1)) (if i <? 40 then 0 else 17)) (range 47)) 40 None VNone].
Definition first : counters := [("fired", 4); ("errors", 0); ("safe_returns", 1)].
Definition last : counters := [("fired", 70); ("errors", 0); ("safe_returns", 1)].
Definition result_of (r : result scope_summary) : Z * Z * Z * Z :=
  match r with Ok s => (len (sm_join s), sm_accepted s, sm_rejected s, sm_tags s) | Err _ => (0, 0, 0, 0) end.
End ScopeDemo.

Example scope_reconciles :
  ScopeDemo.result_of (reconcile ScopeDemo.ps ScopeDemo.first ScopeDemo.last ScopeDemo.clients ScopeDemo.ledger []) = (59, 60, 1, 2).
Proof. vm_compute. reflexivity. Qed.
End Scope.
